(* ===== verification/_CoqProject ===== *)
-Q . S2P
Prelude.v
CMem.v
Prog.v
PthreadH.v
Phal.v
Interleave.v
Internal.v
Exec.v
Mutex.v
MutexSpec.v
Cond.v
Sem.v
RwLock.v
Barrier.v
Spin.v
Tls.v
Thread.v
Attr.v
Scenario.v
Deadlocks.v
MutexProtocol.v
MutexExcl.v
OnceExcl.v
LzmaBase.v
Vli.v
CrcTables.v
Crc.v
StreamFlags.v
Coder.v
Delta.v
Simple.v
SimpleIa64.v
SimpleCoder.v
SimpleX86.v
LzDict.v
RangeDecoder.v
Lzma.v
LzmaSafe.v
LzmaRun.v
LzmaResume.v
LzDecoder.v
Lzma2.v
VliStream.v
Filters.v
Sha256Spec.v
Sha256.v
BioSha256.v
Check.v
BlockHeader.v
IndexHash.v
BioTypes.v
BioMutex.v
BioFs.v
BioElf.v
BioLd.v
Witnesses.v
