(* ===== verification/Prelude.v ===== *)
(** * Biosphere: a verification development

    Biosphere (src/) is a toolchain for programs on the Switch console: a
    C/C++ run-time library, a POSIX threads library on top of it, vendored
    libraries for compression and mathematics, and tools for the host. This
    library models the parts that carry logic of their own and proves what
    makes them correct, or shows where they are not.

    ** The program's parts

    - src/libbio, the run-time library: it talks to the kernel and the services,
      keeps the table of mounted file systems and of open files, loads modules
      (a dynamic linker), and implements the thread HAL;
    - src/pthread, a port of OpenBSD's librthread: it sees the console only
      through phal.h, the thread HAL, which
      src/libbio/source/bio/crt0/crt0_Newlib.cpp implements;
    - src/xz/src/liblzma, the decoders of xz, built by src/mk/liblzma.mk for a
      little-endian 64-bit target without threads;
    - src/openlibm, src/examples, src/include (vendored), src/flora and
      src/fauna (a system module and a desktop tool), src/utils.

    ** Conventions

    An integer is a [Z] with the conversions of this file ([u8], [u32], [u64],
    [i32]) where the source converts or wraps. The names are those of the
    source; a definition whose name is new is a loop or a block of the function
    it belongs to, and is used there.

    Code that runs concurrently (pthread) is a term of the type [prog] of Prog.v,
    the syntax of a C body over a heap of members, and is evaluated alone
    ([run]) or interleaved with other threads, one memory access at a time
    (Interleave.v). Code that is sequential (liblzma, most of libbio) is a
    function in the option monad, where [None] is an access outside a buffer or
    a failed assertion; the theorems show it does not happen. Code that is not
    in the repository (kernel calls, services, the allocator, the next coder
    of a chain, reached through a pointer) is a parameter.

    ** The pthread library

    - CMem.v: objects, members, the heap. Prog.v: programs and [run].
      Exec.v: symbolic execution. Interleave.v: interleavings and the protocol
      logic that verifies each thread alone.
    - PthreadH.v: constants and layouts (include/pthread.h, thread_private.h,
      rthread.h). Phal.v: phal.h as a class, what it documents ([DocPhal]) and
      what libbio implements ([BioPhal]). Internal.v: rthread_internal.c,
      rthread_debug.c.
    - Mutex.v (rthread_mutex.c, rthread_mutex_prio.c), Cond.v (rthread_cond.c),
      Sem.v (rthread_sem.c), RwLock.v (rthread_rwlock.c), Barrier.v
      (rthread_barrier.c, rthread_once.c), Spin.v (rthread_spin_lock.c), Tls.v
      (rthread_tls.c), Thread.v (rthread_thread.c), Attr.v (rthread_attr.c,
      rthread_sched.c, sched_prio.c, rthread_sig.c): one definition per function
      and the theorems on it.
    - MutexSpec.v: the abstract mutex, and that every branch of the locking calls
      implements it. MutexProtocol.v: what any number of threads do with the lock
      word and the owner of one mutex, for any client, what the mutex protects;
      MutexExcl.v (a critical section) and OnceExcl.v (pthread_once) are clients.
      Deadlocks.v: schedules that end in a deadlock. Scenario.v, Witnesses.v:
      concrete states and the theorems applied to them.

    State: a mutex, a condition and the other objects are heap objects with the
    members of thread_private.h; BSD queues are lists in [w_queues]; a HAL
    semaphore is an owner and the threads asleep; failing allocations and
    interrupted waits are oracles in the world.

    Theorems: each locking call alone does what the abstract mutex, semaphore
    or read-write lock says on every branch, errors, aborts and calls that
    never return included (refinement); a thread that sleeps in a semaphore goes
    on as the abstract one from whatever state it is woken in; any number of
    threads are never in the critical section together, and any number of callers
    of pthread_once run the routine at most once and return after it (safety);
    thread-specific data, keys, join and attributes do what POSIX says where the
    code does; and, as theorems of their own, a lost wake-up, a deadlock of a signal
    with a waiter, a write lock that cannot be used again and stale values of
    deleted keys. The theorems on one mutex and on pthread_once are about a mutex
    that exists; that a static one is created at its first lock, or not for want of
    memory, is in MutexSpec.v, and likewise for read-write locks in RwLock.v.

    ** liblzma

    - LzmaBase.v: return codes (api/lzma/base.h), buffers, word access
      (src/xz/src/common/tuklib_integer.h). Vli.v: common/vli_*.c. CrcTables.v
      and Crc.v: check/crc*.c. StreamFlags.v: common/stream_flags_*.c.
    - Coder.v: a coder in a chain (common/common.c, common/common.h), the class
      [NextCoder] that a coder asks of the next one, and runs of calls. Delta.v:
      delta/. Simple.v and SimpleIa64.v: simple/arm.c, armthumb.c, powerpc.c,
      sparc.c, ia64.c, and the class [Window] of a filter that converts fixed
      windows. SimpleCoder.v: simple/simple_coder.c, the wrapper that makes any
      instance of the class [Filter] a coder of a chain.
      SimpleX86.v: simple/x86.c, the filter with a state, an instance of [Filter].
    - LzDict.v: lz/lz_decoder.h, the dictionary. RangeDecoder.v: rangecoder/.
      Lzma.v: lzma/lzma_decoder.c, a step per label of its switch; LzmaSafe.v,
      LzmaRun.v and LzmaResume.v: its safety, its calls, and stopping and resuming.
      LzDecoder.v: lz/lz_decoder.c, a coder over any instance of the class [LzCore];
      Lzma2.v: lzma/lzma2_decoder.c, an instance.
    - VliStream.v: integers read in pieces. Filters.v: common/filter_*.c.
      BlockHeader.v: common/block_util.c, block_header_decoder.c. IndexHash.v:
      common/index_hash.c, index.h.
    - Sha256Spec.v: the SHA-256 of FIPS 180-4 over a whole message. Sha256.v:
      check/sha256.c. Check.v: check/check.c, the four checks behind one
      interface.

    Theorems: decoding gives back what was encoded (integers, stream headers,
    delta, branch filters); a decoder may be stopped and resumed
    anywhere with the same result; only canonical encodings are accepted; the
    table-driven CRCs with the checked-in tables are the bit-serial CRCs at every
    alignment; the SHA-256 is the standard's in whatever pieces the data comes, and
    the check interface gives for every identifier the check of all the data; the
    filters in a chain put out a prefix, and at the end all, of what the filter makes
    of the data at once, whatever the sizes of the buffers; the LZMA and LZMA2
    decoders are safe and end on any input, and may be stopped anywhere; the Block
    Header decoder accepts exactly the encodings of sizes and filters; the Index of
    the Blocks that were decoded is accepted, and what is accepted has their sums.

    ** libbio

    - BioTypes.v: results and errno (bio_Types.cpp). BioMutex.v: os/os_Mutex.cpp.
      BioFs.v: fs/fs_Device.cpp and the files of fs/fs_FspImpl.cpp. BioElf.v: bytes in
      memory and the structures of the ELF specification, independently of the code.
      BioLd.v: ld/ld_Dynamic.cpp.
    - BioSha256.v: crt0/crt0_sha256.cpp (include/sha256.h).

    Theorems: mutual exclusion of the mutex in every interleaving and whichever
    waiter the kernel hands it to; a recursive mutex that is never given back;
    every path and what the fixed arrays hold of it; the mount table and descriptors;
    symbol lookup and relocation, byte by byte, against the ELF specification, and a
    name for which the hash of the code is not the specification's; the
    run-time library's SHA-256 is the standard's too, but its update loop never
    ends for 2^32 bytes or more.

    ** Fuel and bounds

    A loop of a [prog] takes the fuel of [run], and the theorems hold for every
    fuel above a stated bound; [run_mono] says more never changes a finished run.
    The other loops recurse on the length of their data, or take as fuel the
    length of the buffer or the number of steps the code can make, which the
    theorems show to be enough by giving the result: the nine bytes of the
    longest integer (Vli.v), one more than the length of the buffer (Simple.v),
    64 steps for each byte of room in the dictionary ([decode_fuel], Lzma.v), two
    rounds for each byte of input ([lzma2_fuel], Lzma2.v), the bytes of input and
    output ([buffer_fuel], LzDecoder.v), the number of entries of the dynamic
    section, of symbols and of characters of a name (BioLd.v).

    ** Not modelled, and why

    - liblzma: the encoders (not built for the target) except where a round trip
      needs one; the coders that read a Block and a Stream and lzma_index (a balanced
      tree over allocated memory); the big-endian tables and the assembly.
    - libbio: the services (marshalling for remote servers), the entry point and
      the assembly; _inner_Load of the linker (file and IPC work); the newlib
      stubs that only answer ENOSYS.
    - pthread: nothing; the debug output is a no-op at the built-in level.
    - openlibm, the interpreter and the programs in src/examples and the headers in
      src/include are vendored; the command line tools of xz are not built;
      flora and fauna are glue over libraries outside the repository.

    ** What would come next

    The Block and Stream decoders over the parts that are here; the creation of a
    static mutex by racing threads in MutexProtocol.v; the command buffers of
    libbio's IPC; the events and memory of libbio. *)

From stdpp Require Import base list gmap strings.
From Stdlib Require Import ZArith Lia.

Declare Scope c_scope.
Delimit Scope c_scope with C.

(** ** Machine integers

    C integers are kept as [Z]; the functions below are the conversions to the
    widths the sources use. *)
Section MachineIntegers.
Local Open Scope Z_scope.

Definition wrap (w : Z) (x : Z) : Z := x mod 2 ^ w.
Definition u8 : Z -> Z := wrap 8.
Definition u16 : Z -> Z := wrap 16.
Definition u32 : Z -> Z := wrap 32.
Definition u64 : Z -> Z := wrap 64.
Definition i32 (x : Z) : Z := (x + 2 ^ 31) mod 2 ^ 32 - 2 ^ 31.

Definition INT_MAX : Z := 2147483647.
Definition UINT_MAX : Z := 4294967295.

Lemma wrap_range w x : 0 <= w -> 0 <= wrap w x < 2 ^ w.
Proof. intros. apply Z.mod_pos_bound, Z.pow_pos_nonneg; lia. Qed.

Lemma wrap_small w x : 0 <= x < 2 ^ w -> wrap w x = x.
Proof. apply Z.mod_small. Qed.

Lemma i32_range x : - 2 ^ 31 <= i32 x < 2 ^ 31.
Proof.
  unfold i32. pose proof (Z.mod_pos_bound (x + 2 ^ 31) (2 ^ 32) eq_refl). lia.
Qed.

Lemma i32_small x : - 2 ^ 31 <= x < 2 ^ 31 -> i32 x = x.
Proof. intros. unfold i32. rewrite Z.mod_small; lia. Qed.
End MachineIntegers.
