(* ===== verification/CMem.v ===== *)
(** * C memory: objects, member paths and the heap

    A C object (a static variable, a [calloc]ed struct, a caller's variable) is
    a number; a location is an object with the path of the member designated
    inside it, so [&mutex->lock] is [(mutex, [f_lock])] and
    [&thread->donesem.value] is [(thread, [f_donesem; f_value])].  The heap maps
    the locations that exist to the integer or pointer they hold. *)

From stdpp Require Import base list gmap countable.
From Stdlib Require Import ZArith Lia.
From S2P Require Import Prelude.
Local Open Scope Z_scope.

(** Member names of the modelled C structs, array subscripts ([f_idx]) and the
    static variables of the modelled files. *)
Inductive fld : Set :=
| f_idx (i : Z)
| f_waitcount
| f_value
| f_sem
| f_shared
| f_ph_lock
| f_ph_sem
| f_lock
| f_type
| f_owner
| f_count
| f_prioceiling
| f_clock
| f_mutex
| f_ma_type
| f_ma_protocol
| f_ma_prioceiling
| f_ca_clock
| f_stack_addr
| f_stack_size
| f_guard_size
| f_detach_state
| f_contention_scope
| f_sched_policy
| f_sched_param
| f_sched_inherit
| f_keyid
| f_next
| f_data
| f_fn
| f_arg
| f_donesem
| f_flags
| f_flags_lock
| f_retval
| f_attr
| f_local_storage
| f_cleanup_fns
| f_tib_cantcancel
| f_tib_cancel_point
| f_tib_canceled
| f_tib_errno
| f_tib_thread_flags
| f_tib_tid
| f_delayed_cancel
| f_writers
| f_readers
| f_pshared
| f_cond
| f_threshold
| f_in
| f_out
| f_generation
| f_state
| f_static_init_lock
| f_rwlock_init_lock
| f_rkeyslock
| f_rkeys
| f_hint
| f_used
| f_destructor
| f_threads_inited
| f_debug_level
| f_threads_ready
| f_post_threaded
| f_thread_pagesize
| f_thread_list
| f_thread_lock
| f_thread_gc_list
| f_thread_gc_lock
| f_concurrency_level
| f_attr_default.

(** Decidable equality and countability by numbering the names. *)
Definition fld_code (f : fld) : nat * Z :=
  match f with
  | f_idx i => (0%nat, i)
  | f_waitcount => (1%nat, 0)
  | f_value => (2%nat, 0)
  | f_sem => (3%nat, 0)
  | f_shared => (4%nat, 0)
  | f_ph_lock => (5%nat, 0)
  | f_ph_sem => (6%nat, 0)
  | f_lock => (7%nat, 0)
  | f_type => (8%nat, 0)
  | f_owner => (9%nat, 0)
  | f_count => (10%nat, 0)
  | f_prioceiling => (11%nat, 0)
  | f_clock => (12%nat, 0)
  | f_mutex => (13%nat, 0)
  | f_ma_type => (14%nat, 0)
  | f_ma_protocol => (15%nat, 0)
  | f_ma_prioceiling => (16%nat, 0)
  | f_ca_clock => (17%nat, 0)
  | f_stack_addr => (18%nat, 0)
  | f_stack_size => (19%nat, 0)
  | f_guard_size => (20%nat, 0)
  | f_detach_state => (21%nat, 0)
  | f_contention_scope => (22%nat, 0)
  | f_sched_policy => (23%nat, 0)
  | f_sched_param => (24%nat, 0)
  | f_sched_inherit => (25%nat, 0)
  | f_keyid => (26%nat, 0)
  | f_next => (27%nat, 0)
  | f_data => (28%nat, 0)
  | f_fn => (29%nat, 0)
  | f_arg => (30%nat, 0)
  | f_donesem => (31%nat, 0)
  | f_flags => (32%nat, 0)
  | f_flags_lock => (33%nat, 0)
  | f_retval => (34%nat, 0)
  | f_attr => (35%nat, 0)
  | f_local_storage => (36%nat, 0)
  | f_cleanup_fns => (37%nat, 0)
  | f_tib_cantcancel => (38%nat, 0)
  | f_tib_cancel_point => (39%nat, 0)
  | f_tib_canceled => (40%nat, 0)
  | f_tib_errno => (41%nat, 0)
  | f_tib_thread_flags => (42%nat, 0)
  | f_tib_tid => (43%nat, 0)
  | f_delayed_cancel => (44%nat, 0)
  | f_writers => (45%nat, 0)
  | f_readers => (46%nat, 0)
  | f_pshared => (47%nat, 0)
  | f_cond => (48%nat, 0)
  | f_threshold => (49%nat, 0)
  | f_in => (50%nat, 0)
  | f_out => (51%nat, 0)
  | f_generation => (52%nat, 0)
  | f_state => (53%nat, 0)
  | f_static_init_lock => (54%nat, 0)
  | f_rwlock_init_lock => (55%nat, 0)
  | f_rkeyslock => (56%nat, 0)
  | f_rkeys => (57%nat, 0)
  | f_hint => (58%nat, 0)
  | f_used => (59%nat, 0)
  | f_destructor => (60%nat, 0)
  | f_threads_inited => (61%nat, 0)
  | f_debug_level => (62%nat, 0)
  | f_threads_ready => (63%nat, 0)
  | f_post_threaded => (64%nat, 0)
  | f_thread_pagesize => (65%nat, 0)
  | f_thread_list => (66%nat, 0)
  | f_thread_lock => (67%nat, 0)
  | f_thread_gc_list => (68%nat, 0)
  | f_thread_gc_lock => (69%nat, 0)
  | f_concurrency_level => (70%nat, 0)
  | f_attr_default => (71%nat, 0)
  end.

Definition fld_names : list fld :=
  [ f_waitcount; f_value; f_sem; f_shared; f_ph_lock;
    f_ph_sem; f_lock; f_type; f_owner; f_count;
    f_prioceiling; f_clock; f_mutex; f_ma_type; f_ma_protocol;
    f_ma_prioceiling; f_ca_clock; f_stack_addr; f_stack_size; f_guard_size;
    f_detach_state; f_contention_scope; f_sched_policy; f_sched_param; f_sched_inherit;
    f_keyid; f_next; f_data; f_fn; f_arg;
    f_donesem; f_flags; f_flags_lock; f_retval; f_attr;
    f_local_storage; f_cleanup_fns; f_tib_cantcancel; f_tib_cancel_point; f_tib_canceled;
    f_tib_errno; f_tib_thread_flags; f_tib_tid; f_delayed_cancel; f_writers;
    f_readers; f_pshared; f_cond; f_threshold; f_in;
    f_out; f_generation; f_state; f_static_init_lock; f_rwlock_init_lock;
    f_rkeyslock; f_rkeys; f_hint; f_used; f_destructor;
    f_threads_inited; f_debug_level; f_threads_ready; f_post_threaded; f_thread_pagesize;
    f_thread_list; f_thread_lock; f_thread_gc_list; f_thread_gc_lock; f_concurrency_level;
    f_attr_default ].

Definition fld_decode (c : nat * Z) : fld :=
  match c with
  | (O, i) => f_idx i
  | (S n, _) => nth n fld_names (f_idx 0)
  end.

Lemma fld_decode_code f : fld_decode (fld_code f) = f.
Proof. by destruct f. Qed.

#[export] Instance fld_eq_dec : EqDecision fld.
Proof.
  intros f g.
  destruct (decide (fld_code f = fld_code g)) as [E | E].
  - left. by rewrite <- (fld_decode_code f), E, fld_decode_code.
  - right. by intros ->.
Defined.

#[export] Instance fld_countable : Countable fld :=
  inj_countable' fld_code fld_decode fld_decode_code.

Notation loc := (Z * list fld)%type.
Notation heap := (gmap (Z * list fld) Z).

(** [l .@ f] is the member [f] of the struct at [l]. *)
Definition member (l : loc) (f : fld) : loc := (l.1, l.2 ++ [f]).
Notation "l .@ f" := (member l f) (at level 1, left associativity, format "l .@ f").

Lemma member_inj l f g : l.@f = l.@g -> f = g.
Proof. intros H. apply (f_equal snd), app_inv_head in H. by injection H. Qed.

(** A stored pointer designates the start of an object; [NULL] is object 0. *)
Definition NULL : Z := 0.
Definition ptr (b : Z) : loc := (b, []).
Definition is_null (l : loc) : bool :=
  (l.1 =? NULL) && match l.2 with [] => true | _ => false end.

Lemma is_null_false l : l <> ptr NULL -> is_null l = false.
Proof.
  intros H. apply not_true_is_false. intros E. apply H. destruct l as [b [|]];
    unfold is_null in E; simpl in E; [| by rewrite andb_false_r in E].
  rewrite andb_true_r in E. by apply Z.eqb_eq in E as ->.
Qed.

(** [calloc] of a struct with the given members: all of them zero. *)
Definition heap_alloc (b : Z) (ms : list (list fld)) (h : heap) : heap :=
  foldr (fun m h => <[(b, m) := 0]> h) h ms.

Definition heap_live (b : Z) (h : heap) : bool :=
  existsb (fun kv => kv.1.1 =? b) (map_to_list h).

Definition heap_free (b : Z) (h : heap) : heap :=
  filter (fun kv => kv.1.1 <> b) h.

Lemma heap_alloc_lookup b ms h m :
  m ∈ ms -> heap_alloc b ms h !! (b, m) = Some 0.
Proof.
  induction ms as [| m' ms IH]; [by intros ?%not_elem_of_nil |].
  simpl. intros Hin. destruct (decide (m' = m)) as [-> | Hne].
  - by rewrite lookup_insert_eq.
  - rewrite lookup_insert_ne by congruence.
    apply IH. by apply elem_of_cons in Hin as [-> | ?].
Qed.

Lemma heap_alloc_lookup_ne b ms h l :
  l.1 <> b -> heap_alloc b ms h !! l = h !! l.
Proof.
  intros Hne. induction ms as [| m ms IH]; [done |]. simpl.
  rewrite lookup_insert_ne; [done |]. intros <-. by apply Hne.
Qed.

Lemma heap_free_lookup_ne b h l : l.1 <> b -> heap_free b h !! l = h !! l.
Proof.
  intros Hne. unfold heap_free. destruct (h !! l) as [v |] eqn:E.
  - by apply map_lookup_filter_Some.
  - apply map_lookup_filter_None. by left.
Qed.

Lemma heap_free_lookup b h m : heap_free b h !! (b, m) = None.
Proof. apply map_lookup_filter_None. right. intros v _ Hne. by apply Hne. Qed.

Lemma heap_live_lookup b m v h : h !! (b, m) = Some v -> heap_live b h = true.
Proof.
  intros H. apply existsb_exists. exists ((b, m), v). split.
  - by apply list_elem_of_In, elem_of_map_to_list.
  - simpl. apply Z.eqb_refl.
Qed.

Lemma heap_live_free b h : heap_live b (heap_free b h) = false.
Proof.
  apply not_true_is_false. intros ([[b' m] v] & Hin & E)%existsb_exists.
  apply Z.eqb_eq in E. simpl in E. subst b'.
  apply list_elem_of_In, elem_of_map_to_list in Hin.
  by rewrite heap_free_lookup in Hin.
Qed.
