(* ===== verification/Prog.v ===== *)
(** * Programs over the C memory

    [prog A] is the syntax of a C function body returning an [A]: memory
    accesses, atomic read-modify-write operations, calls to the C library and
    to the thread HAL, and loops.  The same program is evaluated sequentially
    ([run], executable) and interleaved with other threads ([step]). *)

From stdpp Require Import base list gmap strings.
From Stdlib Require Import ZArith Lia.
From S2P Require Import Prelude CMem.
Local Open Scope Z_scope.

(** ** The state

    [hsem] is the documented state of one [phal_semaphore] (phal.h): the thread
    holding its lock and the threads asleep in [phal_semaphore_wait]. *)
Record hsem := HSem { h_owner : option nat; h_waiting : list nat }.

Definition hsem_init : hsem := HSem None [].

(** [w_queues] holds the contents of the BSD queue heads (<sys/queue.h>).
    [w_oom] and [w_intr] are the outcomes of the coming allocations ([true]:
    out of memory) and of the coming HAL waits (0: woken normally, otherwise the
    error code that interrupts the wait).  [w_debug_env] is RTHREAD_DEBUG as
    [strtol] reads it, with whether the whole string was a number. *)
Record world := World {
  w_heap : heap;
  w_queues : gmap (Z * list fld) (list Z);
  w_hal : gmap (Z * list fld) hsem;
  w_next : Z;
  w_errno : gmap nat Z;
  w_oom : list bool;
  w_intr : list Z;
  w_debug_env : option (Z * bool);
  w_out : list string;
  w_spawned : list (Z * Z);
  w_marks : list (nat * Z)
}.

Definition set_heap x (w : world) : world :=
  World x (w_queues w) (w_hal w) (w_next w) (w_errno w) (w_oom w) (w_intr w)
    (w_debug_env w) (w_out w) (w_spawned w) (w_marks w).
Definition set_queues x (w : world) : world :=
  World (w_heap w) x (w_hal w) (w_next w) (w_errno w) (w_oom w) (w_intr w)
    (w_debug_env w) (w_out w) (w_spawned w) (w_marks w).
Definition set_hal x (w : world) : world :=
  World (w_heap w) (w_queues w) x (w_next w) (w_errno w) (w_oom w) (w_intr w)
    (w_debug_env w) (w_out w) (w_spawned w) (w_marks w).
Definition set_next x (w : world) : world :=
  World (w_heap w) (w_queues w) (w_hal w) x (w_errno w) (w_oom w) (w_intr w)
    (w_debug_env w) (w_out w) (w_spawned w) (w_marks w).
Definition set_errno x (w : world) : world :=
  World (w_heap w) (w_queues w) (w_hal w) (w_next w) x (w_oom w) (w_intr w)
    (w_debug_env w) (w_out w) (w_spawned w) (w_marks w).
Definition set_oom x (w : world) : world :=
  World (w_heap w) (w_queues w) (w_hal w) (w_next w) (w_errno w) x (w_intr w)
    (w_debug_env w) (w_out w) (w_spawned w) (w_marks w).
Definition set_intr x (w : world) : world :=
  World (w_heap w) (w_queues w) (w_hal w) (w_next w) (w_errno w) (w_oom w) x
    (w_debug_env w) (w_out w) (w_spawned w) (w_marks w).
Definition set_out x (w : world) : world :=
  World (w_heap w) (w_queues w) (w_hal w) (w_next w) (w_errno w) (w_oom w) (w_intr
    w) (w_debug_env w) x (w_spawned w) (w_marks w).
Definition set_spawned x (w : world) : world :=
  World (w_heap w) (w_queues w) (w_hal w) (w_next w) (w_errno w) (w_oom w) (w_intr
    w) (w_debug_env w) (w_out w) x (w_marks w).
Definition set_marks x (w : world) : world :=
  World (w_heap w) (w_queues w) (w_hal w) (w_next w) (w_errno w) (w_oom w) (w_intr
    w) (w_debug_env w) (w_out w) (w_spawned w) x.

(** ** Atomic actions *)
Inductive action : Type -> Type :=
| Load (l : Z * list fld) : action Z
| Store (l : Z * list fld) (v : Z) : action unit
| Cas (l : Z * list fld) (old new : Z) : action Z
| Xchg (l : Z * list fld) (v : Z) : action Z
| FetchSub (l : Z * list fld) (v : Z) : action Z
| Calloc (ms : list (list fld)) : action Z
| Free (b : Z) : action unit
| QInit (l : Z * list fld) : action unit
| QList (l : Z * list fld) : action (list Z)
| QInsertHead (l : Z * list fld) (v : Z) : action unit
| QInsertTail (l : Z * list fld) (v : Z) : action unit
| QRemove (l : Z * list fld) (v : Z) : action unit
| Tls : action (Z * list fld)%type
| SetErrno (e : Z) : action unit
| GetErrno : action Z
| GetDebugEnv : action (option (Z * bool))
| Print (s : string) : action unit
| Abort : action unit
| Yield : action unit
| CallFn (f arg : Z) : action Z
| Mark (z : Z) : action unit
| HLock (l : Z * list fld) : action unit
| HUnlock (l : Z * list fld) : action unit
| HSignal (l : Z * list fld) : action unit
| HBroadcast (l : Z * list fld) : action unit
| HWaitBegin (l : Z * list fld) : action unit
| HWaitEnd (l : Z * list fld) : action Z
| HSpawn (f arg : Z) : action Z.

(** Outcome of one action: it ran, the thread has to wait, the behaviour is
    undefined (an access outside the live objects, a double free, ...), or the
    process called [abort]. *)
Inductive ares (R : Type) : Type :=
| AOk (w : world) (r : R)
| ABlock
| AUb
| AAbort.
Arguments AOk {R} w r.
Arguments ABlock {R}.
Arguments AUb {R}.
Arguments AAbort {R}.

(** Calls through function pointers supplied by the application: what they do
    to the state when thread [t] makes them. *)
Class Callbacks := fn_call : Z -> Z -> nat -> world -> option (world * Z).

(** The thread-local slot of thread [t]. *)
Definition tls_loc (t : nat) : Z * list fld := (- 10 - Z.of_nat t, []).

Definition hsem_at (l : Z * list fld) (w : world) : hsem :=
  default hsem_init (w_hal w !! l).

Definition upd_hsem (l : Z * list fld) (s : hsem) (w : world) : world :=
  set_hal (<[l := s]> (w_hal w)) w.

Definition upd_loc (l : Z * list fld) (v : Z) (w : world) : world :=
  set_heap (<[l := v]> (w_heap w)) w.

(** Read-modify-write of an existing location. *)
Definition rmw (l : Z * list fld) (f : Z -> Z) (w : world) : ares Z :=
  match w_heap w !! l with
  | Some v => AOk (upd_loc l (f v) w) v
  | None => AUb
  end.

Definition do_calloc (ms : list (list fld)) (w : world) : ares Z :=
  match w_oom w with
  | true :: o => AOk (set_oom o w) NULL
  | o => AOk (set_oom (tail o)
                (set_next (w_next w + 1)
                   (set_heap (heap_alloc (w_next w) ms (w_heap w)) w)))
             (w_next w)
  end.

Definition do_free (b : Z) (w : world) : ares unit :=
  if b =? NULL then AOk w tt
  else if heap_live b (w_heap w) then AOk (set_heap (heap_free b (w_heap w)) w) tt
  else AUb.

Definition on_queue (l : Z * list fld) (f : list Z -> option (list Z)) (w : world)
  : ares unit :=
  match w_queues w !! l ≫= f with
  | Some q => AOk (set_queues (<[l := q]> (w_queues w)) w) tt
  | None => AUb
  end.

(** The macros write the links of the new element over those it has, so that an
    element already linked in leaves the queue corrupt. A link into another queue
    through the same member is not looked for. *)
Definition queue_insert (v : Z) (q : list Z) (q' : list Z) : option (list Z) :=
  if bool_decide (v ∈ q) then None else Some q'.

(** First occurrence removed; the macros are undefined on an element that is
    not linked in. *)
Definition queue_remove (v : Z) (q : list Z) : option (list Z) :=
  if bool_decide (v ∈ q) then
    Some (take (default O (fst <$> list_find (eq v) q)) q
          ++ drop (S (default O (fst <$> list_find (eq v) q))) q)
  else None.

Definition do_hlock (t : nat) (l : Z * list fld) (w : world) : ares unit :=
  match h_owner (hsem_at l w) with
  | Some _ => ABlock
  | None => AOk (upd_hsem l (HSem (Some t) (h_waiting (hsem_at l w))) w) tt
  end.

(** Return from a wait: asleep until signalled or interrupted, then the lock is
    taken again before the thread goes on. *)
Definition do_hwaitend (t : nat) (l : Z * list fld) (w : world) : ares Z :=
  let s := hsem_at l w in
  let c := default 0 (head (w_intr w)) in
  if bool_decide (t ∈ h_waiting s) && (c =? 0) then ABlock
  else match h_owner s with
       | Some _ => ABlock
       | None =>
           AOk (set_intr (tail (w_intr w))
                  (upd_hsem l (HSem (Some t) (filter (fun u => u <> t) (h_waiting s))) w))
               c
       end.

Section Semantics.
Context {CB : Callbacks}.

Definition act_sem {R} (t : nat) (a : action R) (w : world) : ares R :=
  match a in action R return ares R with
  | Load l => match w_heap w !! l with Some v => AOk w v | None => AUb end
  | Store l v =>
      match w_heap w !! l with Some _ => AOk (upd_loc l v w) tt | None => AUb end
  | Cas l old new => rmw l (fun v => if v =? old then new else v) w
  | Xchg l v => rmw l (fun _ => v) w
  | FetchSub l v => rmw l (fun x => i32 (x - v)) w
  | Calloc ms => do_calloc ms w
  | Free b => do_free b w
  | QInit l => AOk (set_queues (<[l := []]> (w_queues w)) w) tt
  | QList l => match w_queues w !! l with Some q => AOk w q | None => AUb end
  | QInsertHead l v => on_queue l (fun q => queue_insert v q (v :: q)) w
  | QInsertTail l v => on_queue l (fun q => queue_insert v q (q ++ [v])) w
  | QRemove l v => on_queue l (queue_remove v) w
  | Tls => AOk w (tls_loc t)
  | SetErrno e => AOk (set_errno (<[t := e]> (w_errno w)) w) tt
  | GetErrno => AOk w (default 0 (w_errno w !! t))
  | GetDebugEnv => AOk w (w_debug_env w)
  | Print s => AOk (set_out (w_out w ++ [s]) w) tt
  | Abort => AAbort
  | Yield => AOk w tt
  | CallFn f arg =>
      match fn_call f arg t w with Some (w', r) => AOk w' r | None => AUb end
  | Mark z => AOk (set_marks (w_marks w ++ [(t, z)]) w) tt
  | HLock l => do_hlock t l w
  | HUnlock l => AOk (upd_hsem l (HSem None (h_waiting (hsem_at l w))) w) tt
  | HSignal l =>
      AOk (upd_hsem l (HSem (h_owner (hsem_at l w)) (tail (h_waiting (hsem_at l w)))) w) tt
  | HBroadcast l => AOk (upd_hsem l (HSem (h_owner (hsem_at l w)) []) w) tt
  | HWaitBegin l =>
      AOk (upd_hsem l (HSem None (h_waiting (hsem_at l w) ++ [t])) w) tt
  | HWaitEnd l => do_hwaitend t l w
  | HSpawn f arg => AOk (set_spawned (w_spawned w ++ [(f, arg)]) w) 0
  end.
End Semantics.

(** ** Programs *)
Inductive prog (A : Type) : Type :=
| Ret (a : A)
| Act {R : Type} (a : action R) (k : R -> prog A)
| Loop {S R : Type} (body : S -> prog (S + R)%type) (s : S) (k : R -> prog A).
Arguments Ret {A} a.
Arguments Act {A R} a k.
Arguments Loop {A S R} body s k.

Fixpoint bind {A B} (p : prog A) (f : A -> prog B) : prog B :=
  match p with
  | Ret a => f a
  | Act a k => Act a (fun r => bind (k r) f)
  | Loop body s k => Loop body s (fun r => bind (k r) f)
  end.

Declare Scope prog_scope.
Delimit Scope prog_scope with prog.
Bind Scope prog_scope with prog.
Notation "'do' x <- p ; q" := (bind p (fun x => q))
  (at level 200, x name, p at level 100, q at level 200) : prog_scope.
Notation "p ;; q" := (bind p (fun _ => q))
  (at level 100, q at level 200, right associativity) : prog_scope.

(** The loop runs [body] on the current state until it answers [inr]. *)
Definition loop {S R} (body : S -> prog (S + R)%type) (s : S) : prog R :=
  Loop body s Ret.

Definition act {R} (a : action R) : prog R := Act a Ret.

(** The continuation a loop unfolds to. *)
Definition loop_next {A S R} (body : S -> prog (S + R)%type) (k : R -> prog A)
  (x : S + R) : prog A :=
  match x with inl s => Loop body s k | inr r => k r end.

(** ** Sequential evaluation *)
Inductive outcome (A : Type) : Type :=
| Done (w : world) (a : A)
| Blocked (w : world)
| Undefined
| Aborted (w : world)
| OutOfFuel.
Arguments Done {A} w a.
Arguments Blocked {A} w.
Arguments Undefined {A}.
Arguments Aborted {A} w.
Arguments OutOfFuel {A}.

Definition obind {A B} (o : outcome A) (f : world -> A -> outcome B) : outcome B :=
  match o with
  | Done w a => f w a
  | Blocked w => Blocked w
  | Undefined => Undefined
  | Aborted w => Aborted w
  | OutOfFuel => OutOfFuel
  end.

Definition abind {A R} (w : world) (x : ares R) (f : world -> R -> outcome A) : outcome A :=
  match x with
  | AOk w' r => f w' r
  | ABlock => Blocked w
  | AUb => Undefined
  | AAbort => Aborted w
  end.

(** Up to [n] rounds of a loop whose body is evaluated by [ev]. *)
Fixpoint run_loop {A S R} (ev : S -> world -> outcome (S + R)%type)
  (kont : R -> world -> outcome A) (n : nat) (s : S) (w : world) : outcome A :=
  match n with
  | O => OutOfFuel
  | Datatypes.S n =>
      obind (ev s w) (fun w' x =>
        match x with
        | inl s' => run_loop ev kont n s' w'
        | inr r => kont r w'
        end)
  end.

Section Run.
Context {CB : Callbacks}.

(** Thread [t] runs [p] alone from [w]; each loop may take [n] rounds. *)
Fixpoint run {A} (n : nat) (t : nat) (p : prog A) (w : world) : outcome A :=
  match p with
  | Ret a => Done w a
  | Act a k => abind w (act_sem t a w) (fun w' r => run n t (k r) w')
  | Loop body s k =>
      run_loop (fun s w => run n t (body s) w) (fun r w => run n t (k r) w) n s w
  end.
End Run.

(** ** Laws of [bind] and [run] *)
Section RunLaws.
Context {CB : Callbacks}.

Lemma run_loop_obind {A B S R} (ev : S -> world -> outcome (S + R)%type)
  (kont : R -> world -> outcome A) (f : world -> A -> outcome B) n s w :
  obind (run_loop ev kont n s w) f
  = run_loop ev (fun r w => obind (kont r w) f) n s w.
Proof.
  revert s w. induction n as [| n IH]; intros s w; [done |].
  simpl. destruct (ev s w) as [w' [s' | r] | | | |]; simpl; auto.
Qed.

Lemma run_loop_ext {A S R} (ev : S -> world -> outcome (S + R)%type)
  (k1 k2 : R -> world -> outcome A) n s w :
  (forall r w, k1 r w = k2 r w) -> run_loop ev k1 n s w = run_loop ev k2 n s w.
Proof.
  intros E. revert s w. induction n as [| n IH]; intros s w; [done |].
  simpl. destruct (ev s w) as [w' [s' | r] | | | |]; simpl; auto.
Qed.

(** Sequential composition: [run] of a [bind] runs the two parts in turn. *)
Lemma run_bind {A B} n t (p : prog A) (f : A -> prog B) w :
  run n t (bind p f) w = obind (run n t p w) (fun w' a => run n t (f a) w').
Proof.
  revert w. induction p as [A a | A R a k IH | A S R body IHb s k IH];
    intros w; simpl.
  - done.
  - destruct (act_sem t a w); simpl; auto.
  - rewrite run_loop_obind. apply run_loop_ext. intros r w'. apply IH.
Qed.

Lemma run_act {A R} n t (a : action R) (k : R -> prog A) w :
  run n t (Act a k) w = abind w (act_sem t a w) (fun w' r => run n t (k r) w').
Proof. done. Qed.

(** One round of a loop. *)
Lemma run_loop_step {A S R} n t (body : S -> prog (S + R)%type) s (k : R -> prog A) w :
  run_loop (fun s w => run n t (body s) w) (fun r w => run n t (k r) w) (Datatypes.S n) s w
  = obind (run n t (body s) w) (fun w' x =>
      match x with
      | inl s' => run_loop (fun s w => run n t (body s) w)
                    (fun r w => run n t (k r) w) n s' w'
      | inr r => run n t (k r) w'
      end).
Proof. done. Qed.
End RunLaws.

(** More fuel does not change a finished run. *)
Definition finished {A} (o : outcome A) : bool :=
  match o with OutOfFuel => false | _ => true end.

Section Fuel.
Context {CB : Callbacks}.

Lemma run_loop_mono {A S R} (ev1 ev2 : S -> world -> outcome (S + R)%type)
  (k1 k2 : R -> world -> outcome A) n m s w :
  (n <= m)%nat ->
  (forall s w, finished (ev1 s w) = true -> ev2 s w = ev1 s w) ->
  (forall r w, finished (k1 r w) = true -> k2 r w = k1 r w) ->
  finished (run_loop ev1 k1 n s w) = true ->
  run_loop ev2 k2 m s w = run_loop ev1 k1 n s w.
Proof.
  intros Hle Hev Hk. revert m s w Hle.
  induction n as [| n IH]; intros m s w Hle Hfin; [done |].
  destruct m as [| m]; [lia |]. simpl in *.
  destruct (finished (ev1 s w)) eqn:E; [| by destruct (ev1 s w)].
  rewrite (Hev s w E). destruct (ev1 s w) as [w' [s' | r] | | | |]; simpl in *; auto.
  apply IH; [lia | done].
Qed.

Lemma run_mono {A} n m t (p : prog A) w :
  (n <= m)%nat -> finished (run n t p w) = true -> run m t p w = run n t p w.
Proof.
  intros Hle. revert w.
  induction p as [A a | A R a k IH | A S R body IHb s k IH]; intros w Hfin.
  - done.
  - simpl in *. destruct (act_sem t a w); simpl in *; auto.
  - simpl in *. apply run_loop_mono; auto.
Qed.
End Fuel.
