(* ===== verification/PthreadH.v ===== *)
(** * Constants and struct layouts of the pthread library

    <errno.h>, <sched.h> and <time.h> values are newlib's; the others are
    pthread.h's, and the layouts are those of thread_private.h and rthread.h.
    A layout lists the scalar members a [calloc] of the struct creates. *)

From stdpp Require Import base list gmap.
From Stdlib Require Import ZArith.
From S2P Require Import Prelude CMem.
Local Open Scope Z_scope.

(** ** System headers *)
Definition EPERM : Z := 1.
Definition EINTR : Z := 4.
Definition EAGAIN : Z := 11.
Definition EWOULDBLOCK : Z := EAGAIN.
Definition ENOMEM : Z := 12.
Definition EBUSY : Z := 16.
Definition EINVAL : Z := 22.
Definition ENOSPC : Z := 28.
Definition EDEADLK : Z := 45.
Definition ENOSYS : Z := 88.
Definition ETIMEDOUT : Z := 116.
Definition ENOTSUP : Z := 134.
Definition SCHED_OTHER : Z := 0.
Definition SCHED_FIFO : Z := 1.
Definition SCHED_RR : Z := 2.
Definition CLOCK_REALTIME : Z := 1.

(** ** pthread.h *)
Definition PTHREAD_DESTRUCTOR_ITERATIONS : Z := 4.
Definition PTHREAD_KEYS_MAX : Z := 256.
Definition PTHREAD_STACK_MIN : Z := 2048.

Definition PTHREAD_DETACHED : Z := 1.
Definition PTHREAD_SCOPE_SYSTEM : Z := 2.
Definition PTHREAD_INHERIT_SCHED : Z := 4.
Definition PTHREAD_CREATE_DETACHED : Z := PTHREAD_DETACHED.
Definition PTHREAD_CREATE_JOINABLE : Z := 0.
Definition PTHREAD_SCOPE_PROCESS : Z := 0.
Definition PTHREAD_EXPLICIT_SCHED : Z := 0.

Definition PTHREAD_PROCESS_PRIVATE : Z := 0.
Definition PTHREAD_PROCESS_SHARED : Z := 1.

Definition PTHREAD_CANCEL_ENABLE : Z := 0.
Definition PTHREAD_CANCEL_DISABLE : Z := 1.

Definition PTHREAD_BARRIER_SERIAL_THREAD : Z := -1.

Definition PTHREAD_NEEDS_INIT : Z := 0.
Definition PTHREAD_DONE_INIT : Z := 1.

Definition PTHREAD_PRIO_NONE : Z := 0.
Definition PTHREAD_PRIO_INHERIT : Z := 1.
Definition PTHREAD_PRIO_PROTECT : Z := 2.

Definition PTHREAD_MUTEX_ERRORCHECK : Z := 1.
Definition PTHREAD_MUTEX_RECURSIVE : Z := 2.
Definition PTHREAD_MUTEX_NORMAL : Z := 3.
Definition PTHREAD_MUTEX_STRICT_NP : Z := 4.
Definition PTHREAD_MUTEX_TYPE_MAX : Z := 5.
Definition PTHREAD_MUTEX_DEFAULT : Z := PTHREAD_MUTEX_STRICT_NP.

(** ** rthread.h and thread_private.h *)
Definition RTHREAD_STACK_SIZE_DEF : Z := 512 * 1024.
Definition PTHREAD_MIN_PRIORITY : Z := 0.
Definition PTHREAD_MAX_PRIORITY : Z := 31.

Definition CANCEL_DISABLED : Z := 1.
Definition CANCEL_DYING : Z := 2.
Definition CANCEL_POINT_DELAYED : Z := 2.

Definition THREAD_DONE : Z := 1.
Definition THREAD_DETACHED : Z := 2.
Definition TIB_THREAD_ASYNC_CANCEL : Z := 1.
Definition TIB_THREAD_INITIAL_STACK : Z := 2.

Definition ATOMIC_LOCK_UNLOCKED : Z := 0.
Definition ATOMIC_LOCK_LOCKED : Z := 1.

(** Values of the lock word of a mutex (rthread_mutex.c). *)
Definition UNLOCKED : Z := 0.
Definition LOCKED : Z := 1.
Definition CONTENDED : Z := 2.
Definition SPIN_COUNT : Z := 128.

(** [size_t] and [uintptr_t] are 64-bit on the target. *)
Definition ROUND_TO_PAGE (pagesize size : Z) : Z :=
  Z.land (u64 (size + u64 (pagesize - 1))) (u64 (Z.lnot (u64 (pagesize - 1)))).

(** ** Layouts *)
Definition within (f : fld) (ms : list (list fld)) : list (list fld) := map (cons f) ms.

Definition phal_semaphore_struct : list (list fld) := [[f_ph_lock]; [f_ph_sem]].

Definition sem_struct : list (list fld) :=
  [f_waitcount] :: [f_value] :: [f_shared] :: within f_sem phal_semaphore_struct.

Definition mutex_struct : list (list fld) :=
  [f_lock] :: [f_type] :: [f_owner] :: [f_count] :: [f_prioceiling]
  :: within f_sem phal_semaphore_struct.

Definition cond_struct : list (list fld) :=
  [f_clock] :: [f_mutex] :: within f_sem phal_semaphore_struct.

Definition mutex_attr_struct : list (list fld) :=
  [[f_ma_type]; [f_ma_protocol]; [f_ma_prioceiling]].

Definition cond_attr_struct : list (list fld) := [[f_ca_clock]].

Definition attr_struct : list (list fld) :=
  [[f_stack_addr]; [f_stack_size]; [f_guard_size]; [f_detach_state];
   [f_contention_scope]; [f_sched_policy]; [f_sched_param]; [f_sched_inherit]].

Definition storage_struct : list (list fld) := [[f_keyid]; [f_next]; [f_data]].

Definition cleanup_struct : list (list fld) := [[f_fn]; [f_arg]; [f_next]].

Definition pthread_struct : list (list fld) :=
  within f_donesem sem_struct
  ++ [[f_flags]; [f_flags_lock]; [f_retval]; [f_fn]; [f_arg]]
  ++ within f_attr attr_struct
  ++ [[f_local_storage]; [f_cleanup_fns]; [f_tib_cantcancel]; [f_tib_cancel_point];
      [f_tib_canceled]; [f_tib_errno]; [f_tib_thread_flags]; [f_tib_tid];
      [f_delayed_cancel]].

Definition rwlock_struct : list (list fld) := [[f_lock]; [f_owner]; [f_readers]].
Definition rwlockattr_struct : list (list fld) := [[f_pshared]].
Definition barrier_struct : list (list fld) :=
  [[f_mutex]; [f_cond]; [f_threshold]; [f_in]; [f_out]; [f_generation]].
Definition barrierattr_struct : list (list fld) := [[f_pshared]].
Definition spinlock_struct : list (list fld) := [[f_lock]; [f_owner]].

(** ** Static variables

    The file-scope variables of the library are members of one object, and
    [_initial_thread] is an object of its own. *)
Definition globals : Z := -1.
Definition gv (f : fld) : Z * list fld := (globals, [f]).
Definition initial_thread : Z := -2.
Definition rkey (i : Z) : Z * list fld := (globals, [f_rkeys; f_idx i]).
