(* ===== verification/Phal.v ===== *)
(** * The thread HAL

    [Phal] is the interface phal.h gives to the pthread library.  [DocPhal] is
    what its comments document; [BioPhal] is what
    libbio/source/bio/crt0/crt0_Newlib.cpp implements on the console. *)

From stdpp Require Import base list gmap strings.
From Stdlib Require Import ZArith.
From S2P Require Import Prelude CMem Prog PthreadH.
Local Open Scope Z_scope.
Local Open Scope prog_scope.

(** [const struct timespec *]: absent, or seconds and nanoseconds. *)
Notation timespec := (option (Z * Z)).

Class Phal := {
  phal_thread_create : Z * list fld -> Z -> Z -> prog Z;
  phal_thread_exit : Z * list fld -> prog unit;
  phal_thread_destroy : Z * list fld -> prog Z;
  phal_get_tls : prog (Z * list fld)%type;
  phal_semaphore_create : Z * list fld -> prog Z;
  phal_semaphore_destroy : Z * list fld -> prog Z;
  phal_semaphore_lock : Z * list fld -> prog Z;
  phal_semaphore_unlock : Z * list fld -> prog Z;
  phal_semaphore_signal : Z * list fld -> prog Z;
  phal_semaphore_broadcast : Z * list fld -> prog Z;
  phal_semaphore_wait : Z * list fld -> timespec -> prog Z
}.

(** ** The documented HAL *)
Definition doc_thread_create (tid : Z * list fld) (start arg : Z) : prog Z :=
  act (HSpawn start arg).
Definition doc_semaphore_lock (s : Z * list fld) : prog Z := act (HLock s) ;; Ret 0.
Definition doc_semaphore_unlock (s : Z * list fld) : prog Z := act (HUnlock s) ;; Ret 0.
Definition doc_semaphore_signal (s : Z * list fld) : prog Z := act (HSignal s) ;; Ret 0.
Definition doc_semaphore_broadcast (s : Z * list fld) : prog Z :=
  act (HBroadcast s) ;; Ret 0.
Definition doc_semaphore_wait (s : Z * list fld) (abs : timespec) : prog Z :=
  act (HWaitBegin s) ;; act (HWaitEnd s).

Definition DocPhal : Phal := {|
  phal_thread_create := doc_thread_create;
  phal_thread_exit := fun _ => Ret tt;
  phal_thread_destroy := fun _ => Ret 0;
  phal_get_tls := act Tls;
  phal_semaphore_create := fun _ => Ret 0;
  phal_semaphore_destroy := fun _ => Ret 0;
  phal_semaphore_lock := doc_semaphore_lock;
  phal_semaphore_unlock := doc_semaphore_unlock;
  phal_semaphore_signal := doc_semaphore_signal;
  phal_semaphore_broadcast := doc_semaphore_broadcast;
  phal_semaphore_wait := doc_semaphore_wait
|}.

(** ** libbio's HAL *)
Definition enosys : prog Z := act (SetErrno ENOSYS) ;; Ret (-1).

Definition bio_phal_thread_create (tid : Z * list fld) (start arg : Z) : prog Z :=
  Ret ENOSYS.
Definition bio_phal_thread_exit (tid : Z * list fld) : prog unit := Ret tt.
Definition bio_phal_thread_destroy (tid : Z * list fld) : prog Z := enosys.
Definition bio_phal_semaphore_create (sem : Z * list fld) : prog Z :=
  act (Store sem.@f_ph_lock 0) ;;
  act (Store sem.@f_ph_sem 0) ;;
  Ret 0.
Definition bio_phal_semaphore_destroy (sem : Z * list fld) : prog Z := Ret 0.
Definition bio_phal_semaphore_signal (sem : Z * list fld) : prog Z := enosys.
Definition bio_phal_semaphore_broadcast (sem : Z * list fld) : prog Z := enosys.
Definition bio_phal_semaphore_wait (sem : Z * list fld) (abstime : timespec) : prog Z :=
  enosys.
Definition bio_phal_semaphore_lock (sem : Z * list fld) : prog Z := enosys.
Definition bio_phal_semaphore_unlock (sem : Z * list fld) : prog Z := enosys.
Definition bio_phal_get_tls : prog (Z * list fld)%type := Ret (ptr NULL).

Definition BioPhal : Phal := {|
  phal_thread_create := bio_phal_thread_create;
  phal_thread_exit := bio_phal_thread_exit;
  phal_thread_destroy := bio_phal_thread_destroy;
  phal_get_tls := bio_phal_get_tls;
  phal_semaphore_create := bio_phal_semaphore_create;
  phal_semaphore_destroy := bio_phal_semaphore_destroy;
  phal_semaphore_lock := bio_phal_semaphore_lock;
  phal_semaphore_unlock := bio_phal_semaphore_unlock;
  phal_semaphore_signal := bio_phal_semaphore_signal;
  phal_semaphore_broadcast := bio_phal_semaphore_broadcast;
  phal_semaphore_wait := bio_phal_semaphore_wait
|}.

(** ** What the synchronisation objects need from a HAL

    A program is quiet when it neither touches the heap nor leaves a mark; the
    semaphore operations of a HAL are expected to be quiet, and [phal_get_tls]
    to designate a slot of the calling thread. *)
Definition quiet {R} (a : action R) : bool :=
  match a with
  | SetErrno _ | GetErrno | GetDebugEnv | Print _ | Yield
  | HLock _ | HUnlock _ | HSignal _ | HBroadcast _ | HWaitBegin _ | HWaitEnd _ => true
  | _ => false
  end.

Fixpoint quiet_prog {A} (p : prog A) : Prop :=
  match p with
  | Ret _ => True
  | Act a k => quiet a = true /\ forall r, quiet_prog (k r)
  | Loop body _ k => (forall s, quiet_prog (body s)) /\ forall r, quiet_prog (k r)
  end.

Class PhalQuiet (HAL : Phal) : Prop := {
  phal_tls_thread : phal_get_tls = act Tls;
  phal_lock_quiet : forall s, quiet_prog (phal_semaphore_lock s);
  phal_unlock_quiet : forall s, quiet_prog (phal_semaphore_unlock s);
  phal_signal_quiet : forall s, quiet_prog (phal_semaphore_signal s);
  phal_broadcast_quiet : forall s, quiet_prog (phal_semaphore_broadcast s);
  phal_wait_quiet : forall s abs, quiet_prog (phal_semaphore_wait s abs)
}.

#[export] Instance doc_phal_quiet : PhalQuiet DocPhal.
Proof. split; intros; simpl; try done; naive_solver. Qed.

(** libbio's HAL with the thread slot its [phal_get_tls] leaves to be written. *)
Definition BioPhalTls : Phal := {|
  phal_thread_create := bio_phal_thread_create;
  phal_thread_exit := bio_phal_thread_exit;
  phal_thread_destroy := bio_phal_thread_destroy;
  phal_get_tls := act Tls;
  phal_semaphore_create := bio_phal_semaphore_create;
  phal_semaphore_destroy := bio_phal_semaphore_destroy;
  phal_semaphore_lock := bio_phal_semaphore_lock;
  phal_semaphore_unlock := bio_phal_semaphore_unlock;
  phal_semaphore_signal := bio_phal_semaphore_signal;
  phal_semaphore_broadcast := bio_phal_semaphore_broadcast;
  phal_semaphore_wait := bio_phal_semaphore_wait
|}.

#[export] Instance bio_phal_tls_quiet : PhalQuiet BioPhalTls.
Proof. split; intros; simpl; try done; naive_solver. Qed.
