(* ===== verification/Interleave.v ===== *)
(** * Interleaving semantics and a protocol logic

    A configuration is the shared state with one program per thread; a step
    lets one thread perform one action or unfold one loop.

    The logic of the second part verifies each thread's program separately: a
    thread carries a private ghost state [G], [spec] says which actions it may
    perform in a ghost state and what it learns from the result, and the
    instantiation proves once that every allowed action preserves a global
    invariant on the shared state and all ghost states. *)

From stdpp Require Import base list gmap relations.
From Stdlib Require Import ZArith Lia.
From S2P Require Import Prelude CMem Prog.
Local Open Scope Z_scope.
Local Open Scope prog_scope.

(** ** Configurations and steps *)
Record config := Config { c_world : world; c_pool : list (prog unit) }.

Section Interleaving.
Context {CB : Callbacks}.

Inductive step : config -> config -> Prop :=
| step_act w ps t R (a : action R) k w' r :
    ps !! t = Some (Act a k) ->
    act_sem t a w = AOk w' r ->
    step (Config w ps) (Config w' (<[t := k r]> ps))
| step_loop w ps t S R (body : S -> prog (S + R)%type) s k :
    ps !! t = Some (Loop body s k) ->
    step (Config w ps) (Config w (<[t := bind (body s) (loop_next body k)]> ps)).

Definition reachable : config -> config -> Prop := rtc step.

(** The scheduler as a function: thread [t] moves, if it can. *)
Definition sched1 (t : nat) (c : config) : option config :=
  match c_pool c !! t with
  | Some (Act a k) =>
      match act_sem t a (c_world c) with
      | AOk w' r => Some (Config w' (<[t := k r]> (c_pool c)))
      | _ => None
      end
  | Some (Loop body s k) =>
      Some (Config (c_world c) (<[t := bind (body s) (loop_next body k)]> (c_pool c)))
  | _ => None
  end.

(** A schedule: thread numbers with repetition counts; a thread that cannot
    move any further leaves the rest of its turns unused. *)
Fixpoint turns (n : nat) (t : nat) (c : config) : config :=
  match n with
  | O => c
  | S n => match sched1 t c with Some c' => turns n t c' | None => c end
  end.

Definition schedule (ts : list (nat * nat)) (c : config) : config :=
  fold_left (fun c tn => turns tn.2 tn.1 c) ts c.

Lemma sched1_step t c c' : sched1 t c = Some c' -> step c c'.
Proof.
  destruct c as [w ps]. unfold sched1. simpl.
  destruct (ps !! t) as [[| R a k | S R body s k] |] eqn:E; try done.
  - destruct (act_sem t a w) eqn:Ea; try done. intros [= <-]. by eapply step_act.
  - intros [= <-]. by eapply step_loop.
Qed.

Lemma turns_reachable n t c : reachable c (turns n t c).
Proof.
  revert c. induction n as [| n IH]; intros c; simpl; [apply rtc_refl |].
  destruct (sched1 t c) eqn:E; [| apply rtc_refl].
  eapply rtc_l; [by eapply sched1_step | apply IH].
Qed.

Lemma schedule_reachable ts c : reachable c (schedule ts c).
Proof.
  revert c. induction ts as [| [t n] ts IH]; intros c; [apply rtc_refl |].
  simpl. unfold reachable in *. etrans; [apply turns_reachable | apply IH].
Qed.

Lemma step_sched1 c c' : step c c' -> exists t, sched1 t c = Some c'.
Proof.
  intros [w ps t R a k w' r Hp Ha | w ps t S R body s k Hp]; exists t;
    unfold sched1; simpl; rewrite Hp; [by rewrite Ha | done].
Qed.

(** No thread can move. *)
Definition stuck (c : config) : Prop := forall c', ~ step c c'.

Lemma stuck_sched1 c :
  (forall t, (t < length (c_pool c))%nat -> sched1 t c = None) -> stuck c.
Proof.
  intros H c' [t Ht]%step_sched1. rewrite H in Ht; [done |].
  unfold sched1 in Ht. destruct (c_pool c !! t) eqn:E; [| done].
  by eapply lookup_lt_Some.
Qed.
End Interleaving.

(** ** One thread at a time

    A step of thread [t] alone, on a program with a result; what a thread that
    waits still has to do is the program it was left with. *)
Section OneThread.
Context {CB : Callbacks}.

Inductive tstep {A} (t : nat) : world * prog A -> world * prog A -> Prop :=
| tstep_act w R (a : action R) k w' r :
    act_sem t a w = AOk w' r -> tstep t (w, Act a k) (w', k r)
| tstep_loop w S R (body : S -> prog (S + R)%type) s k :
    tstep t (w, Loop body s k) (w, bind (body s) (loop_next body k)).

Definition tsteps {A} (t : nat) : world * prog A -> world * prog A -> Prop := rtc (tstep t).

(** They are steps of the interleaving. *)
Lemma tsteps_reachable t ps (x y : world * prog unit) :
  tsteps t x y -> ps !! t = Some x.2 -> reachable (Config x.1 ps) (Config y.1 (<[t := y.2]> ps)).
Proof.
  intros H. revert ps. induction H as [x | x y z Hs _ IH]; intros ps Hp; [by rewrite list_insert_id |].
  assert (step (Config x.1 ps) (Config y.1 (<[t := y.2]> ps))) as Hst
    by (destruct Hs; simpl in *; [by eapply step_act | by eapply step_loop]).
  eapply rtc_l; [exact Hst |]. specialize (IH (<[t := y.2]> ps)). rewrite list_insert_insert_eq in IH.
  apply IH. apply list_lookup_insert_eq. by eapply lookup_lt_Some.
Qed.

Lemma tsteps_act {A R} t (a : action R) (k : R -> prog A) w w' r c :
  act_sem t a w = AOk w' r -> tsteps t (w', k r) c -> tsteps t (w, Act a k) c.
Proof. intros Ha Hc. eapply rtc_l; [by apply tstep_act | exact Hc]. Qed.

Lemma tsteps_load {A} t l v (k : Z -> prog A) w c :
  w_heap w !! l = Some v -> tsteps t (w, k v) c -> tsteps t (w, Act (Load l) k) c.
Proof. intros H. apply tsteps_act. simpl. by rewrite H. Qed.

Lemma tsteps_store {A} t l v (k : unit -> prog A) w c :
  is_Some (w_heap w !! l) -> tsteps t (upd_loc l v w, k tt) c -> tsteps t (w, Act (Store l v) k) c.
Proof. intros [x H]. apply tsteps_act. simpl. by rewrite H. Qed.

Lemma tsteps_loop {A S R} t (body : S -> prog (S + R)%type) s (k : R -> prog A) w c :
  tsteps t (w, bind (body s) (loop_next body k)) c -> tsteps t (w, Loop body s k) c.
Proof. intros Hc. eapply rtc_l; [apply tstep_loop | exact Hc]. Qed.
End OneThread.

Lemma pool_update_inv (ps : list (prog unit)) (t u : nat) (p q : prog unit) :
  <[t := p]> ps !! u = Some q -> (u = t /\ q = p) \/ (u <> t /\ ps !! u = Some q).
Proof. intros [(<- & <- & _) | [Hne Hq]]%list_lookup_insert_Some; auto. Qed.

(** ** The protocol logic *)
Section Logic.
Context {CB : Callbacks} {G : Type}.
Context (spec : nat -> forall R, action R -> G -> (G -> R -> Prop) -> Prop).

Fixpoint wp {A} (t : nat) (g : G) (p : prog A) (Q : G -> A -> Prop) : Prop :=
  match p with
  | Ret a => Q g a
  | Act a k => spec t _ a g (fun g' r => wp t g' (k r) Q)
  | @Loop _ St R body s k =>
      exists J : G -> St -> Prop, J g s /\
        forall g s, J g s ->
          wp t g (body s) (fun g' x =>
            match x with
            | inl s' => J g' s'
            | inr r => wp t g' (k r) Q
            end)
  end.

Context (spec_mono : forall t R (a : action R) g (P Q : G -> R -> Prop),
  (forall g r, P g r -> Q g r) -> spec t R a g P -> spec t R a g Q).

Lemma wp_mono {A} t g (p : prog A) (P Q : G -> A -> Prop) :
  (forall g a, P g a -> Q g a) -> wp t g p P -> wp t g p Q.
Proof.
  revert g P Q. induction p as [A a | A R a k IH | A S R body IHb s k IH];
    intros g P Q HPQ; simpl.
  - apply HPQ.
  - apply spec_mono. intros g' r. by apply IH.
  - intros (J & HJ & Hbody). exists J. split; [done |].
    intros g' s' Hg'. eapply IHb; [| by apply Hbody].
    intros g'' [s'' | r]; [done |]. by apply IH.
Qed.

Lemma wp_bind {A B} t g (p : prog A) (f : A -> prog B) (Q : G -> B -> Prop) :
  wp t g p (fun g' a => wp t g' (f a) Q) -> wp t g (bind p f) Q.
Proof.
  revert g. induction p as [A a | A R a k IH | A S R body IHb s k IH];
    intros g; simpl.
  - done.
  - apply spec_mono. intros g' r. apply IH.
  - intros (J & HJ & Hbody). exists J. split; [done |].
    intros g' s' Hg'. eapply wp_mono; [| by apply Hbody].
    intros g'' [s'' | r]; [done |]. apply IH.
Qed.

(** The loop rule in the form programs use it. *)
Lemma wp_loop {S R} t g (body : S -> prog (S + R)%type) s (J : G -> S -> Prop)
  (Q : G -> R -> Prop) :
  J g s ->
  (forall g s, J g s ->
     wp t g (body s) (fun g' x =>
       match x with inl s' => J g' s' | inr r => Q g' r end)) ->
  wp t g (loop body s) Q.
Proof. intros HJ Hb. exists J. by split. Qed.

Context (Inv : world -> (nat -> G) -> Prop).

Definition upd_ghost (gs : nat -> G) (t : nat) (g : G) : nat -> G :=
  fun u => if decide (u = t) then g else gs u.

(** An allowed action neither crashes nor aborts, and preserves the invariant. *)
Definition spec_sound : Prop :=
  forall t R (a : action R) w gs Φ,
    Inv w gs -> spec t R a (gs t) Φ ->
    match act_sem t a w with
    | AOk w' r => exists g', Φ g' r /\ Inv w' (upd_ghost gs t g')
    | ABlock => True
    | AUb | AAbort => False
    end.

Context (Hsound : spec_sound).

(** Every thread's remaining program is verified. *)
Definition pool_ok (gs : nat -> G) (ps : list (prog unit)) : Prop :=
  forall t p, ps !! t = Some p -> wp t (gs t) p (fun _ _ => True).

Definition config_ok (c : config) : Prop :=
  exists gs, Inv (c_world c) gs /\ pool_ok gs (c_pool c).

Lemma pool_ok_update gs ps t g p :
  pool_ok gs ps -> wp t g p (fun _ _ => True) ->
  pool_ok (upd_ghost gs t g) (<[t := p]> ps).
Proof.
  intros Hps Hp u q [[-> ->] | [Hne Hq]]%pool_update_inv; unfold upd_ghost.
  - by rewrite decide_True.
  - rewrite decide_False by done. by apply Hps.
Qed.

Lemma config_ok_step c c' : config_ok c -> step c c' -> config_ok c'.
Proof.
  intros (gs & HI & Hps) Hst.
  destruct Hst as [w ps t R a k w' r Hp Ha | w ps t S R body s k Hp];
    pose proof (Hps _ _ Hp) as Hwp; simpl in *.
  - pose proof (Hsound t R a w gs _ HI Hwp) as Hs. rewrite Ha in Hs.
    destruct Hs as (g' & Hk & HI'). exists (upd_ghost gs t g'). split; [done |].
    by apply pool_ok_update.
  - destruct Hwp as (J & HJ & Hbody). exists gs. split; [done |].
    intros u q [[-> ->] | [Hne Hq]]%pool_update_inv; [| by apply Hps].
    apply wp_bind. eapply wp_mono; [| by apply Hbody].
    intros g' [s' | r]; simpl; [| done]. intros HJ'. exists J. by split.
Qed.

Lemma config_ok_reachable c c' : config_ok c -> reachable c c' -> config_ok c'.
Proof. intros Hc Hr. revert Hc. induction Hr; eauto using config_ok_step. Qed.

(** No reachable thread is about to crash or abort. *)
Definition safe (c : config) : Prop :=
  forall t R (a : action R) k, c_pool c !! t = Some (Act a k) ->
    act_sem t a (c_world c) <> AUb /\ act_sem t a (c_world c) <> AAbort.

Lemma config_ok_safe c : config_ok c -> safe c.
Proof.
  intros (gs & HI & Hps) t R a k Hp. pose proof (Hps _ _ Hp) as Hwp. simpl in Hwp.
  pose proof (Hsound t R a (c_world c) gs _ HI Hwp) as Hs.
  destruct (act_sem t a (c_world c)); done.
Qed.
End Logic.
