(* ===== verification/Internal.v ===== *)
(** * Library internals: spin locks, [pthread_self], debug output

    rthread_internal.c, rthread_debug.c and the assertion macro the library
    uses. *)

From stdpp Require Import base list gmap strings.
From Stdlib Require Import ZArith Lia.
From S2P Require Import Prelude CMem Prog PthreadH Phal.
Local Open Scope Z_scope.
Local Open Scope prog_scope.

Section Internal.
Context {HAL : Phal}.

Definition _rthread_debug (level : Z) (fmt : string) : prog unit :=
do dl <- act (Load (gv f_debug_level));
if level <=? dl then act (Print fmt) else Ret tt.

(** [assert(e)] of <assert.h>. *)
Definition assert_ (e : bool) : prog unit := if e then Ret tt else act Abort.

(** The load-exclusive/store-exclusive loop is an atomic exchange. *)
Definition _atomic_lock (lock : Z * list fld) : prog bool :=
do old <- act (Xchg lock ATOMIC_LOCK_LOCKED);
Ret (negb (old =? ATOMIC_LOCK_UNLOCKED)).

Definition _spinlock (lock : Z * list fld) : prog unit :=
loop (fun _ : unit =>
  do busy <- _atomic_lock lock;
  if busy then act Yield ;; Ret (inl tt) else Ret (inr tt)) tt.

Definition _spinlocktry (lock : Z * list fld) : prog bool :=
do busy <- _atomic_lock lock;
Ret (negb busy).

Definition _spinunlock (lock : Z * list fld) : prog unit :=
act (Store lock ATOMIC_LOCK_UNLOCKED).

Definition _rthread_internal_init (maintid : Z) : prog unit :=
let thread := ptr initial_thread in
do inited <- act (Load (gv f_threads_inited));
if negb (inited =? 0) then Ret tt else
act (Store thread.@f_tib_tid maintid) ;;
do tls <- phal_get_tls;
act (Store tls initial_thread) ;;
act (Store thread.@f_tib_thread_flags TIB_THREAD_INITIAL_STACK) ;;
do envp <- act GetDebugEnv;
match envp with
   | None => Ret tt
   | Some (n, whole) =>
       act (Store (gv f_debug_level) (i32 n)) ;;
       if negb whole || (i32 n <? 0) then act (Store (gv f_debug_level) 0) else Ret tt
   end ;;
act (Store (gv f_threads_inited) 1).

Definition pthread_self : prog Z :=
do inited <- act (Load (gv f_threads_inited));
if inited =? 0 then
  act (Print "_rthread_internal_init not called") ;;
  Ret NULL
else
  do tls <- phal_get_tls;
  act (Load tls).

Definition pthread_equal (t1 t2 : Z) : Z := if t1 =? t2 then 1 else 0.

(** ** Start-up of threading and cancellation state (rthread_thread.c) *)

(** Struct assignment, member by member. *)
Fixpoint copy_struct (src dst : Z * list fld) (ms : list (list fld)) : prog unit :=
match ms with
| [] => Ret tt
| m :: ms =>
    do v <- act (Load (src.1, src.2 ++ m));
    act (Store (dst.1, dst.2 ++ m) v) ;;
    copy_struct src dst ms
end.

Definition _rthread_init : prog unit :=
do thread <- pthread_self;
do ready <- act (Load (gv f_threads_ready));
if negb (ready =? 0) then Ret tt else
act (QInsertHead (gv f_thread_list) thread) ;;
act (Store (gv f_attr_default).@f_guard_size 0) ;;
copy_struct (gv f_attr_default) (ptr thread).@f_attr attr_struct ;;
act (Store (gv f_threads_ready) 1) ;;
_rthread_debug 1 "rthread init".

(** [if (!_threads_ready) _rthread_init();] *)
Definition ensure_ready : prog unit :=
do ready <- act (Load (gv f_threads_ready));
if ready =? 0 then _rthread_init else Ret tt.

(** Return code, and the previous state when the call succeeded. *)
Definition setcancelstate (state : Z) : prog (Z * option Z)%type :=
do self <- pthread_self;
if self =? NULL then Ret (EINVAL, None) else
do cc <- act (Load (ptr self).@f_tib_cantcancel);
let oldstate := if negb (Z.land cc CANCEL_DISABLED =? 0)
                then PTHREAD_CANCEL_DISABLE else PTHREAD_CANCEL_ENABLE in
if state =? PTHREAD_CANCEL_ENABLE then
  act (Store (ptr self).@f_tib_cantcancel (Z.land cc (Z.lnot CANCEL_DISABLED))) ;;
  Ret (0, Some oldstate)
else if state =? PTHREAD_CANCEL_DISABLE then
  act (Store (ptr self).@f_tib_cantcancel (Z.lor cc CANCEL_DISABLED)) ;;
  Ret (0, Some oldstate)
else Ret (EINVAL, None).

Definition pthread_setcancelstate (state : Z) (oldstatep : Z * list fld) : prog Z :=
do r <- setcancelstate state;
match r.2 with
| Some oldstate =>
    (if is_null oldstatep then Ret tt else act (Store oldstatep oldstate)) ;;
    Ret r.1
| None => Ret r.1
end.

(** The static variables before any call: the initialisers of the library's
  file-scope variables and of [_initial_thread]. *)
Definition static_heap : heap :=
let zero b ms h := heap_alloc b ms h in
let rkeys := concat (map (fun i => [[f_rkeys; f_idx (Z.of_nat i); f_used];
                                    [f_rkeys; f_idx (Z.of_nat i); f_destructor]])
                       (seq 0 256)) in
<[(gv f_attr_default).@f_stack_size := RTHREAD_STACK_SIZE_DEF]>
(<[(gv f_attr_default).@f_detach_state := PTHREAD_CREATE_JOINABLE]>
(<[(gv f_attr_default).@f_contention_scope := PTHREAD_SCOPE_SYSTEM]>
(<[(gv f_attr_default).@f_sched_policy := SCHED_OTHER]>
(<[(gv f_attr_default).@f_sched_inherit := PTHREAD_INHERIT_SCHED]>
(zero globals ([[f_static_init_lock]; [f_rwlock_init_lock]; [f_rkeyslock]; [f_hint];
                [f_threads_inited]; [f_debug_level]; [f_threads_ready];
                [f_post_threaded]; [f_thread_pagesize]; [f_thread_lock];
                [f_thread_gc_lock]; [f_concurrency_level]]
               ++ within f_attr_default attr_struct ++ rkeys)
(zero initial_thread pthread_struct ∅)))))).

End Internal.
