(* ===== verification/Exec.v ===== *)
(** * Symbolic execution of sequential runs

    One rewriting lemma per action and per internal helper of the library, and
    the tactics [lk] (a lookup in an updated heap), [neq] (two locations differ)
    and [exec] (run to the next unknown branch). *)

From stdpp Require Import base list gmap strings.
From Stdlib Require Import ZArith Lia.
From S2P Require Import Prelude CMem Prog PthreadH Phal Internal.
Local Open Scope Z_scope.
Local Open Scope prog_scope.

(** ** Locations and lookups *)
Ltac unfold_locs :=
  unfold member, ptr, gv, rkey, tls_loc, globals, initial_thread, NULL in *; simpl in *.

(** Two locations differ: other members, or other objects by arithmetic. *)
Ltac neq :=
  lazymatch goal with
  | |- ?a <> ?b =>
      let E := fresh "E" in
      intros E;
      first [ apply member_inj in E; discriminate E | idtac ]; unfold_locs;
      first [ discriminate E | congruence
            | injection E; intros; subst; lia
            | apply (f_equal fst) in E; simpl in E; lia
            | apply (f_equal fst) in E; simpl in E; congruence ]
  end.

Lemma upd_loc_heap l v w : w_heap (upd_loc l v w) = <[l := v]> (w_heap w).
Proof. done. Qed.

Lemma upd_lookup_eq l v w : w_heap (upd_loc l v w) !! l = Some v.
Proof. apply lookup_insert_eq. Qed.

Lemma upd_lookup_ne l l' v w :
  l <> l' -> w_heap (upd_loc l v w) !! l' = w_heap w !! l'.
Proof. apply lookup_insert_ne. Qed.

(** Storing the value a location already has. *)
Lemma upd_loc_id l v w : w_heap w !! l = Some v -> upd_loc l v w = w.
Proof. intros H. destruct w. unfold upd_loc, set_heap. simpl in *. by rewrite insert_id. Qed.

(** A lock taken and given back around a change of the queues. *)
Lemma upd_loc_queues_upd l v v' q w :
  w_heap w !! l = Some v -> upd_loc l v (set_queues q (upd_loc l v' w)) = set_queues q w.
Proof.
  intros H. destruct w. unfold upd_loc, set_heap, set_queues. simpl in *.
  by rewrite insert_insert_eq, insert_id.
Qed.

Lemma upd_loc_upd l v v' w : upd_loc l v (upd_loc l v' w) = upd_loc l v w.
Proof. destruct w. unfold upd_loc, set_heap. simpl. by rewrite insert_insert_eq. Qed.

Lemma upd_lookup_some l l' v w :
  is_Some (w_heap w !! l') -> is_Some (w_heap (upd_loc l v w) !! l').
Proof.
  intros H. destruct (decide (l = l')) as [-> | Hne].
  - rewrite upd_lookup_eq. by eexists.
  - by rewrite upd_lookup_ne.
Qed.

(** The queues, the HAL and the rest are untouched by a store. *)
Lemma upd_loc_queues l v w : w_queues (upd_loc l v w) = w_queues w.
Proof. done. Qed.
Lemma upd_loc_oom l v w : w_oom (upd_loc l v w) = w_oom w.
Proof. done. Qed.
Lemma upd_loc_marks l v w : w_marks (upd_loc l v w) = w_marks w.
Proof. done. Qed.
Lemma upd_loc_next l v w : w_next (upd_loc l v w) = w_next w.
Proof. done. Qed.

(** ** Allocation *)

(** The state after a successful [calloc]; the new object is [w_next w]. *)
Definition alloc (ms : list (list fld)) (w : world) : world :=
  set_oom (tail (w_oom w))
    (set_next (w_next w + 1) (set_heap (heap_alloc (w_next w) ms (w_heap w)) w)).

(** Object numbers from [w_next w] on are unused. *)
Record fresh_world (w : world) : Prop := {
  fw_pos : 0 < w_next w;
  fw_below : forall l v, w_heap w !! l = Some v -> l.1 < w_next w
}.

Definition has_memory (w : world) : Prop := head (w_oom w) <> Some true.

Lemma alloc_lookup ms w b m :
  b = w_next w -> m ∈ ms -> w_heap (alloc ms w) !! (b, m) = Some 0.
Proof. intros ->. apply heap_alloc_lookup. Qed.

Lemma alloc_lookup_ne ms w l :
  l.1 <> w_next w -> w_heap (alloc ms w) !! l = w_heap w !! l.
Proof. apply heap_alloc_lookup_ne. Qed.

Lemma fresh_world_upd l v w :
  fresh_world w -> is_Some (w_heap w !! l) -> fresh_world (upd_loc l v w).
Proof.
  intros [H1 H2] [x Hx]. split; [done |]. intros l' v'.
  rewrite upd_loc_heap. intros [[<- _] | [_ H]]%lookup_insert_Some; by eapply H2.
Qed.

Lemma fresh_world_alloc ms w : fresh_world w -> fresh_world (alloc ms w).
Proof.
  intros [H1 H2]. split; [simpl; lia |]. intros l v H. change (w_next (alloc ms w)) with (w_next w + 1).
  destruct (decide (l.1 = w_next w)) as [E | E]; [lia |].
  rewrite alloc_lookup_ne in H by done. apply H2 in H. lia.
Qed.

(** A heap seen through the other components of the state. *)
Ltac heap_of :=
  repeat match goal with
  | |- context [w_heap (upd_hsem ?s ?x ?w)] => change (w_heap (upd_hsem s x w)) with (w_heap w)
  | |- context [w_heap (set_intr ?x ?w)] => change (w_heap (set_intr x w)) with (w_heap w)
  | |- context [w_heap (set_errno ?x ?w)] => change (w_heap (set_errno x w)) with (w_heap w)
  | |- context [w_heap (set_queues ?x ?w)] => change (w_heap (set_queues x w)) with (w_heap w)
  | |- context [w_heap (set_oom ?x ?w)] => change (w_heap (set_oom x w)) with (w_heap w)
  | |- context [w_heap (set_out ?x ?w)] => change (w_heap (set_out x w)) with (w_heap w)
  | |- context [w_heap (set_next ?x ?w)] => change (w_heap (set_next x w)) with (w_heap w)
  | |- context [w_heap (set_marks ?x ?w)] => change (w_heap (set_marks x w)) with (w_heap w)
  end.

(** [lk] proves [w_heap w !! l = Some v] or [is_Some (w_heap w !! l)]. *)
Ltac lk :=
  heap_of;
  lazymatch goal with
  | |- is_Some (w_heap (upd_loc _ _ _) !! _) => apply upd_lookup_some; lk
  | |- is_Some _ => first [eassumption | eexists; lk]
  | |- w_heap (alloc _ ?w) !! _ = _ =>
      first [ apply alloc_lookup; [unfold_locs; reflexivity | apply (bool_decide_eq_true_1 _); reflexivity]
            | rewrite alloc_lookup_ne by (unfold_locs; solve [assumption | lia]); lk ]
  | |- w_heap (upd_loc ?l _ _) !! ?l' = _ =>
      first [ apply upd_lookup_eq
            | rewrite upd_lookup_ne by neq; lk ]
  | |- _ => first [eassumption | solve [eauto]]
  end.

(** ** Stepping *)
Section Steps.
Context {CB : Callbacks}.

Lemma run_ret {A} n t (a : A) w : run n t (Ret a) w = Done w a.
Proof. done. Qed.

Lemma run_bind_ret {A B} n t (a : A) (k : A -> prog B) w :
  run n t (bind (Ret a) k) w = run n t (k a) w.
Proof. done. Qed.

Lemma run_load {B} n t l v (k : Z -> prog B) w :
  w_heap w !! l = Some v -> run n t (bind (act (Load l)) k) w = run n t (k v) w.
Proof. intros H. simpl. by rewrite H. Qed.

Lemma run_store {B} n t l v (k : unit -> prog B) w :
  is_Some (w_heap w !! l) ->
  run n t (bind (act (Store l v)) k) w = run n t (k tt) (upd_loc l v w).
Proof. intros [x H]. simpl. by rewrite H. Qed.

Lemma run_calloc {B} n t ms (k : Z -> prog B) w :
  has_memory w -> run n t (bind (act (Calloc ms)) k) w = run n t (k (w_next w)) (alloc ms w).
Proof.
  intros H. simpl. unfold do_calloc, alloc, has_memory in *. destruct (w_oom w) as [| [] o]; done.
Qed.

Lemma run_calloc_oom {B} n t ms (k : Z -> prog B) w o :
  w_oom w = true :: o ->
  run n t (bind (act (Calloc ms)) k) w = run n t (k NULL) (set_oom o w).
Proof. intros H. simpl. unfold do_calloc. by rewrite H. Qed.

Lemma run_free {B} n t b (k : unit -> prog B) w :
  b <> NULL -> heap_live b (w_heap w) = true ->
  run n t (bind (act (Free b)) k) w = run n t (k tt) (set_heap (heap_free b (w_heap w)) w).
Proof.
  intros Hb H. simpl. unfold do_free. destruct (b =? NULL) eqn:E; [lia |]. by rewrite H.
Qed.

Lemma run_set_errno {B} n t e (k : unit -> prog B) w :
  run n t (bind (act (SetErrno e)) k) w = run n t (k tt) (set_errno (<[t := e]> (w_errno w)) w).
Proof. done. Qed.

Lemma run_print {B} n t s (k : unit -> prog B) w :
  run n t (bind (act (Print s)) k) w = run n t (k tt) (set_out (w_out w ++ [s]) w).
Proof. done. Qed.

Lemma run_callfn {B} n t f a w' r (k : Z -> prog B) w :
  fn_call f a t w = Some (w', r) ->
  run n t (bind (act (CallFn f a)) k) w = run n t (k r) w'.
Proof. intros H. simpl. by rewrite H. Qed.

Lemma run_qinit {B} n t x (k : unit -> prog B) w :
  run n t (bind (act (QInit x)) k) w = run n t (k tt) (set_queues (<[x := []]> (w_queues w)) w).
Proof. done. Qed.

Lemma run_qlist {B} n t x q (k : list Z -> prog B) w :
  w_queues w !! x = Some q -> run n t (bind (act (QList x)) k) w = run n t (k q) w.
Proof. intros H. simpl. by rewrite H. Qed.

Lemma run_qinsert_tail {B} n t x v q (k : unit -> prog B) w :
  w_queues w !! x = Some q -> v ∉ q ->
  run n t (bind (act (QInsertTail x v)) k) w
  = run n t (k tt) (set_queues (<[x := q ++ [v]]> (w_queues w)) w).
Proof. intros H Hv. simpl. unfold on_queue, queue_insert. rewrite H. simpl. by rewrite bool_decide_false. Qed.

(** An element that is linked in already. *)
Lemma run_qinsert_twice {B} n t x v q (k : unit -> prog B) w :
  w_queues w !! x = Some q -> v ∈ q ->
  run n t (bind (act (QInsertTail x v)) k) w = Undefined.
Proof. intros H Hv. simpl. unfold on_queue, queue_insert. rewrite H. simpl. by rewrite bool_decide_true. Qed.

Lemma run_qremove_head {B} n t x v q (k : unit -> prog B) w :
  w_queues w !! x = Some (v :: q) ->
  run n t (bind (act (QRemove x v)) k) w
  = run n t (k tt) (set_queues (<[x := q]> (w_queues w)) w).
Proof.
  intros H. simpl. unfold on_queue. rewrite H. simpl. unfold queue_remove.
  rewrite bool_decide_true by apply list_elem_of_here. simpl. by rewrite decide_True.
Qed.

Lemma run_qremove {B} n t x v q q' (k : unit -> prog B) w :
  w_queues w !! x = Some q -> queue_remove v q = Some q' ->
  run n t (bind (act (QRemove x v)) k) w
  = run n t (k tt) (set_queues (<[x := q']> (w_queues w)) w).
Proof. intros H1 H2. simpl. unfold on_queue. rewrite H1. simpl. by rewrite H2. Qed.

(** Threading is ready. *)
Lemma run_ensure_ready {HAL : Phal} {B} n t r (k : unit -> prog B) w :
  w_heap w !! gv f_threads_ready = Some r -> r <> 0 ->
  run n t (bind ensure_ready k) w = run n t (k tt) w.
Proof. intros H Hr. simpl. rewrite H. simpl. destruct (r =? 0) eqn:E; [lia | done]. Qed.

Lemma run_load_end n t l v w :
  w_heap w !! l = Some v -> run n t (act (Load l)) w = Done w v.
Proof. intros H. simpl. by rewrite H. Qed.

Lemma run_store_end n t l v w :
  is_Some (w_heap w !! l) -> run n t (act (Store l v)) w = Done (upd_loc l v w) tt.
Proof. intros [x H]. simpl. by rewrite H. Qed.

Lemma run_cas {B} n t l v old new (k : Z -> prog B) w :
  w_heap w !! l = Some v ->
  run n t (bind (act (Cas l old new)) k) w
  = run n t (k v) (upd_loc l (if v =? old then new else v) w).
Proof. intros H. simpl. unfold rmw. by rewrite H. Qed.

Lemma run_xchg {B} n t l v new (k : Z -> prog B) w :
  w_heap w !! l = Some v ->
  run n t (bind (act (Xchg l new)) k) w = run n t (k v) (upd_loc l new w).
Proof. intros H. simpl. unfold rmw. by rewrite H. Qed.

Lemma run_fetch_sub {B} n t l v d (k : Z -> prog B) w :
  w_heap w !! l = Some v ->
  run n t (bind (act (FetchSub l d)) k) w = run n t (k v) (upd_loc l (i32 (v - d)) w).
Proof. intros H. simpl. unfold rmw. by rewrite H. Qed.

(** Free spin lock. *)
Lemma run_spinlock {B} n t l (k : unit -> prog B) w :
  w_heap w !! l = Some ATOMIC_LOCK_UNLOCKED ->
  run (S n) t (bind (_spinlock l) k) w
  = run (S n) t (k tt) (upd_loc l ATOMIC_LOCK_LOCKED w).
Proof. intros H. simpl. unfold rmw. by rewrite H. Qed.

Lemma run_spinunlock {B} n t l (k : unit -> prog B) w :
  is_Some (w_heap w !! l) ->
  run n t (bind (_spinunlock l) k) w = run n t (k tt) (upd_loc l ATOMIC_LOCK_UNLOCKED w).
Proof. apply run_store. Qed.

(** A taken spin lock is never obtained by a thread running alone. *)
Lemma run_spinlock_taken {B} n t l v (k : unit -> prog B) w :
  w_heap w !! l = Some v -> v <> ATOMIC_LOCK_UNLOCKED ->
  run n t (bind (_spinlock l) k) w = OutOfFuel.
Proof.
  intros H Hv. unfold _spinlock, loop. cbn [bind run].
  revert v w H Hv. generalize n at 3. intros j.
  induction j as [| j IH]; intros v w H Hv; [done |].
  simpl. unfold rmw. rewrite H. simpl.
  destruct (v =? ATOMIC_LOCK_UNLOCKED) eqn:E; [lia |]. simpl.
  apply (IH ATOMIC_LOCK_LOCKED); [apply upd_lookup_eq | done].
Qed.

Lemma run_spinlock_0 {B} t l (k : unit -> prog B) w :
  run 0 t (bind (_spinlock l) k) w = OutOfFuel.
Proof. done. Qed.

(** A loop whose first round never ends. *)
Lemma run_loop_diverges {S R B} n t (body : S -> prog (S + R)%type) s (k : R -> prog B) w :
  run n t (body s) w = OutOfFuel -> run n t (bind (loop body s) k) w = OutOfFuel.
Proof.
  intros H. unfold loop. cbn [bind run]. generalize n at 3.
  intros [| j]; [done |]. cbn [run_loop]. by rewrite H.
Qed.

Lemma run_assert {B} n t (k : unit -> prog B) w :
  run n t (bind (assert_ true) k) w = run n t (k tt) w.
Proof. done. Qed.

(** Debug output is off. *)
Lemma run_debug {B} n t level fmt (k : unit -> prog B) w :
  w_heap w !! gv f_debug_level = Some 0 -> 0 < level ->
  run n t (bind (_rthread_debug level fmt) k) w = run n t (k tt) w.
Proof.
  intros H Hl. simpl. rewrite H. simpl. destruct (level <=? 0) eqn:E; [lia | done].
Qed.

Lemma run_self {HAL : Phal} {HQ : PhalQuiet HAL} {B} n t i self (k : Z -> prog B) w :
  w_heap w !! gv f_threads_inited = Some i -> i <> 0 ->
  w_heap w !! tls_loc t = Some self ->
  run n t (bind pthread_self k) w = run n t (k self) w.
Proof.
  intros Hi Hne Ht. simpl. rewrite Hi. simpl. destruct (i =? 0) eqn:E; [lia |].
  rewrite phal_tls_thread. simpl. by rewrite Ht.
Qed.
End Steps.

(** ** Loops

    [loop_run j] is a loop with [j] rounds left. *)
Definition loop_run {CB : Callbacks} {B S R} (n t : nat) (body : S -> prog (S + R)%type)
  (k : R -> prog B) (j : nat) (s : S) (w : world) : outcome B :=
  run_loop (fun s w => run n t (body s) w) (fun r w => run n t (k r) w) j s w.

Section Loops.
Context {CB : Callbacks} {B S R : Type} (n t : nat) (body : S -> prog (S + R)%type)
  (k : R -> prog B).

Lemma run_loop_eq s w : run n t (bind (loop body s) k) w = loop_run n t body k n s w.
Proof. done. Qed.

Lemma loop_run_next j s s' w w' :
  run n t (body s) w = Done w' (inl s') ->
  loop_run n t body k (Datatypes.S j) s w = loop_run n t body k j s' w'.
Proof. intros H. unfold loop_run. cbn [run_loop]. by rewrite H. Qed.

Lemma loop_run_exit j s r w w' :
  run n t (body s) w = Done w' (inr r) ->
  loop_run n t body k (Datatypes.S j) s w = run n t (k r) w'.
Proof. intros H. unfold loop_run. cbn [run_loop]. by rewrite H. Qed.
End Loops.

(** Threading has been initialised, debug output is off and thread [t] is the
    object [self]. *)
Record started (t : nat) (self : Z) (w : world) : Prop := {
  st_inited : w_heap w !! gv f_threads_inited = Some 1;
  st_debug : w_heap w !! gv f_debug_level = Some 0;
  st_tls : w_heap w !! tls_loc t = Some self
}.

Lemma started_upd t self l v w :
  started t self w -> l <> gv f_threads_inited -> l <> gv f_debug_level -> l <> tls_loc t ->
  started t self (upd_loc l v w).
Proof.
  intros [] H1 H2 H3. split; rewrite upd_lookup_ne by done; done.
Qed.

(** Objects of the program are positive; the library's own are negative. *)
Lemma started_upd_pos t self l v w :
  started t self w -> 0 < l.1 -> started t self (upd_loc l v w).
Proof. intros H Hl. apply started_upd; [done | neq | neq | neq]. Qed.

(** ** The documented HAL, step by step *)
Definition hal_asleep (t : nat) (s : Z * list fld) (w : world) : world :=
  upd_hsem s (HSem None (h_waiting (hsem_at s w) ++ [t])) w.

Lemma hsem_at_upd s x w : hsem_at s (upd_hsem s x w) = x.
Proof. unfold hsem_at, upd_hsem, set_hal. simpl. by rewrite lookup_insert_eq. Qed.

Lemma upd_hsem_upd s x y w : upd_hsem s x (upd_hsem s y w) = upd_hsem s x w.
Proof. destruct w. unfold upd_hsem, set_hal. simpl. by rewrite insert_insert_eq. Qed.

Lemma hal_asleep_upd t s o w :
  hal_asleep t s (upd_hsem s (HSem o (h_waiting (hsem_at s w))) w) = hal_asleep t s w.
Proof. unfold hal_asleep. by rewrite hsem_at_upd, upd_hsem_upd. Qed.

Section DocSteps.
Context {CB : Callbacks}.
Notation waiting s w := (h_waiting (hsem_at s w)).

Lemma run_doc_lock {B} n t s (k : Z -> prog B) w :
  h_owner (hsem_at s w) = None ->
  run n t (bind (doc_semaphore_lock s) k) w
  = run n t (k 0) (upd_hsem s (HSem (Some t) (waiting s w)) w).
Proof. intros H. simpl. unfold do_hlock. by rewrite H. Qed.

Lemma run_doc_unlock {B} n t s (k : Z -> prog B) w :
  run n t (bind (doc_semaphore_unlock s) k) w
  = run n t (k 0) (upd_hsem s (HSem None (waiting s w)) w).
Proof. done. Qed.

Lemma run_doc_signal {B} n t s (k : Z -> prog B) w :
  run n t (bind (doc_semaphore_signal s) k) w
  = run n t (k 0) (upd_hsem s (HSem (h_owner (hsem_at s w)) (tail (waiting s w))) w).
Proof. done. Qed.

Lemma run_doc_broadcast {B} n t s (k : Z -> prog B) w :
  run n t (bind (doc_semaphore_broadcast s) k) w
  = run n t (k 0) (upd_hsem s (HSem (h_owner (hsem_at s w)) []) w).
Proof. done. Qed.

(** Nobody interrupts the wait: the thread sleeps. *)
Lemma run_doc_wait_sleep {B} n t s abs (k : Z -> prog B) w :
  w_intr w = [] ->
  run n t (bind (doc_semaphore_wait s abs) k) w = Blocked (hal_asleep t s w).
Proof.
  intros H. cbn -[upd_hsem]. unfold do_hwaitend. rewrite hsem_at_upd.
  change (w_intr (upd_hsem _ _ _)) with (w_intr w). rewrite H. cbn -[upd_hsem]. rewrite bool_decide_true by (apply elem_of_app; right; by apply list_elem_of_here).
  done.
Qed.

(** The wait is interrupted by the error [c]. *)
Lemma run_doc_wait_intr {B} n t s abs c cs (k : Z -> prog B) w :
  w_intr w = c :: cs -> c <> 0 ->
  run n t (bind (doc_semaphore_wait s abs) k) w
  = run n t (k c) (set_intr cs (upd_hsem s
      (HSem (Some t) (filter (fun u => u <> t) (waiting s w ++ [t]))) w)).
Proof.
  intros H Hc. cbn -[upd_hsem]. unfold do_hwaitend. rewrite hsem_at_upd.
  change (w_intr (upd_hsem _ _ _)) with (w_intr w). rewrite H. cbn -[upd_hsem]. replace (c =? 0) with false by lia.
  rewrite andb_false_r. by rewrite upd_hsem_upd.
Qed.
End DocSteps.

(** ** The [exec] tactic *)

(** A boolean test whose value follows from the context. *)
Ltac zconsts :=
  cbv [UNLOCKED LOCKED CONTENDED SPIN_COUNT NULL ATOMIC_LOCK_UNLOCKED ATOMIC_LOCK_LOCKED
       EPERM EINTR EAGAIN ENOMEM EBUSY EINVAL ENOSPC EDEADLK ENOSYS ETIMEDOUT ENOTSUP
       EWOULDBLOCK
       PTHREAD_MUTEX_ERRORCHECK PTHREAD_MUTEX_RECURSIVE PTHREAD_MUTEX_NORMAL
       PTHREAD_MUTEX_STRICT_NP PTHREAD_MUTEX_DEFAULT PTHREAD_MUTEX_TYPE_MAX INT_MAX UINT_MAX
       initial_thread PTHREAD_KEYS_MAX PTHREAD_PROCESS_PRIVATE PTHREAD_NEEDS_INIT PTHREAD_DONE_INIT] in *.
Ltac xbool := first [ reflexivity | eassumption | zconsts; lia ].

Lemma run_bind_assoc {CB : Callbacks} {A B C} n t (p : prog A) (f : A -> prog B)
  (k : B -> prog C) w :
  run n t (bind (bind p f) k) w = run n t (bind p (fun x => bind (f x) k)) w.
Proof. rewrite !run_bind. destruct (run n t p w); simpl; auto. by rewrite run_bind. Qed.

(** Continuations that run alike. *)
Lemma run_bind_ext {CB : Callbacks} {A B} n t (p : prog A) (k1 k2 : A -> prog B) w :
  (forall a w, run n t (k1 a) w = run n t (k2 a) w) -> run n t (bind p k1) w = run n t (bind p k2) w.
Proof. intros H. rewrite !run_bind. destruct (run n t p w); simpl; auto. Qed.

(** A program as the first part of a sequence, for the rules in that form. *)
Lemma run_then {CB : Callbacks} {A} n t (p : prog A) w :
  run n t p w = run n t (bind p Ret) w.
Proof. rewrite run_bind. by destruct (run n t p w). Qed.

Ltac xif b :=
  first [ replace b with true by (symmetry; xbool)
        | replace b with false by (symmetry; xbool) ]; cbv iota.

(** One step of a goal [run n t p w = o]; programs with a specification of their
    own are stepped by [xcall]. *)
Ltac xstep :=
  cbv beta;
  lazymatch goal with
  | |- run _ _ (bind (bind _ _) _) _ = _ => rewrite run_bind_assoc
  | |- run _ _ (bind (Ret _) _) _ = _ => rewrite run_bind_ret
  | |- run _ _ (bind (act (Load _)) _) _ = _ => erewrite run_load; [| solve [lk]]
  | |- run _ _ (bind (act (Calloc _)) _) _ = _ => rewrite run_calloc by assumption
  | |- run _ _ (bind (act (SetErrno _)) _) _ = _ => rewrite run_set_errno
  | |- run _ _ (bind (act (Print _)) _) _ = _ => rewrite run_print
  | |- run _ _ (bind (act (Store _ _)) _) _ = _ => rewrite run_store; [| solve [lk]]
  | |- run _ _ (bind (act (Cas _ _ _)) _) _ = _ => erewrite run_cas; [| solve [lk]]
  | |- run _ _ (bind (act (Xchg _ _)) _) _ = _ => erewrite run_xchg; [| solve [lk]]
  | |- run _ _ (bind (act (FetchSub _ _)) _) _ = _ => erewrite run_fetch_sub; [| solve [lk]]
  | |- run _ _ (act (Load _)) _ = _ => erewrite run_load_end; [| solve [lk]]
  | |- run _ _ (act (Store _ _)) _ = _ => rewrite run_store_end; [| solve [lk]]
  | |- run _ _ (bind (if ?b then _ else _) _) _ = _ => xif b
  | |- run _ _ (if ?b then _ else _) _ = _ => xif b
  | |- run _ _ (let _ := _ in _) _ = _ => cbv zeta
  | |- run _ _ (Ret _) _ = _ => rewrite run_ret
  end.
Ltac exec := repeat xstep.

(** Use the specification [lem] of the first call; [side] proves its premises. *)
Tactic Notation "xcall" uconstr(lem) := erewrite lem; [ cbv beta | .. ].
