(* ===== verification/Mutex.v ===== *)
(** * Mutexes: rthread_mutex.c, rthread_mutexattr.c, rthread_mutex_prio.c *)

From stdpp Require Import base list gmap strings.
From Stdlib Require Import ZArith Lia.
From S2P Require Import Prelude CMem Prog PthreadH Phal Internal.
Local Open Scope Z_scope.
Local Open Scope prog_scope.

Section Mutex.
Context {HAL : Phal}.

Definition pthread_mutex_init (mutexp attr : Z * list fld) : prog Z :=
do mutex <- act (Calloc mutex_struct);
if mutex =? NULL then Ret ENOMEM else
(if is_null attr then
      act (Store (ptr mutex).@f_type PTHREAD_MUTEX_DEFAULT) ;;
      act (Store (ptr mutex).@f_prioceiling (-1))
    else
      do a <- act (Load attr);
      do ty <- act (Load (ptr a).@f_ma_type);
      act (Store (ptr mutex).@f_type ty) ;;
      do pr <- act (Load (ptr a).@f_ma_protocol);
      if pr =? PTHREAD_PRIO_PROTECT then
        do c <- act (Load (ptr a).@f_ma_prioceiling);
        act (Store (ptr mutex).@f_prioceiling c)
      else act (Store (ptr mutex).@f_prioceiling (-1))) ;;
act (Store mutexp mutex) ;;
Ret 0.

Definition pthread_mutex_destroy (mutexp : Z * list fld) : prog Z :=
if is_null mutexp then Ret EINVAL else
do mutex <- act (Load mutexp);
if mutex =? NULL then Ret EINVAL else
do lock <- act (Load (ptr mutex).@f_lock);
if negb (lock =? UNLOCKED) then
  act (Print "pthread_mutex_destroy on mutex with waiters!") ;;
  Ret EBUSY
else
  act (Free mutex) ;;
  act (Store mutexp NULL) ;;
  Ret 0.

Definition _rthread_mutex_trylock (mutex : Z) (trywait : bool) (abs : timespec)
: prog Z :=
do self <- pthread_self;
do unlocked <- act (Cas (ptr mutex).@f_lock UNLOCKED LOCKED);
if unlocked =? UNLOCKED then
  act (Store (ptr mutex).@f_owner self) ;;
  Ret 0
else
  do owner <- act (Load (ptr mutex).@f_owner);
  if owner =? self then
    do type <- act (Load (ptr mutex).@f_type);
    if negb (type =? PTHREAD_MUTEX_RECURSIVE) then
      if trywait || (type =? PTHREAD_MUTEX_ERRORCHECK) then
        Ret (if trywait then EBUSY else EDEADLK)
      else
        (if (type =? PTHREAD_MUTEX_STRICT_NP) && bool_decide (abs = None)
            then act Abort else Ret tt) ;;
        phal_semaphore_lock (ptr mutex).@f_sem ;;
        phal_semaphore_wait (ptr mutex).@f_sem abs ;;
        phal_semaphore_unlock (ptr mutex).@f_sem ;;
        Ret ETIMEDOUT
    else
      do count <- act (Load (ptr mutex).@f_count);
      if count =? INT_MAX then Ret EAGAIN else
      act (Store (ptr mutex).@f_count (count + 1)) ;;
      Ret 0
  else Ret EBUSY.

(** Dynamic initialisation of a statically initialised mutex. *)
Definition mutex_static_init (mutexp : Z * list fld) : prog Z :=
do m <- act (Load mutexp);
if m =? NULL then
  _spinlock (gv f_static_init_lock) ;;
  do m2 <- act (Load mutexp);
  do error <- (if m2 =? NULL then pthread_mutex_init mutexp (ptr NULL) else Ret 0);
  _spinunlock (gv f_static_init_lock) ;;
  Ret error
else Ret 0.

(** The bounded spin before the slow path. *)
Definition mutex_spin (mutex : Z) : prog unit :=
loop (fun i : Z =>
  if i <? SPIN_COUNT then
    do lock <- act (Load (ptr mutex).@f_lock);
    if lock =? UNLOCKED then Ret (inr tt) else Ret (inl (i + 1))
  else Ret (inr tt)) 0.

(** The slow path: sleep until the exchange finds the mutex free; [Some error]
  when the wait timed out. *)
Definition mutex_sleep (mutex : Z) (abs : timespec) (lock : Z) : prog (option Z) :=
loop (fun lock : Z =>
  if lock =? UNLOCKED then Ret (inr None) else
  phal_semaphore_lock (ptr mutex).@f_sem ;;
  do error <- phal_semaphore_wait (ptr mutex).@f_sem abs;
  phal_semaphore_unlock (ptr mutex).@f_sem ;;
  if error =? ETIMEDOUT then Ret (inr (Some error)) else
  do lock <- act (Xchg (ptr mutex).@f_lock CONTENDED);
  Ret (inl lock)) lock.

Definition _rthread_mutex_timedlock (mutexp : Z * list fld) (trywait : bool)
(abs : timespec) (timed : bool) : prog Z :=
do self <- pthread_self;
if is_null mutexp then Ret EINVAL else
do error <- mutex_static_init mutexp;
if negb (error =? 0) then Ret EINVAL else
do mutex <- act (Load mutexp);
act (Load (ptr mutex).@f_owner) ;;
_rthread_debug 5 "mutex_lock" ;;
do error <- _rthread_mutex_trylock mutex trywait abs;
if negb (error =? EBUSY) || trywait then Ret error else
mutex_spin mutex ;;
do lock <- act (Cas (ptr mutex).@f_lock UNLOCKED LOCKED);
if lock =? UNLOCKED then
  act (Store (ptr mutex).@f_owner self) ;;
  Ret 0
else
  do lock <- (if negb (lock =? CONTENDED)
              then act (Xchg (ptr mutex).@f_lock CONTENDED) else Ret lock);
  do r <- mutex_sleep mutex abs lock;
  match r with
  | Some error => Ret error
  | None =>
      act (Store (ptr mutex).@f_owner self) ;;
      Ret 0
  end.

Definition pthread_mutex_trylock (mutexp : Z * list fld) : prog Z :=
_rthread_mutex_timedlock mutexp true None false.

Definition pthread_mutex_timedlock (mutexp : Z * list fld) (abs : timespec) : prog Z :=
_rthread_mutex_timedlock mutexp false abs true.

Definition pthread_mutex_lock (mutexp : Z * list fld) : prog Z :=
_rthread_mutex_timedlock mutexp false None false.

(** The end of [pthread_mutex_unlock]: give the lock word back and wake a
  sleeper if it was contended. *)
Definition mutex_release (mutex : Z) : prog Z :=
act (Store (ptr mutex).@f_owner NULL) ;;
do old <- act (FetchSub (ptr mutex).@f_lock 1);
if negb (old =? UNLOCKED + 1) then
  act (Store (ptr mutex).@f_lock UNLOCKED) ;;
  phal_semaphore_lock (ptr mutex).@f_sem ;;
  phal_semaphore_signal (ptr mutex).@f_sem ;;
  phal_semaphore_unlock (ptr mutex).@f_sem ;;
  Ret 0
else Ret 0.

(** The part of [pthread_mutex_unlock] after the ownership check. *)
Definition mutex_leave (mutex : Z) : prog Z :=
do type <- act (Load (ptr mutex).@f_type);
if type =? PTHREAD_MUTEX_RECURSIVE then
  do count <- act (Load (ptr mutex).@f_count);
  if 0 <? count then
    act (Store (ptr mutex).@f_count (count - 1)) ;;
    Ret 0
  else mutex_release mutex
else mutex_release mutex.

(** [#if PTHREAD_MUTEX_DEFAULT == PTHREAD_MUTEX_ERRORCHECK]: both names are
  self-referential macros for enumerators, which the preprocessor reads as 0,
  so the first branch ([EPERM]) is the one compiled. *)
Definition pthread_mutex_unlock (mutexp : Z * list fld) : prog Z :=
do self <- pthread_self;
if is_null mutexp then Ret EINVAL else
do mutex <- act (Load mutexp);
if mutex =? NULL then Ret EPERM else
act (Load (ptr mutex).@f_owner) ;;
_rthread_debug 5 "mutex_unlock" ;;
do owner <- act (Load (ptr mutex).@f_owner);
if negb (owner =? self) then
  act (Load (ptr mutex).@f_owner) ;;
  _rthread_debug 5 "different owner" ;;
  do type <- act (Load (ptr mutex).@f_type);
  if (type =? PTHREAD_MUTEX_ERRORCHECK) || (type =? PTHREAD_MUTEX_RECURSIVE) then
    Ret EPERM
  else
    do owner <- act (Load (ptr mutex).@f_owner);
    do type <- act (Load (ptr mutex).@f_type);
    if (owner =? NULL) && (type =? PTHREAD_MUTEX_NORMAL) then Ret 0
    else
      act Abort ;;
      mutex_leave mutex
else mutex_leave mutex.

(** ** Priority ceilings (rthread_mutex_prio.c) *)
Definition pthread_mutex_getprioceiling (mutexp prioceiling : Z * list fld) : prog Z :=
do mutex <- act (Load mutexp);
do c <- act (Load (ptr mutex).@f_prioceiling);
if c =? -1 then Ret EINVAL else
act (Store prioceiling c) ;;
Ret 0.

Definition pthread_mutex_setprioceiling (mutexp : Z * list fld) (prioceiling : Z)
(old_ceiling : Z * list fld) : prog Z :=
do mutex <- act (Load mutexp);
do c <- act (Load (ptr mutex).@f_prioceiling);
if (c =? -1) || (prioceiling <? PTHREAD_MIN_PRIORITY)
   || (PTHREAD_MAX_PRIORITY <? prioceiling) then Ret EINVAL
else
  do ret <- pthread_mutex_lock mutexp;
  if ret =? 0 then
    do c <- act (Load (ptr mutex).@f_prioceiling);
    act (Store old_ceiling c) ;;
    act (Store (ptr mutex).@f_prioceiling prioceiling) ;;
    pthread_mutex_unlock mutexp ;;
    Ret ret
  else Ret ret.

(** ** Mutex attributes (rthread_mutexattr.c)

  [pthread_mutexattr_init] reports a failed allocation as [errno], which the
  C library's [calloc] sets to [ENOMEM]. *)
Definition pthread_mutexattr_init (attrp : Z * list fld) : prog Z :=
do attr <- act (Calloc mutex_attr_struct);
if attr =? NULL then Ret ENOMEM else
act (Store (ptr attr).@f_ma_type PTHREAD_MUTEX_DEFAULT) ;;
act (Store attrp attr) ;;
Ret 0.

Definition pthread_mutexattr_destroy (attrp : Z * list fld) : prog Z :=
do a <- act (Load attrp);
act (Free a) ;;
act (Store attrp NULL) ;;
Ret 0.

Definition pthread_mutexattr_settype (attrp : Z * list fld) (type : Z) : prog Z :=
if (type <? PTHREAD_MUTEX_ERRORCHECK) || (PTHREAD_MUTEX_TYPE_MAX <=? type)
then Ret EINVAL else
do a <- act (Load attrp);
act (Store (ptr a).@f_ma_type type) ;;
Ret 0.

Definition pthread_mutexattr_gettype (attrp type : Z * list fld) : prog Z :=
do a <- act (Load attrp);
do v <- act (Load (ptr a).@f_ma_type);
act (Store type v) ;;
Ret 0.

Definition pthread_mutexattr_setprotocol (attrp : Z * list fld) (protocol : Z) : prog Z :=
if (protocol <? PTHREAD_PRIO_NONE) || (PTHREAD_PRIO_PROTECT <? protocol)
then Ret EINVAL else
do a <- act (Load attrp);
act (Store (ptr a).@f_ma_protocol protocol) ;;
Ret 0.

Definition pthread_mutexattr_getprotocol (attrp protocol : Z * list fld) : prog Z :=
do a <- act (Load attrp);
do v <- act (Load (ptr a).@f_ma_protocol);
act (Store protocol v) ;;
Ret 0.

Definition pthread_mutexattr_setprioceiling (attrp : Z * list fld) (prioceiling : Z)
: prog Z :=
if (prioceiling <? PTHREAD_MIN_PRIORITY) || (PTHREAD_MAX_PRIORITY <? prioceiling)
then Ret EINVAL else
do a <- act (Load attrp);
act (Store (ptr a).@f_ma_prioceiling prioceiling) ;;
Ret 0.

Definition pthread_mutexattr_getprioceiling (attrp prioceiling : Z * list fld) : prog Z :=
do a <- act (Load attrp);
do v <- act (Load (ptr a).@f_ma_prioceiling);
act (Store prioceiling v) ;;
Ret 0.

Definition pthread_mutexattr_getkind_np (attr : Z) : prog Z :=
if attr =? NULL then Ret EINVAL else act (Load (ptr attr).@f_ma_type).

Definition pthread_mutexattr_setkind_np (attrp : Z * list fld) (kind : Z) : prog Z :=
if is_null attrp then Ret EINVAL else
do a <- act (Load attrp);
if (a =? NULL) || (kind <? PTHREAD_MUTEX_ERRORCHECK) || (PTHREAD_MUTEX_TYPE_MAX <=? kind)
then Ret EINVAL else
act (Store (ptr a).@f_ma_type kind) ;;
Ret 0.

End Mutex.
