(* ===== verification/MutexSpec.v ===== *)
(** * What a mutex promises

    [amutex] is the abstract state of a mutex; [alock] and [aunlock] are the
    contracts of the locking calls.  The theorems relate every branch of
    rthread_mutex.c, run by one thread, to these contracts. *)

From stdpp Require Import base list gmap strings.
From Stdlib Require Import ZArith Lia.
From S2P Require Import Prelude CMem Prog PthreadH Phal Internal Exec Mutex.
Local Open Scope Z_scope.
Local Open Scope prog_scope.

(** ** The contract *)
Record amutex := AMutex { am_type : Z; am_owner : option Z; am_count : Z }.

Inductive averdict := Returns (m : amutex) (rc : Z) | Sleeps | Aborts.

Definition relock (try timed : bool) (m : amutex) : averdict :=
  if am_type m =? PTHREAD_MUTEX_RECURSIVE then
    if am_count m =? INT_MAX then Returns m EAGAIN
    else Returns (AMutex (am_type m) (am_owner m) (am_count m + 1)) 0
  else if try then Returns m EBUSY
  else if am_type m =? PTHREAD_MUTEX_ERRORCHECK then Returns m EDEADLK
  else if (am_type m =? PTHREAD_MUTEX_STRICT_NP) && negb timed then Aborts
  else Sleeps.

Definition alock (self : Z) (try timed : bool) (m : amutex) : averdict :=
  match am_owner m with
  | None => Returns (AMutex (am_type m) (Some self) (am_count m)) 0
  | Some o =>
      if o =? self then relock try timed m
      else if try then Returns m EBUSY else Sleeps
  end.

Definition aunlock (self : Z) (m : amutex) : averdict :=
  if bool_decide (am_owner m = Some self) then
    if (am_type m =? PTHREAD_MUTEX_RECURSIVE) && (0 <? am_count m)
    then Returns (AMutex (am_type m) (am_owner m) (am_count m - 1)) 0
    else Returns (AMutex (am_type m) None (am_count m)) 0
  else if (am_type m =? PTHREAD_MUTEX_ERRORCHECK) || (am_type m =? PTHREAD_MUTEX_RECURSIVE)
  then Returns m EPERM
  else if bool_decide (am_owner m = None) && (am_type m =? PTHREAD_MUTEX_NORMAL)
  then Returns m 0
  else Aborts.

(** ** Representation in memory *)
Record mutex_at (m : Z) (mp : Z * list fld) (ty lock owner count : Z) (w : world) : Prop := {
  ma_pos : 0 < m;
  ma_var : mp.1 <> m /\ mp <> ptr NULL;
  ma_mp : w_heap w !! mp = Some m;
  ma_type : w_heap w !! (m, [f_type]) = Some ty;
  ma_lock : w_heap w !! (m, [f_lock]) = Some lock;
  ma_owner : w_heap w !! (m, [f_owner]) = Some owner;
  ma_count : w_heap w !! (m, [f_count]) = Some count
}.

Definition lock_word (o : option Z) (v : Z) : Prop :=
  match o with None => v = UNLOCKED | Some _ => v = LOCKED \/ v = CONTENDED end.

Definition mutex_rep (m : Z) (mp : Z * list fld) (a : amutex) (w : world) : Prop :=
  exists v, lock_word (am_owner a) v /\ am_owner a <> Some NULL /\
    mutex_at m mp (am_type a) v (default NULL (am_owner a)) (am_count a) w.

(** A store changes one field of the representation. *)
Lemma mutex_at_lock m mp ty v o c w x :
  mutex_at m mp ty v o c w -> mutex_at m mp ty x o c (upd_loc (m, [f_lock]) x w).
Proof. intros [? []]. split; try done; lk. Qed.

Lemma mutex_at_owner m mp ty v o c w x :
  mutex_at m mp ty v o c w -> mutex_at m mp ty v x c (upd_loc (m, [f_owner]) x w).
Proof. intros [? []]. split; try done; lk. Qed.

Lemma mutex_at_count m mp ty v o c w x :
  mutex_at m mp ty v o c w -> mutex_at m mp ty v o x (upd_loc (m, [f_count]) x w).
Proof. intros [? []]. split; try done; lk. Qed.

(** ** The calls, branch by branch *)
Section Calls.
Context {CB : Callbacks} {HAL : Phal} {HQ : PhalQuiet HAL}.
Context (t : nat) (self m : Z) (mp : Z * list fld).

Lemma run_mutex_static_init {B} n (k : Z -> prog B) w :
  w_heap w !! mp = Some m -> 0 < m ->
  run n t (bind (mutex_static_init mp) k) w = run n t (k 0) w.
Proof. intros. unfold mutex_static_init. exec. done. Qed.

(** The prologue every locking call shares: thread pointer, null check,
    static initialisation (which ends in [w']) and debug output. *)
Lemma run_timedlock_from {B} n ty v o c try abs timed (k : Z -> prog B) w w' r :
  started t self w -> started t self w' -> mutex_at m mp ty v o c w' ->
  (forall B (k : Z -> prog B),
     run n t (bind (mutex_static_init mp) k) w = run n t (k 0) w') ->
  run n t (do error <- _rthread_mutex_trylock m try abs;
    bind (if negb (error =? EBUSY) || try then Ret error else
      mutex_spin m ;;
      do lock <- act (Cas (ptr m).@f_lock UNLOCKED LOCKED);
      if lock =? UNLOCKED then
        act (Store (ptr m).@f_owner self) ;; Ret 0
      else
        do lock <- (if negb (lock =? CONTENDED)
                    then act (Xchg (ptr m).@f_lock CONTENDED) else Ret lock);
        do r <- mutex_sleep m abs lock;
        match r with
        | Some error => Ret error
        | None => act (Store (ptr m).@f_owner self) ;; Ret 0
        end) k) w' = r ->
  run n t (bind (_rthread_mutex_timedlock mp try abs timed) k) w = r.
Proof.
  intros [] [] [? []] Hinit H'. unfold _rthread_mutex_timedlock. exec.
  xcall (run_self _ _ 1 self); try done. rewrite is_null_false by done.
  exec. rewrite Hinit. exec.
  xcall run_debug; try done. by rewrite run_bind_assoc.
Qed.

Lemma run_lock_free_from {B} n ty o c try abs timed (k : Z -> prog B) w w' :
  started t self w -> started t self w' -> mutex_at m mp ty UNLOCKED o c w' ->
  (forall B (k : Z -> prog B),
     run n t (bind (mutex_static_init mp) k) w = run n t (k 0) w') ->
  run n t (bind (_rthread_mutex_timedlock mp try abs timed) k) w
  = run n t (k 0) (upd_loc (m, [f_owner]) self (upd_loc (m, [f_lock]) LOCKED w')).
Proof.
  intros Hs Hs' Hm Hinit. eapply run_timedlock_from; try done. destruct Hs', Hm.
  unfold _rthread_mutex_trylock. exec.
  xcall (run_self _ _ 1 self); try done. exec.
  replace (UNLOCKED =? UNLOCKED) with true by done. by exec.
Qed.

(** The same from a mutex that is initialised already. *)
Lemma run_timedlock {B} n ty v o c try abs timed (k : Z -> prog B) w r :
  started t self w -> mutex_at m mp ty v o c w ->
  run n t (do error <- _rthread_mutex_trylock m try abs;
    bind (if negb (error =? EBUSY) || try then Ret error else
      mutex_spin m ;;
      do lock <- act (Cas (ptr m).@f_lock UNLOCKED LOCKED);
      if lock =? UNLOCKED then
        act (Store (ptr m).@f_owner self) ;; Ret 0
      else
        do lock <- (if negb (lock =? CONTENDED)
                    then act (Xchg (ptr m).@f_lock CONTENDED) else Ret lock);
        do r <- mutex_sleep m abs lock;
        match r with
        | Some error => Ret error
        | None => act (Store (ptr m).@f_owner self) ;; Ret 0
        end) k) w = r ->
  run n t (bind (_rthread_mutex_timedlock mp try abs timed) k) w = r.
Proof.
  intros Hs Hm. eapply run_timedlock_from; [done | done | done |].
  intros. destruct Hm. by apply run_mutex_static_init.
Qed.

(** A free mutex is taken. *)
Lemma run_lock_free {B} n ty o c try abs timed (k : Z -> prog B) w :
  started t self w -> mutex_at m mp ty UNLOCKED o c w ->
  run n t (bind (_rthread_mutex_timedlock mp try abs timed) k) w
  = run n t (k 0) (upd_loc (m, [f_owner]) self (upd_loc (m, [f_lock]) LOCKED w)).
Proof.
  intros Hs Hm. eapply run_lock_free_from; [done | done | done |].
  intros. destruct Hm. by apply run_mutex_static_init.
Qed.

(** The failed compare-and-swap of [_rthread_mutex_trylock] on a held mutex. *)
Lemma run_trylock_held {B} n ty v o c try abs (k : Z -> prog B) w r :
  started t self w -> mutex_at m mp ty v o c w -> v <> UNLOCKED ->
  run n t (bind (if o =? self then
      if negb (ty =? PTHREAD_MUTEX_RECURSIVE) then
        if try || (ty =? PTHREAD_MUTEX_ERRORCHECK) then Ret (if try then EBUSY else EDEADLK)
        else
          (if (ty =? PTHREAD_MUTEX_STRICT_NP) && bool_decide (abs = None)
           then act Abort else Ret tt) ;;
          phal_semaphore_lock (ptr m).@f_sem ;;
          phal_semaphore_wait (ptr m).@f_sem abs ;;
          phal_semaphore_unlock (ptr m).@f_sem ;;
          Ret ETIMEDOUT
      else if c =? INT_MAX then Ret EAGAIN else
        act (Store (ptr m).@f_count (c + 1)) ;; Ret 0
    else Ret EBUSY) k) w = r ->
  run n t (bind (_rthread_mutex_trylock m try abs) k) w = r.
Proof.
  intros [] [? []] Hv <-. unfold _rthread_mutex_trylock. exec.
  xcall (run_self _ _ 1 self); try done. exec.
  replace (v =? UNLOCKED) with false by (symmetry; xbool).
  rewrite upd_loc_id by done. exec.
  destruct (o =? self); [| done]. exec.
  destruct (ty =? PTHREAD_MUTEX_RECURSIVE); [| done]. by exec.
Qed.

(** The bounded spin gives up on a mutex that stays held. *)
Lemma run_mutex_spin {B} n v (k : unit -> prog B) w :
  w_heap w !! (m, [f_lock]) = Some v -> v <> UNLOCKED -> SPIN_COUNT < Z.of_nat n ->
  run n t (bind (mutex_spin m) k) w = run n t (k tt) w.
Proof.
  intros Hv Hne Hn. unfold mutex_spin, loop. cbn [bind run].
  cut (forall j i, 0 <= i <= SPIN_COUNT -> SPIN_COUNT - i < Z.of_nat j ->
    run_loop (fun i w => run n t (if i <? SPIN_COUNT then
        do lock <- act (Load (ptr m).@f_lock);
        if lock =? UNLOCKED then Ret (inr tt) else Ret (inl (i + 1))
      else Ret (inr tt)) w) (fun r w => run n t (k r) w) j i w = run n t (k tt) w).
  { intros H. apply H; zconsts; lia. }
  induction j as [| j IH]; intros i Hi Hj; [lia |].
  cbn [run_loop]. destruct (i <? SPIN_COUNT) eqn:E; [| done].
  cbn [bind run act act_sem abind]. change (ptr m).@f_lock with (m, [f_lock]). rewrite Hv. cbn [abind].
  replace (v =? UNLOCKED) with false by (symmetry; xbool). cbn [run obind].
  apply IH; zconsts; lia.
Qed.
End Calls.

(** ** The contract is met, under the documented HAL *)
Section Refinement.
Context {CB : Callbacks}.
#[local] Existing Instance DocPhal.
Context (t : nat) (self m : Z) (mp : Z * list fld).
Notation sem := (m, [f_sem]).

(** Nobody holds the lock of the HAL semaphore, and no wait is interrupted. *)
Definition hal_idle (w : world) : Prop :=
  h_owner (hsem_at sem w) = None /\ w_intr w = [].

Lemma run_hal_sleep {B} n abs (k : Z -> prog B) w :
  hal_idle w ->
  run n t (bind (phal_semaphore_lock (ptr m).@f_sem) (fun _ =>
    bind (phal_semaphore_wait (ptr m).@f_sem abs) k)) w = Blocked (hal_asleep t sem w).
Proof.
  intros [Ho Hi]. cbn [phal_semaphore_lock phal_semaphore_wait DocPhal].
  rewrite run_doc_lock by done. cbv beta.
  rewrite run_doc_wait_sleep by done. by rewrite hal_asleep_upd.
Qed.

Lemma run_mutex_sleep {B} n abs lock (k : option Z -> prog B) w :
  hal_idle w -> lock <> UNLOCKED -> (0 < n)%nat ->
  run n t (bind (mutex_sleep m abs lock) k) w = Blocked (hal_asleep t sem w).
Proof.
  intros Hi Hl Hn. destruct n as [| n]; [lia |].
  unfold mutex_sleep, loop. cbn [bind run run_loop].
  replace (lock =? UNLOCKED) with false by (symmetry; xbool).
  by rewrite run_hal_sleep.
Qed.

(** A mutex held by another thread puts the caller to sleep, marked contended. *)
Lemma run_lock_contended n ty v o c abs timed w :
  started t self w -> mutex_at m mp ty v o c w -> v <> UNLOCKED -> o <> self ->
  hal_idle w -> SPIN_COUNT < Z.of_nat n ->
  run n t (_rthread_mutex_timedlock mp false abs timed) w
  = Blocked (hal_asleep t sem (upd_loc (m, [f_lock]) CONTENDED w)).
Proof.
  intros Hs Hm Hv Ho Hi Hn. rewrite run_then. eapply run_timedlock; try done.
  eapply run_trylock_held; try done. destruct Hm. exec.
  xcall run_mutex_spin; try done. exec.
  replace (v =? UNLOCKED) with false by (symmetry; xbool).
  rewrite upd_loc_id by done.
  destruct (v =? CONTENDED) eqn:E; cbn [negb]; exec.
  - apply Z.eqb_eq in E as ->. rewrite run_mutex_sleep; zconsts; try done; [| lia].
    by rewrite upd_loc_id.
  - rewrite run_mutex_sleep; zconsts; try done; lia.
Qed.

(** The outcome [o] of a call from the state [w] is what the verdict promises;
    nothing outside the mutex object changes. *)
Definition meets (w : world) (a : amutex) (v : averdict) (o : outcome Z) : Prop :=
  match v with
  | Returns a' rc =>
      exists w', o = Done w' rc /\ mutex_rep m mp a' w' /\
        forall l, l.1 <> m -> w_heap w' !! l = w_heap w !! l
  | Sleeps =>
      exists w', o = Blocked w' /\ mutex_rep m mp a w' /\
        t ∈ h_waiting (hsem_at sem w') /\
        forall l, l.1 <> m -> w_heap w' !! l = w_heap w !! l
  | Aborts => exists w', o = Aborted w'
  end.

Lemma asleep_waiting w : t ∈ h_waiting (hsem_at sem (hal_asleep t sem w)).
Proof.
  unfold hal_asleep. rewrite hsem_at_upd. apply elem_of_app. right. by apply list_elem_of_here.
Qed.

Lemma mutex_rep_asleep a w :
  mutex_rep m mp a w -> mutex_rep m mp a (hal_asleep t sem w).
Proof. intros (v & Hv & Hn & []). exists v. split; [done |]. split; [done |]. by split. Qed.

Lemma meets_sleep a w w' o :
  o = Blocked (hal_asleep t sem w') -> mutex_rep m mp a w' ->
  (forall l, l.1 <> m -> w_heap w' !! l = w_heap w !! l) ->
  meets w a Sleeps o.
Proof.
  intros -> Hr Hf. eexists. split; [done |]. split; [by apply mutex_rep_asleep |].
  split; [apply asleep_waiting | done].
Qed.

Lemma lock_word_held o v : lock_word (Some o) v -> v <> UNLOCKED.
Proof. intros []; zconsts; lia. Qed.

(** The owner of a recursive mutex locks again. *)
Lemma run_lock_recursive n v c try abs timed w :
  started t self w -> mutex_at m mp PTHREAD_MUTEX_RECURSIVE v self c w -> v <> UNLOCKED ->
  run n t (_rthread_mutex_timedlock mp try abs timed) w
  = if c =? INT_MAX then Done w EAGAIN else Done (upd_loc (m, [f_count]) (c + 1) w) 0.
Proof.
  intros Hs Hm Hv. rewrite run_then.
  eapply run_timedlock; [done | done |]. eapply run_trylock_held; [done | done | done |].
  rewrite Z.eqb_refl. exec. destruct (c =? INT_MAX); [by exec |]. destruct Hm. by exec.
Qed.

(** The owner of a mutex of another type. *)
Lemma run_lock_again n ty v c try abs timed w :
  started t self w -> mutex_at m mp ty v self c w -> v <> UNLOCKED ->
  ty <> PTHREAD_MUTEX_RECURSIVE -> hal_idle w ->
  run n t (_rthread_mutex_timedlock mp try abs timed) w
  = if try then Done w EBUSY
    else if ty =? PTHREAD_MUTEX_ERRORCHECK then Done w EDEADLK
    else if (ty =? PTHREAD_MUTEX_STRICT_NP) && bool_decide (abs = None) then Aborted w
    else Blocked (hal_asleep t sem w).
Proof.
  intros Hs Hm Hv Hr Hi. rewrite run_then.
  eapply run_timedlock; [done | done |]. eapply run_trylock_held; [done | done | done |].
  rewrite Z.eqb_refl. exec. destruct try; [by exec |].
  destruct (ty =? PTHREAD_MUTEX_ERRORCHECK); [by exec |]. cbn [orb]. exec.
  destruct ((ty =? PTHREAD_MUTEX_STRICT_NP) && bool_decide (abs = None)); [done |].
  destruct Hi as [Ho Hi]. exec. cbn [phal_semaphore_lock phal_semaphore_wait DocPhal].
  rewrite run_doc_lock by done. exec. rewrite run_doc_wait_sleep by done.
  by rewrite hal_asleep_upd.
Qed.

Lemma meets_same a w rc o :
  o = Done w rc -> mutex_rep m mp a w -> meets w a (Returns a rc) o.
Proof. intros -> Hr. by exists w. Qed.

Lemma relock_meets n ty v c try abs timed w :
  started t self w -> mutex_at m mp ty v self c w -> lock_word (Some self) v ->
  self <> NULL -> hal_idle w ->
  meets w (AMutex ty (Some self) c)
    (relock try (bool_decide (abs <> None)) (AMutex ty (Some self) c))
    (run n t (_rthread_mutex_timedlock mp try abs timed) w).
Proof.
  intros Hs Hm Hv Hself Hi. pose proof (lock_word_held _ _ Hv) as Hv'.
  assert (mutex_rep m mp (AMutex ty (Some self) c) w) as Hrep.
  { exists v. split; [done |]. split; [simpl; congruence | done]. }
  unfold relock. cbn [am_type am_owner am_count].
  destruct (ty =? PTHREAD_MUTEX_RECURSIVE) eqn:Er.
  - apply Z.eqb_eq in Er as ->. erewrite run_lock_recursive by done.
    destruct (c =? INT_MAX); [by apply meets_same |].
    eexists. split; [done |]. split; [| by intros l Hl; lk].
    exists v. split; [done |]. split; [simpl; congruence |].
    by apply (mutex_at_count _ _ _ _ _ c).
  - erewrite run_lock_again by (try done; lia). destruct try; [by apply meets_same |].
    destruct (ty =? PTHREAD_MUTEX_ERRORCHECK); [by apply meets_same |].
    rewrite bool_decide_not, negb_involutive.
    destruct ((ty =? PTHREAD_MUTEX_STRICT_NP) && bool_decide (abs = None)); [by eexists |].
    by eapply meets_sleep.
Qed.

(** C2: every branch of pthread_mutex_lock, trylock and timedlock. *)
Theorem mutex_lock_refines n a try abs timed w :
  started t self w -> self <> NULL -> mutex_rep m mp a w -> hal_idle w ->
  SPIN_COUNT < Z.of_nat n ->
  meets w a (alock self try (bool_decide (abs <> None)) a)
    (run n t (_rthread_mutex_timedlock mp try abs timed) w).
Proof.
  intros Hs Hself (v & Hv & Hn & Hm) Hi Hfuel. destruct a as [ty [o |] c];
    unfold alock; cbn [am_type am_owner am_count lock_word] in *.
  - change (default NULL (Some o)) with o in Hm. destruct (o =? self) eqn:Eo.
    { apply Z.eqb_eq in Eo as ->. by eapply relock_meets. }
    assert (mutex_rep m mp (AMutex ty (Some o) c) w) as Hrep by by exists v.
    pose proof (lock_word_held o _ Hv) as Hv'. destruct try.
    + apply meets_same; [| done]. rewrite run_then. eapply run_timedlock; [done | done |].
      eapply run_trylock_held; [done | done | done |]. rewrite Eo. by exec.
    + eapply meets_sleep; [eapply run_lock_contended; try done; lia | |].
      * exists CONTENDED. split; [by right |]. split; [done |].
        by apply (mutex_at_lock _ _ _ v).
      * intros l Hl. lk.
  - subst v. eexists. split; [rewrite run_then; by erewrite run_lock_free |].
    split; [| by intros l Hl; lk].
    exists LOCKED. split; [by left |]. split; [simpl; congruence |].
    by eapply mutex_at_owner, mutex_at_lock.
Qed.

(** The world after the owner gives the mutex back. *)
Definition released (v : Z) (w : world) : world :=
  let w := upd_loc (m, [f_lock]) (v - 1) (upd_loc (m, [f_owner]) NULL w) in
  if v =? LOCKED then w
  else upd_hsem sem (HSem None (tail (h_waiting (hsem_at sem w))))
         (upd_loc (m, [f_lock]) UNLOCKED w).

Lemma run_mutex_release n ty v o c w :
  mutex_at m mp ty v o c w -> v = LOCKED \/ v = CONTENDED ->
  h_owner (hsem_at sem w) = None ->
  run n t (mutex_release m) w = Done (released v w) 0.
Proof.
  intros [? []] Hv Hi. unfold mutex_release, released. exec.
  rewrite i32_small by (destruct Hv; zconsts; lia).
  destruct Hv as [-> | ->].
  - by exec.
  - replace (CONTENDED =? UNLOCKED + 1) with false by done.
    replace (CONTENDED =? LOCKED) with false by done. cbn [negb]. exec.
    cbn [phal_semaphore_lock phal_semaphore_signal phal_semaphore_unlock DocPhal].
    rewrite run_doc_lock by done. exec. rewrite run_doc_signal, hsem_at_upd. exec.
    rewrite run_doc_unlock, hsem_at_upd, !upd_hsem_upd. by exec.
Qed.

(** [pthread_mutex_unlock] up to the ownership check. *)
Lemma run_unlock n ty v o c w :
  started t self w -> mutex_at m mp ty v o c w ->
  run n t (pthread_mutex_unlock mp) w
  = if o =? self then run n t (mutex_leave m) w
    else if (ty =? PTHREAD_MUTEX_ERRORCHECK) || (ty =? PTHREAD_MUTEX_RECURSIVE)
         then Done w EPERM
    else if (o =? NULL) && (ty =? PTHREAD_MUTEX_NORMAL) then Done w 0
    else Aborted w.
Proof.
  intros [] [? []]. unfold pthread_mutex_unlock.
  xcall (run_self _ _ 1 self); try done. rewrite is_null_false by done. exec.
  xcall run_debug; try done. exec. destruct (o =? self); cbn [negb]; [done |]. exec.
  xcall run_debug; try done. exec.
  destruct ((ty =? PTHREAD_MUTEX_ERRORCHECK) || (ty =? PTHREAD_MUTEX_RECURSIVE));
    [by exec |]. exec.
  by destruct ((o =? NULL) && (ty =? PTHREAD_MUTEX_NORMAL)).
Qed.

Lemma run_mutex_leave n ty v o c w :
  mutex_at m mp ty v o c w -> v = LOCKED \/ v = CONTENDED ->
  h_owner (hsem_at sem w) = None ->
  run n t (mutex_leave m) w
  = if (ty =? PTHREAD_MUTEX_RECURSIVE) && (0 <? c)
    then Done (upd_loc (m, [f_count]) (c - 1) w) 0
    else Done (released v w) 0.
Proof.
  intros Hm Hv Hi. destruct Hm as [? []] eqn:E. unfold mutex_leave. exec.
  destruct (ty =? PTHREAD_MUTEX_RECURSIVE); cbn [andb].
  - exec. destruct (0 <? c); [by exec |]. by eapply run_mutex_release.
  - by eapply run_mutex_release.
Qed.

Lemma released_rep ty v o c w :
  mutex_at m mp ty v o c w -> v = LOCKED \/ v = CONTENDED ->
  mutex_rep m mp (AMutex ty None c) (released v w) /\
  forall l, l.1 <> m -> w_heap (released v w) !! l = w_heap w !! l.
Proof.
  intros Hm Hv. unfold released. destruct Hv as [-> | ->]; cbv zeta.
  - change (LOCKED =? LOCKED) with true. cbv iota. split; [| by intros l Hl; lk].
    exists UNLOCKED. split; [done |]. split; [done |].
    by eapply mutex_at_lock, mutex_at_owner.
  - change (CONTENDED =? LOCKED) with false. cbv iota. split; [| by intros l Hl; lk].
    exists UNLOCKED. split; [done |]. split; [done |].
    destruct (mutex_at_lock _ _ _ _ _ _ _ UNLOCKED
      (mutex_at_lock _ _ _ _ _ _ _ (CONTENDED - 1)
        (mutex_at_owner _ _ _ _ _ _ _ NULL Hm))).
    by split.
Qed.

(** C3: every branch of pthread_mutex_unlock. *)
Theorem mutex_unlock_refines n a w :
  started t self w -> self <> NULL -> mutex_rep m mp a w -> hal_idle w ->
  meets w a (aunlock self a) (run n t (pthread_mutex_unlock mp) w).
Proof.
  intros Hs Hself (v & Hv & Hn & Hm) [Hi _]. destruct a as [ty o c].
  erewrite run_unlock by done. unfold aunlock. cbn [am_type am_owner am_count] in *.
  assert (mutex_rep m mp (AMutex ty o c) w) as Hrep by by exists v.
  destruct (default NULL o =? self) eqn:Eo.
  - destruct o as [o |]; [| by apply Z.eqb_eq in Eo; subst].
    apply Z.eqb_eq in Eo. change (o = self) in Eo. subst o.
    rewrite bool_decide_true by done.
    erewrite run_mutex_leave by done. destruct (_ && _).
    + eexists. split; [done |]. split; [| by intros l Hl; lk].
      exists v. split; [done |]. split; [done |]. by eapply mutex_at_count.
    + eexists. split; [done |]. by eapply released_rep.
  - rewrite (bool_decide_false (o = Some self))
      by (intros ->; change (default NULL (Some self)) with self in Eo; lia).
    destruct (_ || _); [by apply meets_same |].
    replace (bool_decide (o = None)) with (default NULL o =? NULL).
    { destruct (_ && _); [by apply meets_same | by eexists]. }
    destruct o as [o |]; [| done]. rewrite bool_decide_false by done.
    change (default NULL (Some o)) with o. assert (o <> NULL) by congruence.
    zconsts. lia.
Qed.
End Refinement.

(** ** Nested locking of a recursive mutex *)

(** [k] calls that must all succeed. *)
Fixpoint all_ok (k : nat) (p : prog Z) : prog unit :=
  match k with
  | O => Ret tt
  | S k => do e <- p; assert_ (e =? 0) ;; all_ok k p
  end.

Section Nesting.
Context {CB : Callbacks}.
#[local] Existing Instance DocPhal.
Context (n t : nat) (self m : Z) (mp : Z * list fld).

(** Thread [t] holds the recursive mutex with the given count. *)
Definition nested (c : Z) (w : world) : Prop :=
  started t self w /\ mutex_at m mp PTHREAD_MUTEX_RECURSIVE LOCKED self c w /\
  hal_idle m w.

Lemma nested_count c x w : nested c w -> nested x (upd_loc (m, [f_count]) x w).
Proof.
  intros (Hs & Hm & Hi). split; [apply started_upd_pos; [done | by destruct Hm] |].
  split; [by eapply mutex_at_count | done].
Qed.

Lemma nested_lock c w :
  nested c w -> 0 <= c < INT_MAX ->
  exists w', run n t (pthread_mutex_lock mp) w = Done w' 0 /\ nested (c + 1) w'.
Proof.
  intros Hw Hc. pose proof Hw as (Hs & Hm & Hi). eexists. split; [| by apply (nested_count c)].
  etrans; [by eapply run_lock_recursive |]. destruct (c =? INT_MAX) eqn:E; [lia | done].
Qed.

Lemma nested_unlock c w :
  nested c w -> 0 < c ->
  exists w', run n t (pthread_mutex_unlock mp) w = Done w' 0 /\ nested (c - 1) w'.
Proof.
  intros Hw Hc. pose proof Hw as (Hs & Hm & Hi & _). eexists. split; [| by apply (nested_count c)].
  erewrite run_unlock by done. rewrite Z.eqb_refl.
  erewrite run_mutex_leave; [| done | by left | done].
  replace (0 <? c) with true by lia. done.
Qed.

Lemma nested_locks k c w :
  nested c w -> 0 <= c -> c + Z.of_nat k <= INT_MAX ->
  exists w', run n t (all_ok k (pthread_mutex_lock mp)) w = Done w' tt /\
    nested (c + Z.of_nat k) w'.
Proof.
  revert c w. induction k as [| k IH]; intros c w Hw Hc Hk.
  { exists w. split; [done |]. by rewrite Z.add_0_r. }
  destruct (nested_lock c w Hw) as (w1 & H1 & Hw1); [lia |].
  destruct (IH (c + 1) w1 Hw1) as (w2 & H2 & Hw2); [lia | lia |].
  exists w2. split; [| by replace (c + Z.of_nat (S k)) with (c + 1 + Z.of_nat k) by lia].
  cbn [all_ok]. rewrite run_bind, H1. cbn [obind]. by exec.
Qed.

Lemma nested_unlocks k c w :
  nested c w -> 0 <= c - Z.of_nat k ->
  exists w', run n t (all_ok k (pthread_mutex_unlock mp)) w = Done w' tt /\
    nested (c - Z.of_nat k) w'.
Proof.
  revert c w. induction k as [| k IH]; intros c w Hw Hk.
  { exists w. split; [done |]. by rewrite Z.sub_0_r. }
  destruct (nested_unlock c w Hw) as (w1 & H1 & Hw1); [lia |].
  destruct (IH (c - 1) w1 Hw1) as (w2 & H2 & Hw2); [lia |].
  exists w2. split; [| by replace (c - Z.of_nat (S k)) with (c - 1 - Z.of_nat k) by lia].
  cbn [all_ok]. rewrite run_bind, H1. cbn [obind]. by exec.
Qed.

(** C10: [k + 1] nested locks succeed up to [k = INT_MAX]; the mutex stays taken
    through the first [k] unlocks and is free after the last one. *)
Theorem mutex_recursive_nesting k w :
  started t self w -> self <> NULL -> hal_idle m w -> Z.of_nat k <= INT_MAX ->
  mutex_rep m mp (AMutex PTHREAD_MUTEX_RECURSIVE None 0) w ->
  exists w1 w2 w3,
    run n t (all_ok (S k) (pthread_mutex_lock mp)) w = Done w1 tt /\
    mutex_rep m mp (AMutex PTHREAD_MUTEX_RECURSIVE (Some self) (Z.of_nat k)) w1 /\
    run n t (all_ok k (pthread_mutex_unlock mp)) w1 = Done w2 tt /\
    mutex_rep m mp (AMutex PTHREAD_MUTEX_RECURSIVE (Some self) 0) w2 /\
    run n t (pthread_mutex_unlock mp) w2 = Done w3 0 /\
    mutex_rep m mp (AMutex PTHREAD_MUTEX_RECURSIVE None 0) w3.
Proof.
  intros Hs Hself Hi Hk (v & Hv & _ & Hm). simpl in Hv, Hm. subst v.
  assert (nested 0 (upd_loc (m, [f_owner]) self (upd_loc (m, [f_lock]) LOCKED w))) as H0.
  { pose proof (ma_pos _ _ _ _ _ _ _ Hm).
    split; [by do 2 (apply started_upd_pos; [| done]) |].
    split; [by eapply mutex_at_owner, mutex_at_lock | done]. }
  assert (forall c w', nested c w' ->
    mutex_rep m mp (AMutex PTHREAD_MUTEX_RECURSIVE (Some self) c) w') as Hrep.
  { intros c w' (_ & Hm' & _). exists LOCKED. split; [by left |].
    split; [simpl; congruence | done]. }
  destruct (nested_locks k _ _ H0) as (w1 & E1 & Hw1); [lia | lia |].
  destruct (nested_unlocks k _ _ Hw1) as (w2 & E2 & Hw2); [lia |].
  replace (0 + Z.of_nat k - Z.of_nat k) with 0 in Hw2 by lia.
  exists w1, w2, (released m LOCKED w2).
  split; [| split; [by apply Hrep | split; [done | split; [by apply Hrep |]]]].
  { etrans; [by eapply run_lock_free |]. by exec. }
  destruct Hw2 as (Hs2 & Hm2 & Hi2 & _). split.
  - erewrite run_unlock by done. rewrite Z.eqb_refl.
by rewrite (run_mutex_leave t m mp n PTHREAD_MUTEX_RECURSIVE LOCKED self 0) by (try done; by left).
  - eapply released_rep; [done | by left].
Qed.
End Nesting.

(** ** Static initialisation *)
Section StaticInit.
Context {CB : Callbacks} {HAL : Phal} {HQ : PhalQuiet HAL}.
Context (t : nat) (self : Z) (mp : Z * list fld).

(** A variable initialised with [PTHREAD_MUTEX_INITIALIZER] that no thread has
    used yet. *)
Record unused_mutex (w : world) : Prop := {
  um_var : 0 < mp.1;
  um_null : w_heap w !! mp = Some NULL;
  um_init_lock : w_heap w !! gv f_static_init_lock = Some ATOMIC_LOCK_UNLOCKED
}.

Lemma run_mutex_init_default {B} n w v (k : Z -> prog B) :
  fresh_world w -> has_memory w -> w_heap w !! mp = Some v ->
  run n t (bind (pthread_mutex_init mp (ptr NULL)) k) w
  = run n t (k 0) (upd_loc mp (w_next w)
      (upd_loc (w_next w, [f_prioceiling]) (-1)
        (upd_loc (w_next w, [f_type]) PTHREAD_MUTEX_DEFAULT (alloc mutex_struct w)))).
Proof.
  intros [Hpos Hb] Hm Hv. apply Hb in Hv as Hlt. unfold pthread_mutex_init. exec.
  change (is_null (ptr NULL)) with true. cbv iota. by exec.
Qed.

Definition new_mutex (w : world) : world :=
  upd_loc (gv f_static_init_lock) ATOMIC_LOCK_UNLOCKED
    (upd_loc mp (w_next w)
      (upd_loc (w_next w, [f_prioceiling]) (-1)
        (upd_loc (w_next w, [f_type]) PTHREAD_MUTEX_DEFAULT
          (alloc mutex_struct (upd_loc (gv f_static_init_lock) ATOMIC_LOCK_LOCKED w))))).

Lemma run_static_init_new {B} n w (k : Z -> prog B) :
  unused_mutex w -> fresh_world w -> has_memory w -> (0 < n)%nat ->
  run n t (bind (mutex_static_init mp) k) w = run n t (k 0) (new_mutex w).
Proof.
  intros [] Hf Hm Hn. destruct n as [| n]; [lia |]. unfold mutex_static_init. exec.
  rewrite run_spinlock by done. exec.
  rewrite (run_mutex_init_default _ _ NULL); [| by apply fresh_world_upd | done | lk].
  exec. rewrite run_spinunlock; [| destruct Hf; lk]. by exec.
Qed.

Lemma new_mutex_at w :
  unused_mutex w -> fresh_world w ->
  mutex_at (w_next w) mp PTHREAD_MUTEX_DEFAULT UNLOCKED NULL 0 (new_mutex w).
Proof.
  intros [] [Hpos Hb]. pose proof (Hb _ _ um_null0) as Hlt.
  unfold new_mutex. split; try done; try lk.
  split; [lia |]. intros ->. done.
Qed.

Lemma new_mutex_frame w l :
  fresh_world w -> l.1 <> w_next w -> l <> mp -> l <> gv f_static_init_lock ->
  w_heap (new_mutex w) !! l = w_heap w !! l.
Proof.
  intros [Hpos Hb] H1 H2 H3. unfold new_mutex.
  rewrite !upd_lookup_ne, alloc_lookup_ne, upd_lookup_ne; try done; neq.
Qed.

(** the first [pthread_mutex_lock] of a statically initialised mutex. *)
Theorem mutex_static_lock n w :
  started t self w -> self <> NULL -> unused_mutex w -> fresh_world w -> has_memory w ->
  (0 < n)%nat ->
  exists w', run n t (pthread_mutex_lock mp) w = Done w' 0 /\
    mutex_rep (w_next w) mp (AMutex PTHREAD_MUTEX_DEFAULT (Some self) 0) w' /\
    w_heap w' !! gv f_static_init_lock = Some ATOMIC_LOCK_UNLOCKED /\
    forall l, l.1 <> w_next w -> l <> mp -> w_heap w' !! l = w_heap w !! l.
Proof.
  intros Hs Hself Hu Hf Hm Hn. pose proof (new_mutex_at w Hu Hf) as Hat.
  assert (started t self (new_mutex w)) as Hs'.
  { destruct Hs, Hu. pose proof (fw_pos _ Hf).
    split; (rewrite new_mutex_frame; [done | done | unfold_locs; lia | neq | neq]). }
  eexists. split.
  { rewrite run_then. etrans; [eapply run_lock_free_from; [done | done | done |] | done].
    intros. by apply run_static_init_new. }
  destruct Hu, Hf as [Hpos Hb]. pose proof (Hb _ _ um_null0). split.
  { exists LOCKED. split; [by left |]. split; [simpl; congruence |].
    by eapply mutex_at_owner, mutex_at_lock. }
  split; [unfold new_mutex; lk |].
  intros l H1 H2. destruct (decide (l = gv f_static_init_lock)) as [-> | H3].
  - rewrite um_init_lock0. unfold new_mutex. lk.
  - rewrite !upd_lookup_ne by neq. by apply new_mutex_frame.
Qed.

(** Without memory the call fails, and the next caller may try again. *)
Theorem mutex_static_lock_oom n o w :
  started t self w -> unused_mutex w -> w_oom w = true :: o -> (0 < n)%nat ->
  exists w', run n t (pthread_mutex_lock mp) w = Done w' EINVAL /\
    w_oom w' = o /\ forall l, w_heap w' !! l = w_heap w !! l.
Proof.
  intros [] [] Ho Hn. destruct n as [| n]; [lia |].
  eexists. split.
  { unfold pthread_mutex_lock, _rthread_mutex_timedlock. rewrite run_then. exec.
    xcall (run_self _ _ 1 self); try done. rewrite is_null_false by neq. exec.
    unfold mutex_static_init. exec. rewrite run_spinlock by done. exec.
    unfold pthread_mutex_init. exec. erewrite run_calloc_oom by done. exec.
    rewrite run_spinunlock by lk. by exec. }
  split; [done |]. intros l. destruct (decide (l = gv f_static_init_lock)) as [-> | H3].
  - by rewrite upd_lookup_eq, um_init_lock0.
  - rewrite upd_lookup_ne by done. heap_of. by rewrite upd_lookup_ne.
Qed.
End StaticInit.
