(* ===== verification/Cond.v ===== *)
(** * Condition variables: rthread_cond.c and rthread_condattr.c *)

From stdpp Require Import base list gmap strings.
From Stdlib Require Import ZArith Lia.
From S2P Require Import Prelude CMem Prog PthreadH Phal Internal Exec Mutex MutexSpec.
Local Open Scope Z_scope.
Local Open Scope prog_scope.

Section Cond.
Context {HAL : Phal}.

Definition pthread_cond_init (condp attr : Z * list fld) : prog Z :=
do cond <- act (Calloc cond_struct);
if cond =? NULL then Ret ENOMEM else
(if is_null attr then act (Store (ptr cond).@f_clock CLOCK_REALTIME)
 else
   do a <- act (Load attr);
   do c <- act (Load (ptr a).@f_ca_clock);
   act (Store (ptr cond).@f_clock c)) ;;
phal_semaphore_create (ptr cond).@f_sem ;;
act (Store condp cond) ;;
Ret 0.

Definition pthread_cond_destroy (condp : Z * list fld) : prog Z :=
assert_ (negb (is_null condp)) ;;
do cond <- act (Load condp);
if negb (cond =? NULL) then
  do m <- act (Load (ptr cond).@f_mutex);
  if negb (m =? NULL) then
    act (Print "pthread_cond_destroy on condvar with waiters!") ;;
    Ret EBUSY
  else
    act (Free cond) ;;
    act (Store condp NULL) ;;
    Ret 0
else
  act (Store condp NULL) ;;
  Ret 0.

(** Sleep again on an interruption that is not a cancellation. *)
Definition cond_wait_loop (cond self : Z) (abs : timespec) : prog Z :=
loop (fun _ : unit =>
  do error <- phal_semaphore_wait (ptr cond).@f_sem abs;
  if error =? EINTR then
    do canceled <- act (Load (ptr self).@f_tib_canceled);
    if canceled =? 0 then Ret (inl tt) else
    do cc <- act (Load (ptr self).@f_tib_cantcancel);
    if negb (Z.land cc CANCEL_DISABLED =? 0) then Ret (inl tt) else Ret (inr error)
  else Ret (inr error)) tt.

Definition _rthread_cond_timedwait (cond : Z) (mutexp : Z * list fld) (abs : timespec)
: prog Z :=
do mutex <- act (Load mutexp);
do self <- pthread_self;
act (Load (ptr cond).@f_clock) ;;
act (Load (ptr mutex).@f_owner) ;;
_rthread_debug 5 "cond_timed" ;;
do type <- act (Load (ptr mutex).@f_type);
do mutex_count <- (if type =? PTHREAD_MUTEX_RECURSIVE
                   then act (Load (ptr mutex).@f_count) else Ret 0);
phal_semaphore_lock (ptr cond).@f_sem ;;
pthread_mutex_unlock mutexp ;;
do error <- cond_wait_loop cond self abs;
let rv := if error =? EINTR then 0 else error in
pthread_mutex_lock mutexp ;;
phal_semaphore_unlock (ptr cond).@f_sem ;;
do type <- act (Load (ptr mutex).@f_type);
(if type =? PTHREAD_MUTEX_RECURSIVE
 then act (Store (ptr mutex).@f_count mutex_count) else Ret tt) ;;
Ret rv.

(** Dynamic initialisation of [*condp]. *)
Definition cond_static_init (condp : Z * list fld) : prog Z :=
do c <- act (Load condp);
if c =? NULL then pthread_cond_init condp (ptr NULL) else Ret 0.

Definition timespec_valid (abs : timespec) : bool :=
match abs with
| None => false
| Some (sec, nsec) => negb ((sec <? 0) || (nsec <? 0) || (1000000000 <=? nsec))
end.

Definition pthread_cond_timedwait (condp mutexp : Z * list fld) (abs : timespec) : prog Z :=
do error <- cond_static_init condp;
if negb (error =? 0) then Ret error else
do cond <- act (Load condp);
if negb (timespec_valid abs) then Ret EINVAL else
_rthread_cond_timedwait cond mutexp abs.

Definition pthread_cond_wait (condp mutexp : Z * list fld) : prog Z :=
do error <- cond_static_init condp;
if negb (error =? 0) then Ret error else
do cond <- act (Load condp);
_rthread_cond_timedwait cond mutexp None.

Definition pthread_cond_signal (condp : Z * list fld) : prog Z :=
do cond <- act (Load condp);
if cond =? NULL then Ret 0 else
phal_semaphore_lock (ptr cond).@f_sem ;;
phal_semaphore_signal (ptr cond).@f_sem ;;
phal_semaphore_unlock (ptr cond).@f_sem ;;
pthread_self ;;
_rthread_debug 5 "cond_signal" ;;
Ret 0.

Definition pthread_cond_broadcast (condp : Z * list fld) : prog Z :=
do cond <- act (Load condp);
if cond =? NULL then Ret 0 else
phal_semaphore_lock (ptr cond).@f_sem ;;
phal_semaphore_broadcast (ptr cond).@f_sem ;;
phal_semaphore_unlock (ptr cond).@f_sem ;;
pthread_self ;;
_rthread_debug 5 "cond_broadcast" ;;
Ret 0.

Definition pthread_condattr_init (attrp : Z * list fld) : prog Z :=
do attr <- act (Calloc cond_attr_struct);
if attr =? NULL then Ret ENOMEM else
act (Store (ptr attr).@f_ca_clock CLOCK_REALTIME) ;;
act (Store attrp attr) ;;
Ret 0.

Definition pthread_condattr_destroy (attrp : Z * list fld) : prog Z :=
do a <- act (Load attrp);
act (Free a) ;;
act (Store attrp NULL) ;;
Ret 0.

Definition pthread_condattr_getclock (attr clock_id : Z * list fld) : prog Z :=
do a <- act (Load attr);
do c <- act (Load (ptr a).@f_ca_clock);
act (Store clock_id c) ;;
Ret 0.

Definition pthread_condattr_setclock (attr : Z * list fld) (clock_id : Z) : prog Z :=
if negb (clock_id =? CLOCK_REALTIME) then Ret EINVAL else
do a <- act (Load attr);
act (Store (ptr a).@f_ca_clock clock_id) ;;
Ret 0.

End Cond.

(** ** Waiting and the mutex, under the documented HAL *)
Section CondContract.
Context {CB : Callbacks}.
#[local] Existing Instance DocPhal.
Context (n t : nat) (self m c : Z) (mp cp : Z * list fld).
Notation csem := (c, [f_sem]).
Notation msem := (m, [f_sem]).

(** The condition variable [c] held by [cp], with no thread in its HAL lock. *)
Record cond_at (q : list nat) (w : world) : Prop := {
  ca_pos : 0 < c /\ c <> m;
  ca_var : 0 < cp.1 /\ cp.1 <> m;
  ca_cp : w_heap w !! cp = Some c;
  ca_clock : is_Some (w_heap w !! (c, [f_clock]));
  ca_hal : hsem_at csem w = HSem None q
}.

Lemma hsem_at_upd_ne x y s w : x <> y -> hsem_at x (upd_hsem y s w) = hsem_at x w.
Proof. intros H. unfold hsem_at, upd_hsem, set_hal. simpl. by rewrite lookup_insert_ne. Qed.

Lemma hsem_at_released x v w : x <> msem -> hsem_at x (released m v w) = hsem_at x w.
Proof.
  intros H. unfold released. cbv zeta. destruct (v =? LOCKED); [done |].
  by rewrite hsem_at_upd_ne.
Qed.

(** What the caller's unlock leaves of its own mutex. *)
Definition unlocked (ty v o cnt : Z) (w : world) : world :=
  if (ty =? PTHREAD_MUTEX_RECURSIVE) && (0 <? cnt)
  then upd_loc (m, [f_count]) (cnt - 1) w else released m v w.

Lemma run_unlock_own ty v cnt w :
  started t self w -> mutex_at m mp ty v self cnt w -> v = LOCKED \/ v = CONTENDED ->
  h_owner (hsem_at msem w) = None ->
  run n t (pthread_mutex_unlock mp) w = Done (unlocked ty v self cnt w) 0.
Proof.
  intros Hs Hm Hv Hi. erewrite run_unlock by done. rewrite Z.eqb_refl.
  erewrite run_mutex_leave by done. unfold unlocked. by destruct (_ && _).
Qed.

Lemma unlocked_rep ty v cnt w :
  mutex_at m mp ty v self cnt w -> v = LOCKED \/ v = CONTENDED -> self <> NULL ->
  mutex_rep m mp
    (if (ty =? PTHREAD_MUTEX_RECURSIVE) && (0 <? cnt)
     then AMutex ty (Some self) (cnt - 1) else AMutex ty None cnt)
    (unlocked ty v self cnt w) /\
  forall l, l.1 <> m -> w_heap (unlocked ty v self cnt w) !! l = w_heap w !! l.
Proof.
  intros Hm Hv Hself. unfold unlocked. destruct (_ && _); [| by eapply released_rep].
  split; [| by intros l Hl; lk]. exists v. split; [done |]. split; [simpl; congruence |].
  by eapply mutex_at_count.
Qed.

(** [pthread_cond_wait] up to the HAL wait. *)
Lemma run_cond_wait_from abs ty v cnt q w (r : outcome Z) :
  started t self w -> mutex_at m mp ty v self cnt w -> v = LOCKED \/ v = CONTENDED ->
  h_owner (hsem_at msem w) = None -> cond_at q w ->
  let w1 := unlocked ty v self cnt (upd_hsem csem (HSem (Some t) q) w) in
  run n t (do error <- cond_wait_loop c self abs;
    let rv := if error =? EINTR then 0 else error in
    pthread_mutex_lock mp ;;
    phal_semaphore_unlock (ptr c).@f_sem ;;
    do type <- act (Load (ptr m).@f_type);
    (if type =? PTHREAD_MUTEX_RECURSIVE
     then act (Store (ptr m).@f_count (if ty =? PTHREAD_MUTEX_RECURSIVE then cnt else 0))
     else Ret tt) ;;
    Ret rv) w1 = r ->
  run n t (_rthread_cond_timedwait c mp abs) w = r.
Proof.
  intros Hs Hm Hv Hi [[? ?] ? Hcp [clk Hclk] Hq] w1 <-. pose proof Hs as [].
  pose proof Hm as []. unfold _rthread_cond_timedwait. exec.
  xcall (run_self _ _ 1 self); try done. exec. xcall run_debug; try done. exec.
  assert (hsem_at msem (upd_hsem csem (HSem (Some t) q) w) = hsem_at msem w) as Hms
    by (apply hsem_at_upd_ne; congruence).
  assert (forall k : Z -> prog Z,
    run n t (bind (phal_semaphore_lock (ptr c).@f_sem) (fun _ =>
      bind (pthread_mutex_unlock mp) k)) w = run n t (k 0) w1) as Hgo.
  { intros k. cbn [phal_semaphore_lock DocPhal].
    rewrite run_doc_lock by (by change ((ptr c).@f_sem) with csem; rewrite Hq).
    change ((ptr c).@f_sem) with csem. rewrite Hq. cbn [h_waiting]. rewrite run_bind.
    rewrite (run_unlock_own ty v cnt); try done;
      [by rewrite Hms]. }
  destruct (ty =? PTHREAD_MUTEX_RECURSIVE) eqn:E; exec; by rewrite Hgo.
Qed.

Lemma hsem_at_unlocked x ty v cnt w :
  x <> msem -> hsem_at x (unlocked ty v self cnt w) = hsem_at x w.
Proof. intros H. unfold unlocked. destruct (_ && _); [done | by apply hsem_at_released]. Qed.

Lemma intr_unlocked ty v cnt w : w_intr (unlocked ty v self cnt w) = w_intr w.
Proof.
  unfold unlocked, released. destruct (_ && _); [done |]. cbv zeta. by destruct (v =? LOCKED).
Qed.

Lemma mutex_rep_hal a s x w : mutex_rep m mp a w -> mutex_rep m mp a (upd_hsem s x w).
Proof. intros (v & Hv & Hn & []). exists v. split; [done |]. split; [done |]. by split. Qed.

Lemma mutex_at_hal ty v o cnt s x w :
  mutex_at m mp ty v o cnt w -> mutex_at m mp ty v o cnt (upd_hsem s x w).
Proof. intros []. by split. Qed.

(** The waiter sleeps on the condition, its mutex unlocked once. *)
Lemma run_cond_wait_sleeps abs ty v cnt q w :
  started t self w -> self <> NULL ->
  mutex_at m mp ty v self cnt w -> v = LOCKED \/ v = CONTENDED ->
  hal_idle m w -> cond_at q w -> (0 < n)%nat ->
  exists w', run n t (_rthread_cond_timedwait c mp abs) w = Blocked w' /\
    hsem_at csem w' = HSem None (q ++ [t]) /\
    mutex_rep m mp
      (if (ty =? PTHREAD_MUTEX_RECURSIVE) && (0 <? cnt)
       then AMutex ty (Some self) (cnt - 1) else AMutex ty None cnt) w'.
Proof.
  intros Hs Hself Hm Hv Hi Hc Hn. pose proof Hc as [[? ?] _ _ _ Hq]. eexists. split.
  { pose proof Hi as [Ho _]. eapply run_cond_wait_from; try done. cbv zeta. destruct n as [| j]; [lia |].
    unfold cond_wait_loop. rewrite run_loop_eq. unfold loop_run. cbn [run_loop].
    cbn [phal_semaphore_wait DocPhal].
    rewrite run_doc_wait_sleep by (rewrite intr_unlocked; by destruct Hi). done. }
  split.
  - unfold hal_asleep. change ((ptr c).@f_sem) with csem. rewrite hsem_at_upd.
    rewrite hsem_at_unlocked by congruence. by rewrite hsem_at_upd.
  - apply mutex_rep_hal. apply (unlocked_rep ty v cnt); try done. by apply mutex_at_hal.
Qed.

(** C6: a thread that waits with its mutex held once sleeps on the condition
    with the mutex free for the others. *)
Theorem cond_wait_releases ty v q w :
  started t self w -> self <> NULL -> cp <> ptr NULL ->
  mutex_at m mp ty v self 0 w -> v = LOCKED \/ v = CONTENDED ->
  hal_idle m w -> cond_at q w -> (0 < n)%nat ->
  exists w', run n t (pthread_cond_wait cp mp) w = Blocked w' /\
    hsem_at csem w' = HSem None (q ++ [t]) /\ mutex_rep m mp (AMutex ty None 0) w'.
Proof.
  intros Hs Hself Hcp Hm Hv Hi Hc Hn. pose proof Hc as [[? ?] _ Hcv _ _].
  destruct (run_cond_wait_sleeps None ty v 0 q w) as (w' & Hrun & Hq & Hr); try done.
  exists w'. rewrite andb_false_r in Hr. split; [| done].
  unfold pthread_cond_wait, cond_static_init. by exec.
Qed.

(** with a recursive mutex locked more than once, the waiter keeps the
    mutex while it sleeps. *)
Theorem cond_wait_nested_keeps_mutex v cnt q w :
  started t self w -> self <> NULL -> cp <> ptr NULL -> 0 < cnt ->
  mutex_at m mp PTHREAD_MUTEX_RECURSIVE v self cnt w -> v = LOCKED \/ v = CONTENDED ->
  hal_idle m w -> cond_at q w -> (0 < n)%nat ->
  exists w', run n t (pthread_cond_wait cp mp) w = Blocked w' /\
    hsem_at csem w' = HSem None (q ++ [t]) /\
    mutex_rep m mp (AMutex PTHREAD_MUTEX_RECURSIVE (Some self) (cnt - 1)) w'.
Proof.
  intros Hs Hself Hcp Hcnt Hm Hv Hi Hc Hn. pose proof Hc as [[? ?] _ Hcv _ _].
  destruct (run_cond_wait_sleeps None PTHREAD_MUTEX_RECURSIVE v cnt q w)
    as (w' & Hrun & Hq & Hr); try done.
  exists w'. replace (0 <? cnt) with true in Hr by lia. split; [| done].
  unfold pthread_cond_wait, cond_static_init. by exec.
Qed.

(** The state in which an interrupted wait resumes, the mutex still free. *)
Definition resumed (q : list nat) (w : world) : world :=
  set_intr [] (upd_hsem csem (HSem (Some t) (filter (fun u => u <> t) (q ++ [t])))
    (released m LOCKED (upd_hsem csem (HSem (Some t) q) w))).

Lemma resumed_state ty q w :
  started t self w -> mutex_at m mp ty LOCKED self 0 w ->
  started t self (resumed q w) /\ mutex_at m mp ty UNLOCKED NULL 0 (resumed q w).
Proof.
  intros [] []. unfold resumed, released. cbv zeta. change (LOCKED =? LOCKED) with true. cbv iota.
  split; split; try done; lk.
Qed.

Lemma run_cond_loop_interrupted {B} abs ty e q (k : Z -> prog B) w :
  w_intr w = [e] -> e <> 0 -> e <> EINTR -> c <> m -> (0 < n)%nat ->
  run n t (bind (cond_wait_loop c self abs) k)
    (unlocked ty LOCKED self 0 (upd_hsem csem (HSem (Some t) q) w))
  = run n t (k e) (resumed q w).
Proof.
  intros Hi He Hne Hcm Hn. destruct n as [| j]; [lia |]. unfold cond_wait_loop.
  rewrite run_loop_eq. apply loop_run_exit. cbn [phal_semaphore_wait DocPhal].
  rewrite (run_doc_wait_intr _ _ _ _ e []) by (by rewrite ?intr_unlocked).
  change ((ptr c).@f_sem) with csem. rewrite hsem_at_unlocked by congruence.
  rewrite hsem_at_upd. cbn [h_waiting]. unfold resumed, unlocked. rewrite andb_false_r. by exec.
Qed.

(** a wait that times out returns [ETIMEDOUT] with the mutex held again. *)
Theorem cond_timedwait_timeout ty sec nsec q w :
  started t self w -> self <> NULL -> cp <> ptr NULL ->
  timespec_valid (Some (sec, nsec)) = true ->
  mutex_at m mp ty LOCKED self 0 w -> h_owner (hsem_at msem w) = None ->
  w_intr w = [ETIMEDOUT] -> cond_at q w -> (0 < n)%nat ->
  exists w', run n t (pthread_cond_timedwait cp mp (Some (sec, nsec))) w = Done w' ETIMEDOUT /\
    mutex_rep m mp (AMutex ty (Some self) 0) w' /\
    hsem_at csem w' = HSem None (filter (fun u => u <> t) (q ++ [t])).
Proof.
  intros Hs Hself Hcp Ht Hm Ho Hi Hc Hn. pose proof Hc as [[? ?] _ Hcv _ Hq].
  destruct (resumed_state ty q w Hs Hm) as [Hs2 Hm2].
  set (w3 := upd_loc (m, [f_owner]) self (upd_loc (m, [f_lock]) LOCKED (resumed q w))).
  assert (mutex_at m mp ty LOCKED self 0 w3) as Hm3 by by eapply mutex_at_owner, mutex_at_lock.
  exists (upd_hsem csem (HSem None (filter (fun u => u <> t) (q ++ [t]))) w3). split; [| split].
  - unfold pthread_cond_timedwait, cond_static_init. exec. rewrite Ht. cbn [negb].
    eapply run_cond_wait_from; try done; [by left |]. cbv zeta.
    rewrite (run_cond_loop_interrupted _ _ ETIMEDOUT) by done. cbv zeta.
    etrans; [eapply run_lock_free; done |]. fold w3.
    assert (hsem_at csem w3 = HSem (Some t) (filter (fun u => u <> t) (q ++ [t]))) as Hq3
      by (unfold w3, resumed; apply hsem_at_upd).
    cbn [phal_semaphore_unlock DocPhal]. rewrite run_doc_unlock.
    change ((ptr c).@f_sem) with csem. rewrite Hq3. cbn [h_waiting].
    destruct Hm3. exec. destruct (ty =? PTHREAD_MUTEX_RECURSIVE) eqn:E; exec; [| done].
    by rewrite upd_loc_id.
  - apply mutex_rep_hal. exists LOCKED. split; [by left |]. split; [simpl; congruence | done].
  - by rewrite hsem_at_upd.
Qed.
End CondContract.
