(* ===== verification/Sem.v ===== *)
(** * POSIX semaphores: rthread_sem.c *)

From stdpp Require Import base list gmap strings.
From Stdlib Require Import ZArith Lia.
From S2P Require Import Prelude CMem Prog PthreadH Phal Interleave Internal Exec.
Local Open Scope Z_scope.
Local Open Scope prog_scope.

Definition SEM_VALUE_MAX : Z := UINT_MAX.
Definition SEM_FAILED : Z := 0.

Section Sem.
Context {HAL : Phal}.

(** A round of the loop after the wait answered [r]. *)
Definition sem_woken (sem : Z * list fld) (delayed_cancel : Z * list fld) (r : Z) : prog (unit + Z)%type :=
do r <- (if r =? EINTR then
           if is_null delayed_cancel then Ret 0
           else
             do dc <- act (Load delayed_cancel);
             Ret (if dc =? 0 then 0 else r)
         else Ret r);
if r =? 0 then
  do value <- act (Load sem.@f_value);
  if value =? 0 then Ret (inl tt) else Ret (inr r)
else Ret (inr r).

Definition sem_wait_round (sem : Z * list fld) (abstime : timespec) (delayed_cancel : Z * list fld)
(_ : unit) : prog (unit + Z)%type :=
do r <- phal_semaphore_wait sem.@f_sem abstime;
sem_woken sem delayed_cancel r.

(** Asleep until the value is positive or the wait fails. *)
Definition sem_wait_loop (sem : Z * list fld) (abstime : timespec)
(delayed_cancel : Z * list fld) : prog Z :=
loop (sem_wait_round sem abstime delayed_cancel) tt.

(** After the loop: no longer a waiter; the value is taken if nothing failed. *)
Definition sem_waited (sem : Z * list fld) (r : Z) : prog Z :=
do wc <- act (Load sem.@f_waitcount);
act (Store sem.@f_waitcount (i32 (wc - 1))) ;;
if r =? 0 then
  do value <- act (Load sem.@f_value);
  act (Store sem.@f_value (i32 (value - 1))) ;;
  Ret r
else Ret r.

Definition _sem_wait (sem : Z * list fld) (tryonly : bool) (abstime : timespec)
(delayed_cancel : Z * list fld) : prog Z :=
do shared <- act (Load sem.@f_shared);
if negb (shared =? 0) then Ret ENOSYS else
phal_semaphore_lock sem.@f_sem ;;
do value <- act (Load sem.@f_value);
do r <- (if negb (value =? 0) then
           act (Store sem.@f_value (i32 (value - 1))) ;;
           Ret 0
         else if tryonly then Ret EAGAIN
         else
           do wc <- act (Load sem.@f_waitcount);
           act (Store sem.@f_waitcount (i32 (wc + 1))) ;;
           do r <- sem_wait_loop sem abstime delayed_cancel;
           sem_waited sem r);
phal_semaphore_unlock sem.@f_sem ;;
Ret r.

Definition _sem_post (sem : Z * list fld) : prog Z :=
do shared <- act (Load sem.@f_shared);
if negb (shared =? 0) then Ret ENOSYS else
phal_semaphore_lock sem.@f_sem ;;
do value <- act (Load sem.@f_value);
act (Store sem.@f_value (i32 (value + 1))) ;;
do wc <- act (Load sem.@f_waitcount);
do rv <- (if negb (wc =? 0) then
            phal_semaphore_signal sem.@f_sem ;;
            Ret 1
          else Ret 0);
phal_semaphore_unlock sem.@f_sem ;;
Ret rv.

(** [errno = e; return (-1);] *)
Definition fail_with (e : Z) : prog Z := act (SetErrno e) ;; Ret (-1).

Definition sem_init (semp : Z * list fld) (pshared value : Z) : prog Z :=
if SEM_VALUE_MAX <? value then fail_with EINVAL else
if negb (pshared =? 0) then fail_with EPERM else
do sem <- act (Calloc sem_struct);
if sem =? NULL then fail_with ENOSPC else
phal_semaphore_create (ptr sem).@f_sem ;;
act (Store (ptr sem).@f_value (i32 value)) ;;
act (Store semp sem) ;;
Ret 0.

(** [if (!semp || !( sem = *semp)) ...]: the semaphore, or [NULL]. *)
Definition deref_sem (semp : Z * list fld) : prog Z :=
if is_null semp then Ret NULL else act (Load semp).

Definition sem_destroy (semp : Z * list fld) : prog Z :=
ensure_ready ;;
do sem <- deref_sem semp;
if sem =? NULL then fail_with EINVAL else
do wc <- act (Load (ptr sem).@f_waitcount);
if negb (wc =? 0) then
  act (Print "sem_destroy on semaphore with waiters!") ;;
  fail_with EBUSY
else
  act (Store semp NULL) ;;
  do shared <- act (Load (ptr sem).@f_shared);
  if negb (shared =? 0) then Ret ENOSYS else
  act (Free sem) ;;
  Ret 0.

Definition sem_getvalue (semp sval : Z * list fld) : prog Z :=
do sem <- deref_sem semp;
if sem =? NULL then fail_with EINVAL else
phal_semaphore_lock (ptr sem).@f_sem ;;
do v <- act (Load (ptr sem).@f_value);
act (Store sval v) ;;
phal_semaphore_unlock (ptr sem).@f_sem ;;
Ret 0.

Definition sem_post (semp : Z * list fld) : prog Z :=
do sem <- deref_sem semp;
if sem =? NULL then fail_with EINVAL else
_sem_post (ptr sem) ;;
Ret 0.

Definition sem_wait (semp : Z * list fld) : prog Z :=
do self <- pthread_self;
ensure_ready ;;
do sem <- deref_sem semp;
if sem =? NULL then fail_with EINVAL else
do r <- _sem_wait (ptr sem) false None (ptr self).@f_delayed_cancel;
if negb (r =? 0) then fail_with r else Ret 0.

Definition sem_timedwait (semp : Z * list fld) (abstime : timespec) : prog Z :=
ensure_ready ;;
do self <- pthread_self;
do sem <- deref_sem semp;
if sem =? NULL then fail_with EINVAL else
do r <- _sem_wait (ptr sem) false abstime (ptr self).@f_delayed_cancel;
if negb (r =? 0) then fail_with (if r =? EWOULDBLOCK then ETIMEDOUT else r) else Ret 0.

Definition sem_trywait (semp : Z * list fld) : prog Z :=
do sem <- deref_sem semp;
if sem =? NULL then fail_with EINVAL else
do r <- _sem_wait (ptr sem) true None (ptr NULL);
if negb (r =? 0) then fail_with r else Ret 0.

Definition sem_open (oflag : Z) : prog Z := act (SetErrno ENOSYS) ;; Ret SEM_FAILED.

Definition sem_close (semp : Z * list fld) : prog Z :=
do sem <- deref_sem semp;
if sem =? NULL then fail_with EINVAL else
do shared <- act (Load (ptr sem).@f_shared);
if shared =? 0 then fail_with EINVAL else Ret ENOSYS.

Definition sem_unlink : prog Z := Ret ENOSYS.

End Sem.

(** ** The contract of a semaphore, under the documented HAL *)

(** The value, the waiters the semaphore counts and the threads asleep on it. *)
Record semstate := SemState { s_value : Z; s_waiters : Z; s_asleep : list nat }.

Inductive semop := Post | Wait | TryWait | TimedWait (abs : timespec).

Definition sem_call {HAL : Phal} (o : semop) (semp : Z * list fld) : prog Z :=
  match o with
  | Post => sem_post semp
  | Wait => sem_wait semp
  | TryWait => sem_trywait semp
  | TimedWait abs => sem_timedwait semp abs
  end.

(** Return value and [errno] of a call that returns, or a thread put to sleep. *)
Inductive semverdict :=
| SemReturns (s : semstate) (rc : Z) (err : option Z)
| SemSleeps (s : semstate).

Definition sem_spec (o : semop) (t : nat) (s : semstate) : semverdict :=
  match o with
  | Post =>
      SemReturns (SemState (i32 (s_value s + 1)) (s_waiters s)
        (if s_waiters s =? 0 then s_asleep s else tail (s_asleep s))) 0 None
  | TryWait =>
      if s_value s =? 0 then SemReturns s (-1) (Some EAGAIN)
      else SemReturns (SemState (i32 (s_value s - 1)) (s_waiters s) (s_asleep s)) 0 None
  | Wait | TimedWait _ =>
      if s_value s =? 0
      then SemSleeps (SemState 0 (i32 (s_waiters s + 1)) (s_asleep s ++ [t]))
      else SemReturns (SemState (i32 (s_value s - 1)) (s_waiters s) (s_asleep s)) 0 None
  end.

(** *** After the sleep

    How the wait ended, [c]: 0 when the thread was woken, or the error that
    interrupted it. [EINTR] counts only if the cancellation of the thread was
    delayed, which [dc] tells. *)
Definition wake_code (c dc : Z) : Z := if (c =? EINTR) && (dc =? 0) then 0 else c.

Definition sem_errno (o : semop) (c : Z) : Z :=
  match o with TimedWait _ => if c =? EWOULDBLOCK then ETIMEDOUT else c | _ => c end.

(** The thread takes the value, or sleeps again when another was faster, or gives up;
    it is counted as a waiter until it returns. *)
Definition sem_after (o : semop) (t : nat) (s : semstate) (c : Z) : semverdict :=
  let others := filter (fun u => u <> t) (s_asleep s) in
  if c =? 0 then
    if s_value s =? 0 then SemSleeps (SemState 0 (s_waiters s) (others ++ [t]))
    else SemReturns (SemState (i32 (s_value s - 1)) (i32 (s_waiters s - 1)) others) 0 None
  else SemReturns (SemState (s_value s) (i32 (s_waiters s - 1)) others) (-1) (Some (sem_errno o c)).

(** The semaphore [s] held by the variable [semp]; no HAL wait is interrupted. *)
Record sem_at (s : Z) (semp : Z * list fld) (st : semstate) (w : world) : Prop := {
  sa_pos : 0 < s;
  sa_var : 0 < semp.1 /\ semp.1 <> s;
  sa_semp : w_heap w !! semp = Some s;
  sa_shared : w_heap w !! (s, [f_shared]) = Some 0;
  sa_value : w_heap w !! (s, [f_value]) = Some (s_value st);
  sa_waiters : w_heap w !! (s, [f_waitcount]) = Some (s_waiters st);
  sa_hal : hsem_at (s, [f_sem]) w = HSem None (s_asleep st);
  sa_intr : w_intr w = []
}.

Section SemContract.
Context {CB : Callbacks}.
#[local] Existing Instance DocPhal.
Context (n t : nat) (self s : Z) (semp : Z * list fld).
Notation sem := (s, [f_sem]).

(** A call [p] from [w] ends as the verdict says; what a thread that sleeps has left
    to do satisfies [rest]. *)
Definition sem_meets (rest : prog Z -> Prop) (w : world) (v : semverdict) (p : prog Z) : Prop :=
  match v with
  | SemReturns st rc err =>
      exists w', run n t p w = Done w' rc /\ sem_at s semp st w' /\
        (forall l, l.1 <> s -> w_heap w' !! l = w_heap w !! l) /\
        w_errno w' = match err with Some e => <[t := e]> (w_errno w) | None => w_errno w end
  | SemSleeps st =>
      exists w' p', run n t p w = Blocked w' /\ tsteps t (w, p) (w', p') /\ rest p' /\ sem_at s semp st w' /\
        (forall l, l.1 <> s -> w_heap w' !! l = w_heap w !! l)
  end.

(** The wait of thread [t] ends with [c]: it was woken and is no longer among those
    asleep, or it is interrupted. *)
Definition wait_ends (c : Z) (st : semstate) (w : world) : Prop :=
  (c = 0 /\ t ∉ s_asleep st /\ w_intr w = []) \/ (c <> 0 /\ w_intr w = [c]).

(** From any later state of the semaphore, whatever the other threads made of it. *)
Definition sem_wakes (o : semop) (rest : prog Z -> Prop) (p : prog Z) : Prop :=
  forall w st c dc, sem_at s semp st (set_intr [] w) -> wait_ends c st w ->
    w_heap w !! (self, [f_delayed_cancel]) = Some dc ->
    sem_meets rest w (sem_after o t st (wake_code c dc)) p.

(** However often the thread has to sleep again. *)
Definition sem_resumes (o : semop) (p : prog Z) : Prop :=
  exists rest : prog Z -> Prop, rest p /\ forall p', rest p' -> sem_wakes o rest p'.

(** The HAL state through stores and HAL operations. *)
Lemma hsem_at_upd_loc x l v w : hsem_at x (upd_loc l v w) = hsem_at x w.
Proof. done. Qed.

Lemma hsem_at_set_errno x e w : hsem_at x (set_errno e w) = hsem_at x w.
Proof. done. Qed.

Lemma run_lock {B} q (k : Z -> prog B) w :
  hsem_at sem w = HSem None q ->
  run n t (bind (phal_semaphore_lock sem) k) w = run n t (k 0) (upd_hsem sem (HSem (Some t) q) w).
Proof.
  intros H. cbn [phal_semaphore_lock DocPhal]. rewrite run_doc_lock; rewrite H; done.
Qed.

Lemma run_unlock_hal {B} q o (k : Z -> prog B) w :
  hsem_at sem w = HSem o q ->
  run n t (bind (phal_semaphore_unlock sem) k) w = run n t (k 0) (upd_hsem sem (HSem None q) w).
Proof.
  intros H. cbn [phal_semaphore_unlock DocPhal]. rewrite run_doc_unlock; rewrite H; done.
Qed.

(** [p] returns [rc] having changed the semaphore from [w] to [st] only. *)
Definition sem_does (p : prog Z) (w : world) (rc : Z) (st : semstate) : Prop :=
  exists w', (forall B (k : Z -> prog B), run n t (bind p k) w = run n t (k rc) w') /\
    sem_at s semp st w' /\ (forall l, l.1 <> s -> w_heap w' !! l = w_heap w !! l) /\
    w_errno w' = w_errno w.

Ltac sem_fields :=
  first [ rewrite ?hsem_at_set_errno, hsem_at_upd; reflexivity | solve [lk] | done | intros ? ?; solve [lk] ].

Lemma sem_post_does st w :
  sem_at s semp st w ->
  sem_does (_sem_post (ptr s)) w (if s_waiters st =? 0 then 0 else 1)
    (SemState (i32 (s_value st + 1)) (s_waiters st)
       (if s_waiters st =? 0 then s_asleep st else tail (s_asleep st))).
Proof.
  intros []. destruct st as [v wc q]. cbn [s_value s_waiters s_asleep] in *. eexists. split.
  - intros B k. unfold _sem_post. exec. rewrite (run_lock q) by done. exec.
    destruct (wc =? 0) eqn:E; cbn [negb]; exec.
    + rewrite (run_unlock_hal q (Some t)) by (by rewrite hsem_at_upd_loc, hsem_at_upd). exec.
      instantiate (1 := if wc =? 0 then _ else _). rewrite E. reflexivity.
    + cbn [phal_semaphore_signal DocPhal]. rewrite run_doc_signal. exec.
      rewrite (run_unlock_hal (tail q) (Some t)) by (by rewrite !hsem_at_upd_loc, !hsem_at_upd).
      exec. rewrite E. reflexivity.
  - destruct (wc =? 0); (split; [split | split]; sem_fields).
Qed.

Lemma sem_take_does abs dc st w :
  sem_at s semp st w -> s_value st <> 0 ->
  sem_does (_sem_wait (ptr s) false abs dc) w 0
    (SemState (i32 (s_value st - 1)) (s_waiters st) (s_asleep st)) /\
  sem_does (_sem_wait (ptr s) true abs dc) w 0
    (SemState (i32 (s_value st - 1)) (s_waiters st) (s_asleep st)).
Proof.
  intros [] Hv. destruct st as [v wc q]. cbn [s_value s_waiters s_asleep] in *.
  split; (eexists; split;
    [ intros B k; unfold _sem_wait; exec; rewrite (run_lock q) by done; exec;
      rewrite (run_unlock_hal q (Some t)) by (by rewrite hsem_at_upd_loc, hsem_at_upd);
      by exec
    | split; [split | split]; sem_fields ]).
Qed.

Lemma sem_try_empty abs dc st w :
  sem_at s semp st w -> s_value st = 0 -> sem_does (_sem_wait (ptr s) true abs dc) w EAGAIN st.
Proof.
  intros [] Hv. destruct st as [v wc q]. cbn [s_value s_waiters s_asleep] in *. subst v.
  eexists. split.
  - intros B k. unfold _sem_wait. exec. rewrite (run_lock q) by done. exec.
    rewrite (run_unlock_hal q (Some t)) by (by rewrite hsem_at_upd). by exec.
  - split; [split | split]; sem_fields.
Qed.

(** *** The wait *)
Notation dcl := (self, [f_delayed_cancel]).

(** How [sem_wait] and [sem_timedwait] answer. *)
Definition sem_result (conv : Z -> Z) (r : Z) : prog Z := if negb (r =? 0) then fail_with (conv r) else Ret 0.

Definition sem_finish (conv : Z -> Z) (r : Z) : prog Z :=
  bind (do r <- sem_waited (ptr s) r; phal_semaphore_unlock sem ;; Ret r) (sem_result conv).

Definition sem_loop (abs : timespec) (conv : Z -> Z) : prog Z :=
  Loop (sem_wait_round (ptr s) abs dcl) tt (sem_finish conv).

(** What is left once the thread sleeps. *)
Definition sem_rest (abs : timespec) (conv : Z -> Z) : prog Z :=
  do r <- act (HWaitEnd sem);
  do x <- sem_woken (ptr s) dcl r;
  loop_next (sem_wait_round (ptr s) abs dcl) (sem_finish conv) x.

(** The state in which the thread holds the lock of the semaphore. *)
Record sem_locked (st : semstate) (w : world) : Prop := {
  sl_pos : 0 < s;
  sl_var : 0 < semp.1 /\ semp.1 <> s;
  sl_semp : w_heap w !! semp = Some s;
  sl_shared : w_heap w !! (s, [f_shared]) = Some 0;
  sl_value : w_heap w !! (s, [f_value]) = Some (s_value st);
  sl_waiters : w_heap w !! (s, [f_waitcount]) = Some (s_waiters st);
  sl_hal : hsem_at sem w = HSem (Some t) (s_asleep st);
  sl_intr : w_intr w = []
}.

Lemma sem_loop_sleeps abs conv st w :
  (0 < n)%nat -> sem_locked st w ->
  exists w', run n t (sem_loop abs conv) w = Blocked w' /\ tsteps t (w, sem_loop abs conv) (w', sem_rest abs conv) /\
    sem_at s semp (SemState (s_value st) (s_waiters st) (s_asleep st ++ [t])) w' /\ w_heap w' = w_heap w.
Proof.
  intros Hn []. exists (hal_asleep t sem w). split; [| split; [| split; [| done]]].
  - destruct n as [| j]; [lia |]. unfold sem_loop. cbn [run run_loop]. unfold sem_wait_round at 1.
    cbn [phal_semaphore_wait DocPhal]. by rewrite run_doc_wait_sleep.
  - unfold sem_loop. apply tsteps_loop. unfold sem_wait_round at 1. cbn [phal_semaphore_wait DocPhal doc_semaphore_wait act bind].
    eapply tsteps_act; [reflexivity |]. unfold sem_rest, tsteps. apply rtc_refl.
  - split; try done. unfold hal_asleep. by rewrite hsem_at_upd, sl_hal0.
Qed.

Lemma wait_end_sem c st w :
  wait_ends c st w -> hsem_at sem w = HSem None (s_asleep st) ->
  act_sem t (HWaitEnd sem) w
  = AOk (set_intr [] (upd_hsem sem (HSem (Some t) (filter (fun u => u <> t) (s_asleep st))) w)) c.
Proof.
  intros Hc Hs. cbn [act_sem]. unfold do_hwaitend. rewrite Hs. cbn [h_waiting h_owner].
  destruct Hc as [(-> & Hin & ->) | (Hc & ->)]; cbn [head default tail from_option id].
  - by rewrite bool_decide_false.
  - replace (c =? 0) with false by lia. by rewrite andb_false_r.
Qed.

Lemma run_woken {B} c dc st (k : unit + Z -> prog B) w :
  sem_locked st w -> w_heap w !! dcl = Some dc ->
  run n t (bind (sem_woken (ptr s) dcl c) k) w
  = run n t (k (if (wake_code c dc =? 0) && (s_value st =? 0) then inl tt else inr (wake_code c dc))) w.
Proof.
  intros [] Hdc. unfold sem_woken, wake_code.
  assert (forall r, run n t (do x <- (if r =? 0 then
      do value <- act (Load (s, [f_value])); if value =? 0 then Ret (inl tt) else Ret (inr r) else Ret (inr r)); k x) w
    = run n t (k (if (r =? 0) && (s_value st =? 0) then inl tt else inr r)) w) as Hr.
  { intros r. exec. destruct (r =? 0); exec; [| done]. by destruct (s_value st =? 0). }
  destruct (c =? EINTR) eqn:Ec; cbn [andb]; exec.
  - rewrite is_null_false by done. exec. destruct (dc =? 0); apply Hr.
  - apply Hr.
Qed.

Lemma tsteps_woken {B} c dc st (k : unit + Z -> prog B) w x :
  sem_locked st w -> w_heap w !! dcl = Some dc ->
  tsteps t (w, k (if (wake_code c dc =? 0) && (s_value st =? 0) then inl tt else inr (wake_code c dc))) x ->
  tsteps t (w, bind (sem_woken (ptr s) dcl c) k) x.
Proof.
  intros [] Hdc Hk. unfold sem_woken, wake_code in *.
  assert (forall r, tsteps t (w, k (if (r =? 0) && (s_value st =? 0) then inl tt else inr r)) x ->
    tsteps t (w, do x <- (if r =? 0 then
      do value <- act (Load (s, [f_value])); if value =? 0 then Ret (inl tt) else Ret (inr r) else Ret (inr r)); k x) x) as Hr.
  { intros r H. destruct (r =? 0); cbn [bind act andb] in *; [| done]. eapply tsteps_load; [lk |]. by destruct (s_value st =? 0). }
  destruct (c =? EINTR) eqn:Ec; cbn [andb] in Hk.
  - rewrite is_null_false by done. cbn [bind act]. eapply tsteps_load; [lk |]. destruct (dc =? 0); by apply Hr.
  - by apply Hr.
Qed.

(** Giving up the lock after the wait. *)
Lemma run_sem_finish conv st r w :
  sem_locked st w ->
  exists w', run n t (sem_finish conv r) w = Done w' (if r =? 0 then 0 else -1) /\
    sem_at s semp (SemState (if r =? 0 then i32 (s_value st - 1) else s_value st) (i32 (s_waiters st - 1)) (s_asleep st)) w' /\
    (forall l, l.1 <> s -> w_heap w' !! l = w_heap w !! l) /\
    w_errno w' = if r =? 0 then w_errno w else <[t := conv r]> (w_errno w).
Proof.
  intros []. destruct st as [v wc q]. cbn [s_value s_waiters s_asleep] in *.
  destruct (r =? 0) eqn:Er; (eexists; split; [unfold sem_finish, sem_waited, sem_result; exec;
    rewrite (run_unlock_hal q (Some t)) by (by rewrite !hsem_at_upd_loc); exec; rewrite ?Er; unfold fail_with; by exec |]);
    (split; [split | split]; sem_fields).
Qed.

(** A wait that finds no value. *)
Definition sem_waits (abs : timespec) (conv : Z -> Z) : prog Z :=
  do r <- _sem_wait (ptr s) false abs dcl; sem_result conv r.

Lemma sem_waits_sleeps abs conv st w :
  (0 < n)%nat -> sem_at s semp st w -> s_value st = 0 ->
  sem_meets (eq (sem_rest abs conv)) w (SemSleeps (SemState 0 (i32 (s_waiters st + 1)) (s_asleep st ++ [t]))) (sem_waits abs conv).
Proof.
  intros Hn [] Hv. destruct st as [v wc q]. cbn [s_value s_waiters s_asleep] in *. subst v.
  set (w1 := upd_loc (s, [f_waitcount]) (i32 (wc + 1)) (upd_hsem sem (HSem (Some t) q) w)).
  assert (sem_locked (SemState 0 (i32 (wc + 1)) q) w1) as Hl.
  { unfold w1. split; cbn [s_value s_waiters s_asleep]; try sem_fields. by rewrite hsem_at_upd_loc, hsem_at_upd. }
  destruct (sem_loop_sleeps abs conv _ _ Hn Hl) as (w' & Hrun & Hst & Hat & Hh). exists w', (sem_rest abs conv).
  split; [| split; [| split; [done |]; split; [exact Hat |]]].
  - rewrite <- Hrun. unfold sem_waits, _sem_wait. exec. rewrite (run_lock q) by done. exec.
    apply (run_bind_ext n t (sem_wait_loop (ptr s) abs dcl)). intros r w0. unfold sem_finish. by rewrite run_bind_assoc.
  - unfold sem_waits, _sem_wait. cbn [bind act].
    eapply tsteps_load; [lk |]. xif (0 =? 0). cbn [negb phal_semaphore_lock DocPhal doc_semaphore_lock bind act].
    change ((ptr s).@f_sem) with sem. eapply tsteps_act; [cbn [act_sem]; unfold do_hlock; rewrite sa_hal0; reflexivity |]. cbn [h_waiting].
    eapply tsteps_load; [lk |]. cbn [Z.eqb negb bind act]. eapply tsteps_load; [lk |].
    apply tsteps_store; [lk | exact Hst].
  - intros l Hl'. rewrite Hh. unfold w1. lk.
Qed.

(** The wait ends. *)
Lemma sem_rest_wakes o abs conv p :
  (0 < n)%nat -> (forall r, sem_errno o r = conv r) -> sem_rest abs conv = p -> sem_wakes o (eq (sem_rest abs conv)) p.
Proof.
  intros Hn Hconv <- w st c dc [] Hc Hdc.
  change (hsem_at sem (set_intr [] w)) with (hsem_at sem w) in *.
  set (q := filter (fun u => u <> t) (s_asleep st)).
  set (w1 := set_intr [] (upd_hsem sem (HSem (Some t) q) w)).
  assert (sem_locked (SemState (s_value st) (s_waiters st) q) w1) as Hl by (split; try done; apply hsem_at_upd).
  assert (forall k : unit + Z -> prog Z, run n t (do r <- act (HWaitEnd sem); do x <- sem_woken (ptr s) dcl r; k x) w
    = run n t (k (if (wake_code c dc =? 0) && (s_value st =? 0) then inl tt else inr (wake_code c dc))) w1) as Hrun.
  { intros k. cbn [bind act run]. rewrite (wait_end_sem c st) by done. cbn [abind]. by rewrite (run_woken c dc _ _ _ Hl). }
  unfold sem_after. destruct (wake_code c dc =? 0) eqn:Ec.
  - destruct (s_value st =? 0) eqn:Ev.
    + apply Z.eqb_eq in Ev. cbn [s_value] in *. destruct (sem_loop_sleeps abs conv _ _ Hn Hl) as (w' & Hs & Hst & Hat & Hh).
      cbn [s_value s_waiters s_asleep] in Hat. rewrite Ev in *. exists w', (sem_rest abs conv).
      split; [by unfold sem_rest; rewrite Hrun |]. split; [| split; [done |]; split; [exact Hat |]; intros l _; by rewrite Hh].
      unfold sem_rest at 1. cbn [bind act]. eapply tsteps_act; [by apply (wait_end_sem c st) |].
      apply (tsteps_woken c dc _ _ _ _ Hl); [done |]. by rewrite Ec.
    + destruct (run_sem_finish conv _ (wake_code c dc) _ Hl) as (w' & Hf & Hat & Hfr & He). rewrite Ec in *.
      exists w'. split; [| by split]. unfold sem_rest. rewrite Hrun. exact Hf.
  - destruct (run_sem_finish conv _ (wake_code c dc) _ Hl) as (w' & Hf & Hat & Hfr & He). rewrite Ec in *.
    exists w'. rewrite Hconv. split; [| by split]. unfold sem_rest. rewrite Hrun. exact Hf.
Qed.

Lemma run_deref_sem {B} st (k : Z -> prog B) w :
  sem_at s semp st w -> run n t (bind (deref_sem semp) k) w = run n t (k s) w.
Proof.
  intros []. unfold deref_sem. rewrite is_null_false by (intros ->; destruct sa_var0; done).
  by exec.
Qed.

(** [_sem_wait] as [sem_wait] and [sem_timedwait] use it. *)
Lemma sem_waits_meets abs conv st w :
  (0 < n)%nat -> sem_at s semp st w ->
  sem_meets (eq (sem_rest abs conv)) w (sem_spec Wait t st) (sem_waits abs conv).
Proof.
  intros Hn Hs. cbn [sem_spec]. destruct (s_value st =? 0) eqn:E; [apply sem_waits_sleeps; (done || lia) |].
  destruct (sem_take_does abs dcl st w Hs ltac:(lia)) as [(w' & Hrun & Hat & Hf & He) _].
  exists w'. unfold sem_waits. by rewrite Hrun.
Qed.

(** A call that only calls another one after it read what it needs. *)
Lemma sem_meets_via rest w v p q :
  run n t p w = run n t q w -> (forall x, tsteps t (w, q) x -> tsteps t (w, p) x) ->
  sem_meets rest w v q -> sem_meets rest w v p.
Proof.
  intros Hrun Hst H. unfold sem_meets in *. rewrite Hrun. destruct v as [st rc err | st]; [exact H |].
  destruct H as (w' & p' & H1 & H2 & H3). exists w', p'. auto.
Qed.

Lemma sem_meets_rest (rest1 rest2 : prog Z -> Prop) w v p :
  (forall q, rest1 q -> rest2 q) -> sem_meets rest1 w v p -> sem_meets rest2 w v p.
Proof. intros Hr. destruct v; [done |]. intros (w' & p' & H1 & H2 & H3 & H4). exists w', p'. auto. Qed.

Lemma sem_waits_resumes o abs conv p st w :
  (0 < n)%nat -> sem_at s semp st w -> (forall r, sem_errno o r = conv r) ->
  run n t p w = run n t (sem_waits abs conv) w -> (forall x, tsteps t (w, sem_waits abs conv) x -> tsteps t (w, p) x) ->
  sem_meets (sem_resumes o) w (sem_spec Wait t st) p.
Proof.
  intros Hn Hs Hconv Hrun Hst. eapply sem_meets_via; [exact Hrun | exact Hst |].
  eapply sem_meets_rest; [| by apply sem_waits_meets].
  intros q <-. exists (eq (sem_rest abs conv)). split; [done |]. intros p' Hp'. by apply sem_rest_wakes.
Qed.

(** C5: every call on a semaphore, under the HAL that phal.h documents. A call returns
    what the abstract counter says, with its value, its waiters and [errno], or puts the
    thread to sleep, counted as a waiter. From whatever state the other threads left the
    semaphore in, the sleeping thread then goes on as the abstract one: woken, it takes
    a value and is no longer a waiter, or sleeps again if there is none; interrupted, it
    is no longer a waiter and fails with the error, [ETIMEDOUT] for a time-out, while
    [EINTR] without a delayed cancellation counts as a wake-up. *)
Theorem sem_refines o st w r :
  (0 < n)%nat -> started t self w -> w_heap w !! gv f_threads_ready = Some r -> r <> 0 ->
  sem_at s semp st w ->
  sem_meets (sem_resumes o) w (sem_spec o t st) (sem_call o semp).
Proof.
  intros Hn Hst Hr Hr0 Hs. pose proof Hs as []. pose proof Hst as [].
  assert ((s =? NULL) = false) as Enull by (zconsts; lia).
  assert (is_null semp = false) as Evar by (apply is_null_false; intros ->; by destruct sa_var0).
  destruct o as [| | | abs]; cbn [sem_call].
  - destruct (sem_post_does st w Hs) as (w' & Hrun & Hat & Hf & He). exists w'. unfold sem_post.
    erewrite run_deref_sem by done. rewrite Enull, Hrun. by split.
  - apply (sem_waits_resumes Wait None id); [done | done | done | |]; unfold sem_wait.
    + rewrite (run_self _ _ 1 self) by done. erewrite run_ensure_ready, run_deref_sem by done. by rewrite Enull.
    + intros x Hx. unfold pthread_self, ensure_ready, deref_sem. cbn [bind act phal_get_tls DocPhal].
      eapply tsteps_load; [lk |]. cbn [Z.eqb bind act]. eapply tsteps_act; [reflexivity |]. eapply tsteps_load; [lk |].
      eapply tsteps_load; [lk |]. xif (r =? 0). rewrite Evar. cbn [bind act]. eapply tsteps_load; [lk |]. by rewrite Enull.
  - cbn [sem_spec]. unfold sem_meets, sem_trywait. erewrite run_deref_sem by done. rewrite Enull.
    destruct (s_value st =? 0) eqn:E.
    + destruct (sem_try_empty None (ptr NULL) st w Hs ltac:(lia)) as (w' & Hrun & Hat & Hf & He). rewrite Hrun.
      eexists. split; [reflexivity |]. split; [by destruct Hat; split |]. split; [done |]. simpl. by rewrite He.
    + destruct (sem_take_does None (ptr NULL) st w Hs ltac:(lia)) as [_ (w' & Hrun & Hat & Hf & He)]. rewrite Hrun. by exists w'.
  - apply (sem_waits_resumes (TimedWait abs) abs (fun r => if r =? EWOULDBLOCK then ETIMEDOUT else r)); [done | done | done | |]; unfold sem_timedwait.
    + erewrite run_ensure_ready by done. rewrite (run_self _ _ 1 self) by done. erewrite run_deref_sem by done. by rewrite Enull.
    + intros x Hx. unfold pthread_self, ensure_ready, deref_sem. cbn [bind act phal_get_tls DocPhal].
      eapply tsteps_load; [lk |]. xif (r =? 0). cbn [bind act]. eapply tsteps_load; [lk |]. cbn [Z.eqb bind act].
      eapply tsteps_act; [reflexivity |]. eapply tsteps_load; [lk |]. rewrite Evar. cbn [bind act].
      eapply tsteps_load; [lk |]. by rewrite Enull.
Qed.
End SemContract.
