(* ===== verification/RwLock.v ===== *)
(** * Read-write locks: rthread_rwlock.c and rthread_rwlockattr.c *)

From stdpp Require Import base list gmap strings.
From Stdlib Require Import ZArith Lia.
From S2P Require Import Prelude CMem Prog PthreadH Phal Internal Exec.
Local Open Scope Z_scope.
Local Open Scope prog_scope.

Section RwLock.
Context {HAL : Phal}.

(** [calloc] failure is reported as [errno], that is [ENOMEM]. *)
Definition pthread_rwlock_init (lockp : Z * list fld) : prog Z :=
do lock <- act (Calloc rwlock_struct);
if lock =? NULL then Ret ENOMEM else
act (Store (ptr lock).@f_lock ATOMIC_LOCK_UNLOCKED) ;;
act (QInit (ptr lock).@f_writers) ;;
act (Store lockp lock) ;;
Ret 0.

Definition pthread_rwlock_destroy (lockp : Z * list fld) : prog Z :=
assert_ (negb (is_null lockp)) ;;
do lock <- act (Load lockp);
if negb (lock =? NULL) then
  do readers <- act (Load (ptr lock).@f_readers);
  do busy <- (if negb (readers =? 0) then Ret true
              else
                do q <- act (QList (ptr lock).@f_writers);
                Ret (match q with [] => false | _ => true end));
  if busy : bool then
    act (Print "pthread_rwlock_destroy on rwlock with waiters!") ;;
    Ret EBUSY
  else
    act (Free lock) ;;
    act (Store lockp NULL) ;;
    Ret 0
else
  act (Store lockp NULL) ;;
  Ret 0.

Definition _rthread_rwlock_ensure_init (lockp : Z * list fld) : prog Z :=
do l <- act (Load lockp);
if l =? NULL then
  _spinlock (gv f_rwlock_init_lock) ;;
  do l2 <- act (Load lockp);
  do ret <- (if l2 =? NULL then pthread_rwlock_init lockp else Ret 0);
  _spinunlock (gv f_rwlock_init_lock) ;;
  Ret ret
else Ret 0.

(** [lock->owner != NULL || !TAILQ_EMPTY(&lock->writers)] *)
Definition rwlock_writer_pending (lock : Z) : prog bool :=
do owner <- act (Load (ptr lock).@f_owner);
if negb (owner =? NULL) then Ret true else
do q <- act (QList (ptr lock).@f_writers);
Ret (match q with [] => false | _ => true end).

Definition rwlock_add_reader (lock : Z) : prog unit :=
do readers <- act (Load (ptr lock).@f_readers);
act (Store (ptr lock).@f_readers (i32 (readers + 1))).

Definition _rthread_rwlock_rdlock (lockp : Z * list fld) (abstime : timespec) (try : bool)
: prog Z :=
do thread <- pthread_self;
do error <- _rthread_rwlock_ensure_init lockp;
if negb (error =? 0) then Ret error else
do lock <- act (Load lockp);
_rthread_debug 5 "rwlock_rdlock" ;;
_spinlock (ptr lock).@f_lock ;;
do pending <- rwlock_writer_pending lock;
do error <- (if negb pending then rwlock_add_reader lock ;; Ret error
             else if try then Ret EBUSY
             else
               do owner <- act (Load (ptr lock).@f_owner);
               if owner =? thread then Ret EDEADLK
               else
                 loop (fun _ : unit =>
                   _spinlock (ptr lock).@f_lock ;;
                   do pending <- rwlock_writer_pending lock;
                   if pending : bool then Ret (inl tt) else Ret (inr tt)) tt ;;
                 rwlock_add_reader lock ;;
                 Ret error);
_spinunlock (ptr lock).@f_lock ;;
Ret error.

Definition pthread_rwlock_rdlock (lockp : Z * list fld) : prog Z :=
_rthread_rwlock_rdlock lockp None false.

Definition pthread_rwlock_tryrdlock (lockp : Z * list fld) : prog Z :=
_rthread_rwlock_rdlock lockp None true.

(** Unlike [pthread_cond_timedwait], a nanosecond count of 10^9 passes. *)
Definition rwlock_abstime_bad (abstime : timespec) : bool :=
match abstime with
| None => true
| Some (sec, nsec) => (sec <? 0) || (nsec <? 0) || (1000000000 <? nsec)
end.

Definition pthread_rwlock_timedrdlock (lockp : Z * list fld) (abstime : timespec) : prog Z :=
if rwlock_abstime_bad abstime then Ret EINVAL
else _rthread_rwlock_rdlock lockp abstime false.

(** The contended branch queues the thread and returns [ENOSYS] from inside the
  [do] loop: the code after it, and the release of the spin lock, are dead. *)
Definition _rthread_rwlock_wrlock (lockp : Z * list fld) (abstime : timespec) (try : bool)
: prog Z :=
do thread <- pthread_self;
do error <- _rthread_rwlock_ensure_init lockp;
if negb (error =? 0) then Ret error else
do lock <- act (Load lockp);
_rthread_debug 5 "rwlock_timedwrlock" ;;
_spinlock (ptr lock).@f_lock ;;
do readers <- act (Load (ptr lock).@f_readers);
do owner <- (if readers =? 0 then act (Load (ptr lock).@f_owner) else Ret 1);
if (readers =? 0) && (owner =? NULL) then
  act (Store (ptr lock).@f_owner thread) ;;
  _spinunlock (ptr lock).@f_lock ;;
  Ret error
else if try then
  _spinunlock (ptr lock).@f_lock ;;
  Ret EBUSY
else
  do owner <- act (Load (ptr lock).@f_owner);
  if owner =? thread then
    _spinunlock (ptr lock).@f_lock ;;
    Ret EDEADLK
  else
    act (QInsertTail (ptr lock).@f_writers thread) ;;
    Ret ENOSYS.

Definition pthread_rwlock_wrlock (lockp : Z * list fld) : prog Z :=
_rthread_rwlock_wrlock lockp None false.

Definition pthread_rwlock_trywrlock (lockp : Z * list fld) : prog Z :=
_rthread_rwlock_wrlock lockp None true.

Definition pthread_rwlock_timedwrlock (lockp : Z * list fld) (abstime : timespec) : prog Z :=
if rwlock_abstime_bad abstime then Ret EINVAL
else _rthread_rwlock_wrlock lockp abstime false.

(** Hand the lock to the first queued writer, if any. *)
Definition rwlock_handover (lock : Z) (was_writer : bool) : prog Z :=
do q <- act (QList (ptr lock).@f_writers);
let next := default NULL (head q) in
act (Store (ptr lock).@f_owner next) ;;
if negb (next =? NULL) then
  act (QRemove (ptr lock).@f_writers next) ;;
  _spinunlock (ptr lock).@f_lock ;;
  Ret ENOSYS
else if was_writer then Ret ENOSYS
else
  _spinunlock (ptr lock).@f_lock ;;
  Ret 0.

Definition pthread_rwlock_unlock (lockp : Z * list fld) : prog Z :=
do thread <- pthread_self;
do lock <- act (Load lockp);
_rthread_debug 5 "rwlock_unlock" ;;
_spinlock (ptr lock).@f_lock ;;
do owner <- act (Load (ptr lock).@f_owner);
if negb (owner =? NULL) then
  do owner <- act (Load (ptr lock).@f_owner);
  assert_ (owner =? thread) ;;
  rwlock_handover lock true
else
  do readers <- act (Load (ptr lock).@f_readers);
  assert_ (0 <? readers) ;;
  act (Store (ptr lock).@f_readers (readers - 1)) ;;
  if 0 <? readers - 1 then
    _spinunlock (ptr lock).@f_lock ;;
    Ret 0
  else rwlock_handover lock false.

Definition pthread_rwlockattr_init (attrp : Z * list fld) : prog Z :=
do attr <- act (Calloc rwlockattr_struct);
if attr =? NULL then Ret ENOMEM else
act (Store (ptr attr).@f_pshared PTHREAD_PROCESS_PRIVATE) ;;
act (Store attrp attr) ;;
Ret 0.

Definition pthread_rwlockattr_destroy (attrp : Z * list fld) : prog Z :=
do a <- act (Load attrp);
act (Free a) ;;
act (Store attrp NULL) ;;
Ret 0.

Definition pthread_rwlockattr_getpshared (attrp pshared : Z * list fld) : prog Z :=
do a <- act (Load attrp);
do v <- act (Load (ptr a).@f_pshared);
act (Store pshared v) ;;
Ret 0.

Definition pthread_rwlockattr_setpshared (attrp : Z * list fld) (pshared : Z) : prog Z :=
if negb (pshared =? PTHREAD_PROCESS_PRIVATE) then Ret EINVAL else
do a <- act (Load attrp);
act (Store (ptr a).@f_pshared pshared) ;;
Ret 0.

End RwLock.

(** ** The contract of a read-write lock

    [rw_spin] says whether the spin lock inside the object was left taken. *)
Record rwstate := RW {
  rw_owner : Z; rw_readers : Z; rw_writers : list Z; rw_spin : bool
}.

Inductive rwverdict := RwReturns (s : rwstate) (rc : Z) | RwSpins | RwAborts | RwUndefined.

Inductive rwkind := Plain | Try | Timed (abs : timespec).
Inductive rwop := Rd (k : rwkind) | Wr (k : rwkind) | Un.

Definition rw_call {HAL : Phal} (o : rwop) (lockp : Z * list fld) : prog Z :=
  match o with
  | Rd Plain => pthread_rwlock_rdlock lockp
  | Rd Try => pthread_rwlock_tryrdlock lockp
  | Rd (Timed abs) => pthread_rwlock_timedrdlock lockp abs
  | Wr Plain => pthread_rwlock_wrlock lockp
  | Wr Try => pthread_rwlock_trywrlock lockp
  | Wr (Timed abs) => pthread_rwlock_timedwrlock lockp abs
  | Un => pthread_rwlock_unlock lockp
  end.

Definition bad_time (k : rwkind) : bool :=
  match k with
  | Timed (Some (sec, nsec)) => (sec <? 0) || (nsec <? 0) || (1000000000 <? nsec)
  | Timed None => true
  | _ => false
  end.

Definition is_try (k : rwkind) : bool := match k with Try => true | _ => false end.

(** The calls that get past their checks and initialise a static lock. *)
Definition rw_inits (o : rwop) : bool :=
  match o with Rd k | Wr k => negb (bad_time k) | Un => false end.

Definition spec_rdlock (self : Z) (try : bool) (s : rwstate) : rwverdict :=
  if (rw_owner s =? NULL) && bool_decide (rw_writers s = []) then
    RwReturns (RW NULL (i32 (rw_readers s + 1)) [] false) 0
  else if try then RwReturns s EBUSY
  else if rw_owner s =? self then RwReturns s EDEADLK
  else RwSpins.

Definition spec_wrlock (self : Z) (try : bool) (s : rwstate) : rwverdict :=
  if (rw_readers s =? 0) && (rw_owner s =? NULL) then
    RwReturns (RW self 0 (rw_writers s) false) 0
  else if try then RwReturns s EBUSY
  else if rw_owner s =? self then RwReturns s EDEADLK
  else if bool_decide (self ∈ rw_writers s) then RwUndefined
  else RwReturns (RW (rw_owner s) (rw_readers s) (rw_writers s ++ [self]) true) ENOSYS.

(** The lock passes to the first queued writer. *)
Definition spec_handover (s : rwstate) (was_writer : bool) : rwverdict :=
  match rw_writers s with
  | next :: q => RwReturns (RW next (rw_readers s) q false) ENOSYS
  | [] =>
      if was_writer then RwReturns (RW NULL (rw_readers s) [] true) ENOSYS
      else RwReturns (RW NULL (rw_readers s) [] false) 0
  end.

Definition spec_unlock (self : Z) (s : rwstate) : rwverdict :=
  if negb (rw_owner s =? NULL) then
    if rw_owner s =? self then spec_handover s true else RwAborts
  else if rw_readers s <=? 0 then RwAborts
  else if 1 <? rw_readers s
  then RwReturns (RW NULL (rw_readers s - 1) (rw_writers s) false) 0
  else spec_handover (RW NULL (rw_readers s - 1) (rw_writers s) false) false.

Definition rw_spec (o : rwop) (self : Z) (s : rwstate) : rwverdict :=
  match o with
  | Rd k => if bad_time k then RwReturns s EINVAL
            else if rw_spin s then RwSpins else spec_rdlock self (is_try k) s
  | Wr k => if bad_time k then RwReturns s EINVAL
            else if rw_spin s then RwSpins else spec_wrlock self (is_try k) s
  | Un => if rw_spin s then RwSpins else spec_unlock self s
  end.

(** ** Representation in memory *)
Definition spin_word (held : bool) : Z :=
  if held then ATOMIC_LOCK_LOCKED else ATOMIC_LOCK_UNLOCKED.

Record rw_at (l : Z) (lp : Z * list fld) (s : rwstate) (w : world) : Prop := {
  ra_pos : 0 < l;
  ra_var : 0 < lp.1 /\ lp.1 <> l;
  ra_lp : w_heap w !! lp = Some l;
  ra_lock : w_heap w !! (l, [f_lock]) = Some (spin_word (rw_spin s));
  ra_owner : w_heap w !! (l, [f_owner]) = Some (rw_owner s);
  ra_readers : w_heap w !! (l, [f_readers]) = Some (rw_readers s);
  ra_writers : w_queues w !! (l, [f_writers]) = Some (rw_writers s);
  ra_queue : Forall (fun x => x <> NULL) (rw_writers s)
}.

Section Contract.
Context {CB : Callbacks} {HAL : Phal} {HQ : PhalQuiet HAL}.
Context (t : nat) (self l : Z) (lp : Z * list fld).

(** The outcome of a call from [w], in which only the lock changes. *)
Definition rw_meets (w : world) (v : rwverdict) (o : nat -> outcome Z) : Prop :=
  match v with
  | RwReturns s rc => forall n, exists w', o (S n) = Done w' rc /\ rw_at l lp s w' /\
      forall x, x.1 <> l -> w_heap w' !! x = w_heap w !! x
  | RwSpins => forall n, o n = OutOfFuel
  | RwAborts => forall n, exists w', o (S n) = Aborted w'
  | RwUndefined => forall n, o (S n) = Undefined
  end.

Lemma run_writer_pending {B} n s (k : bool -> prog B) w :
  w_heap w !! (l, [f_owner]) = Some (rw_owner s) ->
  w_queues w !! (l, [f_writers]) = Some (rw_writers s) ->
  run n t (bind (rwlock_writer_pending l) k) w
  = run n t (k (negb ((rw_owner s =? NULL) && bool_decide (rw_writers s = [])))) w.
Proof.
  intros Ho Hq. unfold rwlock_writer_pending. exec.
  destruct (rw_owner s =? NULL); cbn [negb]; exec; [| done].
  rewrite (run_qlist _ _ _ (rw_writers s)) by done. exec. by destruct (rw_writers s).
Qed.

Lemma run_ensure_init {B} n (k : Z -> prog B) w :
  w_heap w !! lp = Some l -> 0 < l ->
  run n t (bind (_rthread_rwlock_ensure_init lp) k) w = run n t (k 0) w.
Proof. intros. unfold _rthread_rwlock_ensure_init. by exec. Qed.

(** Every call first takes the spin lock. *)
Lemma run_rdlock_from n abs try w :
  started t self w -> w_heap w !! lp = Some l -> 0 < l ->
  run n t (_rthread_rwlock_rdlock lp abs try) w
  = run n t (_spinlock (l, [f_lock]) ;;
      do pending <- rwlock_writer_pending l;
      do error <- (if negb pending then rwlock_add_reader l ;; Ret 0
                   else if try then Ret EBUSY
                   else
                     do owner <- act (Load (l, [f_owner]));
                     if owner =? self then Ret EDEADLK
                     else
                       loop (fun _ : unit =>
                         _spinlock (l, [f_lock]) ;;
                         do pending <- rwlock_writer_pending l;
                         if pending : bool then Ret (inl tt) else Ret (inr tt)) tt ;;
                       rwlock_add_reader l ;;
                       Ret 0);
      _spinunlock (l, [f_lock]) ;;
      Ret error) w.
Proof.
  intros [] Hl Hp. unfold _rthread_rwlock_rdlock.
  xcall (run_self _ _ 1 self); try done. xcall run_ensure_init; try done. exec.
  by xcall run_debug.
Qed.

Lemma rw_at_frame s s' w w' :
  rw_at l lp s w ->
  w_heap w' !! (l, [f_lock]) = Some (spin_word (rw_spin s')) ->
  w_heap w' !! (l, [f_owner]) = Some (rw_owner s') ->
  w_heap w' !! (l, [f_readers]) = Some (rw_readers s') ->
  w_queues w' !! (l, [f_writers]) = Some (rw_writers s') ->
  Forall (fun x => x <> NULL) (rw_writers s') ->
  (forall x, x.1 <> l -> w_heap w' !! x = w_heap w !! x) ->
  rw_at l lp s' w' /\ forall x, x.1 <> l -> w_heap w' !! x = w_heap w !! x.
Proof. intros [] ? ? ? ? ? Hf. split; [split; try done | done]. by rewrite Hf; destruct ra_var0. Qed.

(** The final state has the fields of [s'] and is otherwise unchanged. *)
Ltac rw_fields :=
  cbn [rw_owner rw_readers rw_writers rw_spin spin_word]; try intros ? ?;
  try solve [lk | apply lookup_insert_eq | done].
Ltac rw_frame := eapply rw_at_frame; [eassumption | ..]; rw_fields.

Lemma rdlock_free try abs r w :
  started t self w -> rw_at l lp (RW NULL r [] false) w ->
  rw_meets w (RwReturns (RW NULL (i32 (r + 1)) [] false) 0)
    (fun n => run n t (_rthread_rwlock_rdlock lp abs try) w).
Proof.
  intros Hs Hr. pose proof Hr as []. cbn [rw_owner rw_readers rw_writers rw_spin spin_word] in *.
  intros m. eexists. rewrite run_rdlock_from by done. split.
  { rewrite run_spinlock by done. exec. xcall (run_writer_pending _ (RW NULL r [] false)); try lk.
    cbn [rw_owner rw_writers]. exec. unfold rwlock_add_reader. exec.
    rewrite run_spinunlock by lk. by exec. }
  rw_frame.
Qed.

(** A pending writer: [EBUSY], [EDEADLK], or a wait on the spin lock the
    caller itself has taken. *)
Lemma rdlock_pending (try : bool) abs o r q w :
  started t self w -> rw_at l lp (RW o r q false) w ->
  (o =? NULL) && bool_decide (q = []) = false ->
  rw_meets w (if try then RwReturns (RW o r q false) EBUSY
              else if o =? self then RwReturns (RW o r q false) EDEADLK else RwSpins)
    (fun n => run n t (_rthread_rwlock_rdlock lp abs try) w).
Proof.
  intros Hs Hr Hp. pose proof Hr as [].
  cbn [rw_owner rw_readers rw_writers rw_spin spin_word] in *.
  assert (forall n (r' : outcome Z),
    run (S n) t (do error <- (if try then Ret EBUSY
                   else
                     do owner <- act (Load (l, [f_owner]));
                     if owner =? self then Ret EDEADLK
                     else
                       loop (fun _ : unit =>
                         _spinlock (l, [f_lock]) ;;
                         do pending <- rwlock_writer_pending l;
                         if pending : bool then Ret (inl tt) else Ret (inr tt)) tt ;;
                       rwlock_add_reader l ;;
                       Ret 0);
      _spinunlock (l, [f_lock]) ;;
      Ret error) (upd_loc (l, [f_lock]) ATOMIC_LOCK_LOCKED w) = r' ->
    run (S n) t (_rthread_rwlock_rdlock lp abs try) w = r') as Hrun.
  { intros n r' <-. rewrite run_rdlock_from by done. rewrite run_spinlock by done. exec.
    xcall (run_writer_pending _ (RW o r q false)); try lk. cbn [rw_owner rw_writers].
    rewrite Hp. by exec. }
  destruct try.
  { intros n. eexists. split.
    - apply Hrun. exec. rewrite run_spinunlock by lk. by exec.
    - rw_frame. }
  destruct (o =? self) eqn:Eo.
  { intros n. eexists. split.
    - apply Hrun. exec. rewrite run_spinunlock by lk. by exec.
    - rw_frame. }
  intros [| n]; [by rewrite run_rdlock_from |]. apply Hrun. exec.
  apply run_loop_diverges. eapply run_spinlock_taken; [lk | done].
Qed.

Lemma rdlock_meets try abs s w :
  started t self w -> rw_at l lp s w ->
  rw_meets w (if rw_spin s then RwSpins else spec_rdlock self try s)
    (fun n => run n t (_rthread_rwlock_rdlock lp abs try) w).
Proof.
  intros Hs Hr. destruct s as [o r q []].
  { pose proof Hr as []. intros n. rewrite run_rdlock_from by done. by eapply run_spinlock_taken. }
  unfold spec_rdlock. cbn [rw_owner rw_readers rw_writers rw_spin].
  destruct (_ && _) eqn:Ep; [| by apply rdlock_pending].
  apply andb_true_iff in Ep as [Eo Eq%bool_decide_eq_true]. apply Z.eqb_eq in Eo. subst.
  by apply rdlock_free.
Qed.

Lemma run_wrlock_from n abs try w :
  started t self w -> w_heap w !! lp = Some l -> 0 < l ->
  run n t (_rthread_rwlock_wrlock lp abs try) w
  = run n t (_spinlock (l, [f_lock]) ;;
      do readers <- act (Load (l, [f_readers]));
      do owner <- (if readers =? 0 then act (Load (l, [f_owner])) else Ret 1);
      if (readers =? 0) && (owner =? NULL) then
        act (Store (l, [f_owner]) self) ;; _spinunlock (l, [f_lock]) ;; Ret 0
      else if try then _spinunlock (l, [f_lock]) ;; Ret EBUSY
      else
        do owner <- act (Load (l, [f_owner]));
        if owner =? self then _spinunlock (l, [f_lock]) ;; Ret EDEADLK
        else act (QInsertTail (l, [f_writers]) self) ;; Ret ENOSYS) w.
Proof.
  intros [] Hl Hp. unfold _rthread_rwlock_wrlock.
  xcall (run_self _ _ 1 self); try done. xcall run_ensure_init; try done. exec.
  by xcall run_debug.
Qed.

Lemma wrlock_meets try abs s w :
  started t self w -> self <> NULL -> rw_at l lp s w ->
  rw_meets w (if rw_spin s then RwSpins else spec_wrlock self try s)
    (fun n => run n t (_rthread_rwlock_wrlock lp abs try) w).
Proof.
  intros Hs Hself Hr. pose proof Hr as []. destruct s as [o r q []].
  { intros n. rewrite run_wrlock_from by done. by eapply run_spinlock_taken. }
  unfold spec_wrlock. cbn [rw_owner rw_readers rw_writers rw_spin spin_word] in *.
  assert (forall n (r' : outcome Z),
    run (S n) t (if (r =? 0) && (o =? NULL) then
        act (Store (l, [f_owner]) self) ;; _spinunlock (l, [f_lock]) ;; Ret 0
      else if try then _spinunlock (l, [f_lock]) ;; Ret EBUSY
      else if o =? self then _spinunlock (l, [f_lock]) ;; Ret EDEADLK
      else act (QInsertTail (l, [f_writers]) self) ;; Ret ENOSYS)
      (upd_loc (l, [f_lock]) ATOMIC_LOCK_LOCKED w) = r' ->
    run (S n) t (_rthread_rwlock_wrlock lp abs try) w = r') as Hrun.
  { intros n r' <-. rewrite run_wrlock_from by done. rewrite run_spinlock by done. exec.
    destruct (r =? 0); cbn [andb]; exec; [destruct (o =? NULL); [by exec |] |];
      (destruct try; [done |]); exec; by destruct (o =? self). }
  destruct (_ && _) eqn:E.
  { apply andb_true_iff in E as [->%Z.eqb_eq ->%Z.eqb_eq]. intros n. eexists. split.
    - apply Hrun. exec. rewrite run_spinunlock by lk. by exec.
    - rw_frame. }
  destruct try; [| destruct (o =? self)].
  1, 2: intros n; eexists; split;
    [apply Hrun; exec; rewrite run_spinunlock by lk; by exec | rw_frame].
  destruct (bool_decide_reflect (self ∈ q)) as [Hin | Hin].
  { intros n. apply Hrun. exec. by rewrite (run_qinsert_twice _ _ _ _ q). }
  intros n. eexists. split.
  - apply Hrun. exec. by rewrite (run_qinsert_tail _ _ _ _ q).
  - rw_frame. apply Forall_app. by repeat constructor.
Qed.

Lemma run_unlock_from n w :
  started t self w -> w_heap w !! lp = Some l ->
  run n t (pthread_rwlock_unlock lp) w
  = run n t (_spinlock (l, [f_lock]) ;;
      do owner <- act (Load (l, [f_owner]));
      if negb (owner =? NULL) then
        do owner <- act (Load (l, [f_owner]));
        assert_ (owner =? self) ;;
        rwlock_handover l true
      else
        do readers <- act (Load (l, [f_readers]));
        assert_ (0 <? readers) ;;
        act (Store (l, [f_readers]) (readers - 1)) ;;
        if 0 <? readers - 1 then _spinunlock (l, [f_lock]) ;; Ret 0
        else rwlock_handover l false) w.
Proof.
  intros [] Hl. unfold pthread_rwlock_unlock.
  xcall (run_self _ _ 1 self); try done. exec. by xcall run_debug.
Qed.

(** The hand-over from a state in which the spin lock is held. *)
Lemma run_handover s w wr :
  rw_at l lp (RW (rw_owner s) (rw_readers s) (rw_writers s) true) w ->
  rw_meets w (spec_handover s wr) (fun n => run n t (rwlock_handover l wr) w).
Proof.
  intros Hr. pose proof Hr as []. destruct s as [o r q sp].
  cbn [rw_owner rw_readers rw_writers rw_spin spin_word] in *.
  assert (forall n (r' : outcome Z),
    run (S n) t (if negb (default NULL (head q) =? NULL) then
        act (QRemove (l, [f_writers]) (default NULL (head q))) ;;
        _spinunlock (l, [f_lock]) ;; Ret ENOSYS
      else if wr then Ret ENOSYS else _spinunlock (l, [f_lock]) ;; Ret 0)
      (upd_loc (l, [f_owner]) (default NULL (head q)) w) = r' ->
    run (S n) t (rwlock_handover l wr) w = r') as Hrun.
  { intros n r' <-. unfold rwlock_handover. rewrite (run_qlist _ _ _ q) by done. cbv zeta. by exec. }
  unfold spec_handover. cbn [rw_owner rw_readers rw_writers]. destruct q as [| v q].
  - destruct wr; intros n; eexists; split;
      [by apply Hrun; exec | rw_frame | apply Hrun; exec; rewrite run_spinunlock by lk; by exec |
       rw_frame].
  - apply Forall_cons in ra_queue0 as [Hv Hq]. intros n. eexists. split.
    + apply Hrun. change (default NULL (head (v :: q))) with v.
      replace (v =? NULL) with false by lia. cbn [negb].
      rewrite (run_qremove_head _ _ _ v q) by done.
      rewrite run_spinunlock by lk. by exec.
    + rw_frame.
Qed.

Lemma rw_meets_after w w1 s wr (o : nat -> outcome Z) :
  rw_at l lp (RW (rw_owner s) (rw_readers s) (rw_writers s) true) w1 ->
  (forall x, x.1 <> l -> w_heap w1 !! x = w_heap w !! x) ->
  (forall n, o (S n) = run (S n) t (rwlock_handover l wr) w1) ->
  rw_meets w (spec_handover s wr) o.
Proof.
  intros Hat Hf Ho. pose proof (run_handover s w1 wr Hat) as H.
  destruct (spec_handover s wr) as [s' rc | | |] eqn:E; simpl in *.
  - intros n. destruct (H n) as (w' & E' & Hat' & Hf'). exists w'. rewrite Ho. split; [done |].
    split; [done |]. intros x Hx. by rewrite Hf', Hf.
  - unfold spec_handover in E. by destruct (rw_writers s), wr.
  - unfold spec_handover in E. by destruct (rw_writers s), wr.
  - unfold spec_handover in E. by destruct (rw_writers s), wr.
Qed.

Lemma unlock_meets s w :
  started t self w -> rw_at l lp s w ->
  rw_meets w (if rw_spin s then RwSpins else spec_unlock self s)
    (fun n => run n t (pthread_rwlock_unlock lp) w).
Proof.
  intros Hs Hr. pose proof Hr as []. destruct s as [o r q []].
  { intros n. rewrite run_unlock_from by done. by eapply run_spinlock_taken. }
  unfold spec_unlock. cbn [rw_owner rw_readers rw_writers rw_spin spin_word] in *.
  assert (forall n (r' : outcome Z),
    run (S n) t (if negb (o =? NULL) then assert_ (o =? self) ;; rwlock_handover l true
      else
        assert_ (0 <? r) ;;
        act (Store (l, [f_readers]) (r - 1)) ;;
        if 0 <? r - 1 then _spinunlock (l, [f_lock]) ;; Ret 0
        else rwlock_handover l false)
      (upd_loc (l, [f_lock]) ATOMIC_LOCK_LOCKED w) = r' ->
    run (S n) t (pthread_rwlock_unlock lp) w = r') as Hrun.
  { intros n r' <-. rewrite run_unlock_from by done. rewrite run_spinlock by done. exec.
    destruct (o =? NULL); cbn [negb]; by exec. }
  destruct (o =? NULL) eqn:E; cbn [negb].
  - apply Z.eqb_eq in E as ->. destruct (r <=? 0) eqn:Er.
    { intros n. eexists. apply Hrun. exec. by replace (0 <? r) with false by lia. }
    assert (0 <? r = true) as Ep by lia. destruct (1 <? r) eqn:E1.
    + intros n. eexists. split.
      * apply Hrun. exec. rewrite Ep, run_assert. exec.
        rewrite run_spinunlock by lk. by exec.
      * rw_frame.
    + destruct (rw_at_frame (RW NULL r q false) (RW NULL (r - 1) q true) w
        (upd_loc (l, [f_readers]) (r - 1) (upd_loc (l, [f_lock]) ATOMIC_LOCK_LOCKED w)))
        as [Hat Hf]; [exact Hr | rw_fields ..|].
      eapply (rw_meets_after _ _ (RW NULL (r - 1) q false)); [exact Hat | exact Hf |].
      intros n. apply Hrun. exec. rewrite Ep, run_assert. by exec.
  - destruct (o =? self) eqn:Eo; [| intros n; eexists; by apply Hrun].
    destruct (rw_at_frame (RW o r q false) (RW o r q true) w
      (upd_loc (l, [f_lock]) ATOMIC_LOCK_LOCKED w)) as [Hat Hf]; [exact Hr | rw_fields ..|].
    eapply (rw_meets_after _ _ (RW o r q false)); [exact Hat | exact Hf |].
    intros n. by apply Hrun.
Qed.

Lemma rw_call_meets o s w :
  started t self w -> self <> NULL -> rw_at l lp s w ->
  rw_meets w (rw_spec o self s) (fun n => run n t (rw_call o lp) w).
Proof.
  intros Hs Hself Hr.
  assert (forall rc, rw_meets w (RwReturns s rc) (fun _ => Done w rc)) as Hsame
    by (intros rc n; by exists w).
  destruct o as [[| | abs] | [| | abs] |]; cbn [rw_call rw_spec bad_time is_try].
  1, 2: by apply rdlock_meets.
  - unfold pthread_rwlock_timedrdlock. destruct abs as [[sec nsec] |]; [| apply Hsame].
    cbn [rwlock_abstime_bad]. destruct (_ || _); [apply Hsame | by apply rdlock_meets].
  - by apply wrlock_meets.
  - by apply wrlock_meets.
  - unfold pthread_rwlock_timedwrlock. destruct abs as [[sec nsec] |]; [| apply Hsame].
    cbn [rwlock_abstime_bad]. destruct (_ || _); [apply Hsame | by apply wrlock_meets].
  - by apply unlock_meets.
Qed.
(** *** The first call on a static lock *)

(** The variable still holds the [NULL] of the initializer. *)
Record unset_rw (w : world) : Prop := {
  ur_var : 0 < lp.1;
  ur_null : w_heap w !! lp = Some NULL;
  ur_init : w_heap w !! gv f_rwlock_init_lock = Some ATOMIC_LOCK_UNLOCKED
}.

(** The state in which [_rthread_rwlock_ensure_init] leaves it. *)
Definition new_rwlock (w : world) : world :=
  let w1 := upd_loc (w_next w, [f_lock]) ATOMIC_LOCK_UNLOCKED
              (alloc rwlock_struct (upd_loc (gv f_rwlock_init_lock) ATOMIC_LOCK_LOCKED w)) in
  upd_loc (gv f_rwlock_init_lock) ATOMIC_LOCK_UNLOCKED
    (upd_loc lp (w_next w) (set_queues (<[(w_next w, [f_writers]) := []]> (w_queues w1)) w1)).

Lemma new_rwlock_at w :
  unset_rw w -> fresh_world w -> rw_at (w_next w) lp (RW NULL 0 [] false) (new_rwlock w).
Proof.
  intros [] [Hpos Hb]. pose proof (Hb _ _ ur_null0). unfold new_rwlock. cbv zeta.
  split; cbn [rw_owner rw_readers rw_writers rw_spin spin_word]; try lk; [split; lia | simpl; by rewrite lookup_insert_eq].
Qed.

Lemma new_rwlock_frame x w :
  unset_rw w -> fresh_world w -> x.1 <> w_next w -> x <> lp -> w_heap (new_rwlock w) !! x = w_heap w !! x.
Proof.
  intros [] [Hpos Hb] H1 H2. unfold new_rwlock. cbv zeta.
  destruct (decide (x = gv f_rwlock_init_lock)) as [-> | H3]; [by rewrite upd_lookup_eq |].
  rewrite !upd_lookup_ne by done. heap_of. rewrite upd_lookup_ne by neq.
  rewrite alloc_lookup_ne by done. by rewrite upd_lookup_ne.
Qed.

Lemma new_rwlock_started w : unset_rw w -> fresh_world w -> started t self w -> started t self (new_rwlock w).
Proof.
  intros Hu Hf []. pose proof Hu as []. pose proof (fw_pos _ Hf).
  split; (rewrite new_rwlock_frame; [done | done | done | unfold_locs; lia | neq]).
Qed.

Lemma run_rwlock_init {B} n v (k : Z -> prog B) w :
  fresh_world w -> has_memory w -> w_heap w !! lp = Some v ->
  run n t (bind (pthread_rwlock_init lp) k) w
  = let w1 := upd_loc (w_next w, [f_lock]) ATOMIC_LOCK_UNLOCKED (alloc rwlock_struct w) in
    run n t (k 0) (upd_loc lp (w_next w) (set_queues (<[(w_next w, [f_writers]) := []]> (w_queues w1)) w1)).
Proof.
  intros [Hpos Hb] Hm Hv. pose proof (Hb _ _ Hv). unfold pthread_rwlock_init. exec.
  rewrite run_qinit. by exec.
Qed.

Lemma run_ensure_new {B} n (k : Z -> prog B) w :
  unset_rw w -> fresh_world w -> has_memory w ->
  run (S n) t (bind (_rthread_rwlock_ensure_init lp) k) w = run (S n) t (k 0) (new_rwlock w).
Proof.
  intros [] Hf Hm. pose proof (fw_below _ Hf _ _ ur_null0). unfold _rthread_rwlock_ensure_init. exec.
  rewrite run_spinlock by done. exec.
  rewrite (run_rwlock_init _ NULL); [| by apply fresh_world_upd | done | lk]. cbv zeta.
  exec. rewrite run_spinunlock by lk. by exec.
Qed.

Lemma run_ensure_oom {B} n rest (k : Z -> prog B) w :
  unset_rw w -> w_oom w = true :: rest ->
  exists w', run (S n) t (bind (_rthread_rwlock_ensure_init lp) k) w = run (S n) t (k ENOMEM) w' /\
    forall x, w_heap w' !! x = w_heap w !! x.
Proof.
  intros [] Hm. eexists. split.
  - unfold _rthread_rwlock_ensure_init. exec. rewrite run_spinlock by done. exec.
    unfold pthread_rwlock_init. rewrite run_bind_assoc, (run_calloc_oom _ _ _ _ _ rest) by done. exec.
    rewrite run_spinunlock by lk. by exec.
  - intros x. destruct (decide (x = gv f_rwlock_init_lock)) as [-> |]; [by rewrite upd_lookup_eq |].
    rewrite upd_lookup_ne by done. heap_of. by rewrite upd_lookup_ne.
Qed.

(** The common beginning of the four read and write calls. *)
Lemma run_lock_start {B} n (k : Z -> Z -> prog B) w :
  started t self w ->
  run n t (do thread <- pthread_self; do error <- _rthread_rwlock_ensure_init lp; k thread error) w
  = run n t (do error <- _rthread_rwlock_ensure_init lp; k self error) w.
Proof. intros []. by xcall (run_self _ _ 1 self). Qed.

Lemma rw_call_start o : rw_inits o = true -> exists k : Z -> Z -> prog Z,
  rw_call o lp = (do thread <- pthread_self; do error <- _rthread_rwlock_ensure_init lp;
    if negb (error =? 0) then Ret error else k thread error).
Proof.
  intros Ho. destruct o as [[| | [[sec nsec] |]] | [| | [[sec nsec] |]] |]; try done; cbn [rw_call rw_inits bad_time] in *;
    unfold pthread_rwlock_timedrdlock, pthread_rwlock_timedwrlock, rwlock_abstime_bad;
    try (apply negb_true_iff in Ho as ->); by eexists (fun thread error => _).
Qed.

(** The call goes on as on a lock that was initialised before. *)
Lemma first_call_as_new n o w :
  started t self w -> unset_rw w -> fresh_world w -> has_memory w -> rw_inits o = true ->
  run (S n) t (rw_call o lp) w = run (S n) t (rw_call o lp) (new_rwlock w).
Proof.
  intros Hs Hu Hf Hm Ho. pose proof (new_rwlock_started w Hu Hf Hs) as Hs'. pose proof (new_rwlock_at w Hu Hf) as [].
  destruct (rw_call_start o Ho) as (k & ->). rewrite !run_lock_start by done. rewrite run_ensure_new by done.
  symmetry. unfold _rthread_rwlock_ensure_init. by exec.
Qed.

(** Without memory. *)
Lemma first_call_oom n o w rest :
  started t self w -> unset_rw w -> w_oom w = true :: rest -> rw_inits o = true ->
  exists w', run (S n) t (rw_call o lp) w = Done w' ENOMEM /\ (forall x, w_heap w' !! x = w_heap w !! x).
Proof.
  intros Hs Hu Hm Ho.
  destruct (rw_call_start o Ho) as (k & ->). rewrite run_lock_start by done.
  edestruct (run_ensure_oom (B := Z) n rest) as (w' & E & Hw'); [done | done |]. exists w'. by rewrite E.
Qed.
End Contract.

(** ** What clients may rely on *)

(** Readers and a writer never hold the lock together. *)
Definition rw_excl (s : rwstate) : Prop :=
  0 <= rw_readers s /\ (rw_owner s = NULL \/ rw_readers s = 0).

Lemma rw_spec_excl o self s s' rc :
  rw_excl s -> rw_readers s < INT_MAX -> rw_spec o self s = RwReturns s' rc -> rw_excl s'.
Proof.
  unfold rw_excl. intros [Hr Hx] Hmax H. destruct s as [ow r q sp].
  cbn [rw_owner rw_readers rw_writers rw_spin] in *.
  destruct o as [k | k |]; cbn [rw_spec] in H.
  - destruct (bad_time k); [by injection H as <- _ |].
    destruct sp; [done |]. unfold spec_rdlock in H. cbn [rw_owner rw_readers rw_writers] in H.
    repeat case_match; try done; injection H as <- _; cbn [rw_owner rw_readers] in *;
      [rewrite i32_small by (zconsts; lia); zconsts; lia | done ..].
  - destruct (bad_time k); [by injection H as <- _ |].
    destruct sp; [done |]. unfold spec_wrlock in H. cbn [rw_owner rw_readers rw_writers] in H.
    repeat case_match; try done; injection H as <- _; cbn [rw_owner rw_readers] in *; lia.
  - destruct sp; [done |]. unfold spec_unlock, spec_handover in H.
    cbn [rw_owner rw_readers rw_writers rw_spin] in *.
    repeat case_match; try done; injection H as <- _; cbn [rw_owner rw_readers] in *;
      zconsts; lia.
Qed.

Lemma rw_spec_free o self : rw_inits o = true -> exists s' rc, rw_spec o self (RW NULL 0 [] false) = RwReturns s' rc.
Proof.
  intros Ho. destruct o as [k | k |]; [| | done]; cbn [rw_inits rw_spec rw_spin] in *; apply negb_true_iff in Ho as ->;
    by do 2 eexists.
Qed.

Section Clients.
Context {CB : Callbacks} {HAL : Phal} {HQ : PhalQuiet HAL}.
Context (l : Z) (lp : Z * list fld).

(** C4: every branch of the seven calls. On an initialised lock each does what the
    abstract state machine says. A read or write call whose time-out passes its
    checks initialises a static lock first, and then does what it does on a free
    lock; without memory it answers [ENOMEM] and the variable stays as it was. *)
Theorem rwlock_refines t self o s w :
  started t self w -> self <> NULL ->
  (rw_at l lp s w -> rw_meets l lp w (rw_spec o self s) (fun n => run n t (rw_call o lp) w)) /\
  (unset_rw lp w -> fresh_world w -> rw_inits o = true ->
    (has_memory w -> exists w1, rw_at (w_next w) lp (RW NULL 0 [] false) w1 /\
      (forall x, x.1 <> w_next w -> x <> lp -> w_heap w1 !! x = w_heap w !! x) /\
      rw_meets (w_next w) lp w1 (rw_spec o self (RW NULL 0 [] false)) (fun n => run n t (rw_call o lp) w)) /\
    (~ has_memory w -> forall n, exists w', run (S n) t (rw_call o lp) w = Done w' ENOMEM /\
      forall x, w_heap w' !! x = w_heap w !! x)).
Proof.
  intros Hs Hself. split; [by apply rw_call_meets |]. intros Hu Hf Ho. split.
  - intros Hm. pose proof (new_rwlock_at lp w Hu Hf) as Hat. exists (new_rwlock lp w). split; [done |].
    split; [intros; by apply new_rwlock_frame |].
    pose proof (rw_call_meets t self _ lp o _ _ (new_rwlock_started t self lp w Hu Hf Hs) Hself Hat) as H.
    pose proof (fun n => first_call_as_new t self lp n o w Hs Hu Hf Hm Ho) as E.
    destruct (rw_spec_free o self Ho) as (s' & rc & Es). rewrite Es in H |- *. intros n. rewrite E. apply H.
  - intros Hm n. unfold has_memory in Hm. destruct (w_oom w) as [| [] rest] eqn:E; try (by destruct Hm).
    by apply (first_call_oom t self lp n o w rest).
Qed.

(** C11: A call that returns keeps readers and writers apart. *)
Theorem rwlock_exclusion t self o s n w w' rc :
  started t self w -> self <> NULL -> rw_at l lp s w ->
  rw_excl s -> rw_readers s < INT_MAX ->
  run n t (rw_call o lp) w = Done w' rc ->
  exists s', rw_at l lp s' w' /\ rw_excl s'.
Proof.
  intros Hs Hself Hr Hx Hm Hrun.
  pose proof (rw_call_meets t self l lp o s w Hs Hself Hr) as H.
  assert (run (S n) t (rw_call o lp) w = Done w' rc) as Hrun'.
  { rewrite (run_mono n); [done | lia | by rewrite Hrun]. }
  destruct (rw_spec o self s) as [s' rc' | | |] eqn:E; simpl in H.
  - destruct (H n) as (w1 & E1 & Hat & _). rewrite Hrun' in E1. injection E1 as -> ->.
    exists s'. split; [done |]. by eapply rw_spec_excl.
  - by rewrite H in Hrun.
  - destruct (H n) as (w1 & E1). by rewrite Hrun' in E1.
  - by rewrite (H n) in Hrun'.
Qed.

(** Releasing a write lock nobody waits for answers [ENOSYS] and leaves the
    spin lock of the object taken: no later call on the lock returns. *)
Theorem rwlock_write_unlock_wedges t self o n w t2 self2 op k :
  started t self w -> started t2 self2 w -> self <> NULL -> self2 <> NULL ->
  rw_at l lp (RW self o [] false) w -> bad_time k = false -> op = Un \/ op = Rd k \/ op = Wr k ->
  exists w', run (S n) t (pthread_rwlock_unlock lp) w = Done w' ENOSYS /\
    forall n2, run n2 t2 (rw_call op lp) w' = OutOfFuel.
Proof.
  intros Hs Hs2 Hself Hself2 Hr Hk Hop.
  pose proof (unlock_meets t self l lp _ w Hs Hr) as H. pose proof Hr as [].
  cbn [rw_spin] in H. unfold spec_unlock in H. cbn [rw_owner] in H.
  replace (self =? NULL) with false in H by lia. rewrite Z.eqb_refl in H. cbn [negb] in H.
  destruct (H n) as (w' & E & Hat & Hf). exists w'. split; [done |].
  assert (started t2 self2 w') as Hs2'.
  { destruct Hs2. split; (rewrite Hf; [done | unfold_locs; lia]). }
  pose proof (rw_call_meets t2 self2 l lp op _ w' Hs2' Hself2 Hat) as H2.
  by destruct Hop as [-> | [-> | ->]]; cbn [rw_spec rw_spin] in H2; try rewrite Hk in H2.
Qed.
End Clients.
