(* ===== verification/Barrier.v ===== *)
(** * Barriers and one-time initialisation: rthread_barrier.c,
    rthread_barrier_attr.c, rthread_once.c *)

From stdpp Require Import base list gmap strings.
From Stdlib Require Import ZArith Lia.
From S2P Require Import Prelude CMem Prog PthreadH Phal Internal Exec Mutex MutexSpec Cond.
Local Open Scope Z_scope.
Local Open Scope prog_scope.

Section Barrier.
Context {HAL : Phal}.

(** Clean-up of a barrier whose construction failed (label [err]). *)
Definition barrier_init_err (b rc : Z) : prog Z :=
if negb (b =? NULL) then
  do m <- act (Load (ptr b).@f_mutex);
  (if negb (m =? NULL) then pthread_mutex_destroy (ptr b).@f_mutex else Ret 0) ;;
  do c <- act (Load (ptr b).@f_cond);
  (if negb (c =? NULL) then pthread_cond_destroy (ptr b).@f_cond else Ret 0) ;;
  act (Free b) ;;
  Ret rc
else Ret rc.

(** The checks on [attr]: 0, or the error to return. *)
Definition barrier_check_attr (attr : Z * list fld) : prog Z :=
if is_null attr then Ret 0 else
do a <- act (Load attr);
if a =? NULL then Ret EINVAL else
do ps <- act (Load (ptr a).@f_pshared);
Ret (if ps =? PTHREAD_PROCESS_PRIVATE then 0 else ENOTSUP).

Definition pthread_barrier_init (barrier attr : Z * list fld) (count : Z) : prog Z :=
if is_null barrier then Ret EINVAL else
do bad <- barrier_check_attr attr;
if negb (bad =? 0) then Ret bad else
do b <- act (Calloc barrier_struct);
if b =? NULL then Ret ENOMEM else
do rc <- pthread_mutex_init (ptr b).@f_mutex (ptr NULL);
if negb (rc =? 0) then barrier_init_err b rc else
do rc <- pthread_cond_init (ptr b).@f_cond (ptr NULL);
if negb (rc =? 0) then barrier_init_err b rc else
act (Store (ptr b).@f_threshold (i32 count)) ;;
act (Store barrier b) ;;
Ret 0.

Definition pthread_barrier_destroy (barrier : Z * list fld) : prog Z :=
if is_null barrier then Ret EINVAL else
do b <- act (Load barrier);
if b =? NULL then Ret EINVAL else
do rc <- pthread_mutex_lock (ptr b).@f_mutex;
if negb (rc =? 0) then Ret rc else
do b <- act (Load barrier);
do out <- act (Load (ptr b).@f_out);
do busy <- (if 0 <? out then Ret true
            else do in_ <- act (Load (ptr b).@f_in); Ret (0 <? in_));
if busy : bool then
  pthread_mutex_unlock (ptr b).@f_mutex ;;
  Ret EBUSY
else
  act (Store barrier NULL) ;;
  pthread_mutex_unlock (ptr b).@f_mutex ;;
  pthread_mutex_destroy (ptr b).@f_mutex ;;
  pthread_cond_destroy (ptr b).@f_cond ;;
  act (Free b) ;;
  Ret 0.

(** Wait on the condition until the generation changes. *)
Definition barrier_wait_loop (b gen : Z) : prog Z :=
loop (fun _ : unit =>
  do rc <- pthread_cond_wait (ptr b).@f_cond (ptr b).@f_mutex;
  if negb (rc =? 0) then Ret (inr rc) else
  do g <- act (Load (ptr b).@f_generation);
  if gen =? g then Ret (inl tt) else Ret (inr 0)) tt.

(** The body between the lock and the label [err]: whether this thread is the
  one that completed the barrier ([done]). *)
Definition barrier_arrive (b : Z) : prog bool :=
do in0 <- act (Load (ptr b).@f_in);
do threshold <- act (Load (ptr b).@f_threshold);
_rthread_debug 6 "in: %d, threshold: %d" ;;
act (Store (ptr b).@f_in (i32 (in0 + 1))) ;;
do threshold <- act (Load (ptr b).@f_threshold);
if i32 (in0 + 1) =? threshold then
  act (Store (ptr b).@f_out (i32 (in0 + 1) - 1)) ;;
  act (Store (ptr b).@f_in 0) ;;
  do g <- act (Load (ptr b).@f_generation);
  act (Store (ptr b).@f_generation (i32 (g + 1))) ;;
  do rc <- pthread_cond_signal (ptr b).@f_cond;
  if negb (rc =? 0) then Ret false else
  _rthread_debug 6 "threshold reached" ;;
  Ret true
else
  do gen <- act (Load (ptr b).@f_generation);
  _rthread_debug 6 "waiting on condition" ;;
  do rc <- barrier_wait_loop b gen;
  if negb (rc =? 0) then Ret false else
  do out <- act (Load (ptr b).@f_out);
  act (Store (ptr b).@f_out (i32 (out - 1))) ;;
  pthread_cond_signal (ptr b).@f_cond ;;
  Ret false.

Definition pthread_barrier_wait (barrier : Z * list fld) : prog Z :=
if is_null barrier then Ret EINVAL else
do b <- act (Load barrier);
if b =? NULL then Ret EINVAL else
do cs <- setcancelstate PTHREAD_CANCEL_DISABLE;
if negb (cs.1 =? 0) then Ret cs.1 else
let old_state := default 0 cs.2 in
let cancel (done : bool) :=
  do rc <- pthread_setcancelstate old_state (ptr NULL);
  Ret (if (rc =? 0) && done then PTHREAD_BARRIER_SERIAL_THREAD else rc) in
do b <- act (Load barrier);
do rc <- pthread_mutex_lock (ptr b).@f_mutex;
if negb (rc =? 0) then cancel false else
do done <- barrier_arrive b;
do rc <- pthread_mutex_unlock (ptr b).@f_mutex;
if negb (rc =? 0) then Ret rc else
cancel done.

Definition pthread_barrierattr_init (attr : Z * list fld) : prog Z :=
if is_null attr then Ret EINVAL else
do a <- act (Calloc barrierattr_struct);
act (Store attr a) ;;
if a =? NULL then Ret ENOMEM else
act (Store (ptr a).@f_pshared PTHREAD_PROCESS_PRIVATE) ;;
Ret 0.

(** The pointer behind [attr], or [NULL] when either level is [NULL]. *)
Definition deref_barrierattr (attr : Z * list fld) : prog Z :=
if is_null attr then Ret NULL else act (Load attr).

Definition pthread_barrierattr_destroy (attr : Z * list fld) : prog Z :=
do a <- deref_barrierattr attr;
if a =? NULL then Ret EINVAL else
act (Free a) ;;
Ret 0.

Definition pthread_barrierattr_getpshared (attr pshared : Z * list fld) : prog Z :=
do a <- deref_barrierattr attr;
if a =? NULL then Ret EINVAL else
do v <- act (Load (ptr a).@f_pshared);
act (Store pshared v) ;;
Ret 0.

Definition pthread_barrierattr_setpshared (attr : Z * list fld) (pshared : Z) : prog Z :=
do a <- deref_barrierattr attr;
if a =? NULL then Ret EINVAL else
if negb (pshared =? PTHREAD_PROCESS_PRIVATE) then Ret ENOTSUP else
act (Store (ptr a).@f_pshared pshared) ;;
Ret 0.

(** The initialisation routine is a callback of the application. *)
Definition pthread_once (once_control : Z * list fld) (init_routine : Z) : prog Z :=
pthread_mutex_lock once_control.@f_mutex ;;
do state <- act (Load once_control.@f_state);
(if state =? PTHREAD_NEEDS_INIT then
   act (CallFn init_routine 0) ;;
   act (Store once_control.@f_state PTHREAD_DONE_INIT)
 else Ret tt) ;;
pthread_mutex_unlock once_control.@f_mutex ;;
Ret 0.

End Barrier.

(** ** One-time initialisation *)
Section OnceContract.
Context {CB : Callbacks}.
#[local] Existing Instance DocPhal.
Context (n t : nat) (self m : Z) (oc : Z * list fld) (init : Z).

(** The control block [oc], its mutex free, with the given state. *)
Record once_at (st : Z) (w : world) : Prop := {
  oa_started : started t self w;
  oa_mutex : mutex_at m oc.@f_mutex PTHREAD_MUTEX_DEFAULT UNLOCKED NULL 0 w;
  oa_var : 0 < oc.1;
  oa_state : w_heap w !! oc.@f_state = Some st;
  oa_hal : hal_idle m w
}.

(** The routine leaves a mark and nothing else. *)
Definition marks_itself : Prop :=
  forall w, fn_call init 0 t w = Some (set_marks (w_marks w ++ [(t, init)]) w, 0).

Definition locked_by (w : world) : world :=
  upd_loc (m, [f_owner]) self (upd_loc (m, [f_lock]) LOCKED w).

Lemma once_unlock (w : world) :
  started t self w -> mutex_at m oc.@f_mutex PTHREAD_MUTEX_DEFAULT LOCKED self 0 w ->
  h_owner (hsem_at (m, [f_sem]) w) = None ->
  run n t (pthread_mutex_unlock oc.@f_mutex) w = Done (released m LOCKED w) 0.
Proof.
  intros Hs Hm Hi. erewrite run_unlock by done. rewrite Z.eqb_refl.
  by rewrite (run_mutex_leave t m oc.@f_mutex n PTHREAD_MUTEX_DEFAULT LOCKED self 0) by (try done; by left).
Qed.

(** The call runs the routine exactly when the state asks for it. *)
Lemma run_once st w :
  marks_itself -> self <> NULL -> once_at st w ->
  exists w', run n t (pthread_once oc init) w = Done w' 0 /\
    once_at (if st =? PTHREAD_NEEDS_INIT then PTHREAD_DONE_INIT else st) w' /\
    w_marks w' = w_marks w ++ (if st =? PTHREAD_NEEDS_INIT then [(t, init)] else []).
Proof.
  intros Hf Hself [Hs Hm Hv Hst [Ho Hi]]. pose proof Hm as [? [? _]]. pose proof Hs as [].
  set (w1 := locked_by w).
  assert (mutex_at m oc.@f_mutex PTHREAD_MUTEX_DEFAULT LOCKED self 0 w1) as Hm1
    by by eapply mutex_at_owner, mutex_at_lock.
  set (w2 := if st =? PTHREAD_NEEDS_INIT
             then upd_loc oc.@f_state PTHREAD_DONE_INIT (set_marks (w_marks w1 ++ [(t, init)]) w1)
             else w1).
  assert (started t self w2 /\ mutex_at m oc.@f_mutex PTHREAD_MUTEX_DEFAULT LOCKED self 0 w2)
    as [Hs2 Hm2].
  { destruct Hm1. unfold w2. destruct (st =? PTHREAD_NEEDS_INIT).
    - split; split; try done; unfold w1, locked_by; lk.
    - split; split; try done; unfold w1, locked_by; lk. }
  exists (released m LOCKED w2). split; [| split].
  - unfold pthread_once. etrans; [by eapply run_lock_free |]. fold (locked_by w). fold w1. cbv beta.
    rewrite (run_load n t _ st) by (unfold w1, locked_by; lk).
    assert (run n t (if st =? PTHREAD_NEEDS_INIT then
        act (CallFn init 0) ;; act (Store oc.@f_state PTHREAD_DONE_INIT) else Ret tt) w1
      = Done w2 tt) as Hbody.
    { unfold w2. destruct (st =? PTHREAD_NEEDS_INIT); [| done].
      erewrite run_callfn by apply Hf. apply run_store_end. unfold w1, locked_by. lk. }
    rewrite run_bind, Hbody. cbn [obind].
    rewrite run_bind, once_unlock; try done.
    unfold w2. by destruct (st =? PTHREAD_NEEDS_INIT).
  - destruct (released_rep m oc.@f_mutex PTHREAD_MUTEX_DEFAULT LOCKED self 0 w2 Hm2
      (or_introl eq_refl)) as [(v & Hv' & _ & Hat) Hfr].
    simpl in Hv'. subst v. split; [| done | done | | unfold w2; by destruct (st =? PTHREAD_NEEDS_INIT)].
    + destruct Hs2. split; rewrite Hfr; try done;
        unfold_locs; lia.
    + rewrite Hfr by done. unfold w2. destruct (st =? PTHREAD_NEEDS_INIT);
        [lk | unfold w1, locked_by; lk].
  - unfold released. cbv zeta. change (LOCKED =? LOCKED) with true. cbv iota.
    unfold w2. destruct (st =? PTHREAD_NEEDS_INIT); [done | by rewrite app_nil_r].
Qed.

Lemma run_once_again k w :
  marks_itself -> self <> NULL -> once_at PTHREAD_DONE_INIT w ->
  exists w', run n t (all_ok k (pthread_once oc init)) w = Done w' tt /\
    once_at PTHREAD_DONE_INIT w' /\ w_marks w' = w_marks w.
Proof.
  intros Hf Hself. revert w. induction k as [| k IH]; intros w Hw; [by exists w |].
  destruct (run_once _ w Hf Hself Hw) as (w1 & E1 & Hw1 & Hm1).
  destruct (IH w1 Hw1) as (w2 & E2 & Hw2 & Hm2).
  exists w2. cbn [all_ok]. rewrite run_bind, E1. cbn [obind].
  split; [by exec |]. split; [done |]. rewrite Hm2, Hm1. apply app_nil_r.
Qed.

(** However often one thread calls [pthread_once], the routine runs once. *)
Theorem once_exactly_once k w :
  marks_itself -> self <> NULL -> once_at PTHREAD_NEEDS_INIT w ->
  exists w', run n t (all_ok (S k) (pthread_once oc init)) w = Done w' tt /\
    once_at PTHREAD_DONE_INIT w' /\ w_marks w' = w_marks w ++ [(t, init)].
Proof.
  intros Hf Hself Hw. destruct (run_once _ w Hf Hself Hw) as (w1 & E1 & Hw1 & Hm1).
  destruct (run_once_again k w1 Hf Hself Hw1) as (w2 & E2 & Hw2 & Hm2).
  exists w2. cbn [all_ok]. rewrite run_bind, E1. cbn [obind].
  split; [by exec |]. split; [done |]. by rewrite Hm2, Hm1.
Qed.
End OnceContract.
