(* ===== verification/Spin.v ===== *)
(** * Spin locks: rthread_spin_lock.c *)

From stdpp Require Import base list gmap strings.
From Stdlib Require Import ZArith Lia.
From S2P Require Import Prelude CMem Prog PthreadH Phal Internal.
Local Open Scope Z_scope.
Local Open Scope prog_scope.

Section Spin.
Context {HAL : Phal}.

Definition pthread_spin_init (lock : Z * list fld) (pshared : Z) : prog Z :=
if is_null lock then Ret EINVAL else
if negb (pshared =? PTHREAD_PROCESS_PRIVATE) then Ret ENOTSUP else
do l <- act (Calloc spinlock_struct);
if l =? NULL then Ret ENOMEM else
act (Store (ptr l).@f_lock ATOMIC_LOCK_UNLOCKED) ;;
act (Store lock l) ;;
Ret 0.

(** [lock == NULL || *lock == NULL] is answered by [NULL]. *)
Definition deref_spin (lock : Z * list fld) : prog Z :=
if is_null lock then Ret NULL else act (Load lock).

Definition pthread_spin_destroy (lock : Z * list fld) : prog Z :=
do l <- deref_spin lock;
if l =? NULL then Ret EINVAL else
do owner <- act (Load (ptr l).@f_owner);
if negb (owner =? NULL) then Ret EBUSY else
act (Free l) ;;
act (Store lock NULL) ;;
Ret 0.

Definition pthread_spin_trylock (lock : Z * list fld) : prog Z :=
do self <- pthread_self;
do l <- deref_spin lock;
if l =? NULL then Ret EINVAL else
do owner <- act (Load (ptr l).@f_owner);
if owner =? self then Ret EDEADLK else
do got <- _spinlocktry (ptr l).@f_lock;
if negb got then Ret EBUSY else
act (Store (ptr l).@f_owner self) ;;
Ret 0.

Definition pthread_spin_lock (lock : Z * list fld) : prog Z :=
do self <- pthread_self;
do l <- deref_spin lock;
if l =? NULL then Ret EINVAL else
do owner <- act (Load (ptr l).@f_owner);
if owner =? self then Ret EDEADLK else
_spinlock (ptr l).@f_lock ;;
act (Store (ptr l).@f_owner self) ;;
Ret 0.

Definition pthread_spin_unlock (lock : Z * list fld) : prog Z :=
do self <- pthread_self;
do l <- deref_spin lock;
if l =? NULL then Ret EINVAL else
do owner <- act (Load (ptr l).@f_owner);
if negb (owner =? self) then Ret EPERM else
act (Store (ptr l).@f_owner NULL) ;;
_spinunlock (ptr l).@f_lock ;;
Ret 0.

End Spin.
