(* ===== verification/Tls.v ===== *)
(** * Thread-specific data: rthread_tls.c *)

From stdpp Require Import base list gmap strings.
From Stdlib Require Import ZArith Lia.
From S2P Require Import Prelude CMem Prog PthreadH Phal Internal Exec.
Local Open Scope Z_scope.
Local Open Scope prog_scope.

Section Tls.
Context {HAL : Phal}.

(** First unused key, or [PTHREAD_KEYS_MAX]. *)
Definition find_unused_key : prog Z :=
loop (fun i : Z =>
  if i <? PTHREAD_KEYS_MAX then
    do used <- act (Load (rkey i).@f_used);
    if used =? 0 then Ret (inr i) else Ret (inl (i + 1))
  else Ret (inr i)) 0.

(** Take the key at the hint. *)
Definition take_key (key : Z * list fld) (destructor hint : Z) : prog Z :=
act (Store (rkey hint).@f_used 1) ;;
act (Store (rkey hint).@f_destructor destructor) ;;
act (Store key hint) ;;
act (Store (gv f_hint) (hint + 1)) ;;
(if PTHREAD_KEYS_MAX <=? hint + 1 then act (Store (gv f_hint) 0) else Ret tt) ;;
_spinunlock (gv f_rkeyslock) ;;
Ret 0.

Definition pthread_key_create (key : Z * list fld) (destructor : Z) : prog Z :=
_spinlock (gv f_rkeyslock) ;;
do hint <- act (Load (gv f_hint));
do used <- act (Load (rkey hint).@f_used);
if negb (used =? 0) then
  do i <- find_unused_key;
  if i =? PTHREAD_KEYS_MAX then
    _spinunlock (gv f_rkeyslock) ;;
    Ret EAGAIN
  else
    act (Store (gv f_hint) i) ;;
    take_key key destructor i
else take_key key destructor hint.

(** [data = NULL] in every entry of the list [rs] for [key]. *)
Definition clear_storage (rs key : Z) : prog unit :=
loop (fun rs : Z =>
  if rs =? NULL then Ret (inr tt) else
  do keyid <- act (Load (ptr rs).@f_keyid);
  (if keyid =? key then act (Store (ptr rs).@f_data NULL) else Ret tt) ;;
  do next <- act (Load (ptr rs).@f_next);
  Ret (inl next)) rs.

Definition pthread_key_delete (key : Z) : prog Z :=
if (key <? 0) || (PTHREAD_KEYS_MAX <=? key) then Ret EINVAL else
_spinlock (gv f_rkeyslock) ;;
do used <- act (Load (rkey key).@f_used);
do rv <- (if used =? 0 then Ret EINVAL
          else
            act (Store (rkey key).@f_used 0) ;;
            act (Store (rkey key).@f_destructor NULL) ;;
            do rs <- act (Load (ptr initial_thread).@f_local_storage);
            clear_storage rs key ;;
            Ret 0);
_spinunlock (gv f_rkeyslock) ;;
Ret rv.

(** The entry of [key] in the list [rs], or [NULL]. *)
Definition lookup_storage (rs key : Z) : prog Z :=
loop (fun rs : Z =>
  if rs =? NULL then Ret (inr rs) else
  do keyid <- act (Load (ptr rs).@f_keyid);
  if keyid =? key then Ret (inr rs) else
  do next <- act (Load (ptr rs).@f_next);
  Ret (inl next)) rs.

Definition _rthread_findstorage (key : Z) : prog Z :=
do used <- act (Load (rkey key).@f_used);
if used =? 0 then Ret NULL else
do self <- pthread_self;
do rs0 <- act (Load (ptr self).@f_local_storage);
do rs <- lookup_storage rs0 key;
if negb (rs =? NULL) then Ret rs else
do rs <- act (Calloc storage_struct);
if rs =? NULL then Ret NULL else
act (Store (ptr rs).@f_keyid key) ;;
act (Store (ptr rs).@f_data NULL) ;;
do ls <- act (Load (ptr self).@f_local_storage);
act (Store (ptr rs).@f_next ls) ;;
act (Store (ptr self).@f_local_storage rs) ;;
Ret rs.

Definition pthread_getspecific (key : Z) : prog Z :=
if (key <? 0) || (PTHREAD_KEYS_MAX <=? key) then Ret NULL else
do rs <- _rthread_findstorage key;
if rs =? NULL then Ret NULL else act (Load (ptr rs).@f_data).

Definition pthread_setspecific (key data : Z) : prog Z :=
if (key <? 0) || (PTHREAD_KEYS_MAX <=? key) then Ret EINVAL else
do rs <- _rthread_findstorage key;
if rs =? NULL then Ret ENOMEM else
act (Store (ptr rs).@f_data data) ;;
Ret 0.

(** One pass over the list: the destructor of every non-null value is called
  with the key lock released. *)
Definition destructor_pass (thread : Z) : prog unit :=
do rs0 <- act (Load (ptr thread).@f_local_storage);
loop (fun rs : Z =>
  if rs =? NULL then Ret (inr tt) else
  do data <- act (Load (ptr rs).@f_data);
  (if data =? NULL then Ret tt else
     do keyid <- act (Load (ptr rs).@f_keyid);
     do d <- act (Load (rkey keyid).@f_destructor);
     if d =? NULL then Ret tt else
     act (Store (ptr rs).@f_data NULL) ;;
     _spinunlock (gv f_rkeyslock) ;;
     act (CallFn d data) ;;
     _spinlock (gv f_rkeyslock)) ;;
  do next <- act (Load (ptr rs).@f_next);
  Ret (inl next)) rs0.

Definition free_storage (thread : Z) : prog unit :=
loop (fun _ : unit =>
  do rs <- act (Load (ptr thread).@f_local_storage);
  if rs =? NULL then Ret (inr tt) else
  do next <- act (Load (ptr rs).@f_next);
  act (Store (ptr thread).@f_local_storage next) ;;
  act (Free rs) ;;
  Ret (inl tt)) tt.

Definition _rthread_tls_destructors (thread : Z) : prog unit :=
_spinlock (gv f_rkeyslock) ;;
loop (fun i : Z =>
  if i <? PTHREAD_DESTRUCTOR_ITERATIONS then
    destructor_pass thread ;;
    Ret (inl (i + 1))
  else Ret (inr tt)) 0 ;;
free_storage thread ;;
_spinunlock (gv f_rkeyslock).

End Tls.

(** ** Thread-specific values

    The storage of a thread is a linked list; [entry] is one element: the
    object, its key and its value. *)
Record entry := Entry { e_obj : Z; e_key : Z; e_data : Z }.

Fixpoint storage (h : heap) (rs : Z) (es : list entry) : Prop :=
  match es with
  | [] => rs = NULL
  | e :: es =>
      rs = e_obj e /\ 0 < e_obj e /\
      h !! (e_obj e, [f_keyid]) = Some (e_key e) /\
      h !! (e_obj e, [f_data]) = Some (e_data e) /\
      exists next, h !! (e_obj e, [f_next]) = Some next /\ storage h next es
  end.

(** The value of a key: that of its first entry, [NULL] when there is none. *)
Fixpoint value_of (key : Z) (es : list entry) : Z :=
  match es with
  | [] => NULL
  | e :: es => if e_key e =? key then e_data e else value_of key es
  end.

Fixpoint find_entry (key : Z) (es : list entry) : Z :=
  match es with
  | [] => NULL
  | e :: es => if e_key e =? key then e_obj e else find_entry key es
  end.

(** The list after the value of the first entry of [key] was set. *)
Fixpoint put (key v : Z) (es : list entry) : list entry :=
  match es with
  | [] => []
  | e :: es => if e_key e =? key then Entry (e_obj e) (e_key e) v :: es else e :: put key v es
  end.

Lemma storage_frame h h' rs es :
  (forall o f, In o (map e_obj es) -> h' !! (o, [f]) = h !! (o, [f])) ->
  storage h rs es -> storage h' rs es.
Proof.
  revert rs. induction es as [| e es IH]; intros rs Hf; simpl; [done |].
  intros (-> & Hp & Hk & Hd & next & Hn & Hs). split; [done |]. split; [done |].
  rewrite !Hf by (by left). split; [done |]. split; [done |]. exists next. split; [done |].
  apply IH; [| done]. intros o f Ho. apply Hf. by right.
Qed.

Lemma storage_pos h rs es o : storage h rs es -> In o (map e_obj es) -> 0 < o.
Proof.
  revert rs. induction es as [| e es IH]; intros rs; simpl; [done |].
  intros (-> & Hp & _ & _ & next & _ & Hs) [<- | Ho]; [done | by eapply IH].
Qed.

Lemma find_entry_in key es :
  find_entry key es = NULL \/ In (find_entry key es) (map e_obj es).
Proof.
  induction es as [| e es IH]; simpl; [by left |]. destruct (e_key e =? key); tauto.
Qed.

Lemma find_entry_value h rs key es :
  storage h rs es -> find_entry key es <> NULL ->
  h !! (find_entry key es, [f_data]) = Some (value_of key es).
Proof.
  revert rs. induction es as [| e es IH]; intros rs; simpl; [done |].
  intros (-> & Hp & Hk & Hd & next & Hn & Hs) Hne. destruct (e_key e =? key); [done |].
  by eapply IH.
Qed.

(** Writing the value of an entry. *)
Lemma storage_put h rs key v es :
  NoDup (map e_obj es) -> storage h rs es -> find_entry key es <> NULL ->
  storage (<[(find_entry key es, [f_data]) := v]> h) rs (put key v es).
Proof.
  revert rs. induction es as [| e es IH]; intros rs; simpl; [done |].
  intros Hnd (-> & Hp & Hk & Hd & next & Hn & Hs) Hne. apply NoDup_cons in Hnd as [Hni Hnd].
  destruct (e_key e =? key) eqn:Ek; simpl.
  - rewrite lookup_insert_eq, !lookup_insert_ne by congruence.
    repeat split; try done. exists next. split; [done |].
    eapply storage_frame; [| done]. intros o f Ho.
    rewrite lookup_insert_ne; [done |]. intros [= <- _]. by apply Hni, list_elem_of_In.
  - assert (e_obj e <> find_entry key es) as Hd'.
    { destruct (find_entry_in key es) as [| Hin]; [done |]. intros E. apply Hni.
      rewrite E. by apply list_elem_of_In. }
    rewrite !lookup_insert_ne by congruence. repeat split; try done.
    exists next. split; [done | by apply IH].
Qed.

Lemma value_of_put_eq key v es :
  find_entry key es <> NULL -> value_of key (put key v es) = v.
Proof.
  induction es as [| e es IH]; simpl; [done |].
  destruct (e_key e =? key) eqn:E; simpl; rewrite E; auto.
Qed.

Lemma value_of_put_ne key key' v es :
  key' <> key -> value_of key' (put key v es) = value_of key' es.
Proof.
  intros Hne. induction es as [| e es IH]; simpl; [done |].
  destruct (e_key e =? key) eqn:E; simpl.
  - by replace (e_key e =? key') with false by lia.
  - by rewrite IH.
Qed.

Lemma put_objs key v es : map e_obj (put key v es) = map e_obj es.
Proof. induction es as [| e es IH]; simpl; [done |]. destruct (e_key e =? key); simpl; by f_equal. Qed.

(** Thread [t], the object [self], has the values [es]. *)
Record tls_at (t : nat) (self : Z) (es : list entry) (w : world) : Prop := {
  tl_started : started t self w;
  tl_fresh : fresh_world w;
  tl_self : self < w_next w;
  tl_storage : exists rs, w_heap w !! (self, [f_local_storage]) = Some rs /\
                 storage (w_heap w) rs es;
  tl_objs : NoDup (map e_obj es);
  tl_below : forall o, In o (map e_obj es) -> 0 < o < w_next w /\ o <> self
}.

Lemma value_of_missing h rs key es :
  storage h rs es -> find_entry key es = NULL -> value_of key es = NULL.
Proof.
  revert rs. induction es as [| e es IH]; intros rs; simpl; [done |].
  intros (-> & Hp & _ & _ & next & _ & Hs). destruct (e_key e =? key); [zconsts; lia |].
  by eapply IH.
Qed.

Section TlsContract.
Context {CB : Callbacks} {HAL : Phal} {HQ : PhalQuiet HAL}.
Context (n t : nat) (self : Z).

Lemma run_lookup_storage {B} rs es key (k : Z -> prog B) w :
  storage (w_heap w) rs es -> (length es < n)%nat ->
  run n t (bind (lookup_storage rs key) k) w = run n t (k (find_entry key es)) w.
Proof.
  intros Hs Hn. unfold lookup_storage. rewrite run_loop_eq.
  revert rs es Hs Hn. generalize n at 1 3. intros j.
  induction j as [| j IH]; intros rs [| e es] Hs Hlen; simpl in Hlen; try lia.
  - simpl in Hs. subst rs. by apply loop_run_exit.
  - destruct Hs as (-> & Hp & Hk & Hd & next & Hnx & Hs). cbn [find_entry].
    destruct (e_key e =? key) eqn:E.
    + apply loop_run_exit. by exec.
    + etrans; [apply loop_run_next | by apply IH; [| lia]]. by exec.
Qed.

(** A new entry in front of the list. *)
Definition push_entry (key rs : Z) (w : world) : world :=
  upd_loc (self, [f_local_storage]) (w_next w)
    (upd_loc (w_next w, [f_next]) rs
      (upd_loc (w_next w, [f_data]) NULL
        (upd_loc (w_next w, [f_keyid]) key (alloc storage_struct w)))).

Lemma push_entry_at es key rs w :
  tls_at t self es w -> w_heap w !! (self, [f_local_storage]) = Some rs ->
  storage (w_heap w) rs es ->
  tls_at t self (Entry (w_next w) key NULL :: es) (push_entry key rs w).
Proof.
  intros [[] Hf Hself _ Hnd Hbelow] Hrs Hs. pose proof (fw_pos _ Hf). unfold push_entry.
  split.
  - split; lk.
  - repeat (apply fresh_world_upd; [| lk]). by apply fresh_world_alloc.
  - simpl. lia.
  - exists (w_next w). split; [lk |]. cbn [storage e_obj e_key e_data].
    repeat split; try lia; try lk. exists rs. split; [lk |].
    eapply storage_frame; [| exact Hs]. intros o f Ho. apply Hbelow in Ho. lk.
  - cbn [map e_obj]. apply NoDup_cons. split; [| done].
    intros Hin%list_elem_of_In. apply Hbelow in Hin. lia.
  - intros o [<- | Ho]; cbn [e_obj]; simpl; [lia |]. apply Hbelow in Ho. lia.
Qed.

(** The entry of a key in use, created when it is missing. *)
Lemma run_findstorage es key u w :
  tls_at t self es w -> (length es < n)%nat -> w_oom w = [] ->
  w_heap w !! (rkey key).@f_used = Some u -> u <> 0 ->
  exists w' es',
    (forall B (k : Z -> prog B),
       run n t (bind (_rthread_findstorage key) k) w = run n t (k (find_entry key es')) w') /\
    tls_at t self es' w' /\ find_entry key es' <> NULL /\
    (forall key', value_of key' es' = value_of key' es) /\
    (length es' <= S (length es))%nat /\ w_oom w' = [] /\
    (forall l, l.1 < 0 -> l <> (self, [f_local_storage]) -> w_heap w' !! l = w_heap w !! l).
Proof.
  intros Ht Hn Hoom Hu Hu0. assert (has_memory w) as Hm by (unfold has_memory; by rewrite Hoom).
  pose proof Ht as [Hst Hf Hself (rs & Hrs & Hs) Hnd Hbelow].
  assert (forall B (k : Z -> prog B),
    run n t (bind (_rthread_findstorage key) k) w
    = run n t (bind (if negb (find_entry key es =? NULL) then Ret (find_entry key es) else
        do rs <- act (Calloc storage_struct);
        if rs =? NULL then Ret NULL else
        act (Store (ptr rs).@f_keyid key) ;;
        act (Store (ptr rs).@f_data NULL) ;;
        do ls <- act (Load (ptr self).@f_local_storage);
        act (Store (ptr rs).@f_next ls) ;;
        act (Store (ptr self).@f_local_storage rs) ;;
        Ret rs) k) w) as Hpre.
  { intros B k. unfold _rthread_findstorage. destruct Hst. exec.
    rewrite (run_self _ _ 1 self) by done. exec. by rewrite (run_lookup_storage rs es). }
  pose proof (fw_pos _ Hf). destruct (find_entry key es =? NULL) eqn:E.
  - exists (push_entry key rs w), (Entry (w_next w) key NULL :: es).
    cbn [find_entry value_of e_key e_obj e_data]. rewrite Z.eqb_refl.
    split; [intros B k; rewrite Hpre; cbn [negb]; by exec |].
    split; [by apply push_entry_at |]. split; [zconsts; lia |]. split.
    { intros key'. destruct (key =? key') eqn:Ek; [| done]. apply Z.eqb_eq in Ek as <-.
      by rewrite (value_of_missing (w_heap w) rs) by (done || lia). }
    split; [simpl; lia |]. split; [unfold push_entry, alloc; simpl; by rewrite Hoom |].
    intros l Hl Hne. unfold push_entry. lk.
  - exists w, es. split; [intros B k; by rewrite Hpre |]. split; [done |].
    split; [lia |]. split; [done |]. split; [lia |]. by split.
Qed.

(** The key is in range and in use. *)
Record key_ok (key : Z) (w : world) : Prop := {
  ko_range : 0 <= key < PTHREAD_KEYS_MAX;
  ko_used : exists u, w_heap w !! (rkey key).@f_used = Some u /\ u <> 0
}.

Lemma key_ok_frame key w w' :
  key_ok key w ->
  (forall l, l.1 < 0 -> l <> (self, [f_local_storage]) -> w_heap w' !! l = w_heap w !! l) ->
  key_ok key w'.
Proof.
  intros [Hr (u & Hu & Hu0)] Hf. split; [done |]. exists u. split; [| done].
  by rewrite Hf by first [done | neq].
Qed.

(** The contract of the two calls: what is read is what was last written, key
    by key; [m] and [m'] are the values before and after. *)
Lemma run_getspecific es key w :
  tls_at t self es w -> (length es < n)%nat -> w_oom w = [] -> key_ok key w ->
  exists w' es',
    run n t (pthread_getspecific key) w = Done w' (value_of key es) /\
    tls_at t self es' w' /\ (forall key', value_of key' es' = value_of key' es) /\
    (length es' <= S (length es))%nat /\ w_oom w' = [] /\
    (forall key', key_ok key' w -> key_ok key' w').
Proof.
  intros Ht Hn Hoom Hk. pose proof Hk as [Hr (u & Hu & Hu0)].
  destruct (run_findstorage es key u w) as (w' & es' & Hrun & Ht' & Hne & Hv & Hl & Ho & Hf);
    try done.
  exists w', es'. split.
  - unfold pthread_getspecific.
    replace ((key <? 0) || (PTHREAD_KEYS_MAX <=? key)) with false by (symmetry; xbool).
    rewrite Hrun. replace (find_entry key es' =? NULL) with false by (symmetry; xbool).
    destruct Ht'. destruct tl_storage0 as (rs & _ & Hs). rewrite <- Hv.
    erewrite run_load_end; [done | by eapply find_entry_value].
  - split; [done |]. split; [done |]. split; [done |]. split; [done |].
    intros key' Hk'. by eapply key_ok_frame.
Qed.

Lemma tls_at_put es key v w :
  tls_at t self es w -> find_entry key es <> NULL ->
  tls_at t self (put key v es) (upd_loc (find_entry key es, [f_data]) v w).
Proof.
  intros [Hst Hf Hself (rs & Hrs & Hs) Hnd Hbelow] Hne.
  assert (0 < find_entry key es) as Hpos.
  { destruct (find_entry_in key es) as [| Hin]; [done |]. apply Hbelow in Hin. lia. }
  split.
  - by apply started_upd_pos.
  - apply fresh_world_upd; [done |]. eexists. by eapply find_entry_value.
  - done.
  - exists rs. split; [by rewrite upd_lookup_ne |]. by apply storage_put.
  - by rewrite put_objs.
  - rewrite put_objs. apply Hbelow.
Qed.

Lemma run_setspecific es key v w :
  tls_at t self es w -> (length es < n)%nat -> w_oom w = [] -> key_ok key w ->
  exists w' es',
    run n t (pthread_setspecific key v) w = Done w' 0 /\
    tls_at t self es' w' /\ value_of key es' = v /\
    (forall key', key' <> key -> value_of key' es' = value_of key' es) /\
    (length es' <= S (length es))%nat /\ w_oom w' = [] /\
    (forall key', key_ok key' w -> key_ok key' w').
Proof.
  intros Ht Hn Hoom Hk. pose proof Hk as [Hr (u & Hu & Hu0)].
  destruct (run_findstorage es key u w) as (w' & es' & Hrun & Ht' & Hne & Hv & Hl & Ho & Hf);
    try done.
  assert (is_Some (w_heap w' !! (find_entry key es', [f_data]))) as Hd.
  { destruct Ht'. destruct tl_storage0 as (rs & _ & Hs). eexists. by eapply find_entry_value. }
  eexists _, (put key v es'). split.
  { unfold pthread_setspecific.
    replace ((key <? 0) || (PTHREAD_KEYS_MAX <=? key)) with false by (symmetry; xbool).
    rewrite Hrun. replace (find_entry key es' =? NULL) with false by (symmetry; xbool).
    by rewrite run_store. }
  split; [by apply tls_at_put |]. split; [by apply value_of_put_eq |].
  split; [intros key' Hk'; by rewrite value_of_put_ne, Hv |].
  split; [by rewrite <- (length_map e_obj), put_objs, length_map |]. split; [done |].
  intros key' Hk'. eapply key_ok_frame; [done |]. intros l Hl' Hl2.
  rewrite upd_lookup_ne; [by apply Hf |]. intros <-. simpl in Hl'.
  destruct (find_entry_in key es') as [| Hin]; [done |].
  destruct Ht'. apply tl_below0 in Hin. lia.
Qed.

(** C7: a value written under a key is the value read under it, and the other
    keys of the thread keep theirs. *)
Theorem tls_set_get es key key' v w :
  tls_at t self es w -> (S (length es) < n)%nat -> w_oom w = [] ->
  key_ok key w -> key_ok key' w ->
  exists w', run n t (do rc <- pthread_setspecific key v;
                      if rc =? 0 then pthread_getspecific key' else Ret (-1)) w
             = Done w' (if key' =? key then v else value_of key' es).
Proof.
  intros Ht Hn Hoom Hk Hk'.
  destruct (run_setspecific es key v w) as (w1 & es1 & E1 & Ht1 & Hv1 & Hv1' & Hl1 & Ho1 & Hk1);
    try done; [lia |].
  destruct (run_getspecific es1 key' w1) as (w2 & es2 & E2 & _);
    try done; [lia | by apply Hk1 |].
  exists w2. rewrite run_bind, E1. cbn [obind]. change (0 =? 0) with true. cbv iota.
  rewrite E2. destruct (key' =? key) eqn:E; [| by rewrite Hv1' by lia].
  apply Z.eqb_eq in E as ->. by rewrite Hv1.
Qed.
End TlsContract.

(** ** Keys *)
Section KeyContract.
Context {CB : Callbacks} {HAL : Phal} {HQ : PhalQuiet HAL}.
Context (n t : nat).

(** The key table: [used i] is the flag of key [i]. *)
Record keys_at (hint : Z) (used : Z -> Z) (w : world) : Prop := {
  ks_lock : w_heap w !! gv f_rkeyslock = Some ATOMIC_LOCK_UNLOCKED;
  ks_hint : w_heap w !! gv f_hint = Some hint;
  ks_range : 0 <= hint < PTHREAD_KEYS_MAX;
  ks_used : forall i, 0 <= i < PTHREAD_KEYS_MAX ->
    w_heap w !! (rkey i).@f_used = Some (used i) /\
    is_Some (w_heap w !! (rkey i).@f_destructor)
}.

(** The search stops at the first unused key from [i] on. *)
Lemma run_find_unused {B} used (k : Z -> prog B) w :
  (forall i, 0 <= i < PTHREAD_KEYS_MAX -> w_heap w !! (rkey i).@f_used = Some (used i)) ->
  PTHREAD_KEYS_MAX < Z.of_nat n ->
  exists j, 0 <= j <= PTHREAD_KEYS_MAX /\ (forall x, 0 <= x < j -> used x <> 0) /\
    (j < PTHREAD_KEYS_MAX -> used j = 0) /\
    run n t (bind find_unused_key k) w = run n t (k j) w.
Proof.
  intros Hu Hn. unfold find_unused_key. rewrite run_loop_eq.
  cut (forall m i, 0 <= i <= PTHREAD_KEYS_MAX -> PTHREAD_KEYS_MAX - i < Z.of_nat m ->
    (forall x, 0 <= x < i -> used x <> 0) ->
    exists j, 0 <= j <= PTHREAD_KEYS_MAX /\ (forall x, 0 <= x < j -> used x <> 0) /\
      (j < PTHREAD_KEYS_MAX -> used j = 0) /\
      loop_run n t (fun i : Z =>
        if i <? PTHREAD_KEYS_MAX then
          do used <- act (Load (rkey i).@f_used);
          if used =? 0 then Ret (inr i) else Ret (inl (i + 1))
        else Ret (inr i)) k m i w = run n t (k j) w).
  { intros H. apply H; zconsts; lia. }
  induction m as [| m IH]; intros i Hi Hm Hx; [lia |].
  destruct (i <? PTHREAD_KEYS_MAX) eqn:Ei.
  - destruct (used i =? 0) eqn:E.
    + exists i. split; [lia |]. split; [done |]. split; [lia |]. apply loop_run_exit.
      exec. rewrite (run_load n t _ (used i)) by (apply Hu; lia). by exec.
    + destruct (IH (i + 1)) as (j & Hj & Hall & Hjz & Hrun); [lia | lia | |].
      { intros x Hx'. destruct (decide (x = i)) as [-> |]; [lia | apply Hx; lia]. }
      exists j. split; [done |]. split; [done |]. split; [done |].
      etrans; [apply loop_run_next | exact Hrun].
      exec. rewrite (run_load n t _ (used i)) by (apply Hu; lia). by exec.
  - exists i. split; [lia |]. split; [done |]. split; [lia |]. apply loop_run_exit. by exec.
Qed.

Definition took_key (kp : Z * list fld) (d i : Z) (w : world) : world :=
  let w := upd_loc (gv f_hint) (i + 1) (upd_loc kp i (upd_loc (rkey i).@f_destructor d
             (upd_loc (rkey i).@f_used 1 w))) in
  upd_loc (gv f_rkeyslock) ATOMIC_LOCK_UNLOCKED
    (if PTHREAD_KEYS_MAX <=? i + 1 then upd_loc (gv f_hint) 0 w else w).

Lemma run_take_key kp d i hint used w :
  0 <= i < PTHREAD_KEYS_MAX -> 0 < kp.1 -> is_Some (w_heap w !! kp) ->
  is_Some (w_heap w !! gv f_rkeyslock) -> w_heap w !! gv f_hint = Some hint ->
  (forall i, 0 <= i < PTHREAD_KEYS_MAX ->
    w_heap w !! (rkey i).@f_used = Some (used i) /\
    is_Some (w_heap w !! (rkey i).@f_destructor)) ->
  run n t (take_key kp d i) w = Done (took_key kp d i w) 0.
Proof.
  intros Hi Hkp Hv Hl Hh Hu. destruct (Hu i Hi) as [H1 H2]. unfold take_key, took_key. exec.
  destruct (PTHREAD_KEYS_MAX <=? i + 1) eqn:E; exec; rewrite run_spinunlock by lk; by exec.
Qed.

Lemma took_key_at kp d i hint used w :
  0 <= i < PTHREAD_KEYS_MAX -> 0 < kp.1 -> w_heap w !! gv f_hint = Some hint ->
  (forall i, 0 <= i < PTHREAD_KEYS_MAX ->
    w_heap w !! (rkey i).@f_used = Some (used i) /\
    is_Some (w_heap w !! (rkey i).@f_destructor)) ->
  keys_at ((i + 1) mod PTHREAD_KEYS_MAX) (fun x => if x =? i then 1 else used x)
    (took_key kp d i w) /\
  w_heap (took_key kp d i w) !! kp = Some i /\
  w_heap (took_key kp d i w) !! (rkey i).@f_destructor = Some d.
Proof.
  intros Hi Hkp Hh Hu. unfold took_key. cbv zeta.
  replace ((i + 1) mod PTHREAD_KEYS_MAX) with (if PTHREAD_KEYS_MAX <=? i + 1 then 0 else i + 1).
  2: { destruct (PTHREAD_KEYS_MAX <=? i + 1) eqn:E; [| rewrite Z.mod_small; lia].
       assert (i = 255) as -> by (zconsts; lia). done. }
  destruct (PTHREAD_KEYS_MAX <=? i + 1) eqn:E; (split; [split | split]);
    try solve [lk | zconsts; lia]; intros x Hx; destruct (Hu x Hx) as [H1 H2];
    (destruct (x =? i) eqn:Ex; [apply Z.eqb_eq in Ex as -> | assert (x <> i) by lia]);
    split; lk.
Qed.

Lemma keys_at_locked hint used v w :
  keys_at hint used w ->
  forall i, 0 <= i < PTHREAD_KEYS_MAX ->
    w_heap (upd_loc (gv f_rkeyslock) v w) !! (rkey i).@f_used = Some (used i) /\
    is_Some (w_heap (upd_loc (gv f_rkeyslock) v w) !! (rkey i).@f_destructor).
Proof. intros [_ _ _ Hu] i Hi. destruct (Hu i Hi). split; lk. Qed.

(** The body of the call once the lock is taken. *)
Lemma run_key_create_from kp d hint used w (r : outcome Z) :
  keys_at hint used w -> (0 < n)%nat ->
  run n t (if negb (used hint =? 0) then
      do i <- find_unused_key;
      if i =? PTHREAD_KEYS_MAX then _spinunlock (gv f_rkeyslock) ;; Ret EAGAIN
      else act (Store (gv f_hint) i) ;; take_key kp d i
    else take_key kp d hint) (upd_loc (gv f_rkeyslock) ATOMIC_LOCK_LOCKED w) = r ->
  run n t (pthread_key_create kp d) w = r.
Proof.
  intros Hk Hn <-. pose proof (keys_at_locked _ _ ATOMIC_LOCK_LOCKED _ Hk) as Hu.
  destruct Hk. destruct n as [| j]; [lia |]. unfold pthread_key_create.
  rewrite run_spinlock by done. exec.
  rewrite (run_load _ t _ (used hint)) by (by apply Hu). done.
Qed.

(** The key at the hint is unused: it is taken. *)
Lemma run_key_create_hint kp d hint used w :
  keys_at hint used w -> 0 < kp.1 -> is_Some (w_heap w !! kp) -> (0 < n)%nat ->
  used hint = 0 ->
  exists w1, w1 = upd_loc (gv f_rkeyslock) ATOMIC_LOCK_LOCKED w /\
    run n t (pthread_key_create kp d) w = Done (took_key kp d hint w1) 0 /\
    keys_at ((hint + 1) mod PTHREAD_KEYS_MAX) (fun x => if x =? hint then 1 else used x)
      (took_key kp d hint w1) /\
    w_heap (took_key kp d hint w1) !! kp = Some hint /\
    w_heap (took_key kp d hint w1) !! (rkey hint).@f_destructor = Some d.
Proof.
  intros Hk Hkp Hv Hn E. eexists. split; [done |].
  pose proof (keys_at_locked _ _ ATOMIC_LOCK_LOCKED _ Hk) as Hu. split.
  - eapply run_key_create_from; [done | done |]. rewrite E. destruct Hk.
    eapply run_take_key; try done; lk.
  - destruct Hk. by apply (took_key_at _ _ _ hint); try done; lk.
Qed.

(** Otherwise the table is searched. *)
Lemma run_key_create_search kp d hint used w :
  keys_at hint used w -> 0 < kp.1 -> is_Some (w_heap w !! kp) ->
  PTHREAD_KEYS_MAX < Z.of_nat n -> used hint <> 0 ->
  (exists i w', 0 <= i < PTHREAD_KEYS_MAX /\ used i = 0 /\
    run n t (pthread_key_create kp d) w = Done w' 0 /\
    keys_at ((i + 1) mod PTHREAD_KEYS_MAX) (fun x => if x =? i then 1 else used x) w' /\
    w_heap w' !! kp = Some i /\ w_heap w' !! (rkey i).@f_destructor = Some d) \/
  (run n t (pthread_key_create kp d) w = Done w EAGAIN /\
   forall i, 0 <= i < PTHREAD_KEYS_MAX -> used i <> 0).
Proof.
  intros Hk Hkp Hv Hn E. pose proof (keys_at_locked _ _ ATOMIC_LOCK_LOCKED _ Hk) as Hu.
  destruct (run_find_unused used (fun i =>
      if i =? PTHREAD_KEYS_MAX then _spinunlock (gv f_rkeyslock) ;; Ret EAGAIN
      else act (Store (gv f_hint) i) ;; take_key kp d i)
    (upd_loc (gv f_rkeyslock) ATOMIC_LOCK_LOCKED w))
    as (i & Hi & Hall & Hz & Hfind); [intros i Hi; by apply Hu | done |].
  assert (forall r, run n t (if i =? PTHREAD_KEYS_MAX
        then _spinunlock (gv f_rkeyslock) ;; Ret EAGAIN
        else act (Store (gv f_hint) i) ;; take_key kp d i)
      (upd_loc (gv f_rkeyslock) ATOMIC_LOCK_LOCKED w) = r ->
    run n t (pthread_key_create kp d) w = r) as Hrun.
  { intros r Hr. eapply run_key_create_from; [done | zconsts; lia |].
    replace (used hint =? 0) with false by lia. cbn [negb]. by rewrite Hfind. }
  destruct (i =? PTHREAD_KEYS_MAX) eqn:Ei; destruct Hk.
  - right. split; [| intros x Hx; apply Hall; lia]. apply Hrun.
    rewrite run_spinunlock by lk. by rewrite upd_loc_upd, upd_loc_id.
  - left. exists i. eexists. split; [lia |]. split; [apply Hz; lia |].
    assert (forall x, 0 <= x < PTHREAD_KEYS_MAX ->
      w_heap (upd_loc (gv f_hint) i (upd_loc (gv f_rkeyslock) ATOMIC_LOCK_LOCKED w))
        !! (rkey x).@f_used = Some (used x) /\
      is_Some (w_heap (upd_loc (gv f_hint) i (upd_loc (gv f_rkeyslock) ATOMIC_LOCK_LOCKED w))
        !! (rkey x).@f_destructor)) as Hu2
      by (intros x Hx; destruct (ks_used0 x Hx); split; lk).
    split; [apply Hrun; rewrite run_store by lk; eapply (run_take_key _ _ _ i used); try done;
            try lk; lia |].
    by apply (took_key_at _ _ _ i); try done; [lia | lk].
Qed.

(** a new key was unused and is in use now, with its destructor; the call
    fails only when all [PTHREAD_KEYS_MAX] keys are in use. *)
Theorem key_create_spec kp d hint used w :
  keys_at hint used w -> 0 < kp.1 -> is_Some (w_heap w !! kp) ->
  PTHREAD_KEYS_MAX < Z.of_nat n ->
  exists w' rc, run n t (pthread_key_create kp d) w = Done w' rc /\
    ((rc = 0 /\ exists i, 0 <= i < PTHREAD_KEYS_MAX /\ used i = 0 /\
        w_heap w' !! kp = Some i /\ w_heap w' !! (rkey i).@f_destructor = Some d /\
        keys_at ((i + 1) mod PTHREAD_KEYS_MAX) (fun x => if x =? i then 1 else used x) w') \/
     (rc = EAGAIN /\ w' = w /\ forall i, 0 <= i < PTHREAD_KEYS_MAX -> used i <> 0)).
Proof.
  intros Hk Hkp Hv Hn. destruct (decide (used hint = 0)) as [E | E].
  - destruct (run_key_create_hint kp d hint used w) as (w1 & _ & Hrun & H1 & H2 & H3); try done;
      [zconsts; lia |].
    eexists _, 0. split; [done |]. left. split; [done |]. exists hint. by destruct Hk.
  - destruct (run_key_create_search kp d hint used w)
      as [(i & w' & Hi & Hz & Hrun & H1 & H2 & H3) | [Hrun Hall]]; try done.
    + exists w', 0. split; [done |]. left. split; [done |]. by exists i.
    + exists w, EAGAIN. split; [done |]. by right.
Qed.

(** Deleting a key resets the values of [_initial_thread] only: here it has
    none, and another thread [self] keeps its own. *)
Lemma run_key_delete {B} hint used self es key (k : Z -> prog B) w :
  keys_at hint used w -> tls_at t self es w -> 0 <= key < PTHREAD_KEYS_MAX -> used key <> 0 ->
  w_heap w !! (initial_thread, [f_local_storage]) = Some NULL -> self <> initial_thread ->
  (0 < n)%nat ->
  exists w', run n t (bind (pthread_key_delete key) k) w = run n t (k 0) w' /\
    keys_at hint (fun x => if x =? key then 0 else used x) w' /\ tls_at t self es w' /\
    (forall l, 0 <= l.1 -> w_heap w' !! l = w_heap w !! l) /\ w_oom w' = w_oom w.
Proof.
  intros [Hl Hh Hr Hu] Ht Hk Huk Hi Hself Hn. destruct (Hu key Hk) as [Hu1 Hu2].
  destruct n as [| j]; [lia |]. eexists. split.
  { unfold pthread_key_delete.
    replace ((key <? 0) || (PTHREAD_KEYS_MAX <=? key)) with false by (symmetry; xbool).
    rewrite run_bind_assoc, run_spinlock by done. exec. unfold clear_storage.
    rewrite run_loop_eq. erewrite loop_run_exit by done. exec.
    rewrite run_spinunlock by lk. by exec. }
  split; [| split; [| split; [intros l Hl'; lk | done]]].
  - split; [lk | lk | done |]. intros x Hx. destruct (Hu x Hx) as [H1 H2].
    destruct (x =? key) eqn:Ex; [apply Z.eqb_eq in Ex as -> | assert (x <> key) by lia]; split; lk.
  - destruct Ht as [[] Hf Hs (rs & Hrs & Hst) Hnd Hb]. split; try done.
    + split; lk.
    + by repeat (apply fresh_world_upd; [| lk]).
    + exists rs. split; [lk |]. eapply storage_frame; [| exact Hst].
      intros o f Ho. apply Hb in Ho. lk.
Qed.

Lemma took_key_values self es kp d i u v w :
  tls_at t self es w -> 0 < kp.1 -> is_Some (w_heap w !! kp) ->
  (forall o, In o (map e_obj es) -> kp.1 <> o) -> kp.1 <> self ->
  0 <= i < PTHREAD_KEYS_MAX ->
  w_heap w !! (rkey i).@f_used = Some u -> w_heap w !! (rkey i).@f_destructor = Some v ->
  is_Some (w_heap w !! gv f_hint) -> is_Some (w_heap w !! gv f_rkeyslock) ->
  tls_at t self es (took_key kp d i (upd_loc (gv f_rkeyslock) ATOMIC_LOCK_LOCKED w)).
Proof.
  intros [[] Hf Hs (rs & Hrs & Hst) Hnd Hb] Hkp Hv Hobj Hself Hi Hu Hd Hh Hl.
  unfold took_key. cbv zeta.
  destruct (PTHREAD_KEYS_MAX <=? i + 1); (split; try done;
    [ split; lk
    | repeat (apply fresh_world_upd; [| lk]); done
    | exists rs; split; [lk |]; eapply storage_frame; [| exact Hst];
      intros o f Ho; pose proof (Hobj o Ho); apply Hb in Ho; lk ]).
Qed.

(** a key that is deleted and handed out again reads back, in a thread
    other than [_initial_thread], the value of the deleted key. *)
Theorem key_reuse_stale self es key used kp d w :
  keys_at key used w -> tls_at t self es w -> used key <> 0 ->
  w_heap w !! (initial_thread, [f_local_storage]) = Some NULL -> self <> initial_thread ->
  0 < kp.1 -> is_Some (w_heap w !! kp) ->
  (forall o, In o (map e_obj es) -> kp.1 <> o) -> kp.1 <> self ->
  w_oom w = [] -> (length es < n)%nat ->
  exists w', run n t (pthread_key_delete key ;;
                      pthread_key_create kp d ;;
                      do key' <- act (Load kp);
                      do v <- pthread_getspecific key';
                      Ret (key', v)) w = Done w' (key, value_of key es).
Proof.
  intros Hk Ht Hu Hi Hself Hkp Hv Hobj Hks Hoom Hn. pose proof (ks_range _ _ _ Hk) as Hr.
  destruct (run_key_delete key used self es key (fun _ => pthread_key_create kp d ;;
    do key' <- act (Load kp); do v <- pthread_getspecific key'; Ret (key', v)) w)
    as (w1 & E1 & Hk1 & Ht1 & Hf1 & Ho1); try done; [lia |].
  destruct (run_key_create_hint kp d key (fun x => if x =? key then 0 else used x) w1)
    as (w1' & -> & E2 & Hk2 & Hkp2 & _); try done;
    [by rewrite Hf1 by lia | lia | by rewrite Z.eqb_refl |].
  set (w2 := took_key kp d key _) in *.
  assert (tls_at t self es w2) as Ht2.
  { pose proof Hk1 as [? ? _ Hu1]. destruct (Hu1 key Hr) as [? [v ?]].
    eapply took_key_values; try done; try (by rewrite Hf1 by lia); by eexists. }
  assert (key_ok key w2) as Hko.
  { split; [done |]. destruct Hk2 as [_ _ _ Hu2]. destruct (Hu2 key Hr) as [H _].
    eexists. split; [exact H | by rewrite Z.eqb_refl]. }
  assert (w_oom w2 = []) as Hoom2.
  { unfold w2, took_key. cbv zeta. by destruct (PTHREAD_KEYS_MAX <=? key + 1); simpl; rewrite Ho1. }
  destruct (run_getspecific n t self es key w2) as (w3 & es3 & E3 & _); try done.
  exists w3. rewrite E1, run_bind, E2. cbn [obind]. exec.
  by rewrite run_bind, E3.
Qed.
End KeyContract.
