(* ===== verification/Thread.v ===== *)
(** * Threads: rthread_thread.c and [pthread_exit] of rthread_internal.c *)

From stdpp Require Import base list gmap strings.
From Stdlib Require Import ZArith Lia.
From S2P Require Import Prelude CMem Prog PthreadH Phal Internal Exec Sem Tls.
Local Open Scope Z_scope.
Local Open Scope prog_scope.

(** Function pointer of [_rthread_start]. *)
Definition fn_rthread_start : Z := -1.

Section Thread.
Context {HAL : Phal}.

Definition _rthread_free (thread : Z) : prog unit :=
_spinlock (gv f_thread_gc_lock) ;;
act (QInsertTail (gv f_thread_gc_list) thread) ;;
_spinunlock (gv f_thread_gc_lock).

Definition _rthread_release (thread : Z) : prog unit :=
_spinlock (gv f_thread_lock) ;;
act (QRemove (gv f_thread_list) thread) ;;
_spinunlock (gv f_thread_lock) ;;
_spinlock (ptr thread).@f_flags_lock ;;
do flags <- act (Load (ptr thread).@f_flags);
if negb (Z.land flags THREAD_DETACHED =? 0) then
  _spinunlock (ptr thread).@f_flags_lock ;;
  _rthread_free thread
else
  act (Store (ptr thread).@f_flags (Z.lor flags THREAD_DONE)) ;;
  _spinunlock (ptr thread).@f_flags_lock ;;
  _sem_post (ptr thread).@f_donesem ;;
  Ret tt.

(** Every value of [key] in every live thread is reset. *)
Definition _thread_key_zero (key : Z) : prog unit :=
do threads <- act (QList (gv f_thread_list));
loop (fun q : list Z =>
  match q with
  | [] => Ret (inr tt)
  | thread :: q =>
      do rs <- act (Load (ptr thread).@f_local_storage);
      clear_storage rs key ;;
      Ret (inl q)
  end) threads.

(** First thread of the garbage list whose [THREAD_DONE] flag is set. *)
Definition find_done (q : list Z) : prog (option Z) :=
loop (fun q : list Z =>
  match q with
  | [] => Ret (inr None)
  | thread :: q =>
      do flags <- act (Load (ptr thread).@f_flags);
      if Z.land flags THREAD_DONE =? 0 then Ret (inl q) else Ret (inr (Some thread))
  end) q.

Definition reap_thread (thread : Z) : prog unit :=
if negb (thread =? initial_thread) then
  _rthread_debug 3 "rthread reaping" ;;
  do res <- phal_thread_destroy (ptr thread).@f_tib_tid;
  (if negb (res =? 0) then _rthread_debug 3 "Failed to free tid" else Ret tt) ;;
  act (Free thread)
else _rthread_debug 3 "rthread reaping (initial)".

(** One round of the reaper: free the first finished thread, if any. *)
Definition reaper_round (_ : unit) : prog (unit + unit)%type :=
_spinlock (gv f_thread_gc_lock) ;;
do q <- act (QList (gv f_thread_gc_list));
do found <- find_done q;
match found with
| Some thread =>
    act (QRemove (gv f_thread_gc_list) thread) ;;
    _spinunlock (gv f_thread_gc_lock) ;;
    reap_thread thread ;;
    Ret (inl tt)
| None =>
    _spinunlock (gv f_thread_gc_lock) ;;
    Ret (inr tt)
end.

Definition _rthread_reaper : prog unit := loop reaper_round tt.

Definition pthread_join (thread : Z) (retval : Z * list fld) : prog Z :=
do pt <- act (Load (gv f_post_threaded));
(if negb (pt =? 0) then
   act (Print "great scott! serious repercussions on future events!") ;;
   act Abort
 else Ret tt) ;;
ensure_ready ;;
do self <- pthread_self;
do e <- (if thread =? NULL then Ret EINVAL
         else if thread =? self then Ret EDEADLK
         else
           do flags <- act (Load (ptr thread).@f_flags);
           if negb (Z.land flags THREAD_DETACHED =? 0) then Ret EINVAL
           else
             do e <- _sem_wait (ptr thread).@f_donesem false None
                       (ptr self).@f_delayed_cancel;
             if e =? 0 then
               (if is_null retval then Ret tt
                else
                  do rv <- act (Load (ptr thread).@f_retval);
                  act (Store retval rv)) ;;
               do flags <- act (Load (ptr thread).@f_flags);
               (if Z.land flags THREAD_DETACHED =? 0 then _rthread_free thread
                else Ret tt) ;;
               Ret e
             else Ret e);
_rthread_reaper ;;
Ret e.

Definition pthread_detach (thread : Z) : prog Z :=
_spinlock (ptr thread).@f_flags_lock ;;
do flags <- act (Load (ptr thread).@f_flags);
do rc <- (if negb (Z.land flags THREAD_DETACHED =? 0) then
            _spinunlock (ptr thread).@f_flags_lock ;;
            Ret EINVAL
          else if negb (Z.land flags THREAD_DONE =? 0) then
            _spinunlock (ptr thread).@f_flags_lock ;;
            _rthread_free thread ;;
            Ret 0
          else
            act (Store (ptr thread).@f_flags (Z.lor flags THREAD_DETACHED)) ;;
            _spinunlock (ptr thread).@f_flags_lock ;;
            Ret 0);
_rthread_reaper ;;
Ret rc.

(** The attributes, start routine and flags of a new thread. *)
Definition init_thread (thread : Z) (attr : Z * list fld) (start_routine arg : Z)
: prog unit :=
act (Store (ptr thread).@f_flags_lock ATOMIC_LOCK_UNLOCKED) ;;
act (Store (ptr thread).@f_fn start_routine) ;;
act (Store (ptr thread).@f_arg arg) ;;
(if is_null attr then copy_struct (gv f_attr_default) (ptr thread).@f_attr attr_struct
 else
   do a <- act (Load attr);
   copy_struct (ptr a) (ptr thread).@f_attr attr_struct) ;;
do inherit <- act (Load (ptr thread).@f_attr.@f_sched_inherit);
(if inherit =? PTHREAD_INHERIT_SCHED then
   do self <- pthread_self;
   do policy <- act (Load (ptr self).@f_attr.@f_sched_policy);
   act (Store (ptr thread).@f_attr.@f_sched_policy policy) ;;
   do param <- act (Load (ptr self).@f_attr.@f_sched_param);
   act (Store (ptr thread).@f_attr.@f_sched_param param)
 else Ret tt) ;;
do detach <- act (Load (ptr thread).@f_attr.@f_detach_state);
if detach =? PTHREAD_CREATE_DETACHED then
  do flags <- act (Load (ptr thread).@f_flags);
  act (Store (ptr thread).@f_flags (Z.lor flags THREAD_DETACHED))
else Ret tt.

Definition pthread_create (threadp attr : Z * list fld) (start_routine arg : Z) : prog Z :=
ensure_ready ;;
_rthread_reaper ;;
do thread <- act (Calloc pthread_struct);
if thread =? NULL then Ret ENOMEM else
init_thread thread attr start_routine arg ;;
_spinlock (gv f_thread_lock) ;;
act (QInsertHead (gv f_thread_list) thread) ;;
_spinunlock (gv f_thread_lock) ;;
do rc <- phal_thread_create (ptr thread).@f_tib_tid fn_rthread_start thread;
if rc =? 0 then
  act (Store threadp thread) ;;
  Ret 0
else
  _spinlock (gv f_thread_lock) ;;
  act (QRemove (gv f_thread_list) thread) ;;
  _spinunlock (gv f_thread_lock) ;;
  act (Free thread) ;;
  Ret rc.

(** Clean-up handlers, most recently pushed first. *)
Definition run_cleanup (clfn : Z) : prog unit :=
loop (fun clfn : Z =>
  if clfn =? NULL then Ret (inr tt) else
  do next <- act (Load (ptr clfn).@f_next);
  do fn <- act (Load (ptr clfn).@f_fn);
  do arg <- act (Load (ptr clfn).@f_arg);
  act (CallFn fn arg) ;;
  act (Free clfn) ;;
  Ret (inl next)) clfn.

(** The final [for(;;);]. *)
Definition forever : prog unit := loop (fun _ : unit => Ret (inl tt)) tt.

Definition pthread_exit (retval : Z) : prog unit :=
do thread <- pthread_self;
do cc <- act (Load (ptr thread).@f_tib_cantcancel);
(if negb (Z.land cc CANCEL_DYING =? 0) then act Abort else Ret tt) ;;
act (Store (ptr thread).@f_tib_cantcancel (Z.lor cc CANCEL_DYING)) ;;
act (Store (ptr thread).@f_retval retval) ;;
do clfn <- act (Load (ptr thread).@f_cleanup_fns);
run_cleanup clfn ;;
_rthread_tls_destructors thread ;;
_rthread_release thread ;;
phal_thread_exit (ptr thread).@f_tib_tid ;;
forever.

Definition _rthread_start (thread : Z) : prog unit :=
do tls <- phal_get_tls;
act (Store tls thread) ;;
do fn <- act (Load (ptr thread).@f_fn);
do arg <- act (Load (ptr thread).@f_arg);
do retval <- act (CallFn fn arg);
pthread_exit retval.

Definition PTHREAD_CANCELED : Z := 1.

Definition sigthr_handler : prog unit :=
do self <- pthread_self;
do canceled <- act (Load (ptr self).@f_tib_canceled);
do cant <- (if canceled =? 0 then Ret 1 else act (Load (ptr self).@f_tib_cantcancel));
if (canceled =? 0) || negb (cant =? 0) then Ret tt else
do cp <- act (Load (ptr self).@f_tib_cancel_point);
if negb (Z.land cp CANCEL_POINT_DELAYED =? 0) then
  act (Store (ptr self).@f_delayed_cancel 1)
else
  do fl <- act (Load (ptr self).@f_tib_thread_flags);
  if negb (cp =? 0) || negb (Z.land fl TIB_THREAD_ASYNC_CANCEL =? 0) then
    pthread_exit PTHREAD_CANCELED
  else Ret tt.

Definition pthread_kill (thread sig : Z) : prog Z := Ret ENOSYS.
Definition pthread_cancel (thread : Z) : prog Z := Ret ENOSYS.
Definition pthread_testcancel : prog unit := Ret tt.
Definition pthread_setcanceltype (type : Z) : prog Z := Ret ENOSYS.

Definition pthread_cleanup_push (fn arg : Z) : prog unit :=
do self <- pthread_self;
do clfn <- act (Calloc cleanup_struct);
if clfn =? NULL then Ret tt else
act (Store (ptr clfn).@f_fn fn) ;;
act (Store (ptr clfn).@f_arg arg) ;;
do next <- act (Load (ptr self).@f_cleanup_fns);
act (Store (ptr clfn).@f_next next) ;;
act (Store (ptr self).@f_cleanup_fns clfn).

Definition pthread_cleanup_pop (execute : Z) : prog unit :=
do self <- pthread_self;
do clfn <- act (Load (ptr self).@f_cleanup_fns);
if clfn =? NULL then Ret tt else
do next <- act (Load (ptr clfn).@f_next);
act (Store (ptr self).@f_cleanup_fns next) ;;
(if negb (execute =? 0) then
   do fn <- act (Load (ptr clfn).@f_fn);
   do arg <- act (Load (ptr clfn).@f_arg);
   act (CallFn fn arg) ;; Ret tt
 else Ret tt) ;;
act (Free clfn).

Definition pthread_getconcurrency : prog Z := act (Load (gv f_concurrency_level)).

Definition pthread_setconcurrency (new_level : Z) : prog Z :=
if new_level <? 0 then Ret EINVAL else
act (Store (gv f_concurrency_level) new_level) ;;
Ret 0.

Definition _thread_dump_info : prog unit :=
_spinlock (gv f_thread_lock) ;;
do threads <- act (QList (gv f_thread_list));
loop (fun q : list Z =>
  match q with
  | [] => Ret (inr tt)
  | thread :: q =>
      act (Load (ptr thread).@f_tib_thread_flags) ;;
      act (Print "thread %p flags 0x%x name %s") ;;
      Ret (inl q)
  end) threads ;;
_spinunlock (gv f_thread_lock).

End Thread.

(** ** Exit, join and reaping, under the documented HAL *)
Section ThreadContract.
Context {CB : Callbacks}.
#[local] Existing Instance DocPhal.
Context (n t : nat) (self : Z).

(** The library's lists and their locks: [tl] the live threads, [gc] the
    threads waiting to be freed. *)
Record lists_at (tl gc : list Z) (w : world) : Prop := {
  li_lock : w_heap w !! gv f_thread_lock = Some ATOMIC_LOCK_UNLOCKED;
  li_gc_lock : w_heap w !! gv f_thread_gc_lock = Some ATOMIC_LOCK_UNLOCKED;
  li_list : w_queues w !! gv f_thread_list = Some tl;
  li_gc : w_queues w !! gv f_thread_gc_list = Some gc
}.

Definition undone (w : world) (th : Z) : Prop :=
  exists fl, w_heap w !! (th, [f_flags]) = Some fl /\ Z.land fl THREAD_DONE = 0.

Lemma run_find_done_none {B} gc (k : option Z -> prog B) w :
  Forall (undone w) gc -> (length gc < n)%nat ->
  run n t (bind (find_done gc) k) w = run n t (k None) w.
Proof.
  intros Hu Hn. unfold find_done. rewrite run_loop_eq.
  revert gc Hu Hn. generalize n at 1 3. intros j.
  induction j as [| j IH]; intros [| th gc] Hu Hn; simpl in Hn; try lia.
  - by apply loop_run_exit.
  - apply Forall_cons in Hu as [(fl & Hf & Hd) Hu].
    etrans; [apply loop_run_next | apply IH; [done | lia]].
    by exec.
Qed.

Lemma run_round_idle tl gc w :
  lists_at tl gc w -> Forall (undone w) gc -> (length gc < n)%nat ->
  run n t (reaper_round tt) w = Done w (inr tt).
Proof.
  intros [] Hu Hn. destruct n as [| j] eqn:En; [lia |]. unfold reaper_round.
  rewrite run_spinlock by done. rewrite <- En in *.
  rewrite (run_qlist n t _ gc) by done. rewrite run_find_done_none; [| | lia].
  - rewrite run_spinunlock by lk. exec. by rewrite upd_loc_upd, upd_loc_id.
  - eapply Forall_impl; [exact Hu |]. intros th (fl & Hf & Hd). exists fl. split; [lk | done].
Qed.

Lemma run_reaper_idle {B} tl gc (k : unit -> prog B) w :
  lists_at tl gc w -> Forall (undone w) gc -> (length gc < n)%nat ->
  run n t (bind _rthread_reaper k) w = run n t (k tt) w.
Proof.
  intros Hl Hu Hn. unfold _rthread_reaper. rewrite run_loop_eq.
  destruct n as [| j] eqn:En; [lia |]. apply loop_run_exit. rewrite <- En.
  eapply run_round_idle; [done | done | lia].
Qed.

(** [_rthread_release] of a detached thread hands the object to the reaper. *)
Lemma run_release_detached {B} th fl tl tl' gc (k : unit -> prog B) w :
  lists_at tl gc w -> 0 < th -> th ∉ gc -> queue_remove th tl = Some tl' ->
  w_heap w !! (th, [f_flags]) = Some fl -> Z.land fl THREAD_DETACHED <> 0 ->
  w_heap w !! (th, [f_flags_lock]) = Some ATOMIC_LOCK_UNLOCKED -> (0 < n)%nat ->
  exists w', run n t (bind (_rthread_release th) k) w = run n t (k tt) w' /\
    lists_at tl' (gc ++ [th]) w' /\ (forall l, w_heap w' !! l = w_heap w !! l).
Proof.
  intros [] Hth Hgc Hrem Hfl Hdet Hflk Hn. destruct n as [| j]; [lia |]. eexists. split.
  - unfold _rthread_release. rewrite run_bind_assoc, run_spinlock by done. exec.
    rewrite (run_qremove _ _ _ _ tl tl') by done. exec. rewrite run_spinunlock by lk. exec.
    rewrite run_spinlock by lk. exec. rewrite run_spinunlock by lk. exec.
    unfold _rthread_free. exec. rewrite run_spinlock by lk. exec.
    rewrite (run_qinsert_tail _ _ _ _ gc) by (done || (simpl; by rewrite lookup_insert_ne)).
    rewrite run_spinunlock by lk. reflexivity.
  - split.
    + split; try lk; simpl.
      * by rewrite lookup_insert_ne, lookup_insert_eq.
      * by rewrite lookup_insert_eq.
    + intros l. heap_of.
      destruct (decide (l = gv f_thread_gc_lock)) as [-> |]; [by rewrite upd_lookup_eq |].
      rewrite upd_lookup_ne by done. heap_of. rewrite upd_lookup_ne by done.
      destruct (decide (l = (th, [f_flags_lock]))) as [-> |]; [by rewrite upd_lookup_eq |].
      rewrite upd_lookup_ne by done. rewrite upd_lookup_ne by done.
      destruct (decide (l = gv f_thread_lock)) as [-> |]; [by rewrite upd_lookup_eq |].
      rewrite upd_lookup_ne by done. heap_of. by rewrite upd_lookup_ne by done.
Qed.

(** A detached thread that exits is queued for the reaper without its
    [THREAD_DONE] flag, so the reaper never frees it. *)
Theorem detached_thread_leaks th fl tl tl' gc w :
  lists_at tl gc w -> Forall (undone w) gc -> 0 < th -> th ∉ gc -> queue_remove th tl = Some tl' ->
  w_heap w !! (th, [f_flags]) = Some fl ->
  Z.land fl THREAD_DETACHED <> 0 -> Z.land fl THREAD_DONE = 0 ->
  w_heap w !! (th, [f_flags_lock]) = Some ATOMIC_LOCK_UNLOCKED -> (S (length gc) < n)%nat ->
  exists w', run n t (_rthread_release th ;; _rthread_reaper) w = Done w' tt /\
    lists_at tl' (gc ++ [th]) w' /\ Forall (undone w') (gc ++ [th]) /\
    (forall l, w_heap w' !! l = w_heap w !! l).
Proof.
  intros Hl Hu Hth Hgc Hrem Hfl Hdet Hdone Hflk Hn.
  destruct (run_release_detached th fl tl tl' gc (fun _ => _rthread_reaper) w)
    as (w' & E & Hl' & Hh); try done; [lia |].
  assert (Forall (undone w') (gc ++ [th])) as Hu'.
  { apply Forall_app. split.
    - eapply Forall_impl; [exact Hu |]. intros x (f & Hf & Hd). exists f. by rewrite Hh.
    - repeat constructor. exists fl. by rewrite Hh. }
  exists w'. split; [| done]. rewrite E, run_then.
  rewrite (run_reaper_idle tl' (gc ++ [th])); try done. rewrite length_app. simpl. lia.
Qed.

Lemma run_find_done_last {B} gc th fl (k : option Z -> prog B) w :
  Forall (undone w) gc -> w_heap w !! (th, [f_flags]) = Some fl -> Z.land fl THREAD_DONE <> 0 ->
  (S (length gc) < n)%nat ->
  run n t (bind (find_done (gc ++ [th])) k) w = run n t (k (Some th)) w.
Proof.
  intros Hu Hfl Hdone Hn. unfold find_done. rewrite run_loop_eq.
  revert gc Hu Hn. generalize n at 1 3. intros j.
  induction j as [| j IH]; intros [| x gc] Hu Hn; simpl in Hn; try lia; cbn [app].
  - apply loop_run_exit. by exec.
  - apply Forall_cons in Hu as [(f & Hf & Hd) Hu].
    etrans; [apply loop_run_next | apply IH; [done | lia]]. by exec.
Qed.

Lemma queue_remove_last v q : v ∉ q -> queue_remove v (q ++ [v]) = Some q.
Proof.
  intros Hv. unfold queue_remove. rewrite bool_decide_true by (apply elem_of_app; right; by apply list_elem_of_here).
  assert (list_find (eq v) (q ++ [v]) = Some (length q, v)) as ->.
  { apply list_find_Some. split; [by rewrite list_lookup_middle |]. split; [done |].
    intros j y Hj Hlt ->. rewrite lookup_app_l in Hj by done.
    by apply list_elem_of_lookup_2 in Hj. }
  simpl. rewrite take_app_length. f_equal. rewrite drop_ge; [apply app_nil_r |].
  rewrite length_app. simpl. lia.
Qed.

(** The state after [th], the last of the garbage list, was freed. *)
Definition reaped (th : Z) (gc : list Z) (w : world) : world :=
  set_heap (heap_free th (w_heap w)) (set_queues (<[gv f_thread_gc_list := gc]> (w_queues w)) w).

Lemma undone_not_in th fl gc w :
  Forall (undone w) gc -> w_heap w !! (th, [f_flags]) = Some fl -> Z.land fl THREAD_DONE <> 0 -> th ∉ gc.
Proof. intros Hu Hfl Hd Hin. rewrite Forall_forall in Hu. destruct (Hu th Hin) as (f & Hf & Hfd). congruence. Qed.

Lemma run_reaper_one {B} th fl tl gc (k : unit -> prog B) w :
  lists_at tl (gc ++ [th]) w -> Forall (undone w) gc -> 0 < th ->
  w_heap w !! (th, [f_flags]) = Some fl -> Z.land fl THREAD_DONE <> 0 ->
  w_heap w !! gv f_debug_level = Some 0 -> (S (S (length gc)) < n)%nat ->
  run n t (bind _rthread_reaper k) w = run n t (k tt) (reaped th gc w).
Proof.
  intros Hl Hu Hth Hfl Hdone Hdbg Hn. pose proof Hl as [].
  pose proof (undone_not_in th fl gc w Hu Hfl Hdone) as Hnin.
  assert (lists_at tl gc (reaped th gc w)) as Hl'.
  { split; simpl.
    - by rewrite heap_free_lookup_ne by (unfold_locs; lia).
    - by rewrite heap_free_lookup_ne by (unfold_locs; lia).
    - by rewrite lookup_insert_ne.
    - by rewrite lookup_insert_eq. }
  assert (Forall (undone (reaped th gc w)) gc) as Hu'.
  { rewrite Forall_forall in Hu |- *. intros x Hx. destruct (Hu x Hx) as (f & Hf & Hd). exists f.
    split; [| done]. simpl. rewrite heap_free_lookup_ne; [done |]. simpl. by intros ->. }
  unfold _rthread_reaper. rewrite run_loop_eq. assert (n = S (S (n - 2))) as En by lia.
  rewrite En at 2. etrans; [apply loop_run_next | apply loop_run_exit].
  2: { eapply run_round_idle; [done | done | lia]. }
  unfold reaper_round. rewrite En at 1. rewrite run_spinlock by done. rewrite <- En.
  rewrite (run_qlist n t _ (gc ++ [th])) by done.
  rewrite (run_find_done_last gc th fl); [| | lk | done | lia].
  2: { eapply Forall_impl; [exact Hu |]. intros x (f & Hf & Hd). exists f. split; [lk | done]. }
  rewrite (run_qremove _ _ _ _ (gc ++ [th]) gc) by (done || by apply queue_remove_last).
  rewrite run_spinunlock by lk. unfold reap_thread. exec.
  rewrite run_debug by (lk || lia). cbn [phal_thread_destroy DocPhal]. exec.
  rewrite run_free; [| zconsts; lia | apply (heap_live_lookup _ [f_flags] fl); lk].
  simpl w_queues. by rewrite upd_loc_queues_upd.
Qed.

Lemma run_rthread_free {B} th tl gc (k : unit -> prog B) w :
  lists_at tl gc w -> th ∉ gc -> (0 < n)%nat ->
  run n t (bind (_rthread_free th) k) w
  = run n t (k tt) (set_queues (<[gv f_thread_gc_list := gc ++ [th]]> (w_queues w)) w).
Proof.
  intros [] Hgc Hn. destruct n as [| j]; [lia |]. unfold _rthread_free.
  rewrite run_bind_assoc, run_spinlock by done. exec.
  rewrite (run_qinsert_tail _ _ _ _ gc) by done. rewrite run_spinunlock by lk.
  by rewrite upd_loc_queues_upd.
Qed.

(** A finished, joinable thread: its flags, exit value and completion semaphore. *)
Record finished_thread (th r : Z) (w : world) : Prop := {
  ft_pos : 0 < th;
  ft_flags : exists fl, w_heap w !! (th, [f_flags]) = Some fl /\
               Z.land fl THREAD_DETACHED = 0 /\ Z.land fl THREAD_DONE <> 0;
  ft_retval : w_heap w !! (th, [f_retval]) = Some r;
  ft_shared : w_heap w !! (th, [f_donesem; f_shared]) = Some 0;
  ft_value : w_heap w !! (th, [f_donesem; f_value]) = Some 1;
  ft_hal : h_owner (hsem_at (th, [f_donesem; f_sem]) w) = None
}.

(** The state after the completion semaphore was taken. *)
Definition waited (th : Z) (w : world) : world :=
  let q := h_waiting (hsem_at (th, [f_donesem; f_sem]) w) in
  upd_hsem (th, [f_donesem; f_sem]) (HSem None q)
    (upd_loc (th, [f_donesem; f_value]) 0
      (upd_hsem (th, [f_donesem; f_sem]) (HSem (Some t) q) w)).

Lemma run_wait_done {B} th r dc (k : Z -> prog B) w :
  finished_thread th r w ->
  run n t (bind (_sem_wait (ptr th).@f_donesem false None dc) k) w = run n t (k 0) (waited th w).
Proof.
  intros []. unfold _sem_wait, waited. exec.
  cbn [phal_semaphore_lock phal_semaphore_unlock DocPhal].
  change ((ptr th).@f_donesem.@f_sem) with (th, [f_donesem; f_sem]).
  rewrite run_doc_lock by done. exec. rewrite run_doc_unlock.
  rewrite (hsem_at_upd_loc (th, [f_donesem; f_sem])), hsem_at_upd. by exec.
Qed.

(** C9: joining a finished thread returns its exit value and frees it. *)
Theorem join_finished th r rp ready tl gc w :
  started t self w -> self <> th -> finished_thread th r w ->
  w_heap w !! gv f_post_threaded = Some 0 ->
  w_heap w !! gv f_threads_ready = Some ready -> ready <> 0 ->
  lists_at tl gc w -> Forall (undone w) gc ->
  0 < rp.1 -> rp.1 <> th -> ~ In rp.1 gc -> is_Some (w_heap w !! rp) ->
  (S (S (length gc)) < n)%nat ->
  exists w', run n t (pthread_join th rp) w = Done w' 0 /\
    w_heap w' !! rp = Some r /\ w_queues w' !! gv f_thread_gc_list = Some gc /\
    heap_live th (w_heap w') = false.
Proof.
  intros Hs Hne Hft Hpt Hrdy Hr0 Hl Hu Hrp Hrpt Hrpg Hv Hn.
  pose proof Hft as [Hpos (fl & Hfl & Hnd & Hd) Hret _ _ _].
  set (w1 := upd_loc rp r (waited th w)).
  assert (lists_at tl gc w1) as Hl1
    by (destruct Hl; split; unfold w1, waited; cbv zeta; (lk || done)).
  set (w2 := set_queues (<[gv f_thread_gc_list := gc ++ [th]]> (w_queues w1)) w1).
  assert (lists_at tl (gc ++ [th]) w2) as Hl2.
  { destruct Hl1. split; try done; simpl; [by rewrite lookup_insert_ne | by rewrite lookup_insert_eq]. }
  assert (Forall (undone w2) gc) as Hu2.
  { rewrite Forall_forall in Hu |- *. intros x Hx. destruct (Hu x Hx) as (f & Hf & Hfd).
    exists f. split; [| done].
    assert (rp.1 <> x) by (intros <-; by apply Hrpg, list_elem_of_In).
    unfold w2, w1, waited. cbv zeta. lk. }
  exists (reaped th gc w2). split; [| split; [| split]].
  - unfold pthread_join. exec. rewrite (run_ensure_ready _ _ ready) by done.
    destruct Hs. rewrite (run_self _ _ 1 self) by done. exec.
    rewrite (run_wait_done th r) by done. exec. rewrite is_null_false by neq.
    assert (w_heap (waited th w) !! (ptr th).@f_retval = Some r) by (unfold waited; cbv zeta; lk).
    assert (is_Some (w_heap (waited th w) !! rp)) by (unfold waited; cbv zeta; lk).
    assert (w_heap (waited th w) !! (ptr th).@f_flags = Some fl) by (unfold waited; cbv zeta; lk).
    exec. fold w1. rewrite (run_rthread_free th tl gc) by (done || lia || by apply (undone_not_in th fl gc w)). fold w2. exec.
    rewrite (run_reaper_one th fl tl gc); try done; unfold w2, w1, waited; cbv zeta; lk.
  - simpl. rewrite heap_free_lookup_ne by done. by apply lookup_insert_eq.
  - simpl. by rewrite lookup_insert_eq.
  - apply heap_live_free.
Qed.
End ThreadContract.
