(* ===== verification/Attr.v ===== *)
(** * Thread attributes and scheduling parameters: rthread_attr.c,
    rthread_sched.c, sched_prio.c, and the stubs of rthread_sig.c and
    rthread_getcpuclockid.c *)

From stdpp Require Import base list gmap strings.
From Stdlib Require Import ZArith Lia.
From S2P Require Import Prelude CMem Prog PthreadH Phal Internal Exec.
Local Open Scope Z_scope.
Local Open Scope prog_scope.

Section Attr.
Context {HAL : Phal}.

(** [calloc] failure is reported as [errno], that is [ENOMEM]. *)
Definition pthread_attr_init (attrp : Z * list fld) : prog Z :=
ensure_ready ;;
do attr <- act (Calloc attr_struct);
if attr =? NULL then Ret ENOMEM else
copy_struct (gv f_attr_default) (ptr attr) attr_struct ;;
act (Store attrp attr) ;;
Ret 0.

Definition pthread_attr_destroy (attrp : Z * list fld) : prog Z :=
do a <- act (Load attrp);
act (Free a) ;;
act (Store attrp NULL) ;;
Ret 0.

(** [*out = ( *attrp)->f] and [( *attrp)->f = v]. *)
Definition attr_get (f : fld) (attrp out : Z * list fld) : prog Z :=
do a <- act (Load attrp);
do v <- act (Load (ptr a).@f);
act (Store out v) ;;
Ret 0.

Definition attr_set (f : fld) (attrp : Z * list fld) (v : Z) : prog Z :=
do a <- act (Load attrp);
act (Store (ptr a).@f v) ;;
Ret 0.

Definition pthread_attr_getguardsize := attr_get f_guard_size.
Definition pthread_attr_setguardsize := attr_set f_guard_size.
Definition pthread_attr_getdetachstate := attr_get f_detach_state.

Definition pthread_attr_setdetachstate (attrp : Z * list fld) (detachstate : Z) : prog Z :=
let error := if (detachstate =? PTHREAD_CREATE_DETACHED)
                || (detachstate =? PTHREAD_CREATE_JOINABLE) then 0 else EINVAL in
if error =? 0 then attr_set f_detach_state attrp detachstate else Ret error.

Definition pthread_attr_getstack (attrp stackaddr stacksize : Z * list fld) : prog Z :=
attr_get f_stack_addr attrp stackaddr ;;
attr_get f_stack_size attrp stacksize.

Definition pthread_attr_setstackaddr (attrp : Z * list fld) (stackaddr : Z) : prog Z :=
ensure_ready ;;
if stackaddr =? NULL then Ret EINVAL else
do ps <- act (Load (gv f_thread_pagesize));
if negb (Z.land stackaddr (u64 (ps - 1)) =? 0) then Ret EINVAL else
attr_set f_stack_addr attrp stackaddr.

Definition pthread_attr_setstack (attrp : Z * list fld) (stackaddr stacksize : Z) : prog Z :=
if stacksize <? PTHREAD_STACK_MIN then Ret EINVAL else
do error <- pthread_attr_setstackaddr attrp stackaddr;
if negb (error =? 0) then Ret error else
attr_set f_stack_size attrp stacksize.

Definition pthread_attr_getstacksize := attr_get f_stack_size.

Definition pthread_attr_setstacksize (attrp : Z * list fld) (stacksize : Z) : prog Z :=
ensure_ready ;;
if stacksize <? PTHREAD_STACK_MIN then Ret EINVAL else
do ps <- act (Load (gv f_thread_pagesize));
if ROUND_TO_PAGE ps stacksize <? stacksize then Ret EINVAL else
attr_set f_stack_size attrp stacksize.

Definition pthread_attr_getstackaddr := attr_get f_stack_addr.
Definition pthread_attr_getscope := attr_get f_contention_scope.

Definition pthread_attr_setscope (attrp : Z * list fld) (contentionscope : Z) : prog Z :=
if negb (contentionscope =? PTHREAD_SCOPE_SYSTEM)
   && negb (contentionscope =? PTHREAD_SCOPE_PROCESS) then Ret EINVAL
else attr_set f_contention_scope attrp contentionscope.

(** ** rthread_sched.c *)
Definition bad_policy (policy : Z) : bool :=
negb (policy =? SCHED_OTHER) && negb (policy =? SCHED_FIFO) && negb (policy =? SCHED_RR).

Definition pthread_getschedparam (thread : Z) (policy param : Z * list fld) : prog Z :=
ensure_ready ;;
do p <- act (Load (ptr thread).@f_attr.@f_sched_policy);
act (Store policy p) ;;
(if is_null param then Ret tt
 else
   do v <- act (Load (ptr thread).@f_attr.@f_sched_param);
   act (Store param v)) ;;
Ret 0.

Definition pthread_setschedparam (thread policy : Z) (param : Z * list fld) : prog Z :=
ensure_ready ;;
if bad_policy policy then Ret EINVAL else
act (Store (ptr thread).@f_attr.@f_sched_policy policy) ;;
(if is_null param then Ret tt
 else
   do v <- act (Load param);
   act (Store (ptr thread).@f_attr.@f_sched_param v)) ;;
Ret 0.

Definition pthread_attr_getschedparam := attr_get f_sched_param.

Definition pthread_attr_setschedparam (attrp param : Z * list fld) : prog Z :=
do v <- act (Load param);
attr_set f_sched_param attrp v.

Definition pthread_attr_getschedpolicy := attr_get f_sched_policy.

Definition pthread_attr_setschedpolicy (attrp : Z * list fld) (policy : Z) : prog Z :=
if bad_policy policy then Ret EINVAL else attr_set f_sched_policy attrp policy.

Definition pthread_attr_getinheritsched := attr_get f_sched_inherit.

Definition pthread_attr_setinheritsched (attrp : Z * list fld) (inherit : Z) : prog Z :=
if negb (inherit =? PTHREAD_INHERIT_SCHED) && negb (inherit =? PTHREAD_EXPLICIT_SCHED)
then Ret EINVAL
else attr_set f_sched_inherit attrp inherit.

Definition pthread_getprio (thread : Z) : prog Z :=
ensure_ready ;;
act (Load (ptr thread).@f_attr.@f_sched_param).

Definition pthread_setprio (thread priority : Z) : prog Z :=
ensure_ready ;;
act (Store (ptr thread).@f_attr.@f_sched_param priority) ;;
Ret 0.

Definition pthread_yield : prog unit := Ret tt.

(** ** sched_prio.c, rthread_sig.c, rthread_getcpuclockid.c *)
Definition sched_get_priority_max (policy : Z) : prog Z :=
if (policy <? SCHED_FIFO) || (SCHED_RR <? policy)
then act (SetErrno EINVAL) ;; Ret (-1)
else Ret PTHREAD_MAX_PRIORITY.

Definition sched_get_priority_min (policy : Z) : prog Z :=
if (policy <? SCHED_FIFO) || (SCHED_RR <? policy)
then act (SetErrno EINVAL) ;; Ret (-1)
else Ret PTHREAD_MIN_PRIORITY.

Definition sigwait : prog Z := Ret ENOSYS.

Definition pthread_getcpuclockid (thread : Z) (clock_id : Z * list fld) : prog Z :=
Ret ENOSYS.

End Attr.

(** ** Setting and reading back *)
Inductive attr_field := GuardSize | DetachState | Scope | SchedPolicy | InheritSched | SchedParam.

(** [pthread_attr_setschedparam] reads the parameter through a pointer. *)
Definition attr_setter {HAL : Phal} (f : attr_field) (attrp : Z * list fld) (v : Z)
  (vp : Z * list fld) : prog Z :=
  match f with
  | GuardSize => pthread_attr_setguardsize attrp v
  | DetachState => pthread_attr_setdetachstate attrp v
  | Scope => pthread_attr_setscope attrp v
  | SchedPolicy => pthread_attr_setschedpolicy attrp v
  | InheritSched => pthread_attr_setinheritsched attrp v
  | SchedParam => pthread_attr_setschedparam attrp vp
  end.

Definition attr_getter {HAL : Phal} (f : attr_field) (attrp out : Z * list fld) : prog Z :=
  match f with
  | GuardSize => pthread_attr_getguardsize attrp out
  | DetachState => pthread_attr_getdetachstate attrp out
  | Scope => pthread_attr_getscope attrp out
  | SchedPolicy => pthread_attr_getschedpolicy attrp out
  | InheritSched => pthread_attr_getinheritsched attrp out
  | SchedParam => pthread_attr_getschedparam attrp out
  end.

(** What POSIX and <pthread.h> allow for each attribute. *)
Definition attr_valid (f : attr_field) (v : Z) : bool :=
  match f with
  | GuardSize | SchedParam => true
  | DetachState => (v =? PTHREAD_CREATE_DETACHED) || (v =? PTHREAD_CREATE_JOINABLE)
  | Scope => (v =? PTHREAD_SCOPE_SYSTEM) || (v =? PTHREAD_SCOPE_PROCESS)
  | SchedPolicy => (v =? SCHED_OTHER) || (v =? SCHED_FIFO) || (v =? SCHED_RR)
  | InheritSched => (v =? PTHREAD_INHERIT_SCHED) || (v =? PTHREAD_EXPLICIT_SCHED)
  end.

Definition attr_member (f : attr_field) : fld :=
  match f with
  | GuardSize => f_guard_size
  | DetachState => f_detach_state
  | Scope => f_contention_scope
  | SchedPolicy => f_sched_policy
  | InheritSched => f_sched_inherit
  | SchedParam => f_sched_param
  end.

Section AttrContract.
Context {CB : Callbacks} {HAL : Phal}.
Context (n t : nat) (a : Z) (attrp : Z * list fld).

Record attr_at (w : world) : Prop := {
  aa_var : 0 < a /\ 0 < attrp.1 /\ attrp.1 <> a;
  aa_attrp : w_heap w !! attrp = Some a;
  aa_members : forall m, m ∈ attr_struct -> is_Some (w_heap w !! (a, m))
}.

Lemma run_attr_set f v w :
  attr_at w -> [f] ∈ attr_struct ->
  run n t (attr_set f attrp v) w = Done (upd_loc (a, [f]) v w) 0.
Proof.
  intros [_ Ha Hm] Hf. unfold attr_set. exec. rewrite run_store by (by apply Hm). by exec.
Qed.

Lemma run_attr_get f v out w :
  w_heap w !! attrp = Some a -> w_heap w !! (a, [f]) = Some v ->
  is_Some (w_heap w !! out) ->
  run n t (attr_get f attrp out) w = Done (upd_loc out v w) 0.
Proof. intros. unfold attr_get. by exec. Qed.

Lemma attr_member_in f : [attr_member f] ∈ attr_struct.
Proof. destruct f; apply (bool_decide_eq_true_1 _); reflexivity. Qed.

Lemma run_attr_setter f v vp w :
  attr_at w -> w_heap w !! vp = Some v ->
  run n t (attr_setter f attrp v vp) w
  = if attr_valid f v then Done (upd_loc (a, [attr_member f]) v w) 0 else Done w EINVAL.
Proof.
  intros Ha Hv. pose proof (attr_member_in f) as Hin.
  destruct f; cbn [attr_setter attr_valid attr_member] in *;
    unfold pthread_attr_setguardsize, pthread_attr_setdetachstate, pthread_attr_setscope,
      pthread_attr_setschedpolicy, pthread_attr_setinheritsched, pthread_attr_setschedparam,
      bad_policy; cbv zeta; rewrite <- ?negb_orb.
  - by rewrite run_attr_set.
  - destruct (_ || _); [by apply run_attr_set | done].
  - destruct (_ || _); [by apply run_attr_set | done].
  - destruct (_ || _); [by apply run_attr_set | done].
  - destruct (_ || _); [by apply run_attr_set | done].
  - rewrite (run_load n t _ v) by done. by rewrite run_attr_set.
Qed.

Lemma run_attr_getter f v out w :
  w_heap w !! attrp = Some a -> w_heap w !! (a, [attr_member f]) = Some v ->
  is_Some (w_heap w !! out) ->
  run n t (attr_getter f attrp out) w = Done (upd_loc out v w) 0.
Proof. intros. destruct f; by apply run_attr_get. Qed.

(** A setter stores a valid value, which its getter then reads, and
    refuses an invalid one with [EINVAL]. *)
Theorem attr_set_get f v vp out w :
  attr_at w -> w_heap w !! vp = Some v -> is_Some (w_heap w !! out) -> out.1 <> a ->
  if attr_valid f v then
    exists w', run n t (do rc <- attr_setter f attrp v vp;
                        do rc2 <- attr_getter f attrp out;
                        do x <- act (Load out);
                        Ret (rc, rc2, x)) w = Done w' (0, 0, v)
  else run n t (attr_setter f attrp v vp) w = Done w EINVAL.
Proof.
  intros Ha Hv Hout Hne. pose proof (run_attr_setter f v vp w Ha Hv) as Hset.
  destruct (attr_valid f v); [| done]. pose proof Ha as [(? & ? & ?) Hp _].
  eexists. rewrite run_bind, Hset. cbn [obind]. rewrite run_bind.
  rewrite (run_attr_getter f v) by lk. cbn [obind]. by exec.
Qed.

(** [_thread_pagesize] is never assigned, so no stack can be set. *)
Lemma round_to_page_0 size : 0 <= size -> ROUND_TO_PAGE 0 size = 0.
Proof.
  intros H. unfold ROUND_TO_PAGE. change (u64 (Z.lnot (u64 (0 - 1)))) with 0. apply Z.land_0_r.
Qed.

(** With [_thread_pagesize] at its initial 0, every stack size and every
    stack address is refused. *)
Theorem attr_setstack_never size addr w :
  w_heap w !! gv f_threads_ready = Some 1 -> w_heap w !! gv f_thread_pagesize = Some 0 ->
  0 <= size < 2 ^ 64 -> 0 <= addr < 2 ^ 64 ->
  run n t (pthread_attr_setstacksize attrp size) w = Done w EINVAL /\
  run n t (pthread_attr_setstackaddr attrp addr) w = Done w EINVAL /\
  run n t (pthread_attr_setstack attrp addr size) w = Done w EINVAL.
Proof.
  intros Hr Hp Hsize Haddr.
  assert (run n t (pthread_attr_setstackaddr attrp addr) w = Done w EINVAL) as Hsa.
  { unfold pthread_attr_setstackaddr. erewrite run_ensure_ready by done.
    destruct (addr =? NULL) eqn:E; [done |]. exec.
    change (u64 (0 - 1)) with (Z.ones 64). rewrite Z.land_ones by lia.
    rewrite Z.mod_small by lia. by exec. }
  split; [| split; [done |]].
  - unfold pthread_attr_setstacksize. erewrite run_ensure_ready by done.
    destruct (size <? PTHREAD_STACK_MIN) eqn:E; [done |]. exec.
    rewrite round_to_page_0 by lia. replace (0 <? size) with true; [done |].
    symmetry. apply Z.ltb_lt. unfold PTHREAD_STACK_MIN in E. lia.
  - unfold pthread_attr_setstack. destruct (size <? PTHREAD_STACK_MIN); [done |].
    by rewrite run_bind, Hsa.
Qed.
End AttrContract.
