(* ===== verification/Scenario.v ===== *)
(** * Concrete initial states

    The states the witnesses and the scheduling examples start from: the static
    variables of the library, a few started threads, and caller's variables. *)

From stdpp Require Import base list gmap strings.
From Stdlib Require Import ZArith Lia.
From S2P Require Import Prelude CMem Prog PthreadH Phal Internal.
Local Open Scope Z_scope.

(** Application callbacks that do nothing and return 0. *)
Definition idle_callbacks : Callbacks := fun _ _ _ w => Some (w, 0).

(** Thread [t] is the object [100 + t]; thread 0 is [_initial_thread]. *)
Definition thread_obj (t : nat) : Z :=
  match t with O => initial_thread | S _ => 100 + Z.of_nat t end.

Definition started_heap (n : nat) : heap :=
  <[gv f_threads_inited := 1]>
    (foldr (fun t h => <[tls_loc t := thread_obj t]>
                         (match t with
                          | O => h
                          | _ => heap_alloc (thread_obj t) pthread_struct h
                          end))
       static_heap (seq 0 n)).

(** Variables are the objects 10 to 19, all zero; allocation starts at 1000. *)
Definition vars_heap (h : heap) : heap :=
  foldr (fun i h => <[ptr (10 + Z.of_nat i) := 0]> h) h (seq 0 10).

Definition world_of (h : heap) : world :=
  World h
    (<[gv f_thread_list := []]> (<[gv f_thread_gc_list := []]> ∅))
    ∅ 1000 ∅ [] [] None [] [] [].

Definition started_world (n : nat) : world := world_of (vars_heap (started_heap n)).

(** Before [_rthread_internal_init]. *)
Definition boot_world : world := world_of (vars_heap static_heap).

(** An initialised mutex of the given type at object 50, held by variable 10. *)
Definition with_mutex (ty : Z) (w : world) : world :=
  set_heap (<[ptr 10 := 50]> (<[(50, [f_type]) := ty]>
             (heap_alloc 50 mutex_struct (w_heap w)))) w.

(** An initialised condition variable at object 60, held by variable 11. *)
Definition with_cond (w : world) : world :=
  set_heap (<[ptr 11 := 60]> (<[(60, [f_clock]) := CLOCK_REALTIME]>
             (heap_alloc 60 cond_struct (w_heap w)))) w.

Definition done_with {A} (o : outcome A) : option A :=
  match o with Done _ a => Some a | _ => None end.

Definition final_world {A} (o : outcome A) (d : world) : world :=
  match o with Done w _ => w | _ => d end.

Lemma final_world_done {A} (o : outcome A) d a :
  done_with o = Some a -> o = Done (final_world o d) a.
Proof. destruct o; try done. by intros [= ->]. Qed.
