(* ===== verification/Deadlocks.v ===== *)
(** * Interleavings that end in a deadlock, and use before initialisation

    Schedules, under the documented HAL, after which no thread can move although
    each thread's own calls are in order, because the threads sleep or wait for a
    lock, not because one of them crashed; a schedule on which the same threads
    finish; and what the mutex does in a process where [_rthread_internal_init] was
    not called. *)

From stdpp Require Import base list gmap relations strings.
From Stdlib Require Import ZArith Lia.
From S2P Require Import Prelude CMem Prog PthreadH Phal Internal Exec Mutex MutexSpec Cond Interleave Scenario.
Local Open Scope Z_scope.
Local Open Scope prog_scope.

(** ** Observing a configuration *)
Definition movable {CB : Callbacks} (t : nat) (c : config) : bool :=
  match sched1 t c with Some _ => true | None => false end.

Definition has_finished (t : nat) (c : config) : bool :=
  match c_pool c !! t with Some (Ret _) => true | _ => false end.

(** What a thread that is not finished waits for: to be woken, asleep on a HAL
    semaphore, or to be given the lock of one that another thread holds. *)
Definition asleep_on (t : nat) (l : Z * list fld) (c : config) : bool :=
  match c_pool c !! t with
  | Some (Act (HWaitEnd l') _) => bool_decide (l' = l /\ t ∈ h_waiting (hsem_at l (c_world c)) /\ w_intr (c_world c) = [])
  | _ => false
  end.

Definition asks_for (t u : nat) (l : Z * list fld) (c : config) : bool :=
  match c_pool c !! t with
  | Some (Act (HLock l') _) => bool_decide (l' = l /\ h_owner (hsem_at l (c_world c)) = Some u)
  | _ => false
  end.

Lemma movable_false {CB : Callbacks} t c : movable t c = false -> sched1 t c = None.
Proof. unfold movable. by destruct (sched1 t c). Qed.

Lemma stuck_pair {CB : Callbacks} c :
  length (c_pool c) = 2%nat -> movable 0 c = false -> movable 1 c = false -> stuck c.
Proof.
  intros Hl H0 H1. apply stuck_sched1. intros t Ht. rewrite Hl in Ht. apply movable_false.
  destruct t as [| [| t]]; [done | done | lia].
Qed.

Lemma stuck_forever {CB : Callbacks} c : stuck c -> forall c', reachable c c' -> c' = c.
Proof. intros Hs c' Hr. destruct Hr as [| c c1 c2 Hst _]; [done |]. by apply Hs in Hst. Qed.

Section Deadlocks.
#[local] Existing Instance DocPhal.
#[local] Existing Instance idle_callbacks.

(** ** The wake-up of a mutex is lost *)
Definition locker : prog unit :=
  pthread_mutex_lock (ptr 10) ;; pthread_mutex_unlock (ptr 10) ;; Ret tt.

Definition lockers : config :=
  Config (with_mutex PTHREAD_MUTEX_NORMAL (started_world 2)) [locker; locker].

(** Thread 0 takes the mutex; thread 1 finds it taken, marks it contended and
    stops before the wait; thread 0 unlocks and signals; thread 1 goes to sleep. *)
Definition lost_wakeup : list (nat * nat) :=
  [(0, 13); (1, 272); (0, 1000); (1, 1000)]%nat.

(** Thread 1 goes to sleep before the mutex is unlocked; then thread 0 unlocks and
    signals, and thread 1 takes the mutex and gives it back. *)
Definition sleeper : list (nat * nat) := [(0, 13); (1, 1000)]%nat.
Definition kept_wakeup : list (nat * nat) := [(0, 1000); (1, 1000)]%nat.

(** C12: the wake-up of a mutex depends on when the thread that waits goes to sleep.
    If it sleeps before the holder unlocks, it is woken and both threads finish. If it
    has seen the mutex taken but sleeps only after the holder has unlocked and signalled,
    it sleeps on the semaphore of a mutex that is free, with nobody left to signal:
    the other thread has finished and no step is possible any more. *)
Theorem mutex_lost_wakeup :
  (exists c1 c2, reachable lockers c1 /\ asleep_on 1 (50, [f_sem]) c1 = true /\
    w_heap (c_world c1) !! (50, [f_lock]) = Some CONTENDED /\
    reachable c1 c2 /\ has_finished 0 c2 = true /\ has_finished 1 c2 = true) /\
  (exists c, reachable lockers c /\ asleep_on 1 (50, [f_sem]) c = true /\
    h_owner (hsem_at (50, [f_sem]) (c_world c)) = None /\
    w_heap (c_world c) !! (50, [f_lock]) = Some UNLOCKED /\
    w_heap (c_world c) !! (50, [f_owner]) = Some NULL /\
    has_finished 0 c = true /\ forall c', reachable c c' -> c' = c).
Proof.
  split.
  - exists (schedule sleeper lockers), (schedule kept_wakeup (schedule sleeper lockers)).
    split; [apply schedule_reachable |]. do 2 (split; [vm_compute; reflexivity |]).
    split; [apply schedule_reachable |]. split; vm_compute; reflexivity.
  - exists (schedule lost_wakeup lockers). split; [apply schedule_reachable |].
    do 5 (split; [vm_compute; reflexivity |]).
    apply stuck_forever, stuck_pair; vm_compute; reflexivity.
Qed.

(** ** A waiter and a signaller wait for each other *)
Definition waiter : prog unit :=
  pthread_mutex_lock (ptr 10) ;;
  pthread_cond_wait (ptr 11) (ptr 10) ;;
  pthread_mutex_unlock (ptr 10) ;; Ret tt.

Definition signaller : prog unit :=
  pthread_mutex_lock (ptr 10) ;;
  pthread_cond_signal (ptr 11) ;;
  pthread_cond_signal (ptr 11) ;;
  pthread_mutex_unlock (ptr 10) ;; Ret tt.

Definition wait_and_signal : config :=
  Config (with_cond (with_mutex PTHREAD_MUTEX_NORMAL (started_world 2))) [waiter; signaller].

(** The waiter sleeps; the signaller takes the mutex and signals; the waiter
    wakes up, and holds the lock of the condition while it asks for the mutex;
    the signaller, holding the mutex, signals again. *)
Definition abba : list (nat * nat) :=
  [(0, 1000); (1, 18); (0, 1000); (1, 1000)]%nat.

(** C13: signalling twice under the mutex can deadlock with a waiter: the woken waiter
    holds the lock of the condition and sleeps on the mutex, the signaller holds the
    mutex and asks for the lock of the condition. *)
Theorem cond_signal_deadlock :
  exists c, reachable wait_and_signal c /\ stuck c /\
    has_finished 0 c = false /\ has_finished 1 c = false /\
    h_owner (hsem_at (60, [f_sem]) (c_world c)) = Some 0%nat /\
    w_heap (c_world c) !! (50, [f_owner]) = Some (thread_obj 1) /\
    asleep_on 0 (50, [f_sem]) c = true /\ asks_for 1 0 (60, [f_sem]) c = true.
Proof.
  exists (schedule abba wait_and_signal).
  split; [apply schedule_reachable |]. split; [apply stuck_pair; vm_compute; reflexivity |].
  repeat (split; [vm_compute; reflexivity |]). vm_compute; reflexivity.
Qed.
End Deadlocks.

(** ** Before [_rthread_internal_init] *)
Section Uninitialised.
Context {CB : Callbacks} {HAL : Phal}.
Context (n t : nat) (m : Z) (mp : Z * list fld).

Lemma run_self_uninit {B} (k : Z -> prog B) w :
  w_heap w !! gv f_threads_inited = Some 0 ->
  run n t (bind pthread_self k) w
  = run n t (k NULL) (set_out (w_out w ++ ["_rthread_internal_init not called"%string]) w).
Proof. intros H. simpl. by rewrite H. Qed.

(** Both messages of a locking call on an initialised mutex. *)
Definition complained (w : world) : world :=
  let w := set_out (w_out w ++ ["_rthread_internal_init not called"%string]) w in
  set_out (w_out w ++ ["_rthread_internal_init not called"%string]) w.

(** [pthread_mutex_lock] without a current thread. *)
Lemma run_lock_uninit v c w :
  w_heap w !! gv f_threads_inited = Some 0 -> w_heap w !! gv f_debug_level = Some 0 ->
  mutex_at m mp PTHREAD_MUTEX_DEFAULT v NULL c w ->
  run n t (pthread_mutex_lock mp) w
  = if v =? UNLOCKED
    then Done (upd_loc (m, [f_owner]) NULL (upd_loc (m, [f_lock]) LOCKED (complained w))) 0
    else Aborted (complained w).
Proof.
  intros Hi Hd [? []]. unfold pthread_mutex_lock, _rthread_mutex_timedlock.
  rewrite run_self_uninit by done. rewrite is_null_false by done.
  unfold mutex_static_init. exec. rewrite run_debug by (lk || lia).
  unfold _rthread_mutex_trylock. rewrite run_bind_assoc, run_self_uninit by lk. exec.
  unfold complained. cbv zeta. destruct (v =? UNLOCKED) eqn:E; exec; [done |].
  rewrite upd_loc_id by lk. by exec.
Qed.
End Uninitialised.

Section Uninitialised2.
Context {CB : Callbacks} {HAL : Phal}.
Context (m : Z) (mp : Z * list fld).

(** Every thread is [NULL], so the holder of a mutex looks like any other
    caller: the second thread to lock a default mutex aborts the process. *)
Theorem uninitialised_lock_aborts n t1 t2 w :
  w_heap w !! gv f_threads_inited = Some 0 -> w_heap w !! gv f_debug_level = Some 0 ->
  mutex_at m mp PTHREAD_MUTEX_DEFAULT UNLOCKED NULL 0 w ->
  exists w1 w2, run n t1 (pthread_mutex_lock mp) w = Done w1 0 /\
    run n t2 (pthread_mutex_lock mp) w1 = Aborted w2.
Proof.
  intros Hi Hd Hm. pose proof Hm as [].
  assert (mutex_at m mp PTHREAD_MUTEX_DEFAULT UNLOCKED NULL 0 (complained w)) as [] by by destruct Hm.
  set (w1 := upd_loc (m, [f_owner]) NULL (upd_loc (m, [f_lock]) LOCKED (complained w))).
  exists w1, (complained w1). split.
  - by rewrite (run_lock_uninit n t1 m mp UNLOCKED 0).
  - rewrite (run_lock_uninit n t2 m mp LOCKED 0); [done | unfold w1; lk | unfold w1; lk |].
    apply (mutex_at_owner _ _ _ _ NULL), (mutex_at_lock _ _ _ UNLOCKED). by split.
Qed.
End Uninitialised2.
