(* ===== verification/MutexProtocol.v ===== *)
(** * The protocol of the pthread mutex

    What the threads that use one initialised mutex may do with its lock word and its
    owner, and that the locking and unlocking calls keep to it, under any interleaving.
    What the mutex protects is a parameter, the client: a state of its own per thread,
    the actions a thread may perform with and without the mutex, and an invariant that
    these keep. MutexExcl.v and OnceExcl.v are two clients. *)

From stdpp Require Import base list gmap relations strings.
From Stdlib Require Import ZArith Lia.
From S2P Require Import Prelude CMem Prog PthreadH Phal Interleave Internal Exec Mutex.
Local Open Scope Z_scope.
Local Open Scope prog_scope.

(** ** Quiet programs and what their waits answer *)

(** The result of a wait on the documented HAL satisfies [okr]. *)
Definition quiet_res (okr : Z -> Prop) {R} (a : action R) : R -> Prop :=
  match a in action R return R -> Prop with HWaitEnd _ => okr | _ => fun _ => True end.

Fixpoint quiet_post (okr : Z -> Prop) {A} (P : A -> Prop) (p : prog A) : Prop :=
  match p with
  | Ret a => P a
  | Act a k => quiet a = true /\ forall r, quiet_res okr a r -> quiet_post okr P (k r)
  | Loop body _ k => (forall s, quiet_prog (body s)) /\ forall r, quiet_post okr P (k r)
  end.

Lemma quiet_prog_post okr {A} (p : prog A) : quiet_prog p -> quiet_post okr (fun _ => True) p.
Proof.
  induction p as [A a | A R a k IH | A S R body _ s k IH]; simpl; [done | |]; intros [H1 H2]; split; auto.
Qed.

(** A HAL whose waits answer [P] when their interruptions are of the kind [okr]. *)
Class PhalWaits (okr P : Z -> Prop) (HAL : Phal) : Prop :=
  phal_wait_post : forall s abs, quiet_post okr P (phal_semaphore_wait s abs).

(** The interruptions to come are of the kind [okr], and so is what a wait answers. *)
Lemma quiet_sem_res {CB : Callbacks} (okr : Z -> Prop) R (a : action R) t w :
  okr 0 -> Forall okr (w_intr w) -> quiet a = true ->
  match act_sem t a w with
  | AOk w' r => w_heap w' = w_heap w /\ w_marks w' = w_marks w /\ Forall okr (w_intr w') /\ quiet_res okr a r
  | ABlock => True
  | AUb | AAbort => False
  end.
Proof.
  intros H0 Hw. destruct a; try done; intros _; simpl; auto.
  - unfold do_hlock. by destruct (h_owner _).
  - unfold do_hwaitend. destruct (_ && _); [done |]. destruct (h_owner _); [done |].
    destruct (w_intr w) as [| c cs]; simpl; [by auto |]. apply Forall_cons in Hw as [Hc Hcs]. auto.
Qed.

(** ** The client of a mutex *)
Record client (C : Type) := Client {
  c_spec : nat -> bool -> forall R, action R -> C -> (C -> R -> Prop) -> Prop;
  c_inv : world -> option nat -> (nat -> C) -> Prop;
  c_gives : C -> Prop
}.
Arguments c_spec {C}.
Arguments c_inv {C}.
Arguments c_gives {C}.

(** [Won] has changed the lock word from free to taken, [Owned] has written [owner],
    [Clearing] has reset [owner], [Dropping] has found waiters and is about to free
    the lock word. *)
Inductive phase := Idle | Won | Owned | Clearing | Dropping.

#[export] Instance phase_eq_dec : EqDecision phase.
Proof. solve_decision. Defined.

Section Protocol.
Context {CB : Callbacks}.
(** The number of threads, the mutex object, the variable holding it, its type, the
    thread pointers and the library's flags. *)
Context (n : nat) (m : Z) (mp : Z * list fld) (ty inited dbg : Z) (self : nat -> Z).
Context (Hm : 0 < m) (Hmp : mp.1 <> m) (Hinited : inited <> 0).
Context (Hself : forall t u, self t = self u -> t = u) (Hself0 : forall t, self t <> NULL).

Notation L := (m, [f_lock]).
Notation O := (m, [f_owner]).

(** Locations the protocol never writes. *)
Inductive constant (t : nat) : Z * list fld -> Z -> Prop :=
| c_mp : constant t mp m
| c_type : constant t (m, [f_type]) ty
| c_count : constant t (m, [f_count]) 0
| c_inited : constant t (gv f_threads_inited) inited
| c_debug : constant t (gv f_debug_level) dbg
| c_tls : (t < n)%nat -> constant t (tls_loc t) (self t).

Lemma constant_other t l v f :
  constant t l v -> f = f_lock \/ f = f_owner -> l <> (m, [f]).
Proof.
  destruct 1; intros Hf Heq; try (destruct Hf; congruence);
    try (unfold gv, globals in Heq; injection Heq; intros; lia).
  subst mp. by apply Hmp.
Qed.

(** What the interruptions of waits are, and the client with its laws. [c_spec t b]
    says what thread [t] may do, [b] whether it holds the mutex; [c_inv w o] the
    invariant, [o] the thread that holds it. *)
Context (okr : Z -> Prop) (Hokr : okr 0).
Context {C : Type} (cl : client C).

Definition keeps (w w' : world) : Prop :=
  w_heap w' !! L = w_heap w !! L /\ w_heap w' !! O = w_heap w !! O /\ w_intr w' = w_intr w /\
  forall t l x, constant t l x -> w_heap w !! l = Some x -> w_heap w' !! l = Some x.

Class client_ok : Prop := {
  cl_mono : forall t b R (a : action R) c (P Q : C -> R -> Prop),
    (forall c r, P c r -> Q c r) -> c_spec cl t b R a c P -> c_spec cl t b R a c Q;
  cl_frame : forall w w' o cs cs', (forall l, l.1 <> m -> w_heap w' !! l = w_heap w !! l) ->
    w_marks w' = w_marks w -> (forall t, cs' t = cs t) -> c_inv cl w o cs -> c_inv cl w' o cs';
  cl_take : forall w t cs, c_inv cl w None cs -> c_inv cl w (Some t) cs;
  cl_give : forall w t cs, c_gives cl (cs t) -> c_inv cl w (Some t) cs -> c_inv cl w None cs;
  cl_sound : forall t R (a : action R) w o cs Φ, c_inv cl w o cs ->
    c_spec cl t (bool_decide (o = Some t)) R a (cs t) Φ ->
    match act_sem t a w with
    | AOk w' r => exists c, Φ c r /\ c_inv cl w' o (upd_ghost cs t c) /\ keeps w w'
    | ABlock => True
    | AUb | AAbort => False
    end
}.
Context {Hcl : client_ok}.

Notation ghost := (phase * C)%type.

Inductive mspec (t : nat) : forall R, action R -> ghost -> (ghost -> R -> Prop) -> Prop :=
| ms_const l v g (Φ : ghost -> Z -> Prop) :
    constant t l v -> Φ g v -> mspec t Z (Load l) g Φ
| ms_load_lock g (Φ : ghost -> Z -> Prop) :
    (forall v, Φ g v) -> mspec t Z (Load L) g Φ
| ms_load_owner g (Φ : ghost -> Z -> Prop) :
    (forall v, (v = self t <-> g.1 = Owned) -> Φ g v) -> mspec t Z (Load O) g Φ
| ms_cas c (Φ : ghost -> Z -> Prop) :
    Φ (Won, c) 0 -> (forall v, v <> 0 -> Φ (Idle, c) v) -> mspec t Z (Cas L 0 1) (Idle, c) Φ
| ms_xchg c (Φ : ghost -> Z -> Prop) :
    Φ (Won, c) 0 -> (forall v, v <> 0 -> Φ (Idle, c) v) -> mspec t Z (Xchg L 2) (Idle, c) Φ
| ms_own c (Φ : ghost -> unit -> Prop) :
    Φ (Owned, c) tt -> mspec t unit (Store O (self t)) (Won, c) Φ
| ms_disown c (Φ : ghost -> unit -> Prop) :
    c_gives cl c -> Φ (Clearing, c) tt -> mspec t unit (Store O NULL) (Owned, c) Φ
| ms_fetch c (Φ : ghost -> Z -> Prop) :
    Φ (Idle, c) 1 -> (forall v, v <> 1 -> Φ (Dropping, c) v) -> mspec t Z (FetchSub L 1) (Clearing, c) Φ
| ms_drop c (Φ : ghost -> unit -> Prop) :
    Φ (Idle, c) tt -> mspec t unit (Store L 0) (Dropping, c) Φ
| ms_client R (a : action R) p c (Φ : ghost -> R -> Prop) :
    p = Idle \/ p = Owned ->
    c_spec cl t (bool_decide (p = Owned)) R a c (fun c' r => Φ (p, c') r) -> mspec t R a (p, c) Φ
| ms_tls g (Φ : ghost -> Z * list fld -> Prop) :
    Φ g (tls_loc t) -> mspec t _ Tls g Φ
| ms_quiet R (a : action R) g (Φ : ghost -> R -> Prop) :
    quiet a = true -> (forall r, quiet_res okr a r -> Φ g r) -> mspec t R a g Φ.

Lemma mspec_mono t R (a : action R) g (P Q : ghost -> R -> Prop) :
  (forall g r, P g r -> Q g r) -> mspec t R a g P -> mspec t R a g Q.
Proof.
  intros HPQ.
  destruct 1; [eapply ms_const | apply ms_load_lock | apply ms_load_owner | apply ms_cas
    | apply ms_xchg | apply ms_own | apply ms_disown | apply ms_fetch | apply ms_drop
    | apply ms_client; [| eapply cl_mono; [| eassumption]] | apply ms_tls | apply ms_quiet]; eauto.
Qed.

(** ** The global invariant *)
Definition lock_word (v : Z) (gs : nat -> phase) : Prop :=
  0 <= v <= 2 /\
  (v = 0 -> forall t, gs t = Idle) /\
  (v <> 0 -> exists t, gs t <> Idle /\ forall u, u <> t -> gs u = Idle).

Definition phases (gs : nat -> ghost) (t : nat) : phase := (gs t).1.
Definition clients (gs : nat -> ghost) (t : nat) : C := (gs t).2.

Definition minv (w : world) (gs : nat -> ghost) : Prop :=
  exists v o occ,
    w_heap w !! L = Some v /\ w_heap w !! O = Some o /\
    (forall t l x, constant t l x -> w_heap w !! l = Some x) /\
    lock_word v (phases gs) /\
    (forall t, o = self t <-> phases gs t = Owned) /\
    (forall t, occ = Some t <-> phases gs t = Owned) /\
    c_inv cl w occ (clients gs) /\ Forall okr (w_intr w).

Lemma phases_upd gs t p c u : phases (upd_ghost gs t (p, c)) u = upd_ghost (phases gs) t p u.
Proof. unfold phases, upd_ghost. by destruct (decide (u = t)). Qed.

Lemma clients_upd gs t p c u : clients (upd_ghost gs t (p, c)) u = upd_ghost (clients gs) t c u.
Proof. unfold clients, upd_ghost. by destruct (decide (u = t)). Qed.

Lemma clients_same gs t p u : clients (upd_ghost gs t (p, clients gs t)) u = clients gs u.
Proof. rewrite clients_upd. unfold upd_ghost. by destruct (decide (u = t)) as [-> |]. Qed.

Lemma lock_word_taken v gs t :
  lock_word v gs -> gs t <> Idle -> v <> 0 /\ forall u, u <> t -> gs u = Idle.
Proof.
  intros (_ & H0 & H1) Ht. destruct (decide (v = 0)) as [Hv | Hv].
  - by rewrite H0 in Ht.
  - split; [done |]. destruct (H1 Hv) as (t' & _ & Hu). intros u Hne.
    destruct (decide (t = t')) as [-> | Hne']; [by apply Hu |].
    by rewrite (Hu t Hne') in Ht.
Qed.

Lemma lock_word_idle v gs t :
  lock_word v gs -> v = 0 -> gs t = Idle.
Proof. intros (_ & H0 & _) Hv. by apply H0. Qed.

Lemma lock_word_keep v gs t g :
  lock_word v gs -> gs t <> Idle -> g <> Idle -> lock_word v (upd_ghost gs t g).
Proof.
  intros Hl Ht Hg. destruct (lock_word_taken _ _ _ Hl Ht) as [Hv Hu].
  destruct Hl as (Hr & _ & _). split; [done |]. split; [done |]. intros _.
  exists t. unfold upd_ghost. rewrite decide_True by done. split; [done |].
  intros u Hne. rewrite decide_False by done. by apply Hu.
Qed.

Lemma lock_word_take v v' gs t g :
  lock_word v gs -> v = 0 -> 1 <= v' <= 2 -> g <> Idle ->
  lock_word v' (upd_ghost gs t g).
Proof.
  intros (_ & H0 & _) Hv Hv' Hg. split; [lia |]. split; [lia |]. intros _.
  exists t. unfold upd_ghost. rewrite decide_True by done. split; [done |].
  intros u Hne. rewrite decide_False by done. by apply H0.
Qed.

Lemma lock_word_release v gs t :
  lock_word v gs -> gs t <> Idle -> lock_word 0 (upd_ghost gs t Idle).
Proof.
  intros Hl Ht. destruct (lock_word_taken _ _ _ Hl Ht) as [_ Hu].
  split; [lia |]. split; [| lia]. intros _ u. unfold upd_ghost.
  destruct (decide (u = t)); [done |]. by apply Hu.
Qed.

Lemma lock_word_change v v' gs :
  lock_word v gs -> v <> 0 -> 1 <= v' <= 2 -> lock_word v' gs.
Proof. intros (_ & _ & H1) Hv Hv'. split; [lia |]. split; [lia |]. intros _. by apply H1. Qed.

Lemma lock_word_ext v gs gs' :
  (forall u, gs' u = gs u) -> lock_word v gs -> lock_word v gs'.
Proof.
  intros Hgs (Ha & Hb & Hc). split; [done |]. split.
  - intros Hv t. rewrite Hgs. by apply Hb.
  - intros Hv. destruct (Hc Hv) as (t & Ht & Hu). exists t. rewrite Hgs.
    split; [done |]. intros u Hne. rewrite Hgs. by apply Hu.
Qed.

(** ** Preservation *)
Lemma minv_heap w gs : minv w gs ->
  exists v o, w_heap w !! L = Some v /\ w_heap w !! O = Some o /\
    (forall t l x, constant t l x -> w_heap w !! l = Some x) /\
    lock_word v (phases gs) /\ (forall t, o = self t <-> phases gs t = Owned).
Proof. intros (v & o & occ & H1 & H2 & H3 & H4 & H5 & _). eauto 10. Qed.

Lemma minv_range w gs v : minv w gs -> w_heap w !! L = Some v -> 0 <= v <= 2.
Proof.
  intros (v' & o & Hv & _ & _ & [Hr _] & _)%minv_heap Hv'. rewrite Hv in Hv'. by injection Hv' as <-.
Qed.

Lemma minv_ext w w' gs gs' :
  w_heap w' = w_heap w -> w_marks w' = w_marks w -> Forall okr (w_intr w') -> (forall u, gs' u = gs u) ->
  minv w gs -> minv w' gs'.
Proof.
  intros Hh Hmk Hi Hgs (v & o & occ & H1 & H2 & H3 & H4 & H5 & H6 & H7 & H8).
  exists v, o, occ. rewrite Hh. split; [done |]. split; [done |]. split; [done |].
  split; [eapply lock_word_ext; [| done]; intros u; unfold phases; by rewrite Hgs |].
  split; [intros t; unfold phases; rewrite Hgs; apply H5 |].
  split; [intros t; unfold phases; rewrite Hgs; apply H6 |]. split; [| done].
  eapply cl_frame; [| done | | exact H7]; [intros l _; by rewrite Hh |]. intros t. unfold clients. by rewrite Hgs.
Qed.

Lemma ghost_same {G} (gs : nat -> G) t u : upd_ghost gs t (gs t) u = gs u.
Proof. unfold upd_ghost. by destruct (decide (u = t)) as [-> |]. Qed.

Lemma minv_same w gs t : minv w gs -> minv w (upd_ghost gs t (gs t)).
Proof. intros H. pose proof H as (? & ? & ? & ? & ? & ? & ? & ? & ? & ? & Hi). by eapply minv_ext; [.. | apply ghost_same | exact H]. Qed.

Lemma constants_upd w l v :
  (forall t l x, constant t l x -> w_heap w !! l = Some x) ->
  l = L \/ l = O ->
  forall t l' x, constant t l' x -> w_heap (upd_loc l v w) !! l' = Some x.
Proof.
  intros Hc Hl t l' x Hx. simpl. rewrite lookup_insert_ne; [by eapply Hc |].
  intros <-. destruct Hl as [-> | ->];
    [apply (constant_other t L x f_lock) | apply (constant_other t O x f_owner)]; auto.
Qed.

Lemma client_upd w o cs cs' l v :
  l = L \/ l = O -> (forall u, cs' u = cs u) -> c_inv cl w o cs -> c_inv cl (upd_loc l v w) o cs'.
Proof.
  intros Hl Hcs. apply cl_frame; [| done | done]. intros l' Hl'. apply upd_lookup_ne. by destruct Hl as [-> | ->]; intros <-.
Qed.

(** A fact on the phase of one thread that its change does not concern. *)
Lemma owned_upd gs t p c (P : nat -> Prop) :
  (forall u, P u <-> phases gs u = Owned) -> (p = Owned <-> phases gs t = Owned) ->
  forall u, P u <-> phases (upd_ghost gs t (p, c)) u = Owned.
Proof.
  intros Ho Hp u. rewrite phases_upd. unfold upd_ghost. destruct (decide (u = t)) as [-> |]; [| done].
  rewrite Hp. apply Ho.
Qed.

(** The lock word changes; the holder is as before. *)
Lemma minv_lock w gs v' t p :
  minv w gs -> (forall v, w_heap w !! L = Some v -> lock_word v (phases gs) -> lock_word v' (upd_ghost (phases gs) t p)) ->
  phases gs t <> Owned -> p <> Owned ->
  minv (upd_loc L v' w) (upd_ghost gs t (p, clients gs t)).
Proof.
  intros (v & o & occ & H1 & H2 & H3 & H4 & H5 & H6 & H7 & H8) Hl Ht Hp.
  exists v', o, occ. rewrite upd_lookup_eq, upd_lookup_ne by congruence.
  split; [done |]. split; [done |]. split; [apply constants_upd; auto |].
  split; [eapply lock_word_ext; [intros u; apply phases_upd |]; by apply (Hl v) |].
  split; [by apply owned_upd |]. split; [by apply owned_upd |]. split; [| done].
  eapply client_upd; [by left | intros u; apply clients_same | done].
Qed.

Lemma minv_contend w gs v v' t :
  minv w gs -> w_heap w !! L = Some v -> v <> 0 -> 1 <= v' <= 2 -> phases gs t = Idle ->
  minv (upd_loc L v' w) (upd_ghost gs t (Idle, clients gs t)).
Proof.
  intros HI Hv Hne Hr Ht. apply minv_lock; [done | | by rewrite Ht | done].
  intros v0 Hv0 Hl. rewrite Hv in Hv0. injection Hv0 as <-. rewrite <- Ht.
  eapply lock_word_ext; [intros u; apply ghost_same |]. by eapply lock_word_change.
Qed.

Lemma minv_take w gs v' t :
  minv w gs -> w_heap w !! L = Some 0 -> 1 <= v' <= 2 -> phases gs t = Idle ->
  minv (upd_loc L v' w) (upd_ghost gs t (Won, clients gs t)).
Proof.
  intros HI Hv Hr Ht. apply minv_lock; [done | | by rewrite Ht | done].
  intros v0 Hv0 Hl. rewrite Hv in Hv0. injection Hv0 as <-. by eapply lock_word_take.
Qed.

Lemma minv_release w gs t :
  minv w gs -> phases gs t = Clearing \/ phases gs t = Dropping ->
  minv (upd_loc L 0 w) (upd_ghost gs t (Idle, clients gs t)).
Proof.
  intros HI Hg. apply minv_lock; [done | | by destruct Hg as [-> | ->] | done].
  intros v0 _ Hl. eapply lock_word_release; [done |]. by destruct Hg as [-> | ->].
Qed.

(** The fetch-and-sub of a contended lock word. *)
Lemma minv_contended w gs t :
  minv w gs -> phases gs t = Clearing ->
  minv (upd_loc L 1 w) (upd_ghost gs t (Dropping, clients gs t)).
Proof.
  intros HI Hg. apply minv_lock; [done | | by rewrite Hg | done].
  intros v0 _ Hl. assert (phases gs t <> Idle) as Ht by by rewrite Hg.
  apply lock_word_keep; [| done | done].
  eapply lock_word_change; [done | | lia]. by eapply (lock_word_taken _ _ t).
Qed.

(** The holder writes [owner]: the phase changes between [Owned] and another one. *)
Lemma minv_owner w gs o' t p occ' :
  minv w gs -> phases gs t <> Idle -> p <> Idle ->
  (o' = self t <-> p = Owned) -> o' = self t \/ o' = NULL -> occ' = (if decide (p = Owned) then Some t else None) ->
  (forall occ, (forall u, occ = Some u <-> phases gs u = Owned) -> c_inv cl w occ (clients gs) -> c_inv cl w occ' (clients gs)) ->
  minv (upd_loc O o' w) (upd_ghost gs t (p, clients gs t)).
Proof.
  intros (v & o & occ & H1 & H2 & H3 & H4 & H5 & H6 & H7 & H8) Ht Hp Ho Hor -> Hc.
  destruct (lock_word_taken _ _ _ H4 Ht) as [_ Hu].
  assert (forall u, u <> t -> phases (upd_ghost gs t (p, clients gs t)) u = Idle) as Hu'
    by (intros u Hne; rewrite phases_upd; unfold upd_ghost; rewrite decide_False by done; by apply Hu).
  assert (phases (upd_ghost gs t (p, clients gs t)) t = p) as Hpt
    by (rewrite phases_upd; unfold upd_ghost; by rewrite decide_True).
  exists v, o', (if decide (p = Owned) then Some t else None). rewrite upd_lookup_eq, upd_lookup_ne by congruence.
  split; [done |]. split; [done |]. split; [apply constants_upd; auto |].
  split; [eapply lock_word_ext; [intros u; apply phases_upd | by apply lock_word_keep] |].
  split; [| split; [| split; [| done]]].
  - intros u. destruct (decide (u = t)) as [-> | Hne]; [by rewrite Hpt |]. rewrite (Hu' u Hne).
    split; [| done]. intros ->. exfalso. destruct Hor as [E | E]; [by apply Hne, Hself | by apply (Hself0 u)].
  - intros u. destruct (decide (u = t)) as [-> | Hne].
    + rewrite Hpt. destruct (decide (p = Owned)); by split.
    + rewrite (Hu' u Hne). destruct (decide (p = Owned)); split; congruence.
  - eapply client_upd; [by right | intros u; apply clients_same |]. by apply (Hc occ).
Qed.

Lemma sound_rmw w gs t (f : Z -> Z) (Φ : ghost -> Z -> Prop) :
  minv w gs ->
  (forall v, w_heap w !! L = Some v ->
     exists g', Φ g' v /\ minv (upd_loc L (f v) w) (upd_ghost gs t g')) ->
  match rmw L f w with
  | AOk w' r => exists g', Φ g' r /\ minv w' (upd_ghost gs t g')
  | ABlock => True
  | AUb | AAbort => False
  end.
Proof. intros (v & o & Hv & _)%minv_heap Hf. unfold rmw. rewrite Hv. by apply Hf. Qed.

(** Exchanges that can take the lock word. *)
Lemma sound_take w gs t c (f : Z -> Z) (Φ : ghost -> Z -> Prop) :
  minv w gs -> gs t = (Idle, c) -> 1 <= f 0 <= 2 ->
  (forall v, 1 <= v <= 2 -> 1 <= f v <= 2) ->
  Φ (Won, c) 0 -> (forall v, v <> 0 -> Φ (Idle, c) v) ->
  forall v, w_heap w !! L = Some v ->
    exists g', Φ g' v /\ minv (upd_loc L (f v) w) (upd_ghost gs t g').
Proof.
  intros HI Hg H0 Hf HW HN v Hv. pose proof (minv_range _ _ _ HI Hv) as Hr.
  assert (phases gs t = Idle) as Hp by (unfold phases; by rewrite Hg).
  assert (clients gs t = c) as <- by (unfold clients; by rewrite Hg).
  destruct (decide (v = 0)) as [-> | Hne].
  - exists (Won, clients gs t). split; [done |]. by apply minv_take.
  - exists (Idle, clients gs t). split; [by apply HN |]. apply (minv_contend _ _ v); try done. apply Hf. lia.
Qed.

(** A step of the client, in a phase that it keeps. *)
Lemma sound_client w gs t R (a : action R) p c (Φ : ghost -> R -> Prop) :
  minv w gs -> gs t = (p, c) -> p = Idle \/ p = Owned ->
  c_spec cl t (bool_decide (p = Owned)) R a c (fun c' r => Φ (p, c') r) ->
  match act_sem t a w with
  | AOk w' r => exists g', Φ g' r /\ minv w' (upd_ghost gs t g')
  | ABlock => True
  | AUb | AAbort => False
  end.
Proof.
  intros (v & o & occ & H1 & H2 & H3 & H4 & H5 & H6 & H7 & H8) Hg Hp Hs.
  assert (phases gs t = p) as Ept by (unfold phases; by rewrite Hg).
  assert (clients gs t = c) as Ec by (unfold clients; by rewrite Hg).
  assert (bool_decide (p = Owned) = bool_decide (occ = Some t)) as E.
  { apply bool_decide_ext. by rewrite H6, Ept. }
  rewrite E, <- Ec in Hs. pose proof (cl_sound t R a w occ (clients gs) _ H7 Hs) as Hsem.
  destruct (act_sem t a w) as [w' r | | |]; try done. destruct Hsem as (c' & HΦ & Hinv & K1 & K2 & K3 & K4).
  exists (p, c'). split; [done |]. exists v, o, occ. rewrite K1, K2, K3.
  split; [done |]. split; [done |]. split; [intros u l x Hx; eapply K4; eauto |].
  assert (forall u, phases (upd_ghost gs t (p, c')) u = phases gs u) as Eph.
  { intros u. rewrite phases_upd. unfold upd_ghost. by destruct (decide (u = t)) as [-> |]. }
  split; [by eapply lock_word_ext |]. split; [intros u; rewrite Eph; apply H5 |]. split; [intros u; rewrite Eph; apply H6 |].
  split; [| done]. eapply cl_frame; [done | done | | exact Hinv]. intros u. apply clients_upd.
Qed.

Lemma mspec_sound : spec_sound mspec minv.
Proof.
  intros t R a w gs Φ HI Hs. pose proof (minv_heap _ _ HI) as (v & o & Hv & Ho & Hc & Hl & Hh).
  pose proof (minv_same w gs t HI) as Hsame.
  remember (gs t) as g eqn:Hg. symmetry in Hg.
  assert (forall p c, g = (p, c) -> phases gs t = p /\ clients gs t = c) as Hpc
    by (intros p c ->; unfold phases, clients; by rewrite Hg).
  destruct Hs as [l x g Φ Hx HΦ | g Φ HΦ | g Φ HΦ | c Φ HW HN | c Φ HW HN | c Φ HΦ | c Φ Hgv HΦ
    | c Φ H1 H2 | c Φ HΦ | R a p c Φ Hp HΦ | g Φ HΦ | R a g Φ Hq HΦ]; cbn [act_sem].
  - rewrite (Hc t l x Hx). by exists g.
  - rewrite Hv. by exists g.
  - rewrite Ho. exists g. split; [| done]. apply HΦ. rewrite Hh. unfold phases. by rewrite Hg.
  - apply (sound_rmw w gs t); [done |]. eapply sound_take; try done.
    intros x Hx. destruct (x =? 0) eqn:E; lia.
  - apply (sound_rmw w gs t); [done |]. eapply sound_take; try done; lia.
  - destruct (Hpc _ _ eq_refl) as [Hp <-]. rewrite Ho. exists (Owned, clients gs t). split; [done |].
    eapply minv_owner; rewrite ?Hp; try done; [by left |].
    intros occ Hocc. assert (occ = None) as ->.
    { destruct occ as [u |]; [| done]. destruct (lock_word_taken _ _ t Hl) as [_ Hu]; [by rewrite Hp |].
      assert (phases gs u = Owned) as E by by apply Hocc. destruct (decide (u = t)) as [-> | Hne]; [congruence |].
      by rewrite (Hu u Hne) in E. }
    apply cl_take.
  - destruct (Hpc _ _ eq_refl) as [Hp <-]. rewrite Ho. exists (Clearing, clients gs t). split; [done |].
    eapply minv_owner; rewrite ?Hp; try done; [| by right |].
    + split; [| done]. intros E. by destruct (Hself0 t).
    + intros occ Hocc. assert (occ = Some t) as -> by by apply Hocc. by apply cl_give.
  - destruct (Hpc _ _ eq_refl) as [Hp <-]. apply (sound_rmw w gs t); [done |]. intros v' Hv'.
    pose proof (minv_range _ _ _ HI Hv') as Hr. assert (v' <> 0).
    { rewrite Hv in Hv'. injection Hv' as <-. eapply (lock_word_taken _ _ t); [done |]. by rewrite Hp. }
    rewrite i32_small by lia. destruct (decide (v' = 1)) as [-> | Hne].
    + exists (Idle, clients gs t). split; [done |]. apply minv_release; [done |]. by left.
    + exists (Dropping, clients gs t). split; [by apply H2 |]. assert (v' = 2) as -> by lia. by apply minv_contended.
  - destruct (Hpc _ _ eq_refl) as [Hp <-]. rewrite Hv. exists (Idle, clients gs t). split; [done |].
    apply minv_release; [done |]. by right.
  - by eapply sound_client.
  - by exists g.
  - pose proof HI as (? & ? & ? & _ & _ & _ & _ & _ & _ & _ & Hi).
    pose proof (quiet_sem_res okr R a t w Hokr Hi Hq) as Hsem.
    destruct (act_sem t a w) as [w' r | | |]; try done. destruct Hsem as (E1 & E2 & E3 & E4).
    exists g. split; [by apply HΦ |]. by eapply minv_ext.
Qed.

(** ** The mutex operations follow the protocol

    [Pw] is what the client may rely on when a wait of the HAL ends. *)
Context {HAL : Phal} {HQ : PhalQuiet HAL} (Pw : Z -> Prop) {HPw : PhalWaits okr Pw HAL}.
Notation wpm := (wp mspec).

Lemma wp_quiet {A} t g (p : prog A) (Q : ghost -> A -> Prop) :
  quiet_prog p -> (forall a, Q g a) -> wpm t g p Q.
Proof.
  revert g Q. induction p as [A a | A R a k IH | A S R body IHb s k IH];
    intros g Q Hq HQ'; simpl in *.
  - done.
  - apply ms_quiet; [apply Hq |]. intros r _. apply IH; [apply Hq | done].
  - exists (fun g' _ => g' = g). split; [done |]. intros g' s' ->.
    apply IHb; [apply Hq |]. intros [s'' | r]; [done |]. apply IH; [apply Hq | done].
Qed.

Lemma wp_quiet_post {A} t g (P : A -> Prop) (p : prog A) (Q : ghost -> A -> Prop) :
  quiet_post okr P p -> (forall a, P a -> Q g a) -> wpm t g p Q.
Proof.
  revert g Q. induction p as [A a | A R a k IH | A S R body IHb s k IH];
    intros g Q Hq HQ'; simpl in *.
  - by apply HQ'.
  - destruct Hq as [Hq Hk]. apply ms_quiet; [done |]. intros r Hr. by apply (IH r P); [apply Hk |].
  - destruct Hq as [Hq Hk]. exists (fun g' _ => g' = g). split; [done |]. intros g' s' ->.
    apply wp_quiet; [apply Hq |]. intros [s'' | r]; [done |]. by apply (IH r P).
Qed.

Lemma wp_bind' {A B} t g (p : prog A) (f : A -> prog B) (Q : ghost -> B -> Prop) :
  wpm t g p (fun g' a => wpm t g' (f a) Q) -> wpm t g (bind p f) Q.
Proof. apply wp_bind. apply mspec_mono. Qed.

Lemma wp_debug t g level fmt (Q : ghost -> unit -> Prop) :
  Q g tt -> wpm t g (_rthread_debug level fmt) Q.
Proof.
  intros HQ'. apply (ms_const _ _ dbg); [constructor |].
  simpl. destruct (level <=? dbg); simpl; [| done].
  apply ms_quiet; [done |]. by intros [].
Qed.

Lemma wp_self t g (Q : ghost -> Z -> Prop) :
  (t < n)%nat -> Q g (self t) -> wpm t g pthread_self Q.
Proof.
  intros Ht HQ'. apply (ms_const _ _ inited); [constructor |]. simpl.
  destruct (inited =? 0) eqn:E; [lia |].
  rewrite phal_tls_thread. apply ms_tls. by apply (ms_const _ _ (self t)); [by constructor |].
Qed.

(** A read of one of the constant locations. *)
Lemma wp_load {B} t g l v (k : Z -> prog B) (Q : ghost -> B -> Prop) :
  constant t l v -> wpm t g (k v) Q -> wpm t g (bind (act (Load l)) k) Q.
Proof. intros Hc Hk. by apply (ms_const _ _ v). Qed.

Lemma wp_load_lock {B} t g (k : Z -> prog B) (Q : ghost -> B -> Prop) :
  (forall v, wpm t g (k v) Q) -> wpm t g (bind (act (Load L)) k) Q.
Proof. intros Hk. by apply ms_load_lock. Qed.

Lemma wp_load_owner {B} t g (k : Z -> prog B) (Q : ghost -> B -> Prop) :
  (forall v, (v = self t <-> g.1 = Owned) -> wpm t g (k v) Q) ->
  wpm t g (bind (act (Load O)) k) Q.
Proof. intros Hk. by apply ms_load_owner. Qed.

(** An action of the client, in a phase that it keeps. *)
Lemma wp_client {R B} t p c (a : action R) (k : R -> prog B) (Q : ghost -> B -> Prop) :
  p = Idle \/ p = Owned ->
  c_spec cl t (bool_decide (p = Owned)) R a c (fun c' r => wpm t (p, c') (k r) Q) ->
  wpm t (p, c) (bind (act a) k) Q.
Proof. intros Hp Hs. by apply ms_client. Qed.

Lemma wp_static_init t c (Q : ghost -> Z -> Prop) :
  Q (Idle, c) 0 -> wpm t (Idle, c) (mutex_static_init mp) Q.
Proof.
  intros HQ'. apply (wp_load _ _ _ m); [constructor |].
  destruct (m =? NULL) eqn:E; [unfold NULL in *; lia | done].
Qed.

(** An idle thread that fails to win the lock word sees [EBUSY]: the
    recursive, error-checking and aborting branches are for the owner. *)
Lemma wp_trylock t c trywait abs (Q : ghost -> Z -> Prop) :
  (t < n)%nat -> Q (Owned, c) 0 -> Q (Idle, c) EBUSY ->
  wpm t (Idle, c) (_rthread_mutex_trylock m trywait abs) Q.
Proof.
  intros Ht HO HB. apply wp_bind', wp_self; [done |]. apply ms_cas.
  - simpl. by apply ms_own.
  - intros v Hv. simpl. destruct (v =? UNLOCKED) eqn:E; [unfold UNLOCKED in *; lia |].
    apply wp_load_owner. intros o Ho.
    destruct (o =? self t) eqn:Eo; [| done].
    apply Z.eqb_eq in Eo. apply Ho in Eo. done.
Qed.

Lemma wp_spin t c (Q : ghost -> unit -> Prop) : Q (Idle, c) tt -> wpm t (Idle, c) (mutex_spin m) Q.
Proof.
  intros HQ'. apply (wp_loop _ _ _ _ _ (fun g _ => g = (Idle, c))); [done |].
  intros g i ->. destruct (i <? SPIN_COUNT); [| done].
  apply wp_load_lock. intros v. by destruct (v =? UNLOCKED).
Qed.

Definition asleep_phase (lock : Z) : phase := if lock =? UNLOCKED then Won else Idle.

(** The slow path ends holding the lock word, or timed out without it. *)
Lemma wp_sleep t c abs lock g (Q : ghost -> option Z -> Prop) :
  g = (asleep_phase lock, c) -> Q (Won, c) None -> (Pw ETIMEDOUT -> Q (Idle, c) (Some ETIMEDOUT)) ->
  wpm t g (mutex_sleep m abs lock) Q.
Proof.
  intros Hg HW HT. unfold asleep_phase in Hg.
  apply (wp_loop _ _ _ _ _ (fun g l => g = (asleep_phase l, c))); [done |].
  intros g' l ->. unfold asleep_phase. destruct (l =? UNLOCKED) eqn:E; [done |].
  apply wp_bind', wp_quiet; [apply phal_lock_quiet |]. intros _.
  apply wp_bind', (wp_quiet_post _ _ Pw); [apply phal_wait_post |]. intros error He.
  apply wp_bind', wp_quiet; [apply phal_unlock_quiet |]. intros _.
  destruct (error =? ETIMEDOUT) eqn:Ee; [apply Z.eqb_eq in Ee as ->; by apply HT |].
  apply ms_xchg; [done |]. intros v Hv. simpl. unfold asleep_phase.
  destruct (v =? UNLOCKED) eqn:Ev; [unfold UNLOCKED in *; lia | done].
Qed.

(** What a locking call can answer: the mutex, that it is busy (a [trylock]), or that
    a wait timed out. *)
Definition lock_post (trywait : bool) c (Q : ghost -> Z -> Prop) : Prop :=
  Q (Owned, c) 0 /\ (trywait = true -> Q (Idle, c) EBUSY) /\ (Pw ETIMEDOUT -> Q (Idle, c) ETIMEDOUT).

Lemma wp_timedlock t c trywait abs timed (Q : ghost -> Z -> Prop) :
  (t < n)%nat -> mp <> ptr NULL -> lock_post trywait c Q ->
  wpm t (Idle, c) (_rthread_mutex_timedlock mp trywait abs timed) Q.
Proof.
  intros Ht Hmp0 (HO & HB & HT). apply wp_bind', wp_self; [done |].
  rewrite (is_null_false mp) by done.
  apply wp_bind', wp_static_init. cbv beta.
  change (negb (0 =? 0)) with false. cbv iota.
  apply (wp_load _ _ _ m); [constructor |].
  apply wp_load_owner. intros o _. apply wp_bind', wp_debug.
  apply wp_bind', wp_trylock; [done | done |].
  destruct trywait; [by apply HB |].
  change (negb (EBUSY =? EBUSY) || false) with false. cbv iota.
  apply wp_bind', wp_spin.
  assert (forall lock g, g = (asleep_phase lock, c) ->
    wpm t g (bind (mutex_sleep m abs lock) (fun r => match r with
      | Some error => Ret error
      | None => bind (act (Store O (self t))) (fun _ => Ret 0) end)) Q) as Hsl.
  { intros lock g Hg. apply wp_bind', (wp_sleep _ c); [done | | done]. by apply ms_own. }
  apply ms_cas; [by apply ms_own |].
  intros v Hv. simpl. destruct (v =? UNLOCKED) eqn:E; [unfold UNLOCKED in *; lia |].
  destruct (v =? CONTENDED); simpl; [apply Hsl; unfold asleep_phase; by rewrite E |].
  apply ms_xchg; [by apply Hsl |]. intros v' Hv'. apply Hsl. unfold asleep_phase.
  destruct (v' =? UNLOCKED) eqn:E'; [unfold UNLOCKED in *; lia | done].
Qed.

Lemma wp_release t c (Q : ghost -> Z -> Prop) :
  c_gives cl c -> Q (Idle, c) 0 -> wpm t (Owned, c) (mutex_release m) Q.
Proof.
  intros Hg HQ'. apply ms_disown; [done |]. apply ms_fetch; [done |]. intros v Hv. simpl.
  destruct (v =? UNLOCKED + 1) eqn:E; [unfold UNLOCKED in *; lia |].
  apply ms_drop.
  apply wp_bind', wp_quiet; [apply phal_lock_quiet |]. intros _.
  apply wp_bind', wp_quiet; [apply phal_signal_quiet |]. intros _.
  by apply wp_bind', wp_quiet; [apply phal_unlock_quiet |].
Qed.

(** The owner gives the mutex back and the call returns 0. *)
Lemma wp_unlock t c (Q : ghost -> Z -> Prop) :
  (t < n)%nat -> mp <> ptr NULL -> c_gives cl c -> Q (Idle, c) 0 ->
  wpm t (Owned, c) (pthread_mutex_unlock mp) Q.
Proof.
  intros Ht Hmp0 Hg HQ'. apply wp_bind', wp_self; [done |].
  rewrite (is_null_false mp) by done.
  apply (wp_load _ _ _ m); [constructor |].
  destruct (m =? NULL) eqn:Em; [unfold NULL in *; lia |].
  apply wp_load_owner. intros _ _. apply wp_bind', wp_debug.
  apply wp_load_owner. intros o Ho.
  assert (o = self t) as -> by by apply Ho.
  rewrite Z.eqb_refl. apply (wp_load _ _ _ ty); [constructor |].
  destruct (ty =? PTHREAD_MUTEX_RECURSIVE); [| by apply wp_release].
  apply (wp_load _ _ _ 0); [constructor |]. by apply wp_release.
Qed.

(** A free mutex, and every client in a state that its invariant allows. *)
Lemma minv_free w cs :
  w_heap w !! L = Some UNLOCKED -> w_heap w !! O = Some NULL ->
  (forall t l x, constant t l x -> w_heap w !! l = Some x) ->
  c_inv cl w None cs -> Forall okr (w_intr w) -> minv w (fun t => (Idle, cs t)).
Proof.
  intros HL HO Hc Hinv Hi. exists UNLOCKED, NULL, None. unfold phases, clients. simpl.
  split; [done |]. split; [done |]. split; [done |].
  split; [split; [unfold UNLOCKED; lia | by split] |].
  split; [intros t; split; [intros E; by destruct (Hself0 t) | done] |].
  split; [done |]. split; [| done]. by eapply cl_frame; [.. | exact Hinv].
Qed.
End Protocol.
