(* ===== verification/MutexExcl.v ===== *)
(** * Mutual exclusion of the pthread mutex

    Any number of threads repeatedly take and release one initialised mutex
    through [pthread_mutex_lock] (or [trylock], [timedlock]) and
    [pthread_mutex_unlock]; the interleaving is arbitrary and so are wake-ups,
    time-outs and interruptions of the HAL semaphore. *)

From stdpp Require Import base list gmap relations strings.
From Stdlib Require Import ZArith Lia.
From S2P Require Import Prelude CMem Prog PthreadH Phal Internal Mutex Interleave MutexProtocol.
Local Open Scope Z_scope.
Local Open Scope prog_scope.

(** ** The clients and what they must not do *)

(** Marks 1 and 0 bracket the critical section. *)
Definition enter : prog unit := act (Mark 1).
Definition leave : prog unit := act (Mark 0).

Definition cs_client {HAL : Phal} (lock : Z * list fld -> prog Z) (mp : Z * list fld)
  : prog unit :=
  loop (fun _ : unit =>
    do e <- lock mp;
    if e =? 0 then
      enter ;;
      leave ;;
      pthread_mutex_unlock mp ;;
      Ret (inl tt)
    else Ret (inl tt)) tt.

(** Replay of the marks: the thread inside the critical section, or [None] as
    soon as two threads have been inside together. *)
Definition cs_step (st : option (option nat)) (tz : nat * Z) : option (option nat) :=
  match st, tz with
  | Some None, (t, 1) => Some (Some t)
  | Some (Some u), (t, 0) => if decide (u = t) then Some None else None
  | _, _ => None
  end.

Definition cs_replay (marks : list (nat * Z)) : option (option nat) :=
  fold_left cs_step marks (Some None).

Definition exclusive (marks : list (nat * Z)) : Prop := cs_replay marks <> None.

Lemma cs_replay_snoc ms x : cs_replay (ms ++ [x]) = cs_step (cs_replay ms) x.
Proof. unfold cs_replay. by rewrite fold_left_app. Qed.

(** ** The critical section as a client of the mutex

    The state of a thread says whether it is inside. *)
Inductive cs_spec (t : nat) : bool -> forall R, action R -> bool -> (bool -> R -> Prop) -> Prop :=
| cs_enter (Φ : bool -> unit -> Prop) : Φ true tt -> cs_spec t true unit (Mark 1) false Φ
| cs_leave (Φ : bool -> unit -> Prop) : Φ false tt -> cs_spec t true unit (Mark 0) true Φ.

(** The marks so far are exclusive, and the thread inside holds the mutex. *)
Definition cs_inv (w : world) (o : option nat) (cs : nat -> bool) : Prop :=
  exists occ, cs_replay (w_marks w) = Some occ /\ (forall t, occ = Some t <-> cs t = true) /\
    (forall t, cs t = true -> o = Some t).

Definition cs_owner : client bool := Client bool cs_spec cs_inv (fun c => c = false).

Definition any (_ : Z) : Prop := True.

Lemma all_any l : Forall any l.
Proof. by apply Forall_true. Qed.

Section CriticalSection.
Context {CB : Callbacks}.
Context (n : nat) (m : Z) (mp : Z * list fld) (ty inited dbg : Z) (self : nat -> Z).
Context (Hm : 0 < m) (Hmp : mp.1 <> m) (Hmp0 : mp <> ptr NULL) (Hinited : inited <> 0).
Context (Hself : forall t u, self t = self u -> t = u) (Hself0 : forall t, self t <> NULL).

(** A mark by the thread that holds the mutex. *)
Lemma cs_mark t w cs z (c' : bool) :
  cs_inv w (Some t) cs ->
  (cs t = false -> cs_step (Some None) (t, z) = Some (if c' then Some t else None)) ->
  (cs t = true -> cs_step (Some (Some t)) (t, z) = Some (if c' then Some t else None)) ->
  cs_inv (set_marks (w_marks w ++ [(t, z)]) w) (Some t) (upd_ghost cs t c').
Proof.
  intros (occ & Hr & Ho & Hi) Hf Ht. exists (if c' then Some t else None). simpl.
  assert (forall u, u <> t -> cs u = false) as Hu.
  { intros u Hne. destruct (cs u) eqn:E; [| done]. apply Hi in E. congruence. }
  split; [| split].
  - rewrite cs_replay_snoc, Hr. destruct (cs t) eqn:E.
    + assert (occ = Some t) as -> by by apply Ho. by apply Ht.
    + assert (occ = None) as ->; [| by apply Hf]. destruct occ as [u |]; [| done].
      assert (cs u = true) as Eu by by apply Ho. assert (Some t = Some u) as [= ->] by by apply Hi. congruence.
  - intros u. unfold upd_ghost. destruct (decide (u = t)) as [-> | Hne]; [by destruct c' |].
    rewrite (Hu u Hne). destruct c'; split; congruence.
  - intros u. unfold upd_ghost. destruct (decide (u = t)) as [-> | Hne]; [done |]. by rewrite (Hu u Hne).
Qed.

#[export] Instance cs_owner_ok : client_ok n m mp ty inited dbg self cs_owner.
Proof.
  split; simpl.
  - intros t b R a c P Q HPQ Hs. destruct Hs; [apply cs_enter | apply cs_leave]; auto.
  - intros w w' o cs cs' _ Hmk Hcs (occ & Hr & Ho & Hi). exists occ. rewrite Hmk. split; [done |].
    split; intros t; rewrite Hcs; auto.
  - intros w t cs (occ & Hr & Ho & Hi). exists occ. split; [done |]. split; [done |].
    intros u Hu. by apply Hi in Hu.
  - intros w t cs Hg (occ & Hr & Ho & Hi). exists occ. split; [done |]. split; [done |].
    intros u Hu. pose proof (Hi u Hu) as [= ->]. congruence.
  - intros t R a w o cs Φ HI Hs.
    remember (bool_decide (o = Some t)) as b eqn:Eb. remember (cs t) as c eqn:Ec. symmetry in Eb, Ec.
    destruct Hs as [Φ HΦ | Φ HΦ]; apply bool_decide_eq_true in Eb as ->; simpl; eexists; (split; [exact HΦ |]);
      (split; [apply cs_mark; rewrite ?Ec; try done; intros _; simpl; by rewrite ?decide_True | done]).
Qed.

Context {HAL : Phal} {HQ : PhalQuiet HAL}.
Notation wpm := (wp (mspec n m mp ty inited dbg self any cs_owner)).
Notation cs_bind := (wp_bind' n m mp ty inited dbg self any cs_owner).
Notation cs_unlock := (wp_unlock n m mp ty inited dbg self Hm Hinited any cs_owner).

#[export] Instance any_wait : PhalWaits any any HAL.
Proof. intros s abs. apply quiet_prog_post, phal_wait_quiet. Qed.

Lemma wp_cs_client t (lock : Z * list fld -> prog Z) :
  (t < n)%nat ->
  (forall Q, Q (Owned, false) 0 -> (forall e, e <> 0 -> Q (Idle, false) e) -> wpm t (Idle, false) (lock mp) Q) ->
  wpm t (Idle, false) (cs_client lock mp) (fun _ _ => True).
Proof.
  intros Ht Hlock. apply (wp_loop _ _ _ _ _ (fun g _ => g = (Idle, false))); [done |].
  intros g [] ->. apply cs_bind, Hlock.
  - change (0 =? 0) with true. cbv iota.
    apply wp_client; [by right |]. rewrite bool_decide_true by done. apply cs_enter.
    apply wp_client; [by right |]. rewrite bool_decide_true by done. apply cs_leave.
    by apply cs_bind, cs_unlock.
  - intros e He. destruct (e =? 0) eqn:E; [lia | done].
Qed.
End CriticalSection.

(** ** Mutual exclusion *)

(** The ways a client takes the mutex. *)
Inductive lock_call := ByLock | ByTrylock | ByTimedlock (abs : timespec).

Definition lock_fn {HAL : Phal} (c : lock_call) : Z * list fld -> prog Z :=
  match c with
  | ByLock => pthread_mutex_lock
  | ByTrylock => pthread_mutex_trylock
  | ByTimedlock abs => fun mp => pthread_mutex_timedlock mp abs
  end.

(** An initialised, free mutex [m] in the variable [mp], and [n] threads whose
    thread pointers are [self]. *)
Record mutex_ready (n : nat) (m : Z) (mp : Z * list fld) (ty : Z) (self : nat -> Z)
  (w : world) : Prop := {
  mr_pos : 0 < m;
  mr_var : mp.1 <> m /\ mp <> ptr NULL;
  mr_mp : w_heap w !! mp = Some m;
  mr_lock : w_heap w !! (m, [f_lock]) = Some UNLOCKED;
  mr_owner : w_heap w !! (m, [f_owner]) = Some NULL;
  mr_type : w_heap w !! (m, [f_type]) = Some ty;
  mr_count : w_heap w !! (m, [f_count]) = Some 0;
  mr_inited : exists i, w_heap w !! gv f_threads_inited = Some i /\ i <> 0;
  mr_debug : is_Some (w_heap w !! gv f_debug_level);
  mr_tls : forall t, (t < n)%nat -> w_heap w !! tls_loc t = Some (self t);
  mr_self_inj : forall t u, self t = self u -> t = u;
  mr_self_nonnull : forall t, self t <> NULL;
  mr_marks : w_marks w = []
}.

Definition cs_pool {HAL : Phal} (mp : Z * list fld) (calls : list lock_call)
  : list (prog unit) := map (fun c => cs_client (lock_fn c) mp) calls.

Section Exclusion.
Context {CB : Callbacks} {HAL : Phal} {HQ : PhalQuiet HAL}.

Lemma mutex_ready_const n m mp ty self w i d t l x :
  mutex_ready n m mp ty self w ->
  w_heap w !! gv f_threads_inited = Some i -> w_heap w !! gv f_debug_level = Some d ->
  constant n m mp ty i d self t l x -> w_heap w !! l = Some x.
Proof. intros [] Hi Hd Hx. destruct Hx; auto. Qed.

Lemma cs_config_ok n m mp ty self w calls i d :
  mutex_ready n m mp ty self w -> length calls = n ->
  w_heap w !! gv f_threads_inited = Some i -> i <> 0 ->
  w_heap w !! gv f_debug_level = Some d ->
  config_ok (mspec n m mp ty i d self any cs_owner) (minv n m mp ty i d self any cs_owner)
    (Config w (cs_pool mp calls)).
Proof.
  intros Hr Hn Hi Hi0 Hd. exists (fun _ => (Idle, false)).
  pose proof (fun t l x => mutex_ready_const n m mp ty self w i d t l x Hr Hi Hd) as Hconst.
  destruct Hr. destruct mr_var0. split.
  - apply (minv_free n m mp ty i d self mr_self_nonnull0 any cs_owner w (fun _ => false)); try done;
      [exists None; by rewrite mr_marks0 | apply all_any].
  - intros t p Hp. unfold cs_pool in Hp. simpl in Hp.
    apply list_lookup_fmap_Some in Hp as (c & -> & Hc).
    pose proof (lookup_lt_Some _ _ _ Hc) as Hlt. rewrite Hn in Hlt.
    apply wp_cs_client; try done.
    intros Q HO HE. destruct c; (eapply (wp_timedlock _ _ _ _ _ _ _ mr_pos0 Hi0 _ _ any); try done;
      split; [done |]; split; intros _; by apply HE).
Qed.

(** C1: at most one client is between a successful locking call and its unlock,
    and nothing goes wrong, whatever the interleaving. *)
Theorem mutex_mutual_exclusion n m mp ty self w calls c :
  mutex_ready n m mp ty self w -> length calls = n ->
  reachable (Config w (cs_pool mp calls)) c ->
  exclusive (w_marks (c_world c)) /\ safe c.
Proof.
  intros Hr Hn Hc. destruct (mr_inited _ _ _ _ _ _ Hr) as (i & Hi & Hi0).
  destruct (mr_debug _ _ _ _ _ _ Hr) as [d Hd].
  pose proof (cs_config_ok _ _ _ _ _ _ _ _ _ Hr Hn Hi Hi0 Hd) as Hok.
  destruct Hr. destruct mr_var0.
  assert (spec_sound (mspec n m mp ty i d self any cs_owner) (minv n m mp ty i d self any cs_owner)) as Hs
    by (apply mspec_sound; try done; apply _).
  apply (config_ok_reachable _ (mspec_mono n m mp ty i d self any cs_owner) _ Hs) in Hc as Hc'; [| done].
  split; [| by eapply config_ok_safe].
  destruct Hc' as (gs & (v & o & occ & _ & _ & _ & _ & _ & _ & (occ' & Hm & _) & _) & _).
  unfold exclusive. by rewrite Hm.
Qed.
End Exclusion.
