(* ===== verification/OnceExcl.v ===== *)
(** * Concurrent one-time initialisation

    Any number of threads call [pthread_once] on one control block, again and again and
    under any interleaving: the routine runs at most once, and every call that returns
    does so after it has. The control block is a client of the mutex protocol. *)

From stdpp Require Import base list gmap relations strings.
From Stdlib Require Import ZArith Lia.
From S2P Require Import Prelude CMem Prog PthreadH Phal Internal Mutex Interleave Exec.
From S2P Require Import MutexProtocol MutexExcl Barrier.
Local Open Scope Z_scope.
Local Open Scope prog_scope.

(** ** The clients *)

(** A thread that calls [pthread_once] for ever and marks what each call returns. *)
Definition once_client {HAL : Phal} (oc : Z * list fld) (init : Z) : prog unit :=
  loop (fun _ : unit =>
    do r <- pthread_once oc init;
    act (Mark r) ;;
    Ret (inl tt)) tt.

(** What the marks may be: nothing yet, or one run of the routine and then calls that
    return 0. *)
Definition once_trace (init : Z) (marks : list (nat * Z)) : Prop :=
  marks = [] \/ exists u rest, marks = (u, init) :: rest /\ Forall (fun x => x.2 = 0) rest.

(** The documented waits without a time limit: they do not end in a time-out. *)
Definition no_timeout (e : Z) : Prop := e <> ETIMEDOUT.

#[export] Instance doc_no_timeout : PhalWaits no_timeout no_timeout DocPhal.
Proof. intros s abs. simpl. split; [done |]. intros _ _. split; [done |]. by intros r Hr. Qed.

#[export] Instance bio_no_timeout : PhalWaits no_timeout no_timeout BioPhalTls.
Proof. intros s abs. simpl. split; [done |]. by intros _ _. Qed.

(** [Saw] holds the mutex and has read that the routine has to run, [Ran] has run it,
    [Initialised] knows that the state says so. *)
Inductive once_phase := Fresh | Saw | Ran | Initialised.

#[export] Instance once_phase_eq_dec : EqDecision once_phase.
Proof. solve_decision. Defined.

Definition working (c : once_phase) : Prop := c = Saw \/ c = Ran.

Section Once.
Context {CB : Callbacks}.
Context (n : nat) (m : Z) (oc : Z * list fld) (ty inited dbg : Z) (self : nat -> Z) (init : Z).

(** The routine leaves the mark [init], and does not touch the mutex, the control
    block, the library's variables or the thread slots; what else it does is free. *)
Definition once_routine : Prop := forall t w, exists w' r,
  fn_call init 0 t w = Some (w', r) /\ w_marks w' = w_marks w ++ [(t, init)] /\
  w_intr w' = w_intr w /\
  forall l, l.1 = m \/ l.1 = oc.1 \/ l.1 < 0 -> w_heap w' !! l = w_heap w !! l.

Context (Hm : 0 < m) (Hoc : oc.1 <> m) (Hoc0 : 0 < oc.1) (Hinited : inited <> 0).
Context (Hself : forall t u, self t = self u -> t = u) (Hself0 : forall t, self t <> NULL).
Context (Hroutine : once_routine).
Notation mp := (oc.@f_mutex).

Inductive once_spec (t : nat) :
  bool -> forall R, action R -> once_phase -> (once_phase -> R -> Prop) -> Prop :=
| os_load c (Φ : once_phase -> Z -> Prop) : ~ working c ->
    Φ Saw PTHREAD_NEEDS_INIT -> (forall v, v <> PTHREAD_NEEDS_INIT -> Φ Initialised v) ->
    once_spec t true Z (Load oc.@f_state) c Φ
| os_run (Φ : once_phase -> Z -> Prop) : (forall r, Φ Ran r) -> once_spec t true Z (CallFn init 0) Saw Φ
| os_done (Φ : once_phase -> unit -> Prop) :
    Φ Initialised tt -> once_spec t true unit (Store oc.@f_state PTHREAD_DONE_INIT) Ran Φ
| os_return b (Φ : once_phase -> unit -> Prop) :
    Φ Initialised tt -> once_spec t b unit (Mark 0) Initialised Φ.

(** Before the state is written at most one thread works, and it holds the mutex. *)
Definition once_inv (w : world) (o : option nat) (cs : nat -> once_phase) : Prop :=
  (forall t, working (cs t) -> o = Some t) /\
  ((w_heap w !! oc.@f_state = Some PTHREAD_NEEDS_INIT /\ (forall t, cs t <> Initialised) /\
     ((w_marks w = [] /\ forall t, cs t <> Ran) \/ exists t u, cs t = Ran /\ w_marks w = [(u, init)])) \/
   (w_heap w !! oc.@f_state = Some PTHREAD_DONE_INIT /\ (forall t, ~ working (cs t)) /\
     exists u rest, w_marks w = (u, init) :: rest /\ Forall (fun x => x.2 = 0) rest)).

Definition once_owner : client once_phase := Client once_phase once_spec once_inv (fun c => ~ working c).

Lemma once_inv_trace w o cs : once_inv w o cs -> once_trace init (w_marks w).
Proof.
  intros (_ & [(_ & _ & [[H _] | (t & u & _ & H)]) | (_ & _ & u & rest & H & Hr)]).
  - by left.
  - right. by exists u, [].
  - right. by exists u, rest.
Qed.

(** The thread that holds the mutex is the only one that can be working. *)
Lemma others_rest w t cs u : once_inv w (Some t) cs -> u <> t -> ~ working (cs u).
Proof. intros [Ho _] Hne Hu. apply Ho in Hu. congruence. Qed.

Lemma working_upd w t cs c : once_inv w (Some t) cs ->
  forall u, working (upd_ghost cs t c u) -> Some t = Some u.
Proof.
  intros HI u. unfold upd_ghost. destruct (decide (u = t)) as [-> | Hne]; [done |].
  intros Hu. by destruct (others_rest _ _ _ _ HI Hne).
Qed.

Lemma upd_self (cs : nat -> once_phase) t c : upd_ghost cs t c t = c.
Proof. unfold upd_ghost. by rewrite decide_True. Qed.

(** Everything but the clients' part of the world. *)
Notation keeps' := (keeps n m mp ty inited dbg self).

Lemma keeps_marks w t z : keeps' w (set_marks (w_marks w ++ [(t, z)]) w).
Proof. by split. Qed.

Lemma keeps_state w v : keeps' w (upd_loc oc.@f_state v w).
Proof.
  split; [| split; [| split]]; [apply upd_lookup_ne; intros E; by apply Hoc; injection E .. | done |].
  intros t l x Hx Hl. rewrite upd_lookup_ne; [done |]. intros E. pose proof (f_equal fst E) as E1.
  destruct Hx; simpl in E1; unfold globals in E1; try (exfalso; lia). by apply member_inj in E.
Qed.

Lemma sound_load t w cs : once_inv w (Some t) cs -> ~ working (cs t) ->
  (w_heap w !! oc.@f_state = Some PTHREAD_NEEDS_INIT /\ once_inv w (Some t) (upd_ghost cs t Saw)) \/
  exists v, v <> PTHREAD_NEEDS_INIT /\ w_heap w !! oc.@f_state = Some v /\
    once_inv w (Some t) (upd_ghost cs t Initialised).
Proof.
  intros HI Ht. pose proof (working_upd _ _ _ Saw HI) as Hs. pose proof (working_upd _ _ _ Initialised HI) as Hi.
  pose proof (fun u => others_rest _ _ _ u HI) as Hu.
  destruct HI as [_ [(Hst & HD & Hm') | (Hst & HD & Hm')]].
  - left. split; [done |]. split; [done |]. left. split; [done |]. split.
    + intros u. unfold upd_ghost. by destruct (decide (u = t)).
    + left. destruct Hm' as [[Hm' HR] | (u & v & HR & _)].
      * split; [done |]. intros u. unfold upd_ghost. by destruct (decide (u = t)).
      * exfalso. destruct (decide (u = t)) as [-> | Hne]; [apply Ht | apply (Hu u Hne)]; by right.
  - right. exists PTHREAD_DONE_INIT. split; [done |]. split; [done |]. split; [done |]. right.
    split; [done |]. split; [| done]. intros u. unfold upd_ghost. destruct (decide (u = t)); [by intros [|] | apply HD].
Qed.

Lemma sound_run t w cs w' : once_inv w (Some t) cs -> cs t = Saw ->
  w_marks w' = w_marks w ++ [(t, init)] -> w_heap w' !! oc.@f_state = w_heap w !! oc.@f_state ->
  once_inv w' (Some t) (upd_ghost cs t Ran).
Proof.
  intros HI Ht Hmk Hst. pose proof (working_upd _ _ _ Ran HI) as Hs.
  pose proof (fun u => others_rest _ _ _ u HI) as Hu. split; [done |].
  destruct HI as [_ [(Hst' & HD & Hm') | (_ & HD & _)]]; [| destruct (HD t); by left].
  left. rewrite Hst. split; [done |]. split.
  - intros u. unfold upd_ghost. by destruct (decide (u = t)).
  - right. exists t, t. rewrite upd_self, Hmk. split; [done |].
    destruct Hm' as [[-> _] | (u & v & HR & _)]; [done |]. exfalso.
    destruct (decide (u = t)) as [-> | Hne]; [congruence |]. apply (Hu u Hne). by right.
Qed.

Lemma sound_done t w cs : once_inv w (Some t) cs -> cs t = Ran ->
  is_Some (w_heap w !! oc.@f_state) /\
  once_inv (upd_loc oc.@f_state PTHREAD_DONE_INIT w) (Some t) (upd_ghost cs t Initialised).
Proof.
  intros HI Ht. pose proof (working_upd _ _ _ Initialised HI) as Hs.
  pose proof (fun u => others_rest _ _ _ u HI) as Hu.
  destruct HI as [_ [(Hst & HD & Hm') | (_ & HD & _)]]; [| destruct (HD t); by right].
  split; [by eexists |]. split; [done |]. right. rewrite upd_lookup_eq. split; [done |]. split.
  - intros u. unfold upd_ghost. destruct (decide (u = t)) as [-> | Hne]; [by intros [|] | by apply Hu].
  - destruct Hm' as [[_ HR] | (_ & u & _ & Hmk)]; [by destruct (HR t) |]. by exists u, [].
Qed.

Lemma sound_return t w o cs : once_inv w o cs -> cs t = Initialised ->
  once_inv (set_marks (w_marks w ++ [(t, 0)]) w) o (upd_ghost cs t Initialised).
Proof.
  intros (Ho & HI) Ht.
  assert (forall u, upd_ghost cs t Initialised u = cs u) as E by (intros u; rewrite <- Ht; apply ghost_same).
  split; [intros u; rewrite E; apply Ho |].
  destruct HI as [(_ & HD & _) | (Hst & HD & u & rest & Hmk & Hr)]; [by destruct (HD t) |].
  right. split; [done |]. split; [intros v; rewrite E; apply HD |].
  exists u, (rest ++ [(t, 0)]). simpl. rewrite Hmk. split; [done |]. by apply Forall_app_2; [| repeat constructor].
Qed.

#[export] Instance once_owner_ok : client_ok n m mp ty inited dbg self once_owner.
Proof.
  split; simpl.
  - intros t b R a c P Q HPQ Hs. destruct Hs; [apply os_load | apply os_run | apply os_done | apply os_return]; auto.
  - intros w w' o cs cs' Hh Hmk Hcs HI. unfold once_inv in *. rewrite Hmk, Hh by done.
    destruct HI as (Ho & HI). split; [intros t; rewrite Hcs; auto |].
    destruct HI as [(Hst & HD & Hm') | (Hst & HD & Hm')]; [left | right].
    + split; [done |]. split; [intros t; rewrite Hcs; auto |].
      destruct Hm' as [[E HR] | (t & u & HR & E)]; [left | right].
      * split; [done |]. intros t. rewrite Hcs. auto.
      * exists t, u. by rewrite Hcs.
    + split; [done |]. split; [| done]. intros t. rewrite Hcs. auto.
  - intros w t cs [Ho HI]. split; [| done]. intros u Hu. by apply Ho in Hu.
  - intros w t cs Hg [Ho HI]. split; [| done]. intros u Hu. apply Ho in Hu as Hu'. by injection Hu' as ->.
  - intros t R a w o cs Φ HI Hs.
    remember (bool_decide (o = Some t)) as b eqn:Eb. remember (cs t) as c eqn:Ec. symmetry in Eb, Ec.
    destruct Hs as [c Φ Hc HS HD | Φ HΦ | Φ HΦ | b Φ HΦ].
    + apply bool_decide_eq_true in Eb as ->. rewrite <- Ec in Hc. cbn [act_sem].
      destruct (sound_load t w cs HI Hc) as [[-> HI'] | (v & Hv & -> & HI')]; eexists; (split; [by eauto | by split]).
    + apply bool_decide_eq_true in Eb as ->. destruct (Hroutine t w) as (w' & r & E & Hmk & Hi & Hh).
      cbn [act_sem]. rewrite E. exists Ran. split; [done |]. split.
      * apply (sound_run t w); auto.
      * split; [apply Hh; by left |]. split; [apply Hh; by left |]. split; [done |].
        intros u l x Hx Hl. rewrite Hh; [done |]. destruct Hx; simpl; unfold globals; lia.
    + apply bool_decide_eq_true in Eb as ->. destruct (sound_done t w cs HI Ec) as [[v Hv] HI'].
      cbn [act_sem]. rewrite Hv. exists Initialised. split; [done |]. split; [done |]. apply keeps_state.
    + cbn [act_sem]. exists Initialised. split; [done |]. split; [by apply sound_return | apply keeps_marks].
Qed.

Context {HAL : Phal} {HQ : PhalQuiet HAL} {HW : PhalWaits no_timeout no_timeout HAL}.
Notation wpm := (wp (mspec n m mp ty inited dbg self no_timeout once_owner)).
Notation once_bind := (wp_bind' n m mp ty inited dbg self no_timeout once_owner).
Notation once_lock := (wp_timedlock n m mp ty inited dbg self Hm Hinited no_timeout once_owner no_timeout).
Notation once_unlock' := (wp_unlock n m mp ty inited dbg self Hm Hinited no_timeout once_owner).

Lemma mp_not_null : mp <> ptr NULL.
Proof. intros E. apply (f_equal fst) in E. simpl in E. unfold NULL in E. lia. Qed.

(** The call ends knowing that the routine has run, and returns 0. *)
Lemma wp_once t c (Q : phase * once_phase -> Z -> Prop) :
  (t < n)%nat -> ~ working c -> Q (Idle, Initialised) 0 -> wpm t (Idle, c) (pthread_once oc init) Q.
Proof.
  intros Ht Hc HQ'. pose proof mp_not_null as Hmp0.
  apply once_bind, once_lock; [done | done |]. split; [| split; [done | by intros []]].
  apply wp_client; [by right |]. apply os_load; [done | |].
  - apply once_bind. apply wp_client; [by right |]. apply os_run. intros _.
    apply wp_client; [by right |]. apply os_done.
    apply once_bind, once_unlock'; [done | done | by intros [|] | done].
  - intros v Hv. destruct (v =? PTHREAD_NEEDS_INIT) eqn:E; [unfold PTHREAD_NEEDS_INIT in *; lia |].
    apply once_bind, once_bind, once_unlock'; [done | done | by intros [|] | done].
Qed.

Lemma wp_once_client t : (t < n)%nat -> wpm t (Idle, Fresh) (once_client oc init) (fun _ _ => True).
Proof.
  intros Ht. apply (wp_loop _ _ _ _ _ (fun g _ => g.1 = Idle /\ ~ working g.2)); [split; [done | by intros [|]] |].
  intros [p c] [] [Hp Hc]. simpl in Hp, Hc. subst p. apply once_bind, wp_once; [done | done |].
  apply wp_client; [by left |]. apply os_return. split; [done | by intros [|]].
Qed.
End Once.

(** ** The calls together *)

(** A control block [oc] that asks for the routine, with an initialised free mutex [m],
    and [n] started threads. *)
Record once_ready (n : nat) (m : Z) (oc : Z * list fld) (ty : Z) (self : nat -> Z) (w : world) : Prop := {
  or_mutex : mutex_ready n m oc.@f_mutex ty self w;
  or_var : 0 < oc.1;
  or_state : w_heap w !! oc.@f_state = Some PTHREAD_NEEDS_INIT;
  or_intr : Forall no_timeout (w_intr w)
}.

(** C8: whatever the number of threads and the interleaving of their calls of
    [pthread_once], the routine runs at most once, no call returns before it has run, and
    the calls that return answer 0; nothing goes wrong on the way. *)
Theorem once_concurrent {CB : Callbacks} {HAL : Phal} {HQ : PhalQuiet HAL}
  {HW : PhalWaits no_timeout no_timeout HAL} n m oc ty self init w c :
  once_ready n m oc ty self w -> once_routine m oc init ->
  reachable (Config w (replicate n (once_client oc init))) c ->
  once_trace init (w_marks (c_world c)) /\ safe c.
Proof.
  intros [Hr Hoc0 Hst Hi] Hrt Hc. destruct (mr_inited _ _ _ _ _ _ Hr) as (i & Hin & Hi0).
  destruct (mr_debug _ _ _ _ _ _ Hr) as [d Hd].
  pose proof (fun t l x => mutex_ready_const n m _ ty self w i d t l x Hr Hin Hd) as Hconst.
  destruct Hr as [Hm [Hoc _] _ HL HO _ _ _ _ _ Hinj Hnn Hmk].
  pose proof (once_owner_ok n m oc ty i d self init Hoc Hoc0 Hrt) as Hcl.
  pose proof (mspec_sound n m oc.@f_mutex ty i d self Hm Hoc Hinj Hnn no_timeout ltac:(done)
    (once_owner oc init)) as Hs.
  assert (config_ok (mspec n m oc.@f_mutex ty i d self no_timeout (once_owner oc init))
    (minv n m oc.@f_mutex ty i d self no_timeout (once_owner oc init))
    (Config w (replicate n (once_client oc init)))) as Hok.
  { exists (fun _ => (Idle, Fresh)). split.
    - apply (minv_free n m _ ty i d self Hnn no_timeout (once_owner oc init) w (fun _ => Fresh)); try done.
      split; [by intros t [|] |]. left. split; [done |]. split; [done |]. by left.
    - intros t p Hp. simpl in Hp. apply lookup_replicate in Hp as [-> Ht]. by apply wp_once_client. }
  apply (config_ok_reachable _ (mspec_mono n m _ ty i d self no_timeout (once_owner oc init)) _ Hs) in Hc
    as Hc'; [| done].
  split; [| by eapply config_ok_safe].
  destruct Hc' as (gs & (v & o & occ & _ & _ & _ & _ & _ & _ & Hinv & _) & _).
  exact (once_inv_trace oc init _ _ _ Hinv).
Qed.
