(* ===== verification/LzmaBase.v ===== *)
(** * liblzma: return codes, buffers and word access

    What the other liblzma files share: the return codes of api/lzma/base.h, the
    byte buffers that the C functions get as pointer and size, the little-endian
    access of common/tuklib_integer.h, and the arithmetic lemmas on bytes.

    A buffer is the list of its bytes, each a [Z] below 256. Access is in the
    option monad of stdpp: [None] is an access outside the buffer or a failed
    [assert], which the theorems show not to happen. *)

From stdpp Require Import base list option.
From Stdlib Require Import ZArith Lia.
From S2P Require Import Prelude.
Local Open Scope Z_scope.

Inductive lzma_ret :=
  | LZMA_OK | LZMA_STREAM_END | LZMA_NO_CHECK | LZMA_UNSUPPORTED_CHECK | LZMA_GET_CHECK
  | LZMA_MEM_ERROR | LZMA_MEMLIMIT_ERROR | LZMA_FORMAT_ERROR | LZMA_OPTIONS_ERROR
  | LZMA_DATA_ERROR | LZMA_BUF_ERROR | LZMA_PROG_ERROR | LZMA_SEEK_NEEDED.

#[export] Instance lzma_ret_eq_dec : EqDecision lzma_ret.
Proof. solve_decision. Defined.

Definition UINT32_MAX : Z := 2 ^ 32 - 1.

(** ** Buffers *)
Definition rd (buf : list Z) (i : Z) : option Z :=
  if i <? 0 then None else buf !! Z.to_nat i.

Definition wr (buf : list Z) (i v : Z) : option (list Z) :=
  if (0 <=? i) && (i <? Z.of_nat (length buf)) then Some (<[Z.to_nat i := v]> buf) else None.

(** A step of the option monad. *)
Lemma bind_Some {A B} (f : A -> option B) x : (Some x ≫= f) = f x.
Proof. reflexivity. Qed.

Definition assert (b : bool) : option unit := if b then Some tt else None.

(** The statements [f x] for the [x] of a list, one after the other. *)
Fixpoint each {A B} (f : B -> A -> option A) (l : list B) (s : A) : option A :=
  match l with
  | [] => Some s
  | x :: l => s ← f x s; each f l s
  end.

(** [memcpy(out + i, src, n)] with the source given as the list of its bytes,
    [memcmp(in + i, src, n) == 0] and [memzero]. *)
Fixpoint wr_bytes (buf : list Z) (i : Z) (src : list Z) : option (list Z) :=
  match src with
  | [] => Some buf
  | b :: src => buf ← wr buf i b; wr_bytes buf (i + 1) src
  end.

Fixpoint rd_bytes (buf : list Z) (i : Z) (n : nat) : option (list Z) :=
  match n with
  | O => Some []
  | S n => b ← rd buf i; bs ← rd_bytes buf (i + 1) n; Some (b :: bs)
  end.

Definition unaligned_read32le (buf : list Z) (i : Z) : option Z :=
  b0 ← rd buf i;
  b1 ← rd buf (i + 1);
  b2 ← rd buf (i + 2);
  b3 ← rd buf (i + 3);
  Some (Z.lor (Z.lor (Z.lor b0 (Z.shiftl b1 8)) (Z.shiftl b2 16)) (Z.shiftl b3 24)).

Definition unaligned_write32le (buf : list Z) (i num : Z) : option (list Z) :=
  buf ← wr buf i (u8 num);
  buf ← wr buf (i + 1) (u8 (Z.shiftr num 8));
  buf ← wr buf (i + 2) (u8 (Z.shiftr num 16));
  wr buf (i + 3) (u8 (Z.shiftr num 24)).

Definition is_byte (b : Z) : Prop := 0 <= b < 256.
Definition bytes (l : list Z) : Prop := Forall is_byte l.

#[export] Instance is_byte_dec b : Decision (is_byte b).
Proof. unfold is_byte. apply _. Defined.

#[export] Instance bytes_dec l : Decision (bytes l).
Proof. unfold bytes. apply _. Defined.

(** The four bytes of a 32-bit word, least significant first. *)
Definition le32 (x : Z) : list Z :=
  [u8 x; u8 (Z.shiftr x 8); u8 (Z.shiftr x 16); u8 (Z.shiftr x 24)].

(** ** Lemmas on bytes and words *)
Lemma u8_range x : 0 <= u8 x < 256.
Proof. apply (wrap_range 8). lia. Qed.

Lemma u32_range x : 0 <= u32 x < 2 ^ 32.
Proof. apply (wrap_range 32). lia. Qed.

Lemma u64_range x : 0 <= u64 x < 2 ^ 64.
Proof. apply (wrap_range 64). lia. Qed.

Lemma u8_small x : 0 <= x < 256 -> u8 x = x.
Proof. apply (wrap_small 8). Qed.

Lemma u32_small x : 0 <= x < 2 ^ 32 -> u32 x = x.
Proof. apply (wrap_small 32). Qed.

Lemma u64_small x : 0 <= x < 2 ^ 64 -> u64 x = x.
Proof. apply (wrap_small 64). Qed.

Lemma u32_add_l a b : u32 (u32 a + b) = u32 (a + b).
Proof. unfold u32, wrap. by rewrite Z.add_mod_idemp_l. Qed.

Lemma u32_add_r a b : u32 (a + u32 b) = u32 (a + b).
Proof. unfold u32, wrap. by rewrite Z.add_mod_idemp_r. Qed.

Lemma u32_idemp a : u32 (u32 a) = u32 a.
Proof. unfold u32, wrap. by rewrite Z.mod_mod. Qed.

Lemma u32_sub_r a b : u32 (a - u32 b) = u32 (a - b).
Proof. unfold u32, wrap. by rewrite Zminus_mod_idemp_r. Qed.

(** Joining bit fields that do not overlap is addition. *)
Lemma land_disjoint a b n : 0 <= n -> 0 <= a < 2 ^ n -> Z.land a (b * 2 ^ n) = 0.
Proof.
  intros Hn Ha. apply Z.bits_inj'. intros k Hk. rewrite Z.land_spec, Z.bits_0.
  destruct (Z.lt_ge_cases k n) as [Hkn | Hkn].
  - rewrite Z.mul_pow2_bits_low by done. apply andb_false_r.
  - rewrite <- (Z.mod_small a (2 ^ n)) by done. by rewrite Z.mod_pow2_bits_high by lia.
Qed.

Lemma lor_shiftl_add a b n : 0 <= n -> 0 <= a < 2 ^ n -> Z.lor a (Z.shiftl b n) = a + b * 2 ^ n.
Proof.
  intros Hn Ha. rewrite Z.shiftl_mul_pow2 by done.
  pose proof (Z.add_lor_land a (b * 2 ^ n)). rewrite land_disjoint in *; lia.
Qed.

Lemma lor_shiftl_add' a b n : 0 <= n -> 0 <= a < 2 ^ n -> Z.lor (Z.shiftl b n) a = b * 2 ^ n + a.
Proof. intros. rewrite Z.lor_comm, lor_shiftl_add by done. lia. Qed.

Lemma le32_read b0 b1 b2 b3 :
  is_byte b0 -> is_byte b1 -> is_byte b2 -> is_byte b3 ->
  Z.lor (Z.lor (Z.lor b0 (Z.shiftl b1 8)) (Z.shiftl b2 16)) (Z.shiftl b3 24)
  = b0 + b1 * 2 ^ 8 + b2 * 2 ^ 16 + b3 * 2 ^ 24.
Proof.
  unfold is_byte. intros. rewrite (lor_shiftl_add b0) by lia.
  rewrite (lor_shiftl_add _ b2) by lia. rewrite lor_shiftl_add by lia. done.
Qed.

Lemma le32_value x : 0 <= x < 2 ^ 32 ->
  u8 x + u8 (Z.shiftr x 8) * 2 ^ 8 + u8 (Z.shiftr x 16) * 2 ^ 16 + u8 (Z.shiftr x 24) * 2 ^ 24 = x.
Proof.
  intros Hx. unfold u8, wrap. rewrite !Z.shiftr_div_pow2 by lia.
  change (2 ^ 8) with 256. change (2 ^ 16) with 65536. change (2 ^ 24) with 16777216.
  change (2 ^ 32) with 4294967296 in Hx. Z.to_euclidean_division_equations. lia.
Qed.

Lemma le32_bytes x : bytes (le32 x).
Proof. repeat constructor; apply u8_range. Qed.

(** ** Lemmas on buffers

    A buffer that is read or written at the length of a prefix. *)
Lemma rd_app pre b post i : i = Z.of_nat (length pre) -> rd (pre ++ b :: post) i = Some b.
Proof.
  intros ->. unfold rd. destruct (Z.ltb_spec (Z.of_nat (length pre)) 0); [lia |].
  by rewrite Nat2Z.id, list_lookup_middle.
Qed.

Lemma rd_end buf i : Z.of_nat (length buf) <= i -> rd buf i = None.
Proof. intros H. unfold rd. case_match; [done |]. apply lookup_ge_None_2. lia. Qed.

Lemma rd_inv buf i b : rd buf i = Some b ->
  exists pre post, buf = pre ++ b :: post /\ i = Z.of_nat (length pre).
Proof.
  unfold rd. case_match eqn:E; [done |]. intros H. apply Z.ltb_ge in E.
  exists (take (Z.to_nat i) buf), (drop (S (Z.to_nat i)) buf).
  rewrite take_drop_middle by done. rewrite length_take.
  apply lookup_lt_Some in H. split; [done | lia].
Qed.

Lemma rd_byte buf i b : bytes buf -> rd buf i = Some b -> is_byte b.
Proof. intros Hb (pre & post & -> & _)%rd_inv. apply Forall_app in Hb as [_ Hb]. by inversion Hb. Qed.

Lemma wr_app pre b post i v : i = Z.of_nat (length pre) ->
  wr (pre ++ b :: post) i v = Some (pre ++ v :: post).
Proof.
  intros ->. unfold wr. rewrite length_app. simpl.
  rewrite (proj2 (Z.leb_le _ _)), (proj2 (Z.ltb_lt _ _)) by lia. simpl.
  by rewrite Nat2Z.id, insert_app_r_alt, Nat.sub_diag by lia.
Qed.

Lemma wr_length buf i v buf' : wr buf i v = Some buf' -> length buf' = length buf.
Proof. unfold wr. case_match; intros [= <-]. apply length_insert. Qed.

(** Bring a buffer [pre ++ b0 :: b1 :: ...] in the form where the byte at the
    wanted index is in the middle. *)
Lemma shift_app (pre : list Z) b post : pre ++ b :: post = (pre ++ [b]) ++ post.
Proof. by rewrite <- app_assoc. Qed.

Lemma wr_bytes_app pre old post i src : i = Z.of_nat (length pre) -> length src = length old ->
  wr_bytes (pre ++ old ++ post) i src = Some (pre ++ src ++ post).
Proof.
  revert pre old i. induction src as [| b src IH]; intros pre old i Hi Hl.
  - by destruct old.
  - destruct old as [| o old]; [done |]. simpl. rewrite wr_app by done. simpl.
    rewrite shift_app, (IH (pre ++ [b]) old);
      [by rewrite <- app_assoc | rewrite length_app; simpl; lia | simpl in Hl; lia].
Qed.

Lemma rd_bytes_app pre bs post i n : i = Z.of_nat (length pre) -> n = length bs ->
  rd_bytes (pre ++ bs ++ post) i n = Some bs.
Proof.
  revert pre i n. induction bs as [| b bs IH]; intros pre i n Hi ->; [done |].
  simpl. rewrite rd_app by done. simpl.
  rewrite shift_app, (IH (pre ++ [b])); [done | rewrite length_app; simpl; lia | done].
Qed.

Lemma rd_offset pre bs post i k b :
  i = Z.of_nat (length pre) + k -> 0 <= k -> bs !! Z.to_nat k = Some b ->
  rd (pre ++ bs ++ post) i = Some b.
Proof.
  intros -> Hk Hb. unfold rd. destruct (Z.ltb_spec (Z.of_nat (length pre) + k) 0); [lia |].
  rewrite lookup_app_r by lia. replace (_ - _)%nat with (Z.to_nat k) by lia.
  by apply lookup_app_l_Some.
Qed.

Lemma wr_offset pre bs post i k v :
  i = Z.of_nat (length pre) + k -> 0 <= k < Z.of_nat (length bs) ->
  wr (pre ++ bs ++ post) i v = Some (pre ++ <[Z.to_nat k := v]> bs ++ post).
Proof.
  intros -> Hk. unfold wr. rewrite !length_app.
  rewrite (proj2 (Z.leb_le _ _)), (proj2 (Z.ltb_lt _ _)) by lia. simpl. f_equal.
  rewrite insert_app_r_alt by lia. f_equal. rewrite insert_app_l by lia. f_equal. f_equal. lia.
Qed.

Lemma write32le_app pre old post i x : i = Z.of_nat (length pre) -> length old = 4%nat ->
  unaligned_write32le (pre ++ old ++ post) i x = Some (pre ++ le32 x ++ post).
Proof.
  intros Hi Hl. destruct old as [| o0 [| o1 [| o2 [| o3 [|]]]]]; try done.
  unfold unaligned_write32le.
  rewrite (wr_offset _ _ _ _ 0) by (simpl; lia). cbn [mbind option_bind].
  rewrite (wr_offset _ _ _ _ 1) by (simpl; lia). cbn [mbind option_bind].
  rewrite (wr_offset _ _ _ _ 2) by (simpl; lia). cbn [mbind option_bind].
  rewrite (wr_offset _ _ _ _ 3) by (simpl; lia). done.
Qed.

Lemma read32le_app pre post i x : i = Z.of_nat (length pre) -> 0 <= x < 2 ^ 32 ->
  unaligned_read32le (pre ++ le32 x ++ post) i = Some x.
Proof.
  intros Hi Hx. unfold unaligned_read32le.
  rewrite (rd_offset _ _ _ i 0 (u8 x)) by (reflexivity || lia). cbn [mbind option_bind].
  rewrite (rd_offset _ _ _ (i + 1) 1 (u8 (Z.shiftr x 8))) by (reflexivity || lia). cbn [mbind option_bind].
  rewrite (rd_offset _ _ _ (i + 2) 2 (u8 (Z.shiftr x 16))) by (reflexivity || lia). cbn [mbind option_bind].
  rewrite (rd_offset _ _ _ (i + 3) 3 (u8 (Z.shiftr x 24))) by (reflexivity || lia). cbn [mbind option_bind].
  rewrite le32_read by apply u8_range. by rewrite le32_value.
Qed.

(** The same at the start of the buffer. *)
Lemma wr_bytes_head old post src : length src = length old ->
  wr_bytes (old ++ post) 0 src = Some (src ++ post).
Proof. intros H. by apply (wr_bytes_app [] old post 0 src). Qed.

Lemma rd_bytes_head bs post n : n = length bs -> rd_bytes (bs ++ post) 0 n = Some bs.
Proof. intros H. by apply (rd_bytes_app [] bs post 0 n). Qed.

Lemma write32le_head old post x : length old = 4%nat ->
  unaligned_write32le (old ++ post) 0 x = Some (le32 x ++ post).
Proof. intros H. by apply (write32le_app [] old post 0 x). Qed.

Lemma read32le_head post x : 0 <= x < 2 ^ 32 -> unaligned_read32le (le32 x ++ post) 0 = Some x.
Proof. intros H. by apply (read32le_app [] post 0 x). Qed.

(** Every buffer splits at an index within it. *)
Lemma split_at (buf : list Z) i n : 0 <= i -> 0 <= n -> i + n <= Z.of_nat (length buf) ->
  exists pre mid post, buf = pre ++ mid ++ post /\ Z.of_nat (length pre) = i /\ Z.of_nat (length mid) = n.
Proof.
  intros. exists (take (Z.to_nat i) buf), (take (Z.to_nat n) (drop (Z.to_nat i) buf)),
    (drop (Z.to_nat n) (drop (Z.to_nat i) buf)).
  rewrite !take_drop. split; [done |]. rewrite !length_take, !length_drop. lia.
Qed.

(** A write inside the buffer, seen by the reads after it. *)
Lemma wr_spec buf i v : 0 <= i < Z.of_nat (length buf) -> exists buf', wr buf i v = Some buf' /\
  length buf' = length buf /\ forall k, rd buf' k = if k =? i then Some v else rd buf k.
Proof.
  intros Hi. unfold wr. rewrite (proj2 (andb_true_iff _ _)) by (split; [apply Z.leb_le | apply Z.ltb_lt]; lia).
  eexists. split; [reflexivity |]. split; [apply length_insert |]. intros k. unfold rd.
  destruct (Z.eqb_spec k i) as [-> | Hk].
  - rewrite (proj2 (Z.ltb_ge _ _)) by lia. apply list_lookup_insert_eq. lia.
  - destruct (Z.ltb_spec k 0); [done |]. apply list_lookup_insert_ne. lia.
Qed.

Lemma rd_total buf i : 0 <= i < Z.of_nat (length buf) -> rd buf i = Some (buf !!! Z.to_nat i).
Proof.
  intros Hi. unfold rd. rewrite (proj2 (Z.ltb_ge _ _)) by lia. apply list_lookup_lookup_total_lt. lia.
Qed.

(** What holds of the state and of what was taken in so far. *)
Lemma each_invariant {A B M} (f : B -> A -> option A) (Inv : M -> A -> Prop) (ok : B -> Prop) (add : M -> B -> M) :
  (forall x m s, ok x -> Inv m s -> exists s', f x s = Some s' /\ Inv (add m x) s') ->
  forall l m s, Forall ok l -> Inv m s -> exists s', each f l s = Some s' /\ Inv (foldl add m l) s'.
Proof.
  intros Hf. induction l as [| x l IH]; intros m s Hl Hs; [by exists s |].
  apply list.Forall_cons in Hl as [Hx Hl]. cbn [each foldl]. destruct (Hf x m s Hx Hs) as (s1 & -> & H1). cbn [mbind option_bind].
  by apply IH.
Qed.

Lemma foldl_app_concat (ps : list (list Z)) : foldl app [] ps = concat ps.
Proof.
  assert (forall m, foldl app m ps = m ++ concat ps) as H; [| apply H].
  induction ps as [| p ps IH]; intros m; cbn [foldl concat]; [by rewrite app_nil_r | by rewrite IH, app_assoc].
Qed.

Lemma bytes_concat_inv (ps : list (list Z)) : bytes (concat ps) -> Forall bytes ps.
Proof.
  induction ps as [| p ps IH]; intros H; [constructor |]. apply Forall_app in H as [? ?]. constructor; [done | by apply IH].
Qed.

(** [x & ~(2^k - 1)] *)
Lemma align_down x k : 0 <= x < 2 ^ 64 -> 0 <= k -> Z.land x (u64 (Z.lnot (Z.ones k))) = x / 2 ^ k * 2 ^ k.
Proof.
  intros Hx Hk. assert (Z.land x (u64 (Z.lnot (Z.ones k))) = Z.ldiff x (Z.ones k)) as ->.
  { apply Z.bits_inj'. intros i Hi. rewrite Z.land_spec, Z.ldiff_spec. unfold u64, wrap. destruct (Z.ltb_spec i 64) as [H | H].
    - by rewrite Z.mod_pow2_bits_low, Z.lnot_spec by lia.
    - destruct (Z.eq_dec x 0) as [-> | Hx0]; [by rewrite Z.bits_0 |]. rewrite (Z.bits_above_log2 x); [done | lia |].
      apply Z.log2_lt_pow2; [lia |]. apply (Z.lt_le_trans _ (2 ^ 64)); [lia |]. apply Z.pow_le_mono_r; lia. }
  by rewrite Z.ldiff_ones_r, Z.shiftl_mul_pow2, Z.shiftr_div_pow2 by lia.
Qed.
