(* ===== verification/Vli.v ===== *)
(** * liblzma: variable-length integers

    common/vli_encoder.c, common/vli_decoder.c and common/vli_size.c. The
    reference is [vli_bytes], the compact little-endian base-128 encoding; the
    C functions work in a single call ([vli_pos] is NULL, here [None]) or resume
    from a position kept by the caller.

    A call returns the code with what it leaves behind: the integer, [*vli_pos]
    and the position in the buffer. The loops take as fuel the nine bytes of the
    longest encoding. *)

From stdpp Require Import base list option.
From Stdlib Require Import ZArith Lia.
From S2P Require Import Prelude LzmaBase.
Local Open Scope Z_scope.

Definition LZMA_VLI_MAX : Z := (2 ^ 64 - 1) / 2.
Definition LZMA_VLI_UNKNOWN : Z := 2 ^ 64 - 1.
Definition LZMA_VLI_BYTES_MAX : Z := 9.

Definition lzma_vli_is_valid (vli : Z) : bool :=
  (vli <=? LZMA_VLI_MAX) || (vli =? LZMA_VLI_UNKNOWN).

(** ** vli_size.c *)
Fixpoint vli_size_loop (fuel : nat) (vli i : Z) : option Z :=
  match fuel with
  | O => None
  | S fuel =>
      let vli := Z.shiftr vli 7 in
      let i := i + 1 in
      if vli =? 0 then Some i else vli_size_loop fuel vli i
  end.

Definition lzma_vli_size (vli : Z) : option Z :=
  if LZMA_VLI_MAX <? vli then Some 0
  else
    i ← vli_size_loop 10 vli 0;
    _ ← assert (i <=? LZMA_VLI_BYTES_MAX);
    Some i.

(** ** vli_encoder.c *)
Fixpoint vli_encode_loop (fuel : nat) (single : bool) (vli vli_pos : Z) (out : list Z)
    (out_pos out_size : Z) : option (lzma_ret * Z * list Z * Z) :=
  match fuel with
  | O => None
  | S fuel =>
      if 128 <=? vli then
        let vli_pos := vli_pos + 1 in
        _ ← assert (vli_pos <? LZMA_VLI_BYTES_MAX);
        out ← wr out out_pos (Z.lor (u8 vli) 128);
        let vli := Z.shiftr vli 7 in
        let out_pos := out_pos + 1 in
        if out_pos =? out_size
        then Some (if single then LZMA_PROG_ERROR else LZMA_OK, vli_pos, out, out_pos)
        else vli_encode_loop fuel single vli vli_pos out out_pos out_size
      else
        out ← wr out out_pos (u8 vli);
        Some (if single then LZMA_OK else LZMA_STREAM_END, vli_pos + 1, out, out_pos + 1)
  end.

Definition lzma_vli_encode (vli : Z) (vli_pos : option Z) (out : list Z) (out_pos out_size : Z)
    : option (lzma_ret * option Z * list Z * Z) :=
  match vli_pos with
  | None =>
      if out_size <=? out_pos then Some (LZMA_PROG_ERROR, None, out, out_pos)
      else if (LZMA_VLI_BYTES_MAX <=? 0) || (LZMA_VLI_MAX <? vli)
      then Some (LZMA_PROG_ERROR, None, out, out_pos)
      else
        '(ret, _, out, out_pos) ← vli_encode_loop 10 true (Z.shiftr vli (0 * 7)) 0 out out_pos out_size;
        Some (ret, None, out, out_pos)
  | Some pos =>
      if out_size <=? out_pos then Some (LZMA_BUF_ERROR, Some pos, out, out_pos)
      else if (LZMA_VLI_BYTES_MAX <=? pos) || (LZMA_VLI_MAX <? vli)
      then Some (LZMA_PROG_ERROR, Some pos, out, out_pos)
      else
        '(ret, pos, out, out_pos) ← vli_encode_loop 10 false (Z.shiftr vli (pos * 7)) pos out out_pos out_size;
        Some (ret, Some pos, out, out_pos)
  end.

(** ** vli_decoder.c *)
Fixpoint vli_decode_loop (fuel : nat) (single : bool) (vli vli_pos : Z) (inp : list Z)
    (in_pos in_size : Z) : option (lzma_ret * Z * Z * Z) :=
  match fuel with
  | O => None
  | S fuel =>
      byte ← rd inp in_pos;
      let in_pos := in_pos + 1 in
      let vli := u64 (vli + u64 (Z.shiftl (Z.land byte 127) (vli_pos * 7))) in
      let vli_pos := vli_pos + 1 in
      if Z.land byte 128 =? 0 then
        if (byte =? 0) && (1 <? vli_pos)
        then Some (LZMA_DATA_ERROR, vli, vli_pos, in_pos)
        else Some (if single then LZMA_OK else LZMA_STREAM_END, vli, vli_pos, in_pos)
      else if vli_pos =? LZMA_VLI_BYTES_MAX
      then Some (LZMA_DATA_ERROR, vli, vli_pos, in_pos)
      else if in_pos <? in_size
      then vli_decode_loop fuel single vli vli_pos inp in_pos in_size
      else Some (if single then LZMA_DATA_ERROR else LZMA_OK, vli, vli_pos, in_pos)
  end.

Definition lzma_vli_decode (vli : Z) (vli_pos : option Z) (inp : list Z) (in_pos in_size : Z)
    : option (lzma_ret * Z * option Z * Z) :=
  match vli_pos with
  | None =>
      if in_size <=? in_pos then Some (LZMA_DATA_ERROR, 0, None, in_pos)
      else
        '(ret, vli, _, in_pos) ← vli_decode_loop 9 true 0 0 inp in_pos in_size;
        Some (ret, vli, None, in_pos)
  | Some pos =>
      let vli := if pos =? 0 then 0 else vli in
      if (LZMA_VLI_BYTES_MAX <=? pos) || negb (Z.shiftr vli (pos * 7) =? 0)
      then Some (LZMA_PROG_ERROR, vli, Some pos, in_pos)
      else if in_size <=? in_pos then Some (LZMA_BUF_ERROR, vli, Some pos, in_pos)
      else
        '(ret, vli, pos, in_pos) ← vli_decode_loop 9 false vli pos inp in_pos in_size;
        Some (ret, vli, Some pos, in_pos)
  end.

(** ** Reference encoding *)
Fixpoint vli_groups (n : nat) (v : Z) : list Z :=
  match n with
  | O => []
  | S n => if v <? 128 then [v] else (128 + v mod 128) :: vli_groups n (v / 128)
  end.

Definition vli_bytes : Z -> list Z := vli_groups 10.
Definition vli_len (v : Z) : Z := Z.of_nat (length (vli_bytes v)).

Example vli_bytes_300 : vli_bytes 300 = [172; 2].
Proof. reflexivity. Qed.

Example vli_decode_300 : lzma_vli_decode 0 None [7; 172; 2; 9] 1 4 = Some (LZMA_OK, 300, None, 3).
Proof. reflexivity. Qed.

Example vli_decode_padded : lzma_vli_decode 0 None [128; 0] 0 2 = Some (LZMA_DATA_ERROR, 0, None, 2).
Proof. reflexivity. Qed.

Example vli_encode_max :
  option_map (fun '(r, _, o, p) => (r, o, p)) (lzma_vli_encode LZMA_VLI_MAX None (replicate 9 0) 0 9)
  = Some (LZMA_OK, [255; 255; 255; 255; 255; 255; 255; 255; 127], 9).
Proof. reflexivity. Qed.

(** ** The reference encoding *)
Lemma vli_groups_unfold n v :
  vli_groups (S n) v = if v <? 128 then [v] else (128 + v mod 128) :: vli_groups n (v / 128).
Proof. done. Qed.

Lemma vli_shift_bound n v : 0 <= v -> v < 2 ^ (7 * Z.of_nat (S n)) ->
  0 <= v / 128 /\ v / 128 < 2 ^ (7 * Z.of_nat n).
Proof.
  intros H0 Hv. split; [apply Z.div_pos; lia |]. apply Z.div_lt_upper_bound; [lia |].
  change 128 with (2 ^ 7). rewrite <- Z.pow_add_r by lia.
  by replace (7 + 7 * Z.of_nat n) with (7 * Z.of_nat (S n)) by lia.
Qed.

Lemma vli_groups_length n v : 0 <= v -> v < 2 ^ (7 * Z.of_nat (S n)) ->
  (1 <= length (vli_groups (S n) v) <= S n)%nat.
Proof.
  revert v. induction n as [| n IH]; intros v H0 Hv; rewrite vli_groups_unfold.
  - change (2 ^ (7 * Z.of_nat 1)) with 128 in Hv. rewrite (proj2 (Z.ltb_lt _ _)) by done. simpl. lia.
  - destruct (v <? 128); [simpl; lia |]. destruct (vli_shift_bound _ v H0 Hv).
    pose proof (IH (v / 128)). change (length (_ :: ?l)) with (S (length l)). lia.
Qed.

(** One more group than needed does not change the encoding. *)
Lemma vli_groups_S n v : 0 <= v < 2 ^ (7 * Z.of_nat (S n)) -> vli_groups (S (S n)) v = vli_groups (S n) v.
Proof.
  revert v. induction n as [| n IH]; intros v Hv; rewrite !(vli_groups_unfold _ v).
  - change (2 ^ (7 * Z.of_nat 1)) with 128 in Hv. by rewrite (proj2 (Z.ltb_lt _ _)) by lia.
  - destruct (v <? 128); [done |]. f_equal. apply IH. destruct (vli_shift_bound (S n) v); lia.
Qed.

Lemma vli_bytes_9 v : 0 <= v <= LZMA_VLI_MAX -> vli_bytes v = vli_groups 9 v.
Proof.
  intros Hv. apply (vli_groups_S 8). change (7 * Z.of_nat 9) with 63.
  change LZMA_VLI_MAX with (2 ^ 63 - 1) in Hv. lia.
Qed.

Lemma vli_len_range v : 0 <= v <= LZMA_VLI_MAX -> 1 <= vli_len v <= LZMA_VLI_BYTES_MAX.
Proof.
  intros Hv. unfold vli_len. rewrite vli_bytes_9 by done.
  assert (1 <= length (vli_groups 9 v) <= 9)%nat; [| unfold LZMA_VLI_BYTES_MAX; lia].
  apply vli_groups_length; [lia |]. change (7 * Z.of_nat 9) with 63.
  change LZMA_VLI_MAX with (2 ^ 63 - 1) in Hv. lia.
Qed.

Lemma vli_groups_bytes n v : 0 <= v -> bytes (vli_groups n v).
Proof.
  revert v. induction n as [| n IH]; intros v Hv; cbn [vli_groups]; [constructor |].
  destruct (Z.ltb_spec v 128); [repeat constructor; unfold is_byte; lia |].
  constructor; [| apply IH, Z.div_pos; lia].
  unfold is_byte. pose proof (Z.mod_pos_bound v 128). lia.
Qed.

(** ** The size *)
Lemma vli_size_loop_spec n v i : 0 <= v < 2 ^ (7 * Z.of_nat n) ->
  vli_size_loop (S n) v i = Some (i + Z.of_nat (length (vli_groups (S n) v))).
Proof.
  revert v i. induction n as [| n IH]; intros v i Hv; rewrite vli_groups_unfold.
  - change (2 ^ (7 * Z.of_nat 0)) with 1 in Hv. replace v with 0 by lia. done.
  - destruct (vli_shift_bound n v) as [H1 H2]; [lia | lia |].
    change (vli_size_loop (S (S n)) v i) with
      (if Z.shiftr v 7 =? 0 then Some (i + 1) else vli_size_loop (S n) (Z.shiftr v 7) (i + 1)).
    rewrite Z.shiftr_div_pow2 by lia. change (2 ^ 7) with 128.
    destruct (Z.ltb_spec v 128) as [H | H].
    + by rewrite Z.div_small by lia.
    + destruct (Z.eqb_spec (v / 128) 0) as [E | E];
        [pose proof (Z.div_str_pos v 128); lia |].
      rewrite IH by lia. f_equal. change (length (_ :: ?l)) with (S (length l)). lia.
Qed.

Lemma vli_size_spec v : 0 <= v ->
  lzma_vli_size v = Some (if LZMA_VLI_MAX <? v then 0 else vli_len v).
Proof.
  intros H0. unfold lzma_vli_size. destruct (Z.ltb_spec LZMA_VLI_MAX v) as [| H]; [done |].
  rewrite (vli_size_loop_spec 9).
  - cbn [mbind option_bind]. pose proof (vli_len_range v). unfold assert.
    change (0 + Z.of_nat _) with (vli_len v). rewrite (proj2 (Z.leb_le _ _)) by lia. done.
  - change (7 * Z.of_nat 9) with 63. change LZMA_VLI_MAX with (2 ^ 63 - 1) in H. lia.
Qed.

(** ** The encoder *)
Lemma continuation_byte v : 0 <= v -> Z.lor (u8 v) 128 = 128 + v mod 128.
Proof.
  intros Hv. unfold u8, wrap. change (2 ^ 8) with (128 * 2).
  rewrite Z.rem_mul_r by lia.
  pose proof (Z.mod_pos_bound v 128 eq_refl) as Ha.
  replace (128 * ((v / 128) mod 2)) with ((v / 128) mod 2 * 2 ^ 7) by (change (2 ^ 7) with 128; lia).
  rewrite <- lor_shiftl_add by (change (2 ^ 7) with 128; lia).
  change 128 with (Z.shiftl 1 7) at 3. rewrite <- Z.lor_assoc, <- Z.shiftl_lor.
  assert (Z.lor ((v / 128) mod 2) 1 = 1) as ->.
  { pose proof (Z.mod_pos_bound (v / 128) 2 eq_refl).
    assert ((v / 128) mod 2 = 0 \/ (v / 128) mod 2 = 1) as [-> | ->] by lia; done. }
  rewrite lor_shiftl_add; change (2 ^ 7) with 128; lia.
Qed.

Lemma vli_encode_unfold n single v pos out out_pos out_size :
  vli_encode_loop (S n) single v pos out out_pos out_size
  = if 128 <=? v then
      _ ← assert (pos + 1 <? LZMA_VLI_BYTES_MAX);
      out ← wr out out_pos (Z.lor (u8 v) 128);
      if out_pos + 1 =? out_size
      then Some (if single then LZMA_PROG_ERROR else LZMA_OK, pos + 1, out, out_pos + 1)
      else vli_encode_loop n single (Z.shiftr v 7) (pos + 1) out (out_pos + 1) out_size
    else
      out ← wr out out_pos (u8 v);
      Some (if single then LZMA_OK else LZMA_STREAM_END, pos + 1, out, out_pos + 1).
Proof. done. Qed.

(** The loop writes the groups that fit. *)
Lemma vli_encode_loop_spec n single v pos pre old post out_pos out_size len k :
  0 <= v -> v < 2 ^ (7 * Z.of_nat (S n)) -> len = length (vli_groups (S n) v) ->
  pos + Z.of_nat len <= LZMA_VLI_BYTES_MAX -> out_pos = Z.of_nat (length pre) ->
  out_pos < out_size -> k = Nat.min len (Z.to_nat (out_size - out_pos)) -> length old = k ->
  vli_encode_loop (S n) single v pos (pre ++ old ++ post) out_pos out_size
  = Some (if bool_decide (len <= k)%nat then if single then LZMA_OK else LZMA_STREAM_END
          else if single then LZMA_PROG_ERROR else LZMA_OK,
          pos + Z.of_nat k, pre ++ take k (vli_groups (S n) v) ++ post, out_pos + Z.of_nat k).
Proof.
  revert v pos pre old out_pos len k.
  induction n as [| n IH]; intros v pos pre old out_pos len k H0 Hv Hlen Hp Hpre Hs Hk Hold;
    pose proof (vli_groups_length _ v H0 Hv) as Hl; rewrite vli_groups_unfold in *;
    (destruct old as [| o old]; [simpl in Hold; lia |]); rewrite vli_encode_unfold.
  - change (2 ^ (7 * Z.of_nat 1)) with 128 in Hv.
    rewrite (proj2 (Z.leb_gt _ _)), (proj2 (Z.ltb_lt _ _)) in * by lia. simpl in Hlen. subst len.
    assert (k = 1%nat) as -> by lia. destruct old; [| simpl in Hold; lia].
    simpl app. rewrite wr_app by done. simpl. by rewrite u8_small by lia.
  - destruct (Z.ltb_spec v 128) as [Hlt | Hge].
    + rewrite (proj2 (Z.leb_gt _ _)) by lia. simpl in Hlen. subst len.
      assert (k = 1%nat) as -> by lia. destruct old; [| simpl in Hold; lia].
      simpl app. rewrite wr_app by done. simpl. by rewrite u8_small by lia.
    + rewrite (proj2 (Z.leb_le _ _)) by lia.
      destruct (vli_shift_bound (S n) v H0 Hv) as [H1 H2].
      pose proof (vli_groups_length _ _ H1 H2).
      rewrite length_cons in Hlen, Hl, Hold.
      unfold assert. rewrite (proj2 (Z.ltb_lt _ _)) by lia. cbn [mbind option_bind].
      simpl app. rewrite wr_app by done. cbn [mbind option_bind]. rewrite continuation_byte by done.
      rewrite Z.shiftr_div_pow2 by lia. change (2 ^ 7) with 128.
      destruct (Z.eqb_spec (out_pos + 1) out_size) as [E | E].
      * assert (k = 1%nat) as -> by lia. destruct old; [| simpl in Hold; lia].
        rewrite bool_decide_eq_false_2 by lia. simpl. repeat f_equal.
      * rewrite shift_app.
        rewrite (IH (v / 128) (pos + 1) (pre ++ [_]) old (out_pos + 1) (len - 1)%nat (k - 1)%nat);
          try (rewrite ?length_app; cbn [length]; lia).
        rewrite (bool_decide_ext (len - 1 <= k - 1)%nat (len <= k)%nat) by lia.
        destruct k as [| k]; [lia |]. rewrite firstn_cons, <- app_assoc.
        replace (S k - 1)%nat with k by lia.
        replace (pos + Z.of_nat (S k)) with (pos + 1 + Z.of_nat k) by lia.
        by replace (out_pos + Z.of_nat (S k)) with (out_pos + 1 + Z.of_nat k) by lia.
Qed.

(** What single-call encoding does, on every branch. *)
Lemma vli_encode_single v pre old post out_pos out_size :
  0 <= v -> out_pos = Z.of_nat (length pre) -> out_pos <= out_size ->
  Z.of_nat (length old) = Z.min (vli_len v) (out_size - out_pos) ->
  lzma_vli_encode v None (pre ++ old ++ post) out_pos out_size
  = Some (if LZMA_VLI_MAX <? v then (LZMA_PROG_ERROR, None, pre ++ old ++ post, out_pos)
          else if out_pos + vli_len v <=? out_size
          then (LZMA_OK, None, pre ++ vli_bytes v ++ post, out_pos + vli_len v)
          else (LZMA_PROG_ERROR, None, pre ++ take (length old) (vli_bytes v) ++ post, out_size)).
Proof.
  intros H0 Hpos Hle Hold. unfold lzma_vli_encode.
  destruct (Z.leb_spec out_size out_pos) as [H | H].
  { destruct (Z.ltb_spec LZMA_VLI_MAX v) as [Hb | Hb]; [done |].
    pose proof (vli_len_range v). destruct old; [| simpl length in Hold; lia].
    rewrite (proj2 (Z.leb_gt _ _)) by lia. simpl. repeat f_equal. lia. }
  change (LZMA_VLI_BYTES_MAX <=? 0) with false.
  destruct (Z.ltb_spec LZMA_VLI_MAX v) as [Hb | Hb]; [done |]. cbn [orb].
  pose proof (vli_len_range v ltac:(lia)) as Hr. unfold vli_len in *.
  change (Z.shiftr v (0 * 7)) with v.
  rewrite (vli_encode_loop_spec 9 true v 0 pre old post out_pos out_size
    (length (vli_bytes v)) (length old)); [| lia | | done | lia | done | lia | lia | done].
  2: { change (7 * Z.of_nat 10) with 70. change LZMA_VLI_MAX with (2 ^ 63 - 1) in Hb. lia. }
  cbn [mbind option_bind]. change (vli_groups 10 v) with (vli_bytes v).
  destruct (Z.leb_spec (out_pos + Z.of_nat (length (vli_bytes v))) out_size).
  - rewrite bool_decide_eq_true_2, firstn_all2 by lia.
    by replace (length old) with (length (vli_bytes v)) by lia.
  - rewrite bool_decide_eq_false_2 by lia.
    by replace (out_pos + Z.of_nat (length old)) with out_size by lia.
Qed.

(** ** The decoder *)
Lemma vli_decode_unfold n single vli pos inp in_pos in_size :
  vli_decode_loop (S n) single vli pos inp in_pos in_size
  = byte ← rd inp in_pos;
    let vli := u64 (vli + u64 (Z.shiftl (Z.land byte 127) (pos * 7))) in
    if Z.land byte 128 =? 0 then
      if (byte =? 0) && (1 <? pos + 1)
      then Some (LZMA_DATA_ERROR, vli, pos + 1, in_pos + 1)
      else Some (if single then LZMA_OK else LZMA_STREAM_END, vli, pos + 1, in_pos + 1)
    else if pos + 1 =? LZMA_VLI_BYTES_MAX
    then Some (LZMA_DATA_ERROR, vli, pos + 1, in_pos + 1)
    else if in_pos + 1 <? in_size
    then vli_decode_loop n single vli (pos + 1) inp (in_pos + 1) in_size
    else Some (if single then LZMA_DATA_ERROR else LZMA_OK, vli, pos + 1, in_pos + 1).
Proof. done. Qed.

Lemma vli_groups_ge n v : 128 <= v -> vli_groups (S n) v = (128 + v mod 128) :: vli_groups n (v / 128).
Proof. intros. rewrite vli_groups_unfold. by rewrite (proj2 (Z.ltb_ge _ _)) by lia. Qed.

Lemma vli_groups_lt n v : v < 128 -> vli_groups (S n) v = [v].
Proof. intros. rewrite vli_groups_unfold. by rewrite (proj2 (Z.ltb_lt _ _)) by lia. Qed.

Lemma land_127 b : Z.land b 127 = b mod 128.
Proof. change 127 with (Z.ones 7). by rewrite Z.land_ones by lia. Qed.

Lemma land_128 b : is_byte b -> (Z.land b 128 =? 0) = (b <? 128).
Proof.
  intros [H0 H1].
  assert (forall n : nat, (n < 256)%nat -> (Z.land (Z.of_nat n) 128 =? 0) = (Z.of_nat n <? 128)) as H.
  { intros n Hn. do 256 (destruct n as [| n]; [reflexivity |]). lia. }
  rewrite <- (Z2Nat.id b) by done. apply H. lia.
Qed.

(** Adding a group above the bits read so far does not overflow. *)
Lemma vli_add_group acc g pos :
  0 <= pos < LZMA_VLI_BYTES_MAX -> 0 <= acc < 2 ^ (7 * pos) -> 0 <= g < 128 ->
  u64 (acc + u64 (Z.shiftl g (pos * 7))) = acc + g * 2 ^ (7 * pos)
  /\ acc + g * 2 ^ (7 * pos) < 2 ^ (7 * (pos + 1)).
Proof.
  unfold LZMA_VLI_BYTES_MAX. intros Hp Ha Hg. rewrite Z.shiftl_mul_pow2, (Z.mul_comm pos) by lia.
  replace (7 * (pos + 1)) with (7 + 7 * pos) by lia. rewrite Z.pow_add_r by lia.
  change (2 ^ 7) with 128.
  assert (2 ^ (7 * pos) <= 2 ^ 56) by (apply Z.pow_le_mono_r; lia).
  change (2 ^ 56) with 72057594037927936 in *.
  assert (g * 2 ^ (7 * pos) <= 127 * 2 ^ (7 * pos)) by (apply Z.mul_le_mono_nonneg_r; lia).
  assert (0 <= g * 2 ^ (7 * pos)) by (apply Z.mul_nonneg_nonneg; lia).
  rewrite (u64_small (g * _)) by (change (2 ^ 64) with 18446744073709551616; lia).
  rewrite u64_small by (change (2 ^ 64) with 18446744073709551616; lia). lia.
Qed.

Lemma vli_decode_loop_groups n single v acc pos pre post in_pos in_size :
  0 <= v -> v < 2 ^ (7 * Z.of_nat (S n)) -> (v = 0 -> pos = 0) ->
  0 <= pos -> pos + Z.of_nat (S n) = LZMA_VLI_BYTES_MAX -> 0 <= acc < 2 ^ (7 * pos) ->
  in_pos = Z.of_nat (length pre) ->
  in_pos + Z.of_nat (length (vli_groups (S n) v)) <= in_size ->
  vli_decode_loop (S n) single acc pos (pre ++ vli_groups (S n) v ++ post) in_pos in_size
  = Some (if single then LZMA_OK else LZMA_STREAM_END, acc + v * 2 ^ (7 * pos),
          pos + Z.of_nat (length (vli_groups (S n) v)), in_pos + Z.of_nat (length (vli_groups (S n) v))).
Proof.
  revert v acc pos pre in_pos.
  induction n as [| n IH]; intros v acc pos pre in_pos H0 Hv Hz Hp Hn Ha Hpre Hin;
    rewrite vli_decode_unfold;
    (destruct (Z.lt_ge_cases v 128) as [Hlt | Hge];
     [rewrite vli_groups_lt in * by done | rewrite vli_groups_ge in * by done]);
    cbn [app]; rewrite rd_app by done; cbn [mbind option_bind]; cbv zeta;
    rewrite land_128, land_127 by (unfold is_byte; pose proof (Z.mod_pos_bound v 128); lia).
  - rewrite (proj2 (Z.ltb_lt _ _)), Z.mod_small by lia.
    destruct (vli_add_group acc v pos) as [-> ?]; [lia.. |].
    replace ((v =? 0) && (1 <? pos + 1)) with false; [done |].
    symmetry. apply andb_false_iff. rewrite Z.eqb_neq, Z.ltb_ge. lia.
  - change (2 ^ (7 * Z.of_nat 1)) with 128 in Hv. lia.
  - rewrite (proj2 (Z.ltb_lt _ _)), Z.mod_small by lia.
    destruct (vli_add_group acc v pos) as [-> ?]; [lia.. |].
    replace ((v =? 0) && (1 <? pos + 1)) with false; [done |].
    symmetry. apply andb_false_iff. rewrite Z.eqb_neq, Z.ltb_ge. lia.
  - pose proof (Z.mod_pos_bound v 128 eq_refl). destruct (vli_shift_bound (S n) v H0 Hv).
    pose proof (vli_groups_length n (v / 128)). rewrite length_cons in *.
    rewrite (proj2 (Z.ltb_ge _ _)) by lia.
    replace ((128 + v mod 128) mod 128) with (v mod 128)
      by (rewrite <- Z.add_mod_idemp_l, Z.mod_same, Z.add_0_l, Z.mod_mod; lia).
    destruct (vli_add_group acc (v mod 128) pos) as [-> Hacc]; [lia.. |].
    rewrite (proj2 (Z.eqb_neq _ _)), (proj2 (Z.ltb_lt _ _)) by lia.
    rewrite shift_app, IH; try (rewrite ?length_app; cbn [length]; lia).
    2: { intros. pose proof (Z.div_str_pos v 128). lia. }
    f_equal. f_equal; [| lia]. f_equal; [| lia]. f_equal.
    rewrite (Z.div_mod v 128) at 3 by lia.
    replace (7 * (pos + 1)) with (7 + 7 * pos) by lia. rewrite Z.pow_add_r by lia.
    change (2 ^ 7) with 128. lia.
Qed.

(** What the loop accepts is the encoding of what it returns. *)
Lemma vli_decode_loop_inv n acc pos pre rest in_pos in_size vli' pos' end' :
  bytes rest -> 0 <= pos -> pos + Z.of_nat (S n) = LZMA_VLI_BYTES_MAX -> 0 <= acc < 2 ^ (7 * pos) ->
  in_pos = Z.of_nat (length pre) ->
  vli_decode_loop (S n) true acc pos (pre ++ rest) in_pos in_size = Some (LZMA_OK, vli', pos', end') ->
  exists v post, rest = vli_groups (S n) v ++ post /\ 0 <= v /\ v < 2 ^ (7 * Z.of_nat (S n)) /\
    (v = 0 -> pos = 0) /\
    vli' = acc + v * 2 ^ (7 * pos) /\ end' = in_pos + Z.of_nat (length (vli_groups (S n) v)).
Proof.
  revert acc pos pre rest in_pos.
  induction n as [| n IH]; intros acc pos pre rest in_pos Hb Hp Hn Ha Hpre; rewrite vli_decode_unfold;
    [set (n' := O) | set (n' := S n)];
    (destruct rest as [| b rest];
     [rewrite app_nil_r, rd_end by lia; done |]);
    inversion Hb as [| ? ? Hbyte Hb']; subst; rewrite rd_app by done; cbn [mbind option_bind]; cbv zeta;
    rewrite land_128, land_127 by done; unfold is_byte in Hbyte; pose proof (Z.mod_pos_bound b 128 eq_refl);
    (destruct (vli_add_group acc (b mod 128) pos) as [-> Hacc]; [lia.. |]);
    (destruct (Z.ltb_spec b 128) as [Hlt | Hge];
     [rewrite Z.mod_small in * by lia;
      destruct ((b =? 0) && (1 <? pos + 1)) eqn:E; [discriminate |];
      apply andb_false_iff in E; rewrite Z.eqb_neq, Z.ltb_ge in E;
      intros [= <- <- <-]; exists b, rest; rewrite vli_groups_lt by done;
      assert (b < 2 ^ (7 * Z.of_nat (S n'))) by
        (unfold n'; apply Z.lt_le_trans with (2 ^ 7); [done | apply Z.pow_le_mono_r; lia]);
      repeat split; cbn [length]; lia |]).
  - rewrite (proj2 (Z.eqb_eq _ _)) by lia. done.
  - subst n'. rewrite (proj2 (Z.eqb_neq _ _)) by lia.
    destruct (_ <? in_size); [| done]. rewrite shift_app. intros Hd.
    apply IH in Hd as (v & post & -> & Hv0 & Hv & Hz & -> & ->);
      [| done | lia | lia | | rewrite length_app; cbn [length]; lia].
    2: { split; [| done]. apply Z.add_nonneg_nonneg; [lia |]. apply Z.mul_nonneg_nonneg; lia. }
    assert (v <> 0) by lia. set (w := b mod 128 + 128 * v).
    assert (w / 128 = v) as Hdiv by (unfold w; rewrite Z.mul_comm, Z.div_add, Z.div_small by lia; lia).
    assert (w mod 128 = b mod 128) as Hmod by (unfold w; rewrite Z.mul_comm, Z.mod_add, Z.mod_mod by lia; lia).
    exists w, post. rewrite (vli_groups_ge (S n) w), Hdiv, Hmod by (unfold w; lia).
    rewrite length_cons. split; [| split; [unfold w; lia | split; [| split; [lia | split; [| lia]]]]].
    + cbn [app]. f_equal. pose proof (Z.div_mod b 128). assert (b / 128 = 1); [| lia].
      symmetry. apply (Z.div_unique b 128 1 (b - 128)); lia.
    + replace (7 * Z.of_nat (S (S n))) with (7 + 7 * Z.of_nat (S n)) by lia.
      rewrite Z.pow_add_r by lia. change (2 ^ 7) with 128. unfold w. lia.
    + unfold w. replace (7 * (pos + 1)) with (7 + 7 * pos) by lia. rewrite Z.pow_add_r by lia.
      change (2 ^ 7) with 128. lia.
Qed.

(** ** Decoding in pieces *)
Lemma vli_decode_fuel n m single vli pos inp in_pos in_size :
  0 <= pos < LZMA_VLI_BYTES_MAX ->
  LZMA_VLI_BYTES_MAX <= pos + Z.of_nat n -> LZMA_VLI_BYTES_MAX <= pos + Z.of_nat m ->
  vli_decode_loop n single vli pos inp in_pos in_size
  = vli_decode_loop m single vli pos inp in_pos in_size.
Proof.
  revert m vli pos in_pos. induction n as [| n IH]; intros m vli pos in_pos Hp Hn Hm; [lia |].
  destruct m as [| m]; [lia |]. rewrite !vli_decode_unfold.
  destruct (rd inp in_pos) as [b |]; [| done]. cbn [mbind option_bind]. cbv zeta.
  destruct (_ =? 0); [done |]. destruct (Z.eqb_spec (pos + 1) LZMA_VLI_BYTES_MAX); [done |].
  destruct (_ <? _); [| done]. apply IH; lia.
Qed.

Lemma vli_decode_loop_resume k vli pos inp in_pos m n vli' pos' end' :
  bytes inp -> 0 <= pos < LZMA_VLI_BYTES_MAX -> LZMA_VLI_BYTES_MAX <= pos + Z.of_nat k ->
  0 <= vli < 2 ^ (7 * pos) -> in_pos < m -> m < n ->
  vli_decode_loop k false vli pos inp in_pos m = Some (LZMA_OK, vli', pos', end') ->
  end' = m /\ 1 <= pos' < LZMA_VLI_BYTES_MAX /\ 0 <= vli' < 2 ^ (7 * pos') /\
  vli_decode_loop k false vli pos inp in_pos n = vli_decode_loop 9 false vli' pos' inp m n.
Proof.
  intros Hb. revert vli pos in_pos. induction k as [| k IH]; intros vli pos in_pos Hp Hk Hv Hm Hn; [lia |].
  rewrite !(vli_decode_unfold k). destruct (rd inp in_pos) as [b |] eqn:Hrd; [| done].
  cbn [mbind option_bind]. cbv zeta. apply rd_byte in Hrd; [| done].
  rewrite land_128, land_127 by done. pose proof (Z.mod_pos_bound b 128 eq_refl).
  destruct (vli_add_group vli (b mod 128) pos) as [-> Hacc]; [lia.. |].
  assert (0 <= vli + b mod 128 * 2 ^ (7 * pos))
    by (apply Z.add_nonneg_nonneg; [lia |]; apply Z.mul_nonneg_nonneg; lia).
  destruct (b <? 128); [by destruct (_ && _) |].
  destruct (Z.eqb_spec (pos + 1) LZMA_VLI_BYTES_MAX); [done |].
  rewrite (proj2 (Z.ltb_lt (in_pos + 1) n)) by lia.
  destruct (Z.ltb_spec (in_pos + 1) m) as [H1 | H1].
  - intros Hd. apply IH; try lia. done.
  - intros [= <- <- <-]. split; [lia |]. split; [lia |]. split; [lia |].
    replace m with (in_pos + 1) by lia. apply vli_decode_fuel; unfold LZMA_VLI_BYTES_MAX in *; lia.
Qed.

(** ** Properties *)

(** C14: what [lzma_vli_encode] writes in a single call, as many bytes as
    [lzma_vli_size] says, decodes to the same integer, and nothing else in the
    buffer changes. *)
Theorem vli_roundtrip v out out_pos out_size :
  0 <= v <= LZMA_VLI_MAX -> 0 <= out_pos ->
  out_pos + vli_len v <= out_size -> out_size <= Z.of_nat (length out) ->
  exists n out', lzma_vli_size v = Some n /\
    lzma_vli_encode v None out out_pos out_size = Some (LZMA_OK, None, out', out_pos + n) /\
    take (Z.to_nat out_pos) out' = take (Z.to_nat out_pos) out /\
    drop (Z.to_nat (out_pos + n)) out' = drop (Z.to_nat (out_pos + n)) out /\
    forall vli, lzma_vli_decode vli None out' out_pos out_size = Some (LZMA_OK, v, None, out_pos + n).
Proof.
  intros Hv Hp Hroom Hlen. pose proof (vli_len_range v Hv) as Hr.
  destruct (split_at out out_pos (vli_len v)) as (pre & old & post & -> & Hpre & Hold); [lia.. |].
  exists (vli_len v), (pre ++ vli_bytes v ++ post).
  rewrite vli_size_spec, (proj2 (Z.ltb_ge _ _)) by lia. split; [done |].
  rewrite vli_encode_single by lia.
  rewrite (proj2 (Z.ltb_ge _ _)), (proj2 (Z.leb_le _ _)) by lia. split; [done |].
  rewrite !take_app_length' by lia. split; [done |]. unfold vli_len in *.
  split; [by rewrite !(app_assoc pre), !drop_app_length' by (rewrite length_app; lia) |].
  intros vli. unfold lzma_vli_decode. rewrite (proj2 (Z.leb_gt _ _)) by lia.
  rewrite vli_bytes_9 in * by lia. rewrite vli_decode_loop_groups; try (done || lia).
  - cbn [mbind option_bind]. by replace (0 + v * 2 ^ (7 * 0)) with v by (simpl; lia).
  - change (7 * Z.of_nat 9) with 63. change LZMA_VLI_MAX with (2 ^ 63 - 1) in Hv. lia.
Qed.

(** C15: the decoder accepts only the compact encoding of an integer within
    [LZMA_VLI_MAX], and consumes exactly its bytes. *)
Theorem vli_decode_canonical vli inp in_pos in_size v pos end_ :
  bytes inp -> 0 <= in_pos ->
  lzma_vli_decode vli None inp in_pos in_size = Some (LZMA_OK, v, pos, end_) ->
  0 <= v <= LZMA_VLI_MAX /\ end_ = in_pos + vli_len v /\
  exists post, drop (Z.to_nat in_pos) inp = vli_bytes v ++ post.
Proof.
  intros Hb Hp. unfold lzma_vli_decode. case_match; [done |].
  destruct (vli_decode_loop _ _ _ _ _ _ _) as [[[[r v'] p'] e'] |] eqn:Hd; [| done].
  cbn [mbind option_bind]. intros [= -> -> <- ->].
  destruct (Z.lt_ge_cases in_pos (Z.of_nat (length inp))) as [Hin | Hin].
  2: { change 9%nat with (S 8) in Hd. by rewrite vli_decode_unfold, rd_end in Hd by lia. }
  destruct (split_at inp in_pos (Z.of_nat (length inp) - in_pos)) as (pre & rest & post & Hi & Hpre & Hrest); [lia.. |].
  assert (post = []) as -> by (apply length_zero_iff_nil; rewrite Hi, !length_app in Hrest; lia).
  rewrite app_nil_r in Hi. subst inp. apply Forall_app in Hb as [_ Hb].
  apply vli_decode_loop_inv in Hd as (w & post & -> & Hw0 & Hw & _ & -> & ->);
    [| done | lia | done | simpl; lia | done].
  change (7 * Z.of_nat 9) with 63 in Hw.
  replace (0 + w * 2 ^ (7 * 0)) with w by (simpl; lia).
  assert (0 <= w <= LZMA_VLI_MAX) by (change LZMA_VLI_MAX with (2 ^ 63 - 1); lia).
  unfold vli_len. rewrite vli_bytes_9 by done. split; [done |]. split; [done |].
  exists post. by rewrite drop_app_length' by lia.
Qed.

(** decoding may be interrupted anywhere: when the input given so far ends
    inside an integer, continuing with more input gives what decoding the whole
    input in one call gives. *)
Theorem vli_decode_resume vli pos inp in_pos m n vli' pos' end_ :
  bytes inp -> 0 <= vli -> 0 <= pos -> m < n ->
  lzma_vli_decode vli (Some pos) inp in_pos m = Some (LZMA_OK, vli', Some pos', end_) ->
  end_ = m /\
  lzma_vli_decode vli' (Some pos') inp m n = lzma_vli_decode vli (Some pos) inp in_pos n.
Proof.
  intros Hb Hv Hp Hn. unfold lzma_vli_decode at 1 3. set (acc := if pos =? 0 then 0 else vli).
  destruct (Z.leb_spec LZMA_VLI_BYTES_MAX pos) as [| Hpos]; [done |]. cbn [orb].
  destruct (Z.eqb_spec (Z.shiftr acc (pos * 7)) 0) as [Hacc |]; [| done]. cbn [negb].
  destruct (Z.leb_spec m in_pos); [done |]. rewrite (proj2 (Z.leb_gt n in_pos)) by lia.
  assert (0 <= acc < 2 ^ (7 * pos)).
  { assert (0 <= acc) by (unfold acc; case_match; lia).
    rewrite Z.shiftr_div_pow2, Z.mul_comm in Hacc by lia.
    apply Z.div_small_iff in Hacc; [lia |]. apply Z.pow_nonzero; lia. }
  destruct (vli_decode_loop 9 false acc pos inp in_pos m) as [[[[r v'] p'] e'] |] eqn:Hd; [| done].
  cbn [mbind option_bind]. intros [= -> -> -> ->].
  destruct (vli_decode_loop_resume 9 acc pos inp in_pos m n vli' pos' end_) as (-> & Hp' & Hv' & ->);
    [done | unfold LZMA_VLI_BYTES_MAX in *; lia.. | done |].
  split; [done |]. unfold lzma_vli_decode.
  rewrite (proj2 (Z.eqb_neq pos' 0)), (proj2 (Z.leb_gt LZMA_VLI_BYTES_MAX pos')) by lia.
  rewrite Z.shiftr_div_pow2, Z.mul_comm, Z.div_small by lia. cbn [orb negb Z.eqb].
  by rewrite (proj2 (Z.leb_gt n m)) by lia.
Qed.

(** ** Witnesses *)
Definition vli_buffer : list Z := [7; 7; 7; 7; 7].

Lemma vli_roundtrip_witness : exists n out', lzma_vli_size 300 = Some n /\
  lzma_vli_encode 300 None vli_buffer 1 4 = Some (LZMA_OK, None, out', 1 + n) /\
  take (Z.to_nat 1) out' = take (Z.to_nat 1) vli_buffer /\
  drop (Z.to_nat (1 + n)) out' = drop (Z.to_nat (1 + n)) vli_buffer /\
  forall vli, lzma_vli_decode vli None out' 1 4 = Some (LZMA_OK, 300, None, 1 + n).
Proof.
  apply (vli_roundtrip 300 vli_buffer 1 4).
  - change LZMA_VLI_MAX with 9223372036854775807. lia.
  - lia.
  - vm_compute. discriminate.
  - vm_compute. discriminate.
Defined.

Lemma vli_decode_canonical_witness : 0 <= 300 <= LZMA_VLI_MAX /\ 3 = 1 + vli_len 300 /\
  exists post, drop (Z.to_nat 1) [7; 172; 2; 9] = vli_bytes 300 ++ post.
Proof.
  apply (vli_decode_canonical 0 [7; 172; 2; 9] 1 4 300 None 3).
  - repeat constructor; unfold is_byte; lia.
  - lia.
  - vm_compute. reflexivity.
Defined.

Lemma vli_decode_resume_witness : 2 = 2 /\
  lzma_vli_decode 44 (Some 1) [7; 172; 2; 9] 2 4 = lzma_vli_decode 5 (Some 0) [7; 172; 2; 9] 1 4.
Proof.
  apply (vli_decode_resume 5 0 [7; 172; 2; 9] 1 2 4 44 1 2).
  - repeat constructor; unfold is_byte; lia.
  - lia.
  - lia.
  - lia.
  - vm_compute. reflexivity.
Defined.
