(* ===== verification/CrcTables.v ===== *)
(** * liblzma: the lookup tables of the CRCs

    The little-endian tables checked in as check/crc32_table_le.h and
    check/crc64_table_le.h, row by row, as the compiled library has them; Crc.v
    shows that they are what the generators compute. *)

From Stdlib Require Import ZArith List.
Import ListNotations.
Local Open Scope Z_scope.

Definition crc32_table_le_0 : list Z := [
  0x00000000; 0x77073096; 0xee0e612c; 0x990951ba; 0x076dc419; 0x706af48f; 0xe963a535; 0x9e6495a3;
  0x0edb8832; 0x79dcb8a4; 0xe0d5e91e; 0x97d2d988; 0x09b64c2b; 0x7eb17cbd; 0xe7b82d07; 0x90bf1d91;
  0x1db71064; 0x6ab020f2; 0xf3b97148; 0x84be41de; 0x1adad47d; 0x6ddde4eb; 0xf4d4b551; 0x83d385c7;
  0x136c9856; 0x646ba8c0; 0xfd62f97a; 0x8a65c9ec; 0x14015c4f; 0x63066cd9; 0xfa0f3d63; 0x8d080df5;
  0x3b6e20c8; 0x4c69105e; 0xd56041e4; 0xa2677172; 0x3c03e4d1; 0x4b04d447; 0xd20d85fd; 0xa50ab56b;
  0x35b5a8fa; 0x42b2986c; 0xdbbbc9d6; 0xacbcf940; 0x32d86ce3; 0x45df5c75; 0xdcd60dcf; 0xabd13d59;
  0x26d930ac; 0x51de003a; 0xc8d75180; 0xbfd06116; 0x21b4f4b5; 0x56b3c423; 0xcfba9599; 0xb8bda50f;
  0x2802b89e; 0x5f058808; 0xc60cd9b2; 0xb10be924; 0x2f6f7c87; 0x58684c11; 0xc1611dab; 0xb6662d3d;
  0x76dc4190; 0x01db7106; 0x98d220bc; 0xefd5102a; 0x71b18589; 0x06b6b51f; 0x9fbfe4a5; 0xe8b8d433;
  0x7807c9a2; 0x0f00f934; 0x9609a88e; 0xe10e9818; 0x7f6a0dbb; 0x086d3d2d; 0x91646c97; 0xe6635c01;
  0x6b6b51f4; 0x1c6c6162; 0x856530d8; 0xf262004e; 0x6c0695ed; 0x1b01a57b; 0x8208f4c1; 0xf50fc457;
  0x65b0d9c6; 0x12b7e950; 0x8bbeb8ea; 0xfcb9887c; 0x62dd1ddf; 0x15da2d49; 0x8cd37cf3; 0xfbd44c65;
  0x4db26158; 0x3ab551ce; 0xa3bc0074; 0xd4bb30e2; 0x4adfa541; 0x3dd895d7; 0xa4d1c46d; 0xd3d6f4fb;
  0x4369e96a; 0x346ed9fc; 0xad678846; 0xda60b8d0; 0x44042d73; 0x33031de5; 0xaa0a4c5f; 0xdd0d7cc9;
  0x5005713c; 0x270241aa; 0xbe0b1010; 0xc90c2086; 0x5768b525; 0x206f85b3; 0xb966d409; 0xce61e49f;
  0x5edef90e; 0x29d9c998; 0xb0d09822; 0xc7d7a8b4; 0x59b33d17; 0x2eb40d81; 0xb7bd5c3b; 0xc0ba6cad;
  0xedb88320; 0x9abfb3b6; 0x03b6e20c; 0x74b1d29a; 0xead54739; 0x9dd277af; 0x04db2615; 0x73dc1683;
  0xe3630b12; 0x94643b84; 0x0d6d6a3e; 0x7a6a5aa8; 0xe40ecf0b; 0x9309ff9d; 0x0a00ae27; 0x7d079eb1;
  0xf00f9344; 0x8708a3d2; 0x1e01f268; 0x6906c2fe; 0xf762575d; 0x806567cb; 0x196c3671; 0x6e6b06e7;
  0xfed41b76; 0x89d32be0; 0x10da7a5a; 0x67dd4acc; 0xf9b9df6f; 0x8ebeeff9; 0x17b7be43; 0x60b08ed5;
  0xd6d6a3e8; 0xa1d1937e; 0x38d8c2c4; 0x4fdff252; 0xd1bb67f1; 0xa6bc5767; 0x3fb506dd; 0x48b2364b;
  0xd80d2bda; 0xaf0a1b4c; 0x36034af6; 0x41047a60; 0xdf60efc3; 0xa867df55; 0x316e8eef; 0x4669be79;
  0xcb61b38c; 0xbc66831a; 0x256fd2a0; 0x5268e236; 0xcc0c7795; 0xbb0b4703; 0x220216b9; 0x5505262f;
  0xc5ba3bbe; 0xb2bd0b28; 0x2bb45a92; 0x5cb36a04; 0xc2d7ffa7; 0xb5d0cf31; 0x2cd99e8b; 0x5bdeae1d;
  0x9b64c2b0; 0xec63f226; 0x756aa39c; 0x026d930a; 0x9c0906a9; 0xeb0e363f; 0x72076785; 0x05005713;
  0x95bf4a82; 0xe2b87a14; 0x7bb12bae; 0x0cb61b38; 0x92d28e9b; 0xe5d5be0d; 0x7cdcefb7; 0x0bdbdf21;
  0x86d3d2d4; 0xf1d4e242; 0x68ddb3f8; 0x1fda836e; 0x81be16cd; 0xf6b9265b; 0x6fb077e1; 0x18b74777;
  0x88085ae6; 0xff0f6a70; 0x66063bca; 0x11010b5c; 0x8f659eff; 0xf862ae69; 0x616bffd3; 0x166ccf45;
  0xa00ae278; 0xd70dd2ee; 0x4e048354; 0x3903b3c2; 0xa7672661; 0xd06016f7; 0x4969474d; 0x3e6e77db;
  0xaed16a4a; 0xd9d65adc; 0x40df0b66; 0x37d83bf0; 0xa9bcae53; 0xdebb9ec5; 0x47b2cf7f; 0x30b5ffe9;
  0xbdbdf21c; 0xcabac28a; 0x53b39330; 0x24b4a3a6; 0xbad03605; 0xcdd70693; 0x54de5729; 0x23d967bf;
  0xb3667a2e; 0xc4614ab8; 0x5d681b02; 0x2a6f2b94; 0xb40bbe37; 0xc30c8ea1; 0x5a05df1b; 0x2d02ef8d].

Definition crc32_table_le_1 : list Z := [
  0x00000000; 0x191b3141; 0x32366282; 0x2b2d53c3; 0x646cc504; 0x7d77f445; 0x565aa786; 0x4f4196c7;
  0xc8d98a08; 0xd1c2bb49; 0xfaefe88a; 0xe3f4d9cb; 0xacb54f0c; 0xb5ae7e4d; 0x9e832d8e; 0x87981ccf;
  0x4ac21251; 0x53d92310; 0x78f470d3; 0x61ef4192; 0x2eaed755; 0x37b5e614; 0x1c98b5d7; 0x05838496;
  0x821b9859; 0x9b00a918; 0xb02dfadb; 0xa936cb9a; 0xe6775d5d; 0xff6c6c1c; 0xd4413fdf; 0xcd5a0e9e;
  0x958424a2; 0x8c9f15e3; 0xa7b24620; 0xbea97761; 0xf1e8e1a6; 0xe8f3d0e7; 0xc3de8324; 0xdac5b265;
  0x5d5daeaa; 0x44469feb; 0x6f6bcc28; 0x7670fd69; 0x39316bae; 0x202a5aef; 0x0b07092c; 0x121c386d;
  0xdf4636f3; 0xc65d07b2; 0xed705471; 0xf46b6530; 0xbb2af3f7; 0xa231c2b6; 0x891c9175; 0x9007a034;
  0x179fbcfb; 0x0e848dba; 0x25a9de79; 0x3cb2ef38; 0x73f379ff; 0x6ae848be; 0x41c51b7d; 0x58de2a3c;
  0xf0794f05; 0xe9627e44; 0xc24f2d87; 0xdb541cc6; 0x94158a01; 0x8d0ebb40; 0xa623e883; 0xbf38d9c2;
  0x38a0c50d; 0x21bbf44c; 0x0a96a78f; 0x138d96ce; 0x5ccc0009; 0x45d73148; 0x6efa628b; 0x77e153ca;
  0xbabb5d54; 0xa3a06c15; 0x888d3fd6; 0x91960e97; 0xded79850; 0xc7cca911; 0xece1fad2; 0xf5facb93;
  0x7262d75c; 0x6b79e61d; 0x4054b5de; 0x594f849f; 0x160e1258; 0x0f152319; 0x243870da; 0x3d23419b;
  0x65fd6ba7; 0x7ce65ae6; 0x57cb0925; 0x4ed03864; 0x0191aea3; 0x188a9fe2; 0x33a7cc21; 0x2abcfd60;
  0xad24e1af; 0xb43fd0ee; 0x9f12832d; 0x8609b26c; 0xc94824ab; 0xd05315ea; 0xfb7e4629; 0xe2657768;
  0x2f3f79f6; 0x362448b7; 0x1d091b74; 0x04122a35; 0x4b53bcf2; 0x52488db3; 0x7965de70; 0x607eef31;
  0xe7e6f3fe; 0xfefdc2bf; 0xd5d0917c; 0xcccba03d; 0x838a36fa; 0x9a9107bb; 0xb1bc5478; 0xa8a76539;
  0x3b83984b; 0x2298a90a; 0x09b5fac9; 0x10aecb88; 0x5fef5d4f; 0x46f46c0e; 0x6dd93fcd; 0x74c20e8c;
  0xf35a1243; 0xea412302; 0xc16c70c1; 0xd8774180; 0x9736d747; 0x8e2de606; 0xa500b5c5; 0xbc1b8484;
  0x71418a1a; 0x685abb5b; 0x4377e898; 0x5a6cd9d9; 0x152d4f1e; 0x0c367e5f; 0x271b2d9c; 0x3e001cdd;
  0xb9980012; 0xa0833153; 0x8bae6290; 0x92b553d1; 0xddf4c516; 0xc4eff457; 0xefc2a794; 0xf6d996d5;
  0xae07bce9; 0xb71c8da8; 0x9c31de6b; 0x852aef2a; 0xca6b79ed; 0xd37048ac; 0xf85d1b6f; 0xe1462a2e;
  0x66de36e1; 0x7fc507a0; 0x54e85463; 0x4df36522; 0x02b2f3e5; 0x1ba9c2a4; 0x30849167; 0x299fa026;
  0xe4c5aeb8; 0xfdde9ff9; 0xd6f3cc3a; 0xcfe8fd7b; 0x80a96bbc; 0x99b25afd; 0xb29f093e; 0xab84387f;
  0x2c1c24b0; 0x350715f1; 0x1e2a4632; 0x07317773; 0x4870e1b4; 0x516bd0f5; 0x7a468336; 0x635db277;
  0xcbfad74e; 0xd2e1e60f; 0xf9ccb5cc; 0xe0d7848d; 0xaf96124a; 0xb68d230b; 0x9da070c8; 0x84bb4189;
  0x03235d46; 0x1a386c07; 0x31153fc4; 0x280e0e85; 0x674f9842; 0x7e54a903; 0x5579fac0; 0x4c62cb81;
  0x8138c51f; 0x9823f45e; 0xb30ea79d; 0xaa1596dc; 0xe554001b; 0xfc4f315a; 0xd7626299; 0xce7953d8;
  0x49e14f17; 0x50fa7e56; 0x7bd72d95; 0x62cc1cd4; 0x2d8d8a13; 0x3496bb52; 0x1fbbe891; 0x06a0d9d0;
  0x5e7ef3ec; 0x4765c2ad; 0x6c48916e; 0x7553a02f; 0x3a1236e8; 0x230907a9; 0x0824546a; 0x113f652b;
  0x96a779e4; 0x8fbc48a5; 0xa4911b66; 0xbd8a2a27; 0xf2cbbce0; 0xebd08da1; 0xc0fdde62; 0xd9e6ef23;
  0x14bce1bd; 0x0da7d0fc; 0x268a833f; 0x3f91b27e; 0x70d024b9; 0x69cb15f8; 0x42e6463b; 0x5bfd777a;
  0xdc656bb5; 0xc57e5af4; 0xee530937; 0xf7483876; 0xb809aeb1; 0xa1129ff0; 0x8a3fcc33; 0x9324fd72].

Definition crc32_table_le_2 : list Z := [
  0x00000000; 0x01c26a37; 0x0384d46e; 0x0246be59; 0x0709a8dc; 0x06cbc2eb; 0x048d7cb2; 0x054f1685;
  0x0e1351b8; 0x0fd13b8f; 0x0d9785d6; 0x0c55efe1; 0x091af964; 0x08d89353; 0x0a9e2d0a; 0x0b5c473d;
  0x1c26a370; 0x1de4c947; 0x1fa2771e; 0x1e601d29; 0x1b2f0bac; 0x1aed619b; 0x18abdfc2; 0x1969b5f5;
  0x1235f2c8; 0x13f798ff; 0x11b126a6; 0x10734c91; 0x153c5a14; 0x14fe3023; 0x16b88e7a; 0x177ae44d;
  0x384d46e0; 0x398f2cd7; 0x3bc9928e; 0x3a0bf8b9; 0x3f44ee3c; 0x3e86840b; 0x3cc03a52; 0x3d025065;
  0x365e1758; 0x379c7d6f; 0x35dac336; 0x3418a901; 0x3157bf84; 0x3095d5b3; 0x32d36bea; 0x331101dd;
  0x246be590; 0x25a98fa7; 0x27ef31fe; 0x262d5bc9; 0x23624d4c; 0x22a0277b; 0x20e69922; 0x2124f315;
  0x2a78b428; 0x2bbade1f; 0x29fc6046; 0x283e0a71; 0x2d711cf4; 0x2cb376c3; 0x2ef5c89a; 0x2f37a2ad;
  0x709a8dc0; 0x7158e7f7; 0x731e59ae; 0x72dc3399; 0x7793251c; 0x76514f2b; 0x7417f172; 0x75d59b45;
  0x7e89dc78; 0x7f4bb64f; 0x7d0d0816; 0x7ccf6221; 0x798074a4; 0x78421e93; 0x7a04a0ca; 0x7bc6cafd;
  0x6cbc2eb0; 0x6d7e4487; 0x6f38fade; 0x6efa90e9; 0x6bb5866c; 0x6a77ec5b; 0x68315202; 0x69f33835;
  0x62af7f08; 0x636d153f; 0x612bab66; 0x60e9c151; 0x65a6d7d4; 0x6464bde3; 0x662203ba; 0x67e0698d;
  0x48d7cb20; 0x4915a117; 0x4b531f4e; 0x4a917579; 0x4fde63fc; 0x4e1c09cb; 0x4c5ab792; 0x4d98dda5;
  0x46c49a98; 0x4706f0af; 0x45404ef6; 0x448224c1; 0x41cd3244; 0x400f5873; 0x4249e62a; 0x438b8c1d;
  0x54f16850; 0x55330267; 0x5775bc3e; 0x56b7d609; 0x53f8c08c; 0x523aaabb; 0x507c14e2; 0x51be7ed5;
  0x5ae239e8; 0x5b2053df; 0x5966ed86; 0x58a487b1; 0x5deb9134; 0x5c29fb03; 0x5e6f455a; 0x5fad2f6d;
  0xe1351b80; 0xe0f771b7; 0xe2b1cfee; 0xe373a5d9; 0xe63cb35c; 0xe7fed96b; 0xe5b86732; 0xe47a0d05;
  0xef264a38; 0xeee4200f; 0xeca29e56; 0xed60f461; 0xe82fe2e4; 0xe9ed88d3; 0xebab368a; 0xea695cbd;
  0xfd13b8f0; 0xfcd1d2c7; 0xfe976c9e; 0xff5506a9; 0xfa1a102c; 0xfbd87a1b; 0xf99ec442; 0xf85cae75;
  0xf300e948; 0xf2c2837f; 0xf0843d26; 0xf1465711; 0xf4094194; 0xf5cb2ba3; 0xf78d95fa; 0xf64fffcd;
  0xd9785d60; 0xd8ba3757; 0xdafc890e; 0xdb3ee339; 0xde71f5bc; 0xdfb39f8b; 0xddf521d2; 0xdc374be5;
  0xd76b0cd8; 0xd6a966ef; 0xd4efd8b6; 0xd52db281; 0xd062a404; 0xd1a0ce33; 0xd3e6706a; 0xd2241a5d;
  0xc55efe10; 0xc49c9427; 0xc6da2a7e; 0xc7184049; 0xc25756cc; 0xc3953cfb; 0xc1d382a2; 0xc011e895;
  0xcb4dafa8; 0xca8fc59f; 0xc8c97bc6; 0xc90b11f1; 0xcc440774; 0xcd866d43; 0xcfc0d31a; 0xce02b92d;
  0x91af9640; 0x906dfc77; 0x922b422e; 0x93e92819; 0x96a63e9c; 0x976454ab; 0x9522eaf2; 0x94e080c5;
  0x9fbcc7f8; 0x9e7eadcf; 0x9c381396; 0x9dfa79a1; 0x98b56f24; 0x99770513; 0x9b31bb4a; 0x9af3d17d;
  0x8d893530; 0x8c4b5f07; 0x8e0de15e; 0x8fcf8b69; 0x8a809dec; 0x8b42f7db; 0x89044982; 0x88c623b5;
  0x839a6488; 0x82580ebf; 0x801eb0e6; 0x81dcdad1; 0x8493cc54; 0x8551a663; 0x8717183a; 0x86d5720d;
  0xa9e2d0a0; 0xa820ba97; 0xaa6604ce; 0xaba46ef9; 0xaeeb787c; 0xaf29124b; 0xad6fac12; 0xacadc625;
  0xa7f18118; 0xa633eb2f; 0xa4755576; 0xa5b73f41; 0xa0f829c4; 0xa13a43f3; 0xa37cfdaa; 0xa2be979d;
  0xb5c473d0; 0xb40619e7; 0xb640a7be; 0xb782cd89; 0xb2cddb0c; 0xb30fb13b; 0xb1490f62; 0xb08b6555;
  0xbbd72268; 0xba15485f; 0xb853f606; 0xb9919c31; 0xbcde8ab4; 0xbd1ce083; 0xbf5a5eda; 0xbe9834ed].

Definition crc32_table_le_3 : list Z := [
  0x00000000; 0xb8bc6765; 0xaa09c88b; 0x12b5afee; 0x8f629757; 0x37def032; 0x256b5fdc; 0x9dd738b9;
  0xc5b428ef; 0x7d084f8a; 0x6fbde064; 0xd7018701; 0x4ad6bfb8; 0xf26ad8dd; 0xe0df7733; 0x58631056;
  0x5019579f; 0xe8a530fa; 0xfa109f14; 0x42acf871; 0xdf7bc0c8; 0x67c7a7ad; 0x75720843; 0xcdce6f26;
  0x95ad7f70; 0x2d111815; 0x3fa4b7fb; 0x8718d09e; 0x1acfe827; 0xa2738f42; 0xb0c620ac; 0x087a47c9;
  0xa032af3e; 0x188ec85b; 0x0a3b67b5; 0xb28700d0; 0x2f503869; 0x97ec5f0c; 0x8559f0e2; 0x3de59787;
  0x658687d1; 0xdd3ae0b4; 0xcf8f4f5a; 0x7733283f; 0xeae41086; 0x525877e3; 0x40edd80d; 0xf851bf68;
  0xf02bf8a1; 0x48979fc4; 0x5a22302a; 0xe29e574f; 0x7f496ff6; 0xc7f50893; 0xd540a77d; 0x6dfcc018;
  0x359fd04e; 0x8d23b72b; 0x9f9618c5; 0x272a7fa0; 0xbafd4719; 0x0241207c; 0x10f48f92; 0xa848e8f7;
  0x9b14583d; 0x23a83f58; 0x311d90b6; 0x89a1f7d3; 0x1476cf6a; 0xaccaa80f; 0xbe7f07e1; 0x06c36084;
  0x5ea070d2; 0xe61c17b7; 0xf4a9b859; 0x4c15df3c; 0xd1c2e785; 0x697e80e0; 0x7bcb2f0e; 0xc377486b;
  0xcb0d0fa2; 0x73b168c7; 0x6104c729; 0xd9b8a04c; 0x446f98f5; 0xfcd3ff90; 0xee66507e; 0x56da371b;
  0x0eb9274d; 0xb6054028; 0xa4b0efc6; 0x1c0c88a3; 0x81dbb01a; 0x3967d77f; 0x2bd27891; 0x936e1ff4;
  0x3b26f703; 0x839a9066; 0x912f3f88; 0x299358ed; 0xb4446054; 0x0cf80731; 0x1e4da8df; 0xa6f1cfba;
  0xfe92dfec; 0x462eb889; 0x549b1767; 0xec277002; 0x71f048bb; 0xc94c2fde; 0xdbf98030; 0x6345e755;
  0x6b3fa09c; 0xd383c7f9; 0xc1366817; 0x798a0f72; 0xe45d37cb; 0x5ce150ae; 0x4e54ff40; 0xf6e89825;
  0xae8b8873; 0x1637ef16; 0x048240f8; 0xbc3e279d; 0x21e91f24; 0x99557841; 0x8be0d7af; 0x335cb0ca;
  0xed59b63b; 0x55e5d15e; 0x47507eb0; 0xffec19d5; 0x623b216c; 0xda874609; 0xc832e9e7; 0x708e8e82;
  0x28ed9ed4; 0x9051f9b1; 0x82e4565f; 0x3a58313a; 0xa78f0983; 0x1f336ee6; 0x0d86c108; 0xb53aa66d;
  0xbd40e1a4; 0x05fc86c1; 0x1749292f; 0xaff54e4a; 0x322276f3; 0x8a9e1196; 0x982bbe78; 0x2097d91d;
  0x78f4c94b; 0xc048ae2e; 0xd2fd01c0; 0x6a4166a5; 0xf7965e1c; 0x4f2a3979; 0x5d9f9697; 0xe523f1f2;
  0x4d6b1905; 0xf5d77e60; 0xe762d18e; 0x5fdeb6eb; 0xc2098e52; 0x7ab5e937; 0x680046d9; 0xd0bc21bc;
  0x88df31ea; 0x3063568f; 0x22d6f961; 0x9a6a9e04; 0x07bda6bd; 0xbf01c1d8; 0xadb46e36; 0x15080953;
  0x1d724e9a; 0xa5ce29ff; 0xb77b8611; 0x0fc7e174; 0x9210d9cd; 0x2aacbea8; 0x38191146; 0x80a57623;
  0xd8c66675; 0x607a0110; 0x72cfaefe; 0xca73c99b; 0x57a4f122; 0xef189647; 0xfdad39a9; 0x45115ecc;
  0x764dee06; 0xcef18963; 0xdc44268d; 0x64f841e8; 0xf92f7951; 0x41931e34; 0x5326b1da; 0xeb9ad6bf;
  0xb3f9c6e9; 0x0b45a18c; 0x19f00e62; 0xa14c6907; 0x3c9b51be; 0x842736db; 0x96929935; 0x2e2efe50;
  0x2654b999; 0x9ee8defc; 0x8c5d7112; 0x34e11677; 0xa9362ece; 0x118a49ab; 0x033fe645; 0xbb838120;
  0xe3e09176; 0x5b5cf613; 0x49e959fd; 0xf1553e98; 0x6c820621; 0xd43e6144; 0xc68bceaa; 0x7e37a9cf;
  0xd67f4138; 0x6ec3265d; 0x7c7689b3; 0xc4caeed6; 0x591dd66f; 0xe1a1b10a; 0xf3141ee4; 0x4ba87981;
  0x13cb69d7; 0xab770eb2; 0xb9c2a15c; 0x017ec639; 0x9ca9fe80; 0x241599e5; 0x36a0360b; 0x8e1c516e;
  0x866616a7; 0x3eda71c2; 0x2c6fde2c; 0x94d3b949; 0x090481f0; 0xb1b8e695; 0xa30d497b; 0x1bb12e1e;
  0x43d23e48; 0xfb6e592d; 0xe9dbf6c3; 0x516791a6; 0xccb0a91f; 0x740cce7a; 0x66b96194; 0xde0506f1].

Definition crc32_table_le_4 : list Z := [
  0x00000000; 0x3d6029b0; 0x7ac05360; 0x47a07ad0; 0xf580a6c0; 0xc8e08f70; 0x8f40f5a0; 0xb220dc10;
  0x30704bc1; 0x0d106271; 0x4ab018a1; 0x77d03111; 0xc5f0ed01; 0xf890c4b1; 0xbf30be61; 0x825097d1;
  0x60e09782; 0x5d80be32; 0x1a20c4e2; 0x2740ed52; 0x95603142; 0xa80018f2; 0xefa06222; 0xd2c04b92;
  0x5090dc43; 0x6df0f5f3; 0x2a508f23; 0x1730a693; 0xa5107a83; 0x98705333; 0xdfd029e3; 0xe2b00053;
  0xc1c12f04; 0xfca106b4; 0xbb017c64; 0x866155d4; 0x344189c4; 0x0921a074; 0x4e81daa4; 0x73e1f314;
  0xf1b164c5; 0xccd14d75; 0x8b7137a5; 0xb6111e15; 0x0431c205; 0x3951ebb5; 0x7ef19165; 0x4391b8d5;
  0xa121b886; 0x9c419136; 0xdbe1ebe6; 0xe681c256; 0x54a11e46; 0x69c137f6; 0x2e614d26; 0x13016496;
  0x9151f347; 0xac31daf7; 0xeb91a027; 0xd6f18997; 0x64d15587; 0x59b17c37; 0x1e1106e7; 0x23712f57;
  0x58f35849; 0x659371f9; 0x22330b29; 0x1f532299; 0xad73fe89; 0x9013d739; 0xd7b3ade9; 0xead38459;
  0x68831388; 0x55e33a38; 0x124340e8; 0x2f236958; 0x9d03b548; 0xa0639cf8; 0xe7c3e628; 0xdaa3cf98;
  0x3813cfcb; 0x0573e67b; 0x42d39cab; 0x7fb3b51b; 0xcd93690b; 0xf0f340bb; 0xb7533a6b; 0x8a3313db;
  0x0863840a; 0x3503adba; 0x72a3d76a; 0x4fc3feda; 0xfde322ca; 0xc0830b7a; 0x872371aa; 0xba43581a;
  0x9932774d; 0xa4525efd; 0xe3f2242d; 0xde920d9d; 0x6cb2d18d; 0x51d2f83d; 0x167282ed; 0x2b12ab5d;
  0xa9423c8c; 0x9422153c; 0xd3826fec; 0xeee2465c; 0x5cc29a4c; 0x61a2b3fc; 0x2602c92c; 0x1b62e09c;
  0xf9d2e0cf; 0xc4b2c97f; 0x8312b3af; 0xbe729a1f; 0x0c52460f; 0x31326fbf; 0x7692156f; 0x4bf23cdf;
  0xc9a2ab0e; 0xf4c282be; 0xb362f86e; 0x8e02d1de; 0x3c220dce; 0x0142247e; 0x46e25eae; 0x7b82771e;
  0xb1e6b092; 0x8c869922; 0xcb26e3f2; 0xf646ca42; 0x44661652; 0x79063fe2; 0x3ea64532; 0x03c66c82;
  0x8196fb53; 0xbcf6d2e3; 0xfb56a833; 0xc6368183; 0x74165d93; 0x49767423; 0x0ed60ef3; 0x33b62743;
  0xd1062710; 0xec660ea0; 0xabc67470; 0x96a65dc0; 0x248681d0; 0x19e6a860; 0x5e46d2b0; 0x6326fb00;
  0xe1766cd1; 0xdc164561; 0x9bb63fb1; 0xa6d61601; 0x14f6ca11; 0x2996e3a1; 0x6e369971; 0x5356b0c1;
  0x70279f96; 0x4d47b626; 0x0ae7ccf6; 0x3787e546; 0x85a73956; 0xb8c710e6; 0xff676a36; 0xc2074386;
  0x4057d457; 0x7d37fde7; 0x3a978737; 0x07f7ae87; 0xb5d77297; 0x88b75b27; 0xcf1721f7; 0xf2770847;
  0x10c70814; 0x2da721a4; 0x6a075b74; 0x576772c4; 0xe547aed4; 0xd8278764; 0x9f87fdb4; 0xa2e7d404;
  0x20b743d5; 0x1dd76a65; 0x5a7710b5; 0x67173905; 0xd537e515; 0xe857cca5; 0xaff7b675; 0x92979fc5;
  0xe915e8db; 0xd475c16b; 0x93d5bbbb; 0xaeb5920b; 0x1c954e1b; 0x21f567ab; 0x66551d7b; 0x5b3534cb;
  0xd965a31a; 0xe4058aaa; 0xa3a5f07a; 0x9ec5d9ca; 0x2ce505da; 0x11852c6a; 0x562556ba; 0x6b457f0a;
  0x89f57f59; 0xb49556e9; 0xf3352c39; 0xce550589; 0x7c75d999; 0x4115f029; 0x06b58af9; 0x3bd5a349;
  0xb9853498; 0x84e51d28; 0xc34567f8; 0xfe254e48; 0x4c059258; 0x7165bbe8; 0x36c5c138; 0x0ba5e888;
  0x28d4c7df; 0x15b4ee6f; 0x521494bf; 0x6f74bd0f; 0xdd54611f; 0xe03448af; 0xa794327f; 0x9af41bcf;
  0x18a48c1e; 0x25c4a5ae; 0x6264df7e; 0x5f04f6ce; 0xed242ade; 0xd044036e; 0x97e479be; 0xaa84500e;
  0x4834505d; 0x755479ed; 0x32f4033d; 0x0f942a8d; 0xbdb4f69d; 0x80d4df2d; 0xc774a5fd; 0xfa148c4d;
  0x78441b9c; 0x4524322c; 0x028448fc; 0x3fe4614c; 0x8dc4bd5c; 0xb0a494ec; 0xf704ee3c; 0xca64c78c].

Definition crc32_table_le_5 : list Z := [
  0x00000000; 0xcb5cd3a5; 0x4dc8a10b; 0x869472ae; 0x9b914216; 0x50cd91b3; 0xd659e31d; 0x1d0530b8;
  0xec53826d; 0x270f51c8; 0xa19b2366; 0x6ac7f0c3; 0x77c2c07b; 0xbc9e13de; 0x3a0a6170; 0xf156b2d5;
  0x03d6029b; 0xc88ad13e; 0x4e1ea390; 0x85427035; 0x9847408d; 0x531b9328; 0xd58fe186; 0x1ed33223;
  0xef8580f6; 0x24d95353; 0xa24d21fd; 0x6911f258; 0x7414c2e0; 0xbf481145; 0x39dc63eb; 0xf280b04e;
  0x07ac0536; 0xccf0d693; 0x4a64a43d; 0x81387798; 0x9c3d4720; 0x57619485; 0xd1f5e62b; 0x1aa9358e;
  0xebff875b; 0x20a354fe; 0xa6372650; 0x6d6bf5f5; 0x706ec54d; 0xbb3216e8; 0x3da66446; 0xf6fab7e3;
  0x047a07ad; 0xcf26d408; 0x49b2a6a6; 0x82ee7503; 0x9feb45bb; 0x54b7961e; 0xd223e4b0; 0x197f3715;
  0xe82985c0; 0x23755665; 0xa5e124cb; 0x6ebdf76e; 0x73b8c7d6; 0xb8e41473; 0x3e7066dd; 0xf52cb578;
  0x0f580a6c; 0xc404d9c9; 0x4290ab67; 0x89cc78c2; 0x94c9487a; 0x5f959bdf; 0xd901e971; 0x125d3ad4;
  0xe30b8801; 0x28575ba4; 0xaec3290a; 0x659ffaaf; 0x789aca17; 0xb3c619b2; 0x35526b1c; 0xfe0eb8b9;
  0x0c8e08f7; 0xc7d2db52; 0x4146a9fc; 0x8a1a7a59; 0x971f4ae1; 0x5c439944; 0xdad7ebea; 0x118b384f;
  0xe0dd8a9a; 0x2b81593f; 0xad152b91; 0x6649f834; 0x7b4cc88c; 0xb0101b29; 0x36846987; 0xfdd8ba22;
  0x08f40f5a; 0xc3a8dcff; 0x453cae51; 0x8e607df4; 0x93654d4c; 0x58399ee9; 0xdeadec47; 0x15f13fe2;
  0xe4a78d37; 0x2ffb5e92; 0xa96f2c3c; 0x6233ff99; 0x7f36cf21; 0xb46a1c84; 0x32fe6e2a; 0xf9a2bd8f;
  0x0b220dc1; 0xc07ede64; 0x46eaacca; 0x8db67f6f; 0x90b34fd7; 0x5bef9c72; 0xdd7beedc; 0x16273d79;
  0xe7718fac; 0x2c2d5c09; 0xaab92ea7; 0x61e5fd02; 0x7ce0cdba; 0xb7bc1e1f; 0x31286cb1; 0xfa74bf14;
  0x1eb014d8; 0xd5ecc77d; 0x5378b5d3; 0x98246676; 0x852156ce; 0x4e7d856b; 0xc8e9f7c5; 0x03b52460;
  0xf2e396b5; 0x39bf4510; 0xbf2b37be; 0x7477e41b; 0x6972d4a3; 0xa22e0706; 0x24ba75a8; 0xefe6a60d;
  0x1d661643; 0xd63ac5e6; 0x50aeb748; 0x9bf264ed; 0x86f75455; 0x4dab87f0; 0xcb3ff55e; 0x006326fb;
  0xf135942e; 0x3a69478b; 0xbcfd3525; 0x77a1e680; 0x6aa4d638; 0xa1f8059d; 0x276c7733; 0xec30a496;
  0x191c11ee; 0xd240c24b; 0x54d4b0e5; 0x9f886340; 0x828d53f8; 0x49d1805d; 0xcf45f2f3; 0x04192156;
  0xf54f9383; 0x3e134026; 0xb8873288; 0x73dbe12d; 0x6eded195; 0xa5820230; 0x2316709e; 0xe84aa33b;
  0x1aca1375; 0xd196c0d0; 0x5702b27e; 0x9c5e61db; 0x815b5163; 0x4a0782c6; 0xcc93f068; 0x07cf23cd;
  0xf6999118; 0x3dc542bd; 0xbb513013; 0x700de3b6; 0x6d08d30e; 0xa65400ab; 0x20c07205; 0xeb9ca1a0;
  0x11e81eb4; 0xdab4cd11; 0x5c20bfbf; 0x977c6c1a; 0x8a795ca2; 0x41258f07; 0xc7b1fda9; 0x0ced2e0c;
  0xfdbb9cd9; 0x36e74f7c; 0xb0733dd2; 0x7b2fee77; 0x662adecf; 0xad760d6a; 0x2be27fc4; 0xe0beac61;
  0x123e1c2f; 0xd962cf8a; 0x5ff6bd24; 0x94aa6e81; 0x89af5e39; 0x42f38d9c; 0xc467ff32; 0x0f3b2c97;
  0xfe6d9e42; 0x35314de7; 0xb3a53f49; 0x78f9ecec; 0x65fcdc54; 0xaea00ff1; 0x28347d5f; 0xe368aefa;
  0x16441b82; 0xdd18c827; 0x5b8cba89; 0x90d0692c; 0x8dd55994; 0x46898a31; 0xc01df89f; 0x0b412b3a;
  0xfa1799ef; 0x314b4a4a; 0xb7df38e4; 0x7c83eb41; 0x6186dbf9; 0xaada085c; 0x2c4e7af2; 0xe712a957;
  0x15921919; 0xdececabc; 0x585ab812; 0x93066bb7; 0x8e035b0f; 0x455f88aa; 0xc3cbfa04; 0x089729a1;
  0xf9c19b74; 0x329d48d1; 0xb4093a7f; 0x7f55e9da; 0x6250d962; 0xa90c0ac7; 0x2f987869; 0xe4c4abcc].

Definition crc32_table_le_6 : list Z := [
  0x00000000; 0xa6770bb4; 0x979f1129; 0x31e81a9d; 0xf44f2413; 0x52382fa7; 0x63d0353a; 0xc5a73e8e;
  0x33ef4e67; 0x959845d3; 0xa4705f4e; 0x020754fa; 0xc7a06a74; 0x61d761c0; 0x503f7b5d; 0xf64870e9;
  0x67de9cce; 0xc1a9977a; 0xf0418de7; 0x56368653; 0x9391b8dd; 0x35e6b369; 0x040ea9f4; 0xa279a240;
  0x5431d2a9; 0xf246d91d; 0xc3aec380; 0x65d9c834; 0xa07ef6ba; 0x0609fd0e; 0x37e1e793; 0x9196ec27;
  0xcfbd399c; 0x69ca3228; 0x582228b5; 0xfe552301; 0x3bf21d8f; 0x9d85163b; 0xac6d0ca6; 0x0a1a0712;
  0xfc5277fb; 0x5a257c4f; 0x6bcd66d2; 0xcdba6d66; 0x081d53e8; 0xae6a585c; 0x9f8242c1; 0x39f54975;
  0xa863a552; 0x0e14aee6; 0x3ffcb47b; 0x998bbfcf; 0x5c2c8141; 0xfa5b8af5; 0xcbb39068; 0x6dc49bdc;
  0x9b8ceb35; 0x3dfbe081; 0x0c13fa1c; 0xaa64f1a8; 0x6fc3cf26; 0xc9b4c492; 0xf85cde0f; 0x5e2bd5bb;
  0x440b7579; 0xe27c7ecd; 0xd3946450; 0x75e36fe4; 0xb044516a; 0x16335ade; 0x27db4043; 0x81ac4bf7;
  0x77e43b1e; 0xd19330aa; 0xe07b2a37; 0x460c2183; 0x83ab1f0d; 0x25dc14b9; 0x14340e24; 0xb2430590;
  0x23d5e9b7; 0x85a2e203; 0xb44af89e; 0x123df32a; 0xd79acda4; 0x71edc610; 0x4005dc8d; 0xe672d739;
  0x103aa7d0; 0xb64dac64; 0x87a5b6f9; 0x21d2bd4d; 0xe47583c3; 0x42028877; 0x73ea92ea; 0xd59d995e;
  0x8bb64ce5; 0x2dc14751; 0x1c295dcc; 0xba5e5678; 0x7ff968f6; 0xd98e6342; 0xe86679df; 0x4e11726b;
  0xb8590282; 0x1e2e0936; 0x2fc613ab; 0x89b1181f; 0x4c162691; 0xea612d25; 0xdb8937b8; 0x7dfe3c0c;
  0xec68d02b; 0x4a1fdb9f; 0x7bf7c102; 0xdd80cab6; 0x1827f438; 0xbe50ff8c; 0x8fb8e511; 0x29cfeea5;
  0xdf879e4c; 0x79f095f8; 0x48188f65; 0xee6f84d1; 0x2bc8ba5f; 0x8dbfb1eb; 0xbc57ab76; 0x1a20a0c2;
  0x8816eaf2; 0x2e61e146; 0x1f89fbdb; 0xb9fef06f; 0x7c59cee1; 0xda2ec555; 0xebc6dfc8; 0x4db1d47c;
  0xbbf9a495; 0x1d8eaf21; 0x2c66b5bc; 0x8a11be08; 0x4fb68086; 0xe9c18b32; 0xd82991af; 0x7e5e9a1b;
  0xefc8763c; 0x49bf7d88; 0x78576715; 0xde206ca1; 0x1b87522f; 0xbdf0599b; 0x8c184306; 0x2a6f48b2;
  0xdc27385b; 0x7a5033ef; 0x4bb82972; 0xedcf22c6; 0x28681c48; 0x8e1f17fc; 0xbff70d61; 0x198006d5;
  0x47abd36e; 0xe1dcd8da; 0xd034c247; 0x7643c9f3; 0xb3e4f77d; 0x1593fcc9; 0x247be654; 0x820cede0;
  0x74449d09; 0xd23396bd; 0xe3db8c20; 0x45ac8794; 0x800bb91a; 0x267cb2ae; 0x1794a833; 0xb1e3a387;
  0x20754fa0; 0x86024414; 0xb7ea5e89; 0x119d553d; 0xd43a6bb3; 0x724d6007; 0x43a57a9a; 0xe5d2712e;
  0x139a01c7; 0xb5ed0a73; 0x840510ee; 0x22721b5a; 0xe7d525d4; 0x41a22e60; 0x704a34fd; 0xd63d3f49;
  0xcc1d9f8b; 0x6a6a943f; 0x5b828ea2; 0xfdf58516; 0x3852bb98; 0x9e25b02c; 0xafcdaab1; 0x09baa105;
  0xfff2d1ec; 0x5985da58; 0x686dc0c5; 0xce1acb71; 0x0bbdf5ff; 0xadcafe4b; 0x9c22e4d6; 0x3a55ef62;
  0xabc30345; 0x0db408f1; 0x3c5c126c; 0x9a2b19d8; 0x5f8c2756; 0xf9fb2ce2; 0xc813367f; 0x6e643dcb;
  0x982c4d22; 0x3e5b4696; 0x0fb35c0b; 0xa9c457bf; 0x6c636931; 0xca146285; 0xfbfc7818; 0x5d8b73ac;
  0x03a0a617; 0xa5d7ada3; 0x943fb73e; 0x3248bc8a; 0xf7ef8204; 0x519889b0; 0x6070932d; 0xc6079899;
  0x304fe870; 0x9638e3c4; 0xa7d0f959; 0x01a7f2ed; 0xc400cc63; 0x6277c7d7; 0x539fdd4a; 0xf5e8d6fe;
  0x647e3ad9; 0xc209316d; 0xf3e12bf0; 0x55962044; 0x90311eca; 0x3646157e; 0x07ae0fe3; 0xa1d90457;
  0x579174be; 0xf1e67f0a; 0xc00e6597; 0x66796e23; 0xa3de50ad; 0x05a95b19; 0x34414184; 0x92364a30].

Definition crc32_table_le_7 : list Z := [
  0x00000000; 0xccaa009e; 0x4225077d; 0x8e8f07e3; 0x844a0efa; 0x48e00e64; 0xc66f0987; 0x0ac50919;
  0xd3e51bb5; 0x1f4f1b2b; 0x91c01cc8; 0x5d6a1c56; 0x57af154f; 0x9b0515d1; 0x158a1232; 0xd92012ac;
  0x7cbb312b; 0xb01131b5; 0x3e9e3656; 0xf23436c8; 0xf8f13fd1; 0x345b3f4f; 0xbad438ac; 0x767e3832;
  0xaf5e2a9e; 0x63f42a00; 0xed7b2de3; 0x21d12d7d; 0x2b142464; 0xe7be24fa; 0x69312319; 0xa59b2387;
  0xf9766256; 0x35dc62c8; 0xbb53652b; 0x77f965b5; 0x7d3c6cac; 0xb1966c32; 0x3f196bd1; 0xf3b36b4f;
  0x2a9379e3; 0xe639797d; 0x68b67e9e; 0xa41c7e00; 0xaed97719; 0x62737787; 0xecfc7064; 0x205670fa;
  0x85cd537d; 0x496753e3; 0xc7e85400; 0x0b42549e; 0x01875d87; 0xcd2d5d19; 0x43a25afa; 0x8f085a64;
  0x562848c8; 0x9a824856; 0x140d4fb5; 0xd8a74f2b; 0xd2624632; 0x1ec846ac; 0x9047414f; 0x5ced41d1;
  0x299dc2ed; 0xe537c273; 0x6bb8c590; 0xa712c50e; 0xadd7cc17; 0x617dcc89; 0xeff2cb6a; 0x2358cbf4;
  0xfa78d958; 0x36d2d9c6; 0xb85dde25; 0x74f7debb; 0x7e32d7a2; 0xb298d73c; 0x3c17d0df; 0xf0bdd041;
  0x5526f3c6; 0x998cf358; 0x1703f4bb; 0xdba9f425; 0xd16cfd3c; 0x1dc6fda2; 0x9349fa41; 0x5fe3fadf;
  0x86c3e873; 0x4a69e8ed; 0xc4e6ef0e; 0x084cef90; 0x0289e689; 0xce23e617; 0x40ace1f4; 0x8c06e16a;
  0xd0eba0bb; 0x1c41a025; 0x92cea7c6; 0x5e64a758; 0x54a1ae41; 0x980baedf; 0x1684a93c; 0xda2ea9a2;
  0x030ebb0e; 0xcfa4bb90; 0x412bbc73; 0x8d81bced; 0x8744b5f4; 0x4beeb56a; 0xc561b289; 0x09cbb217;
  0xac509190; 0x60fa910e; 0xee7596ed; 0x22df9673; 0x281a9f6a; 0xe4b09ff4; 0x6a3f9817; 0xa6959889;
  0x7fb58a25; 0xb31f8abb; 0x3d908d58; 0xf13a8dc6; 0xfbff84df; 0x37558441; 0xb9da83a2; 0x7570833c;
  0x533b85da; 0x9f918544; 0x111e82a7; 0xddb48239; 0xd7718b20; 0x1bdb8bbe; 0x95548c5d; 0x59fe8cc3;
  0x80de9e6f; 0x4c749ef1; 0xc2fb9912; 0x0e51998c; 0x04949095; 0xc83e900b; 0x46b197e8; 0x8a1b9776;
  0x2f80b4f1; 0xe32ab46f; 0x6da5b38c; 0xa10fb312; 0xabcaba0b; 0x6760ba95; 0xe9efbd76; 0x2545bde8;
  0xfc65af44; 0x30cfafda; 0xbe40a839; 0x72eaa8a7; 0x782fa1be; 0xb485a120; 0x3a0aa6c3; 0xf6a0a65d;
  0xaa4de78c; 0x66e7e712; 0xe868e0f1; 0x24c2e06f; 0x2e07e976; 0xe2ade9e8; 0x6c22ee0b; 0xa088ee95;
  0x79a8fc39; 0xb502fca7; 0x3b8dfb44; 0xf727fbda; 0xfde2f2c3; 0x3148f25d; 0xbfc7f5be; 0x736df520;
  0xd6f6d6a7; 0x1a5cd639; 0x94d3d1da; 0x5879d144; 0x52bcd85d; 0x9e16d8c3; 0x1099df20; 0xdc33dfbe;
  0x0513cd12; 0xc9b9cd8c; 0x4736ca6f; 0x8b9ccaf1; 0x8159c3e8; 0x4df3c376; 0xc37cc495; 0x0fd6c40b;
  0x7aa64737; 0xb60c47a9; 0x3883404a; 0xf42940d4; 0xfeec49cd; 0x32464953; 0xbcc94eb0; 0x70634e2e;
  0xa9435c82; 0x65e95c1c; 0xeb665bff; 0x27cc5b61; 0x2d095278; 0xe1a352e6; 0x6f2c5505; 0xa386559b;
  0x061d761c; 0xcab77682; 0x44387161; 0x889271ff; 0x825778e6; 0x4efd7878; 0xc0727f9b; 0x0cd87f05;
  0xd5f86da9; 0x19526d37; 0x97dd6ad4; 0x5b776a4a; 0x51b26353; 0x9d1863cd; 0x1397642e; 0xdf3d64b0;
  0x83d02561; 0x4f7a25ff; 0xc1f5221c; 0x0d5f2282; 0x079a2b9b; 0xcb302b05; 0x45bf2ce6; 0x89152c78;
  0x50353ed4; 0x9c9f3e4a; 0x121039a9; 0xdeba3937; 0xd47f302e; 0x18d530b0; 0x965a3753; 0x5af037cd;
  0xff6b144a; 0x33c114d4; 0xbd4e1337; 0x71e413a9; 0x7b211ab0; 0xb78b1a2e; 0x39041dcd; 0xf5ae1d53;
  0x2c8e0fff; 0xe0240f61; 0x6eab0882; 0xa201081c; 0xa8c40105; 0x646e019b; 0xeae10678; 0x264b06e6].

Definition lzma_crc32_table : list (list Z) :=
  [crc32_table_le_0; crc32_table_le_1; crc32_table_le_2; crc32_table_le_3; crc32_table_le_4; crc32_table_le_5; crc32_table_le_6; crc32_table_le_7].

Definition crc64_table_le_0 : list Z := [
  0x0000000000000000; 0xb32e4cbe03a75f6f; 0xf4843657a840a05b; 0x47aa7ae9abe7ff34;
  0x7bd0c384ff8f5e33; 0xc8fe8f3afc28015c; 0x8f54f5d357cffe68; 0x3c7ab96d5468a107;
  0xf7a18709ff1ebc66; 0x448fcbb7fcb9e309; 0x0325b15e575e1c3d; 0xb00bfde054f94352;
  0x8c71448d0091e255; 0x3f5f08330336bd3a; 0x78f572daa8d1420e; 0xcbdb3e64ab761d61;
  0x7d9ba13851336649; 0xceb5ed8652943926; 0x891f976ff973c612; 0x3a31dbd1fad4997d;
  0x064b62bcaebc387a; 0xb5652e02ad1b6715; 0xf2cf54eb06fc9821; 0x41e11855055bc74e;
  0x8a3a2631ae2dda2f; 0x39146a8fad8a8540; 0x7ebe1066066d7a74; 0xcd905cd805ca251b;
  0xf1eae5b551a2841c; 0x42c4a90b5205db73; 0x056ed3e2f9e22447; 0xb6409f5cfa457b28;
  0xfb374270a266cc92; 0x48190ecea1c193fd; 0x0fb374270a266cc9; 0xbc9d3899098133a6;
  0x80e781f45de992a1; 0x33c9cd4a5e4ecdce; 0x7463b7a3f5a932fa; 0xc74dfb1df60e6d95;
  0x0c96c5795d7870f4; 0xbfb889c75edf2f9b; 0xf812f32ef538d0af; 0x4b3cbf90f69f8fc0;
  0x774606fda2f72ec7; 0xc4684a43a15071a8; 0x83c230aa0ab78e9c; 0x30ec7c140910d1f3;
  0x86ace348f355aadb; 0x3582aff6f0f2f5b4; 0x7228d51f5b150a80; 0xc10699a158b255ef;
  0xfd7c20cc0cdaf4e8; 0x4e526c720f7dab87; 0x09f8169ba49a54b3; 0xbad65a25a73d0bdc;
  0x710d64410c4b16bd; 0xc22328ff0fec49d2; 0x85895216a40bb6e6; 0x36a71ea8a7ace989;
  0x0adda7c5f3c4488e; 0xb9f3eb7bf06317e1; 0xfe5991925b84e8d5; 0x4d77dd2c5823b7ba;
  0x64b62bcaebc387a1; 0xd7986774e864d8ce; 0x90321d9d438327fa; 0x231c512340247895;
  0x1f66e84e144cd992; 0xac48a4f017eb86fd; 0xebe2de19bc0c79c9; 0x58cc92a7bfab26a6;
  0x9317acc314dd3bc7; 0x2039e07d177a64a8; 0x67939a94bc9d9b9c; 0xd4bdd62abf3ac4f3;
  0xe8c76f47eb5265f4; 0x5be923f9e8f53a9b; 0x1c4359104312c5af; 0xaf6d15ae40b59ac0;
  0x192d8af2baf0e1e8; 0xaa03c64cb957be87; 0xeda9bca512b041b3; 0x5e87f01b11171edc;
  0x62fd4976457fbfdb; 0xd1d305c846d8e0b4; 0x96797f21ed3f1f80; 0x2557339fee9840ef;
  0xee8c0dfb45ee5d8e; 0x5da24145464902e1; 0x1a083bacedaefdd5; 0xa9267712ee09a2ba;
  0x955cce7fba6103bd; 0x267282c1b9c65cd2; 0x61d8f8281221a3e6; 0xd2f6b4961186fc89;
  0x9f8169ba49a54b33; 0x2caf25044a02145c; 0x6b055fede1e5eb68; 0xd82b1353e242b407;
  0xe451aa3eb62a1500; 0x577fe680b58d4a6f; 0x10d59c691e6ab55b; 0xa3fbd0d71dcdea34;
  0x6820eeb3b6bbf755; 0xdb0ea20db51ca83a; 0x9ca4d8e41efb570e; 0x2f8a945a1d5c0861;
  0x13f02d374934a966; 0xa0de61894a93f609; 0xe7741b60e174093d; 0x545a57dee2d35652;
  0xe21ac88218962d7a; 0x5134843c1b317215; 0x169efed5b0d68d21; 0xa5b0b26bb371d24e;
  0x99ca0b06e7197349; 0x2ae447b8e4be2c26; 0x6d4e3d514f59d312; 0xde6071ef4cfe8c7d;
  0x15bb4f8be788911c; 0xa6950335e42fce73; 0xe13f79dc4fc83147; 0x521135624c6f6e28;
  0x6e6b8c0f1807cf2f; 0xdd45c0b11ba09040; 0x9aefba58b0476f74; 0x29c1f6e6b3e0301b;
  0xc96c5795d7870f42; 0x7a421b2bd420502d; 0x3de861c27fc7af19; 0x8ec62d7c7c60f076;
  0xb2bc941128085171; 0x0192d8af2baf0e1e; 0x4638a2468048f12a; 0xf516eef883efae45;
  0x3ecdd09c2899b324; 0x8de39c222b3eec4b; 0xca49e6cb80d9137f; 0x7967aa75837e4c10;
  0x451d1318d716ed17; 0xf6335fa6d4b1b278; 0xb199254f7f564d4c; 0x02b769f17cf11223;
  0xb4f7f6ad86b4690b; 0x07d9ba1385133664; 0x4073c0fa2ef4c950; 0xf35d8c442d53963f;
  0xcf273529793b3738; 0x7c0979977a9c6857; 0x3ba3037ed17b9763; 0x888d4fc0d2dcc80c;
  0x435671a479aad56d; 0xf0783d1a7a0d8a02; 0xb7d247f3d1ea7536; 0x04fc0b4dd24d2a59;
  0x3886b22086258b5e; 0x8ba8fe9e8582d431; 0xcc0284772e652b05; 0x7f2cc8c92dc2746a;
  0x325b15e575e1c3d0; 0x8175595b76469cbf; 0xc6df23b2dda1638b; 0x75f16f0cde063ce4;
  0x498bd6618a6e9de3; 0xfaa59adf89c9c28c; 0xbd0fe036222e3db8; 0x0e21ac88218962d7;
  0xc5fa92ec8aff7fb6; 0x76d4de52895820d9; 0x317ea4bb22bfdfed; 0x8250e80521188082;
  0xbe2a516875702185; 0x0d041dd676d77eea; 0x4aae673fdd3081de; 0xf9802b81de97deb1;
  0x4fc0b4dd24d2a599; 0xfceef8632775faf6; 0xbb44828a8c9205c2; 0x086ace348f355aad;
  0x34107759db5dfbaa; 0x873e3be7d8faa4c5; 0xc094410e731d5bf1; 0x73ba0db070ba049e;
  0xb86133d4dbcc19ff; 0x0b4f7f6ad86b4690; 0x4ce50583738cb9a4; 0xffcb493d702be6cb;
  0xc3b1f050244347cc; 0x709fbcee27e418a3; 0x3735c6078c03e797; 0x841b8ab98fa4b8f8;
  0xadda7c5f3c4488e3; 0x1ef430e13fe3d78c; 0x595e4a08940428b8; 0xea7006b697a377d7;
  0xd60abfdbc3cbd6d0; 0x6524f365c06c89bf; 0x228e898c6b8b768b; 0x91a0c532682c29e4;
  0x5a7bfb56c35a3485; 0xe955b7e8c0fd6bea; 0xaeffcd016b1a94de; 0x1dd181bf68bdcbb1;
  0x21ab38d23cd56ab6; 0x9285746c3f7235d9; 0xd52f0e859495caed; 0x6601423b97329582;
  0xd041dd676d77eeaa; 0x636f91d96ed0b1c5; 0x24c5eb30c5374ef1; 0x97eba78ec690119e;
  0xab911ee392f8b099; 0x18bf525d915feff6; 0x5f1528b43ab810c2; 0xec3b640a391f4fad;
  0x27e05a6e926952cc; 0x94ce16d091ce0da3; 0xd3646c393a29f297; 0x604a2087398eadf8;
  0x5c3099ea6de60cff; 0xef1ed5546e415390; 0xa8b4afbdc5a6aca4; 0x1b9ae303c601f3cb;
  0x56ed3e2f9e224471; 0xe5c372919d851b1e; 0xa26908783662e42a; 0x114744c635c5bb45;
  0x2d3dfdab61ad1a42; 0x9e13b115620a452d; 0xd9b9cbfcc9edba19; 0x6a978742ca4ae576;
  0xa14cb926613cf817; 0x1262f598629ba778; 0x55c88f71c97c584c; 0xe6e6c3cfcadb0723;
  0xda9c7aa29eb3a624; 0x69b2361c9d14f94b; 0x2e184cf536f3067f; 0x9d36004b35545910;
  0x2b769f17cf112238; 0x9858d3a9ccb67d57; 0xdff2a94067518263; 0x6cdce5fe64f6dd0c;
  0x50a65c93309e7c0b; 0xe388102d33392364; 0xa4226ac498dedc50; 0x170c267a9b79833f;
  0xdcd7181e300f9e5e; 0x6ff954a033a8c131; 0x28532e49984f3e05; 0x9b7d62f79be8616a;
  0xa707db9acf80c06d; 0x14299724cc279f02; 0x5383edcd67c06036; 0xe0ada17364673f59].

Definition crc64_table_le_1 : list Z := [
  0x0000000000000000; 0x54e979925cd0f10d; 0xa9d2f324b9a1e21a; 0xfd3b8ab6e5711317;
  0xc17d4962dc4ddab1; 0x959430f0809d2bbc; 0x68afba4665ec38ab; 0x3c46c3d4393cc9a6;
  0x10223dee1795abe7; 0x44cb447c4b455aea; 0xb9f0cecaae3449fd; 0xed19b758f2e4b8f0;
  0xd15f748ccbd87156; 0x85b60d1e9708805b; 0x788d87a87279934c; 0x2c64fe3a2ea96241;
  0x20447bdc2f2b57ce; 0x74ad024e73fba6c3; 0x899688f8968ab5d4; 0xdd7ff16aca5a44d9;
  0xe13932bef3668d7f; 0xb5d04b2cafb67c72; 0x48ebc19a4ac76f65; 0x1c02b80816179e68;
  0x3066463238befc29; 0x648f3fa0646e0d24; 0x99b4b516811f1e33; 0xcd5dcc84ddcfef3e;
  0xf11b0f50e4f32698; 0xa5f276c2b823d795; 0x58c9fc745d52c482; 0x0c2085e60182358f;
  0x4088f7b85e56af9c; 0x14618e2a02865e91; 0xe95a049ce7f74d86; 0xbdb37d0ebb27bc8b;
  0x81f5beda821b752d; 0xd51cc748decb8420; 0x28274dfe3bba9737; 0x7cce346c676a663a;
  0x50aaca5649c3047b; 0x0443b3c41513f576; 0xf9783972f062e661; 0xad9140e0acb2176c;
  0x91d78334958edeca; 0xc53efaa6c95e2fc7; 0x380570102c2f3cd0; 0x6cec098270ffcddd;
  0x60cc8c64717df852; 0x3425f5f62dad095f; 0xc91e7f40c8dc1a48; 0x9df706d2940ceb45;
  0xa1b1c506ad3022e3; 0xf558bc94f1e0d3ee; 0x086336221491c0f9; 0x5c8a4fb0484131f4;
  0x70eeb18a66e853b5; 0x2407c8183a38a2b8; 0xd93c42aedf49b1af; 0x8dd53b3c839940a2;
  0xb193f8e8baa58904; 0xe57a817ae6757809; 0x18410bcc03046b1e; 0x4ca8725e5fd49a13;
  0x8111ef70bcad5f38; 0xd5f896e2e07dae35; 0x28c31c54050cbd22; 0x7c2a65c659dc4c2f;
  0x406ca61260e08589; 0x1485df803c307484; 0xe9be5536d9416793; 0xbd572ca48591969e;
  0x9133d29eab38f4df; 0xc5daab0cf7e805d2; 0x38e121ba129916c5; 0x6c0858284e49e7c8;
  0x504e9bfc77752e6e; 0x04a7e26e2ba5df63; 0xf99c68d8ced4cc74; 0xad75114a92043d79;
  0xa15594ac938608f6; 0xf5bced3ecf56f9fb; 0x088767882a27eaec; 0x5c6e1e1a76f71be1;
  0x6028ddce4fcbd247; 0x34c1a45c131b234a; 0xc9fa2eeaf66a305d; 0x9d135778aabac150;
  0xb177a9428413a311; 0xe59ed0d0d8c3521c; 0x18a55a663db2410b; 0x4c4c23f46162b006;
  0x700ae020585e79a0; 0x24e399b2048e88ad; 0xd9d81304e1ff9bba; 0x8d316a96bd2f6ab7;
  0xc19918c8e2fbf0a4; 0x9570615abe2b01a9; 0x684bebec5b5a12be; 0x3ca2927e078ae3b3;
  0x00e451aa3eb62a15; 0x540d28386266db18; 0xa936a28e8717c80f; 0xfddfdb1cdbc73902;
  0xd1bb2526f56e5b43; 0x85525cb4a9beaa4e; 0x7869d6024ccfb959; 0x2c80af90101f4854;
  0x10c66c44292381f2; 0x442f15d675f370ff; 0xb9149f60908263e8; 0xedfde6f2cc5292e5;
  0xe1dd6314cdd0a76a; 0xb5341a8691005667; 0x480f903074714570; 0x1ce6e9a228a1b47d;
  0x20a02a76119d7ddb; 0x744953e44d4d8cd6; 0x8972d952a83c9fc1; 0xdd9ba0c0f4ec6ecc;
  0xf1ff5efada450c8d; 0xa51627688695fd80; 0x582dadde63e4ee97; 0x0cc4d44c3f341f9a;
  0x308217980608d63c; 0x646b6e0a5ad82731; 0x9950e4bcbfa93426; 0xcdb99d2ee379c52b;
  0x90fb71cad654a0f5; 0xc41208588a8451f8; 0x392982ee6ff542ef; 0x6dc0fb7c3325b3e2;
  0x518638a80a197a44; 0x056f413a56c98b49; 0xf854cb8cb3b8985e; 0xacbdb21eef686953;
  0x80d94c24c1c10b12; 0xd43035b69d11fa1f; 0x290bbf007860e908; 0x7de2c69224b01805;
  0x41a405461d8cd1a3; 0x154d7cd4415c20ae; 0xe876f662a42d33b9; 0xbc9f8ff0f8fdc2b4;
  0xb0bf0a16f97ff73b; 0xe4567384a5af0636; 0x196df93240de1521; 0x4d8480a01c0ee42c;
  0x71c2437425322d8a; 0x252b3ae679e2dc87; 0xd810b0509c93cf90; 0x8cf9c9c2c0433e9d;
  0xa09d37f8eeea5cdc; 0xf4744e6ab23aadd1; 0x094fc4dc574bbec6; 0x5da6bd4e0b9b4fcb;
  0x61e07e9a32a7866d; 0x350907086e777760; 0xc8328dbe8b066477; 0x9cdbf42cd7d6957a;
  0xd073867288020f69; 0x849affe0d4d2fe64; 0x79a1755631a3ed73; 0x2d480cc46d731c7e;
  0x110ecf10544fd5d8; 0x45e7b682089f24d5; 0xb8dc3c34edee37c2; 0xec3545a6b13ec6cf;
  0xc051bb9c9f97a48e; 0x94b8c20ec3475583; 0x698348b826364694; 0x3d6a312a7ae6b799;
  0x012cf2fe43da7e3f; 0x55c58b6c1f0a8f32; 0xa8fe01dafa7b9c25; 0xfc177848a6ab6d28;
  0xf037fdaea72958a7; 0xa4de843cfbf9a9aa; 0x59e50e8a1e88babd; 0x0d0c771842584bb0;
  0x314ab4cc7b648216; 0x65a3cd5e27b4731b; 0x989847e8c2c5600c; 0xcc713e7a9e159101;
  0xe015c040b0bcf340; 0xb4fcb9d2ec6c024d; 0x49c73364091d115a; 0x1d2e4af655cde057;
  0x216889226cf129f1; 0x7581f0b03021d8fc; 0x88ba7a06d550cbeb; 0xdc53039489803ae6;
  0x11ea9eba6af9ffcd; 0x4503e72836290ec0; 0xb8386d9ed3581dd7; 0xecd1140c8f88ecda;
  0xd097d7d8b6b4257c; 0x847eae4aea64d471; 0x794524fc0f15c766; 0x2dac5d6e53c5366b;
  0x01c8a3547d6c542a; 0x5521dac621bca527; 0xa81a5070c4cdb630; 0xfcf329e2981d473d;
  0xc0b5ea36a1218e9b; 0x945c93a4fdf17f96; 0x6967191218806c81; 0x3d8e608044509d8c;
  0x31aee56645d2a803; 0x65479cf41902590e; 0x987c1642fc734a19; 0xcc956fd0a0a3bb14;
  0xf0d3ac04999f72b2; 0xa43ad596c54f83bf; 0x59015f20203e90a8; 0x0de826b27cee61a5;
  0x218cd888524703e4; 0x7565a11a0e97f2e9; 0x885e2bacebe6e1fe; 0xdcb7523eb73610f3;
  0xe0f191ea8e0ad955; 0xb418e878d2da2858; 0x492362ce37ab3b4f; 0x1dca1b5c6b7bca42;
  0x5162690234af5051; 0x058b1090687fa15c; 0xf8b09a268d0eb24b; 0xac59e3b4d1de4346;
  0x901f2060e8e28ae0; 0xc4f659f2b4327bed; 0x39cdd344514368fa; 0x6d24aad60d9399f7;
  0x414054ec233afbb6; 0x15a92d7e7fea0abb; 0xe892a7c89a9b19ac; 0xbc7bde5ac64be8a1;
  0x803d1d8eff772107; 0xd4d4641ca3a7d00a; 0x29efeeaa46d6c31d; 0x7d0697381a063210;
  0x712612de1b84079f; 0x25cf6b4c4754f692; 0xd8f4e1faa225e585; 0x8c1d9868fef51488;
  0xb05b5bbcc7c9dd2e; 0xe4b2222e9b192c23; 0x1989a8987e683f34; 0x4d60d10a22b8ce39;
  0x61042f300c11ac78; 0x35ed56a250c15d75; 0xc8d6dc14b5b04e62; 0x9c3fa586e960bf6f;
  0xa0796652d05c76c9; 0xf4901fc08c8c87c4; 0x09ab957669fd94d3; 0x5d42ece4352d65de].

Definition crc64_table_le_2 : list Z := [
  0x0000000000000000; 0x3f0be14a916a6dcb; 0x7e17c29522d4db96; 0x411c23dfb3beb65d;
  0xfc2f852a45a9b72c; 0xc3246460d4c3dae7; 0x823847bf677d6cba; 0xbd33a6f5f6170171;
  0x6a87a57f245d70dd; 0x558c4435b5371d16; 0x149067ea0689ab4b; 0x2b9b86a097e3c680;
  0x96a8205561f4c7f1; 0xa9a3c11ff09eaa3a; 0xe8bfe2c043201c67; 0xd7b4038ad24a71ac;
  0xd50f4afe48bae1ba; 0xea04abb4d9d08c71; 0xab18886b6a6e3a2c; 0x94136921fb0457e7;
  0x2920cfd40d135696; 0x162b2e9e9c793b5d; 0x57370d412fc78d00; 0x683cec0bbeade0cb;
  0xbf88ef816ce79167; 0x80830ecbfd8dfcac; 0xc19f2d144e334af1; 0xfe94cc5edf59273a;
  0x43a76aab294e264b; 0x7cac8be1b8244b80; 0x3db0a83e0b9afddd; 0x02bb49749af09016;
  0x38c63ad73e7bddf1; 0x07cddb9daf11b03a; 0x46d1f8421caf0667; 0x79da19088dc56bac;
  0xc4e9bffd7bd26add; 0xfbe25eb7eab80716; 0xbafe7d685906b14b; 0x85f59c22c86cdc80;
  0x52419fa81a26ad2c; 0x6d4a7ee28b4cc0e7; 0x2c565d3d38f276ba; 0x135dbc77a9981b71;
  0xae6e1a825f8f1a00; 0x9165fbc8cee577cb; 0xd079d8177d5bc196; 0xef72395dec31ac5d;
  0xedc9702976c13c4b; 0xd2c29163e7ab5180; 0x93deb2bc5415e7dd; 0xacd553f6c57f8a16;
  0x11e6f50333688b67; 0x2eed1449a202e6ac; 0x6ff1379611bc50f1; 0x50fad6dc80d63d3a;
  0x874ed556529c4c96; 0xb845341cc3f6215d; 0xf95917c370489700; 0xc652f689e122facb;
  0x7b61507c1735fbba; 0x446ab136865f9671; 0x057692e935e1202c; 0x3a7d73a3a48b4de7;
  0x718c75ae7cf7bbe2; 0x4e8794e4ed9dd629; 0x0f9bb73b5e236074; 0x30905671cf490dbf;
  0x8da3f084395e0cce; 0xb2a811cea8346105; 0xf3b432111b8ad758; 0xccbfd35b8ae0ba93;
  0x1b0bd0d158aacb3f; 0x2400319bc9c0a6f4; 0x651c12447a7e10a9; 0x5a17f30eeb147d62;
  0xe72455fb1d037c13; 0xd82fb4b18c6911d8; 0x9933976e3fd7a785; 0xa6387624aebdca4e;
  0xa4833f50344d5a58; 0x9b88de1aa5273793; 0xda94fdc5169981ce; 0xe59f1c8f87f3ec05;
  0x58acba7a71e4ed74; 0x67a75b30e08e80bf; 0x26bb78ef533036e2; 0x19b099a5c25a5b29;
  0xce049a2f10102a85; 0xf10f7b65817a474e; 0xb01358ba32c4f113; 0x8f18b9f0a3ae9cd8;
  0x322b1f0555b99da9; 0x0d20fe4fc4d3f062; 0x4c3cdd90776d463f; 0x73373cdae6072bf4;
  0x494a4f79428c6613; 0x7641ae33d3e60bd8; 0x375d8dec6058bd85; 0x08566ca6f132d04e;
  0xb565ca530725d13f; 0x8a6e2b19964fbcf4; 0xcb7208c625f10aa9; 0xf479e98cb49b6762;
  0x23cdea0666d116ce; 0x1cc60b4cf7bb7b05; 0x5dda28934405cd58; 0x62d1c9d9d56fa093;
  0xdfe26f2c2378a1e2; 0xe0e98e66b212cc29; 0xa1f5adb901ac7a74; 0x9efe4cf390c617bf;
  0x9c4505870a3687a9; 0xa34ee4cd9b5cea62; 0xe252c71228e25c3f; 0xdd592658b98831f4;
  0x606a80ad4f9f3085; 0x5f6161e7def55d4e; 0x1e7d42386d4beb13; 0x2176a372fc2186d8;
  0xf6c2a0f82e6bf774; 0xc9c941b2bf019abf; 0x88d5626d0cbf2ce2; 0xb7de83279dd54129;
  0x0aed25d26bc24058; 0x35e6c498faa82d93; 0x74fae74749169bce; 0x4bf1060dd87cf605;
  0xe318eb5cf9ef77c4; 0xdc130a1668851a0f; 0x9d0f29c9db3bac52; 0xa204c8834a51c199;
  0x1f376e76bc46c0e8; 0x203c8f3c2d2cad23; 0x6120ace39e921b7e; 0x5e2b4da90ff876b5;
  0x899f4e23ddb20719; 0xb694af694cd86ad2; 0xf7888cb6ff66dc8f; 0xc8836dfc6e0cb144;
  0x75b0cb09981bb035; 0x4abb2a430971ddfe; 0x0ba7099cbacf6ba3; 0x34ace8d62ba50668;
  0x3617a1a2b155967e; 0x091c40e8203ffbb5; 0x4800633793814de8; 0x770b827d02eb2023;
  0xca382488f4fc2152; 0xf533c5c265964c99; 0xb42fe61dd628fac4; 0x8b2407574742970f;
  0x5c9004dd9508e6a3; 0x639be59704628b68; 0x2287c648b7dc3d35; 0x1d8c270226b650fe;
  0xa0bf81f7d0a1518f; 0x9fb460bd41cb3c44; 0xdea84362f2758a19; 0xe1a3a228631fe7d2;
  0xdbded18bc794aa35; 0xe4d530c156fec7fe; 0xa5c9131ee54071a3; 0x9ac2f254742a1c68;
  0x27f154a1823d1d19; 0x18fab5eb135770d2; 0x59e69634a0e9c68f; 0x66ed777e3183ab44;
  0xb15974f4e3c9dae8; 0x8e5295be72a3b723; 0xcf4eb661c11d017e; 0xf045572b50776cb5;
  0x4d76f1dea6606dc4; 0x727d1094370a000f; 0x3361334b84b4b652; 0x0c6ad20115dedb99;
  0x0ed19b758f2e4b8f; 0x31da7a3f1e442644; 0x70c659e0adfa9019; 0x4fcdb8aa3c90fdd2;
  0xf2fe1e5fca87fca3; 0xcdf5ff155bed9168; 0x8ce9dccae8532735; 0xb3e23d8079394afe;
  0x64563e0aab733b52; 0x5b5ddf403a195699; 0x1a41fc9f89a7e0c4; 0x254a1dd518cd8d0f;
  0x9879bb20eeda8c7e; 0xa7725a6a7fb0e1b5; 0xe66e79b5cc0e57e8; 0xd96598ff5d643a23;
  0x92949ef28518cc26; 0xad9f7fb81472a1ed; 0xec835c67a7cc17b0; 0xd388bd2d36a67a7b;
  0x6ebb1bd8c0b17b0a; 0x51b0fa9251db16c1; 0x10acd94de265a09c; 0x2fa73807730fcd57;
  0xf8133b8da145bcfb; 0xc718dac7302fd130; 0x8604f9188391676d; 0xb90f185212fb0aa6;
  0x043cbea7e4ec0bd7; 0x3b375fed7586661c; 0x7a2b7c32c638d041; 0x45209d785752bd8a;
  0x479bd40ccda22d9c; 0x789035465cc84057; 0x398c1699ef76f60a; 0x0687f7d37e1c9bc1;
  0xbbb45126880b9ab0; 0x84bfb06c1961f77b; 0xc5a393b3aadf4126; 0xfaa872f93bb52ced;
  0x2d1c7173e9ff5d41; 0x121790397895308a; 0x530bb3e6cb2b86d7; 0x6c0052ac5a41eb1c;
  0xd133f459ac56ea6d; 0xee3815133d3c87a6; 0xaf2436cc8e8231fb; 0x902fd7861fe85c30;
  0xaa52a425bb6311d7; 0x9559456f2a097c1c; 0xd44566b099b7ca41; 0xeb4e87fa08dda78a;
  0x567d210ffecaa6fb; 0x6976c0456fa0cb30; 0x286ae39adc1e7d6d; 0x176102d04d7410a6;
  0xc0d5015a9f3e610a; 0xffdee0100e540cc1; 0xbec2c3cfbdeaba9c; 0x81c922852c80d757;
  0x3cfa8470da97d626; 0x03f1653a4bfdbbed; 0x42ed46e5f8430db0; 0x7de6a7af6929607b;
  0x7f5deedbf3d9f06d; 0x40560f9162b39da6; 0x014a2c4ed10d2bfb; 0x3e41cd0440674630;
  0x83726bf1b6704741; 0xbc798abb271a2a8a; 0xfd65a96494a49cd7; 0xc26e482e05cef11c;
  0x15da4ba4d78480b0; 0x2ad1aaee46eeed7b; 0x6bcd8931f5505b26; 0x54c6687b643a36ed;
  0xe9f5ce8e922d379c; 0xd6fe2fc403475a57; 0x97e20c1bb0f9ec0a; 0xa8e9ed51219381c1].

Definition crc64_table_le_3 : list Z := [
  0x0000000000000000; 0x1dee8a5e222ca1dc; 0x3bdd14bc445943b8; 0x26339ee26675e264;
  0x77ba297888b28770; 0x6a54a326aa9e26ac; 0x4c673dc4ccebc4c8; 0x5189b79aeec76514;
  0xef7452f111650ee0; 0xf29ad8af3349af3c; 0xd4a9464d553c4d58; 0xc947cc137710ec84;
  0x98ce7b8999d78990; 0x8520f1d7bbfb284c; 0xa3136f35dd8eca28; 0xbefde56bffa26bf4;
  0x4c300ac98dc40345; 0x51de8097afe8a299; 0x77ed1e75c99d40fd; 0x6a03942bebb1e121;
  0x3b8a23b105768435; 0x2664a9ef275a25e9; 0x0057370d412fc78d; 0x1db9bd5363036651;
  0xa34458389ca10da5; 0xbeaad266be8dac79; 0x98994c84d8f84e1d; 0x8577c6dafad4efc1;
  0xd4fe714014138ad5; 0xc910fb1e363f2b09; 0xef2365fc504ac96d; 0xf2cdefa2726668b1;
  0x986015931b88068a; 0x858e9fcd39a4a756; 0xa3bd012f5fd14532; 0xbe538b717dfde4ee;
  0xefda3ceb933a81fa; 0xf234b6b5b1162026; 0xd4072857d763c242; 0xc9e9a209f54f639e;
  0x771447620aed086a; 0x6afacd3c28c1a9b6; 0x4cc953de4eb44bd2; 0x5127d9806c98ea0e;
  0x00ae6e1a825f8f1a; 0x1d40e444a0732ec6; 0x3b737aa6c606cca2; 0x269df0f8e42a6d7e;
  0xd4501f5a964c05cf; 0xc9be9504b460a413; 0xef8d0be6d2154677; 0xf26381b8f039e7ab;
  0xa3ea36221efe82bf; 0xbe04bc7c3cd22363; 0x9837229e5aa7c107; 0x85d9a8c0788b60db;
  0x3b244dab87290b2f; 0x26cac7f5a505aaf3; 0x00f95917c3704897; 0x1d17d349e15ce94b;
  0x4c9e64d30f9b8c5f; 0x5170ee8d2db72d83; 0x7743706f4bc2cfe7; 0x6aadfa3169ee6e3b;
  0xa218840d981e1391; 0xbff60e53ba32b24d; 0x99c590b1dc475029; 0x842b1aeffe6bf1f5;
  0xd5a2ad7510ac94e1; 0xc84c272b3280353d; 0xee7fb9c954f5d759; 0xf391339776d97685;
  0x4d6cd6fc897b1d71; 0x50825ca2ab57bcad; 0x76b1c240cd225ec9; 0x6b5f481eef0eff15;
  0x3ad6ff8401c99a01; 0x273875da23e53bdd; 0x010beb384590d9b9; 0x1ce5616667bc7865;
  0xee288ec415da10d4; 0xf3c6049a37f6b108; 0xd5f59a785183536c; 0xc81b102673aff2b0;
  0x9992a7bc9d6897a4; 0x847c2de2bf443678; 0xa24fb300d931d41c; 0xbfa1395efb1d75c0;
  0x015cdc3504bf1e34; 0x1cb2566b2693bfe8; 0x3a81c88940e65d8c; 0x276f42d762cafc50;
  0x76e6f54d8c0d9944; 0x6b087f13ae213898; 0x4d3be1f1c854dafc; 0x50d56bafea787b20;
  0x3a78919e8396151b; 0x27961bc0a1bab4c7; 0x01a58522c7cf56a3; 0x1c4b0f7ce5e3f77f;
  0x4dc2b8e60b24926b; 0x502c32b8290833b7; 0x761fac5a4f7dd1d3; 0x6bf126046d51700f;
  0xd50cc36f92f31bfb; 0xc8e24931b0dfba27; 0xeed1d7d3d6aa5843; 0xf33f5d8df486f99f;
  0xa2b6ea171a419c8b; 0xbf586049386d3d57; 0x996bfeab5e18df33; 0x848574f57c347eef;
  0x76489b570e52165e; 0x6ba611092c7eb782; 0x4d958feb4a0b55e6; 0x507b05b56827f43a;
  0x01f2b22f86e0912e; 0x1c1c3871a4cc30f2; 0x3a2fa693c2b9d296; 0x27c12ccde095734a;
  0x993cc9a61f3718be; 0x84d243f83d1bb962; 0xa2e1dd1a5b6e5b06; 0xbf0f57447942fada;
  0xee86e0de97859fce; 0xf3686a80b5a93e12; 0xd55bf462d3dcdc76; 0xc8b57e3cf1f07daa;
  0xd6e9a7309f3239a7; 0xcb072d6ebd1e987b; 0xed34b38cdb6b7a1f; 0xf0da39d2f947dbc3;
  0xa1538e481780bed7; 0xbcbd041635ac1f0b; 0x9a8e9af453d9fd6f; 0x876010aa71f55cb3;
  0x399df5c18e573747; 0x24737f9fac7b969b; 0x0240e17dca0e74ff; 0x1fae6b23e822d523;
  0x4e27dcb906e5b037; 0x53c956e724c911eb; 0x75fac80542bcf38f; 0x6814425b60905253;
  0x9ad9adf912f63ae2; 0x873727a730da9b3e; 0xa104b94556af795a; 0xbcea331b7483d886;
  0xed6384819a44bd92; 0xf08d0edfb8681c4e; 0xd6be903dde1dfe2a; 0xcb501a63fc315ff6;
  0x75adff0803933402; 0x6843755621bf95de; 0x4e70ebb447ca77ba; 0x539e61ea65e6d666;
  0x0217d6708b21b372; 0x1ff95c2ea90d12ae; 0x39cac2cccf78f0ca; 0x24244892ed545116;
  0x4e89b2a384ba3f2d; 0x536738fda6969ef1; 0x7554a61fc0e37c95; 0x68ba2c41e2cfdd49;
  0x39339bdb0c08b85d; 0x24dd11852e241981; 0x02ee8f674851fbe5; 0x1f0005396a7d5a39;
  0xa1fde05295df31cd; 0xbc136a0cb7f39011; 0x9a20f4eed1867275; 0x87ce7eb0f3aad3a9;
  0xd647c92a1d6db6bd; 0xcba943743f411761; 0xed9add965934f505; 0xf07457c87b1854d9;
  0x02b9b86a097e3c68; 0x1f5732342b529db4; 0x3964acd64d277fd0; 0x248a26886f0bde0c;
  0x7503911281ccbb18; 0x68ed1b4ca3e01ac4; 0x4ede85aec595f8a0; 0x53300ff0e7b9597c;
  0xedcdea9b181b3288; 0xf02360c53a379354; 0xd610fe275c427130; 0xcbfe74797e6ed0ec;
  0x9a77c3e390a9b5f8; 0x879949bdb2851424; 0xa1aad75fd4f0f640; 0xbc445d01f6dc579c;
  0x74f1233d072c2a36; 0x691fa96325008bea; 0x4f2c37814375698e; 0x52c2bddf6159c852;
  0x034b0a458f9ead46; 0x1ea5801badb20c9a; 0x38961ef9cbc7eefe; 0x257894a7e9eb4f22;
  0x9b8571cc164924d6; 0x866bfb923465850a; 0xa05865705210676e; 0xbdb6ef2e703cc6b2;
  0xec3f58b49efba3a6; 0xf1d1d2eabcd7027a; 0xd7e24c08daa2e01e; 0xca0cc656f88e41c2;
  0x38c129f48ae82973; 0x252fa3aaa8c488af; 0x031c3d48ceb16acb; 0x1ef2b716ec9dcb17;
  0x4f7b008c025aae03; 0x52958ad220760fdf; 0x74a614304603edbb; 0x69489e6e642f4c67;
  0xd7b57b059b8d2793; 0xca5bf15bb9a1864f; 0xec686fb9dfd4642b; 0xf186e5e7fdf8c5f7;
  0xa00f527d133fa0e3; 0xbde1d8233113013f; 0x9bd246c15766e35b; 0x863ccc9f754a4287;
  0xec9136ae1ca42cbc; 0xf17fbcf03e888d60; 0xd74c221258fd6f04; 0xcaa2a84c7ad1ced8;
  0x9b2b1fd69416abcc; 0x86c59588b63a0a10; 0xa0f60b6ad04fe874; 0xbd188134f26349a8;
  0x03e5645f0dc1225c; 0x1e0bee012fed8380; 0x383870e3499861e4; 0x25d6fabd6bb4c038;
  0x745f4d278573a52c; 0x69b1c779a75f04f0; 0x4f82599bc12ae694; 0x526cd3c5e3064748;
  0xa0a13c6791602ff9; 0xbd4fb639b34c8e25; 0x9b7c28dbd5396c41; 0x8692a285f715cd9d;
  0xd71b151f19d2a889; 0xcaf59f413bfe0955; 0xecc601a35d8beb31; 0xf1288bfd7fa74aed;
  0x4fd56e9680052119; 0x523be4c8a22980c5; 0x74087a2ac45c62a1; 0x69e6f074e670c37d;
  0x386f47ee08b7a669; 0x2581cdb02a9b07b5; 0x03b253524ceee5d1; 0x1e5cd90c6ec2440d].

Definition lzma_crc64_table : list (list Z) :=
  [crc64_table_le_0; crc64_table_le_1; crc64_table_le_2; crc64_table_le_3].
