(* ===== verification/Crc.v ===== *)
(** * liblzma: CRC32 and CRC64

    The table generators (check/crc32_tablegen.c, check/crc64_tablegen.c), the
    byte-at-a-time versions (check/crc32_small.c, check/crc64_small.c) and the
    sliced versions that the library uses (check/crc32_fast.c,
    check/crc64_fast.c, little-endian branches), with the checked-in tables of
    CrcTables.v. The reference is the bit-serial register [crc_reference].

    A pointer is the list of the bytes from it on, with its address where the
    code looks at the alignment. [None] is a read past the buffer or the
    tables. *)

From stdpp Require Import base list option.
From Stdlib Require Import ZArith Lia.
From S2P Require Import Prelude LzmaBase CrcTables.
Local Open Scope Z_scope.

(** ** The generators *)
Definition poly32 : Z := 0xEDB88320.
Definition poly64 : Z := 0xC96C5795D7870F42.

Definition crc_bit (poly r : Z) : Z :=
  if Z.land r 1 =? 0 then Z.shiftr r 1 else Z.lxor (Z.shiftr r 1) poly.

Definition crc_bits (poly : Z) (n : nat) (r : Z) : Z := Nat.iter n (crc_bit poly) r.

(** Row [s] from row [s - 1], the first from the indices. *)
Definition crc_row (poly : Z) (prev : option (list Z)) : list Z :=
  (fun b => crc_bits poly 8 (match prev with None => b | Some p => p !!! Z.to_nat b end)) <$> seqZ 0 256.

Fixpoint crc_rows (poly : Z) (n : nat) (prev : option (list Z)) : list (list Z) :=
  match n with
  | O => []
  | S n => let row := crc_row poly prev in row :: crc_rows poly n (Some row)
  end.

Definition init_crc32_table : list (list Z) := crc_rows poly32 8 None.
Definition init_crc64_table : list (list Z) := crc_rows poly64 4 None.

(** The single row of the small versions. *)
Definition crc32_init : list (list Z) := [crc_row poly32 None].
Definition crc64_init : list (list Z) := [crc_row poly64 None].

(** ** crc_macros.h, little endian *)
Module Macros.
Definition A (x : Z) : Z := Z.land x 255.
Definition B (x : Z) : Z := Z.land (Z.shiftr x 8) 255.
Definition C (x : Z) : Z := Z.land (Z.shiftr x 16) 255.
Definition D (x : Z) : Z := Z.shiftr x 24.
Definition S8 (x : Z) : Z := Z.shiftr x 8.
Definition S32 (x : Z) : Z := Z.shiftr x 32.
End Macros.

Definition table_at (table : list (list Z)) (s : nat) (i : Z) : option Z :=
  row ← table !! s; row !! Z.to_nat i.

(** One byte through the first row. *)
Definition crc_byte (table : list (list Z)) (crc b : Z) : option Z :=
  t ← table_at table 0 (Z.lxor b (Macros.A crc)); Some (Z.lxor t (Macros.S8 crc)).

Fixpoint crc_tail (table : list (list Z)) (crc : Z) (buf : list Z) : option Z :=
  match buf with
  | [] => Some crc
  | b :: buf => crc ← crc_byte table crc b; crc_tail table crc buf
  end.

(** ** crc32_small.c and crc64_small.c *)
Definition crc32_small (buf : list Z) (crc : Z) : option Z :=
  crc ← crc_tail crc32_init (u32 (Z.lnot crc)) buf; Some (u32 (Z.lnot crc)).

Definition crc64_small (buf : list Z) (crc : Z) : option Z :=
  crc ← crc_tail crc64_init (u64 (Z.lnot crc)) buf; Some (u64 (Z.lnot crc)).

(** ** crc32_fast.c and crc64_fast.c

    [while (addr & mask) ...]: bytes until the pointer is aligned. *)
Fixpoint crc_align (table : list (list Z)) (mask addr crc : Z) (buf : list Z) : option (Z * list Z) :=
  if Z.land addr mask =? 0 then Some (crc, buf)
  else match buf with
       | [] => None
       | b :: buf => crc ← crc_byte table crc b; crc_align table mask (addr + 1) crc buf
       end.

Fixpoint crc32_slices (n : nat) (crc : Z) (buf : list Z) : option (Z * list Z) :=
  match n with
  | O => Some (crc, buf)
  | S n =>
      w ← unaligned_read32le buf 0;
      let crc := Z.lxor crc w in
      let buf := drop 4 buf in
      t7 ← table_at lzma_crc32_table 7 (Macros.A crc);
      t6 ← table_at lzma_crc32_table 6 (Macros.B crc);
      t5 ← table_at lzma_crc32_table 5 (Macros.C crc);
      t4 ← table_at lzma_crc32_table 4 (Macros.D crc);
      let crc := Z.lxor (Z.lxor (Z.lxor t7 t6) t5) t4 in
      tmp ← unaligned_read32le buf 0;
      let buf := drop 4 buf in
      t3 ← table_at lzma_crc32_table 3 (Macros.A tmp);
      t2 ← table_at lzma_crc32_table 2 (Macros.B tmp);
      t1 ← table_at lzma_crc32_table 1 (Macros.C tmp);
      t0 ← table_at lzma_crc32_table 0 (Macros.D tmp);
      crc32_slices n (Z.lxor (Z.lxor (Z.lxor (Z.lxor t3 t2) crc) t1) t0) buf
  end.

Definition lzma_crc32 (addr : Z) (buf : list Z) (crc : Z) : option Z :=
  let crc := u32 (Z.lnot crc) in
  '(crc, buf) ←
    (if 8 <? Z.of_nat (length buf) then
       '(crc, buf) ← crc_align lzma_crc32_table 7 addr crc buf;
       let size := Z.of_nat (length buf) in
       crc32_slices (Z.to_nat (size / 8)) crc buf
     else Some (crc, buf));
  crc ← crc_tail lzma_crc32_table crc buf;
  Some (u32 (Z.lnot crc)).

Fixpoint crc64_slices (n : nat) (crc : Z) (buf : list Z) : option (Z * list Z) :=
  match n with
  | O => Some (crc, buf)
  | S n =>
      w ← unaligned_read32le buf 0;
      let tmp := u32 (Z.lxor crc w) in
      let buf := drop 4 buf in
      t3 ← table_at lzma_crc64_table 3 (Macros.A tmp);
      t2 ← table_at lzma_crc64_table 2 (Macros.B tmp);
      t1 ← table_at lzma_crc64_table 1 (Macros.C tmp);
      t0 ← table_at lzma_crc64_table 0 (Macros.D tmp);
      crc64_slices n (Z.lxor (Z.lxor (Z.lxor (Z.lxor t3 t2) (Macros.S32 crc)) t1) t0) buf
  end.

Definition lzma_crc64 (addr : Z) (buf : list Z) (crc : Z) : option Z :=
  let crc := u64 (Z.lnot crc) in
  '(crc, buf) ←
    (if 4 <? Z.of_nat (length buf) then
       '(crc, buf) ← crc_align lzma_crc64_table 3 addr crc buf;
       let size := Z.of_nat (length buf) in
       crc64_slices (Z.to_nat (size / 4)) crc buf
     else Some (crc, buf));
  crc ← crc_tail lzma_crc64_table crc buf;
  Some (u64 (Z.lnot crc)).

(** ** The reference: the bit-serial register *)
Definition crc_reference (poly width : Z) (buf : list Z) (crc : Z) : Z :=
  Z.lxor (Z.ones width)
    (foldl (fun c b => crc_bits poly 8 (Z.lxor c b)) (Z.lxor (Z.ones width) crc) buf).

(** "123456789", the check value of the catalogue of CRCs. *)
Definition check_string : list Z := [49; 50; 51; 52; 53; 54; 55; 56; 57].

Example crc32_check : lzma_crc32 4096 check_string 0 = Some 0xCBF43926.
Proof. vm_compute. reflexivity. Qed.

Example crc32_check_unaligned : lzma_crc32 4099 check_string 0 = Some 0xCBF43926.
Proof. vm_compute. reflexivity. Qed.

Example crc64_check : lzma_crc64 4096 check_string 0 = Some 0x995DC9BBDF1939FA.
Proof. vm_compute. reflexivity. Qed.

Example crc_reference_check : crc_reference poly32 32 check_string 0 = 0xCBF43926.
Proof. vm_compute. reflexivity. Qed.

(** ** The register is linear *)
Lemma lxor_shiftl_add a b n : 0 <= n -> 0 <= a < 2 ^ n -> Z.lxor a (Z.shiftl b n) = a + b * 2 ^ n.
Proof.
  intros Hn Ha. rewrite Z.shiftl_mul_pow2 by done. symmetry.
  apply Z.add_nocarry_lxor, land_disjoint; done.
Qed.

Lemma lor_lxor_shiftl a b n : 0 <= n -> 0 <= a < 2 ^ n -> Z.lor a (Z.shiftl b n) = Z.lxor a (Z.shiftl b n).
Proof. intros. by rewrite lor_shiftl_add, lxor_shiftl_add. Qed.

Lemma lxor_range a b n : 0 <= n -> 0 <= a < 2 ^ n -> 0 <= b < 2 ^ n -> 0 <= Z.lxor a b < 2 ^ n.
Proof.
  intros Hn Ha Hb. assert (Z.lxor a b = Z.lxor a b mod 2 ^ n) as ->.
  { rewrite <- (Z.mod_small a (2 ^ n)), <- (Z.mod_small b (2 ^ n)) at 1 by done.
    rewrite <- !Z.land_ones by done. apply Z.bits_inj'. intros k Hk.
    rewrite !Z.land_spec, !Z.lxor_spec, !Z.land_spec.
    by destruct (Z.testbit a k), (Z.testbit b k), (Z.testbit (Z.ones n) k). }
  apply Z.mod_pos_bound, Z.pow_pos_nonneg; lia.
Qed.

Section Register.
Context (poly : Z).

Lemma crc_bit_odd r : crc_bit poly r = Z.lxor (Z.shiftr r 1) (if Z.odd r then poly else 0).
Proof.
  unfold crc_bit. change 1 with (Z.ones 1) at 1. rewrite Z.land_ones by lia.
  change (2 ^ 1) with 2. rewrite Zmod_odd. destruct (Z.odd r); [done |]. by rewrite Z.lxor_0_r.
Qed.

Lemma crc_bit_lxor a b : crc_bit poly (Z.lxor a b) = Z.lxor (crc_bit poly a) (crc_bit poly b).
Proof.
  rewrite !crc_bit_odd, Z.shiftr_lxor, <- !Z.bit0_odd, Z.lxor_spec.
  apply Z.bits_inj'. intros k Hk.
  destruct (Z.testbit a 0), (Z.testbit b 0); cbn [xorb];
    rewrite !Z.lxor_spec, ?Z.bits_0;
    destruct (Z.testbit (Z.shiftr a 1) k), (Z.testbit (Z.shiftr b 1) k), (Z.testbit poly k); done.
Qed.

Lemma crc_bits_lxor n a b :
  crc_bits poly n (Z.lxor a b) = Z.lxor (crc_bits poly n a) (crc_bits poly n b).
Proof. unfold crc_bits. induction n as [| n IH]; [done |]. simpl. by rewrite IH, crc_bit_lxor. Qed.

Lemma crc_bits_add m n a : crc_bits poly (m + n) a = crc_bits poly m (crc_bits poly n a).
Proof. unfold crc_bits. induction m as [| m IH]; [done |]. simpl. by rewrite IH. Qed.

(** Zero bits at the low end are shifted out. *)
Lemma crc_bits_shiftl n a : crc_bits poly n (Z.shiftl a (Z.of_nat n)) = a.
Proof.
  unfold crc_bits. induction n as [| n IH]; [apply Z.shiftl_0_r |].
  rewrite Nat.iter_succ_r.
  replace (Z.shiftl a (Z.of_nat (S n))) with (Z.shiftl (Z.shiftl a (Z.of_nat n)) 1)
    by (rewrite Z.shiftl_shiftl by lia; f_equal; lia).
  set (x := Z.shiftl a (Z.of_nat n)) in *.
  rewrite crc_bit_odd, Z.shiftr_shiftl_l, Z.sub_diag, Z.shiftl_0_r, <- Z.bit0_odd, Z.shiftl_spec_low by lia.
  by rewrite Z.lxor_0_r.
Qed.

Lemma crc_bits_shiftl_more m n k a : k = Z.of_nat n -> crc_bits poly (m + n) (Z.shiftl a k) = crc_bits poly m a.
Proof. intros ->. by rewrite crc_bits_add, crc_bits_shiftl. Qed.

Lemma crc_bits_range w n a : 0 <= w -> 0 <= poly < 2 ^ w -> 0 <= a < 2 ^ w -> 0 <= crc_bits poly n a < 2 ^ w.
Proof.
  intros Hw Hp Ha. unfold crc_bits. induction n as [| n IH]; [done |]. simpl.
  rewrite crc_bit_odd. apply lxor_range; [done | |].
  - rewrite Z.shiftr_div_pow2 by lia. split; [apply Z.div_pos; lia |].
    apply Z.div_lt_upper_bound; lia.
  - destruct (Z.odd _); [done |]. split; [done |]. apply Z.pow_pos_nonneg; lia.
Qed.

(** One step of the register on a byte. *)
Definition feed (c b : Z) : Z := crc_bits poly 8 (Z.lxor c b).

Fixpoint le_value (bs : list Z) : Z :=
  match bs with [] => 0 | b :: bs => Z.lxor b (Z.shiftl (le_value bs) 8) end.

(** Bytes can be fed at once. *)
Lemma foldl_feed bs c : foldl feed c bs = crc_bits poly (length bs * 8) (Z.lxor c (le_value bs)).
Proof.
  revert c. induction bs as [| b bs IH]; intros c; simpl foldl; simpl le_value.
  - simpl. by rewrite Z.lxor_0_r.
  - rewrite IH. change (length (b :: bs)) with (S (length bs)).
    replace (S (length bs) * 8)%nat with (length bs * 8 + 8)%nat by lia.
    rewrite crc_bits_add. f_equal. unfold feed.
    by rewrite <- Z.lxor_assoc, (crc_bits_lxor 8 (Z.lxor c b)), (crc_bits_shiftl_more 0 8).
Qed.

(** The register after eight steps, through a table of the low byte. *)
Lemma feed_table c b : 0 <= c -> feed c b = Z.lxor (crc_bits poly 8 (Z.lxor b (Macros.A c))) (Macros.S8 c).
Proof.
  intros Hc. unfold feed, Macros.A, Macros.S8. change 255 with (Z.ones 8).
  rewrite Z.land_ones by lia.
  assert (c = Z.lxor (c mod 2 ^ 8) (Z.shiftl (Z.shiftr c 8) 8)) as E.
  { pose proof (Z.mod_pos_bound c (2 ^ 8) eq_refl). rewrite lxor_shiftl_add by lia.
    rewrite Z.shiftr_div_pow2 by lia. pose proof (Z.div_mod c (2 ^ 8)). lia. }
  rewrite E at 1. rewrite (Z.lxor_comm _ b), <- Z.lxor_assoc, crc_bits_lxor.
  by rewrite (crc_bits_shiftl_more 0 8).
Qed.
End Register.

(** ** The tables *)
Definition row_ok (poly : Z) (n : nat) (row : list Z) : Prop :=
  forall b, is_byte b -> row !! Z.to_nat b = Some (crc_bits poly n b).

Lemma crc_row_first poly : row_ok poly 8 (crc_row poly None).
Proof.
  intros b Hb. unfold is_byte in Hb. unfold crc_row. rewrite list_lookup_fmap.
  rewrite lookup_seqZ_lt by lia. cbn [fmap option_fmap option_map].
  by replace (0 + Z.of_nat (Z.to_nat b)) with b by lia.
Qed.

Lemma crc_row_next poly n row : row_ok poly n row -> row_ok poly (8 + n) (crc_row poly (Some row)).
Proof.
  intros Hr b Hb. pose proof Hb as Hb'. unfold is_byte in Hb'.
  unfold crc_row. rewrite list_lookup_fmap, lookup_seqZ_lt by lia. cbn [fmap option_fmap option_map].
  f_equal. replace (0 + Z.of_nat (Z.to_nat b)) with b by lia.
  rewrite (list_lookup_total_correct _ _ _ (Hr b Hb)). symmetry. apply crc_bits_add.
Qed.

Lemma crc_rows_next poly n m row s :
  row_ok poly m row -> (s < n)%nat ->
  exists row', crc_rows poly n (Some row) !! s = Some row' /\ row_ok poly (8 * S s + m) row'.
Proof.
  revert m row s. induction n as [| n IH]; intros m row s Hr Hs; [lia |]. simpl crc_rows.
  pose proof (crc_row_next _ _ _ Hr) as Hr'. destruct s as [| s].
  - eexists. split; [done |]. exact Hr'.
  - destruct (IH (8 + m)%nat _ s Hr') as (row' & ? & ?); [lia |]. exists row'. split; [done |].
    replace (8 * S (S s) + m)%nat with (8 * S s + (8 + m))%nat by lia. done.
Qed.

Lemma crc_rows_spec poly n s : (s < n)%nat ->
  exists row, crc_rows poly n None !! s = Some row /\ row_ok poly (8 * S s) row.
Proof.
  intros Hs. destruct n as [| n]; [lia |]. simpl crc_rows. destruct s as [| s].
  - eexists. split; [done |]. apply crc_row_first.
  - destruct (crc_rows_next poly n 8 _ s (crc_row_first poly)) as (row & ? & ?); [lia |].
    exists row. split; [done |]. by replace (8 * S (S s))%nat with (8 * S s + 8)%nat by lia.
Qed.

(** What the lookups of a table with [n] rows give. *)
Definition table_ok (poly : Z) (n : nat) (table : list (list Z)) : Prop :=
  forall s b, (s < n)%nat -> is_byte b -> table_at table s b = Some (crc_bits poly (8 * S s) b).

Lemma generated_ok poly n : table_ok poly n (crc_rows poly n None).
Proof.
  intros s b Hs Hb. destruct (crc_rows_spec poly n s Hs) as (row & Hrow & Hok).
  unfold table_at. rewrite Hrow. simpl. by apply Hok.
Qed.

(** The checked-in tables are the generated ones. *)
Lemma crc32_table_generated : lzma_crc32_table = init_crc32_table.
Proof. vm_compute. reflexivity. Qed.

Lemma crc64_table_generated : lzma_crc64_table = init_crc64_table.
Proof. vm_compute. reflexivity. Qed.

Lemma crc32_table_ok : table_ok poly32 8 lzma_crc32_table.
Proof. rewrite crc32_table_generated. apply generated_ok. Qed.

Lemma crc64_table_ok : table_ok poly64 4 lzma_crc64_table.
Proof. rewrite crc64_table_generated. apply generated_ok. Qed.

(** ** Bytes through the first row *)
Lemma A_byte x : is_byte (Macros.A x).
Proof. unfold Macros.A, is_byte. change 255 with (Z.ones 8). rewrite Z.land_ones by lia. apply Z.mod_pos_bound. lia. Qed.

Lemma lxor_byte a b : is_byte a -> is_byte b -> is_byte (Z.lxor a b).
Proof. apply (lxor_range a b 8). lia. Qed.

Section Ranges.
Context (poly w : Z) (Hw : 8 <= w) (Hp : 0 <= poly < 2 ^ w).

Lemma byte_range b : is_byte b -> 0 <= b < 2 ^ w.
Proof.
  intros [H0 H1]. split; [done |]. apply Z.lt_le_trans with (2 ^ 8); [done |]. apply Z.pow_le_mono_r; lia.
Qed.

Lemma feed_range c b : 0 <= c < 2 ^ w -> is_byte b -> 0 <= feed poly c b < 2 ^ w.
Proof.
  intros Hc Hb. apply crc_bits_range; [lia | done |]. apply lxor_range; [lia | done |]. by apply byte_range.
Qed.

Lemma foldl_feed_range bs c : 0 <= c < 2 ^ w -> bytes bs -> 0 <= foldl (feed poly) c bs < 2 ^ w.
Proof.
  revert c. induction bs as [| b bs IH]; intros c Hc Hb; [done |].
  inversion Hb; subst. apply IH; [by apply feed_range | done].
Qed.

End Ranges.

Section Bytes.
Context (poly w : Z) (n : nat) (table : list (list Z)).
Context (Hw : 8 <= w) (Hp : 0 <= poly < 2 ^ w) (Hn : (0 < n)%nat) (Ht : table_ok poly n table).

Lemma crc_byte_feed c b : 0 <= c -> is_byte b -> crc_byte table c b = Some (feed poly c b).
Proof.
  intros Hc Hb. unfold crc_byte. rewrite Ht by (lia || eauto using lxor_byte, A_byte).
  simpl. by rewrite feed_table.
Qed.

Lemma crc_tail_feed bs c : 0 <= c < 2 ^ w -> bytes bs -> crc_tail table c bs = Some (foldl (feed poly) c bs).
Proof.
  revert c. induction bs as [| b bs IH]; intros c Hc Hb; [done |].
  inversion Hb; subst. cbn [crc_tail]. rewrite crc_byte_feed by (done || lia). cbn [mbind option_bind].
  apply IH; [by apply (feed_range poly w) | done].
Qed.

(** The alignment loop consumes fewer bytes than the alignment. *)
Lemma crc_align_feed k addr bs c :
  0 <= c < 2 ^ w -> bytes bs -> 0 <= k -> (Z.to_nat (2 ^ k) <= length bs)%nat ->
  exists pre post, bs = pre ++ post /\
    crc_align table (Z.ones k) addr c bs = Some (foldl (feed poly) c pre, post).
Proof.
  intros Hc Hb Hk Hl.
  assert (forall m bs addr c, (m <= length bs)%nat -> (addr + Z.of_nat m) mod 2 ^ k = 0 ->
    bytes bs -> 0 <= c < 2 ^ w ->
    exists pre post, bs = pre ++ post /\
      crc_align table (Z.ones k) addr c bs = Some (foldl (feed poly) c pre, post)) as Hgo.
  { clear bs addr c Hl Hc Hb. induction m as [| m IH]; intros bs addr c Hl Hm Hb Hc.
    - exists [], bs. split; [done |]. rewrite Z.add_0_r in Hm.
      destruct bs; cbn [crc_align]; rewrite Z.land_ones, Hm by done; done.
    - destruct bs as [| b bs]; [simpl in Hl; lia |]. cbn [crc_align].
      inversion Hb; subst. destruct (Z.land addr (Z.ones k) =? 0); [by exists [], (b :: bs) |].
      rewrite crc_byte_feed by (done || lia). cbn [mbind option_bind].
      destruct (IH bs (addr + 1) (feed poly c b)) as (pre & post & -> & ->).
      + simpl in Hl. lia.
      + rewrite <- Hm. f_equal. lia.
      + done.
      + by apply (feed_range poly w).
      + by exists (b :: pre), post. }
  apply (Hgo (Z.to_nat ((- addr) mod 2 ^ k))); [| | done | done].
  - pose proof (Z.mod_pos_bound (- addr) (2 ^ k) ltac:(apply Z.pow_pos_nonneg; lia)). lia.
  - pose proof (Z.mod_pos_bound (- addr) (2 ^ k) ltac:(apply Z.pow_pos_nonneg; lia)).
    rewrite Z2Nat.id by lia. rewrite Z.add_mod_idemp_r by lia.
    rewrite Z.add_opp_diag_r. apply Z.mod_0_l. lia.
Qed.
End Bytes.

(** ** Slicing *)
Lemma word_bytes x : 0 <= x < 2 ^ 32 ->
  is_byte (Macros.A x) /\ is_byte (Macros.B x) /\ is_byte (Macros.C x) /\ is_byte (Macros.D x) /\
  x = Z.lxor (Z.lxor (Z.lxor (Macros.A x) (Z.shiftl (Macros.B x) 8)) (Z.shiftl (Macros.C x) 16))
        (Z.shiftl (Macros.D x) 24).
Proof.
  intros Hx.
  assert (is_byte (Macros.A x)) as HA by apply A_byte.
  assert (is_byte (Macros.B x)) as HB by apply (A_byte (Z.shiftr x 8)).
  assert (is_byte (Macros.C x)) as HC by apply (A_byte (Z.shiftr x 16)).
  assert (is_byte (Macros.D x)) as HD.
  { unfold Macros.D, is_byte. rewrite Z.shiftr_div_pow2 by lia. split; [apply Z.div_pos; lia |].
    apply Z.div_lt_upper_bound; lia. }
  do 4 (split; [done |]). unfold is_byte in *.
  rewrite (lxor_shiftl_add (Macros.A x)), (lxor_shiftl_add _ (Macros.C x)), lxor_shiftl_add by lia.
  unfold Macros.A, Macros.B, Macros.C, Macros.D. change 255 with (Z.ones 8).
  rewrite !Z.land_ones, !Z.shiftr_div_pow2 by lia.
  change (2 ^ 8) with 256. change (2 ^ 16) with 65536. change (2 ^ 24) with 16777216.
  change (2 ^ 32) with 4294967296 in Hx. clear HA HB HC HD. Z.to_euclidean_division_equations. lia.
Qed.

Lemma crc_bits_word poly m x : 0 <= x < 2 ^ 32 ->
  crc_bits poly (m + 32) x
  = Z.lxor (Z.lxor (Z.lxor (crc_bits poly (m + 32) (Macros.A x)) (crc_bits poly (m + 24) (Macros.B x)))
      (crc_bits poly (m + 16) (Macros.C x))) (crc_bits poly (m + 8) (Macros.D x)).
Proof.
  intros Hx. destruct (word_bytes x Hx) as (_ & _ & _ & _ & E). rewrite E at 1.
  rewrite !crc_bits_lxor.
  replace (m + 32)%nat with ((m + 24) + 8)%nat at 2 by lia.
  replace (m + 32)%nat with ((m + 16) + 16)%nat at 2 by lia.
  replace (m + 32)%nat with ((m + 8) + 24)%nat at 2 by lia.
  by rewrite !crc_bits_shiftl_more.
Qed.

(** A little-endian word is the value of its bytes. *)
Lemma read32le_value b0 b1 b2 b3 post :
  is_byte b0 -> is_byte b1 -> is_byte b2 -> is_byte b3 ->
  unaligned_read32le (b0 :: b1 :: b2 :: b3 :: post) 0 = Some (le_value [b0; b1; b2; b3])
  /\ 0 <= le_value [b0; b1; b2; b3] < 2 ^ 32.
Proof.
  intros H0 H1 H2 H3.
  assert (le_value [b0; b1; b2; b3] = b0 + b1 * 2 ^ 8 + b2 * 2 ^ 16 + b3 * 2 ^ 24) as E.
  { unfold is_byte in *. cbn [le_value].
    rewrite Z.shiftl_0_l, Z.lxor_0_r.
    rewrite (lxor_shiftl_add b2 b3), (lxor_shiftl_add b1), (lxor_shiftl_add b0) by lia.
    change (2 ^ 8) with 256. change (2 ^ 16) with 65536. change (2 ^ 24) with 16777216. lia. }
  split.
  - rewrite E, <- le32_read by done. reflexivity.
  - rewrite E. unfold is_byte in *.
    change (2 ^ 8) with 256. change (2 ^ 16) with 65536. change (2 ^ 24) with 16777216.
    change (2 ^ 32) with 4294967296. lia.
Qed.

Lemma le_value_app bs bs' : le_value (bs ++ bs') = Z.lxor (le_value bs) (Z.shiftl (le_value bs') (8 * Z.of_nat (length bs))).
Proof.
  induction bs as [| b bs IH]; cbn [app le_value].
  - by rewrite Z.shiftl_0_r, Z.lxor_0_l.
  - rewrite IH, Z.shiftl_lxor, Z.lxor_assoc, Z.shiftl_shiftl by lia.
    repeat f_equal. cbn [length]. lia.
Qed.

(** The lookups of one word are the register after all its bytes. *)
Lemma table_word poly n table s x : table_ok poly n table -> (s + 3 < n)%nat -> 0 <= x < 2 ^ 32 ->
  exists t3 t2 t1 t0,
    table_at table (s + 3) (Macros.A x) = Some t3 /\ table_at table (s + 2) (Macros.B x) = Some t2 /\
    table_at table (s + 1) (Macros.C x) = Some t1 /\ table_at table s (Macros.D x) = Some t0 /\
    Z.lxor (Z.lxor (Z.lxor t3 t2) t1) t0 = crc_bits poly (8 * s + 32) x.
Proof.
  intros Ht Hs Hx. destruct (word_bytes x Hx) as (HA & HB & HC & HD & _).
  do 4 eexists. do 4 (split; [apply Ht; [lia | done] |]).
  rewrite (crc_bits_word poly (8 * s) x Hx).
  repeat first [reflexivity | f_equal; try lia].
Qed.

Lemma crc32_slices_feed n c buf : 0 <= c < 2 ^ 32 -> bytes buf -> (8 * n <= length buf)%nat ->
  crc32_slices n c buf = Some (foldl (feed poly32) c (take (8 * n) buf), drop (8 * n) buf).
Proof.
  revert c buf. induction n as [| n IH]; intros c buf Hc Hb Hl; [done |].
  replace (8 * S n)%nat with (8 + 8 * n)%nat in * by lia.
  do 8 (destruct buf as [| ?b buf]; [simpl in Hl; lia |]).
  unfold bytes in *. rewrite !Forall_cons_iff in Hb. destruct Hb as (? & ? & ? & ? & ? & ? & ? & ? & Hb).
  destruct (read32le_value b b0 b1 b2 (b3 :: b4 :: b5 :: b6 :: buf)) as [R1 V1]; [done.. |].
  destruct (read32le_value b3 b4 b5 b6 buf) as [R2 V2]; [done.. |].
  cbn [crc32_slices]. rewrite R1. cbn [mbind option_bind]. set (x := Z.lxor c (le_value [b; b0; b1; b2])).
  assert (0 <= x < 2 ^ 32) by (apply lxor_range; done || lia).
  pose proof (table_word poly32 8 lzma_crc32_table 4 x crc32_table_ok ltac:(lia) ltac:(done)) as Hx.
  cbn [Nat.add] in Hx. destruct Hx as (t7 & t6 & t5 & t4 & -> & -> & -> & -> & Ex). cbn [mbind option_bind]. cbn [drop]. rewrite R2. cbn [mbind option_bind].
  set (y := le_value [b3; b4; b5; b6]) in *.
  pose proof (table_word poly32 8 lzma_crc32_table 0 y crc32_table_ok ltac:(lia) ltac:(done)) as Hy.
  cbn [Nat.add] in Hy. destruct Hy as (t3 & t2 & t1 & t0 & -> & -> & -> & -> & Ey). cbn [mbind option_bind].
  assert (Z.lxor (Z.lxor (Z.lxor (Z.lxor t3 t2) (Z.lxor (Z.lxor (Z.lxor t7 t6) t5) t4)) t1) t0
    = foldl (feed poly32) c [b; b0; b1; b2; b3; b4; b5; b6]) as ->.
  { rewrite Ex, foldl_feed. change [b; b0; b1; b2; b3; b4; b5; b6] with ([b; b0; b1; b2] ++ [b3; b4; b5; b6]).
    rewrite le_value_app, <- Z.lxor_assoc. fold x y.
    rewrite crc_bits_lxor. change (length _ * 8)%nat with (32 + 32)%nat at 2.
    rewrite (crc_bits_shiftl_more poly32 32 32) by done.
    change (8 * 4 + 32)%nat with 64%nat. change (length _ * 8)%nat with 64%nat.
    change (8 * 0 + 32)%nat with 32%nat in Ey. rewrite <- Ey.
    rewrite (Z.lxor_comm (Z.lxor t3 t2)), !Z.lxor_assoc. done. }
  change (drop 0 buf) with buf. rewrite IH; [| | done | cbn [length] in Hl; lia].
  - by rewrite <- foldl_app.
  - apply (foldl_feed_range poly32 32); [lia | by unfold poly32 | done | unfold bytes; cbn [app]; by rewrite !Forall_cons_iff].
Qed.

(** The high half of the register is shifted, the low half goes through the
    tables. *)
Lemma high_half c w : 0 <= c -> 0 <= w < 2 ^ 32 ->
  Z.lxor c w = Z.lxor (u32 (Z.lxor c w)) (Z.shiftl (Macros.S32 c) 32).
Proof.
  intros Hc Hw. unfold Macros.S32.
  assert (Z.shiftr c 32 = Z.shiftr (Z.lxor c w) 32) as ->.
  { rewrite Z.shiftr_lxor, (Z.shiftr_div_pow2 w), Z.div_small by lia. by rewrite Z.lxor_0_r. }
  rewrite lxor_shiftl_add by (lia || apply u32_range). unfold u32, wrap.
  rewrite Z.shiftr_div_pow2 by lia. pose proof (Z.div_mod (Z.lxor c w) (2 ^ 32)). lia.
Qed.

Lemma crc64_slices_feed n c buf : 0 <= c < 2 ^ 64 -> bytes buf -> (4 * n <= length buf)%nat ->
  crc64_slices n c buf = Some (foldl (feed poly64) c (take (4 * n) buf), drop (4 * n) buf).
Proof.
  revert c buf. induction n as [| n IH]; intros c buf Hc Hb Hl; [done |].
  replace (4 * S n)%nat with (4 + 4 * n)%nat in * by lia.
  do 4 (destruct buf as [| ?b buf]; [simpl in Hl; lia |]).
  unfold bytes in *. rewrite !Forall_cons_iff in Hb. destruct Hb as (? & ? & ? & ? & Hb).
  destruct (read32le_value b b0 b1 b2 buf) as [R V]; [done.. |].
  cbn [crc64_slices]. rewrite R. cbn [mbind option_bind]. set (w := le_value [b; b0; b1; b2]) in *.
  set (x := u32 (Z.lxor c w)).
  pose proof (table_word poly64 4 lzma_crc64_table 0 x crc64_table_ok ltac:(lia) (u32_range _)) as Hx.
  cbn [Nat.add] in Hx. destruct Hx as (t3 & t2 & t1 & t0 & -> & -> & -> & -> & Ex). cbn [mbind option_bind].
  assert (Z.lxor (Z.lxor (Z.lxor (Z.lxor t3 t2) (Macros.S32 c)) t1) t0
    = foldl (feed poly64) c [b; b0; b1; b2]) as ->.
  { rewrite foldl_feed. fold w. rewrite (high_half c w) by lia. fold x.
    change (length _ * 8)%nat with (0 + 32)%nat.
    rewrite crc_bits_lxor, (crc_bits_shiftl_more poly64 0 32) by done.
    change (8 * 0 + 32)%nat with (0 + 32)%nat in Ex. rewrite <- Ex.
    change (crc_bits poly64 0 (Macros.S32 c)) with (Macros.S32 c).
    apply Z.bits_inj'. intros k _. rewrite !Z.lxor_spec.
    by destruct (Z.testbit t3 k), (Z.testbit t2 k), (Z.testbit t1 k), (Z.testbit t0 k), (Z.testbit (Macros.S32 c) k). }
  cbn [drop]. change (drop 0 buf) with buf. rewrite IH; [| | done | cbn [length] in Hl; lia].
  - by rewrite <- foldl_app.
  - apply (foldl_feed_range poly64 64); [lia | by unfold poly64 | done | unfold bytes; cbn [app]; by rewrite !Forall_cons_iff].
Qed.

Lemma lnot_ones w c : 0 <= w -> 0 <= c < 2 ^ w -> wrap w (Z.lnot c) = Z.lxor (Z.ones w) c.
Proof.
  intros Hw Hc. unfold wrap. rewrite <- Z.land_ones by done.
  apply Z.bits_inj'. intros k Hk. rewrite Z.land_spec, Z.lnot_spec, Z.lxor_spec by done.
  destruct (Z.ltb_spec k w) as [H | H].
  - rewrite Z.ones_spec_low by lia. by rewrite andb_true_r.
  - rewrite Z.ones_spec_high by lia. rewrite andb_false_r, xorb_false_l.
    rewrite <- (Z.mod_small c (2 ^ w)) by done. by rewrite Z.mod_pow2_bits_high by lia.
Qed.

Lemma ones_range w c : 0 <= w -> 0 <= c < 2 ^ w -> 0 <= Z.lxor (Z.ones w) c < 2 ^ w.
Proof.
  intros Hw Hc. apply lxor_range; [done | | done]. rewrite Z.ones_equiv.
  pose proof (Z.pow_pos_nonneg 2 w). lia.
Qed.

(** The sliced part, with the alignment before it. *)
Lemma fast_part poly w m k (slices : nat -> Z -> list Z -> option (Z * list Z)) table addr buf c :
  8 <= w -> 0 <= poly < 2 ^ w -> (0 < m)%nat -> table_ok poly m table -> 0 <= k ->
  (forall n c buf, 0 <= c < 2 ^ w -> bytes buf -> (Z.to_nat (2 ^ k) * n <= length buf)%nat ->
    slices n c buf = Some (foldl (feed poly) c (take (Z.to_nat (2 ^ k) * n) buf), drop (Z.to_nat (2 ^ k) * n) buf)) ->
  0 <= c < 2 ^ w -> bytes buf ->
  exists pre post,
    ('(c, buf) ←
      (if 2 ^ k <? Z.of_nat (length buf) then
         '(c, buf) ← crc_align table (Z.ones k) addr c buf;
         slices (Z.to_nat (Z.of_nat (length buf) / 2 ^ k)) c buf
       else Some (c, buf));
     crc_tail table c buf) = Some (foldl (feed poly) c (pre ++ post)) /\ buf = pre ++ post.
Proof.
  intros Hw Hp Hm Ht Hk Hs Hc Hb. destruct (Z.ltb_spec (2 ^ k) (Z.of_nat (length buf))) as [Hl | Hl].
  - destruct (crc_align_feed poly w m table Hw Hp Hm Ht k addr buf c Hc Hb Hk) as (p1 & p2 & -> & ->); [lia |].
    cbn [mbind option_bind]. apply Forall_app in Hb as [Hb1 Hb2].
    pose proof (foldl_feed_range poly w Hw Hp p1 c Hc Hb1) as Hc1.
    assert (0 < 2 ^ k) by (apply Z.pow_pos_nonneg; lia).
    rewrite Hs; [| done | done |].
    2: { pose proof (Z.mul_div_le (Z.of_nat (length p2)) (2 ^ k)).
         pose proof (Z.div_pos (Z.of_nat (length p2)) (2 ^ k)). nia. }
    set (n := (Z.to_nat (2 ^ k) * _)%nat). cbn [mbind option_bind].
    rewrite <- foldl_app. exists (p1 ++ take n p2), (drop n p2).
    rewrite <- app_assoc, take_drop. split; [| done].
    rewrite (crc_tail_feed poly w m table); try done.
    + by rewrite <- foldl_app, <- app_assoc, take_drop.
    + rewrite foldl_app. apply foldl_feed_range; try done. by apply Forall_take.
    + by apply Forall_drop.
  - cbn [mbind option_bind]. exists buf, []. rewrite app_nil_r. split; [| done].
    by apply (crc_tail_feed poly w m).
Qed.

(** ** Properties *)
Lemma small_reference poly w crc buf :
  8 <= w -> 0 <= poly < 2 ^ w -> bytes buf -> 0 <= crc < 2 ^ w ->
  (crc ← crc_tail [crc_row poly None] (wrap w (Z.lnot crc)) buf; Some (wrap w (Z.lnot crc)))
  = Some (crc_reference poly w buf crc).
Proof.
  intros Hw Hp Hb Hc. rewrite lnot_ones by lia.
  pose proof (ones_range w crc ltac:(lia) Hc) as Hc'.
  rewrite (crc_tail_feed poly w 1) by (done || lia || apply (generated_ok poly 1)).
  cbn [mbind option_bind]. rewrite lnot_ones; [done | lia |]. by apply foldl_feed_range.
Qed.

Lemma crc_reference_range poly w buf crc : 8 <= w -> 0 <= poly < 2 ^ w -> bytes buf ->
  0 <= crc < 2 ^ w -> 0 <= crc_reference poly w buf crc < 2 ^ w.
Proof.
  intros. apply ones_range; [lia |]. apply foldl_feed_range; try done. apply ones_range; [lia | done].
Qed.

(** The reference goes on where it stopped. *)
Lemma crc_reference_app poly w a b crc :
  crc_reference poly w (a ++ b) crc = crc_reference poly w b (crc_reference poly w a crc).
Proof.
  unfold crc_reference. rewrite foldl_app. f_equal. f_equal.
  by rewrite <- Z.lxor_assoc, Z.lxor_nilpotent, Z.lxor_0_l.
Qed.

(** The value of one call, for the clients. *)
Lemma crc32_value addr buf crc : bytes buf -> 0 <= crc < 2 ^ 32 ->
  lzma_crc32 addr buf crc = Some (crc_reference poly32 32 buf crc).
Proof.
  intros Hb Hc. assert (0 <= poly32 < 2 ^ 32) as Hp by by unfold poly32.
  unfold lzma_crc32, u32. rewrite lnot_ones by lia.
  pose proof (ones_range 32 crc ltac:(lia) Hc) as Hc'.
  destruct (fast_part poly32 32 8 3 crc32_slices lzma_crc32_table addr buf (Z.lxor (Z.ones 32) crc))
    as (pre & post & E & ->); try (done || lia || apply crc32_table_ok).
  { apply crc32_slices_feed. }
  change (2 ^ 3) with 8 in E. change (Z.ones 3) with 7 in E.
  destruct (if 8 <? _ then _ else _) as [[c rest] |]; [| done]. cbn [mbind option_bind] in E |- *.
  rewrite E. cbn [mbind option_bind]. rewrite lnot_ones; [done | lia |]. by apply foldl_feed_range.
Qed.

Lemma crc64_value addr buf crc : bytes buf -> 0 <= crc < 2 ^ 64 ->
  lzma_crc64 addr buf crc = Some (crc_reference poly64 64 buf crc).
Proof.
  intros Hb Hc. assert (0 <= poly64 < 2 ^ 64) as Hp by by unfold poly64.
  unfold lzma_crc64, u64. rewrite lnot_ones by lia.
  pose proof (ones_range 64 crc ltac:(lia) Hc) as Hc'.
  destruct (fast_part poly64 64 4 2 crc64_slices lzma_crc64_table addr buf (Z.lxor (Z.ones 64) crc))
    as (pre & post & E & ->); try (done || lia || apply crc64_table_ok).
  { apply crc64_slices_feed. }
  change (2 ^ 2) with 4 in E. change (Z.ones 2) with 3 in E.
  destruct (if 4 <? _ then _ else _) as [[c rest] |]; [| done]. cbn [mbind option_bind] in E |- *.
  rewrite E. cbn [mbind option_bind]. rewrite lnot_ones; [done | lia |]. by apply foldl_feed_range.
Qed.

(** C16: the CRC32 of the library, with its checked-in tables and eight bytes at
    a time after aligning the pointer, is the bit-serial CRC32 at every
    alignment, and so is the size-optimised version; neither reads outside the
    buffer or the tables. *)
Theorem crc32_equivalence addr buf crc :
  bytes buf -> 0 <= crc < 2 ^ 32 ->
  lzma_crc32 addr buf crc = Some (crc_reference poly32 32 buf crc) /\
  crc32_small buf crc = Some (crc_reference poly32 32 buf crc).
Proof.
  intros Hb Hc. split; [by apply crc32_value |]. apply small_reference; [lia | by unfold poly32 | done | done].
Qed.

(** C17: the same for CRC64, sliced by four. *)
Theorem crc64_equivalence addr buf crc :
  bytes buf -> 0 <= crc < 2 ^ 64 ->
  lzma_crc64 addr buf crc = Some (crc_reference poly64 64 buf crc) /\
  crc64_small buf crc = Some (crc_reference poly64 64 buf crc).
Proof.
  intros Hb Hc. split; [by apply crc64_value |]. apply small_reference; [lia | by unfold poly64 | done | done].
Qed.

(** A checksum may be computed in pieces, wherever the pieces lie: the value
    of one call is the start value of the next. *)
Theorem crc_incremental addr addr' a b c d :
  bytes a -> bytes b -> 0 <= c < 2 ^ 32 -> 0 <= d < 2 ^ 64 ->
  lzma_crc32 addr (a ++ b) c = (crc ← lzma_crc32 addr a c; lzma_crc32 addr' b crc) /\
  lzma_crc64 addr (a ++ b) d = (crc ← lzma_crc64 addr a d; lzma_crc64 addr' b crc).
Proof.
  intros Ha Hb Hc Hd. assert (bytes (a ++ b)) by by apply Forall_app.
  rewrite !crc32_value, !crc64_value by done. cbn [mbind option_bind].
  rewrite crc32_value by (done || (apply crc_reference_range; [lia | by unfold poly32 | done | done])).
  rewrite crc64_value by (done || (apply crc_reference_range; [lia | by unfold poly64 | done | done])).
  by rewrite <- !crc_reference_app.
Qed.

(** ** Witnesses *)
Lemma check_string_bytes : bytes check_string.
Proof. repeat (apply List.Forall_cons; [unfold is_byte; lia |]). constructor. Qed.

Lemma crc32_equivalence_witness :
  lzma_crc32 4099 check_string 0 = Some (crc_reference poly32 32 check_string 0) /\
  crc32_small check_string 0 = Some (crc_reference poly32 32 check_string 0).
Proof. apply (crc32_equivalence 4099 check_string 0); [apply check_string_bytes | lia]. Defined.

Lemma crc64_equivalence_witness :
  lzma_crc64 4099 check_string 0 = Some (crc_reference poly64 64 check_string 0) /\
  crc64_small check_string 0 = Some (crc_reference poly64 64 check_string 0).
Proof. apply (crc64_equivalence 4099 check_string 0); [apply check_string_bytes | lia]. Defined.

Lemma crc_incremental_witness :
  lzma_crc32 8 (check_string ++ check_string) 0
  = (crc ← lzma_crc32 8 check_string 0; lzma_crc32 17 check_string crc) /\
  lzma_crc64 8 (check_string ++ check_string) 0
  = (crc ← lzma_crc64 8 check_string 0; lzma_crc64 17 check_string crc).
Proof. apply (crc_incremental 8 17 check_string check_string 0 0); try apply check_string_bytes; lia. Defined.
