(* ===== verification/StreamFlags.v ===== *)
(** * liblzma: Stream Header and Stream Footer

    common/stream_flags_encoder.c, common/stream_flags_decoder.c and
    common/stream_flags_common.c: the first and the last twelve bytes of an .xz
    stream, with their CRC32.

    A buffer is the list of its bytes; [addr] is the address of its first byte,
    which the CRC code looks at. A call returns the code with the buffer or the
    options it leaves; [None] is an access outside the buffer. *)

From Stdlib Require Import ZArith Lia.
From stdpp Require Import base list option.
From S2P Require Import Prelude LzmaBase Vli Crc.
Local Open Scope Z_scope.

Definition LZMA_STREAM_HEADER_SIZE : Z := 12.
Definition LZMA_STREAM_FLAGS_SIZE : Z := 2.
Definition LZMA_CHECK_ID_MAX : Z := 15.
Definition LZMA_BACKWARD_SIZE_MIN : Z := 4.
Definition LZMA_BACKWARD_SIZE_MAX : Z := Z.shiftl 1 34.

Definition lzma_header_magic : list Z := [0xFD; 0x37; 0x7A; 0x58; 0x5A; 0x00].
Definition lzma_footer_magic : list Z := [0x59; 0x5A].

Record lzma_stream_flags := MkFlags { version : Z; backward_size : Z; check : Z }.

Definition is_backward_size_valid (o : lzma_stream_flags) : bool :=
  (LZMA_BACKWARD_SIZE_MIN <=? backward_size o) && (backward_size o <=? LZMA_BACKWARD_SIZE_MAX)
  && (Z.land (backward_size o) 3 =? 0).

(** ** stream_flags_common.c *)
Definition lzma_stream_flags_compare (a b : lzma_stream_flags) : lzma_ret :=
  if negb (version a =? 0) || negb (version b =? 0) then LZMA_OPTIONS_ERROR
  else if (LZMA_CHECK_ID_MAX <? u32 (check a)) || (LZMA_CHECK_ID_MAX <? u32 (check b)) then LZMA_PROG_ERROR
  else if negb (check a =? check b) then LZMA_DATA_ERROR
  else if negb (backward_size a =? LZMA_VLI_UNKNOWN) && negb (backward_size b =? LZMA_VLI_UNKNOWN) then
    if negb (is_backward_size_valid a) || negb (is_backward_size_valid b) then LZMA_PROG_ERROR
    else if negb (backward_size a =? backward_size b) then LZMA_DATA_ERROR
    else LZMA_OK
  else LZMA_OK.

(** ** stream_flags_encoder.c *)

(** [lzma_crc32(out + i, n, 0)]. *)
Definition crc32_at (addr : Z) (buf : list Z) (i : Z) (n : nat) : option Z :=
  bs ← rd_bytes buf i n; lzma_crc32 (addr + i) bs 0.

(** [true] is the error. *)
Definition stream_flags_encode (o : lzma_stream_flags) (out : list Z) (i : Z) : option (bool * list Z) :=
  if LZMA_CHECK_ID_MAX <? u32 (check o) then Some (true, out)
  else
    out ← wr out i 0x00;
    out ← wr out (i + 1) (u8 (check o));
    Some (false, out).

Definition lzma_stream_header_encode (o : lzma_stream_flags) (addr : Z) (out : list Z) : option (lzma_ret * list Z) :=
  if negb (version o =? 0) then Some (LZMA_OPTIONS_ERROR, out)
  else
    out ← wr_bytes out 0 lzma_header_magic;
    '(err, out) ← stream_flags_encode o out 6;
    if (err : bool) then Some (LZMA_PROG_ERROR, out)
    else
      crc ← crc32_at addr out 6 2;
      out ← unaligned_write32le out (6 + LZMA_STREAM_FLAGS_SIZE) crc;
      Some (LZMA_OK, out).

Definition lzma_stream_footer_encode (o : lzma_stream_flags) (addr : Z) (out : list Z) : option (lzma_ret * list Z) :=
  if negb (version o =? 0) then Some (LZMA_OPTIONS_ERROR, out)
  else if negb (is_backward_size_valid o) then Some (LZMA_PROG_ERROR, out)
  else
    out ← unaligned_write32le out 4 (u32 (backward_size o / 4 - 1));
    '(err, out) ← stream_flags_encode o out (2 * 4);
    if (err : bool) then Some (LZMA_PROG_ERROR, out)
    else
      crc ← crc32_at addr out 4 6;
      out ← unaligned_write32le out 0 crc;
      out ← wr_bytes out (2 * 4 + LZMA_STREAM_FLAGS_SIZE) lzma_footer_magic;
      Some (LZMA_OK, out).

(** ** stream_flags_decoder.c *)
Definition stream_flags_decode (o : lzma_stream_flags) (inp : list Z) (i : Z) : option (bool * lzma_stream_flags) :=
  b0 ← rd inp i;
  if negb (b0 =? 0x00) then Some (true, o)
  else
    b1 ← rd inp (i + 1);
    if negb (Z.land b1 0xF0 =? 0) then Some (true, o)
    else Some (false, MkFlags 0 (backward_size o) (Z.land b1 0x0F)).

Definition lzma_stream_header_decode (o : lzma_stream_flags) (addr : Z) (inp : list Z)
    : option (lzma_ret * lzma_stream_flags) :=
  magic ← rd_bytes inp 0 6;
  if negb (bool_decide (magic = lzma_header_magic)) then Some (LZMA_FORMAT_ERROR, o)
  else
    crc ← crc32_at addr inp 6 2;
    stored ← unaligned_read32le inp (6 + LZMA_STREAM_FLAGS_SIZE);
    if negb (crc =? stored) then Some (LZMA_DATA_ERROR, o)
    else
      '(err, o) ← stream_flags_decode o inp 6;
      if (err : bool) then Some (LZMA_OPTIONS_ERROR, o)
      else Some (LZMA_OK, MkFlags (version o) LZMA_VLI_UNKNOWN (check o)).

Definition lzma_stream_footer_decode (o : lzma_stream_flags) (addr : Z) (inp : list Z)
    : option (lzma_ret * lzma_stream_flags) :=
  magic ← rd_bytes inp (4 * 2 + LZMA_STREAM_FLAGS_SIZE) 2;
  if negb (bool_decide (magic = lzma_footer_magic)) then Some (LZMA_FORMAT_ERROR, o)
  else
    crc ← crc32_at addr inp 4 6;
    stored ← unaligned_read32le inp 0;
    if negb (crc =? stored) then Some (LZMA_DATA_ERROR, o)
    else
      '(err, o) ← stream_flags_decode o inp (4 * 2);
      if (err : bool) then Some (LZMA_OPTIONS_ERROR, o)
      else
        size ← unaligned_read32le inp 4;
        Some (LZMA_OK, MkFlags (version o) (u64 ((size + 1) * 4)) (check o)).

(** The header of a stream with CRC32 checks. *)
Example header_crc32 :
  lzma_stream_header_encode (MkFlags 0 0 1) 0 (replicate 12 0)
  = Some (LZMA_OK, [0xFD; 0x37; 0x7A; 0x58; 0x5A; 0x00; 0x00; 0x01; 0x69; 0x22; 0xDE; 0x36]).
Proof. vm_compute. reflexivity. Qed.

Example footer_decode :
  lzma_stream_footer_decode (MkFlags 7 7 7) 0 [0x90; 0x42; 0x99; 0x0D; 1; 0; 0; 0; 0; 1; 0x59; 0x5A]
  = Some (LZMA_OK, MkFlags 0 8 1).
Proof. vm_compute. reflexivity. Qed.

(** ** The fields as lists of bytes *)
Definition crc_of (bs : list Z) : Z := crc_reference poly32 32 bs 0.

Definition header_bytes (c : Z) : list Z := lzma_header_magic ++ [0; c] ++ le32 (crc_of [0; c]).

Definition footer_bytes (size c : Z) : list Z :=
  let fields := le32 (size / 4 - 1) ++ [0; c] in
  le32 (crc_of fields) ++ fields ++ lzma_footer_magic.

Definition check_ok (c : Z) : Prop := 0 <= c <= LZMA_CHECK_ID_MAX.

Lemma crc_of_range bs : bytes bs -> 0 <= crc_of bs < 2 ^ 32.
Proof. intros Hb. unfold crc_of. apply crc_reference_range; [lia | by unfold poly32 | done | lia]. Qed.

Lemma crc32_at_value addr pre bs post i n : i = Z.of_nat (length pre) -> n = length bs -> bytes bs ->
  crc32_at addr (pre ++ bs ++ post) i n = Some (crc_of bs).
Proof.
  intros Hi Hn Hb. unfold crc32_at, crc_of. rewrite (rd_bytes_app _ bs) by done. cbn [mbind option_bind].
  by apply crc32_value.
Qed.

#[local] Strategy 1000 [crc_of crc_reference lzma_crc32].

Lemma flags_bytes c : check_ok c -> bytes [0; c].
Proof. unfold check_ok, LZMA_CHECK_ID_MAX. intros. repeat (apply List.Forall_cons; [unfold is_byte; lia |]). constructor. Qed.

Lemma stream_flags_encode_value o pre b0 b1 post i : i = Z.of_nat (length pre) -> check_ok (check o) ->
  stream_flags_encode o (pre ++ [b0; b1] ++ post) i = Some (false, pre ++ [0; check o] ++ post).
Proof.
  unfold check_ok, LZMA_CHECK_ID_MAX. intros Hi Hc. unfold stream_flags_encode, LZMA_CHECK_ID_MAX.
  rewrite u32_small, (proj2 (Z.ltb_ge _ _)), u8_small by lia.
  rewrite (wr_offset _ _ _ _ 0) by (simpl; lia). cbn [mbind option_bind].
  rewrite (wr_offset _ _ _ _ 1) by (simpl; lia). done.
Qed.

(** Twelve bytes by name, where an access at a literal index is one in the
    middle of the buffer. *)
Lemma split_12 (l : list Z) : length l = 12%nat ->
  exists a b c, l = a ++ b ++ c /\ length a = 6%nat /\ length b = 2%nat /\ length c = 4%nat.
Proof.
  intros H. exists (take 6 l), (take 2 (drop 6 l)), (drop 2 (drop 6 l)).
  rewrite !take_drop, !length_take, !length_drop. split; [done |]. lia.
Qed.

Lemma header_encode_value o addr old post :
  version o = 0 -> check_ok (check o) -> length old = 12%nat ->
  lzma_stream_header_encode o addr (old ++ post) = Some (LZMA_OK, header_bytes (check o) ++ post).
Proof.
  intros Hv Hc Hl. destruct (split_12 old Hl) as (a & b & c & -> & Ha & Hb & Hcl).
  destruct b as [| b0 [| b1 [|]]]; try done.
  unfold lzma_stream_header_encode. rewrite Hv. cbn [negb Z.eqb]. rewrite <- !app_assoc.
  rewrite (wr_bytes_head a) by done. cbn [mbind option_bind].
  rewrite stream_flags_encode_value by done. cbn [mbind option_bind].
  rewrite (crc32_at_value _ _ [0; check o]) by (done || by apply flags_bytes). cbn [mbind option_bind].
  rewrite !app_assoc, <- (app_assoc _ c). rewrite write32le_app by done.
  cbn [mbind option_bind]. unfold header_bytes. by rewrite <- !app_assoc.
Qed.

Lemma backward_size_range o : is_backward_size_valid o = true ->
  0 <= backward_size o / 4 - 1 < 2 ^ 32 /\ (backward_size o / 4 - 1 + 1) * 4 = backward_size o.
Proof.
  unfold is_backward_size_valid, LZMA_BACKWARD_SIZE_MIN, LZMA_BACKWARD_SIZE_MAX.
  intros [[H1%Z.leb_le H2%Z.leb_le]%andb_prop H3%Z.eqb_eq]%andb_prop.
  change (Z.shiftl 1 34) with (4 * 2 ^ 32) in H2. change 3 with (Z.ones 2) in H3.
  rewrite Z.land_ones in H3 by lia. change (2 ^ 2) with 4 in H3.
  pose proof (Z.div_mod (backward_size o) 4). change (2 ^ 32) with 4294967296 in *. lia.
Qed.

Lemma footer_fields_bytes o : is_backward_size_valid o = true -> check_ok (check o) ->
  bytes (le32 (backward_size o / 4 - 1) ++ [0; check o]).
Proof. intros Hs Hc. apply Forall_app. split; [apply le32_bytes | by apply flags_bytes]. Qed.

Lemma footer_encode_value o addr old post :
  version o = 0 -> check_ok (check o) -> is_backward_size_valid o = true -> length old = 12%nat ->
  lzma_stream_footer_encode o addr (old ++ post)
  = Some (LZMA_OK, footer_bytes (backward_size o) (check o) ++ post).
Proof.
  intros Hv Hc Hs Hl. destruct (backward_size_range o Hs) as [Hr _].
  do 12 (destruct old as [| ? old]; [done |]). destruct old; [| done].
  unfold lzma_stream_footer_encode. rewrite Hv, Hs. cbn [negb Z.eqb].
  rewrite (u32_small _ Hr). set (x := backward_size o / 4 - 1) in *.
  match goal with |- context [unaligned_write32le ([?a; ?b; ?c; ?d; ?e; ?f; ?g; ?h; ?i; ?j; ?k; ?l] ++ post)] =>
    change ([a; b; c; d; e; f; g; h; i; j; k; l] ++ post)
      with ([a; b; c; d] ++ [e; f; g; h] ++ [i; j] ++ [k; l] ++ post) end.
  rewrite write32le_app by done. cbn [mbind option_bind].
  rewrite (app_assoc _ (le32 x)), stream_flags_encode_value by done. cbn [mbind option_bind].
  rewrite <- (app_assoc _ (le32 x)).
  rewrite (app_assoc (le32 x)), (crc32_at_value _ _ (le32 x ++ [0; check o]))
    by (done || by apply footer_fields_bytes). cbn [mbind option_bind].
  rewrite write32le_head by done. cbn [mbind option_bind].
  rewrite (app_assoc (le32 (crc_of _))), wr_bytes_app by done. cbn [mbind option_bind].
  unfold footer_bytes. fold x. by rewrite <- !app_assoc.
Qed.

(** ** Decoding *)

(** One step of a computation that returned, by rewriting: conversion would
    start to compute the CRC. *)
Lemma if_negb {A} (b : bool) (x y : A) : (if negb b then x else y) = if b then y else x.
Proof. by destruct b. Qed.

Lemma stream_flags_decode_value o pre c post i : i = Z.of_nat (length pre) -> check_ok c ->
  stream_flags_decode o (pre ++ [0; c] ++ post) i = Some (false, MkFlags 0 (backward_size o) c).
Proof.
  unfold check_ok, LZMA_CHECK_ID_MAX. intros Hi Hc. unfold stream_flags_decode.
  rewrite (rd_offset _ _ _ i 0 0) by (reflexivity || lia). cbn [mbind option_bind negb Z.eqb].
  rewrite (rd_offset _ _ _ (i + 1) 1 c) by (reflexivity || lia). cbn [mbind option_bind].
  assert (forall n : nat, (n < 16)%nat -> Z.land (Z.of_nat n) 0xF0 = 0 /\ Z.land (Z.of_nat n) 0x0F = Z.of_nat n) as H.
  { intros n Hn. do 16 (destruct n as [| n]; [done |]). lia. }
  destruct (H (Z.to_nat c)) as [H1 H2]; [lia |]. rewrite Z2Nat.id in H1, H2 by lia. by rewrite H1, H2.
Qed.

(** What the decoder of the two bytes accepts. *)
Lemma stream_flags_decode_inv o b0 b1 pre post i o' : i = Z.of_nat (length pre) -> is_byte b1 ->
  stream_flags_decode o (pre ++ [b0; b1] ++ post) i = Some (false, o') ->
  b0 = 0 /\ check_ok b1 /\ o' = MkFlags 0 (backward_size o) b1.
Proof.
  intros Hi Hb. unfold stream_flags_decode.
  rewrite (rd_offset _ _ _ i 0 b0) by (reflexivity || lia). cbn [mbind option_bind].
  destruct (Z.eqb_spec b0 0) as [-> |]; [| done]. cbn [negb].
  rewrite (rd_offset _ _ _ (i + 1) 1 b1) by (reflexivity || lia). cbn [mbind option_bind].
  destruct (Z.eqb_spec (Z.land b1 0xF0) 0) as [E |]; [| done]. cbn [negb].
  change 0x0F with (Z.ones 4). rewrite Z.land_ones by lia. intros [= <-].
  assert (b1 < 16).
  { assert (forall n : nat, (n < 256)%nat -> Z.land (Z.of_nat n) 0xF0 = 0 -> (n < 16)%nat) as H.
    { intros n Hn. do 16 (destruct n as [| n]; [lia |]). do 240 (destruct n as [| n]; [done |]). lia. }
    unfold is_byte in Hb. specialize (H (Z.to_nat b1)). rewrite Z2Nat.id in H by lia. lia. }
  unfold is_byte in Hb. unfold check_ok, LZMA_CHECK_ID_MAX. rewrite Z.mod_small by lia. split; [done |]. split; [lia | done].
Qed.

Lemma le32_inj b0 b1 b2 b3 x :
  is_byte b0 -> is_byte b1 -> is_byte b2 -> is_byte b3 -> 0 <= x < 2 ^ 32 ->
  b0 + b1 * 2 ^ 8 + b2 * 2 ^ 16 + b3 * 2 ^ 24 = x -> [b0; b1; b2; b3] = le32 x.
Proof.
  unfold is_byte. intros. unfold le32, u8, wrap. rewrite !Z.shiftr_div_pow2 by lia.
  change (2 ^ 8) with 256 in *. change (2 ^ 16) with 65536 in *. change (2 ^ 24) with 16777216 in *.
  change (2 ^ 32) with 4294967296 in *.
  assert (x mod 256 = b0 /\ (x / 256) mod 256 = b1 /\ (x / 65536) mod 256 = b2 /\ (x / 16777216) mod 256 = b3)
    as (-> & -> & -> & ->); [| done].
  Z.to_euclidean_division_equations. lia.
Qed.

Lemma read32le_at pre b0 b1 b2 b3 post i : i = Z.of_nat (length pre) ->
  is_byte b0 -> is_byte b1 -> is_byte b2 -> is_byte b3 ->
  exists x, unaligned_read32le (pre ++ [b0; b1; b2; b3] ++ post) i = Some x /\ [b0; b1; b2; b3] = le32 x /\ 0 <= x < 2 ^ 32.
Proof.
  intros Hi H0 H1 H2 H3. exists (b0 + b1 * 2 ^ 8 + b2 * 2 ^ 16 + b3 * 2 ^ 24).
  assert (0 <= b0 + b1 * 2 ^ 8 + b2 * 2 ^ 16 + b3 * 2 ^ 24 < 2 ^ 32) as Hx.
  { unfold is_byte in *. change (2 ^ 8) with 256. change (2 ^ 16) with 65536. change (2 ^ 24) with 16777216.
    change (2 ^ 32) with 4294967296. lia. }
  assert ([b0; b1; b2; b3] = le32 (b0 + b1 * 2 ^ 8 + b2 * 2 ^ 16 + b3 * 2 ^ 24)) as E by by apply le32_inj.
  split; [| by split]. rewrite E. by rewrite read32le_app.
Qed.

(** Twelve given bytes. *)
Lemma bytes_12 inp : bytes inp -> (12 <= length inp)%nat ->
  exists b0 b1 b2 b3 b4 b5 b6 b7 b8 b9 b10 b11 post,
    inp = [b0; b1; b2; b3; b4; b5; b6; b7; b8; b9; b10; b11] ++ post /\
    (is_byte b0 /\ is_byte b1 /\ is_byte b2 /\ is_byte b3) /\ (is_byte b4 /\ is_byte b5 /\ is_byte b6 /\ is_byte b7) /\
    is_byte b8 /\ is_byte b9 /\ is_byte b10 /\ is_byte b11.
Proof.
  intros Hb Hl. do 12 (destruct inp as [| ? inp]; [simpl in Hl; lia |]).
  unfold bytes in Hb. rewrite !list.Forall_cons in Hb.
  destruct Hb as (? & ? & ? & ? & ? & ? & ? & ? & ? & ? & ? & ? & _).
  do 13 eexists. split; [reflexivity |]. done.
Qed.

Lemma header_decode_value o addr c post : check_ok c ->
  lzma_stream_header_decode o addr (header_bytes c ++ post) = Some (LZMA_OK, MkFlags 0 LZMA_VLI_UNKNOWN c).
Proof.
  intros Hc. unfold lzma_stream_header_decode, header_bytes. rewrite <- !app_assoc.
  rewrite rd_bytes_head by done. rewrite bind_Some, if_negb, bool_decide_eq_true_2 by done.
  rewrite (crc32_at_value _ _ [0; c]) by (done || by apply flags_bytes). rewrite bind_Some.
  pose proof (crc_of_range _ (flags_bytes c Hc)).
  rewrite (app_assoc lzma_header_magic), read32le_app by done. rewrite bind_Some, if_negb, Z.eqb_refl. rewrite <- app_assoc. by rewrite stream_flags_decode_value.
Qed.

Lemma take_12_fields (a b c post : list Z) : length a = 6%nat -> length b = 2%nat -> length c = 4%nat ->
  take 12 (a ++ b ++ c ++ post) = a ++ b ++ c.
Proof. intros Ha Hb Hc. rewrite !app_assoc. apply take_app_length'. rewrite !length_app. lia. Qed.

Lemma header_decode_inv o addr inp o' : bytes inp -> (12 <= length inp)%nat ->
  lzma_stream_header_decode o addr inp = Some (LZMA_OK, o') ->
  exists c, check_ok c /\ o' = MkFlags 0 LZMA_VLI_UNKNOWN c /\ take 12 inp = header_bytes c.
Proof.
  intros Hb Hl.
  destruct (bytes_12 inp Hb Hl) as (b0 & b1 & b2 & b3 & b4 & b5 & b6 & b7 & b8 & b9 & b10 & b11 & post & E & _ & H4 & H8 & H9 & H10 & H11).
  destruct H4 as (_ & _ & H6 & H7).
  assert (inp = [b0; b1; b2; b3; b4; b5] ++ [b6; b7] ++ [b8; b9; b10; b11] ++ post) as -> by exact E. clear E.
  assert (bytes [b6; b7]) as Hf by (repeat (apply List.Forall_cons; [done |]); constructor).
  unfold lzma_stream_header_decode.
  rewrite rd_bytes_head by done. rewrite bind_Some, if_negb.
  destruct (bool_decide_reflect ([b0; b1; b2; b3; b4; b5] = lzma_header_magic)) as [-> |]; [| done].
  rewrite (crc32_at_value _ _ [b6; b7]) by done. rewrite bind_Some.
  rewrite (app_assoc lzma_header_magic).
  destruct (read32le_at (lzma_header_magic ++ [b6; b7]) b8 b9 b10 b11 post (6 + LZMA_STREAM_FLAGS_SIZE))
    as (x & -> & -> & Hx); try done. rewrite bind_Some, if_negb.
  destruct (Z.eqb_spec (crc_of [b6; b7]) x) as [<- |]; [| done]. rewrite <- app_assoc.
  destruct (stream_flags_decode o _ 6) as [[[|] o1] |] eqn:Hd; [done | | done]. rewrite bind_Some.
  apply stream_flags_decode_inv in Hd as (-> & Hc & ->); [| done | done].
  intros [= <-]. exists b7. split; [done |]. split; [done |].
  unfold header_bytes. apply take_12_fields; reflexivity.
Qed.

Lemma footer_decode_value o addr size c post : check_ok c ->
  0 <= size / 4 - 1 < 2 ^ 32 -> (size / 4 - 1 + 1) * 4 = size ->
  lzma_stream_footer_decode o addr (footer_bytes size c ++ post) = Some (LZMA_OK, MkFlags 0 size c).
Proof.
  intros Hc Hr Hs. unfold lzma_stream_footer_decode, footer_bytes. set (x := size / 4 - 1) in *. rewrite <- !app_assoc.
  assert (bytes (le32 x ++ [0; c])) as Hf by (apply Forall_app; split; [apply le32_bytes | by apply flags_bytes]).
  pose proof (crc_of_range _ Hf) as Hcrc. set (v := crc_of (le32 x ++ [0; c])) in *.
  rewrite (app_assoc (le32 v)), (app_assoc (le32 v ++ le32 x)), (rd_bytes_app _ lzma_footer_magic) by done.
  rewrite bind_Some, if_negb, bool_decide_eq_true_2 by done. rewrite <- !app_assoc.
  rewrite (app_assoc (le32 x)), (crc32_at_value _ _ (le32 x ++ [0; c]) (lzma_footer_magic ++ post) 4 6) by done.
  rewrite bind_Some, <- (app_assoc (le32 x)). rewrite read32le_head by done.
  rewrite bind_Some, if_negb. fold v. rewrite Z.eqb_refl.
  rewrite (app_assoc (le32 v)), stream_flags_decode_value by done. rewrite bind_Some, <- (app_assoc (le32 v)).
  rewrite read32le_app by done. rewrite bind_Some, u64_small, Hs; [done |].
  change (2 ^ 64) with (2 ^ 32 * 2 ^ 32). change (2 ^ 32) with 4294967296 in *. lia.
Qed.

Lemma compare_same o b : version o = 0 -> check_ok (check o) -> is_backward_size_valid o = true ->
  lzma_stream_flags_compare (MkFlags 0 b (check o)) o =
  if b =? LZMA_VLI_UNKNOWN then LZMA_OK
  else if negb (is_backward_size_valid (MkFlags 0 b (check o))) then LZMA_PROG_ERROR
  else if b =? backward_size o then LZMA_OK else LZMA_DATA_ERROR.
Proof.
  intros Hv Hc Hs. unfold lzma_stream_flags_compare. rewrite Hv, Hs, orb_false_r. cbn [version check backward_size].
  unfold check_ok in Hc. rewrite u32_small by (unfold LZMA_CHECK_ID_MAX in Hc; lia).
  rewrite (proj2 (Z.ltb_ge _ _)) by lia. rewrite Z.eqb_refl. cbn [negb Z.eqb orb].
  destruct (backward_size_range o Hs) as [Hr1 Hr2].
  assert (backward_size o =? LZMA_VLI_UNKNOWN = false) as -> by (apply Z.eqb_neq; unfold LZMA_VLI_UNKNOWN; change (2 ^ 32) with 4294967296 in *; lia).
  rewrite Z.eqb_refl, orb_false_r. destruct (b =? LZMA_VLI_UNKNOWN); [done |].
  destruct (is_backward_size_valid _); [| done]. simpl. by destruct (b =? backward_size o).
Qed.

(** C25: What the encoders make of valid options, in buffers of at least twelve
    bytes wherever they lie, the decoders take back, whatever their options
    held before: the header gives the version and the check with the size
    unknown, the footer the options themselves, and the two compare equal.
    And the header decoder accepts nothing else: the twelve bytes of a header
    it accepts are the ones the encoder writes for the options it gives. *)
Theorem stream_flags_roundtrip o addr1 addr2 old1 old2 post :
  version o = 0 -> check_ok (check o) -> is_backward_size_valid o = true ->
  length old1 = 12%nat -> length old2 = 12%nat ->
  exists hdr ftr,
    lzma_stream_header_encode o addr1 (old1 ++ post) = Some (LZMA_OK, hdr ++ post) /\
    lzma_stream_footer_encode o addr2 (old2 ++ post) = Some (LZMA_OK, ftr ++ post) /\
    length hdr = 12%nat /\ length ftr = 12%nat /\
    (forall o1 o2 addr3 addr4, exists h,
       lzma_stream_header_decode o1 addr3 (hdr ++ post) = Some (LZMA_OK, h) /\
       h = MkFlags 0 LZMA_VLI_UNKNOWN (check o) /\
       lzma_stream_footer_decode o2 addr4 (ftr ++ post) = Some (LZMA_OK, o) /\
       lzma_stream_flags_compare h o = LZMA_OK) /\
    (forall o1 h addr3 inp, bytes inp -> (12 <= length inp)%nat ->
       lzma_stream_header_decode o1 addr3 inp = Some (LZMA_OK, h) ->
       lzma_stream_header_encode h addr1 (old1 ++ post) = Some (LZMA_OK, take 12 inp ++ post)).
Proof.
  intros Hv Hc Hs H1 H2. exists (header_bytes (check o)), (footer_bytes (backward_size o) (check o)).
  split; [by apply header_encode_value |]. split; [by apply footer_encode_value |]. split; [done |]. split; [done |].
  destruct (backward_size_range o Hs) as [Hr1 Hr2]. split.
  - intros o1 o2 a3 a4. eexists. split; [by apply header_decode_value |]. split; [done |]. split.
    + rewrite footer_decode_value by done. destruct o. simpl in Hv. by subst.
    + rewrite compare_same by done. by rewrite Z.eqb_refl.
  - intros o1 h a3 inp Hb Hl Hd. apply header_decode_inv in Hd as (c & Hc' & -> & ->); [| done | done].
    by apply header_encode_value.
Qed.

Lemma stream_flags_roundtrip_witness :
  exists hdr ftr,
    lzma_stream_header_encode (MkFlags 0 8 1) 5 (replicate 12 0 ++ [9]) = Some (LZMA_OK, hdr ++ [9]) /\
    lzma_stream_footer_encode (MkFlags 0 8 1) 6 (replicate 12 7 ++ [9]) = Some (LZMA_OK, ftr ++ [9]).
Proof.
  destruct (stream_flags_roundtrip (MkFlags 0 8 1) 5 6 (replicate 12 0) (replicate 12 7) [9]) as (h & f & H1 & H2 & _).
  1: reflexivity.
  1: unfold check_ok, LZMA_CHECK_ID_MAX; simpl; lia.
  1, 2, 3: reflexivity.
  exists h, f. split; assumption.
Defined.
