(* ===== verification/Coder.v ===== *)
(** * liblzma: coders in a chain

    common/common.c and common/common.h: what the coding functions of a filter
    chain share. A coding function gets the whole input and output with the
    positions reached in them; it may move the positions on, up to the sizes. *)

From Stdlib Require Import ZArith Lia.
From stdpp Require Import base list option.
From S2P Require Import Prelude LzmaBase.
Local Open Scope Z_scope.

Inductive lzma_action := LZMA_RUN | LZMA_SYNC_FLUSH | LZMA_FULL_FLUSH | LZMA_FINISH | LZMA_FULL_BARRIER.

#[export] Instance lzma_action_eq_dec : EqDecision lzma_action.
Proof. solve_decision. Defined.

(** [in], [*in_pos], [out], [*out_pos]; the sizes are those of the lists. *)
Record io := MkIo { inp : list Z; in_pos : Z; out : list Z; out_pos : Z }.

Definition in_size (o : io) : Z := Z.of_nat (length (inp o)).
Definition out_size (o : io) : Z := Z.of_nat (length (out o)).

(** [size_t] differences do not wrap while positions stay below sizes; where
    one is above, the copy runs off the buffers. *)
Definition lzma_bufcpy (inp : list Z) (in_pos in_size : Z) (out : list Z) (out_pos out_size : Z)
    : option (Z * list Z * Z) :=
  let in_avail := u64 (in_size - in_pos) in
  let out_avail := u64 (out_size - out_pos) in
  let copy_size := Z.min in_avail out_avail in
  bs ← rd_bytes inp in_pos (Z.to_nat copy_size);
  out ← wr_bytes out out_pos bs;
  Some (in_pos + copy_size, out, out_pos + copy_size).

(** The positions lie in the buffers. *)
Definition io_ok (o : io) : Prop :=
  0 <= in_pos o <= in_size o /\ 0 <= out_pos o <= out_size o /\ in_size o < 2 ^ 64 /\ out_size o < 2 ^ 64.

(** [o'] is [o] after some input was taken and [d] was put out; beyond the new
    position the output may have been written to. *)
Definition moved (o o' : io) (d : list Z) : Prop :=
  inp o' = inp o /\ in_pos o <= in_pos o' <= in_size o /\
  length (out o') = length (out o) /\ out_pos o' = out_pos o + Z.of_nat (length d) /\
  out_pos o' <= out_size o /\
  take (Z.to_nat (out_pos o')) (out o') = take (Z.to_nat (out_pos o)) (out o) ++ d.

(** The next coder of a chain as its user sees it: it answers, it stays inside
    the buffers, it writes nothing before the position it was given, and what
    it has written so far, [given], grows by what it wrote. *)
Class NextCoder {next : Type} (code : next -> io -> lzma_action -> option (lzma_ret * next * io))
    (given : next -> list Z) : Prop := {
  next_answers nx o action : io_ok o -> exists ret nx' o' d,
    code nx o action = Some (ret, nx', o') /\ moved o o' d /\ bytes d /\ given nx' = given nx ++ d
}.

Lemma moved_ok o o' d : io_ok o -> moved o o' d -> io_ok o'.
Proof.
  unfold io_ok, moved, in_size, out_size. intros (H1 & H2 & H3 & H4) (E1 & E2 & E3 & E4 & E5 & _).
  rewrite E1, E3. lia.
Qed.

Lemma moved_trans o1 o2 o3 d1 d2 : 0 <= out_pos o1 -> moved o1 o2 d1 -> moved o2 o3 d2 -> moved o1 o3 (d1 ++ d2).
Proof.
  unfold moved, in_size, out_size. intros H0 (A1 & A2 & A3 & A4 & A5 & A6) (B1 & B2 & B3 & B4 & B5 & B6).
  rewrite A1 in *. rewrite length_app. split; [done |]. split; [lia |]. split; [lia |]. split; [lia |].
  split; [lia |]. by rewrite B6, A6, app_assoc.
Qed.

Lemma bufcpy_value o : io_ok o ->
  let n := Z.min (in_size o - in_pos o) (out_size o - out_pos o) in
  let d := take (Z.to_nat n) (drop (Z.to_nat (in_pos o)) (inp o)) in
  0 <= n /\ Z.of_nat (length d) = n /\
  lzma_bufcpy (inp o) (in_pos o) (in_size o) (out o) (out_pos o) (out_size o)
  = Some (in_pos o + n, take (Z.to_nat (out_pos o)) (out o) ++ d ++ drop (Z.to_nat (out_pos o + n)) (out o), out_pos o + n).
Proof.
  intros (H1 & H2 & H3 & H4) n d. unfold lzma_bufcpy. rewrite !u64_small by lia. fold n. unfold in_size, out_size in *.
  assert (length d = Z.to_nat n) as Hd by (unfold d; rewrite length_take, length_drop; lia).
  split; [lia |]. split; [lia |].
  assert (inp o = take (Z.to_nat (in_pos o)) (inp o) ++ d ++ drop (Z.to_nat n) (drop (Z.to_nat (in_pos o)) (inp o))) as Ei
    by (unfold d; by rewrite !take_drop).
  rewrite Ei at 1. rewrite rd_bytes_app by (rewrite ?length_take; lia). cbn [mbind option_bind].
  assert (out o = take (Z.to_nat (out_pos o)) (out o) ++ take (Z.to_nat n) (drop (Z.to_nat (out_pos o)) (out o))
    ++ drop (Z.to_nat (out_pos o + n)) (out o)) as Eo.
  { rewrite Z2Nat.inj_add, <- drop_drop by lia. by rewrite !take_drop. }
  rewrite Eo at 1. rewrite wr_bytes_app by (rewrite ?length_take, ?length_drop; lia). done.
Qed.

(** The bytes from [i] up to [j]. *)
Definition seg (l : list Z) (i j : Z) : list Z := take (Z.to_nat (j - i)) (drop (Z.to_nat i) l).

Lemma seg_length l i j : 0 <= i <= j -> j <= Z.of_nat (length l) -> Z.of_nat (length (seg l i j)) = j - i.
Proof. intros. unfold seg. rewrite length_take, length_drop. lia. Qed.

Lemma seg_split l i j : 0 <= i <= j -> j <= Z.of_nat (length l) ->
  l = take (Z.to_nat i) l ++ seg l i j ++ drop (Z.to_nat j) l.
Proof.
  intros Hi Hj. unfold seg. rewrite <- (take_drop (Z.to_nat i) l) at 1. f_equal.
  rewrite <- (take_drop (Z.to_nat (j - i)) (drop (Z.to_nat i) l)) at 1. f_equal. rewrite drop_drop. f_equal. lia.
Qed.

Lemma seg_app l i j k : 0 <= i <= j -> j <= k -> k <= Z.of_nat (length l) -> seg l i k = seg l i j ++ seg l j k.
Proof.
  intros. unfold seg. rewrite <- (take_drop (Z.to_nat (j - i)) (take (Z.to_nat (k - i)) _)). f_equal.
  - rewrite take_take. f_equal. lia.
  - rewrite skipn_firstn_comm, drop_drop. f_equal; [lia |]. f_equal. lia.
Qed.

Lemma rd_bytes_seg l i j n : 0 <= i <= j -> j <= Z.of_nat (length l) -> Z.of_nat n = j - i -> rd_bytes l i n = Some (seg l i j).
Proof.
  intros Hi Hj Hn. rewrite (seg_split l i j) at 1 by done.
  apply rd_bytes_app; [rewrite length_take; lia |]. pose proof (seg_length l i j). lia.
Qed.

(** Writing a segment of the same length. *)
Lemma wr_bytes_seg l i src : 0 <= i -> i + Z.of_nat (length src) <= Z.of_nat (length l) ->
  wr_bytes l i src = Some (take (Z.to_nat i) l ++ src ++ drop (Z.to_nat (i + Z.of_nat (length src))) l).
Proof.
  intros Hi Hl. rewrite (seg_split l i (i + Z.of_nat (length src))) at 1 by lia.
  apply wr_bytes_app; [rewrite length_take; lia |]. pose proof (seg_length l i (i + Z.of_nat (length src))). lia.
Qed.

(** Copying from one buffer to another is an instance of [moved]. *)
Lemma bufcpy_moved o : io_ok o ->
  exists d o', lzma_bufcpy (inp o) (in_pos o) (in_size o) (out o) (out_pos o) (out_size o)
    = Some (in_pos o', out o', out_pos o') /\ moved o o' d /\
    d = take (length d) (drop (Z.to_nat (in_pos o)) (inp o)) /\ in_pos o' = in_pos o + Z.of_nat (length d) /\
    (in_pos o' = in_size o \/ out_pos o' = out_size o).
Proof.
  intros Ho. destruct (bufcpy_value o Ho) as (Hn & Hd & E). set (n := Z.min _ _) in *. set (d := take _ _) in *.
  destruct Ho as (H1 & H2 & H3 & H4).
  exists d, (MkIo (inp o) (in_pos o + n) (take (Z.to_nat (out_pos o)) (out o) ++ d ++ drop (Z.to_nat (out_pos o + n)) (out o)) (out_pos o + n)).
  split; [exact E |]. cbn [Coder.inp Coder.in_pos Coder.out Coder.out_pos].
  unfold in_size, out_size in *. split; [| split; [| split; [lia | lia]]].
  - unfold moved. cbn. unfold in_size, out_size. cbn. split; [done |]. split; [lia |].
    split; [rewrite !length_app, length_take, length_drop; lia |]. split; [lia |]. split; [lia |].
    rewrite app_assoc, take_app_length'; [done |]. rewrite length_app, length_take. lia.
  - unfold d at 1. f_equal. lia.
Qed.

Lemma moved_seg o o' w : 0 <= out_pos o -> moved o o' w -> seg (out o') (out_pos o) (out_pos o') = w.
Proof.
  intros H0 (_ & _ & Hl & Hp & Hs & Ht). unfold out_size in Hs. unfold seg.
  replace (Z.to_nat (out_pos o' - out_pos o)) with (Z.to_nat (out_pos o') - Z.to_nat (out_pos o))%nat by lia.
  rewrite <- skipn_firstn_comm, Ht. apply drop_app_length'. rewrite length_take. lia.
Qed.

(** ** A whole stream

    The calls an application makes of the coding function of the first coder
    of a chain, each with its own buffers, until one does not return
    [LZMA_OK]: what was put out, and what was taken from the input. *)
Section stream.
  Context {coder_t next : Type}
    (code : coder_t -> next -> io -> lzma_action -> option (lzma_ret * coder_t * next * io)).

Fixpoint run (c : coder_t) (nx : next) (calls : list (io * lzma_action))
    : option (lzma_ret * next * list Z * list Z) :=
  match calls with
  | [] => Some (LZMA_OK, nx, [], [])
  | (o, action) :: calls =>
      '(ret, c, nx, o') ← code c nx o action;
      let w := seg (out o') (out_pos o) (out_pos o') in
      let d := seg (inp o) (in_pos o) (in_pos o') in
      if bool_decide (ret = LZMA_OK) then
        '(ret, nx, ws, ds) ← run c nx calls;
        Some (ret, nx, w ++ ws, d ++ ds)
      else Some (ret, nx, w, d)
  end.

(** An invariant of the coder, what it has put out and what it has taken. *)
Lemma run_invariant (Inv : coder_t -> next -> list Z -> list Z -> Prop) (ok : io * lzma_action -> Prop)
    (rets : lzma_ret -> Prop) : rets LZMA_OK ->
  (forall c nx ws ds o action, Inv c nx ws ds -> ok (o, action) -> exists ret c' nx' o' w,
     code c nx o action = Some (ret, c', nx', o') /\ 0 <= out_pos o /\ moved o o' w /\ rets ret /\
     Inv c' nx' (ws ++ w) (ds ++ seg (inp o) (in_pos o) (in_pos o'))) ->
  forall calls c nx ws ds, Inv c nx ws ds -> Forall ok calls -> exists ret c' nx' ws' ds',
    run c nx calls = Some (ret, nx', ws', ds') /\ rets ret /\ Inv c' nx' (ws ++ ws') (ds ++ ds').
Proof.
  intros Hok0 Hstep. induction calls as [| [o action] calls IH]; intros c nx ws ds Hi Hok.
  - exists LZMA_OK, c, nx, [], []. by rewrite !app_nil_r.
  - apply list.Forall_cons in Hok as [Hc Hok]. cbn [run].
    destruct (Hstep c nx ws ds o action Hi Hc) as (ret & c1 & nx1 & o1 & w & -> & H0 & Hm & Hr & Hi1). cbn [mbind option_bind].
    rewrite (moved_seg o o1 w H0 Hm). case_bool_decide; [| by exists ret, c1, nx1; eauto 6].
    destruct (IH c1 nx1 _ _ Hi1 Hok) as (ret2 & c2 & nx2 & ws2 & ds2 & -> & Hr2 & Hi2). cbn [mbind option_bind].
    do 5 eexists. split; [reflexivity |]. split; [done |]. by rewrite !app_assoc.
Qed.
End stream.

Definition call_ok (call : io * lzma_action) : Prop := io_ok call.1 /\ bytes (inp call.1).

(** A next coder that has the whole data: it gives what there is room for. *)
Definition feed (nx : list Z * list Z) (o : io) (action : lzma_action) : option (lzma_ret * (list Z * list Z) * io) :=
  let n := Nat.min (length nx.2) (Z.to_nat (out_size o - out_pos o)) in
  out' ← wr_bytes (out o) (out_pos o) (take n nx.2);
  Some (if bool_decide (drop n nx.2 = []) then LZMA_STREAM_END else LZMA_OK,
        (nx.1 ++ take n nx.2, drop n nx.2), MkIo (inp o) (in_pos o) out' (out_pos o + Z.of_nat n)).

(** The data a coder is fed with is bytes: others become bytes. *)
Definition feed_bytes (nx : list Z * list Z) (o : io) (action : lzma_action) :=
  feed (nx.1, u8 <$> nx.2) o action.

#[export] Instance feed_is_next : NextCoder feed_bytes fst.
Proof.
  split. intros [g r] o action Ho. unfold feed_bytes, feed. cbn [fst snd]. set (r' := u8 <$> r).
  assert (bytes r') as Hb by (apply Forall_fmap, Forall_true; intros; apply u8_range).
  set (n := Nat.min _ _). pose proof Ho as (Hi & Hop & _). unfold out_size, in_size in *.
  assert (length (take n r') = n) as Hl by (rewrite length_take; lia).
  rewrite wr_bytes_seg by lia. cbn [mbind option_bind]. do 4 eexists. split; [reflexivity |].
  split; [| split; [by apply Forall_take | done]].
  unfold moved, in_size, out_size. cbn [inp in_pos out out_pos]. rewrite !length_app, length_take, length_drop.
  split_and!; try done; try lia. rewrite app_assoc, take_app_length'; [done |]. rewrite length_app, length_take. lia.
Qed.
