(* ===== verification/Delta.v ===== *)
(** * liblzma: the Delta filter

    delta/delta_common.c, delta/delta_decoder.c and delta/delta_encoder.c. The
    coder keeps the last 256 bytes in a circular buffer that is written
    downwards. A buffer is the list of the [size] bytes a call may touch;
    [None] is an access outside it or outside the history. The next coder of
    the chain, reached through a function pointer, is a parameter. *)

From Stdlib Require Import ZArith Lia.
From stdpp Require Import base list option.
From S2P Require Import Prelude LzmaBase Coder.
Local Open Scope Z_scope.

Definition LZMA_DELTA_TYPE_BYTE : Z := 0.
Definition LZMA_DELTA_DIST_MIN : Z := 1.
Definition LZMA_DELTA_DIST_MAX : Z := 256.
Definition UINT64_MAX : Z := 2 ^ 64 - 1.

Record lzma_options_delta := MkOptDelta { opt_type : Z; dist : Z }.
Record lzma_delta_coder := MkDelta { distance : Z; pos : Z; history : list Z }.

(** ** Options *)

(** [sizeof_coder] is [sizeof(lzma_delta_coder)]. *)
Definition lzma_delta_coder_memusage (sizeof_coder : Z) (options : option lzma_options_delta) : Z :=
  match options with
  | None => UINT64_MAX
  | Some opt =>
      if negb (opt_type opt =? LZMA_DELTA_TYPE_BYTE) || (dist opt <? LZMA_DELTA_DIST_MIN)
         || (LZMA_DELTA_DIST_MAX <? dist opt)
      then UINT64_MAX else sizeof_coder
  end.

(** The allocator gives [fresh], or nothing; [next_init] is what initialising
    the rest of the chain answers. *)
Definition lzma_delta_coder_init (sizeof_coder : Z) (fresh : option lzma_delta_coder)
    (coder : option lzma_delta_coder) (options : option lzma_options_delta) (next_init : lzma_ret)
    : lzma_ret * option lzma_delta_coder :=
  match (match coder with Some c => Some c | None => fresh end) with
  | None => (LZMA_MEM_ERROR, None)
  | Some c =>
      match options with
      | Some opt =>
          if lzma_delta_coder_memusage sizeof_coder options =? UINT64_MAX then (LZMA_OPTIONS_ERROR, Some c)
          else (next_init, Some (MkDelta (dist opt) 0 (replicate 256 0)))
      | None => (LZMA_OPTIONS_ERROR, Some c)
      end
  end.

Definition lzma_delta_props_decode (fresh : bool) (props : list Z) (props_size : Z)
    : option (lzma_ret * option lzma_options_delta) :=
  if negb (props_size =? 1) then Some (LZMA_OPTIONS_ERROR, None)
  else if negb fresh then Some (LZMA_MEM_ERROR, None)
  else b ← rd props 0; Some (LZMA_OK, Some (MkOptDelta LZMA_DELTA_TYPE_BYTE (b + 1))).

Definition lzma_delta_props_encode (sizeof_coder : Z) (options : option lzma_options_delta) (out : list Z)
    : option (lzma_ret * list Z) :=
  if lzma_delta_coder_memusage sizeof_coder options =? UINT64_MAX then Some (LZMA_PROG_ERROR, out)
  else opt ← options; out ← wr out 0 (u8 (dist opt - LZMA_DELTA_DIST_MIN)); Some (LZMA_OK, out).

(** ** The loops *)

(** [coder->history[coder->pos-- & 0xFF] = b]. *)
Definition push (coder : lzma_delta_coder) (b : Z) : option lzma_delta_coder :=
  h ← wr (history coder) (Z.land (pos coder) 0xFF) b;
  Some (MkDelta (distance coder) (u8 (pos coder - 1)) h).

(** [coder->history[(distance + coder->pos) & 0xFF]]. *)
Definition behind (coder : lzma_delta_coder) : option Z :=
  rd (history coder) (Z.land (distance coder + pos coder) 0xFF).

(** The bytes from [i] on, [n] of them. *)
Fixpoint decode_loop (n : nat) (i : Z) (coder : lzma_delta_coder) (buffer : list Z)
    : option (lzma_delta_coder * list Z) :=
  match n with
  | O => Some (coder, buffer)
  | S n =>
      h ← behind coder;
      b ← rd buffer i;
      let b := u8 (b + h) in
      buffer ← wr buffer i b;
      coder ← push coder b;
      decode_loop n (i + 1) coder buffer
  end.

Definition decode_buffer (coder : lzma_delta_coder) (buffer : list Z) : option (lzma_delta_coder * list Z) :=
  decode_loop (length buffer) 0 coder buffer.

Fixpoint encode_loop (n : nat) (i : Z) (coder : lzma_delta_coder) (buffer : list Z)
    : option (lzma_delta_coder * list Z) :=
  match n with
  | O => Some (coder, buffer)
  | S n =>
      tmp ← behind coder;
      b ← rd buffer i;
      coder ← push coder b;
      buffer ← wr buffer i (u8 (b - tmp));
      encode_loop n (i + 1) coder buffer
  end.

Definition encode_in_place (coder : lzma_delta_coder) (buffer : list Z) : option (lzma_delta_coder * list Z) :=
  encode_loop (length buffer) 0 coder buffer.

Fixpoint copy_loop (n : nat) (i : Z) (coder : lzma_delta_coder) (inp out : list Z)
    : option (lzma_delta_coder * list Z) :=
  match n with
  | O => Some (coder, out)
  | S n =>
      tmp ← behind coder;
      b ← rd inp i;
      coder ← push coder b;
      out ← wr out i (u8 (b - tmp));
      copy_loop n (i + 1) coder inp out
  end.

Definition copy_and_encode (coder : lzma_delta_coder) (inp out : list Z) (size : nat)
    : option (lzma_delta_coder * list Z) :=
  copy_loop size 0 coder inp out.

(** ** The coder in a chain *)
Section chain.
  (** [coder->next.code] with its own state. *)
  Context {next : Type} (next_code : next -> io -> lzma_action -> option (lzma_ret * next * io)).

(** [f(coder, out + start, *out_pos - start)]: the part of the output between
    two positions, in place. *)
Definition on_out (f : lzma_delta_coder -> list Z -> option (lzma_delta_coder * list Z))
    (coder : lzma_delta_coder) (start : Z) (o : io) : option (lzma_delta_coder * io) :=
  let s := Z.to_nat start in
  let n := Z.to_nat (out_pos o - start) in
  if (0 <=? start) && (start <=? out_pos o) && (out_pos o <=? Z.of_nat (length (out o))) then
    '(coder, mid) ← f coder (take n (drop s (out o)));
    Some (coder, MkIo (inp o) (in_pos o) (take s (out o) ++ mid ++ drop (s + n) (out o)) (out_pos o))
  else None.

(** [has_next] is [coder->next.code != NULL]. *)
Definition delta_decode (has_next : bool) (coder : lzma_delta_coder) (nx : next) (o : io) (action : lzma_action)
    : option (lzma_ret * lzma_delta_coder * next * io) :=
  assert has_next ;;
  let out_start := out_pos o in
  '(ret, nx, o) ← next_code nx o action;
  '(coder, o) ← on_out decode_buffer coder out_start o;
  Some (ret, coder, nx, o).

Definition delta_encode (has_next : bool) (coder : lzma_delta_coder) (nx : next) (o : io) (action : lzma_action)
    : option (lzma_ret * lzma_delta_coder * next * io) :=
  if negb has_next then
    let in_avail := u64 (in_size o - in_pos o) in
    let out_avail := u64 (out_size o - out_pos o) in
    let size := Z.min in_avail out_avail in
    '(coder, out') ← copy_and_encode coder (drop (Z.to_nat (in_pos o)) (inp o)) (drop (Z.to_nat (out_pos o)) (out o)) (Z.to_nat size);
    let o := MkIo (inp o) (in_pos o + size) (take (Z.to_nat (out_pos o)) (out o) ++ out') (out_pos o + size) in
    let ret := if negb (bool_decide (action = LZMA_RUN)) && (in_pos o =? in_size o)
               then LZMA_STREAM_END else LZMA_OK in
    Some (ret, coder, nx, o)
  else
    let out_start := out_pos o in
    '(ret, nx, o) ← next_code nx o action;
    '(coder, o) ← on_out encode_in_place coder out_start o;
    Some (ret, coder, nx, o).
End chain.

Definition fresh_coder (d : Z) : lzma_delta_coder := MkDelta d 0 (replicate 256 0).

Example encode_small :
  encode_in_place (fresh_coder 2) [10; 20; 13; 19] = Some (MkDelta 2 252 (<[253%nat := 19]> (<[254%nat := 13]> (<[255%nat := 20]> (<[0%nat := 10]> (replicate 256 0))))), [10; 20; 3; 255]).
Proof. vm_compute. reflexivity. Qed.

Example decode_small :
  snd <$> decode_buffer (fresh_coder 2) [10; 20; 3; 255] = Some [10; 20; 13; 19].
Proof. vm_compute. reflexivity. Qed.

(** ** What the filter computes

    [past] are the original bytes coded so far, oldest first; before them the
    filter takes zeros. *)
Definition back (past : list Z) (k : Z) : Z :=
  default 0 (if Z.of_nat (length past) <? k then None else past !! Z.to_nat (Z.of_nat (length past) - k)).

Fixpoint delta_of (d : Z) (past todo : list Z) : list Z :=
  match todo with
  | [] => []
  | x :: todo => u8 (x - back past d) :: delta_of d (past ++ [x]) todo
  end.

(** The circular buffer holds the last 256 bytes, the latest at [pos + 1]. *)
Definition holds (coder : lzma_delta_coder) (past : list Z) : Prop :=
  1 <= distance coder <= 256 /\ 0 <= pos coder < 256 /\ length (history coder) = 256%nat /\
  forall k, 1 <= k <= 256 -> rd (history coder) ((k + pos coder) mod 256) = Some (back past k).

Lemma back_last past x : back (past ++ [x]) 1 = x.
Proof.
  unfold back. rewrite length_app. simpl length. rewrite (proj2 (Z.ltb_ge _ _)) by lia.
  rewrite lookup_app_r by lia.
  replace (Z.to_nat (Z.of_nat (length past + 1) - 1) - length past)%nat with 0%nat by lia. done.
Qed.

Lemma back_earlier past x k : 1 < k -> back (past ++ [x]) k = back past (k - 1).
Proof.
  intros Hk. unfold back. rewrite length_app. simpl length.
  destruct (Z.ltb_spec (Z.of_nat (length past)) (k - 1)).
  - by rewrite (proj2 (Z.ltb_lt _ _)) by lia.
  - rewrite (proj2 (Z.ltb_ge _ _)) by lia. rewrite lookup_app_l by lia. do 2 f_equal. lia.
Qed.

Lemma holds_fresh d : 1 <= d <= 256 -> holds (fresh_coder d) [].
Proof.
  intros Hd. split; [done |]. split; [by unfold fresh_coder |]. split; [done |].
  intros k Hk. unfold fresh_coder. cbn [history pos]. unfold rd.
  pose proof (Z.mod_pos_bound (k + 0) 256). rewrite (proj2 (Z.ltb_ge _ _)) by lia.
  rewrite lookup_replicate_2 by lia. unfold back. simpl length. by rewrite (proj2 (Z.ltb_lt _ _)) by lia.
Qed.

Lemma land_255 x : Z.land x 0xFF = x mod 256.
Proof. change 0xFF with (Z.ones 8). by rewrite Z.land_ones. Qed.

Lemma behind_holds coder past : holds coder past -> behind coder = Some (back past (distance coder)).
Proof. intros (Hd & _ & _ & H). unfold behind. rewrite land_255. by apply H. Qed.

Lemma push_holds coder past b : holds coder past ->
  exists coder', push coder b = Some coder' /\ holds coder' (past ++ [b]) /\ distance coder' = distance coder.
Proof.
  intros (Hd & Hp & Hl & H). unfold push, wr. rewrite land_255, Hl, Z.mod_small by lia.
  rewrite (proj2 (andb_true_iff _ _)) by (split; [apply Z.leb_le | apply Z.ltb_lt]; lia). cbn [mbind option_bind].
  eexists. split; [reflexivity |]. split; [| done].
  pose proof (u8_range (pos coder - 1)) as Hu. unfold u8, wrap in *. change (2 ^ 8) with 256 in *.
  split; [done |]. split; [exact Hu |]. cbn [history pos distance]. split; [by rewrite length_insert |].
  intros k Hk. rewrite Z.add_mod_idemp_r by lia. unfold rd.
  pose proof (Z.mod_pos_bound (k + (pos coder - 1)) 256). rewrite (proj2 (Z.ltb_ge _ _)) by lia.
  destruct (Z.eqb_spec k 1) as [-> | Hk1].
  - replace (1 + (pos coder - 1)) with (pos coder) by lia. rewrite Z.mod_small by lia.
    rewrite list_lookup_insert_eq by lia. by rewrite back_last.
  - rewrite list_lookup_insert_ne.
    + rewrite back_earlier by lia. specialize (H (k - 1)). unfold rd in H.
      replace (k - 1 + pos coder) with (k + (pos coder - 1)) in H by lia.
      rewrite (proj2 (Z.ltb_ge _ _)) in H by lia. apply H. lia.
    + intros E. apply Z2Nat.inj in E; [| lia | lia].
      pose proof (Z.div_mod (k + (pos coder - 1)) 256 ltac:(done)). lia.
Qed.

(** Encoding, in place or copying, and decoding from a position on. *)
Lemma encode_loop_value coder past pre todo : holds coder past -> 
  exists coder', encode_loop (length todo) (Z.of_nat (length pre)) coder (pre ++ todo)
                 = Some (coder', pre ++ delta_of (distance coder) past todo) /\
    holds coder' (past ++ todo) /\ distance coder' = distance coder.
Proof.
  revert coder past pre. induction todo as [| x todo IH]; intros coder past pre Hh.
  - exists coder. rewrite !app_nil_r. done.
  - cbn [length encode_loop]. rewrite (behind_holds _ _ Hh). cbn [mbind option_bind].
    rewrite rd_app by done. cbn [mbind option_bind].
    destruct (push_holds _ _ x Hh) as (c & -> & Hc & Hd). cbn [mbind option_bind].
    rewrite wr_app by done. cbn [mbind option_bind].
    destruct (IH c (past ++ [x]) (pre ++ [u8 (x - back past (distance coder))]) Hc) as (c' & E & Hc' & Hd').
    rewrite length_app, Nat2Z.inj_add, <- !app_assoc in E. simpl in E. change (Z.of_nat 1) with 1 in E. rewrite E. exists c'.
    rewrite <- app_assoc in Hc'. cbn [delta_of]. rewrite Hd in *. done.
Qed.

Lemma copy_loop_value coder past ipre opre todo irest old rest : holds coder past ->
  length ipre = length opre -> length old = length todo ->
  exists coder', copy_loop (length todo) (Z.of_nat (length opre)) coder (ipre ++ todo ++ irest) (opre ++ old ++ rest)
                 = Some (coder', opre ++ delta_of (distance coder) past todo ++ rest) /\
    holds coder' (past ++ todo) /\ distance coder' = distance coder.
Proof.
  revert coder past ipre opre old. induction todo as [| x todo IH]; intros coder past ipre opre old Hh Hl Ho.
  - exists coder. destruct old; [| done]. rewrite !app_nil_r. done.
  - destruct old as [| o old]; [done |]. cbn [length copy_loop]. rewrite (behind_holds _ _ Hh). cbn [mbind option_bind].
    cbn [app]. rewrite rd_app by lia. cbn [mbind option_bind].
    destruct (push_holds _ _ x Hh) as (c & -> & Hc & Hd). cbn [mbind option_bind].
    rewrite wr_app by done. cbn [mbind option_bind].
    destruct (IH c (past ++ [x]) (ipre ++ [x]) (opre ++ [u8 (x - back past (distance coder))]) old Hc) as (c' & E & Hc' & Hd');
      [by rewrite !length_app, Hl | by injection Ho |].
    rewrite length_app, Nat2Z.inj_add, <- !app_assoc in E. simpl in E. change (Z.of_nat 1) with 1 in E. rewrite E. exists c'.
    rewrite <- app_assoc in Hc'. cbn [delta_of]. rewrite Hd in *. done.
Qed.

Lemma decode_loop_value coder past pre todo : holds coder past -> bytes todo ->
  exists coder', decode_loop (length todo) (Z.of_nat (length pre)) coder (pre ++ delta_of (distance coder) past todo)
                 = Some (coder', pre ++ todo) /\
    holds coder' (past ++ todo) /\ distance coder' = distance coder.
Proof.
  revert coder past pre. induction todo as [| x todo IH]; intros coder past pre Hh Hb.
  - exists coder. rewrite !app_nil_r. done.
  - apply list.Forall_cons in Hb as [Hx Hb]. cbn [length decode_loop delta_of].
    rewrite (behind_holds _ _ Hh). cbn [mbind option_bind]. rewrite rd_app by done. cbn [mbind option_bind].
    assert (u8 (u8 (x - back past (distance coder)) + back past (distance coder)) = x) as ->.
    { unfold u8, wrap. rewrite Z.add_mod_idemp_l by done. rewrite Z.sub_add. apply Z.mod_small. exact Hx. }
    rewrite wr_app by done. cbn [mbind option_bind].
    destruct (push_holds _ _ x Hh) as (c & -> & Hc & Hd). cbn [mbind option_bind].
    destruct (IH c (past ++ [x]) (pre ++ [x]) Hc Hb) as (c' & E & Hc' & Hd').
    rewrite length_app, Nat2Z.inj_add, <- !app_assoc in E. simpl in E. change (Z.of_nat 1) with 1 in E. rewrite Hd in *. rewrite E. exists c'.
    rewrite <- app_assoc in Hc'. done.
Qed.

Lemma encode_in_place_value coder past todo : holds coder past ->
  exists coder', encode_in_place coder todo = Some (coder', delta_of (distance coder) past todo) /\
    holds coder' (past ++ todo) /\ distance coder' = distance coder.
Proof. apply (encode_loop_value coder past []). Qed.

Lemma decode_buffer_value coder past todo buf : holds coder past -> bytes todo ->
  buf = delta_of (distance coder) past todo -> length buf = length todo ->
  exists coder', decode_buffer coder buf = Some (coder', todo) /\
    holds coder' (past ++ todo) /\ distance coder' = distance coder.
Proof. intros Hh Hb -> Hl. unfold decode_buffer. rewrite Hl. by apply (decode_loop_value coder past []). Qed.

Lemma delta_of_length d past todo : length (delta_of d past todo) = length todo.
Proof. revert past. induction todo as [| x todo IH]; intros past; [done |]. cbn. by rewrite IH. Qed.

Lemma delta_of_app d past a b : delta_of d past (a ++ b) = delta_of d past a ++ delta_of d (past ++ a) b.
Proof.
  revert past. induction a as [| x a IH]; intros past; cbn; [by rewrite app_nil_r |].
  by rewrite IH, <- app_assoc.
Qed.

(** Every byte of the output is the difference of two bytes of the input. *)
Lemma delta_of_nth d past todo k : (k < length todo)%nat ->
  delta_of d past todo !! k = Some (u8 (default 0 (todo !! k) - back (past ++ take k todo) d)).
Proof.
  revert past k. induction todo as [| x todo IH]; intros past k Hk; [simpl in Hk; lia |].
  destruct k as [| k]; cbn; [by rewrite app_nil_r |].
  rewrite IH by (simpl in Hk; lia). by rewrite <- app_assoc.
Qed.

(** ** Pieces

    The calls of one coder on consecutive pieces of the data. *)
Section pieces.
  Context (f : lzma_delta_coder -> list Z -> option (lzma_delta_coder * list Z)).

Fixpoint in_pieces (coder : lzma_delta_coder) (ps : list (list Z)) : option (lzma_delta_coder * list (list Z)) :=
  match ps with
  | [] => Some (coder, [])
  | p :: ps => '(coder, q) ← f coder p; '(coder, qs) ← in_pieces coder ps; Some (coder, q :: qs)
  end.
End pieces.

(** The copying encoder, into a fresh buffer of the size of the piece. *)
Definition encode_copy (coder : lzma_delta_coder) (p : list Z) : option (lzma_delta_coder * list Z) :=
  copy_and_encode coder p (replicate (length p) 0) (length p).

Lemma encode_copy_in_place coder past p : holds coder past -> encode_copy coder p = encode_in_place coder p.
Proof.
  intros Hh. unfold encode_copy, copy_and_encode, encode_in_place. 
  assert (forall n i (c : lzma_delta_coder) pre (a b old : list Z),
    i = Z.of_nat (length pre) -> length a = n -> length old = n -> length b = length pre ->
    copy_loop n i c (b ++ a) (pre ++ old) = encode_loop n i c (pre ++ a)) as H.
  { induction n as [| n IH]; intros i c pre a b old Hi Ha Ho Hb.
    - destruct a, old; done.
    - destruct a as [| x a], old as [| y old]; try done. cbn [copy_loop encode_loop].
      destruct (behind c) as [tmp |]; [| done]. cbn [mbind option_bind].
      rewrite !rd_app by lia. cbn [mbind option_bind]. destruct (push c x) as [c' |]; [| done]. cbn [mbind option_bind].
      rewrite !wr_app by done. cbn [mbind option_bind].
      specialize (IH (i + 1) c' (pre ++ [u8 (x - tmp)]) a (b ++ [x]) old). rewrite <- !app_assoc in IH. apply IH.
      all: rewrite ?length_app; simpl in *; lia. }
  apply (H (length p) 0 coder [] p [] (replicate (length p) 0)); rewrite ?length_replicate; done.
Qed.

Lemma encode_pieces_value ps coder past : holds coder past ->
  exists c outs, in_pieces encode_in_place coder ps = Some (c, outs) /\
    in_pieces encode_copy coder ps = Some (c, outs) /\
    concat outs = delta_of (distance coder) past (concat ps).
Proof.
  revert coder past. induction ps as [| p ps IH]; intros coder past Hh; [by exists coder, [] |].
  cbn [in_pieces]. rewrite (encode_copy_in_place _ _ _ Hh).
  destruct (encode_in_place_value coder past p Hh) as (c & -> & Hc & Hd). cbn [mbind option_bind].
  destruct (IH c (past ++ p) Hc) as (c' & outs & -> & -> & Ho). cbn [mbind option_bind].
  do 2 eexists. split; [done |]. split; [done |]. cbn [concat]. by rewrite delta_of_app, Ho, Hd.
Qed.

Lemma decode_pieces_value qs coder past todo : holds coder past -> bytes todo ->
  concat qs = delta_of (distance coder) past todo ->
  exists c outs, in_pieces decode_buffer coder qs = Some (c, outs) /\ concat outs = todo.
Proof.
  revert coder past todo. induction qs as [| q qs IH]; intros coder past todo Hh Hb E.
  - exists coder, []. split; [done |]. destruct todo; [done |]. by apply (f_equal length) in E.
  - cbn [concat] in E. set (t := take (length q) todo). set (r := drop (length q) todo).
    assert (todo = t ++ r) as Et by (symmetry; apply take_drop).
    assert (length t = length q) as Hl.
    { apply (f_equal length) in E. rewrite length_app, delta_of_length in E. unfold t. rewrite length_take. lia. }
    rewrite Et, delta_of_app in E. apply app_inj_1 in E as [Eq Er]; [| by rewrite delta_of_length].
    rewrite Et in Hb. apply Forall_app in Hb as [Ht Hr].
    destruct (decode_buffer_value coder past t q Hh Ht Eq) as (c & Ec & Hc & Hd); [done |].
    cbn [in_pieces]. rewrite Ec. cbn [mbind option_bind].
    destruct (IH c (past ++ t) r Hc Hr) as (c' & outs & -> & Ho); [by rewrite Hd |]. cbn [mbind option_bind].
    do 2 eexists. split; [done |]. cbn [concat]. by rewrite Ho, <- Et.
Qed.

(** C37: The encoder, given the data in pieces and working in place or from one
    buffer to another, writes for every byte its difference modulo 256 to the
    byte a distance of 1 to 256 before it, or to zero where there is none; and
    the decoder, given that output cut into any other pieces, gives the data
    back. Neither leaves its buffers. *)
Theorem delta_roundtrip d ps : 1 <= d <= 256 -> bytes (concat ps) ->
  exists c outs,
    in_pieces encode_in_place (fresh_coder d) ps = Some (c, outs) /\
    in_pieces encode_copy (fresh_coder d) ps = Some (c, outs) /\
    (forall k, (k < length (concat ps))%nat ->
       concat outs !! k = Some (u8 (default 0 (concat ps !! k)
         - (if Z.of_nat k <? d then 0 else default 0 (concat ps !! Z.to_nat (Z.of_nat k - d)))))) /\
    (forall qs, concat qs = concat outs ->
       exists c' outs', in_pieces decode_buffer (fresh_coder d) qs = Some (c', outs') /\ concat outs' = concat ps).
Proof.
  intros Hd Hb. pose proof (holds_fresh d Hd) as Hh.
  destruct (encode_pieces_value ps _ _ Hh) as (c & outs & E1 & E2 & Ho). exists c, outs.
  split; [done |]. split; [done |]. split.
  - intros k Hk. rewrite Ho, delta_of_nth by done. cbn [distance fresh_coder app]. do 3 f_equal.
    unfold back. rewrite length_take, Nat.min_l by lia. destruct (Z.ltb_spec (Z.of_nat k) d); [done |].
    rewrite lookup_take_lt by lia. done.
  - intros qs E. by apply (decode_pieces_value qs _ [] (concat ps) Hh Hb); rewrite E, Ho.
Qed.

Lemma delta_roundtrip_witness :
  (1 <= 2 <= 256 /\ bytes [10; 20; 13; 19]) /\
  exists c outs, in_pieces encode_in_place (fresh_coder 2) [[10]; [20; 13]; [19]] = Some (c, outs) /\
    exists c' outs', in_pieces decode_buffer (fresh_coder 2) [concat outs] = Some (c', outs') /\ concat outs' = [10; 20; 13; 19].
Proof.
  assert (1 <= 2 <= 256) as Hd by lia.
  assert (bytes (concat [[10]; [20; 13]; [19]])) as Hb by (apply (bool_decide_unpack _); reflexivity).
  split; [split; [exact Hd | exact Hb] |].
  destruct (delta_roundtrip 2 [[10]; [20; 13]; [19]] Hd Hb) as (c & outs & H1 & _ & _ & H4).
  exists c, outs. split; [exact H1 |]. apply H4. simpl. apply app_nil_r.
Defined.

(** ** The coder in a chain *)
Lemma delta_of_onto d past ys : bytes ys -> exists xs, bytes xs /\ delta_of d past xs = ys.
Proof.
  revert past. induction ys as [| y ys IH]; intros past Hb; [by exists [] |].
  apply list.Forall_cons in Hb as [Hy Hb]. set (x := u8 (y + back past d)).
  destruct (IH (past ++ [x]) Hb) as (xs & Hx & <-). exists (x :: xs). split.
  - constructor; [apply u8_range | done].
  - cbn [delta_of]. f_equal. unfold x, u8, wrap. rewrite Zminus_mod_idemp_l, Z.add_simpl_r. by apply Z.mod_small.
Qed.

(** Working on the output in place. *)
Lemma on_out_spec f c c' o o1 w w' : io_ok o -> moved o o1 w -> f c w = Some (c', w') -> length w' = length w ->
  exists o2, on_out f c (out_pos o) o1 = Some (c', o2) /\ moved o o2 w' /\ in_pos o2 = in_pos o1.
Proof.
  intros Ho Hm Hf Hl. pose proof Ho as (Hi & Hp & _). pose proof (moved_seg o o1 w ltac:(lia) Hm) as Hw.
  destruct Hm as (E1 & E2 & E3 & E4 & E5 & E6). unfold on_out, seg, out_size, in_size in *.
  rewrite (proj2 (Z.leb_le _ _)), (proj2 (Z.leb_le _ _)), (proj2 (Z.leb_le _ _)) by lia. cbn [andb].
  rewrite Hw, Hf. cbn [mbind option_bind]. eexists. split; [reflexivity |]. split; [| done].
  unfold moved, in_size, out_size. cbn [inp in_pos out out_pos].
  assert (length (take (Z.to_nat (out_pos o)) (out o1)) = Z.to_nat (out_pos o)) as Ht by (rewrite length_take; lia).
  split; [done |]. split; [lia |]. split; [rewrite !length_app, Ht, length_drop; lia |].
  split; [lia |]. split; [lia |].
  rewrite app_assoc, take_app_length' by (rewrite length_app, Ht; lia). f_equal.
  apply (f_equal (take (Z.to_nat (out_pos o)))) in E6. rewrite take_take, Nat.min_l in E6 by lia.
  rewrite E6. rewrite take_app_le by (rewrite length_take; lia). by rewrite take_take, Nat.min_id.
Qed.

Section chain_spec.
  Context {next : Type} (next_code : next -> io -> lzma_action -> option (lzma_ret * next * io))
    (given : next -> list Z) {N : NextCoder next_code given} (d : Z).

(** A coder after the original bytes [past]. *)
Definition after (c : lzma_delta_coder) (past : list Z) : Prop := holds c past /\ distance c = d.

Lemma delta_decode_call c nx o action ws : after c ws -> given nx = delta_of d [] ws -> bytes ws -> io_ok o ->
  exists ret c' nx' o' w, delta_decode next_code true c nx o action = Some (ret, c', nx', o') /\
    moved o o' w /\ after c' (ws ++ w) /\ given nx' = delta_of d [] (ws ++ w) /\ bytes (ws ++ w).
Proof.
  intros [Hh Hd] Hg Hw Ho. unfold delta_decode. cbn [assert mbind option_bind].
  destruct (next_answers nx o action Ho) as (ret & nx' & o1 & y & -> & Hm & Hy & Hg'). cbn [mbind option_bind].
  destruct (delta_of_onto d ws y Hy) as (x & Hx & Exy).
  assert (length y = length x) as Hl by (by rewrite <- Exy, delta_of_length).
  destruct (decode_buffer_value c ws x y Hh Hx) as (c' & Hc & Hh' & Hd'); [by rewrite Hd | done |].
  destruct (on_out_spec _ c c' o o1 y x Ho Hm Hc) as (o2 & -> & Hm2 & _); [done |]. cbn [mbind option_bind].
  exists ret, c', nx', o2, x. split; [done |]. split; [done |]. split; [by split; [| rewrite Hd'] |].
  split; [| by apply Forall_app]. by rewrite Hg', Hg, delta_of_app, <- Exy.
Qed.

Lemma delta_encode_call c nx o action : after c (given nx) -> io_ok o ->
  exists ret c' nx' o' w x, delta_encode next_code true c nx o action = Some (ret, c', nx', o') /\
    moved o o' w /\ after c' (given nx') /\ given nx' = given nx ++ x /\ w = delta_of d (given nx) x.
Proof.
  intros [Hh Hd] Ho. unfold delta_encode. cbn [negb].
  destruct (next_answers nx o action Ho) as (ret & nx' & o1 & x & -> & Hm & _ & Hg'). cbn [mbind option_bind].
  destruct (encode_in_place_value c (given nx) x Hh) as (c' & Hc & Hh' & Hd').
  destruct (on_out_spec _ c c' o o1 x _ Ho Hm Hc) as (o2 & -> & Hm2 & _); [by rewrite delta_of_length |]. cbn [mbind option_bind].
  exists ret, c', nx', o2, (delta_of d (given nx) x), x. rewrite Hg', <- Hd. split; [done |]. split; [done |].
  split; [| done]. by split; [| rewrite Hd'].
Qed.

(** The last filter of an encoder takes its data from the input. *)
Lemma delta_copy_call (nx : next) c o action past : after c past -> io_ok o ->
  exists ret c' o' w x, delta_encode next_code false c nx o action = Some (ret, c', nx, o') /\
    moved o o' w /\ after c' (past ++ x) /\ w = delta_of d past x /\
    x = seg (inp o) (in_pos o) (in_pos o') /\
    (ret = LZMA_STREAM_END <-> action <> LZMA_RUN /\ in_pos o' = in_size o) /\ (ret = LZMA_OK \/ ret = LZMA_STREAM_END).
Proof.
  intros [Hh Hd] Ho. pose proof Ho as (Hi & Hp & H3 & H4). unfold delta_encode. cbn [negb]. rewrite !u64_small by lia.
  set (n := Z.min _ _). unfold in_size, out_size in *.
  set (x := seg (inp o) (in_pos o) (in_pos o + n)). set (old := seg (out o) (out_pos o) (out_pos o + n)).
  assert (Z.of_nat (length x) = n) as Hx by (unfold x; rewrite seg_length; lia).
  assert (Z.of_nat (length old) = n) as Hold by (unfold old; rewrite seg_length; lia).
  assert (drop (Z.to_nat (in_pos o)) (inp o) = x ++ drop (Z.to_nat (in_pos o + n)) (inp o)) as ->.
  { unfold x, seg. rewrite Z.add_simpl_l, Z2Nat.inj_add, <- drop_drop by lia. by rewrite take_drop. }
  assert (drop (Z.to_nat (out_pos o)) (out o) = old ++ drop (Z.to_nat (out_pos o + n)) (out o)) as ->.
  { unfold old, seg. rewrite Z.add_simpl_l, Z2Nat.inj_add, <- drop_drop by lia. by rewrite take_drop. }
  destruct (copy_loop_value c past [] [] x (drop (Z.to_nat (in_pos o + n)) (inp o)) old (drop (Z.to_nat (out_pos o + n)) (out o)) Hh)
    as (c' & E & Hh' & Hd'); [done | lia |].
  unfold copy_and_encode. replace (Z.to_nat n) with (length x) by lia. cbn [app length] in E.
  change (Z.of_nat 0) with 0 in E. rewrite E. cbn [mbind option_bind inp in_pos out out_pos].
  eexists _, c', _, (delta_of d past x), x. split; [reflexivity |]. cbn [inp in_pos out out_pos].
  assert (length (take (Z.to_nat (out_pos o)) (out o)) = Z.to_nat (out_pos o)) as Ht by (rewrite length_take; lia).
  split.
  - unfold moved, in_size, out_size. cbn [inp in_pos out out_pos]. rewrite <- Hd, delta_of_length.
    split; [done |]. split; [lia |]. split; [rewrite !length_app, Ht, delta_of_length, length_drop; lia |].
    split; [lia |]. split; [lia |]. rewrite app_assoc, take_app_length'; [done |].
    rewrite length_app, Ht, delta_of_length. lia.
  - split; [by split; [| rewrite Hd'] |]. split; [done |]. split; [done |]. split.
    + destruct (bool_decide (action = LZMA_RUN)) eqn:Ea; cbn [negb andb].
      * apply bool_decide_eq_true in Ea. split; [done |]. by intros [? _].
      * apply bool_decide_eq_false in Ea. destruct (Z.eqb_spec (in_pos o + n) (Z.of_nat (length (inp o)))); split; try done. by intros [_ ?].
    + case_match; auto.
Qed.
End chain_spec.

(** C36: The Delta coders in a chain: whatever the sizes of the buffers an
    application gives and in whatever pieces the next coder yields the data, no
    call fails; the decoder has put out the bytes whose differences are what
    the next coder gave, the encoder the differences of what the next coder
    gave, and an encoder with no next coder the differences of the input. *)
Theorem delta_stream {next : Type} (next_code : next -> io -> lzma_action -> option (lzma_ret * next * io)) given d nx calls :
  NextCoder next_code given -> 1 <= d <= 256 -> given nx = [] -> Forall call_ok calls ->
  (exists ret nx' ws ds, run (delta_decode next_code true) (fresh_coder d) nx calls = Some (ret, nx', ws, ds) /\
     bytes ws /\ given nx' = delta_of d [] ws) /\
  (exists ret nx' ws ds, run (delta_encode next_code true) (fresh_coder d) nx calls = Some (ret, nx', ws, ds) /\
     ws = delta_of d [] (given nx')) /\
  (exists ret ws ds, run (delta_encode next_code false) (fresh_coder d) nx calls = Some (ret, nx, ws, ds) /\
     ws = delta_of d [] ds /\ (ret = LZMA_OK \/ ret = LZMA_STREAM_END)).
Proof.
  intros HN Hd Hg Hcalls. assert (after d (fresh_coder d) []) as Hf by (split; [by apply holds_fresh | done]). split_and!.
  - destruct (run_invariant (delta_decode next_code true)
      (fun c nx ws _ => after d c ws /\ given nx = delta_of d [] ws /\ bytes ws) call_ok (fun _ => True)) with (calls := calls) (c := fresh_coder d)
      (nx := nx) (ws := @nil Z) (ds := @nil Z) as (ret & c' & nx' & ws & ds & E & _ & _ & E2 & E3); try done.
    + intros c nx1 ws _ o action (Ha & Hgw & Hb) [Ho _].
      destruct (delta_decode_call next_code given d c nx1 o action ws Ha Hgw Hb Ho) as (ret & c' & nx' & o' & w & -> & Hm & H).
      do 5 eexists. split; [reflexivity |]. split; [apply Ho |]. by destruct H as (? & ? & ?); split_and!.
    + split_and!; [done | done | constructor].
    + by exists ret, nx', ws, ds.
  - destruct (run_invariant (delta_encode next_code true)
      (fun c nx ws _ => after d c (given nx) /\ ws = delta_of d [] (given nx)) call_ok (fun _ => True)) with (calls := calls) (c := fresh_coder d)
      (nx := nx) (ws := @nil Z) (ds := @nil Z) as (ret & c' & nx' & ws & ds & E & _ & _ & E2); try done.
    + intros c nx1 ws _ o action (Ha & Hgw) [Ho _].
      destruct (delta_encode_call next_code given d c nx1 o action Ha Ho) as (ret & c' & nx' & o' & w & x & -> & Hm & Ha' & Hg' & Hw).
      do 5 eexists. split; [reflexivity |]. split; [apply Ho |]. split; [done |]. split; [done |]. split; [done |].
      by rewrite Hg', delta_of_app, Hgw, Hw.
    + by rewrite Hg.
    + by exists ret, nx', ws, ds.
  - destruct (run_invariant (delta_encode next_code false)
      (fun c nx1 ws ds => after d c ds /\ ws = delta_of d [] ds /\ nx1 = nx) call_ok (fun ret => ret = LZMA_OK \/ ret = LZMA_STREAM_END))
      with (calls := calls) (c := fresh_coder d) (nx := nx) (ws := @nil Z) (ds := @nil Z)
      as (ret & c' & nx' & ws & ds & E & Hr & _ & E2 & E3); try done.
    + by left.
    + intros c nx1 ws ds o action (Ha & Hw & ->) [Ho _].
      destruct (delta_copy_call next_code d nx c o action ds Ha Ho) as (ret & c' & o' & w & x & -> & Hm & Ha' & Ew & Ex & _ & Hr).
      do 5 eexists. split; [reflexivity |]. split; [apply Ho |]. split; [done |]. split; [done |].
      rewrite <- Ex. split; [done |]. split; [| done]. by rewrite delta_of_app, Hw, Ew.
    + subst nx'. by exists ret, ws, ds.
Qed.


(** The decoder at distance 2, fed with differences, its output taken in
    pieces of 1 and 3 bytes. *)
Definition delta_calls : list (io * lzma_action) :=
  [(MkIo [] 0 [0] 0, LZMA_RUN); (MkIo [] 0 (replicate 3 0) 0, LZMA_FINISH)].

Lemma delta_stream_witness :
  run (delta_decode feed_bytes true) (fresh_coder 2) ([], [10; 20; 3; 255]) delta_calls
    = Some (LZMA_STREAM_END, ([10; 20; 3; 255], []), [10; 20; 13; 19], []) /\
  exists ret nx' ws ds, run (delta_decode feed_bytes true) (fresh_coder 2) ([], [10; 20; 3; 255]) delta_calls = Some (ret, nx', ws, ds) /\
     bytes ws /\ fst nx' = delta_of 2 [] ws.
Proof.
  split; [vm_compute; reflexivity |].
  refine (proj1 (delta_stream feed_bytes fst 2 ([], [10; 20; 3; 255]) delta_calls feed_is_next _ eq_refl _)).
  - lia.
  - unfold delta_calls, call_ok, io_ok, in_size, out_size. repeat constructor; simpl; try discriminate.
Defined.

(** ** The property byte *)
Lemma delta_props_value sz opt : sz <> UINT64_MAX -> lzma_delta_coder_memusage sz (Some opt) <> UINT64_MAX ->
  exists b, lzma_delta_props_encode sz (Some opt) [0] = Some (LZMA_OK, [b]) /\
    lzma_delta_props_decode true [b] 1 = Some (LZMA_OK, Some opt).
Proof.
  intros Hs H. destruct opt as [ty d]. unfold lzma_delta_coder_memusage in H. cbn [opt_type dist] in H.
  destruct (negb (ty =? LZMA_DELTA_TYPE_BYTE) || (d <? LZMA_DELTA_DIST_MIN) || (LZMA_DELTA_DIST_MAX <? d)) eqn:E; [done |].
  apply orb_false_elim in E as [[Et%negb_false_iff%Z.eqb_eq E1%Z.ltb_ge]%orb_false_elim E2%Z.ltb_ge].
  exists (u8 (d - LZMA_DELTA_DIST_MIN)). unfold lzma_delta_props_encode, lzma_delta_coder_memusage. cbn [opt_type dist].
  rewrite Et. rewrite (proj2 (Z.ltb_ge _ _)), (proj2 (Z.ltb_ge _ _)) by done. cbn [Z.eqb negb orb].
  rewrite (proj2 (Z.eqb_neq _ _)) by done. cbn [mbind option_bind]. split; [done |].
  unfold lzma_delta_props_decode. cbn [Z.eqb negb]. simpl. subst ty.
  unfold LZMA_DELTA_DIST_MIN, LZMA_DELTA_DIST_MAX in *. rewrite u8_small by lia. by rewrite Z.sub_add.
Qed.
