(* ===== verification/Simple.v ===== *)
(** * liblzma: branch filters for instructions of fixed layout

    simple/arm.c, simple/armthumb.c, simple/powerpc.c, simple/sparc.c and
    simple/ia64.c: the filters turn the relative target of a branch into an
    absolute one, or back. A filter is called with the position of the buffer
    in the data, converts what it can from the start of the buffer, and answers
    how many bytes are done. A buffer is the list of the [size] bytes the
    filter may touch; [None] is an access outside it. *)

From Stdlib Require Import ZArith Znumtheory Lia.
From stdpp Require Import base list option.
From S2P Require Import Prelude LzmaBase.
Local Open Scope Z_scope.

(** ** The loop of a filter

    [for (i = 0; i + window <= size; i += step) body], where the body may move
    [i] on. *)
Section loop.
  Context (window step : Z) (body : Z -> list Z -> option (list Z * Z)).

Fixpoint filter_loop (fuel : nat) (i : Z) (buffer : list Z) : option (list Z * Z) :=
  match fuel with
  | O => None
  | S fuel =>
      if i + window <=? Z.of_nat (length buffer) then
        '(buffer, i) ← body i buffer;
        filter_loop fuel (i + step) buffer
      else Some (buffer, i)
  end.
End loop.

(** ** arm.c *)
Definition arm_body (now_pos : Z) (is_encoder : bool) (i : Z) (buffer : list Z) : option (list Z * Z) :=
  b3 ← rd buffer (i + 3);
  if b3 =? 0xEB then
    b2 ← rd buffer (i + 2);
    b1 ← rd buffer (i + 1);
    b0 ← rd buffer (i + 0);
    let src := Z.lor (Z.lor (Z.shiftl b2 16) (Z.shiftl b1 8)) b0 in
    let src := u32 (Z.shiftl src 2) in
    let dest := if is_encoder then u32 (now_pos + u32 i + 8 + src) else u32 (src - (now_pos + u32 i + 8)) in
    let dest := Z.shiftr dest 2 in
    buffer ← wr buffer (i + 2) (u8 (Z.shiftr dest 16));
    buffer ← wr buffer (i + 1) (u8 (Z.shiftr dest 8));
    buffer ← wr buffer (i + 0) (u8 dest);
    Some (buffer, i)
  else Some (buffer, i).

Definition arm_code (now_pos : Z) (is_encoder : bool) (buffer : list Z) : option (list Z * Z) :=
  filter_loop 4 4 (arm_body now_pos is_encoder) (S (length buffer)) 0 buffer.

(** ** armthumb.c *)
Definition armthumb_body (now_pos : Z) (is_encoder : bool) (i : Z) (buffer : list Z) : option (list Z * Z) :=
  b1 ← rd buffer (i + 1);
  b3 ← rd buffer (i + 3);
  if (Z.land b1 0xF8 =? 0xF0) && (Z.land b3 0xF8 =? 0xF8) then
    b0 ← rd buffer (i + 0);
    b2 ← rd buffer (i + 2);
    let src := Z.lor (Z.lor (Z.lor (Z.shiftl (Z.land b1 7) 19) (Z.shiftl b0 11)) (Z.shiftl (Z.land b3 7) 8)) b2 in
    let src := u32 (Z.shiftl src 1) in
    let dest := if is_encoder then u32 (now_pos + u32 i + 4 + src) else u32 (src - (now_pos + u32 i + 4)) in
    let dest := Z.shiftr dest 1 in
    buffer ← wr buffer (i + 1) (Z.lor 0xF0 (Z.land (Z.shiftr dest 19) 7));
    buffer ← wr buffer (i + 0) (u8 (Z.shiftr dest 11));
    buffer ← wr buffer (i + 3) (Z.lor 0xF8 (Z.land (Z.shiftr dest 8) 7));
    buffer ← wr buffer (i + 2) (u8 dest);
    Some (buffer, i + 2)
  else Some (buffer, i).

Definition armthumb_code (now_pos : Z) (is_encoder : bool) (buffer : list Z) : option (list Z * Z) :=
  filter_loop 4 2 (armthumb_body now_pos is_encoder) (S (length buffer)) 0 buffer.

(** ** powerpc.c *)
Definition powerpc_body (now_pos : Z) (is_encoder : bool) (i : Z) (buffer : list Z) : option (list Z * Z) :=
  b0 ← rd buffer (i + 0);
  b3 ← rd buffer (i + 3);
  if (Z.shiftr b0 2 =? 0x12) && (Z.land b3 3 =? 1) then
    b1 ← rd buffer (i + 1);
    b2 ← rd buffer (i + 2);
    let src := Z.lor (Z.lor (Z.lor (Z.shiftl (Z.land b0 3) 24) (Z.shiftl b1 16)) (Z.shiftl b2 8)) (Z.land b3 (Z.lnot 3)) in
    let dest := if is_encoder then u32 (now_pos + u32 i + src) else u32 (src - (now_pos + u32 i)) in
    buffer ← wr buffer (i + 0) (Z.lor 0x48 (Z.land (Z.shiftr dest 24) 3));
    buffer ← wr buffer (i + 1) (u8 (Z.shiftr dest 16));
    buffer ← wr buffer (i + 2) (u8 (Z.shiftr dest 8));
    b3 ← rd buffer (i + 3);
    buffer ← wr buffer (i + 3) (Z.land b3 3);
    b3 ← rd buffer (i + 3);
    buffer ← wr buffer (i + 3) (u8 (Z.lor b3 dest));
    Some (buffer, i)
  else Some (buffer, i).

Definition powerpc_code (now_pos : Z) (is_encoder : bool) (buffer : list Z) : option (list Z * Z) :=
  filter_loop 4 4 (powerpc_body now_pos is_encoder) (S (length buffer)) 0 buffer.

(** ** sparc.c *)
Definition sparc_body (now_pos : Z) (is_encoder : bool) (i : Z) (buffer : list Z) : option (list Z * Z) :=
  b0 ← rd buffer i;
  b1 ← rd buffer (i + 1);
  if ((b0 =? 0x40) && (Z.land b1 0xC0 =? 0x00)) || ((b0 =? 0x7F) && (Z.land b1 0xC0 =? 0xC0)) then
    b2 ← rd buffer (i + 2);
    b3 ← rd buffer (i + 3);
    let src := Z.lor (Z.lor (Z.lor (Z.shiftl b0 24) (Z.shiftl b1 16)) (Z.shiftl b2 8)) b3 in
    let src := u32 (Z.shiftl src 2) in
    let dest := if is_encoder then u32 (now_pos + u32 i + src) else u32 (src - (now_pos + u32 i)) in
    let dest := Z.shiftr dest 2 in
    let dest := Z.lor (Z.lor (Z.land (u32 (Z.shiftl (u32 (0 - Z.land (Z.shiftr dest 22) 1)) 22)) 0x3FFFFFFF)
                             (Z.land dest 0x3FFFFF)) 0x40000000 in
    buffer ← wr buffer (i + 0) (u8 (Z.shiftr dest 24));
    buffer ← wr buffer (i + 1) (u8 (Z.shiftr dest 16));
    buffer ← wr buffer (i + 2) (u8 (Z.shiftr dest 8));
    buffer ← wr buffer (i + 3) (u8 dest);
    Some (buffer, i)
  else Some (buffer, i).

Definition sparc_code (now_pos : Z) (is_encoder : bool) (buffer : list Z) : option (list Z * Z) :=
  filter_loop 4 4 (sparc_body now_pos is_encoder) (S (length buffer)) 0 buffer.

(** ** ia64.c *)
Definition BRANCH_TABLE : list Z :=
  [0; 0; 0; 0; 0; 0; 0; 0;
   0; 0; 0; 0; 0; 0; 0; 0;
   4; 4; 6; 6; 0; 0; 7; 7;
   4; 4; 0; 0; 4; 4; 0; 0].

(** The six bytes of an instruction, read and written. *)
Fixpoint ia64_gather (n : nat) (j at_ : Z) (buffer : list Z) (instruction : Z) : option Z :=
  match n with
  | O => Some instruction
  | S n => b ← rd buffer (at_ + j); ia64_gather n (j + 1) at_ buffer (u64 (instruction + u64 (Z.shiftl b (8 * j))))
  end.

Fixpoint ia64_scatter (n : nat) (j at_ instruction : Z) (buffer : list Z) : option (list Z) :=
  match n with
  | O => Some buffer
  | S n => buffer ← wr buffer (at_ + j) (u8 (Z.shiftr instruction (8 * j))); ia64_scatter n (j + 1) at_ instruction buffer
  end.

(** The new instruction, or [None] where it is not a branch to convert. *)
Definition ia64_convert (now_pos : Z) (is_encoder : bool) (i bit_res instruction : Z) : option Z :=
  let inst_norm := Z.shiftr instruction bit_res in
  if (Z.land (Z.shiftr inst_norm 37) 0xF =? 0x5) && (Z.land (Z.shiftr inst_norm 9) 7 =? 0) then
    let src := u32 (Z.land (Z.shiftr inst_norm 13) 0xFFFFF) in
    let src := Z.lor src (u32 (Z.shiftl (Z.land (Z.shiftr inst_norm 36) 1) 20)) in
    let src := u32 (Z.shiftl src 4) in
    let dest := if is_encoder then u32 (now_pos + u32 i + src) else u32 (src - (now_pos + u32 i)) in
    let dest := Z.shiftr dest 4 in
    let inst_norm := Z.land inst_norm (Z.lxor (2 ^ 64 - 1) (u64 (Z.shiftl 0x8FFFFF 13))) in
    let inst_norm := Z.lor inst_norm (u64 (Z.shiftl (Z.land dest 0xFFFFF) 13)) in
    let inst_norm := Z.lor inst_norm (u64 (Z.shiftl (Z.land dest 0x100000) (36 - 20))) in
    let instruction := Z.land instruction (Z.shiftl 1 bit_res - 1) in
    Some (Z.lor instruction (u64 (Z.shiftl inst_norm bit_res)))
  else None.

Fixpoint ia64_slots (n : nat) (slot bit_pos mask now_pos : Z) (is_encoder : bool) (i : Z) (buffer : list Z)
    : option (list Z) :=
  match n with
  | O => Some buffer
  | S n =>
      buffer ←
        (if Z.land (Z.shiftr mask slot) 1 =? 0 then Some buffer
         else
           let byte_pos := Z.shiftr bit_pos 3 in
           let bit_res := Z.land bit_pos 7 in
           instruction ← ia64_gather 6 0 (i + byte_pos) buffer 0;
           match ia64_convert now_pos is_encoder i bit_res instruction with
           | Some instruction => ia64_scatter 6 0 (i + byte_pos) instruction buffer
           | None => Some buffer
           end);
      ia64_slots n (slot + 1) (bit_pos + 41) mask now_pos is_encoder i buffer
  end.

Definition ia64_body (now_pos : Z) (is_encoder : bool) (i : Z) (buffer : list Z) : option (list Z * Z) :=
  b ← rd buffer i;
  mask ← rd BRANCH_TABLE (Z.land b 0x1F);
  buffer ← ia64_slots 3 0 5 mask now_pos is_encoder i buffer;
  Some (buffer, i).

Definition ia64_code (now_pos : Z) (is_encoder : bool) (buffer : list Z) : option (list Z * Z) :=
  filter_loop 16 16 (ia64_body now_pos is_encoder) (S (length buffer)) 0 buffer.

(** [bl] to the next instruction but one, at address 0x100. *)
Example arm_bl :
  arm_code 0x100 true [1; 2; 3; 4; 0; 0; 0; 0xEB; 9; 9] = Some ([1; 2; 3; 4; 0x43; 0; 0; 0xEB; 9; 9], 8)
  /\ arm_code 0x100 false [1; 2; 3; 4; 0x43; 0; 0; 0xEB; 9; 9] = Some ([1; 2; 3; 4; 0; 0; 0; 0xEB; 9; 9], 8).
Proof. vm_compute. done. Qed.

(** ** What a filter does to a window

    [g enc a w] is the new content of the window [w] at the address [a] of the
    data, and how far the body moves on of itself; [Window] says that the body
    is this function and nothing else. *)
Class Window (window step : Z) (body : Z -> bool -> Z -> list Z -> option (list Z * Z))
    (g : bool -> Z -> list Z -> list Z * Z) : Prop := {
  w_step : 0 < step <= window;
  w_length enc a w : Z.of_nat (length w) = window -> length (g enc a w).1 = length w;
  w_extra enc a w : Z.of_nat (length w) = window -> 0 <= (g enc a w).2 <= window - step;
  w_tail enc a w : Z.of_nat (length w) = window ->
    drop (Z.to_nat (step + (g enc a w).2)) (g enc a w).1 = drop (Z.to_nat (step + (g enc a w).2)) w;
  w_bytes enc a w : Z.of_nat (length w) = window -> bytes w -> bytes (g enc a w).1;
  w_body now enc pre w post : Z.of_nat (length w) = window -> bytes w ->
    body now enc (Z.of_nat (length pre)) (pre ++ w ++ post)
    = Some (pre ++ (g enc (u32 (now + Z.of_nat (length pre))) w).1 ++ post,
            Z.of_nat (length pre) + (g enc (u32 (now + Z.of_nat (length pre))) w).2)
}.

Section convert.
  Context (window step : Z) (g : bool -> Z -> list Z -> list Z * Z).

(** The data from the address [a] on: the new bytes and how many are done. *)
Fixpoint convert (fuel : nat) (enc : bool) (a : Z) (l : list Z) : list Z * Z :=
  match fuel with
  | O => (l, 0)
  | S fuel =>
      if window <=? Z.of_nat (length l) then
        let w := g enc a (take (Z.to_nat window) l) in
        let n := step + w.2 in
        let r := convert fuel enc (u32 (a + n)) (drop (Z.to_nat n) l) in
        (take (Z.to_nat n) w.1 ++ r.1, n + r.2)
      else (l, 0)
  end.

Definition converted (enc : bool) (a : Z) (l : list Z) : list Z * Z := convert (length l) enc a l.

  Context {body : Z -> bool -> Z -> list Z -> option (list Z * Z)} {W : Window window step body g}.

Lemma convert_fuel f1 f2 enc a l : (length l <= f1)%nat -> (length l <= f2)%nat ->
  convert f1 enc a l = convert f2 enc a l.
Proof.
  revert f2 a l. induction f1 as [| f1 IH]; intros f2 a l H1 H2.
  - destruct l; [| simpl in H1; lia]. destruct f2; [done |]. cbn. pose proof w_step. by rewrite (proj2 (Z.leb_gt _ _)) by lia.
  - destruct f2 as [| f2].
    + destruct l; [| simpl in H2; lia]. cbn. pose proof w_step. by rewrite (proj2 (Z.leb_gt _ _)) by lia.
    + cbn. destruct (Z.leb_spec window (Z.of_nat (length l))); [| done].
      set (w := g enc a (take (Z.to_nat window) l)). pose proof w_step.
      assert (0 <= w.2 <= window - step) by (apply w_extra; rewrite length_take; lia).
      rewrite (IH f2); [done | |]; rewrite length_drop; lia.
Qed.

Lemma converted_step enc a l : window <= Z.of_nat (length l) ->
  converted enc a l =
    (let w := g enc a (take (Z.to_nat window) l) in
     let n := step + w.2 in
     let r := converted enc (u32 (a + n)) (drop (Z.to_nat n) l) in
     (take (Z.to_nat n) w.1 ++ r.1, n + r.2)).
Proof.
  intros H. unfold converted. pose proof w_step. destruct l as [| x l]; [simpl in H; lia |].
  cbn [length convert]. rewrite (proj2 (Z.leb_le _ _)) by (simpl in *; lia). cbv zeta.
  set (w := g enc a (take (Z.to_nat window) (x :: l))).
  assert (0 <= w.2 <= window - step) by (apply w_extra; rewrite length_take; lia).
  rewrite (convert_fuel (length l) (length (drop (Z.to_nat (step + w.2)) (x :: l)))); [done | |];
    rewrite length_drop; simpl length; lia.
Qed.

Lemma converted_end enc a l : Z.of_nat (length l) < window -> converted enc a l = (l, 0).
Proof. intros H. unfold converted. destruct l; [done |]. cbn [length convert] in *. by rewrite (proj2 (Z.leb_gt _ _)) by lia. Qed.

(** Induction on the data, one window at a time. *)
Lemma window_ind (P : Z -> list Z -> Prop) enc :
  (forall a l, Z.of_nat (length l) < window -> P a l) ->
  (forall a l, window <= Z.of_nat (length l) ->
     let w := g enc a (take (Z.to_nat window) l) in
     P (u32 (a + (step + w.2))) (drop (Z.to_nat (step + w.2)) l) -> P a l) ->
  forall a l, P a l.
Proof.
  intros Hend Hstep a l. remember (length l) as n eqn:Hn. revert a l Hn.
  induction n as [n IH] using (well_founded_induction lt_wf). intros a l ->.
  destruct (Z.lt_ge_cases (Z.of_nat (length l)) window) as [H | H]; [by apply Hend |].
  pose proof w_step. apply Hstep; [done |].
  assert (0 <= (g enc a (take (Z.to_nat window) l)).2 <= window - step) by (apply w_extra; rewrite length_take; lia).
  refine (IH _ _ _ _ eq_refl). rewrite length_drop. lia.
Qed.

Lemma converted_bounds enc a l : bytes l ->
  length (converted enc a l).1 = length l /\ bytes (converted enc a l).1 /\
  0 <= (converted enc a l).2 <= Z.of_nat (length l) /\ Z.of_nat (length l) - (converted enc a l).2 < window /\
  drop (Z.to_nat (converted enc a l).2) (converted enc a l).1 = drop (Z.to_nat (converted enc a l).2) l.
Proof.
  pose proof w_step. revert a l. apply (window_ind (fun a l => bytes l -> _) enc); intros a l H0.
  - intros Hb. rewrite converted_end by done. cbn. repeat split; try done; lia.
  - intros w IH Hb. rewrite converted_step by done. fold w. cbn. 
    assert (Z.of_nat (length (take (Z.to_nat window) l)) = window) as Hw by (rewrite length_take; lia).
    assert (0 <= w.2 <= window - step) as He by (by apply w_extra).
    assert (length w.1 = length (take (Z.to_nat window) l)) as Hlen by (by apply w_length).
    rewrite <- (take_drop (Z.to_nat window) l) in Hb. apply Forall_app in Hb as [Hb1 Hb2].
    assert (bytes (drop (Z.to_nat (step + w.2)) l)) as Hd.
    { rewrite <- (take_drop (Z.to_nat window) l). rewrite drop_app. apply Forall_app.
      split; by apply Forall_drop. }
    destruct (IH Hd) as (I1 & I2 & I3 & I4 & I5). set (r := converted _ _ _) in *.
    rewrite length_drop in I1, I3, I4.
    assert (length (take (Z.to_nat (step + w.2)) w.1) = Z.to_nat (step + w.2)) as Ht by (rewrite length_take; lia).
    split; [rewrite length_app, Ht; lia |].
    split; [apply Forall_app; split; [apply Forall_take; by apply w_bytes | done] |].
    split; [lia |]. split; [lia |].
    rewrite Z2Nat.inj_add by lia. rewrite drop_app_add' by done. by rewrite I5, drop_drop.
Qed.

(** Beyond the bytes that are done, nothing has changed: the loop is the
    conversion of the data at its addresses. *)
Lemma loop_converted now enc pre l : bytes l -> forall fuel, (length l < fuel)%nat ->
  filter_loop window step (body now enc) fuel (Z.of_nat (length pre)) (pre ++ l)
  = Some (pre ++ (converted enc (u32 (now + Z.of_nat (length pre))) l).1,
          Z.of_nat (length pre) + (converted enc (u32 (now + Z.of_nat (length pre))) l).2).
Proof.
  pose proof w_step as Hs. remember (length l) as n eqn:Hn. revert pre l Hn.
  induction n as [n IH] using (well_founded_induction lt_wf). intros pre l -> Hb fuel Hf.
  destruct fuel as [| fuel]; [lia |]. cbn [filter_loop]. rewrite length_app.
  destruct (Z.leb_spec (Z.of_nat (length pre) + window) (Z.of_nat (length pre + length l))) as [H | H].
  - rewrite converted_step by lia. set (a := u32 (now + Z.of_nat (length pre))).
    set (w := g enc a (take (Z.to_nat window) l)). cbv zeta.
    assert (Z.of_nat (length (take (Z.to_nat window) l)) = window) as Hw by (rewrite length_take; lia).
    assert (0 <= w.2 <= window - step) as He by (by apply w_extra).
    assert (length w.1 = length (take (Z.to_nat window) l)) as Hlen by (by apply w_length).
    pose proof Hb as Hb'. rewrite <- (take_drop (Z.to_nat window) l) in Hb'. apply Forall_app in Hb' as [Hb1 Hb2].
    rewrite <- (take_drop (Z.to_nat window) l) at 1. rewrite w_body by done. fold a w. cbn [mbind option_bind].
    set (k := Z.to_nat (step + w.2)).
    assert (w.1 ++ drop (Z.to_nat window) l = take k w.1 ++ drop k l) as ->.
    { rewrite <- (take_drop k w.1) at 1. rewrite <- app_assoc. f_equal.
      assert (drop k w.1 = drop k (take (Z.to_nat window) l)) as -> by (by apply w_tail).
      rewrite <- (take_drop (Z.to_nat window) l) at 3. rewrite drop_app_le; [done |]. lia. }
    assert (length (take k w.1) = k) as Ht by (rewrite length_take; lia).
    rewrite app_assoc. replace (Z.of_nat (length pre) + w.2 + step) with (Z.of_nat (length (pre ++ take k w.1)))
      by (rewrite length_app; lia).
    rewrite (IH (length (drop k l))); [| rewrite length_drop; lia | done | | rewrite length_drop; lia].
    + rewrite length_app, Ht, <- app_assoc. 
      assert (u32 (now + Z.of_nat (length pre + k)) = u32 (a + (step + w.2))) as ->.
      { unfold a, u32, wrap. rewrite Z.add_mod_idemp_l by done. f_equal. lia. }
      fold k. cbn. do 2 f_equal. lia.
    + by apply Forall_drop.
  - rewrite converted_end by lia. cbn. by rewrite Z.add_0_r.
Qed.
End convert.

(** Accesses within a window. *)
Ltac window_rd :=
  match goal with |- context [rd (?pre ++ ?w ++ ?post) (Z.of_nat (length ?pre) + ?k)] =>
    let n := eval compute in (Z.to_nat k) in
    let b := eval cbn [lookup list_lookup] in (w !! n) in
    match b with Some ?v => rewrite (rd_offset pre w post _ k v) by (reflexivity || lia) end;
    cbn [mbind option_bind]
  end.

Ltac window_wr :=
  match goal with |- context [wr (?pre ++ ?w ++ ?post) (Z.of_nat (length ?pre) + ?k) _] =>
    rewrite (wr_offset pre w post _ k) by (simpl; lia || reflexivity);
    let n := eval compute in (Z.to_nat k) in change (Z.to_nat k) with n;
    cbn [mbind option_bind insert list_insert]
  end.

Lemma u8_byte x : is_byte (u8 x).
Proof. apply u8_range. Qed.

Lemma bytes_4 b0 b1 b2 b3 : bytes [b0; b1; b2; b3] <-> is_byte b0 /\ is_byte b1 /\ is_byte b2 /\ is_byte b3.
Proof.
  unfold bytes. rewrite !list.Forall_cons, list.Forall_nil. tauto.
Qed.

(** A word of four bytes in the window. *)
Lemma window_4 (w : list Z) : Z.of_nat (length w) = 4 -> exists b0 b1 b2 b3, w = [b0; b1; b2; b3].
Proof.
  intros H. destruct w as [| b0 [| b1 [| b2 [| b3 [|]]]]]; simpl in H; try lia. by exists b0, b1, b2, b3.
Qed.

(** The target in the encoder and in the decoder, from the address of the window. *)
Definition target (enc : bool) (a src : Z) : Z := if enc then u32 (a + src) else u32 (src - a).

Lemma target_addr (enc : bool) now i c src :
  (if enc then u32 (now + u32 i + c + src) else u32 (src - (now + u32 i + c))) = target enc (u32 (now + i) + c) src.
Proof.
  unfold target, u32, wrap.
  destruct enc.
  - rewrite <- (Z.add_assoc (now + _) c), <- (Z.add_assoc _ c src).
    rewrite (Z.add_mod_idemp_l (now + i)) by done. rewrite <- Z.add_mod_idemp_l by done.
    rewrite Z.add_mod_idemp_r by done. by rewrite Z.add_mod_idemp_l by done.
  - replace (src - (now + i mod 2 ^ 32 + c)) with (src - c - now - i mod 2 ^ 32) by lia.
    replace (src - ((now + i) mod 2 ^ 32 + c)) with (src - c - (now + i) mod 2 ^ 32) by lia.
    rewrite !Zminus_mod_idemp_r. f_equal. lia.
Qed.

Definition arm_window (enc : bool) (a : Z) (w : list Z) : list Z * Z :=
  match w with
  | [b0; b1; b2; b3] =>
      if b3 =? 0xEB then
        let src := u32 (Z.shiftl (Z.lor (Z.lor (Z.shiftl b2 16) (Z.shiftl b1 8)) b0) 2) in
        let dest := Z.shiftr (target enc (a + 8) src) 2 in
        ([u8 dest; u8 (Z.shiftr dest 8); u8 (Z.shiftr dest 16); b3], 0)
      else (w, 0)
  | _ => (w, 0)
  end.

#[export] Instance arm_is_window : Window 4 4 arm_body arm_window.
Proof.
  split.
  - lia.
  - intros enc a w (b0 & b1 & b2 & b3 & ->)%window_4. cbn. by destruct (b3 =? 0xEB).
  - intros enc a w (b0 & b1 & b2 & b3 & ->)%window_4. cbn. destruct (b3 =? 0xEB); cbn; lia.
  - intros enc a w (b0 & b1 & b2 & b3 & ->)%window_4. cbn. by destruct (b3 =? 0xEB).
  - intros enc a w (b0 & b1 & b2 & b3 & ->)%window_4 Hb. cbn. destruct (b3 =? 0xEB); [| done].
    apply bytes_4. apply bytes_4 in Hb as (_ & _ & _ & H3). auto using u8_byte.
  - intros now enc pre w post (b0 & b1 & b2 & b3 & ->)%window_4 _. unfold arm_body, arm_window.
    repeat window_rd. cbv zeta. rewrite target_addr.
    destruct (b3 =? 0xEB); cbn [fst snd]; repeat window_wr; by rewrite Z.add_0_r.
Qed.

Lemma target_addr0 (enc : bool) now i src :
  (if enc then u32 (now + u32 i + src) else u32 (src - (now + u32 i))) = target enc (u32 (now + i)) src.
Proof. rewrite <- (Z.add_0_r (now + u32 i)), target_addr. by rewrite Z.add_0_r. Qed.

Definition powerpc_window (enc : bool) (a : Z) (w : list Z) : list Z * Z :=
  match w with
  | [b0; b1; b2; b3] =>
      if (Z.shiftr b0 2 =? 0x12) && (Z.land b3 3 =? 1) then
        let src := Z.lor (Z.lor (Z.lor (Z.shiftl (Z.land b0 3) 24) (Z.shiftl b1 16)) (Z.shiftl b2 8)) (Z.land b3 (Z.lnot 3)) in
        let dest := target enc a src in
        ([Z.lor 0x48 (Z.land (Z.shiftr dest 24) 3); u8 (Z.shiftr dest 16); u8 (Z.shiftr dest 8); u8 (Z.lor (Z.land b3 3) dest)], 0)
      else (w, 0)
  | _ => (w, 0)
  end.

(** A flag and a field of [n] bits are a byte. *)
Lemma lor_field c x n : 0 <= n <= 8 -> 0 <= c < 256 -> is_byte (Z.lor c (Z.land x (Z.ones n))).
Proof.
  intros Hn Hc. rewrite Z.land_ones by lia. unfold is_byte. change 256 with (2 ^ 8) in *.
  pose proof (Z.mod_pos_bound x (2 ^ n)). pose proof (Z.pow_le_mono_r 2 n 8).
  split; [apply Z.lor_nonneg; lia |].
  destruct (Z.eq_dec (Z.lor c (x mod 2 ^ n)) 0) as [-> |]; [done |].
  apply Z.log2_lt_pow2; [pose proof (Z.lor_nonneg c (x mod 2 ^ n)); lia |].
  rewrite Z.log2_lor by lia. apply Z.max_lub_lt; [destruct (Z.eq_dec c 0) | destruct (Z.eq_dec (x mod 2 ^ n) 0)].
  all: try (apply Z.log2_lt_pow2; lia).
  all: match goal with H : _ = 0 |- _ => rewrite H; done end.
Qed.

#[export] Instance powerpc_is_window : Window 4 4 powerpc_body powerpc_window.
Proof.
  split.
  - lia.
  - intros enc a w (b0 & b1 & b2 & b3 & ->)%window_4. cbn. by case_match.
  - intros enc a w (b0 & b1 & b2 & b3 & ->)%window_4. cbn. case_match; cbn; lia.
  - intros enc a w (b0 & b1 & b2 & b3 & ->)%window_4. cbn. by case_match.
  - intros enc a w (b0 & b1 & b2 & b3 & ->)%window_4 Hb. cbn. case_match; [| done].
    apply bytes_4. split_and!; auto using u8_byte. by apply (lor_field _ _ 2).
  - intros now enc pre w post (b0 & b1 & b2 & b3 & ->)%window_4 _. unfold powerpc_body, powerpc_window.
    repeat window_rd. cbv zeta. rewrite target_addr0.
    destruct ((Z.shiftr b0 2 =? 0x12) && (Z.land b3 3 =? 1)); cbn [fst snd]; repeat (window_wr || window_rd);
      by rewrite Z.add_0_r.
Qed.

Definition sparc_window (enc : bool) (a : Z) (w : list Z) : list Z * Z :=
  match w with
  | [b0; b1; b2; b3] =>
      if ((b0 =? 0x40) && (Z.land b1 0xC0 =? 0x00)) || ((b0 =? 0x7F) && (Z.land b1 0xC0 =? 0xC0)) then
        let src := u32 (Z.shiftl (Z.lor (Z.lor (Z.lor (Z.shiftl b0 24) (Z.shiftl b1 16)) (Z.shiftl b2 8)) b3) 2) in
        let dest := Z.shiftr (target enc a src) 2 in
        let dest := Z.lor (Z.lor (Z.land (u32 (Z.shiftl (u32 (0 - Z.land (Z.shiftr dest 22) 1)) 22)) 0x3FFFFFFF)
                                 (Z.land dest 0x3FFFFF)) 0x40000000 in
        ([u8 (Z.shiftr dest 24); u8 (Z.shiftr dest 16); u8 (Z.shiftr dest 8); u8 dest], 0)
      else (w, 0)
  | _ => (w, 0)
  end.

#[export] Instance sparc_is_window : Window 4 4 sparc_body sparc_window.
Proof.
  split.
  - lia.
  - intros enc a w (b0 & b1 & b2 & b3 & ->)%window_4. cbn. by case_match.
  - intros enc a w (b0 & b1 & b2 & b3 & ->)%window_4. cbn. case_match; cbn; lia.
  - intros enc a w (b0 & b1 & b2 & b3 & ->)%window_4. cbn. by case_match.
  - intros enc a w (b0 & b1 & b2 & b3 & ->)%window_4 Hb. cbn. case_match; [| done].
    apply bytes_4. auto using u8_byte.
  - intros now enc pre w post (b0 & b1 & b2 & b3 & ->)%window_4 _. unfold sparc_body, sparc_window.
    rewrite <- (Z.add_0_r (Z.of_nat (length pre))) at 1. repeat window_rd. cbv zeta. rewrite target_addr0.
    case_match; cbn [fst snd]; repeat (window_wr || window_rd); by rewrite Z.add_0_r.
Qed.

Definition armthumb_window (enc : bool) (a : Z) (w : list Z) : list Z * Z :=
  match w with
  | [b0; b1; b2; b3] =>
      if (Z.land b1 0xF8 =? 0xF0) && (Z.land b3 0xF8 =? 0xF8) then
        let src := Z.lor (Z.lor (Z.lor (Z.shiftl (Z.land b1 7) 19) (Z.shiftl b0 11)) (Z.shiftl (Z.land b3 7) 8)) b2 in
        let dest := Z.shiftr (target enc (a + 4) (u32 (Z.shiftl src 1))) 1 in
        ([u8 (Z.shiftr dest 11); Z.lor 0xF0 (Z.land (Z.shiftr dest 19) 7); u8 dest; Z.lor 0xF8 (Z.land (Z.shiftr dest 8) 7)], 2)
      else (w, 0)
  | _ => (w, 0)
  end.

#[export] Instance armthumb_is_window : Window 4 2 armthumb_body armthumb_window.
Proof.
  split.
  - lia.
  - intros enc a w (b0 & b1 & b2 & b3 & ->)%window_4. cbn. by case_match.
  - intros enc a w (b0 & b1 & b2 & b3 & ->)%window_4. cbn. case_match; cbn; lia.
  - intros enc a w (b0 & b1 & b2 & b3 & ->)%window_4. cbn. by case_match.
  - intros enc a w (b0 & b1 & b2 & b3 & ->)%window_4 Hb. cbn. case_match; [| done].
    apply bytes_4. split_and!; auto using u8_byte; by apply (lor_field _ _ 3).
  - intros now enc pre w post (b0 & b1 & b2 & b3 & ->)%window_4 _. unfold armthumb_body, armthumb_window.
    repeat window_rd. cbv zeta. rewrite target_addr.
    case_match; cbn [fst snd]; repeat (window_wr || window_rd); rewrite ?Z.add_0_r; done.
Qed.

(** ** Decoding undoes encoding, window by window *)
Lemma join_be24 b2 b1 b0 : is_byte b0 -> is_byte b1 -> is_byte b2 ->
  Z.lor (Z.lor (Z.shiftl b2 16) (Z.shiftl b1 8)) b0 = b2 * 2 ^ 16 + b1 * 2 ^ 8 + b0.
Proof.
  unfold is_byte. intros H0 H1 H2. rewrite <- Z.lor_assoc, (lor_shiftl_add' b0 b1 8) by lia.
  rewrite lor_shiftl_add' by lia. lia.
Qed.

Lemma split_24 d b0 b1 b2 : is_byte b0 -> is_byte b1 -> is_byte b2 ->
  d mod 2 ^ 24 = b2 * 2 ^ 16 + b1 * 2 ^ 8 + b0 -> u8 d = b0 /\ u8 (Z.shiftr d 8) = b1 /\ u8 (Z.shiftr d 16) = b2.
Proof.
  unfold is_byte, u8, wrap. intros. rewrite !Z.shiftr_div_pow2 by lia.
  change (2 ^ 8) with 256 in *. change (2 ^ 16) with 65536 in *. change (2 ^ 24) with 16777216 in *.
  Z.to_euclidean_division_equations. lia.
Qed.

Lemma split_join_24 d : u8 (Z.shiftr d 16) * 2 ^ 16 + u8 (Z.shiftr d 8) * 2 ^ 8 + u8 d = d mod 2 ^ 24.
Proof.
  unfold u8, wrap. rewrite !Z.shiftr_div_pow2 by lia.
  change (2 ^ 8) with 256 in *. change (2 ^ 16) with 65536 in *. change (2 ^ 24) with 16777216 in *.
  Z.to_euclidean_division_equations. lia.
Qed.

(** A target in units of [2^k] bytes of which the [n] low bits are kept. *)
Lemma target_low k n a v u : 0 <= k -> 0 <= n -> n + k <= 32 -> a mod 2 ^ k = 0 ->
  u mod 2 ^ n = Z.shiftr (target true a (2 ^ k * v)) k mod 2 ^ n ->
  Z.shiftr (target false a (2 ^ k * u)) k mod 2 ^ n = v mod 2 ^ n.
Proof.
  intros Hk Hn Hnk Ha. unfold target, u32, wrap.
  pose proof (Z.pow_pos_nonneg 2 k ltac:(lia) Hk). pose proof (Z.pow_pos_nonneg 2 n ltac:(lia) Hn).
  assert (forall x, Z.shiftr ((2 ^ k * x) mod 2 ^ 32) k mod 2 ^ n = x mod 2 ^ n) as cut.
  { intros x. rewrite Z.shiftr_div_pow2 by done.
    assert (2 ^ 32 = 2 ^ k * 2 ^ (32 - k)) as -> by (rewrite <- Z.pow_add_r by lia; f_equal; lia).
    pose proof (Z.pow_pos_nonneg 2 (32 - k) ltac:(lia) ltac:(lia)).
    rewrite Z.mul_mod_distr_l by lia. rewrite Z.mul_comm, Z.div_mul by lia.
    symmetry. apply Znumtheory.Zmod_div_mod; [done | done |].
    exists (2 ^ (32 - k - n)). rewrite <- Z.pow_add_r by lia. f_equal. lia. }
  pose proof (Z.div_mod a (2 ^ k) ltac:(lia)) as Hq. rewrite Ha, Z.add_0_r in Hq.
  rewrite Hq. set (q := a / 2 ^ k). rewrite <- Z.mul_add_distr_l, cut, <- Z.mul_sub_distr_l, cut.
  intros Hu. rewrite <- Zminus_mod_idemp_l, Hu, Zminus_mod_idemp_l. f_equal. lia.
Qed.

Lemma target_units k n a v : 0 <= k -> 0 <= n -> n + k <= 32 -> a mod 2 ^ k = 0 -> 0 <= v < 2 ^ n ->
  Z.shiftr (target false a (2 ^ k * (Z.shiftr (target true a (2 ^ k * v)) k mod 2 ^ n))) k mod 2 ^ n = v.
Proof.
  intros Hk Hn Hnk Ha Hv. rewrite (target_low k n a v) by (done || by rewrite Z.mod_mod by lia).
  by apply Z.mod_small.
Qed.

Lemma arm_window_roundtrip a w : a mod 4 = 0 -> Z.of_nat (length w) = 4 -> bytes w ->
  arm_window false a (arm_window true a w).1 = (w, 0).
Proof.
  intros Ha (b0 & b1 & b2 & b3 & ->)%window_4 (H0 & H1 & H2 & _)%bytes_4. cbn -[target u8 u32].
  destruct (b3 =? 0xEB) eqn:E; cbn -[target u8 u32]; rewrite E; [| done].
  rewrite !join_be24 by auto using u8_byte. rewrite split_join_24.
  set (v := b2 * 2 ^ 16 + b1 * 2 ^ 8 + b0).
  assert (0 <= v < 2 ^ 24) as Hv by (unfold v, is_byte in *; lia).
  assert (forall x, 0 <= x < 2 ^ 24 -> u32 (Z.shiftl x 2) = 2 ^ 2 * x) as Hs.
  { intros x Hx. rewrite Z.shiftl_mul_pow2 by done. rewrite u32_small by lia. lia. }
  rewrite (Hs v) by done. rewrite Hs by (apply Z.mod_pos_bound; lia).
  assert ((a + 8) mod 2 ^ 2 = 0) as Ha8 by (rewrite <- Z.add_mod_idemp_l by done; change (2 ^ 2) with 4; by rewrite Ha).
  pose proof (target_units 2 24 (a + 8) v ltac:(lia) ltac:(lia) ltac:(lia) Ha8 Hv) as Ht.
  set (d := Z.shiftr (target false _ _) 2) in *.
  destruct (split_24 d b0 b1 b2) as (-> & -> & ->); done.
Qed.

(** Like [lor_shiftl_add] for a constant whose low bits are clear. *)
Lemma lor_low c x n : 0 <= n -> c mod 2 ^ n = 0 -> Z.lor c (Z.land x (Z.ones n)) = c + x mod 2 ^ n.
Proof.
  intros Hn Hc. rewrite Z.land_ones by done. pose proof (Z.mod_pos_bound x (2 ^ n) ltac:(apply Z.pow_pos_nonneg; lia)).
  pose proof (Z.div_mod c (2 ^ n) ltac:(pose proof (Z.pow_pos_nonneg 2 n); lia)) as E. rewrite Hc, Z.add_0_r, Z.mul_comm in E.
  rewrite E. rewrite <- Z.shiftl_mul_pow2 by done. by rewrite lor_shiftl_add', Z.shiftl_mul_pow2 by done.
Qed.

Lemma target_aligned enc k a v : 0 <= k <= 32 -> a mod 2 ^ k = 0 -> target enc a (2 ^ k * v) = 2 ^ k * Z.shiftr (target enc a (2 ^ k * v)) k.
Proof.
  intros Hk Ha. rewrite Z.shiftr_div_pow2 by lia. pose proof (Z.pow_pos_nonneg 2 k ltac:(lia) ltac:(lia)).
  apply Z.div_exact; [lia |]. unfold target, u32, wrap.
  assert (forall x, x mod 2 ^ k = 0 -> (x mod 2 ^ 32) mod 2 ^ k = 0) as H0.
  { intros x Hx. rewrite <- Zmod_div_mod; [done | done | done |]. exists (2 ^ (32 - k)). rewrite <- Z.pow_add_r by lia. f_equal. lia. }
  destruct enc; apply H0.
  - rewrite <- Z.add_mod_idemp_l, Ha by lia. rewrite Z.add_0_l, Z.mul_comm. apply Z.mod_mul. lia.
  - rewrite Zminus_mod, Ha, Z.mul_comm, Z.mod_mul by lia. by apply Z.mod_0_l; lia.
Qed.

(** The displacement field of a PowerPC branch, in words. *)
Definition powerpc_field (b0 b1 b2 b3 : Z) : Z := (b0 - 0x48) * 2 ^ 22 + b1 * 2 ^ 14 + b2 * 2 ^ 6 + b3 / 4.

Lemma powerpc_source b0 b1 b2 b3 : 0x48 <= b0 < 0x4C -> is_byte b1 -> is_byte b2 -> is_byte b3 ->
  Z.lor (Z.lor (Z.lor (Z.shiftl (Z.land b0 3) 24) (Z.shiftl b1 16)) (Z.shiftl b2 8)) (Z.land b3 (Z.lnot 3))
  = 2 ^ 2 * powerpc_field b0 b1 b2 b3.
Proof.
  unfold is_byte. intros H0 H1 H2 H3. rewrite <- Z.ldiff_land. change 3 with (Z.ones 2). rewrite Z.ldiff_ones_r by lia.
  rewrite Z.land_ones, (Z.shiftl_mul_pow2 (Z.shiftr b3 2)), Z.shiftr_div_pow2 by lia.
  assert (b0 mod 2 ^ 2 = b0 - 0x48) as -> by (change (2 ^ 2) with 4; Z.to_euclidean_division_equations; lia).
  change (2 ^ 2) with 4. assert (0 <= b3 / 4 * 4 < 256) by (Z.to_euclidean_division_equations; lia).
  rewrite <- !Z.lor_assoc, (lor_shiftl_add' _ b2 8), (lor_shiftl_add' _ b1 16), lor_shiftl_add' by lia.
  unfold powerpc_field. lia.
Qed.

(** The bytes of a branch whose field has the low 24 bits of [d]. *)
Lemma powerpc_bytes d b0 b1 b2 b3 : 0x48 <= b0 < 0x4C -> is_byte b1 -> is_byte b2 -> is_byte b3 -> b3 mod 4 = 1 ->
  d mod 2 ^ 24 = powerpc_field b0 b1 b2 b3 ->
  [Z.lor 0x48 (Z.land (Z.shiftr (2 ^ 2 * d) 24) 3); u8 (Z.shiftr (2 ^ 2 * d) 16); u8 (Z.shiftr (2 ^ 2 * d) 8); u8 (Z.lor 1 (2 ^ 2 * d))]
  = [b0; b1; b2; b3].
Proof.
  unfold powerpc_field, is_byte. intros H0 H1 H2 H3 E3 E.
  rewrite (lor_low 0x48 _ 2) by done. 
  assert (Z.lor 1 (2 ^ 2 * d) = 1 + d * 2 ^ 2) as ->
    by (rewrite <- (lor_shiftl_add 1 d 2), Z.shiftl_mul_pow2 by lia; f_equal; lia).
  rewrite !Z.shiftr_div_pow2 by lia. unfold u8, wrap.
  change (2 ^ 2) with 4 in *. change (2 ^ 6) with 64 in *. change (2 ^ 8) with 256 in *. change (2 ^ 14) with 16384 in *.
  change (2 ^ 16) with 65536 in *. change (2 ^ 22) with 4194304 in *. change (2 ^ 24) with 16777216 in *.
  f_equal; [| f_equal; [| f_equal; [| f_equal]]]; Z.to_euclidean_division_equations; lia.
Qed.

Lemma powerpc_window_roundtrip a w : a mod 4 = 0 -> Z.of_nat (length w) = 4 -> bytes w ->
  powerpc_window false a (powerpc_window true a w).1 = (w, 0).
Proof.
  intros Ha (b0 & b1 & b2 & b3 & ->)%window_4 (H0 & H1 & H2 & H3)%bytes_4. cbn [powerpc_window].
  destruct ((Z.shiftr b0 2 =? 0x12) && (Z.land b3 3 =? 1)) eqn:E; cbn [fst powerpc_window]; [| by rewrite E].
  apply andb_prop in E as [E0%Z.eqb_eq E3%Z.eqb_eq]. rewrite E3.
  change 3 with (Z.ones 2) in E3. rewrite Z.land_ones in E3 by lia. rewrite Z.shiftr_div_pow2 in E0 by lia.
  assert (0x48 <= b0 < 0x4C) as Hb0 by (change (2 ^ 2) with 4 in E0; Z.to_euclidean_division_equations; lia).
  rewrite powerpc_source by done. set (v := powerpc_field b0 b1 b2 b3).
  assert (0 <= v < 2 ^ 24) as Hv.
  { unfold v, powerpc_field, is_byte in *. change (2 ^ 24) with 16777216. Z.to_euclidean_division_equations. lia. }
  rewrite (target_aligned true 2 a v) by done. set (d := Z.shiftr (target true a (2 ^ 2 * v)) 2).
  (* the encoded bytes are those of the field d *)
  set (c0 := 0x48 + (d / 2 ^ 22) mod 4). set (c1 := (d / 2 ^ 14) mod 256). set (c2 := (d / 2 ^ 6) mod 256).
  set (c3 := 4 * (d mod 64) + 1).
  assert (0x48 <= c0 < 0x4C) as Hc0 by (unfold c0; pose proof (Z.mod_pos_bound (d / 2 ^ 22) 4); lia).
  assert (is_byte c1) as Hc1 by (by apply Z.mod_pos_bound). assert (is_byte c2) as Hc2 by (by apply Z.mod_pos_bound).
  assert (is_byte c3) as Hc3 by (unfold c3, is_byte; pose proof (Z.mod_pos_bound d 64); lia).
  assert (c3 mod 4 = 1) as Hm by (unfold c3; rewrite Z.add_comm, Z.mul_comm, Z.mod_add by done; done).
  assert (d mod 2 ^ 24 = powerpc_field c0 c1 c2 c3) as Hd.
  { unfold powerpc_field, c0, c1, c2, c3. change (2 ^ 22) with 4194304. change (2 ^ 14) with 16384. change (2 ^ 6) with 64.
    change (2 ^ 24) with 16777216. Z.to_euclidean_division_equations. lia. }
  pose proof (powerpc_bytes d c0 c1 c2 c3 Hc0 Hc1 Hc2 Hc3 Hm Hd) as [= -> -> -> ->].
  assert (Z.land c3 3 = 1) as -> by (change 3 with (Z.ones 2); by rewrite Z.land_ones).
  assert (Z.shiftr c0 2 = 0x12) as -> by (rewrite Z.shiftr_div_pow2 by done; change (2 ^ 2) with 4;
    Z.to_euclidean_division_equations; lia).
  cbn [Z.eqb Pos.eqb andb].
  rewrite powerpc_source by done. rewrite <- Hd.
  rewrite (target_aligned false 2 a) by done.
  f_equal. apply powerpc_bytes; try done. by apply target_units.
Qed.

(** The instruction word of a SPARC call with the 23-bit displacement [f]. *)
Definition sparc_word (f : Z) : Z := if f <? 2 ^ 22 then 2 ^ 30 + f else 2 ^ 31 - 2 ^ 23 + f.

Lemma sparc_sign_extend d : 
  Z.lor (Z.lor (Z.land (u32 (Z.shiftl (u32 (0 - Z.land (Z.shiftr d 22) 1)) 22)) 0x3FFFFFFF) (Z.land d 0x3FFFFF)) 0x40000000
  = sparc_word (d mod 2 ^ 23).
Proof.
  change (Z.land (Z.shiftr d 22) 1) with (Z.land (Z.shiftr d 22) (Z.ones 1)). change 0x3FFFFF with (Z.ones 22).
  change 0x40000000 with (Z.shiftl 1 30). rewrite (Z.land_ones (Z.shiftr d 22)), Z.shiftr_div_pow2 by lia.
  assert (forall c, 0 <= c -> c mod 2 ^ 22 = 0 -> c + 2 ^ 22 <= 2 ^ 30 ->
    Z.lor (Z.lor c (Z.land d (Z.ones 22))) (Z.shiftl 1 30) = c + d mod 2 ^ 22 + 2 ^ 30) as H.
  { intros c H0 Hc Hc2. rewrite lor_low by lia. pose proof (Z.mod_pos_bound d (2 ^ 22) ltac:(lia)).
    rewrite lor_shiftl_add by lia. lia. }
  unfold sparc_word. change (2 ^ 1) with 2. change (2 ^ 22) with 4194304 in *. change (2 ^ 23) with 8388608.
  pose proof (Z.mod_pos_bound (d / 4194304) 2 ltac:(lia)) as Hb.
  assert (d mod 8388608 = (d / 4194304) mod 2 * 4194304 + d mod 4194304) as -> by (Z.to_euclidean_division_equations; lia).
  pose proof (Z.mod_pos_bound d 4194304 ltac:(lia)).
  assert ((d / 4194304) mod 2 = 0 \/ (d / 4194304) mod 2 = 1) as [-> | ->] by lia.
  - change (Z.land (u32 (Z.shiftl (u32 (0 - 0)) 22)) 0x3FFFFFFF) with 0. rewrite H by done.
    rewrite (proj2 (Z.ltb_lt _ _)) by lia. lia.
  - change (Z.land (u32 (Z.shiftl (u32 (0 - 1)) 22)) 0x3FFFFFFF) with 0x3FC00000. rewrite H by done.
    rewrite (proj2 (Z.ltb_ge _ _)) by lia. change (2 ^ 31) with (2 ^ 30 + 1073741824). lia.
Qed.

Lemma join_be32 b0 b1 b2 b3 : is_byte b0 -> is_byte b1 -> is_byte b2 -> is_byte b3 ->
  Z.lor (Z.lor (Z.lor (Z.shiftl b0 24) (Z.shiftl b1 16)) (Z.shiftl b2 8)) b3
  = b0 * 2 ^ 24 + b1 * 2 ^ 16 + b2 * 2 ^ 8 + b3.
Proof.
  unfold is_byte. intros. rewrite <- !Z.lor_assoc, (lor_shiftl_add' b3 b2 8), (lor_shiftl_add' _ b1 16), lor_shiftl_add' by lia.
  lia.
Qed.

Lemma split_join_be32 x : 0 <= x < 2 ^ 32 ->
  u8 (Z.shiftr x 24) * 2 ^ 24 + u8 (Z.shiftr x 16) * 2 ^ 16 + u8 (Z.shiftr x 8) * 2 ^ 8 + u8 x = x.
Proof. intros Hx. rewrite <- (le32_value x) at 5 by done. lia. Qed.

Lemma split_be32 x b0 b1 b2 b3 : is_byte b0 -> is_byte b1 -> is_byte b2 -> is_byte b3 ->
  x = b0 * 2 ^ 24 + b1 * 2 ^ 16 + b2 * 2 ^ 8 + b3 ->
  [u8 (Z.shiftr x 24); u8 (Z.shiftr x 16); u8 (Z.shiftr x 8); u8 x] = [b0; b1; b2; b3].
Proof.
  unfold is_byte, u8, wrap. intros H0 H1 H2 H3 ->. rewrite !Z.shiftr_div_pow2 by lia.
  change (2 ^ 8) with 256. change (2 ^ 16) with 65536. change (2 ^ 24) with 16777216.
  f_equal; [| f_equal; [| f_equal; [| f_equal]]]; Z.to_euclidean_division_equations; lia.
Qed.

(** The words the filter takes for calls are the [sparc_word]s. *)
Definition sparc_test (b0 b1 : Z) : bool :=
  ((b0 =? 0x40) && (Z.land b1 0xC0 =? 0x00)) || ((b0 =? 0x7F) && (Z.land b1 0xC0 =? 0xC0)).

Lemma sparc_test_word b0 b1 b2 b3 : is_byte b0 -> is_byte b1 -> is_byte b2 -> is_byte b3 ->
  let x := b0 * 2 ^ 24 + b1 * 2 ^ 16 + b2 * 2 ^ 8 + b3 in
  sparc_test b0 b1 = true <-> x = sparc_word (x mod 2 ^ 23).
Proof.
  intros H0 H1 H2 H3 x. unfold sparc_test.
  assert (Z.land b1 0xC0 = b1 / 64 * 64) as ->.
  { assert (0 <= b1 / 64 < 4) by (unfold is_byte in H1; Z.to_euclidean_division_equations; lia).
    change 0xC0 with (Z.ldiff 0xFF (Z.ones 6)). rewrite Z.ldiff_land, Z.land_assoc, <- Z.ldiff_land, Z.ldiff_ones_r by lia.
    change 0xFF with (Z.ones 8). rewrite Z.land_ones, Z.mod_small, Z.shiftr_div_pow2, Z.shiftl_mul_pow2 by (unfold is_byte in *; lia).
    done. }
  rewrite orb_true_iff, !andb_true_iff, !Z.eqb_eq. unfold sparc_word, x, is_byte in *.
  change (2 ^ 8) with 256 in *. change (2 ^ 16) with 65536. change (2 ^ 24) with 16777216. change (2 ^ 23) with 8388608.
  change (2 ^ 22) with 4194304. change (2 ^ 30) with 1073741824. change (2 ^ 31) with 2147483648.
  destruct (Z.ltb_spec ((b0 * 16777216 + b1 * 65536 + b2 * 256 + b3) mod 8388608) 4194304) as [Hlt | Hlt];
    revert Hlt; Z.to_euclidean_division_equations; lia.
Qed.

Lemma sparc_word_mod f : 0 <= f < 2 ^ 23 -> sparc_word f mod 2 ^ 23 = f /\ 0 <= sparc_word f < 2 ^ 32.
Proof.
  intros Hf. unfold sparc_word. change (2 ^ 22) with 4194304. change (2 ^ 23) with 8388608 in *.
  change (2 ^ 30) with 1073741824. change (2 ^ 31) with 2147483648. change (2 ^ 32) with 4294967296.
  destruct (Z.ltb_spec f 4194304); Z.to_euclidean_division_equations; lia.
Qed.

Lemma target_u32 enc a x : target enc a (u32 x) = target enc a x.
Proof. unfold target, u32, wrap. destruct enc; [by rewrite Z.add_mod_idemp_r | by rewrite Zminus_mod_idemp_l]. Qed.

Lemma sparc_window_roundtrip a w : a mod 4 = 0 -> Z.of_nat (length w) = 4 -> bytes w ->
  sparc_window false a (sparc_window true a w).1 = (w, 0).
Proof.
  intros Ha (b0 & b1 & b2 & b3 & ->)%window_4 (H0 & H1 & H2 & H3)%bytes_4. unfold sparc_window at 2. fold (sparc_test b0 b1).
  destruct (sparc_test b0 b1) eqn:E; cbv zeta; cbn [fst]; [| unfold sparc_window; fold (sparc_test b0 b1); by rewrite E].
  rewrite join_be32, sparc_sign_extend, target_u32, Z.shiftl_mul_pow2, (Z.mul_comm _ (2 ^ 2)) by done.
  apply (sparc_test_word b0 b1 b2 b3) in E; try done. set (x := b0 * 2 ^ 24 + b1 * 2 ^ 16 + b2 * 2 ^ 8 + b3) in *.
  set (d := Z.shiftr (target true a (2 ^ 2 * x)) 2). set (y := sparc_word (d mod 2 ^ 23)).
  destruct (sparc_word_mod (d mod 2 ^ 23)) as [Hy Hr]; [by apply Z.mod_pos_bound |]. fold y in Hy, Hr.
  unfold sparc_window. fold (sparc_test (u8 (Z.shiftr y 24)) (u8 (Z.shiftr y 16))).
  rewrite join_be32, (split_join_be32 y) by auto using u8_byte.
  rewrite (proj2 (sparc_test_word _ _ (u8 (Z.shiftr y 8)) (u8 y) (u8_byte _) (u8_byte _) (u8_byte _) (u8_byte _)))
    by (rewrite split_join_be32 by done; by rewrite Hy).
  cbv zeta. rewrite sparc_sign_extend, target_u32, Z.shiftl_mul_pow2, (Z.mul_comm _ (2 ^ 2)) by done.
  rewrite (target_low 2 23 a x y) by done. rewrite <- E. by rewrite (split_be32 x b0 b1 b2 b3).
Qed.

(** ** Whole buffers *)
Section aligned.
  Context (n : nat) (g : bool -> Z -> list Z -> list Z * Z) {body : Z -> bool -> Z -> list Z -> option (list Z * Z)}
    {W : Window (Z.of_nat n) (Z.of_nat n) body g} (divides : (Z.of_nat n | 2 ^ 32))
    (g_roundtrip : forall a w, a mod Z.of_nat n = 0 -> 0 <= a < 2 ^ 32 -> Z.of_nat (length w) = Z.of_nat n -> bytes w ->
       g false a (g true a w).1 = (w, 0)).
  Local Notation conv := (converted (Z.of_nat n) (Z.of_nat n) g).

Lemma converted_roundtrip a l : bytes l -> a mod Z.of_nat n = 0 -> 0 <= a < 2 ^ 32 ->
  conv false a (conv true a l).1 = (l, (conv true a l).2).
Proof.
  pose proof (w_step (window := Z.of_nat n)) as Hn.
  revert a l. apply (window_ind _ _ g (fun a l => bytes l -> a mod Z.of_nat n = 0 -> 0 <= a < 2 ^ 32 -> _) true); intros a l Hl.
  - intros _ _ _. rewrite (converted_end _ _ g true) by done. cbn [fst snd]. by rewrite (converted_end _ _ g false).
  - intros w IH Hb Ha Hr. rewrite (converted_step _ _ g true) by done. cbv zeta. cbn [fst snd]. subst w.
    rewrite !Nat2Z.id in *. set (w := g true a (take n l)) in *.
    assert (Z.of_nat (length (take n l)) = Z.of_nat n) as Hw by (rewrite length_take; lia).
    assert (w.2 = 0) as E0 by (pose proof (w_extra true a _ Hw); unfold w; lia).
    assert (length w.1 = n) as Hlen by (unfold w; rewrite w_length by done; lia).
    rewrite E0, Z.add_0_r, !Nat2Z.id in *.
    rewrite (take_ge w.1) by lia. set (r := conv true (u32 (a + Z.of_nat n)) (drop n l)) in *.
    assert (bytes (take n l)) as Hb1 by (by apply Forall_take).
    rewrite (converted_step _ _ g false) by (rewrite length_app; lia). cbv zeta. rewrite Nat2Z.id.
    rewrite !take_app_length' by done.
    assert (g false a w.1 = (take n l, 0)) as -> by (by apply g_roundtrip). cbn [fst snd]. rewrite Z.add_0_r, Nat2Z.id.
    rewrite drop_app_length' by done. rewrite IH; [cbn [fst snd] | by apply Forall_drop | | apply u32_range].
    + rewrite take_take, Nat.min_id. by rewrite take_drop.
    + unfold u32, wrap. rewrite <- Znumtheory.Zmod_div_mod; [| lia | done | done].
      rewrite <- Z.add_mod_idemp_l, Ha, Z.add_0_l by lia. apply Z.mod_same. lia.
Qed.
End aligned.

(** ** ARM-Thumb: windows of four bytes, two bytes apart *)
Definition thumb_test (b1 b3 : Z) : bool := (Z.land b1 0xF8 =? 0xF0) && (Z.land b3 0xF8 =? 0xF8).
Definition thumb_field (b0 b1 b2 b3 : Z) : Z := (b1 - 0xF0) * 2 ^ 19 + b0 * 2 ^ 11 + (b3 - 0xF8) * 2 ^ 8 + b2.
Definition thumb_bytes (d : Z) : list Z :=
  [u8 (Z.shiftr d 11); Z.lor 0xF0 (Z.land (Z.shiftr d 19) 7); u8 d; Z.lor 0xF8 (Z.land (Z.shiftr d 8) 7)].

Lemma high_5 b : is_byte b -> Z.land b 0xF8 = b / 8 * 8.
Proof.
  unfold is_byte. intros H. change 0xF8 with (Z.ldiff 0xFF (Z.ones 3)).
  rewrite Z.ldiff_land, Z.land_assoc, <- Z.ldiff_land, Z.ldiff_ones_r by lia. change 0xFF with (Z.ones 8).
  by rewrite Z.land_ones, Z.mod_small, Z.shiftr_div_pow2, Z.shiftl_mul_pow2 by lia.
Qed.

Lemma thumb_test_true b1 b3 : is_byte b1 -> is_byte b3 -> thumb_test b1 b3 = true -> 0xF0 <= b1 < 0xF8 /\ 0xF8 <= b3.
Proof.
  unfold thumb_test. intros H1 H3 [E1%Z.eqb_eq E3%Z.eqb_eq]%andb_prop. rewrite high_5 in E1, E3 by done.
  Z.to_euclidean_division_equations. lia.
Qed.

Lemma thumb_source b0 b1 b2 b3 : is_byte b0 -> is_byte b2 -> 0xF0 <= b1 < 0xF8 -> 0xF8 <= b3 < 256 ->
  Z.lor (Z.lor (Z.lor (Z.shiftl (Z.land b1 7) 19) (Z.shiftl b0 11)) (Z.shiftl (Z.land b3 7) 8)) b2
  = thumb_field b0 b1 b2 b3.
Proof.
  unfold is_byte. intros H0 H2 H1 H3. change 7 with (Z.ones 3). rewrite !Z.land_ones by lia.
  assert (b1 mod 2 ^ 3 = b1 - 0xF0) as -> by (change (2 ^ 3) with 8; Z.to_euclidean_division_equations; lia).
  assert (b3 mod 2 ^ 3 = b3 - 0xF8) as -> by (change (2 ^ 3) with 8; Z.to_euclidean_division_equations; lia).
  rewrite <- !Z.lor_assoc, (lor_shiftl_add' b2 _ 8), (lor_shiftl_add' _ b0 11), lor_shiftl_add' by lia.
  unfold thumb_field. lia.
Qed.

Lemma thumb_bytes_field d b0 b1 b2 b3 : is_byte b0 -> is_byte b2 -> 0xF0 <= b1 < 0xF8 -> 0xF8 <= b3 < 256 ->
  d mod 2 ^ 22 = thumb_field b0 b1 b2 b3 -> thumb_bytes d = [b0; b1; b2; b3].
Proof.
  unfold is_byte, thumb_field, thumb_bytes. intros H0 H2 H1 H3 E.
  rewrite (lor_low 0xF0 _ 3), (lor_low 0xF8 _ 3), !Z.shiftr_div_pow2 by done. unfold u8, wrap.
  change (2 ^ 3) with 8. change (2 ^ 8) with 256 in *. change (2 ^ 11) with 2048 in *. change (2 ^ 19) with 524288 in *.
  change (2 ^ 22) with 4194304 in *.
  f_equal; [| f_equal; [| f_equal; [| f_equal]]]; Z.to_euclidean_division_equations; lia.
Qed.

(** The bytes of any field are those of a branch. *)
Lemma thumb_bytes_exist d : exists b0 b1 b2 b3, thumb_bytes d = [b0; b1; b2; b3] /\
  (is_byte b0 /\ is_byte b1 /\ is_byte b2 /\ is_byte b3) /\ thumb_test b1 b3 = true /\ d mod 2 ^ 22 = thumb_field b0 b1 b2 b3.
Proof.
  set (b0 := (d / 2 ^ 11) mod 256). set (b1 := 0xF0 + (d / 2 ^ 19) mod 8). set (b2 := d mod 256).
  set (b3 := 0xF8 + (d / 2 ^ 8) mod 8). exists b0, b1, b2, b3.
  pose proof (Z.mod_pos_bound (d / 2 ^ 19) 8 ltac:(lia)) as M1. pose proof (Z.mod_pos_bound (d / 2 ^ 8) 8 ltac:(lia)) as M3.
  assert (is_byte b0) as H0 by (by apply Z.mod_pos_bound). assert (is_byte b2) as H2 by (by apply Z.mod_pos_bound).
  assert (0xF0 <= b1 < 0xF8) as H1 by lia. assert (0xF8 <= b3 < 256) as H3 by lia.
  assert (d mod 2 ^ 22 = thumb_field b0 b1 b2 b3) as Hd.
  { unfold thumb_field, b0, b1, b2, b3. change (2 ^ 22) with 4194304. change (2 ^ 19) with 524288.
    change (2 ^ 11) with 2048. change (2 ^ 8) with 256. Z.to_euclidean_division_equations. lia. }
  split; [by apply thumb_bytes_field |]. split; [unfold is_byte in *; lia |]. split; [| done].
  unfold thumb_test. rewrite !high_5 by (unfold is_byte; lia).
  apply andb_true_intro. split; apply Z.eqb_eq; Z.to_euclidean_division_equations; lia.
Qed.

Lemma armthumb_window_test enc a b0 b1 b2 b3 : is_byte b0 -> is_byte b1 -> is_byte b2 -> is_byte b3 -> 
  armthumb_window enc a [b0; b1; b2; b3] =
  if thumb_test b1 b3 then (thumb_bytes (Z.shiftr (target enc (a + 4) (2 ^ 1 * thumb_field b0 b1 b2 b3)) 1), 2)
  else ([b0; b1; b2; b3], 0).
Proof.
  intros H0 H1 H2 H3. unfold armthumb_window. fold (thumb_test b1 b3). destruct (thumb_test b1 b3) eqn:E; [| done].
  apply thumb_test_true in E as [E1 E3]; [| done | done]. unfold is_byte in *.
  rewrite thumb_source by (unfold is_byte; lia).
  by rewrite target_u32, Z.shiftl_mul_pow2, (Z.mul_comm _ (2 ^ 1)) by done.
Qed.

Lemma armthumb_window_roundtrip a b0 b1 b2 b3 : a mod 2 = 0 ->
  is_byte b0 -> is_byte b1 -> is_byte b2 -> is_byte b3 -> thumb_test b1 b3 = true ->
  exists c0 c1 c2 c3, armthumb_window true a [b0; b1; b2; b3] = ([c0; c1; c2; c3], 2) /\
    (is_byte c0 /\ is_byte c1 /\ is_byte c2 /\ is_byte c3) /\ Z.land c1 0xF8 = Z.land b1 0xF8 /\
    armthumb_window false a [c0; c1; c2; c3] = ([b0; b1; b2; b3], 2).
Proof.
  intros Ha H0 H1 H2 H3 E. rewrite armthumb_window_test, E by done.
  set (f := thumb_field b0 b1 b2 b3). set (d := Z.shiftr (target true (a + 4) (2 ^ 1 * f)) 1).
  destruct (thumb_bytes_exist d) as (c0 & c1 & c2 & c3 & -> & (C0 & C1 & C2 & C3) & Ec & Hd).
  exists c0, c1, c2, c3. split; [done |]. split; [done |].
  pose proof (thumb_test_true b1 b3 H1 H3 E) as [E1 E3]. pose proof (thumb_test_true c1 c3 C1 C3 Ec) as [F1 F3].
  split. { rewrite !high_5 by done. Z.to_euclidean_division_equations. lia. }
  rewrite armthumb_window_test, Ec by done. f_equal. rewrite <- Hd. unfold is_byte in *.
  apply thumb_bytes_field; unfold is_byte; try lia.
  apply target_units; try lia.
  - change (2 ^ 1) with 2. by rewrite <- Z.add_mod_idemp_l, Ha by done.
  - unfold f, thumb_field. change (2 ^ 22) with 4194304. lia.
Qed.

Notation thumb := (converted 4 2 armthumb_window).

Lemma thumb_end enc a l : (length l < 4)%nat -> thumb enc a l = (l, 0).
Proof. intros H. apply (converted_end 4 2 armthumb_window). lia. Qed.

Lemma thumb_step enc a b0 b1 b2 b3 l :
  thumb enc a (b0 :: b1 :: b2 :: b3 :: l) =
  let w := armthumb_window enc a [b0; b1; b2; b3] in
  if w.2 =? 2 then let r := thumb enc (u32 (a + 4)) l in (w.1 ++ r.1, 4 + r.2)
  else let r := thumb enc (u32 (a + 2)) (b2 :: b3 :: l) in (b0 :: b1 :: r.1, 2 + r.2).
Proof.
  rewrite (converted_step 4 2 armthumb_window) by (simpl length; lia). cbv zeta.
  change (take (Z.to_nat 4) (b0 :: b1 :: b2 :: b3 :: l)) with [b0; b1; b2; b3].
  set (w := armthumb_window enc a [b0; b1; b2; b3]).
  assert ((w.2 = 2 /\ length w.1 = 4%nat) \/ w = ([b0; b1; b2; b3], 0)) as [[-> Hl] | ->].
  { unfold w, armthumb_window. case_match; [by left | by right]. }
  - change (Z.to_nat (2 + 2)) with 4%nat. cbn [Z.eqb Pos.eqb drop]. by rewrite take_ge by lia.
  - done.
Qed.

(** What decides about the window before is kept. *)
Lemma thumb_head a b0 b1 l : a mod 2 = 0 -> bytes (b0 :: b1 :: l) ->
  exists c0 c1 l', (thumb true a (b0 :: b1 :: l)).1 = c0 :: c1 :: l' /\ is_byte c0 /\ is_byte c1 /\
    Z.land c1 0xF8 = Z.land b1 0xF8.
Proof.
  intros Ha [H0 [H1 Hb]%list.Forall_cons]%list.Forall_cons.
  destruct l as [| b2 [| b3 l]]; [rewrite thumb_end by (simpl; lia); eauto 10 .. |].
  apply list.Forall_cons in Hb as [H2 [H3 Hb]%list.Forall_cons]. rewrite thumb_step. cbv zeta.
  destruct (thumb_test b1 b3) eqn:E.
  - destruct (armthumb_window_roundtrip a b0 b1 b2 b3) as (c0 & c1 & c2 & c3 & -> & (? & ? & _) & ? & _); try done.
    cbn. eauto 10.
  - rewrite armthumb_window_test, E by done. cbn. eauto 10.
Qed.

Lemma thumb_roundtrip a l : a mod 2 = 0 -> bytes l ->
  thumb false a (thumb true a l).1 = (l, (thumb true a l).2).
Proof.
  remember (length l) as n eqn:Hn. revert a l Hn.
  induction n as [n IH] using (well_founded_induction lt_wf). intros a l -> Ha Hb.
  assert (forall k, (u32 (a + 2 * k)) mod 2 = 0) as Hu.
  { intros k. unfold u32, wrap. rewrite <- Znumtheory.Zmod_div_mod; [| done | done | by exists (2 ^ 31)].
    rewrite Z.mul_comm, Z.mod_add by done. done. }
  destruct l as [| b0 [| b1 [| b2 [| b3 l]]]];
    [rewrite !(thumb_end true), (thumb_end false) by (simpl; lia); done .. |].
  apply list.Forall_cons in Hb as [H0 [H1 Hb]%list.Forall_cons].
  pose proof Hb as [H2 [H3 Hb3]%list.Forall_cons]%list.Forall_cons.
  rewrite thumb_step. cbv zeta. destruct (thumb_test b1 b3) eqn:E.
  - destruct (armthumb_window_roundtrip a b0 b1 b2 b3) as (c0 & c1 & c2 & c3 & -> & _ & _ & Hd); try done.
    cbn [fst snd Z.eqb Pos.eqb app]. rewrite thumb_step, Hd. cbn [fst snd Z.eqb Pos.eqb app].
    rewrite (IH (length l)); [done | simpl; lia | done | apply (Hu 2) | done].
  - rewrite armthumb_window_test, E by done. cbn [fst snd Z.eqb].
    destruct (thumb_head (u32 (a + 2)) b2 b3 l (Hu 1)) as (c2 & c3 & l' & El & C2 & C3 & Hc); [done |].
    assert (thumb false (u32 (a + 2)) (thumb true (u32 (a + 2)) (b2 :: b3 :: l)).1
            = (b2 :: b3 :: l, (thumb true (u32 (a + 2)) (b2 :: b3 :: l)).2)) as HI.
    { eapply IH; [| reflexivity | apply (Hu 1) | done]. simpl. lia. }
    rewrite El in *. rewrite thumb_step.
    assert (thumb_test b1 c3 = false) as Et by (unfold thumb_test in *; by rewrite Hc).
    rewrite armthumb_window_test, Et by done. cbn [fst snd Z.eqb]. by rewrite HI.
Qed.

Lemma code_value window step body g {W : Window window step body g} p e l : bytes l -> 0 <= p < 2 ^ 32 ->
  filter_loop window step (body p e) (S (length l)) 0 l = Some (converted window step g e p l).
Proof.
  intros Hb Hp. pose proof (loop_converted window step g p e [] l Hb (S (length l)) ltac:(lia)) as E.
  change (Z.of_nat (length [])) with 0 in E. rewrite Z.add_0_r, u32_small in E by done. cbn [app] in E. rewrite E, Z.add_0_l.
  by destruct (converted _ _ _ _ _ _).
Qed.

(** What decoding what was encoded gives, and what encoding leaves alone. *)
Definition undone_by (code : Z -> bool -> list Z -> option (list Z * Z)) (p max : Z) (l : list Z) : Prop :=
  exists l' n, code p true l = Some (l', n) /\ code p false l' = Some (l, n) /\
    length l' = length l /\ bytes l' /\ 0 <= n <= Z.of_nat (length l) /\ Z.of_nat (length l) - n < max /\
    drop (Z.to_nat n) l' = drop (Z.to_nat n) l.

Lemma undone_by_window window step body g {W : Window window step body g} code p l :
  (forall e b, code p e b = filter_loop window step (body p e) (S (length b)) 0 b) ->
  bytes l -> 0 <= p < 2 ^ 32 ->
  converted window step g false p (converted window step g true p l).1 = (l, (converted window step g true p l).2) ->
  undone_by code p window l.
Proof.
  intros Hc Hb Hp Hr. destruct (converted_bounds window step g true p l Hb) as (H1 & H2 & H3 & H4 & H5).
  exists (converted window step g true p l).1, (converted window step g true p l).2.
  rewrite !Hc, !(code_value window step body g) by done. split; [by rewrite <- surjective_pairing |]. by rewrite Hr.
Qed.
