(* ===== verification/SimpleIa64.v ===== *)
(** * liblzma: the branch filter for Itanium

    simple/ia64.c, whose definitions are in Simple.v: a bundle of sixteen bytes
    is a 128-bit number with a 5-bit template and three 41-bit slots, and the
    filter changes a field of 21 bits inside a slot. The proofs are about that
    number; the bytes are read and written six at a time around a slot. *)

From Stdlib Require Import ZArith Lia.
From stdpp Require Import base list option.
From S2P Require Import Prelude LzmaBase Simple.
Local Open Scope Z_scope.

(** ** Bytes and numbers *)
Fixpoint le (l : list Z) : Z := match l with [] => 0 | b :: l => b + 2 ^ 8 * le l end.

Lemma le_range l : bytes l -> 0 <= le l < 2 ^ (8 * Z.of_nat (length l)).
Proof.
  induction l as [| b l IH]; intros Hb; [done |]. apply list.Forall_cons in Hb as [H Hb]. specialize (IH Hb).
  cbn [le length]. replace (8 * Z.of_nat (S (length l))) with (8 + 8 * Z.of_nat (length l)) by lia.
  rewrite Z.pow_add_r by lia. unfold is_byte in H. nia.
Qed.

Lemma le_app a b : le (a ++ b) = le a + 2 ^ (8 * Z.of_nat (length a)) * le b.
Proof.
  induction a as [| x a IH]; cbn [app le length]; [change (8 * Z.of_nat 0) with 0; lia |].
  rewrite IH. replace (8 * Z.of_nat (S (length a))) with (8 + 8 * Z.of_nat (length a)) by lia.
  rewrite Z.pow_add_r by lia. lia.
Qed.

Lemma testbit_byte b x n : is_byte b -> 0 <= n -> Z.testbit (b + 2 ^ 8 * x) n = if n <? 8 then Z.testbit b n else Z.testbit x (n - 8).
Proof.
  intros Hb Hn. rewrite (Z.mul_comm (2 ^ 8)), <- lor_shiftl_add by done.
  rewrite Z.lor_spec, Z.shiftl_spec by done. destruct (Z.ltb_spec n 8).
  - rewrite (Z.testbit_neg_r x) by lia. apply orb_false_r.
  - rewrite <- (Z.mod_small b (2 ^ 8)) by done. by rewrite Z.mod_pow2_bits_high by lia.
Qed.

Lemma testbit_app a x n : bytes a -> 0 <= n ->
  Z.testbit (le a + 2 ^ (8 * Z.of_nat (length a)) * x) n
  = if n <? 8 * Z.of_nat (length a) then Z.testbit (le a) n else Z.testbit x (n - 8 * Z.of_nat (length a)).
Proof.
  intros Ha Hn. pose proof (le_range a Ha). set (k := 8 * Z.of_nat (length a)) in *.
  rewrite (Z.mul_comm (2 ^ k)), <- lor_shiftl_add by lia.
  rewrite Z.lor_spec, Z.shiftl_spec by done. destruct (Z.ltb_spec n k).
  - rewrite (Z.testbit_neg_r x) by lia. apply orb_false_r.
  - rewrite <- (Z.mod_small (le a) (2 ^ k)) by done. by rewrite Z.mod_pow2_bits_high by lia.
Qed.

Lemma le_inj a b : length a = length b -> bytes a -> bytes b -> le a = le b -> a = b.
Proof.
  revert b. induction a as [| x a IH]; intros [| y b] Hl Ha Hb E; try done.
  apply list.Forall_cons in Ha as [Hx Ha]. apply list.Forall_cons in Hb as [Hy Hb]. unfold is_byte in *. cbn [le] in E.
  assert (x = y /\ le a = le b) as [-> E2] by (change (2 ^ 8) with 256 in E; lia).
  f_equal. apply IH; try done. by injection Hl.
Qed.

(** The bytes of a number, as [ia64_scatter] writes them. *)
Fixpoint unle (n : nat) (j x : Z) : list Z :=
  match n with O => [] | S n => u8 (Z.shiftr x (8 * j)) :: unle n (j + 1) x end.

Lemma unle_length n j x : length (unle n j x) = n.
Proof. revert j. induction n; intros j; [done |]. cbn. by rewrite IHn. Qed.

Lemma unle_bytes n j x : bytes (unle n j x).
Proof. revert j. induction n; intros j; [constructor |]. cbn. apply List.Forall_cons; [apply u8_byte | apply IHn]. Qed.

Lemma unle_testbit n j x k : 0 <= j -> 0 <= k ->
  Z.testbit (le (unle n j x)) k = (k <? 8 * Z.of_nat n) && Z.testbit x (k + 8 * j).
Proof.
  revert j k. induction n as [| n IH]; intros j k Hj Hk.
  - cbn. rewrite (proj2 (Z.ltb_ge _ _)) by lia. apply Z.bits_0.
  - cbn [unle le]. rewrite testbit_byte by (done || apply u8_byte). destruct (Z.ltb_spec k 8).
    + rewrite (proj2 (Z.ltb_lt _ _)) by lia. unfold u8, wrap. rewrite Z.mod_pow2_bits_low, Z.shiftr_spec by lia. done.
    + rewrite IH by lia. f_equal; [| f_equal; lia].
      destruct (Z.ltb_spec (k - 8) (8 * Z.of_nat n)), (Z.ltb_spec k (8 * Z.of_nat (S n))); lia || done.
Qed.

(** ** Reading and writing the six bytes *)
Lemma gather_value n j pre s post acc : bytes s -> n = length s -> 0 <= j -> j + Z.of_nat n <= 6 ->
  0 <= acc < 2 ^ (8 * j) ->
  ia64_gather n j (Z.of_nat (length pre) - j) (pre ++ s ++ post) acc = Some (acc + 2 ^ (8 * j) * le s).
Proof.
  revert j pre s acc. induction n as [| n IH]; intros j pre s acc Hb Hn Hj Hj6 Hacc.
  - destruct s; [| done]. cbn. do 2 f_equal. lia.
  - destruct s as [| b s]; [done |]. apply list.Forall_cons in Hb as [Hb Hs]. cbn [ia64_gather].
    cbn [app]. rewrite rd_app by lia. cbn [mbind option_bind].
    assert (2 ^ (8 * j + 8) = 2 ^ (8 * j) * 2 ^ 8) as E8 by (rewrite Z.pow_add_r by lia; done).
    assert (2 ^ (8 * j + 8) <= 2 ^ 48) as E48 by (apply Z.pow_le_mono_r; lia).
    assert (0 < 2 ^ (8 * j)) as Hpos by (apply Z.pow_pos_nonneg; lia). unfold is_byte in Hb.
    assert (0 <= b * 2 ^ (8 * j) < 2 ^ 48) as Hsm by (change (2 ^ 8) with 256 in E8; nia).
    rewrite Z.shiftl_mul_pow2 by lia. rewrite (u64_small (b * _)) by lia.
    assert (0 <= acc + b * 2 ^ (8 * j) < 2 ^ (8 * j + 8)) as Hacc2 by (change (2 ^ 8) with 256 in E8; nia).
    rewrite u64_small by lia.
    specialize (IH (j + 1) (pre ++ [b]) s (acc + b * 2 ^ (8 * j)) Hs ltac:(by injection Hn) ltac:(lia) ltac:(lia)).
    rewrite length_app, <- app_assoc in IH. cbn [length app] in IH.
    replace (Z.of_nat (length pre + 1) - (j + 1)) with (Z.of_nat (length pre) - j) in IH by lia.
    replace (8 * (j + 1)) with (8 * j + 8) in IH by lia. rewrite IH by done. f_equal. rewrite E8. cbn [le]. lia.
Qed.

Lemma scatter_value n j pre s post x : n = length s ->
  ia64_scatter n j (Z.of_nat (length pre) - j) x (pre ++ s ++ post) = Some (pre ++ unle n j x ++ post).
Proof.
  revert j pre s. induction n as [| n IH]; intros j pre s Hn.
  - by destruct s.
  - destruct s as [| b s]; [done |]. cbn [ia64_scatter app]. rewrite wr_app by lia. cbn [mbind option_bind].
    specialize (IH (j + 1) (pre ++ [u8 (Z.shiftr x (8 * j))]) s ltac:(by injection Hn)).
    rewrite length_app, <- !app_assoc in IH. cbn [length app] in IH.
    replace (Z.of_nat (length pre + 1) - (j + 1)) with (Z.of_nat (length pre) - j) in IH by lia. by rewrite IH.
Qed.

(** ** Slots

    [s] is the position of the slot. The field has the bits 13 to 32 and 36 of
    the slot. *)
Definition slot_test (s N : Z) : bool :=
  (Z.land (Z.shiftr N (s + 37)) 0xF =? 0x5) && (Z.land (Z.shiftr N (s + 9)) 7 =? 0).

Definition slot_field (s N : Z) : Z :=
  Z.lor (Z.land (Z.shiftr N (s + 13)) 0xFFFFF) (Z.shiftl (Z.land (Z.shiftr N (s + 36)) 1) 20).

Definition set_field (s d N : Z) : Z :=
  Z.lor (Z.ldiff N (Z.shiftl (Z.shiftl 0x8FFFFF 13) s))
        (Z.shiftl (Z.lor (Z.shiftl (Z.land d 0xFFFFF) 13) (Z.shiftl (Z.land d 0x100000) 16)) s).

Definition in_field (k : Z) : bool := ((13 <=? k) && (k <? 33)) || (k =? 36).
Definition field_bit (k : Z) : Z := if k =? 36 then 20 else k - 13.

Lemma testbit_ones_neg n k : 0 <= n -> Z.testbit (Z.ones n) k = (0 <=? k) && (k <? n).
Proof. intros. by apply Z.testbit_ones. Qed.

Lemma testbit_shift x n k : Z.testbit (Z.shiftl x n) k = (0 <=? k) && Z.testbit x (k - n).
Proof.
  destruct (Z.leb_spec 0 k); [by rewrite Z.shiftl_spec |]. by rewrite Z.testbit_neg_r by done.
Qed.

Lemma testbit_pow2 n k : 0 <= n -> Z.testbit (Z.shiftl 1 n) k = (k =? n).
Proof. intros. rewrite Z.shiftl_1_l, Z.pow2_bits_eqb by done. apply Z.eqb_sym. Qed.

(** The mask of the field and the two halves of the new one, bit by bit. *)
Lemma testbit_mask k : Z.testbit (Z.shiftl 0x8FFFFF 13) k = in_field k.
Proof.
  change 0x8FFFFF with (Z.lor (Z.ones 20) (Z.shiftl 1 23)).
  rewrite testbit_shift, Z.lor_spec, testbit_ones_neg, testbit_pow2 by done. unfold in_field.
  destruct (Z.leb_spec 0 k), (Z.leb_spec 13 k), (Z.ltb_spec k 33), (Z.eqb_spec k 36), (Z.leb_spec 0 (k - 13)),
    (Z.ltb_spec (k - 13) 20), (Z.eqb_spec (k - 13) 23); done || lia.
Qed.

Lemma testbit_halves d k :
  Z.testbit (Z.lor (Z.shiftl (Z.land d 0xFFFFF) 13) (Z.shiftl (Z.land d 0x100000) 16)) k
  = in_field k && Z.testbit d (field_bit k).
Proof.
  change 0xFFFFF with (Z.ones 20). change 0x100000 with (Z.shiftl 1 20).
  rewrite Z.lor_spec, !testbit_shift, !Z.land_spec, testbit_ones_neg, testbit_pow2 by done. unfold in_field, field_bit.
  destruct (Z.eqb_spec k 36) as [-> |].
  - cbn. by rewrite andb_false_r, andb_true_r.
  - assert (k - 16 =? 20 = false) as -> by (apply Z.eqb_neq; lia). rewrite andb_false_r, andb_false_r, orb_false_r, orb_false_r.
    destruct (Z.leb_spec 0 k), (Z.leb_spec 13 k), (Z.ltb_spec k 33), (Z.leb_spec 0 (k - 13)), (Z.ltb_spec (k - 13) 20); try lia;
      rewrite ?andb_true_r, ?andb_false_r; done.
Qed.

Lemma testbit_set_field s d N n : 0 <= n ->
  Z.testbit (set_field s d N) n = if in_field (n - s) then Z.testbit d (field_bit (n - s)) else Z.testbit N n.
Proof.
  intros Hn. unfold set_field. rewrite Z.lor_spec, Z.ldiff_spec, !(testbit_shift _ s), testbit_mask, testbit_halves.
  rewrite (proj2 (Z.leb_le 0 n)) by done. cbn [andb]. destruct (in_field (n - s)); cbn [negb andb orb].
  - by rewrite andb_false_r.
  - by rewrite andb_true_r, orb_false_r.
Qed.

(** Fields of bits that agree. *)
Lemma land_shiftr_ext N N' x n : 0 <= x -> 0 <= n -> (forall k, x <= k < x + n -> Z.testbit N k = Z.testbit N' k) ->
  Z.land (Z.shiftr N x) (Z.ones n) = Z.land (Z.shiftr N' x) (Z.ones n).
Proof.
  intros Hx Hn H. apply Z.bits_inj'. intros k Hk. rewrite !Z.land_spec, !Z.shiftr_spec, testbit_ones_neg by done.
  destruct (Z.leb_spec 0 k), (Z.ltb_spec k n); cbn [andb]; rewrite ?andb_true_r, ?andb_false_r; try done. apply H. lia.
Qed.

Lemma slot_test_ext s N s' N' : 0 <= s -> (forall k, s <= k < s + 41 -> in_field (k - s) = false -> Z.testbit N k = Z.testbit N' k) ->
  s = s' -> slot_test s N = slot_test s' N'.
Proof.
  intros Hs H <-. unfold slot_test. change 0xF with (Z.ones 4). change 7 with (Z.ones 3). f_equal; f_equal; apply land_shiftr_ext; try lia.
  all: intros k Hk; apply H; [lia |]; unfold in_field.
  all: destruct (Z.leb_spec 13 (k - s)), (Z.ltb_spec (k - s) 33), (Z.eqb_spec (k - s) 36); done || lia.
Qed.

Lemma slot_field_ext s N N' : 0 <= s -> (forall k, s <= k < s + 41 -> Z.testbit N k = Z.testbit N' k) ->
  slot_field s N = slot_field s N'.
Proof.
  intros Hs H. unfold slot_field. change 0xFFFFF with (Z.ones 20). change 1 with (Z.ones 1).
  f_equal; [| f_equal]; apply land_shiftr_ext; try lia; intros k Hk; apply H; lia.
Qed.

(** A slot seen from six bytes around it. *)
Lemma shifted_slot s q N I : 0 <= s -> 0 <= q -> (forall k, 0 <= k < s + 41 -> Z.testbit I k = Z.testbit N (k + q)) ->
  slot_test s I = slot_test (s + q) N /\ slot_field s I = slot_field (s + q) N.
Proof.
  intros Hs Hq H.
  assert (forall x n, 0 <= x -> 0 <= n -> x + n <= s + 41 -> Z.land (Z.shiftr I x) (Z.ones n) = Z.land (Z.shiftr N (x + q)) (Z.ones n)) as Hx.
  { intros x n Hx0 Hn Hxn. apply Z.bits_inj'. intros k Hk. rewrite !Z.land_spec, !Z.shiftr_spec, testbit_ones_neg by done.
    destruct (Z.leb_spec 0 k), (Z.ltb_spec k n); cbn [andb]; rewrite ?andb_true_r, ?andb_false_r; try done.
    rewrite H by lia. f_equal. lia. }
  unfold slot_test, slot_field. change 0xF with (Z.ones 4). change 7 with (Z.ones 3). change 0xFFFFF with (Z.ones 20).
  change 1 with (Z.ones 1). rewrite !Hx by lia.
  by rewrite !(Z.add_shuffle0 s _ q).
Qed.

Definition new_field (enc : bool) (a f : Z) : Z := Z.shiftr (target enc a (2 ^ 4 * f)) 4.

Lemma u64_testbit x k : k < 64 -> Z.testbit (u64 x) k = Z.testbit x k.
Proof.
  intros Hk. destruct (Z.lt_ge_cases k 0); [by rewrite !Z.testbit_neg_r by done |]. unfold u64, wrap. by rewrite Z.mod_pow2_bits_low.
Qed.

Lemma slot_field_range s N : 0 <= slot_field s N < 2 ^ 21.
Proof.
  unfold slot_field. change 0xFFFFF with (Z.ones 20). change (Z.land (Z.shiftr N (s + 36)) 1) with (Z.land (Z.shiftr N (s + 36)) (Z.ones 1)).
  rewrite !Z.land_ones by done. pose proof (Z.mod_pos_bound (Z.shiftr N (s + 13)) (2 ^ 20) ltac:(lia)).
  pose proof (Z.mod_pos_bound (Z.shiftr N (s + 36)) (2 ^ 1) ltac:(lia)). rewrite lor_shiftl_add by done.
  change (2 ^ 21) with 2097152. change (2 ^ 20) with 1048576 in *. change (2 ^ 1) with 2 in *. lia.
Qed.

(** The conversion of an instruction of six bytes sets its field. *)
Lemma convert_value now enc i r I : 0 <= r < 8 ->
  match ia64_convert now enc i r I with
  | None => slot_test r I = false
  | Some I' => slot_test r I = true /\
      forall n, 0 <= n < 48 -> Z.testbit I' n = Z.testbit (set_field r (new_field enc (u32 (now + i)) (slot_field r I)) I) n
  end.
Proof.
  intros Hr. unfold ia64_convert. rewrite !(Z.shiftr_shiftr I r) by done. fold (slot_test r I).
  destruct (slot_test r I) eqn:E; [| done]. split; [done |]. intros n Hn.
  change (36 - 20) with 16. change (u64 (Z.shiftl 0x8FFFFF 13)) with (Z.shiftl 0x8FFFFF 13). rewrite target_addr0, target_u32.
  assert (Z.lor (u32 (Z.land (Z.shiftr I (r + 13)) 0xFFFFF)) (u32 (Z.shiftl (Z.land (Z.shiftr I (r + 36)) 1) 20)) = slot_field r I) as ->.
  { pose proof (slot_field_range r I) as Hf. unfold slot_field in *. change 0xFFFFF with (Z.ones 20) in *.
    change (Z.land (Z.shiftr I (r + 36)) 1) with (Z.land (Z.shiftr I (r + 36)) (Z.ones 1)) in *. rewrite !Z.land_ones in * by done.
    pose proof (Z.mod_pos_bound (Z.shiftr I (r + 13)) (2 ^ 20) ltac:(lia)). pose proof (Z.mod_pos_bound (Z.shiftr I (r + 36)) (2 ^ 1) ltac:(lia)).
    rewrite Z.shiftl_mul_pow2 in * by done. rewrite !u32_small; [done | |]; change (2 ^ 20) with 1048576 in *; change (2 ^ 1) with 2 in *; change (2 ^ 32) with 4294967296; lia. }
  rewrite (Z.shiftl_mul_pow2 (slot_field r I)), (Z.mul_comm _ (2 ^ 4)) by done.
  set (d := Z.shiftr (target _ _ _) 4). change (new_field enc (u32 (now + i)) (slot_field r I)) with d.
  rewrite testbit_set_field, Z.lor_spec, u64_testbit, Z.land_spec, testbit_shift by lia.
  replace (Z.shiftl 1 r - 1) with (Z.ones r) by (rewrite Z.ones_equiv, Z.shiftl_1_l; lia). rewrite testbit_ones_neg by lia.
  rewrite (proj2 (Z.leb_le 0 n)) by lia. cbn [andb]. destruct (Z.ltb_spec n r).
  - rewrite (Z.testbit_neg_r _ (n - r)) by lia. rewrite andb_true_r, orb_false_r.
    assert (in_field (n - r) = false) as -> by (unfold in_field; destruct (Z.leb_spec 13 (n - r)), (Z.eqb_spec (n - r) 36); done || lia). done.
  - rewrite andb_false_r, orb_false_l, !Z.lor_spec, Z.land_spec, Z.lxor_spec, !u64_testbit, <- orb_assoc, <- Z.lor_spec, testbit_halves by lia.
    change (2 ^ 64 - 1) with (Z.ones 64). rewrite testbit_ones_neg, testbit_mask, Z.shiftr_spec by lia.
    rewrite (proj2 (Z.leb_le 0 (n - r))), (proj2 (Z.ltb_lt (n - r) 64)) by lia. cbn [andb xorb].
    replace (n - r + r) with n by lia. destruct (in_field (n - r)); cbn [negb andb orb]; [by rewrite andb_false_r | by rewrite andb_true_r, orb_false_r].
Qed.

(** ** One slot of a bundle *)
Definition slot_convert (enc : bool) (a s N : Z) : Z :=
  if slot_test s N then set_field s (new_field enc a (slot_field s N)) N else N.

(** The number of three parts, bit by bit. *)
Lemma le_parts w1 s6 w2 n : bytes w1 -> bytes s6 -> 0 <= n ->
  Z.testbit (le (w1 ++ s6 ++ w2)) n =
  if n <? 8 * Z.of_nat (length w1) then Z.testbit (le w1) n
  else if n <? 8 * Z.of_nat (length w1) + 8 * Z.of_nat (length s6) then Z.testbit (le s6) (n - 8 * Z.of_nat (length w1))
  else Z.testbit (le w2) (n - 8 * Z.of_nat (length w1) - 8 * Z.of_nat (length s6)).
Proof.
  intros H1 H6 Hn. rewrite !le_app, testbit_app by done. destruct (Z.ltb_spec n (8 * Z.of_nat (length w1))); [done |].
  rewrite testbit_app by (done || lia).
  destruct (Z.ltb_spec (n - 8 * Z.of_nat (length w1)) (8 * Z.of_nat (length s6))),
    (Z.ltb_spec n (8 * Z.of_nat (length w1) + 8 * Z.of_nat (length s6))); done || lia.
Qed.

Lemma slot_value now enc pre w post p r : Z.of_nat (length w) = 16 -> bytes w -> 0 <= p -> p + 6 <= 16 -> 0 <= r < 8 ->
  let i := Z.of_nat (length pre) in
  exists w', (instruction ← ia64_gather 6 0 (i + p) (pre ++ w ++ post) 0;
      match ia64_convert now enc i r instruction with
      | Some instruction => ia64_scatter 6 0 (i + p) instruction (pre ++ w ++ post)
      | None => Some (pre ++ w ++ post)
      end) = Some (pre ++ w' ++ post) /\
    length w' = length w /\ bytes w' /\ le w' = slot_convert enc (u32 (now + i)) (8 * p + r) (le w).
Proof.
  intros Hl Hb Hp Hp6 Hr i. set (w1 := take (Z.to_nat p) w). set (s6 := take 6 (drop (Z.to_nat p) w)). set (w2 := drop 6 (drop (Z.to_nat p) w)).
  assert (w = w1 ++ s6 ++ w2) as Ew by (unfold w1, s6, w2; by rewrite !take_drop).
  assert (length w1 = Z.to_nat p) as L1 by (unfold w1; rewrite length_take; lia).
  assert (length s6 = 6%nat) as L6 by (unfold s6; rewrite length_take, length_drop; lia).
  assert (bytes w1 /\ bytes s6 /\ bytes w2) as (B1 & B6 & B2).
  { rewrite Ew in Hb. apply Forall_app in Hb as [? Hb]. by apply Forall_app in Hb. }
  assert (pre ++ w ++ post = (pre ++ w1) ++ s6 ++ (w2 ++ post)) as Ebuf by (rewrite Ew at 1; by rewrite <- !app_assoc).
  assert (Z.of_nat (length (pre ++ w1)) - 0 = i + p) as Ei by (rewrite length_app; lia).
  pose proof (gather_value 6 0 (pre ++ w1) s6 (w2 ++ post) 0 B6 (eq_sym L6) ltac:(lia) ltac:(lia) ltac:(lia)) as Hg.
  rewrite Ei in Hg. rewrite Ebuf, Hg. cbn [mbind option_bind].
  replace (0 + 2 ^ (8 * 0) * le s6) with (le s6) by (change (2 ^ (8 * 0)) with 1; lia).
  assert (forall k, 0 <= k < 48 -> Z.testbit (le s6) k = Z.testbit (le w) (k + 8 * p)) as Hbits.
  { intros k Hk. rewrite Ew at 1. rewrite le_parts by (done || lia). rewrite L1, L6, Z2Nat.id by lia.
    rewrite (proj2 (Z.ltb_ge _ _)), (proj2 (Z.ltb_lt _ _)) by lia. f_equal. lia. }
  destruct (shifted_slot r (8 * p) (le w) (le s6)) as [Ht Hf]; [lia | lia | intros; apply Hbits; lia |].
  rewrite (Z.add_comm r (8 * p)) in Ht, Hf.
  pose proof (convert_value now enc i r (le s6) Hr) as Hc. unfold slot_convert.
  destruct (ia64_convert now enc i r (le s6)) as [I' |].
  - destruct Hc as [Hc HI]. rewrite Ht in Hc. rewrite Hc. 
    pose proof (scatter_value 6 0 (pre ++ w1) s6 (w2 ++ post) I' (eq_sym L6)) as Hs. rewrite Ei in Hs. rewrite Hs.
    exists (w1 ++ unle 6 0 I' ++ w2). rewrite <- !app_assoc. split; [done |].
    split; [rewrite Ew, !length_app, unle_length, L6; done |].
    split; [apply Forall_app; split; [done |]; apply Forall_app; split; [apply unle_bytes | done] |].
    apply Z.bits_inj'. intros n Hn. rewrite testbit_set_field, le_parts by (done || apply unle_bytes).
    rewrite unle_length, L1, Z2Nat.id by lia. change (8 * Z.of_nat 6) with 48.
    assert (n < 8 * p \/ 8 * p + 48 <= n -> in_field (n - (8 * p + r)) = false) as Hout.
    { intros H. unfold in_field. destruct (Z.leb_spec 13 (n - (8 * p + r))), (Z.ltb_spec (n - (8 * p + r)) 33), (Z.eqb_spec (n - (8 * p + r)) 36); done || lia. }
    assert (forall x, Z.testbit (le w) x = Z.testbit (le (w1 ++ s6 ++ w2)) x) as Ew2 by (intros x; by rewrite <- Ew).
    rewrite Ew2, le_parts, L1, L6, Z2Nat.id by (done || lia). change (8 * Z.of_nat 6) with 48.
    destruct (Z.ltb_spec n (8 * p)); [by rewrite Hout by lia |].
    destruct (Z.ltb_spec n (8 * p + 48)); [| by rewrite Hout by lia].
    rewrite unle_testbit by lia. rewrite (proj2 (Z.ltb_lt _ _)) by lia. cbn [andb].
    replace (n - 8 * p + 8 * 0) with (n - 8 * p) by lia. rewrite HI by lia. rewrite testbit_set_field by lia.
    replace (n - 8 * p - r) with (n - (8 * p + r)) by lia. by rewrite Hf.
  - rewrite Ht in Hc. rewrite Hc. exists w. rewrite <- Ebuf. done.
Qed.

(** ** Slots do not meet *)
Lemma slot_convert_outside enc a s N n : 0 <= n -> in_field (n - s) = false -> Z.testbit (slot_convert enc a s N) n = Z.testbit N n.
Proof. intros Hn H. unfold slot_convert. destruct (slot_test s N); [| done]. by rewrite testbit_set_field, H. Qed.

Lemma field_range k : in_field k = true -> 13 <= k < 37.
Proof. unfold in_field. destruct (Z.leb_spec 13 k), (Z.ltb_spec k 33), (Z.eqb_spec k 36); cbn; intros; done || lia. Qed.

Lemma field_bit_range k : in_field k = true -> 0 <= field_bit k < 21 /\ (k <> 36 -> k < 33).
Proof. unfold in_field, field_bit. destruct (Z.leb_spec 13 k), (Z.ltb_spec k 33), (Z.eqb_spec k 36); cbn; intros; done || lia. Qed.

Lemma slot_convert_commute e1 e2 a s1 s2 N : 0 <= s1 -> 0 <= s2 -> s1 + 41 <= s2 \/ s2 + 41 <= s1 ->
  slot_convert e1 a s1 (slot_convert e2 a s2 N) = slot_convert e2 a s2 (slot_convert e1 a s1 N).
Proof.
  intros H1 H2 Hd.
  assert (forall e s s' M, 0 <= s -> s + 41 <= s' \/ s' + 41 <= s ->
    slot_test s (slot_convert e a s' M) = slot_test s M /\ slot_field s (slot_convert e a s' M) = slot_field s M) as Hfr.
  { intros e s s' M Hs Hss. assert (forall k, s <= k < s + 41 -> Z.testbit (slot_convert e a s' M) k = Z.testbit M k) as Hb.
    { intros k Hk. apply slot_convert_outside; [lia |]. destruct (in_field (k - s')) eqn:E; [| done]. apply field_range in E. lia. }
    split; [apply slot_test_ext; auto | by apply slot_field_ext]. }
  destruct (Hfr e2 s1 s2 N H1 Hd) as [T1 F1]. destruct (Hfr e1 s2 s1 N H2 ltac:(lia)) as [T2 F2].
  apply Z.bits_inj'. intros n Hn.
  assert (forall e s M, slot_convert e a s M = if slot_test s M then set_field s (new_field e a (slot_field s M)) M else M) as Heq by done.
  rewrite (Heq e1 s1 (slot_convert e2 a s2 N)), T1, F1, (Heq e2 s2 (slot_convert e1 a s1 N)), T2, F2, (Heq e2 s2 N), (Heq e1 s1 N).
  destruct (slot_test s1 N) eqn:E1, (slot_test s2 N) eqn:E2; rewrite ?testbit_set_field by done; try done.
  destruct (in_field (n - s1)) eqn:I1, (in_field (n - s2)) eqn:I2; try done. apply field_range in I1. apply field_range in I2. lia.
Qed.

Lemma slot_convert_roundtrip a s N : 0 <= s -> a mod 2 ^ 4 = 0 ->
  slot_convert false a s (slot_convert true a s N) = N.
Proof.
  intros Hs Ha. unfold slot_convert at 2. destruct (slot_test s N) eqn:E; [| unfold slot_convert; by rewrite E].
  set (f := slot_field s N). set (d := new_field true a f). unfold slot_convert.
  assert (slot_test s (set_field s d N) = true) as ->.
  { rewrite <- E. apply slot_test_ext; [done | | done]. intros k Hk Hi. rewrite testbit_set_field by lia. by rewrite Hi. }
  assert (slot_field s (set_field s d N) = d mod 2 ^ 21) as ->.
  { apply Z.bits_inj'. intros k Hk. unfold slot_field. change 0xFFFFF with (Z.ones 20).
    change (Z.land (Z.shiftr (set_field s d N) (s + 36)) 1) with (Z.land (Z.shiftr (set_field s d N) (s + 36)) (Z.ones 1)).
    rewrite Z.lor_spec, testbit_shift, !Z.land_spec, !testbit_ones_neg, Z.shiftr_spec by lia.
    rewrite (proj2 (Z.leb_le 0 k)) by done. cbn [andb]. rewrite testbit_set_field by lia.
    destruct (Z.lt_ge_cases k 20).
    - rewrite (proj2 (Z.leb_gt 0 (k - 20))) by lia. rewrite andb_false_l, andb_false_r, orb_false_r, (proj2 (Z.ltb_lt k 20)), andb_true_r by lia.
      rewrite Z.mod_pow2_bits_low by lia. unfold in_field, field_bit.
      rewrite (proj2 (Z.leb_le _ _)), (proj2 (Z.ltb_lt _ _)), (proj2 (Z.eqb_neq _ _)) by lia. cbn [andb orb]. f_equal. lia.
    - rewrite (proj2 (Z.ltb_ge k 20)), andb_false_r, orb_false_l, (proj2 (Z.leb_le 0 (k - 20))) by lia. cbn [andb].
      destruct (Z.eqb_spec k 20) as [-> |].
      + change (20 - 20) with 0. rewrite Z.shiftr_spec, testbit_set_field by lia. replace (0 + (s + 36) - s) with 36 by lia.
        rewrite Z.mod_pow2_bits_low by lia. cbn. by rewrite andb_true_r.
      + rewrite (proj2 (Z.ltb_ge (k - 20) 1)), andb_false_r by lia. by rewrite Z.mod_pow2_bits_high by lia. }
  assert (new_field false a (d mod 2 ^ 21) mod 2 ^ 21 = f) as Hf.
  { unfold new_field, d. apply target_units; try done. apply slot_field_range. }
  set (d' := new_field false a (d mod 2 ^ 21)) in *.
  apply Z.bits_inj'. intros n Hn. rewrite testbit_set_field by done. destruct (in_field (n - s)) eqn:I; [| by rewrite testbit_set_field, I].
  pose proof (field_bit_range _ I) as [Hr H33]. rewrite <- (Z.mod_pow2_bits_low d' 21), Hf by lia. unfold f, slot_field.
  change 0xFFFFF with (Z.ones 20). change (Z.land (Z.shiftr N (s + 36)) 1) with (Z.land (Z.shiftr N (s + 36)) (Z.ones 1)).
  rewrite Z.lor_spec, testbit_shift, !Z.land_spec, !testbit_ones_neg, Z.shiftr_spec by lia.
  rewrite (proj2 (Z.leb_le 0 (field_bit (n - s)))) by lia. cbn [andb]. unfold field_bit in *. apply field_range in I.
  destruct (Z.eqb_spec (n - s) 36).
  - cbn. rewrite Z.shiftr_spec by lia. rewrite andb_false_r, andb_true_r, orb_false_l. f_equal. lia.
  - rewrite (proj2 (Z.ltb_lt (n - s - 13) 20)), andb_true_r by lia. rewrite (proj2 (Z.leb_gt 0 (n - s - 13 - 20))) by lia.
    cbn [andb]. rewrite andb_false_r, orb_false_r. f_equal. lia.
Qed.

(** ** Bundles *)
Definition ia64_mask (N : Z) : Z := default 0 (rd BRANCH_TABLE (Z.land N 0x1F)).

Definition if_slot (mask slot : Z) (f : Z -> Z) (N : Z) : Z :=
  if Z.land (Z.shiftr mask slot) 1 =? 0 then N else f N.

Definition bundle_convert (enc : bool) (a N : Z) : Z :=
  let m := ia64_mask N in
  if_slot m 2 (slot_convert enc a 87) (if_slot m 1 (slot_convert enc a 46) (if_slot m 0 (slot_convert enc a 5) N)).

Lemma ia64_body_value now enc pre w post : Z.of_nat (length w) = 16 -> bytes w ->
  exists w', ia64_body now enc (Z.of_nat (length pre)) (pre ++ w ++ post) = Some (pre ++ w' ++ post, Z.of_nat (length pre)) /\
    length w' = length w /\ bytes w' /\ le w' = bundle_convert enc (u32 (now + Z.of_nat (length pre))) (le w).
Proof.
  intros Hl Hb. unfold ia64_body, bundle_convert. set (i := Z.of_nat (length pre)). set (a := u32 (now + i)).
  assert (rd BRANCH_TABLE (Z.land (default 0 (w !! 0%nat)) 0x1F) = Some (ia64_mask (le w))) as Hm.
  { destruct w as [| b w]; [done |]. unfold ia64_mask. cbn [lookup list_lookup default le]. change 0x1F with (Z.ones 5). rewrite !Z.land_ones by done.
    assert ((b + 2 ^ 8 * le w) mod 2 ^ 5 = b mod 2 ^ 5) as ->
      by (change (2 ^ 8) with 256; change (2 ^ 5) with 32; replace (b + 256 * le w) with (b + 8 * le w * 32) by lia; by rewrite Z.mod_add).
    pose proof (Z.mod_pos_bound b (2 ^ 5) ltac:(lia)) as Hr. unfold rd, id. rewrite (proj2 (Z.ltb_ge (b mod 2 ^ 5) 0) (proj1 Hr)).
    destruct (BRANCH_TABLE !! Z.to_nat (b mod 2 ^ 5)) eqn:E; [done |]. apply lookup_ge_None in E. change (length BRANCH_TABLE) with 32%nat in E.
    change (2 ^ 5) with 32 in *. lia. }
  assert (rd (pre ++ w ++ post) i = Some (default 0 (w !! 0%nat))) as Hr.
  { destruct w as [| b w]; [done |]. cbn [app lookup list_lookup default]. by apply rd_app. }
  rewrite Hr. cbn [mbind option_bind]. rewrite Hm. cbn [mbind option_bind].
  set (m := ia64_mask (le w)).
  (* one slot after the other *)
  assert (forall slot s v, Z.of_nat (length v) = 16 -> bytes v -> (s = 5 \/ s = 46 \/ s = 87) ->
    exists v', (if Z.land (Z.shiftr m slot) 1 =? 0 then Some (pre ++ v ++ post)
                else
                  instruction ← ia64_gather 6 0 (i + Z.shiftr s 3) (pre ++ v ++ post) 0;
                  match ia64_convert now enc i (Z.land s 7) instruction with
                  | Some instruction => ia64_scatter 6 0 (i + Z.shiftr s 3) instruction (pre ++ v ++ post)
                  | None => Some (pre ++ v ++ post)
                  end) = Some (pre ++ v' ++ post) /\
      length v' = length v /\ bytes v' /\ le v' = if_slot m slot (slot_convert enc a s) (le v)) as Hstep.
  { intros slot s v Hv Hbv Hs. unfold if_slot. destruct (Z.land (Z.shiftr m slot) 1 =? 0); [by exists v |].
    destruct Hs as [-> | [-> | ->]]; [apply (slot_value now enc pre v post 0 5) | apply (slot_value now enc pre v post 5 6) | apply (slot_value now enc pre v post 10 7)]; done || lia. }
  cbn [ia64_slots]. change (5 + 41) with 46. change (46 + 41) with 87. change (0 + 1) with 1. change (1 + 1) with 2.
  destruct (Hstep 0 5 w Hl Hb ltac:(auto)) as (w1 & E1 & L1 & B1 & V1). cbv zeta in E1 |- *. rewrite E1. cbn [mbind option_bind].
  destruct (Hstep 1 46 w1 ltac:(lia) B1 ltac:(auto)) as (w2 & E2 & L2 & B2 & V2). rewrite E2. cbn [mbind option_bind].
  destruct (Hstep 2 87 w2 ltac:(lia) B2 ltac:(auto)) as (w3 & E3 & L3 & B3 & V3). rewrite E3. cbn [mbind option_bind].
  exists w3. split; [done |]. split; [lia |]. split; [done |]. by rewrite V3, V2, V1.
Qed.

(** The window function of the filter. *)
Definition ia64_window (enc : bool) (a : Z) (w : list Z) : list Z * Z :=
  match ia64_body a enc 0 w with Some (w', _) => (w', 0) | None => (w, 0) end.

Lemma ia64_window_value enc a w : Z.of_nat (length w) = 16 -> bytes w ->
  exists w', ia64_window enc a w = (w', 0) /\ length w' = length w /\ bytes w' /\ le w' = bundle_convert enc (u32 a) (le w).
Proof.
  intros Hl Hb. destruct (ia64_body_value a enc [] w [] Hl Hb) as (w' & E & L & B & V).
  change (Z.of_nat (length [])) with 0 in E, V. cbn [app] in E. rewrite !app_nil_r in E. rewrite Z.add_0_r in V.
  exists w'. unfold ia64_window. by rewrite E.
Qed.

(** Windows that are not of bytes do not arise; the filter leaves their length
    alone as well. *)
Lemma ia64_slots_length n slot bp mask now enc i buf buf' :
  ia64_slots n slot bp mask now enc i buf = Some buf' -> length buf' = length buf.
Proof.
  assert (forall k j at_ x b b', ia64_scatter k j at_ x b = Some b' -> length b' = length b) as Hsc.
  { induction k as [| k IH]; intros j at_ x b b'; cbn [ia64_scatter]; [by intros [= <-] |].
    destruct (wr b (at_ + j) _) as [b1 |] eqn:E; [| done]. cbn [mbind option_bind]. intros H%IH. apply wr_length in E. lia. }
  revert slot bp buf. induction n as [| n IH]; intros slot bp buf; cbn [ia64_slots]; [by intros [= <-] |]. cbv zeta.
  destruct (Z.land (Z.shiftr mask slot) 1 =? 0); cbn [mbind option_bind]; [apply IH |].
  destruct (ia64_gather _ _ _ _ _) as [I |]; [| done]. cbn [mbind option_bind].
  destruct (ia64_convert now enc i _ I) as [I' |]; cbn [mbind option_bind]; [| apply IH].
  destruct (ia64_scatter _ _ _ _ _) as [b1 |] eqn:E; [| done]. cbn [mbind option_bind]. intros H%IH. apply Hsc in E. lia.
Qed.

#[export] Instance ia64_is_window : Window 16 16 ia64_body ia64_window.
Proof.
  assert (forall enc a w, length (ia64_window enc a w).1 = length w /\ (ia64_window enc a w).2 = 0) as Hlen.
  { intros enc a w. unfold ia64_window, ia64_body. destruct (rd w 0); [| done]. cbn [mbind option_bind].
    destruct (rd BRANCH_TABLE _); [| done]. cbn [mbind option_bind].
    destruct (ia64_slots _ _ _ _ _ _ _ _) eqn:E; [| done]. cbn [mbind option_bind]. apply ia64_slots_length in E. done. }
  split.
  - lia.
  - intros. apply Hlen.
  - intros enc a w _. rewrite (proj2 (Hlen enc a w)). lia.
  - intros enc a w Hw. destruct (Hlen enc a w) as [H1 ->]. rewrite !drop_ge by lia. done.
  - intros enc a w Hw Hb. by destruct (ia64_window_value enc a w Hw Hb) as (w' & -> & _ & ? & _).
  - intros now enc pre w post Hw Hb.
    destruct (ia64_body_value now enc pre w post Hw Hb) as (w1 & -> & L1 & B1 & V1).
    destruct (ia64_window_value enc (u32 (now + Z.of_nat (length pre))) w Hw Hb) as (w2 & -> & L2 & B2 & V2).
    cbn [fst snd]. rewrite Z.add_0_r. rewrite u32_idemp in V2. do 4 f_equal. apply le_inj; congruence.
Qed.

Lemma bundle_mask enc a N : ia64_mask (bundle_convert enc a N) = ia64_mask N.
Proof.
  unfold ia64_mask. do 2 f_equal. change 0x1F with (Z.ones 5). apply Z.bits_inj'. intros k Hk.
  rewrite !Z.land_spec, testbit_ones_neg by done. destruct (Z.ltb_spec k 5); [| by rewrite !andb_false_r]. f_equal.
  assert (forall m slot s M, 5 <= s -> Z.testbit (if_slot m slot (slot_convert enc a s) M) k = Z.testbit M k) as Hif.
  { intros m slot s M Hs. unfold if_slot. case_match; [done |]. apply slot_convert_outside; [done |].
    destruct (in_field (k - s)) eqn:E; [| done]. apply field_range in E. lia. }
  unfold bundle_convert. by rewrite !Hif by lia.
Qed.

Lemma bundle_roundtrip a N : a mod 2 ^ 4 = 0 -> bundle_convert false a (bundle_convert true a N) = N.
Proof.
  intros Ha. unfold bundle_convert at 1. rewrite bundle_mask. set (m := ia64_mask N).
  assert (forall e1 e2 j1 j2 s1 s2 M, 0 <= s1 -> 0 <= s2 -> s1 + 41 <= s2 \/ s2 + 41 <= s1 ->
    if_slot m j1 (slot_convert e1 a s1) (if_slot m j2 (slot_convert e2 a s2) M)
    = if_slot m j2 (slot_convert e2 a s2) (if_slot m j1 (slot_convert e1 a s1) M)) as Hcom.
  { intros e1 e2 j1 j2 s1 s2 M H1 H2 Hd. unfold if_slot. do 2 case_match; try done. by apply slot_convert_commute. }
  assert (forall j s M, 0 <= s -> if_slot m j (slot_convert false a s) (if_slot m j (slot_convert true a s) M) = M) as Hrt.
  { intros j s M Hs. unfold if_slot. case_match; [done |]. by apply slot_convert_roundtrip. }
  unfold bundle_convert. fold m.
  rewrite (Hcom false true 0 2 5 87), (Hcom false true 0 1 5 46), Hrt by lia.
  rewrite (Hcom false true 1 2 46 87), Hrt by lia. by rewrite Hrt by lia.
Qed.

Lemma ia64_window_roundtrip a w : a mod 16 = 0 -> 0 <= a < 2 ^ 32 -> Z.of_nat (length w) = 16 -> bytes w ->
  ia64_window false a (ia64_window true a w).1 = (w, 0).
Proof.
  intros Ha Hr Hw Hb. destruct (ia64_window_value true a w Hw Hb) as (w1 & -> & L1 & B1 & V1). cbn [fst].
  destruct (ia64_window_value false a w1 ltac:(lia) B1) as (w2 & -> & L2 & B2 & V2). f_equal.
  apply le_inj; [congruence | done | done |]. rewrite V2, V1, u32_small by done. by apply bundle_roundtrip.
Qed.

(** ** All filters of fixed layout *)

(** C27: The filters for ARM, ARM-Thumb, PowerPC, SPARC and Itanium, at any address
    of the alignment that [lzma_simple_coder_init] asks for: a buffer that was
    encoded decodes to what it was, as many bytes are done both ways, fewer
    than an instruction are left, and those are unchanged; no access is outside
    the buffer. *)
Theorem bcj_roundtrip p l : bytes l -> 0 <= p < 2 ^ 32 -> p mod 2 = 0 ->
  undone_by armthumb_code p 4 l /\
  (p mod 4 = 0 -> undone_by arm_code p 4 l /\ undone_by powerpc_code p 4 l /\ undone_by sparc_code p 4 l) /\
  (p mod 16 = 0 -> undone_by ia64_code p 16 l).
Proof.
  intros Hb Hp H2.
  assert (Z.of_nat 4 | 2 ^ 32) as D4 by (by exists (2 ^ 30)). assert (Z.of_nat 16 | 2 ^ 32) as D16 by (by exists (2 ^ 28)).
  split; [| split].
  - apply (undone_by_window 4 2 armthumb_body armthumb_window); try done. by apply thumb_roundtrip.
  - intros H4. split_and!.
    + apply (undone_by_window 4 4 arm_body arm_window); try done.
      apply (converted_roundtrip 4 arm_window D4); auto using arm_window_roundtrip.
    + apply (undone_by_window 4 4 powerpc_body powerpc_window); try done.
      apply (converted_roundtrip 4 powerpc_window D4); auto using powerpc_window_roundtrip.
    + apply (undone_by_window 4 4 sparc_body sparc_window); try done.
      apply (converted_roundtrip 4 sparc_window D4); auto using sparc_window_roundtrip.
  - intros H16. apply (undone_by_window 16 16 ia64_body ia64_window); try done.
    apply (converted_roundtrip 16 ia64_window D16); auto using ia64_window_roundtrip.
Qed.

Lemma bcj_roundtrip_witness :
  bytes [1; 2; 3; 4; 0; 0; 0; 0xEB; 9] /\ undone_by armthumb_code 0x100 4 [1; 2; 3; 4; 0; 0; 0; 0xEB; 9] /\
  undone_by arm_code 0x100 4 [1; 2; 3; 4; 0; 0; 0; 0xEB; 9] /\ undone_by ia64_code 0x100 16 [1; 2; 3; 4; 0; 0; 0; 0xEB; 9].
Proof.
  assert (bytes [1; 2; 3; 4; 0; 0; 0; 0xEB; 9]) as Hb by (apply (bool_decide_unpack _); reflexivity).
  split; [exact Hb |].
  destruct (bcj_roundtrip 0x100 [1; 2; 3; 4; 0; 0; 0; 0xEB; 9] Hb) as (H1 & H2 & H3); [lia | reflexivity |].
  split; [exact H1 |]. split; [apply H2; reflexivity | apply H3; reflexivity].
Defined.
