(* ===== verification/SimpleCoder.v ===== *)
(** * liblzma: the wrapper of the branch filters

    simple/simple_coder.c and simple/simple_private.h: a branch filter in a
    chain of coders. The filter works on whole instructions, the application
    on pieces of any size, so the wrapper keeps what the filter could not do
    yet, and what it has done but found no room for, in a small buffer.

    [filter] is the [filter] member of the coder: from the state of the filter,
    the position, the direction and the bytes, the new state, the new bytes
    and how many of them are done. The next coder of the chain is a parameter.
    [None] is an access outside a buffer or an assertion that fails. *)

From Stdlib Require Import ZArith Lia.
From stdpp Require Import base list option.
From S2P Require Import Prelude LzmaBase Coder Simple.
Local Open Scope Z_scope.

Record lzma_simple_coder {simple_t : Type} := MkSimple {
  end_was_reached : bool; is_encoder : bool; simple : simple_t; now_pos : Z;
  allocated : Z; pos : Z; filtered : Z; size : Z; buffer : list Z }.
Arguments lzma_simple_coder : clear implicits.

Section coder.
  Context {simple_t : Type} (filter : simple_t -> Z -> bool -> list Z -> option (simple_t * list Z * Z)).
  Context {next : Type} (next_code : next -> io -> lzma_action -> option (lzma_ret * next * io)).

Definition set_end (c : lzma_simple_coder simple_t) : lzma_simple_coder simple_t :=
  MkSimple _ true (is_encoder c) (simple c) (now_pos c) (allocated c) (pos c) (filtered c) (size c) (buffer c).

Definition set_buffer (c : lzma_simple_coder simple_t) (pos filtered size : Z) (buffer : list Z) : lzma_simple_coder simple_t :=
  MkSimple _ (end_was_reached c) (is_encoder c) (simple c) (now_pos c) (allocated c) pos filtered size buffer.

(** [has_next] is [coder->next.code != NULL]. *)
Definition copy_or_code (has_next : bool) (c : lzma_simple_coder simple_t) (nx : next) (o : io) (action : lzma_action)
    : option (lzma_ret * lzma_simple_coder simple_t * next * io) :=
  assert (negb (end_was_reached c)) ;;
  if negb has_next then
    '(in_pos, out, out_pos) ← lzma_bufcpy (inp o) (in_pos o) (in_size o) (out o) (out_pos o) (out_size o);
    let c := if is_encoder c && bool_decide (action = LZMA_FINISH) && (in_pos =? in_size o) then set_end c else c in
    Some (LZMA_OK, c, nx, MkIo (inp o) in_pos out out_pos)
  else
    '(ret, nx, o) ← next_code nx o action;
    if bool_decide (ret = LZMA_STREAM_END) then
      assert (negb (is_encoder c) || bool_decide (action = LZMA_FINISH)) ;;
      Some (LZMA_OK, set_end c, nx, o)
    else Some (ret, c, nx, o).

Definition call_filter (c : lzma_simple_coder simple_t) (buf : list Z) : option (Z * lzma_simple_coder simple_t * list Z) :=
  '(s, buf, n) ← filter (simple c) (now_pos c) (is_encoder c) buf;
  Some (n, MkSimple _ (end_was_reached c) (is_encoder c) s (u32 (now_pos c + n)) (allocated c) (pos c) (filtered c) (size c) (buffer c), buf).

(** [memcpy(out + *out_pos, coder->buffer + coder->pos, buf_avail)] and
    [*out_pos += buf_avail]. *)
Definition spill (c : lzma_simple_coder simple_t) (o : io) (buf_avail : Z) : option io :=
  bs ← rd_bytes (buffer c) (pos c) (Z.to_nat buf_avail);
  out ← wr_bytes (out o) (out_pos o) bs;
  Some (MkIo (inp o) (in_pos o) out (out_pos o + buf_avail)).

(** The first half: what is in the buffer and more data, filtered in [out]. *)
Definition fill_out (has_next : bool) (c : lzma_simple_coder simple_t) (nx : next) (o : io) (action : lzma_action)
    : option (lzma_ret * lzma_simple_coder simple_t * next * io) :=
  let out_start := out_pos o in
  let buf_avail := u64 (size c - pos c) in
  o ← spill c o buf_avail;
  '(ret, c, nx, o) ← copy_or_code has_next c nx o action;
  assert (negb (bool_decide (ret = LZMA_STREAM_END))) ;;
  if negb (bool_decide (ret = LZMA_OK)) then Some (ret, c, nx, o)
  else
    let sz := out_pos o - out_start in
    region ← rd_bytes (out o) out_start (Z.to_nat sz);
    '(done_, c, region) ← call_filter c region;
    out' ← wr_bytes (out o) out_start region;
    let unfiltered := sz - done_ in
    assert (unfiltered <=? allocated c / 2) ;;
    let c := set_buffer c 0 (filtered c) unfiltered (buffer c) in
    if end_was_reached c then Some (LZMA_OK, set_buffer c 0 (filtered c) 0 (buffer c), nx, MkIo (inp o) (in_pos o) out' (out_pos o))
    else if 0 <? unfiltered then
      let out_pos' := out_pos o - unfiltered in
      bs ← rd_bytes out' out_pos' (Z.to_nat unfiltered);
      buf ← wr_bytes (buffer c) 0 bs;
      Some (LZMA_OK, set_buffer c 0 (filtered c) unfiltered buf, nx, MkIo (inp o) (in_pos o) out' out_pos')
    else Some (LZMA_OK, c, nx, MkIo (inp o) (in_pos o) out' (out_pos o)).

(** The second half: more data into the buffer, filtered there, as much of it
    put out as there is room for. *)
Definition fill_buffer (has_next : bool) (c : lzma_simple_coder simple_t) (nx : next) (o : io) (action : lzma_action)
    : option (lzma_ret * lzma_simple_coder simple_t * next * io) :=
  '(ret, c, nx, b) ← copy_or_code has_next c nx (MkIo (inp o) (in_pos o) (buffer c) (size c)) action;
  assert (negb (bool_decide (ret = LZMA_STREAM_END))) ;;
  let o := MkIo (inp o) (in_pos b) (out o) (out_pos o) in
  let c := set_buffer c (pos c) (filtered c) (out_pos b) (out b) in
  if negb (bool_decide (ret = LZMA_OK)) then Some (ret, c, nx, o)
  else
    region ← rd_bytes (buffer c) 0 (Z.to_nat (size c));
    '(done_, c, region) ← call_filter c region;
    buf ← wr_bytes (buffer c) 0 region;
    let c := set_buffer c (pos c) (if end_was_reached c then size c else done_) (size c) buf in
    '(p, out', op) ← lzma_bufcpy (buffer c) (pos c) (filtered c) (out o) (out_pos o) (out_size o);
    Some (LZMA_OK, set_buffer c p (filtered c) (size c) (buffer c), nx, MkIo (inp o) (in_pos o) out' op).

(** Flushing what is filtered; [Some ret] is an early return. *)
Definition flush_held (c : lzma_simple_coder simple_t) (o : io) : option (option lzma_ret * lzma_simple_coder simple_t * io) :=
  if pos c <? filtered c then
    '(p, out', op) ← lzma_bufcpy (buffer c) (pos c) (filtered c) (out o) (out_pos o) (out_size o);
    let c := set_buffer c p (filtered c) (size c) (buffer c) in
    let o := MkIo (inp o) (in_pos o) out' op in
    if pos c <? filtered c then Some (Some LZMA_OK, c, o)
    else if end_was_reached c then assert (filtered c =? size c) ;; Some (Some LZMA_STREAM_END, c, o)
    else Some (None, c, o)
  else Some (None, c, o).

(** Where there is room, the output is filled; else the undone bytes move to
    the start of the buffer. *)
Definition refill (has_next : bool) (c : lzma_simple_coder simple_t) (nx : next) (o : io) (action : lzma_action)
    : option (lzma_ret * lzma_simple_coder simple_t * next * io) :=
  let out_avail := u64 (out_size o - out_pos o) in
  let buf_avail := u64 (size c - pos c) in
  if (buf_avail <? out_avail) || (buf_avail =? 0) then fill_out has_next c nx o action
  else if 0 <? pos c then
    bs ← rd_bytes (buffer c) (pos c) (Z.to_nat buf_avail);
    buf ← wr_bytes (buffer c) 0 bs;
    Some (LZMA_OK, set_buffer c 0 (filtered c) (size c - pos c) buf, nx, o)
  else Some (LZMA_OK, c, nx, o).

Definition simple_code (has_next : bool) (c : lzma_simple_coder simple_t) (nx : next) (o : io) (action : lzma_action)
    : option (lzma_ret * lzma_simple_coder simple_t * next * io) :=
  if bool_decide (action = LZMA_SYNC_FLUSH) then Some (LZMA_OPTIONS_ERROR, c, nx, o)
  else
    '(early, c, o) ← flush_held c o;
    match early with
    | Some ret => Some (ret, c, nx, o)
    | None =>
        let c := set_buffer c (pos c) 0 (size c) (buffer c) in
        assert (negb (end_was_reached c)) ;;
        '(ret, c, nx, o) ← refill has_next c nx o action;
        if negb (bool_decide (ret = LZMA_OK)) then Some (ret, c, nx, o)
        else
          assert (pos c =? 0) ;;
          '(ret, c, nx, o) ← (if 0 <? size c then fill_buffer has_next c nx o action else Some (LZMA_OK, c, nx, o));
          if negb (bool_decide (ret = LZMA_OK)) then Some (ret, c, nx, o)
          else if end_was_reached c && (pos c =? size c) then Some (LZMA_STREAM_END, c, nx, o)
          else Some (LZMA_OK, c, nx, o)
    end.

(** [start] is the state of a filter that has seen nothing, [start_offset] the
    option, if there are any; [alloc] and [alloc_simple] say which allocations
    succeed, the second is made when the filter has a state of its own. *)
Definition lzma_simple_coder_init (coder : option (lzma_simple_coder simple_t)) (alloc alloc_simple : bool)
    (start : simple_t) (fresh_buffer : list Z) (unfiltered_max alignment : Z) (encoder : bool)
    (start_offset : option Z) (next_init : lzma_ret) : lzma_ret * option (lzma_simple_coder simple_t) :=
  let fresh := MkSimple _ false encoder start 0 (2 * unfiltered_max) 0 0 0 fresh_buffer in
  match coder, alloc, alloc_simple with
  | None, false, _ => (LZMA_MEM_ERROR, None)
  | None, true, false => (LZMA_MEM_ERROR, Some fresh)
  | _, _, _ =>
      let c := default fresh coder in
      let off := default 0 start_offset in
      if negb (Z.land off (alignment - 1) =? 0) then
        (LZMA_OPTIONS_ERROR, Some (MkSimple _ (end_was_reached c) (is_encoder c) (simple c) off (allocated c) (pos c) (filtered c) (size c) (buffer c)))
      else (next_init, Some (MkSimple _ false encoder (simple c) off (allocated c) 0 0 0 (buffer c)))
  end.
End coder.

(** ** What the wrapper asks of a filter

    [whole] is what the filter means on data of any size; the code gives it on
    every buffer of at most [limit] bytes, from a state [wf] says can come before
    the data, up to what no later call tells apart ([eqv p], for calls at the
    position [p]). It keeps the size of the data; fewer than [max] bytes at the end
    are left undone, and are left as they are; and going on from the undone bytes,
    with more data after them, is like doing everything at once. *)
Class Filter {simple_t : Type} (filter : simple_t -> Z -> bool -> list Z -> option (simple_t * list Z * Z))
    (whole : simple_t -> Z -> bool -> list Z -> simple_t * list Z * Z)
    (wf : Z -> simple_t -> list Z -> Prop) (eqv : Z -> simple_t -> simple_t -> Prop) (max limit : Z) : Prop := {
  f_max : 0 < max < 2 ^ 32 /\ 2 * max <= limit;
  f_equiv p :: Equivalence (eqv p);
  f_nil s p e : exists s', whole s p e [] = (s', [], 0) /\ eqv p s' s;
  f_code s p e l : bytes l -> wf p s l -> Z.of_nat (length l) <= limit ->
    exists t u l' n, filter s p e l = Some (t, l', n) /\ whole s p e l = (u, l', n) /\ eqv (u32 (p + n)) t u;
  f_whole s p e l t l' n : bytes l -> wf p s l -> whole s p e l = (t, l', n) ->
    length l' = length l /\ bytes l' /\ 0 <= n <= Z.of_nat (length l) /\ Z.of_nat (length l) - n < max /\
    drop (Z.to_nat n) l' = drop (Z.to_nat n) l /\ wf (u32 (p + n)) t (drop (Z.to_nat n) l);
  f_more s p a b : wf p s a -> wf p s (a ++ b);
  f_wf s1 s2 p l : eqv p s1 s2 -> wf p s1 l -> wf p s2 l;
  f_proper s1 s2 p e l t1 l' n : bytes l -> wf p s1 l -> eqv p s1 s2 -> whole s1 p e l = (t1, l', n) ->
    exists t2, whole s2 p e l = (t2, l', n) /\ eqv (u32 (p + n)) t1 t2;
  f_split s p e a b t a' n u b' m : bytes (a ++ b) -> wf p s a -> whole s p e a = (t, a', n) ->
    whole t (u32 (p + n)) e (drop (Z.to_nat n) a ++ b) = (u, b', m) ->
    exists v, whole s p e (a ++ b) = (v, take (Z.to_nat n) a' ++ b', n + m) /\ eqv (u32 (p + n + m)) v u
}.

Section refinement.
  Context {simple_t : Type} (filter : simple_t -> Z -> bool -> list Z -> option (simple_t * list Z * Z))
    (whole : simple_t -> Z -> bool -> list Z -> simple_t * list Z * Z) (wf : Z -> simple_t -> list Z -> Prop)
    (eqv : Z -> simple_t -> simple_t -> Prop) (max limit : Z) {F : Filter filter whole wf eqv max limit}.
  Context {next : Type} (next_code : next -> io -> lzma_action -> option (lzma_ret * next * io))
    (given : next -> list Z) {N : NextCoder next_code given}.
  (** A coder in an encoder chain ends only when it was told to finish. *)
  Context (e : bool) (s0 : simple_t) (p0 : Z) (start_wf : wf p0 s0 []) (has_next : bool)
    (ends : forall nx o action ret nx' o', next_code nx o action = Some (ret, nx', o') ->
       ret = LZMA_STREAM_END -> e = false \/ action = LZMA_FINISH).

(** Where the data comes from: what the next coder gave, or the input. *)
Definition sent (nx : next) (o : io) (nx' : next) (o' : io) (d : list Z) : Prop :=
  if has_next then given nx' = given nx ++ d
  else take (Z.to_nat (in_pos o')) (inp o) = take (Z.to_nat (in_pos o)) (inp o) ++ d.

Lemma sent_nil nx o o' : in_pos o' = in_pos o -> sent nx o nx o' [].
Proof. unfold sent. intros ->. destruct has_next; by rewrite app_nil_r. Qed.

Lemma sent_trans nx1 o1 nx2 o2 nx3 o3 d1 d2 : inp o2 = inp o1 -> sent nx1 o1 nx2 o2 d1 -> sent nx2 o2 nx3 o3 d2 ->
  sent nx1 o1 nx3 o3 (d1 ++ d2).
Proof. unfold sent. intros E. destruct has_next; intros H1 H2; [by rewrite H2, H1, app_assoc |]. rewrite E in H2. by rewrite H2, H1, app_assoc. Qed.

Lemma copy_or_code_spec (c : lzma_simple_coder simple_t) nx o action : io_ok o -> bytes (inp o) -> is_encoder c = e -> end_was_reached c = false ->
  exists ret c' nx' o' d, copy_or_code next_code has_next c nx o action = Some (ret, c', nx', o') /\
    moved o o' d /\ bytes d /\ sent nx o nx' o' d /\ ret <> LZMA_STREAM_END /\ (c' = c \/ (c' = set_end c /\ ret = LZMA_OK)).
Proof.
  intros Ho Hb He Hr. unfold copy_or_code, sent. rewrite Hr. cbn [negb assert mbind option_bind].
  destruct has_next; cbn [negb].
  - destruct (next_answers nx o action Ho) as (ret & nx' & o' & d & Hn & Hm & Hd & Hg). rewrite Hn. cbn [mbind option_bind].
    case_bool_decide as Hret.
    + destruct (ends _ _ _ _ _ _ Hn Hret) as [He' | Hf].
      * rewrite He, He'. cbn [negb orb assert mbind option_bind]. do 5 eexists. split; [reflexivity |]. split_and!; try done. by right.
      * rewrite (bool_decide_eq_true_2 (action = _)), orb_true_r by done. cbn [assert mbind option_bind].
        do 5 eexists. split; [reflexivity |]. split_and!; try done. by right.
    + do 5 eexists. split; [reflexivity |]. split_and!; try done. by left.
  - destruct (bufcpy_moved o Ho) as (d & o' & Hc & Hm & Hd & Hp & _). rewrite Hc. cbn [mbind option_bind].
    assert (MkIo (inp o) (in_pos o') (out o') (out_pos o') = o') as Eo by (destruct Hm as (<- & _); by destruct o').
    assert (bytes d) as Hbd by (rewrite Hd; by apply Forall_take, Forall_drop).
    assert (take (Z.to_nat (in_pos o')) (inp o) = take (Z.to_nat (in_pos o)) (inp o) ++ d) as Hs.
    { rewrite Hp. destruct Ho as (Hi & _). rewrite Z2Nat.inj_add, Nat2Z.id, <- take_take_drop by lia. f_equal. by symmetry. }
    do 5 eexists. rewrite Eo. split; [reflexivity |]. split_and!; try done. case_match; [right | left]; done.
Qed.

(** What a coder holds, [D] being all data it got and [O] all it put out. *)
Definition holds (c : lzma_simple_coder simple_t) (D O : list Z) : Prop :=
  exists s D' n, whole s0 p0 e D = (s, D', n) /\ bytes D /\ is_encoder c = e /\
    Z.of_nat (length (buffer c)) = allocated c /\ allocated c = 2 * max /\
    0 <= pos c <= filtered c /\ filtered c <= size c <= allocated c /\
    if end_was_reached c then filtered c = size c /\ O ++ seg (buffer c) (pos c) (size c) = D'
    else eqv (now_pos c) s (simple c) /\ now_pos c = u32 (p0 + n) /\
      O ++ seg (buffer c) (pos c) (filtered c) = take (Z.to_nat n) D' /\
      seg (buffer c) (filtered c) (size c) = drop (Z.to_nat n) D.

(** The same between the steps of a call, when nothing filtered is held. *)
Definition held (c : lzma_simple_coder simple_t) (D O : list Z) : Prop :=
  exists s D' n, whole s0 p0 e D = (s, D', n) /\ bytes D /\ is_encoder c = e /\
    Z.of_nat (length (buffer c)) = allocated c /\ allocated c = 2 * max /\
    0 <= pos c <= size c /\ size c <= allocated c /\ filtered c = 0 /\
    end_was_reached c = false /\ eqv (now_pos c) s (simple c) /\ now_pos c = u32 (p0 + n) /\
    O = take (Z.to_nat n) D' /\ seg (buffer c) (pos c) (size c) = drop (Z.to_nat n) D.

(** More data [d] after the undone bytes: filtering those together is
    filtering everything. *)
Lemma filter_more c D O d : held c D O -> bytes d -> size c - pos c + Z.of_nat (length d) <= limit ->
  exists s region m s' D2 n, 
    filter (simple c) (now_pos c) e (seg (buffer c) (pos c) (size c) ++ d) = Some (s, region, m) /\
    whole s0 p0 e (D ++ d) = (s', D2, n) /\ eqv (u32 (now_pos c + m)) s' s /\ u32 (p0 + n) = u32 (now_pos c + m) /\
    D2 = O ++ region /\ Z.of_nat (length region) = size c - pos c + Z.of_nat (length d) /\
    0 <= m <= Z.of_nat (length region) /\ Z.of_nat (length region) - m < max /\
    take (Z.to_nat n) D2 = O ++ take (Z.to_nat m) region /\
    drop (Z.to_nat n) (D ++ d) = drop (Z.to_nat m) region.
Proof.
  intros (s & D' & n & Hf & HD & He & Hl & Ha & Hp & Hs & _ & _ & Hv & Hn & HO & Hseg) Hd Hlim.
  assert (bytes (D ++ d)) as HDd by (by apply Forall_app). assert (bytes (drop (Z.to_nat n) D ++ d)) as Hrd.
  { apply Forall_app. split; [by apply Forall_drop | done]. }
  assert (wf p0 s0 D) as Hwf by (apply (f_more s0 p0 [] D start_wf)).
  destruct (f_whole s0 p0 e D _ _ _ HD Hwf Hf) as (L1 & B1 & N1 & U1 & T1 & W1). rewrite <- Hn in W1.
  apply (f_more _ _ _ d) in W1. pose proof (f_wf _ _ _ _ Hv W1) as W2.
  assert (Z.of_nat (length (drop (Z.to_nat n) D)) = size c - pos c) as Ld by (rewrite <- Hseg; apply seg_length; lia).
  rewrite Hseg. destruct (f_code (simple c) (now_pos c) e _ Hrd W2) as (t & u & region & m & Hg & Hw & Htu); [rewrite length_app; lia |].
  destruct (f_whole _ _ _ _ _ _ _ Hrd W2 Hw) as (L2 & B2 & N2 & U2 & T2 & _).
  pose proof (f_equiv (eqv := eqv) (now_pos c)) as Heq0. pose proof (f_equiv (eqv := eqv) (u32 (now_pos c + m))) as Heq.
  assert (eqv (now_pos c) (simple c) s) as Hv' by (by symmetry).
  destruct (f_proper (simple c) s (now_pos c) e _ _ _ _ Hrd W2 Hv' Hw) as (t2 & Hg2 & Ht).
  rewrite Hn in Hg2. destruct (f_split s0 p0 e D d _ _ _ _ _ _ HDd Hwf Hf Hg2) as (v & Hv2 & Hev).
  rewrite length_app in L2. rewrite length_drop in Ld.
  assert (length O = Z.to_nat n) as LO by (rewrite HO, length_take; lia).
  exists t, region, m, v, (O ++ region), (n + m). split; [done |]. split; [by rewrite HO |].
  assert (u32 (p0 + (n + m)) = u32 (now_pos c + m)) as Eu by (rewrite Hn, Z.add_assoc; unfold u32, wrap; by rewrite Z.add_mod_idemp_l).
  split. { transitivity t2; [by rewrite <- Eu, Z.add_assoc |]. transitivity u; by symmetry. }
  split; [done |]. split; [done |]. split; [rewrite L2, length_drop; lia |].
  rewrite L2, length_drop. rewrite length_app, length_drop in N2, U2. split; [lia |]. split; [lia |].
  rewrite Z2Nat.inj_add by lia. split; [by rewrite take_app_add' by lia |].
  rewrite T2, <- drop_drop. f_equal. rewrite drop_app_le; [done | lia].
Qed.

(** [w] is what a call put out. *)
Definition put_out (o o' : io) (w : list Z) : Prop :=
  inp o' = inp o /\ in_pos o <= in_pos o' <= in_size o /\ length (out o') = length (out o) /\
  out_pos o' = out_pos o + Z.of_nat (length w) /\ out_pos o' <= out_size o /\
  take (Z.to_nat (out_pos o')) (out o') = take (Z.to_nat (out_pos o)) (out o) ++ w.

Lemma moved_put o o' w : moved o o' w <-> put_out o o' w.
Proof. done. Qed.

Implicit Types c : lzma_simple_coder simple_t.

Lemma spill_spec c o : io_ok o -> 0 <= pos c <= size c -> size c <= Z.of_nat (length (buffer c)) ->
  size c - pos c <= out_size o - out_pos o ->
  exists o', spill c o (size c - pos c) = Some o' /\ moved o o' (seg (buffer c) (pos c) (size c)) /\ in_pos o' = in_pos o.
Proof.
  intros (Hi & Ho & _) Hp Hs Hr. unfold spill, out_size, in_size in *. rewrite (rd_bytes_seg _ _ (size c)) by lia. cbn [mbind option_bind].
  pose proof (seg_length (buffer c) (pos c) (size c) Hp Hs) as Hl. set (bs := seg _ _ _) in *.
  rewrite wr_bytes_seg by lia. cbn [mbind option_bind]. eexists. split; [reflexivity |]. split; [| done].
  unfold moved, in_size, out_size. cbn [inp in_pos out out_pos]. rewrite !length_app, length_take, length_drop.
  split_and!; try done; try lia. rewrite app_assoc, take_app_length'; [done |]. rewrite length_app, length_take. lia.
Qed.

(** The part of the output between two positions, and what replaces it. *)
Lemma region_spec o1 o2 w : 0 <= out_pos o1 -> moved o1 o2 w ->
  rd_bytes (out o2) (out_pos o1) (length w) = Some w /\
  forall w', length w' = length w ->
    wr_bytes (out o2) (out_pos o1) w' = Some (take (Z.to_nat (out_pos o1)) (out o1) ++ w' ++ drop (Z.to_nat (out_pos o2)) (out o2)).
Proof.
  intros H0 (_ & _ & Hl & Hp & Hs & Ht). unfold out_size in Hs.
  assert (out o2 = take (Z.to_nat (out_pos o1)) (out o1) ++ w ++ drop (Z.to_nat (out_pos o2)) (out o2)) as E
    by (by rewrite app_assoc, <- Ht, take_drop).
  split.
  - rewrite E at 1. apply rd_bytes_app; [rewrite length_take; lia | done].
  - intros w' Hw'. rewrite E at 1. rewrite wr_bytes_app by (rewrite ?length_take; lia). done.
Qed.

(** What a call put out, when only the first [k] bytes of the region count. *)
Lemma put_region o o2 w region k : io_ok o -> moved o o2 w -> length region = length w -> 0 <= k <= Z.of_nat (length region) ->
  let out' := take (Z.to_nat (out_pos o)) (out o) ++ region ++ drop (Z.to_nat (out_pos o2)) (out o2) in
  put_out o (MkIo (inp o2) (in_pos o2) out' (out_pos o + k)) (take (Z.to_nat k) region) /\
  rd_bytes out' (out_pos o + k) (length region - Z.to_nat k) = Some (drop (Z.to_nat k) region).
Proof.
  intros (_ & Ho & _) (M1 & M2 & M3 & M4 & M5 & _) Hl Hk out'. unfold out_size in *.
  assert (out' = (take (Z.to_nat (out_pos o)) (out o) ++ take (Z.to_nat k) region) ++ drop (Z.to_nat k) region ++ drop (Z.to_nat (out_pos o2)) (out o2)) as E
    by (unfold out'; by rewrite <- app_assoc, (app_assoc (take (Z.to_nat k) region)), take_drop).
  split.
  - unfold put_out, in_size, out_size in *. cbn [inp in_pos out out_pos].
    split_and!; try done; try lia; [unfold out'; rewrite !length_app, length_take, length_drop; lia | rewrite length_take; lia |].
    rewrite E, take_app_length'; [done |]. rewrite length_app, !length_take. lia.
  - rewrite E. apply rd_bytes_app; rewrite ?length_app, ?length_take, ?length_drop; lia.
Qed.

Lemma seg_nil l i : seg l i i = [].
Proof. unfold seg. by rewrite Z.sub_diag. Qed.

(** The first bytes of a buffer that was written from its start. *)
Lemma seg_head src l n : n = Z.of_nat (length src) -> seg (src ++ l) 0 n = src.
Proof. intros ->. unfold seg. rewrite Z.sub_0_r, Nat2Z.id. by apply take_app_length'. Qed.

Lemma fill_out_spec c D O nx o action : held c D O -> io_ok o -> out_size o <= limit -> bytes (inp o) ->
  size c - pos c < out_size o - out_pos o \/ size c - pos c = 0 ->
  exists ret c' nx' o' d, fill_out filter next_code has_next c nx o action = Some (ret, c', nx', o') /\
    ret <> LZMA_STREAM_END /\ sent nx o nx' o' d /\
    (ret = LZMA_OK -> exists w, put_out o o' w /\ holds c' (D ++ d) (O ++ w) /\ pos c' = 0 /\ filtered c' = 0).
Proof.
  intros Hh Ho Hlim Hb Hr.
  pose proof Hh as (s & D' & n & _ & _ & He & Hl & Ha & Hp & Hs & Hf0 & Hend & _). pose proof (f_max (filter := filter)) as Hmax.
  assert (0 <= out_pos o) as Hop by apply Ho.
  unfold fill_out. rewrite u64_small by (change (2 ^ 64) with (2 ^ 32 * 2 ^ 32); lia).
  destruct (spill_spec c o Ho Hp) as (o1 & -> & Hm1 & Hi1); [lia | unfold io_ok in Ho; lia |]. cbn [mbind option_bind].
  pose proof (moved_ok _ _ _ Ho Hm1) as Ho1.
  destruct (copy_or_code_spec c nx o1 action Ho1) as (ret & c1 & nx1 & o2 & d & -> & Hm2 & Hd & Hsent & Hret & Hc1);
    [by destruct Hm1 as (-> & _) | done | done |]. cbn [mbind option_bind].
  rewrite (bool_decide_eq_false_2 (ret = LZMA_STREAM_END)) by done. cbn [negb assert mbind option_bind].
  assert (sent nx o nx1 o2 d) as Hsent'.
  { apply (sent_trans nx o nx o1 nx1 o2 []); [by destruct Hm1 as (-> & _) | by apply sent_nil | done]. }
  case_bool_decide as Hok; cbn [negb]; [| do 5 eexists; split; [reflexivity |]; done].
  pose proof (moved_trans _ _ _ _ _ Hop Hm1 Hm2) as Hm. set (w := seg _ _ _ ++ d) in *.
  destruct (region_spec o o2 w Hop Hm) as [Hrd Hwr].
  assert (out_pos o2 - out_pos o = Z.of_nat (length w)) as Esz by (destruct Hm as (_ & _ & _ & -> & _); lia).
  rewrite Esz, Nat2Z.id, Hrd. cbn [mbind option_bind].
  assert (simple c1 = simple c /\ now_pos c1 = now_pos c /\ is_encoder c1 = e /\ buffer c1 = buffer c /\ allocated c1 = allocated c /\
    filtered c1 = 0 /\ size c1 = size c /\ pos c1 = pos c) as (Es1 & En1 & Ee1 & Eb1 & Ea1 & Ef1 & Esz1 & Ep1) by (destruct Hc1 as [-> | [-> _]]; done).
  pose proof (seg_length (buffer c) (pos c) (size c) Hp ltac:(lia)) as Hsl.
  assert (size c - pos c + Z.of_nat (length d) <= limit) as Hld.
  { unfold w in Esz. rewrite length_app in Esz. destruct Hm as (_ & _ & Hlo & _ & Hps & _). unfold out_size in *. lia. }
  destruct (filter_more c D O d Hh Hd Hld) as (s2 & region & m & s' & D2 & n2 & Hg & Hf & Hv & Hn & HD2 & Hlr & Hm3 & Hu & Ht & Hdr).
  unfold call_filter. rewrite Es1, En1, Ee1. fold w in Hg. rewrite Hg. cbn [mbind option_bind].
  assert (length region = length w) as Elw by (unfold w; rewrite length_app; lia).
  rewrite Hwr by done. cbn [mbind option_bind]. rewrite <- Elw. cbn [allocated].
  rewrite Ea1, Ha, Z.mul_comm, Z.div_mul, (proj2 (Z.leb_le _ _)) by lia. cbn [assert mbind option_bind].
  assert (bytes (D ++ d)) as HDd.
  { apply Forall_app. split; [| done]. by destruct Hh as (? & ? & ? & _ & ? & _). }
  set (un := Z.of_nat (length region) - m) in *.
  cbn [end_was_reached filtered allocated buffer set_buffer size pos is_encoder simple now_pos].
  destruct (end_was_reached c1) eqn:Hec.
  - (* the data has ended *)
    destruct (put_region o o2 w region (Z.of_nat (length region)) Ho Hm Elw) as [Hpo _]; [lia |].
    do 5 eexists. split; [reflexivity |]. split; [done |]. split; [exact Hsent' |]. intros _.
    exists region. rewrite Nat2Z.id, (take_ge region) in Hpo by lia. replace (out_pos o + _) with (out_pos o2) in Hpo by lia.
    split; [exact Hpo |]. split; [| done]. exists s', D2, n2.
    cbn [end_was_reached filtered allocated buffer set_buffer size pos is_encoder simple now_pos].
    rewrite Eb1, Hl, Ef1, seg_nil, app_nil_r. split_and!; try done; lia.
  - destruct (put_region o o2 w region m Ho Hm Elw Hm3) as [Hpo Hrd2].
    assert (forall buf, Z.of_nat (length buf) = allocated c -> seg buf 0 un = drop (Z.to_nat m) region ->
      holds (MkSimple simple_t false e s2 (u32 (now_pos c + m)) (max * 2) 0 0 un buf) (D ++ d) (O ++ take (Z.to_nat m) region)) as Hholds.
    { intros buf Hbl Hbs. exists s', D2, n2. cbn [end_was_reached filtered allocated buffer size pos is_encoder simple now_pos].
      rewrite seg_nil, app_nil_r, Hn, Hdr. split_and!; try done; lia. }
    rewrite Ef1. destruct (Z.ltb_spec 0 un) as [Hun | Hun].
    + replace (out_pos o2 - un) with (out_pos o + m) by lia.
      replace (Z.to_nat un) with (length region - Z.to_nat m)%nat by lia. rewrite Hrd2. cbn [mbind option_bind].
      assert (length (drop (Z.to_nat m) region) = Z.to_nat un) as Hdl by (rewrite length_drop; lia).
      rewrite Eb1, wr_bytes_seg by lia. change (Z.to_nat 0) with 0%nat. rewrite take_0. cbn [mbind option_bind app].
      do 5 eexists. split; [reflexivity |]. split; [done |]. split; [exact Hsent' |]. intros _.
      exists (take (Z.to_nat m) region). split; [exact Hpo |]. split; [| done].
      apply Hholds; [rewrite length_app, Hdl, length_drop; lia | apply seg_head; lia].
    + assert (un = 0) as E0 by lia. assert (m = Z.of_nat (length region)) as Em by lia. clearbody un. subst un m.
      do 5 eexists. split; [reflexivity |]. split; [done |]. split; [exact Hsent' |]. intros _.
      exists (take (Z.to_nat (Z.of_nat (length region))) region). 
      replace (out_pos o + Z.of_nat (length region)) with (out_pos o2) in Hpo by lia. split; [exact Hpo |].
      split; [| done]. rewrite Eb1. apply Hholds; [done |]. rewrite seg_nil. by rewrite Nat2Z.id, drop_all.
Qed.

(** Putting out what is filtered. *)
Lemma flush_spec buf p f ip o : io_ok o -> 0 <= p <= f -> f <= Z.of_nat (length buf) -> f < 2 ^ 64 -> in_pos o <= ip <= in_size o ->
  exists k out', lzma_bufcpy buf p f (out o) (out_pos o) (out_size o) = Some (p + k, out', out_pos o + k) /\
    0 <= k <= f - p /\ put_out o (MkIo (inp o) ip out' (out_pos o + k)) (seg buf p (p + k)).
Proof.
  intros (_ & Ho & _ & Hb) Hp Hf Hf64 Hip. unfold out_size in *. set (k := Z.min (f - p) (Z.of_nat (length (out o)) - out_pos o)).
  unfold lzma_bufcpy. rewrite !u64_small by lia. fold k. rewrite (rd_bytes_seg buf p (p + k)) by lia. cbn [mbind option_bind].
  pose proof (seg_length buf p (p + k) ltac:(lia) ltac:(lia)) as Hl.
  rewrite wr_bytes_seg by lia. cbn [mbind option_bind]. do 2 eexists. split; [reflexivity |]. split; [lia |].
  unfold put_out, in_size, out_size in *. cbn [inp in_pos out out_pos]. rewrite !length_app, length_take, length_drop.
  split_and!; try done; try lia. rewrite app_assoc, take_app_length'; [done |]. rewrite length_app, length_take. lia.
Qed.

Lemma fill_buffer_spec c D O nx o action : held c D O -> pos c = 0 -> io_ok o -> bytes (inp o) ->
  exists ret c' nx' o' d, fill_buffer filter next_code has_next c nx o action = Some (ret, c', nx', o') /\
    ret <> LZMA_STREAM_END /\ sent nx o nx' o' d /\
    (ret = LZMA_OK -> exists w, put_out o o' w /\ holds c' (D ++ d) (O ++ w)).
Proof.
  intros Hh H0 Ho Hb.
  pose proof Hh as (s & D' & n & _ & HDb & He & Hl & Ha & Hp & Hs & Hf0 & Hend & _). pose proof (f_max (filter := filter)) as Hmax.
  unfold fill_buffer. set (b := MkIo (inp o) (in_pos o) (buffer c) (size c)).
  assert (io_ok b) as Hob.
  { destruct Ho as (Hi & _ & Hi64 & _). unfold io_ok, in_size, out_size in *. cbn [b inp in_pos out out_pos].
    change (2 ^ 64) with (2 ^ 32 * 2 ^ 32) in *. lia. }
  destruct (copy_or_code_spec c nx b action Hob) as (ret & c1 & nx1 & b2 & d & -> & Hm & Hd & Hsent & Hret & Hc1); try done.
  cbn [mbind option_bind]. rewrite (bool_decide_eq_false_2 (ret = LZMA_STREAM_END)) by done. cbn [negb assert mbind option_bind].
  assert (forall o3, in_pos o3 = in_pos b2 -> sent nx o nx1 o3 d) as Hsent'.
  { unfold sent in *. destruct has_next; [done |]. intros o3 ->. exact Hsent. }
  case_bool_decide as Hok; cbn [negb]; [| do 5 eexists; split; [reflexivity |]; split; [done |]; split; [by apply Hsent' | done]].
  assert (simple c1 = simple c /\ now_pos c1 = now_pos c /\ is_encoder c1 = e /\ buffer c1 = buffer c /\ allocated c1 = allocated c /\
    filtered c1 = 0 /\ size c1 = size c /\ pos c1 = 0) as (Es1 & En1 & Ee1 & Eb1 & Ea1 & Ef1 & Esz1 & Ep1)
    by (destruct Hc1 as [-> | [-> _]]; split_and!; done).
  pose proof Hm as (Mi & Mip & Ml & Mo & Ms & Mt). cbn [b inp in_pos out out_pos] in Mi, Mip, Ml, Mo, Ms, Mt.
  unfold in_size, out_size in Mip, Ms. cbn [b inp out] in Mip, Ms.
  assert (size c - pos c + Z.of_nat (length d) <= limit) as Hld by lia.
  destruct (filter_more c D O d Hh Hd Hld) as (s2 & region & m & s' & D2 & n2 & Hg & Hf & Hv & Hn & HD2 & Hlr & Hm3 & Hu & Ht & Hdr).
  set (w := seg _ _ _ ++ d) in *. rewrite H0, Z.sub_0_r in Hlr.
  assert (Z.of_nat (length w) = out_pos b2) as Hlw.
  { unfold w. rewrite length_app. pose proof (seg_length (buffer c) (pos c) (size c)). lia. }
  assert (out b2 = w ++ drop (Z.to_nat (out_pos b2)) (out b2)) as Eb2.
  { rewrite <- (take_drop (Z.to_nat (out_pos b2)) (out b2)) at 1. f_equal. rewrite Mt. unfold w, seg. by rewrite H0, Z.sub_0_r. }
  cbn [set_buffer size buffer pos filtered end_was_reached].
  assert (rd_bytes (out b2) 0 (Z.to_nat (out_pos b2)) = Some w) as -> by (rewrite Eb2 at 1; apply rd_bytes_head; lia).
  cbn [mbind option_bind]. unfold call_filter. cbn [set_buffer simple now_pos is_encoder]. rewrite Es1, En1, Ee1, Hg.
  cbn [mbind option_bind set_buffer size buffer pos filtered end_was_reached is_encoder simple now_pos allocated].
  assert (wr_bytes (out b2) 0 region = Some (region ++ drop (Z.to_nat (out_pos b2)) (out b2))) as ->
    by (rewrite Eb2 at 1; apply wr_bytes_head; lia).
  cbn [mbind option_bind set_buffer size buffer pos filtered end_was_reached is_encoder simple now_pos allocated].
  set (buf := region ++ _). set (f := if end_was_reached c1 then out_pos b2 else m). rewrite Ep1.
  assert (length buf = length (buffer c)) as Hlb by (unfold buf; rewrite length_app, length_drop; lia).
  destruct (flush_spec buf 0 f (in_pos b2) o Ho) as (k & out' & E & Hk & Hpo);
    [unfold f; destruct (end_was_reached c1); lia | unfold f; destruct (end_was_reached c1); lia
    | change (2 ^ 64) with (2 ^ 32 * 2 ^ 32); unfold f; destruct (end_was_reached c1); lia | unfold in_size; lia |].
  rewrite Z.add_0_l in E, Hpo. cbn [inp in_pos out out_pos] in *.
  assert (out_size o = out_size (MkIo (inp o) (in_pos b2) (out o) (out_pos o))) as <- by done. rewrite E. cbn [mbind option_bind].
  do 5 eexists. split; [reflexivity |]. split; [done |]. split; [by apply Hsent' |]. intros _.
  exists (seg buf 0 k). split; [exact Hpo |].
  assert (bytes (D ++ d)) as HDd by (by apply Forall_app).
  assert (seg buf 0 (out_pos b2) = region) as Hsr by (apply seg_head; lia).
  assert (forall j, 0 <= j -> k <= j <= out_pos b2 -> seg buf 0 k ++ seg buf k j = take (Z.to_nat j) region) as Hseg.
  { intros j Hj Hkj. rewrite <- seg_app by lia. unfold buf, seg. rewrite Z.sub_0_r. cbn [Z.to_nat drop].
    change (Z.to_nat 0) with 0%nat. rewrite drop_0. by rewrite take_app_le by lia. }
  exists s', D2, n2. cbn [set_buffer size buffer pos filtered end_was_reached is_encoder simple now_pos allocated].
  rewrite Ea1. unfold f in *. destruct (end_was_reached c1).
  - rewrite <- app_assoc, Hseg, take_ge by lia. split_and!; try done; try lia.
  - rewrite <- app_assoc, Hseg by lia. rewrite Hn, Hdr, Ht. split_and!; try done; try lia.
    rewrite <- Hsr. unfold seg. rewrite Z.sub_0_r. change (Z.to_nat 0) with 0%nat. rewrite drop_0.
    rewrite skipn_firstn_comm. f_equal. lia.
Qed.

(** What can be put out is at hand. *)
Lemma holds_start c D O : holds c D O -> end_was_reached c = false -> pos c = filtered c ->
  held (set_buffer c (pos c) 0 (size c) (buffer c)) D O.
Proof.
  intros (s & D' & n & Hf & HD & He & Hl & Ha & Hp & Hs & H) Hend Hpf. rewrite Hend in H. destruct H as (Hv & Hn & HO & Hsg).
  exists s, D', n. unfold set_buffer. cbn [end_was_reached filtered allocated buffer size pos is_encoder simple now_pos].
  rewrite Hpf in *. rewrite seg_nil, app_nil_r in HO. split_and!; try done; lia.
Qed.

Lemma refill_spec c D O nx o action : held c D O -> io_ok o -> out_size o <= limit -> bytes (inp o) ->
  exists ret c' nx' o' d, refill filter next_code has_next c nx o action = Some (ret, c', nx', o') /\
    ret <> LZMA_STREAM_END /\ sent nx o nx' o' d /\
    (ret = LZMA_OK -> exists w, put_out o o' w /\ holds c' (D ++ d) (O ++ w) /\ pos c' = 0 /\ filtered c' = 0).
Proof.
  intros Hh Ho Hlim Hb. unfold refill.
  pose proof Hh as (s & D' & n & Hf & HD & He & Hl & Ha & Hp & Hs & Hf0 & Hend & Hv & Hn & HO & Hsg).
  pose proof (f_max (filter := filter)) as Hmax. pose proof Ho as (Hi & Hop & Hi64 & Ho64).
  rewrite !u64_small by (change (2 ^ 64) with (2 ^ 32 * 2 ^ 32) in *; lia).
  assert (put_out o o []) as Hnil.
  { unfold put_out. cbn [length]. rewrite app_nil_r. split_and!; try done; lia. }
  destruct ((size c - pos c <? out_size o - out_pos o) || (size c - pos c =? 0)) eqn:Hcase.
  - apply fill_out_spec; try done. apply orb_prop in Hcase as [H%Z.ltb_lt | H%Z.eqb_eq]; [by left | by right].
  - apply orb_false_elim in Hcase as [Hc1%Z.ltb_ge Hc2%Z.eqb_neq]. destruct (Z.ltb_spec 0 (pos c)) as [Hp0 | Hp0].
    + rewrite (rd_bytes_seg _ _ (size c)) by lia. cbn [mbind option_bind].
      pose proof (seg_length (buffer c) (pos c) (size c) ltac:(lia) ltac:(lia)) as Hsl.
      rewrite wr_bytes_seg by lia. change (Z.to_nat 0) with 0%nat. rewrite take_0. cbn [mbind option_bind app].
      do 5 eexists. split; [reflexivity |]. split; [done |]. split; [by apply sent_nil |]. intros _. exists []. split; [done |].
      rewrite !app_nil_r. split; [| done]. exists s, D', n. unfold set_buffer.
      cbn [end_was_reached filtered allocated buffer size pos is_encoder simple now_pos]. rewrite Hend, Hf0, seg_nil, app_nil_r.
      rewrite seg_head by lia. rewrite length_app, length_drop. split_and!; try done; lia.
    + assert (pos c = 0) as H0 by lia. do 5 eexists. split; [reflexivity |]. split; [done |]. split; [by apply sent_nil |]. intros _. exists []. split; [done |].
      rewrite !app_nil_r. split; [| done]. exists s, D', n. rewrite Hend, Hf0, H0, seg_nil, app_nil_r.
      rewrite H0 in Hsg. split_and!; try done; lia.
Qed.

Lemma put_out_trans o1 o2 o3 w1 w2 : 0 <= out_pos o1 -> put_out o1 o2 w1 -> put_out o2 o3 w2 -> put_out o1 o3 (w1 ++ w2).
Proof. apply moved_trans. Qed.

Lemma put_out_nil o o' : io_ok o -> inp o' = inp o -> in_pos o' = in_pos o -> out o' = out o -> out_pos o' = out_pos o -> put_out o o' [].
Proof.
  intros (? & ? & _) E1 E2 E3 E4. unfold put_out. rewrite E1, E2, E3, E4, app_nil_r. cbn [length]. split_and!; try done; lia.
Qed.

(** What a call leaves when it returns [ret]. *)
Definition after (ret : lzma_ret) c : Prop :=
  if bool_decide (ret = LZMA_STREAM_END) then end_was_reached c = true /\ pos c = size c
  else end_was_reached c = true -> pos c < filtered c.

Lemma flush_held_spec c D O o : holds c D O -> (end_was_reached c = true -> pos c < filtered c) -> io_ok o ->
  exists early c1 o1 w1, flush_held c o = Some (early, c1, o1) /\ put_out o o1 w1 /\ holds c1 D (O ++ w1) /\ in_pos o1 = in_pos o /\
    match early with
    | None => end_was_reached c1 = false /\ pos c1 = filtered c1
    | Some ret => after ret c1
    end.
Proof.
  intros Hh Hcall Ho. pose proof Hh as (s & D' & n & Hf & HD & He & Hl & Hal & Hp & Hs & Hst).
  pose proof (f_max (filter := filter)) as Hmax. unfold flush_held, after.
  destruct (Z.ltb_spec (pos c) (filtered c)) as [Hlt | Hge].
  - destruct (flush_spec (buffer c) (pos c) (filtered c) (in_pos o) o Ho) as (k & out' & -> & Hk & Hpo);
      [lia | lia | change (2 ^ 64) with (2 ^ 32 * 2 ^ 32); lia | destruct Ho; lia |]. cbn [mbind option_bind].
    assert (holds (set_buffer c (pos c + k) (filtered c) (size c) (buffer c)) D (O ++ seg (buffer c) (pos c) (pos c + k))) as Hh1.
    { exists s, D', n. unfold set_buffer. cbn [end_was_reached filtered allocated buffer size pos is_encoder simple now_pos].
      rewrite <- !app_assoc, <- !seg_app by lia. split_and!; try done; lia. }
    unfold set_buffer in *. cbn [end_was_reached filtered allocated buffer size pos is_encoder simple now_pos] in *.
    destruct (Z.ltb_spec (pos c + k) (filtered c)) as [Hlt2 | Hge2]; [| destruct (end_was_reached c) eqn:Hend].
    + do 4 eexists. split; [reflexivity |]. split; [exact Hpo |]. split; [exact Hh1 |]. split; [done |].
      by rewrite bool_decide_eq_false_2.
    + destruct Hst as [Efs _]. rewrite (proj2 (Z.eqb_eq _ _)) by done. cbn [assert mbind option_bind].
      do 4 eexists. split; [reflexivity |]. split; [exact Hpo |]. split; [exact Hh1 |]. split; [done |].
      rewrite bool_decide_eq_true_2 by done. cbn [end_was_reached size pos]. split; [done |]. lia.
    + do 4 eexists. split; [reflexivity |]. split; [exact Hpo |]. split; [exact Hh1 |]. split; [done |].
      cbn [end_was_reached filtered pos]. split; [done | lia].
  - do 4 eexists. split; [reflexivity |]. split; [by apply put_out_nil |]. split; [rewrite app_nil_r; exact Hh |].
    split; [done |]. split; [| lia]. destruct (end_was_reached c); [| done]. specialize (Hcall eq_refl). lia.
Qed.

(** The last test of a call. *)
Lemma finish_spec c D O : holds c D O ->
  after (if end_was_reached c && (pos c =? size c) then LZMA_STREAM_END else LZMA_OK) c.
Proof.
  intros Hh. unfold after. destruct (end_was_reached c && (pos c =? size c)) eqn:E.
  - rewrite bool_decide_eq_true_2 by done. by apply andb_prop in E as [-> E%Z.eqb_eq].
  - rewrite bool_decide_eq_false_2 by done. intros He. rewrite He in E. cbn [andb] in E. apply Z.eqb_neq in E.
    destruct Hh as (? & ? & ? & _ & _ & _ & _ & _ & ? & ? & H4). rewrite He in H4. lia.
Qed.

(** One call. *)
Lemma simple_code_spec c D O nx o action : holds c D O -> (end_was_reached c = true -> pos c < filtered c) ->
  action <> LZMA_SYNC_FLUSH -> io_ok o -> out_size o <= limit -> bytes (inp o) ->
  exists ret c' nx' o' d, simple_code filter next_code has_next c nx o action = Some (ret, c', nx', o') /\ sent nx o nx' o' d /\
    (ret = LZMA_OK \/ ret = LZMA_STREAM_END -> exists w, put_out o o' w /\ holds c' (D ++ d) (O ++ w) /\ after ret c').
Proof.
  intros Hh Hcall Ha Ho Hlim Hb. unfold simple_code. rewrite bool_decide_eq_false_2 by done.
  destruct (flush_held_spec c D O o Hh Hcall Ho) as (early & c1 & o1 & w1 & -> & Hpo & Hh1 & Hi1 & Hearly).
  cbn [mbind option_bind]. destruct early as [ret |].
  { do 5 eexists. split; [reflexivity |]. split; [by apply sent_nil |]. intros _. exists w1. by rewrite app_nil_r. }
  destruct Hearly as [Hend Hpf]. pose proof (holds_start c1 D (O ++ w1) Hh1 Hend Hpf) as Hheld.
  set (c2 := set_buffer c1 _ _ _ _) in *. cbv zeta.
  assert (end_was_reached c2 = false) as -> by done. cbn [negb assert mbind option_bind].
  pose proof (moved_ok _ _ _ Ho Hpo) as Ho1. assert (out_size o1 <= limit) as Hlim1 by (unfold out_size in *; by destruct Hpo as (_ & _ & -> & _)).
  assert (bytes (inp o1)) as Hb1 by (by destruct Hpo as (-> & _)).
  destruct (refill_spec c2 D (O ++ w1) nx o1 action Hheld Ho1 Hlim1 Hb1) as (ret & c3 & nx3 & o3 & d & -> & Hret & Hsent & Hok).
  cbn [mbind option_bind].
  assert (sent nx o nx3 o3 d) as Hsent3.
  { apply (sent_trans nx o nx o1 nx3 o3 []); [by destruct Hpo as (-> & _) | by apply sent_nil | done]. }
  case_bool_decide as Hr; cbn [negb]; [| do 5 eexists; split; [reflexivity |]; split; [exact Hsent3 |]; intros [? | ?]; done].
  destruct (Hok Hr) as (w3 & Hpo3 & Hh3 & Hp3 & Hf3). rewrite Hp3. cbn [Z.eqb assert mbind option_bind].
  assert (0 <= out_pos o) as Hop by apply Ho.
  pose proof (put_out_trans _ _ _ _ _ Hop Hpo Hpo3) as Hpo13. rewrite <- app_assoc in Hh3.
  pose proof (moved_ok _ _ _ Ho Hpo13) as Ho3. assert (bytes (inp o3)) as Hb3 by (by destruct Hpo13 as (-> & _)).
  assert (exists ret4 c4 nx4 o4 d4, (if 0 <? size c3 then fill_buffer filter next_code has_next c3 nx3 o3 action else Some (LZMA_OK, c3, nx3, o3))
      = Some (ret4, c4, nx4, o4) /\ ret4 <> LZMA_STREAM_END /\ sent nx3 o3 nx4 o4 d4 /\
    (ret4 = LZMA_OK -> exists w4, put_out o3 o4 w4 /\ holds c4 ((D ++ d) ++ d4) ((O ++ w1 ++ w3) ++ w4)))
    as (ret4 & c4 & nx4 & o4 & d4 & -> & Hret4 & Hsent4 & Hok4).
  { destruct (Z.ltb_spec 0 (size c3)) as [Hs3 | Hs3].
    - assert (end_was_reached c3 = false) as He3.
      { destruct Hh3 as (? & ? & ? & _ & _ & _ & _ & _ & _ & _ & H3). destruct (end_was_reached c3); [lia | done]. }
      assert (held c3 (D ++ d) (O ++ w1 ++ w3)) as Hheld3.
      { pose proof (holds_start c3 _ _ Hh3 He3 ltac:(lia)) as H. rewrite <- Hf3 in H at 1. by destruct c3. }
      by apply fill_buffer_spec.
    - do 5 eexists. split; [reflexivity |]. split; [done |]. split; [by apply sent_nil |]. intros _. exists [].
      split; [by apply put_out_nil | by rewrite !app_nil_r]. }
  cbn [mbind option_bind].
  assert (sent nx o nx4 o4 (d ++ d4)) as Hs by (apply (sent_trans nx o nx3 o3); [by destruct Hpo13 as (-> & _) | done | done]).
  case_bool_decide as Hr4; cbn [negb]; [| do 5 eexists; split; [reflexivity |]; split; [exact Hs |]; intros [? | ?]; done].
  destruct (Hok4 Hr4) as (w4 & Hp4 & Hh4). rewrite <- !app_assoc in Hh4. pose proof (finish_spec _ _ _ Hh4) as Hfin.
  pose proof (put_out_trans _ _ _ _ _ Hop Hpo13 Hp4) as Hpo4. rewrite <- app_assoc in Hpo4.
  destruct (end_was_reached c4 && (pos c4 =? size c4)); do 5 eexists; (split; [reflexivity |]); (split; [exact Hs |]); intros _; by eexists.
Qed.
End refinement.

(** ** The filters of instructions of fixed layout are such filters *)
Section windows.
  Context (window step : Z) (body : Z -> bool -> Z -> list Z -> option (list Z * Z)) (g : bool -> Z -> list Z -> list Z * Z)
    {W : Window window step body g} (small : window < 2 ^ 32).

(** The filter of a body, which has no state of its own. *)
Definition window_filter (s : unit) (now_pos : Z) (is_encoder : bool) (buffer : list Z) : option (unit * list Z * Z) :=
  '(buffer, n) ← filter_loop window step (body now_pos is_encoder) (S (length buffer)) 0 buffer;
  Some (tt, buffer, n).

Lemma window_filter_value s p e l : bytes l ->
  window_filter s p e l = Some (tt, (converted window step g e (u32 p) l).1, (converted window step g e (u32 p) l).2).
Proof.
  intros Hb. unfold window_filter. pose proof (loop_converted window step g p e [] l Hb (S (length l)) ltac:(lia)) as E.
  change (Z.of_nat (length [])) with 0 in E. rewrite Z.add_0_r in E. cbn [app] in E. by rewrite E.
Qed.

Lemma converted_split e a l1 l2 : bytes (l1 ++ l2) -> a = u32 a ->
  let c := converted window step g e a l1 in
  let r := converted window step g e (u32 (a + c.2)) (drop (Z.to_nat c.2) l1 ++ l2) in
  converted window step g e a (l1 ++ l2) = (take (Z.to_nat c.2) c.1 ++ r.1, c.2 + r.2).
Proof.
  revert a l1. apply (window_ind window step g (fun a l1 => bytes (l1 ++ l2) -> a = u32 a -> _) e); intros a l1 Hl.
  - intros _ Ha. rewrite (converted_end window step g e a l1) by done. cbv zeta. cbn [fst snd]. rewrite Z.add_0_r, <- Ha.
    change (Z.to_nat 0) with 0%nat. rewrite take_0, drop_0. cbn [app]. by destruct (converted _ _ _ _ _ _).
  - intros w IH Hb Ha. cbv zeta. pose proof (w_step (window := window) (step := step)) as Hst.
    apply Forall_app in Hb as [Hb1 Hb2].
    assert (take (Z.to_nat window) (l1 ++ l2) = take (Z.to_nat window) l1) as Ht by (rewrite take_app_le by lia; done).
    rewrite (converted_step window step g e a (l1 ++ l2)) by (rewrite length_app; lia).
    rewrite (converted_step window step g e a l1) by done. rewrite Ht. fold w. cbv zeta. cbn [fst snd].
    assert (0 <= w.2 <= window - step) as He by (apply w_extra; rewrite length_take; lia).
    set (k := Z.to_nat (step + w.2)). assert (bytes (drop k l1)) as Hd by (by apply Forall_drop).
    rewrite drop_app_le by lia. cbv zeta in IH. fold k in IH. rewrite IH; [| by apply Forall_app | by rewrite u32_idemp].
    set (c := converted window step g e (u32 (a + (step + w.2))) (drop k l1)).
    destruct (converted_bounds window step g e (u32 (a + (step + w.2))) _ Hd) as (Hlen & _ & Hc & _). fold c in Hc, Hlen. cbn [fst snd].
    assert (length (take k w.1) = k) as Htk.
    { rewrite length_take. unfold w. rewrite w_length by (rewrite length_take; lia). rewrite length_take. lia. }
    rewrite Z2Nat.inj_add by lia. fold k. rewrite (take_app_add' _ _ k) by done. rewrite <- drop_drop.
    assert (u32 (u32 (a + (step + w.2)) + c.2) = u32 (a + (step + w.2 + c.2))) as ->
      by (rewrite u32_add_l; f_equal; lia).
    f_equal; [by rewrite app_assoc | lia].
Qed.

Definition window_whole (s : unit) (p : Z) (e : bool) (l : list Z) : unit * list Z * Z :=
  (tt, (converted window step g e (u32 p) l).1, (converted window step g e (u32 p) l).2).

#[export] Instance window_is_filter :
  Filter window_filter window_whole (fun _ _ _ => True) (fun _ _ _ => True) window (2 ^ 64).
Proof.
  pose proof (w_step (window := window) (step := step)) as Hst. split.
  - change (2 ^ 64) with (2 ^ 32 * 2 ^ 32). lia.
  - intros p. split; repeat intro; done.
  - intros [] p e. exists tt. unfold window_whole. rewrite converted_end by (cbn; lia). done.
  - intros s p e l Hb _ _. rewrite window_filter_value by done. do 4 eexists. split; [reflexivity |]. by split.
  - unfold window_whole. intros s p e l t l' n Hb _ [= <- <- <-].
    destruct (converted_bounds window step g e (u32 p) l Hb) as (? & ? & ? & ? & ?). done.
  - done.
  - done.
  - intros [] [] p e l t1 l' n Hb _ _ E. by exists t1.
  - unfold window_whole. intros s p e a b t a' n u b' m Hb _ Ha Hr. pose proof Hb as [Hb1 Hb2]%Forall_app.
    assert (bytes (drop (Z.to_nat n) a ++ b)) as Hd by (apply Forall_app; split; [by apply Forall_drop | done]).
    injection Ha as <- <- <-. injection Hr as <- <- <-.
    exists tt. split; [| done]. rewrite (converted_split e (u32 p) a b Hb) by (unfold u32, wrap; by rewrite Z.mod_mod).
    cbv zeta. cbn [fst snd]. by rewrite !u32_add_l, !u32_idemp.
Qed.
End windows.

(** ** A whole stream *)
Definition sized (limit : Z) (call : io * lzma_action) : Prop :=
  call_ok call /\ out_size call.1 <= limit.

(** [LZMA_SYNC_FLUSH] is refused, and nothing moves. *)
Lemma simple_code_flush {simple_t next : Type} (filter : simple_t -> Z -> bool -> list Z -> option (simple_t * list Z * Z))
    (next_code : next -> io -> lzma_action -> option (lzma_ret * next * io)) has_next c nx o :
  simple_code filter next_code has_next c nx o LZMA_SYNC_FLUSH = Some (LZMA_OPTIONS_ERROR, c, nx, o).
Proof. done. Qed.

(** A coder fresh from [lzma_simple_coder_init]. *)
Definition fresh {simple_t} (start : simple_t) (p : Z) (e : bool) (max : Z) (buf : list Z) : lzma_simple_coder simple_t :=
  MkSimple _ false e start p (2 * max) 0 0 0 buf.

Section stream_refinement.
  Context {simple_t : Type} (filter : simple_t -> Z -> bool -> list Z -> option (simple_t * list Z * Z))
    (whole : simple_t -> Z -> bool -> list Z -> simple_t * list Z * Z) (wf : Z -> simple_t -> list Z -> Prop)
    (eqv : Z -> simple_t -> simple_t -> Prop) (max limit : Z) {F : Filter filter whole wf eqv max limit}.
  Context {next : Type} (next_code : next -> io -> lzma_action -> option (lzma_ret * next * io))
    (given : next -> list Z) {N : NextCoder next_code given}.
  Context (e : bool) (s0 : simple_t) (p0 : Z) (start_wf : wf p0 s0 []) (has_next : bool)
    (ends : forall nx o action ret nx' o', next_code nx o action = Some (ret, nx', o') ->
       ret = LZMA_STREAM_END -> e = false \/ action = LZMA_FINISH).
  Local Notation holds := (holds whole eqv max e s0 p0).

Lemma sent_seg nx o nx' o' d w : io_ok o -> put_out o o' w -> sent given has_next nx o nx' o' d ->
  if has_next then given nx' = given nx ++ d else seg (inp o) (in_pos o) (in_pos o') = d.
Proof.
  unfold sent. intros (Hi & _) (_ & Hp & _) E. destruct has_next; [done |]. unfold in_size in *. unfold seg.
  replace (Z.to_nat (in_pos o' - in_pos o)) with (Z.to_nat (in_pos o') - Z.to_nat (in_pos o))%nat by lia.
  rewrite <- skipn_firstn_comm, E. apply drop_app_length'. rewrite length_take. lia.
Qed.

(** What has come in at the end: from the next coder, or from the input. *)
Definition data (nx : next) (ds : list Z) : list Z := if has_next then given nx else ds.

Lemma run_spec calls c nx D O : holds c D O -> (end_was_reached c = true -> pos c < filtered c) -> Forall (sized limit) calls ->
  exists ret nx' ws ds, run (simple_code filter next_code has_next) c nx calls = Some (ret, nx', ws, ds) /\
    (ret = LZMA_OK \/ ret = LZMA_STREAM_END -> exists c' d, holds c' (D ++ d) (O ++ ws) /\ after ret c' /\
       if has_next then given nx' = given nx ++ d else ds = d).
Proof.
  revert c nx D O. induction calls as [| [o action] calls IH]; intros c nx D O Hh Hc Hok.
  - do 4 eexists. split; [reflexivity |]. intros _. exists c, []. rewrite !app_nil_r. split; [done |]. split; [| by destruct has_next].
    unfold after. by rewrite bool_decide_eq_false_2.
  - apply list.Forall_cons in Hok as [((Ho & Hb) & Hlim) Hok]. cbn [fst snd] in *. cbn [run].
    destruct (decide (action = LZMA_SYNC_FLUSH)) as [-> | Ha].
    { rewrite simple_code_flush. cbn [mbind option_bind]. do 4 eexists. split; [reflexivity |]. by intros [|]. }
    destruct (simple_code_spec filter whole wf eqv max limit next_code given e s0 p0 start_wf has_next ends c D O nx o action Hh Hc Ha Ho Hlim Hb)
      as (ret & c1 & nx1 & o1 & d & -> & Hsent & Hret). cbn [mbind option_bind].
    assert (forall w, put_out o o1 w -> seg (out o1) (out_pos o) (out_pos o1) = w) as Hw by (intros w; apply moved_seg; apply Ho).
    case_bool_decide as Hr.
    + destruct (Hret (or_introl Hr)) as (w & Hp & Hh1 & Haf). rewrite (Hw w Hp).
      unfold after in Haf. rewrite bool_decide_eq_false_2 in Haf by (by rewrite Hr).
      destruct (IH c1 nx1 _ _ Hh1 Haf Hok) as (ret2 & nx2 & ws & ds & -> & H2). cbn [mbind option_bind].
      do 4 eexists. split; [reflexivity |]. intros Hr2. destruct (H2 Hr2) as (c2 & d2 & Hh2 & Haf2 & Hg2).
      exists c2, (d ++ d2). rewrite <- !app_assoc in Hh2. split; [done |]. split; [done |].
      pose proof (sent_seg nx o nx1 o1 d w Ho Hp Hsent) as Hd. revert Hd Hg2. destruct has_next; intros -> ->; [by rewrite app_assoc | done].
    + do 4 eexists. split; [reflexivity |]. intros Hr2. destruct (Hret Hr2) as (w & Hp & Hh1 & Haf). exists c1, d.
      rewrite (Hw w Hp). split; [done |]. split; [done |]. by apply (sent_seg nx o nx1 o1 d w).
Qed.
End stream_refinement.

(** C26: However much room the calls give, up to the most bytes the filter takes, and in
    whatever pieces the next coder of the chain, or the input, yields the data, every
    call answers without leaving a buffer. As long as the calls answer [LZMA_OK], what the
    stream has put out is a prefix of what the filter makes of all data so far at once, and
    at [LZMA_STREAM_END] it is all of it; where the data fits a call of the filter, that is
    what its code makes of it. [LZMA_SYNC_FLUSH] is answered [LZMA_OPTIONS_ERROR], and
    changes nothing. Nothing is claimed once the next coder answers an error. *)
Theorem simple_coder_stream {simple_t next : Type}
    (filter : simple_t -> Z -> bool -> list Z -> option (simple_t * list Z * Z)) whole wf eqv max limit
    (next_code : next -> io -> lzma_action -> option (lzma_ret * next * io)) given
    (e has_next : bool) (start : simple_t) off align fresh_buffer nx calls c :
  Filter filter whole wf eqv max limit -> NextCoder next_code given ->
  (forall nx o action ret nx' o', next_code nx o action = Some (ret, nx', o') ->
     ret = LZMA_STREAM_END -> e = false \/ action = LZMA_FINISH) ->
  wf off start [] ->
  Z.of_nat (length fresh_buffer) = 2 * max -> 0 <= off < 2 ^ 32 -> given nx = [] ->
  lzma_simple_coder_init None true true start fresh_buffer max align e (Some off) LZMA_OK = (LZMA_OK, Some c) ->
  Forall (sized limit) calls ->
  (exists ret nx' ws ds, run (simple_code filter next_code has_next) c nx calls = Some (ret, nx', ws, ds) /\
    (ret = LZMA_OK \/ ret = LZMA_STREAM_END ->
     let D := data given has_next nx' ds in
     let all := (whole start off e D).1.2 in
     ws `prefix_of` all /\ (ret = LZMA_STREAM_END -> ws = all) /\
     (Z.of_nat (length D) <= limit -> exists s n, filter start off e D = Some (s, all, n)))) /\
  (forall c nx o, simple_code filter next_code has_next c nx o LZMA_SYNC_FLUSH = Some (LZMA_OPTIONS_ERROR, c, nx, o)).
Proof.
  intros HF HN Hends Hwf Hbuf Hoff Hgiven Hinit Hcalls. split; [| by intros; apply simple_code_flush].
  assert (c = fresh start off e max fresh_buffer) as ->.
  { unfold lzma_simple_coder_init in Hinit. cbn [default from_option] in Hinit. unfold id in Hinit.
    destruct (negb _); [done |]. by injection Hinit as <-. }
  destruct (f_nil (filter := filter) start off e) as (s1 & Hw1 & Heq1).
  pose proof (f_max (filter := filter)) as Hmax.
  assert (holds whole eqv max e start off (fresh start off e max fresh_buffer) [] []) as Hh.
  { exists s1, [], 0. unfold fresh. cbn [end_was_reached filtered allocated buffer size pos is_encoder simple now_pos].
    rewrite seg_nil, Z.add_0_r, u32_small by done. split_and!; try done; try lia; constructor. }
  destruct (run_spec filter whole wf eqv max limit next_code given e start off Hwf has_next Hends calls _ nx [] [] Hh) as (ret & nx' & ws & ds & -> & Hr); [done | done |].
  do 4 eexists. split; [reflexivity |]. intros Hret. destruct (Hr Hret) as (c' & d & Hh' & Haf & Hd).
  destruct Hh' as (s & w & n & Hf & HD & _ & _ & _ & Hp & Hs & Hst). cbn [app] in *.
  assert (data given has_next nx' ds = d) as -> by (unfold data; destruct has_next; [by rewrite Hd, Hgiven | done]).
  cbv zeta. rewrite Hf. cbn [fst snd]. split; [| split; [| intros Hlim]].
  3:{ destruct (f_code (filter := filter) start off e d HD (f_more start off [] d Hwf) Hlim) as (t & u & l' & m & Hc & Hw & _).
      rewrite Hf in Hw. injection Hw as -> -> ->. by exists t, m. }
  all: unfold after in Haf; destruct (end_was_reached c') eqn:Hend.
  - destruct Hst as [Efs Ew]. by eexists.
  - destruct Hst as (_ & _ & Ew & _). transitivity (take (Z.to_nat n) w); [by eexists | apply prefix_take].
  - destruct Hst as [Efs Ew]. intros ->. rewrite bool_decide_eq_true_2 in Haf by done. destruct Haf as [_ Hps].
    by rewrite Hps, seg_nil, app_nil_r in Ew.
  - intros ->. rewrite bool_decide_eq_true_2 in Haf by done. by destruct Haf.
Qed.

Definition arm_data : list Z := [1; 2; 3; 4; 0; 0; 0; 0xEB; 9; 9].

(** The decoder for ARM, its data in one piece, its output taken in pieces of
    3, 5 and 8 bytes. *)
Definition arm_calls : list (io * lzma_action) :=
  [(MkIo [] 0 (replicate 3 0) 0, LZMA_RUN); (MkIo [] 0 (replicate 5 0) 0, LZMA_RUN); (MkIo [] 0 (replicate 8 0) 0, LZMA_FINISH)].

Example arm_run :
  (fun r => (r.1.1.1, r.1.2)) <$> run (simple_code (window_filter 4 4 arm_body) feed_bytes true) (fresh tt 0x100 false 4 (replicate 8 7)) ([], arm_data) arm_calls
  = Some (LZMA_STREAM_END, [1; 2; 3; 4; 0xBD; 0xFF; 0xFF; 0xEB; 9; 9]).
Proof. vm_compute. reflexivity. Qed.

Lemma simple_coder_stream_witness :
  (exists ret nx' ws ds, run (simple_code (window_filter 4 4 arm_body) feed_bytes true) (fresh tt 0x100 false 4 (replicate 8 7)) ([], arm_data) arm_calls
      = Some (ret, nx', ws, ds) /\
    (ret = LZMA_OK \/ ret = LZMA_STREAM_END ->
     let D := data fst true nx' ds in
     let all := (window_whole 4 4 arm_window tt 0x100 false D).1.2 in
     ws `prefix_of` all /\ (ret = LZMA_STREAM_END -> ws = all) /\
     (Z.of_nat (length D) <= 2 ^ 64 -> exists s n, window_filter 4 4 arm_body tt 0x100 false D = Some (s, all, n)))) /\
  (forall c nx o, simple_code (window_filter 4 4 arm_body) feed_bytes true c nx o LZMA_SYNC_FLUSH = Some (LZMA_OPTIONS_ERROR, c, nx, o)).
Proof.
  apply (simple_coder_stream (window_filter 4 4 arm_body) (window_whole 4 4 arm_window) (fun _ _ _ => True) (fun _ _ _ => True) 4 (2 ^ 64)
           feed_bytes fst false true tt 0x100 4 (replicate 8 7) ([], arm_data) arm_calls (fresh tt 0x100 false 4 (replicate 8 7))).
  - apply window_is_filter with (g := arm_window); [exact arm_is_window | reflexivity].
  - exact feed_is_next.
  - intros. left. reflexivity.
  - exact I.
  - reflexivity.
  - split; [discriminate | reflexivity].
  - reflexivity.
  - reflexivity.
  - unfold arm_calls, sized, call_ok, io_ok, in_size, out_size. repeat constructor; simpl; try discriminate.
Defined.
