(* ===== verification/SimpleX86.v ===== *)
(** * liblzma: the branch filter for x86

    simple/x86.c: calls and jumps (opcodes E8 and E9) have no alignment and their
    targets may be anything, so the filter guesses: it converts an operand whose
    most significant byte is a sign, unless a recent opcode that it left alone
    makes that look like data. It remembers the recent opcodes in [prev_mask] and
    the last one in [prev_pos] from call to call. The file proves that the code
    is [x86_whole], which carries the mask along byte by byte, that it never
    indexes its tables outside nor loops forever, and that decoding undoes
    encoding; it is then a filter for the wrapper of SimpleCoder.v. *)

From Stdlib Require Import ZArith Lia.
From stdpp Require Import base list option.
From S2P Require Import Prelude LzmaBase Coder Simple SimpleCoder.
Local Open Scope Z_scope.

(** ** The code *)
Record lzma_simple_x86 := MkX86 { prev_mask : Z; prev_pos : Z }.

Definition Test86MSByte (b : Z) : bool := (b =? 0) || (b =? 0xFF).
Definition MASK_TO_ALLOWED_STATUS : list bool := [true; true; true; false; true; false; false; false].
Definition MASK_TO_BIT_NUMBER : list Z := [0; 1; 2; 2; 3; 3; 3; 3].

(** [for (i = 0; i < offset; ++i)], and its body. *)
Definition age (mask : Z) : Z := u32 (Z.shiftl (Z.land mask 0x77) 1).
Definition shift_mask (offset : nat) (mask : Z) : Z := Nat.iter offset age mask.

(** The two assignments to [dest]; [ip] is [now_pos + buffer_pos + 5]. *)
Definition x86_move (is_encoder : bool) (ip src : Z) : Z := if is_encoder then u32 (src + ip) else u32 (src - ip).

(** [while (true)]: the final [dest]; it ends in the second round at the latest
    ([x86_dest_value]). [None] is also the shift of an [int] by 32. *)
Fixpoint x86_dest (fuel : nat) (is_encoder : bool) (ip mask src : Z) : option Z :=
  match fuel with
  | O => None
  | S fuel =>
      let dest := x86_move is_encoder ip src in
      if mask =? 0 then Some dest
      else
        i ← MASK_TO_BIT_NUMBER !! Z.to_nat (Z.shiftr mask 1);
        let b := u8 (Z.shiftr dest (24 - i * 8)) in
        if negb (Test86MSByte b) then Some dest
        else
          assert (0 <? i) ;;
          x86_dest fuel is_encoder ip mask (Z.lxor dest (u32 (Z.shiftl 1 (32 - i * 8) - 1)))
  end.

(** An opcode at [buffer_pos]: the new buffer, position and mask. *)
Definition x86_opcode (now_pos : Z) (is_encoder : bool) (buffer_pos mask : Z) (buffer : list Z) : option (list Z * Z * Z) :=
  b4 ← rd buffer (buffer_pos + 4);
  allowed ← MASK_TO_ALLOWED_STATUS !! Z.to_nat (Z.land (Z.shiftr mask 1) 0x7);
  if Test86MSByte b4 && allowed && (Z.shiftr mask 1 <? 0x10) then
    b3 ← rd buffer (buffer_pos + 3);
    b2 ← rd buffer (buffer_pos + 2);
    b1 ← rd buffer (buffer_pos + 1);
    let src := Z.lor (Z.lor (Z.lor (Z.shiftl b4 24) (Z.shiftl b3 16)) (Z.shiftl b2 8)) b1 in
    dest ← x86_dest 2 is_encoder (u32 (now_pos + u32 buffer_pos + 5)) mask src;
    buffer ← wr buffer (buffer_pos + 4) (u8 (Z.lnot (Z.land (Z.shiftr dest 24) 1 - 1)));
    buffer ← wr buffer (buffer_pos + 3) (u8 (Z.shiftr dest 16));
    buffer ← wr buffer (buffer_pos + 2) (u8 (Z.shiftr dest 8));
    buffer ← wr buffer (buffer_pos + 1) (u8 dest);
    Some (buffer, buffer_pos + 5, 0)
  else
    let mask := Z.lor mask 1 in
    let mask := if Test86MSByte b4 then Z.lor mask 0x10 else mask in
    Some (buffer, buffer_pos + 1, mask).

Fixpoint x86_loop (fuel : nat) (now_pos : Z) (is_encoder : bool) (limit buffer_pos mask pos : Z) (buffer : list Z)
    : option (list Z * Z * lzma_simple_x86) :=
  match fuel with
  | O => None
  | S fuel =>
      if buffer_pos <=? limit then
        b ← rd buffer buffer_pos;
        if negb (b =? 0xE8) && negb (b =? 0xE9) then x86_loop fuel now_pos is_encoder limit (buffer_pos + 1) mask pos buffer
        else
          let offset := u32 (now_pos + u32 buffer_pos - pos) in
          let pos := u32 (now_pos + u32 buffer_pos) in
          let mask := if 5 <? offset then 0 else shift_mask (Z.to_nat offset) mask in
          '(buffer, buffer_pos, mask) ← x86_opcode now_pos is_encoder buffer_pos mask buffer;
          x86_loop fuel now_pos is_encoder limit buffer_pos mask pos buffer
      else Some (buffer, buffer_pos, MkX86 mask pos)
  end.

Definition x86_code (simple : lzma_simple_x86) (now_pos : Z) (is_encoder : bool) (buffer : list Z)
    : option (lzma_simple_x86 * list Z * Z) :=
  let size := Z.of_nat (length buffer) in
  if size <? 5 then Some (simple, buffer, 0)
  else
    let pos := if 5 <? u32 (now_pos - prev_pos simple) then u32 (now_pos - 5) else prev_pos simple in
    '(buffer, buffer_pos, simple) ← x86_loop (S (length buffer)) now_pos is_encoder (size - 5) 0 (prev_mask simple) pos buffer;
    Some (simple, buffer, buffer_pos).

(** The state [x86_coder_init] starts from. *)
Definition x86_start : lzma_simple_x86 := MkX86 0 (u32 (-5)).

Definition x86_coder_init (coder : option (lzma_simple_coder lzma_simple_x86)) (alloc alloc_simple : bool)
    (fresh_simple : lzma_simple_x86) (fresh_buffer : list Z) (encoder : bool) (start_offset : option Z) (next_init : lzma_ret)
    : lzma_ret * option (lzma_simple_coder lzma_simple_x86) :=
  let '(ret, coder) := lzma_simple_coder_init coder alloc alloc_simple fresh_simple fresh_buffer 5 1 encoder start_offset next_init in
  if bool_decide (ret = LZMA_OK) then
    (ret, (fun c => MkSimple _ (end_was_reached c) (is_encoder c) x86_start (now_pos c) (allocated c) (pos c) (filtered c) (size c) (buffer c)) <$> coder)
  else (ret, coder).

(** ** What it means *)
Definition is_opcode (b : Z) : bool := (b =? 0xE8) || (b =? 0xE9).
Definition allowed (m : Z) : bool :=
  default false (MASK_TO_ALLOWED_STATUS !! Z.to_nat (Z.land (Z.shiftr m 1) 0x7)) && (Z.shiftr m 1 <? 0x10).
Definition mark (m b : Z) : Z := let m := Z.lor m 1 in if Test86MSByte b then Z.lor m 0x10 else m.

(** The operand, and the one it is replaced by: where the last opcode left alone
    is [d] bytes back, its sign byte is in the operand and must not become a sign. *)
Definition operand (b1 b2 b3 b4 : Z) : Z := b1 + b2 * 2 ^ 8 + b3 * 2 ^ 16 + b4 * 2 ^ 24.
Definition sign_of (d x : Z) : Z := x / 2 ^ (24 - 8 * d) mod 256.
Definition x86_target (e : bool) (ip d x : Z) : Z :=
  let y := x86_move e ip x in
  if (0 <? d) && Test86MSByte (sign_of d y) then x86_move e ip (Z.lxor y (Z.ones (32 - 8 * d))) else y.
Definition operand_bytes (y : Z) : list Z := [y mod 256; y / 2 ^ 8 mod 256; y / 2 ^ 16 mod 256; 0xFF * (y / 2 ^ 24 mod 2)].

(** From the mask for the first byte: the mask for the first byte left undone. *)
Fixpoint x86_go (e : bool) (a m : Z) (l : list Z) : Z * list Z * Z :=
  match l with
  | b0 :: ((b1 :: b2 :: b3 :: b4 :: l5) as t) =>
      if is_opcode b0 then
        if Test86MSByte b4 && allowed m then
          let '(m', l', n) := x86_go e (u32 (a + 5)) 0 l5 in
          (m', b0 :: operand_bytes (x86_target e (u32 (a + 5)) (Z.log2 m) (operand b1 b2 b3 b4)) ++ l', 5 + n)
        else let '(m', l', n) := x86_go e (u32 (a + 1)) (age (mark m b4)) t in (m', b0 :: l', 1 + n)
      else let '(m', l', n) := x86_go e (u32 (a + 1)) (age m) t in (m', b0 :: l', 1 + n)
  | _ => (m, l, 0)
  end.

(** The mask for the byte at position [p], from the state. *)
Definition x86_view (p : Z) (s : lzma_simple_x86) : Z :=
  let offset := u32 (p - prev_pos s) in
  if 5 <? offset then 0 else shift_mask (Z.to_nat offset) (prev_mask s).

Definition x86_whole (s : lzma_simple_x86) (p : Z) (e : bool) (l : list Z) : lzma_simple_x86 * list Z * Z :=
  let '(m, l', n) := x86_go e (u32 p) (x86_view p s) l in (MkX86 m (u32 (p + n)), l', n).

(** ** Masks

    The opcodes left alone one to three bytes back, and whether their most
    significant byte is a sign. *)
Definition bits (d : Z) (h : option bool) : Z :=
  match h with None => 0 | Some false => 2 ^ d | Some true => 2 ^ d + 2 ^ (d + 4) end.
Definition mask_of (h1 h2 h3 : option bool) : Z := bits 1 h1 + bits 2 h2 + bits 3 h3.

(** What the mask says is true of the bytes to come. *)
Definition says (h : option bool) (b : option Z) : Prop :=
  match h with None => True | Some f => exists b', b = Some b' /\ Test86MSByte b' = f end.
Definition fits (h1 h2 h3 : option bool) (l : list Z) : Prop :=
  says h1 (l !! 3%nat) /\ says h2 (l !! 2%nat) /\ says h3 (l !! 1%nat).
Definition mask_wf (m : Z) (l : list Z) : Prop := exists h1 h2 h3, m = mask_of h1 h2 h3 /\ fits h1 h2 h3 l.

Definition x86_wf (p : Z) (s : lzma_simple_x86) (l : list Z) : Prop := mask_wf (x86_view p s) l.
Definition x86_eqv (p : Z) (s1 s2 : lzma_simple_x86) : Prop := x86_view p s1 = x86_view p s2.

Ltac each_mask := repeat match goal with h : option bool |- _ => destruct h as [[|] |] end; try done.

Lemma age_mask h1 h2 h3 : age (mask_of h1 h2 h3) = mask_of None h1 h2.
Proof. each_mask. Qed.

Lemma age_mark h1 h2 h3 b : age (mark (mask_of h1 h2 h3) b) = mask_of (Some (Test86MSByte b)) h1 h2.
Proof. unfold mark. destruct (Test86MSByte b); each_mask. Qed.

(** Where the filter converts, at most one opcode was left alone, and its most
    significant byte is no sign. *)
Lemma allowed_mask h1 h2 h3 : allowed (mask_of h1 h2 h3) = true ->
  (h1, h2, h3) = (None, None, None) \/ (h1, h2, h3) = (Some false, None, None) \/
  (h1, h2, h3) = (None, Some false, None) \/ (h1, h2, h3) = (None, None, Some false).
Proof. each_mask; intros _; tauto. Qed.

Lemma mask_0 : mask_of None None None = 0.
Proof. done. Qed.

Lemma mask_wf_0 l : mask_wf 0 l.
Proof. by exists None, None, None. Qed.

Lemma mask_wf_age m b0 t : mask_wf m (b0 :: t) -> mask_wf (age m) t.
Proof. intros (h1 & h2 & h3 & -> & H1 & H2 & H3). exists None, h1, h2. by rewrite age_mask. Qed.

Lemma mask_wf_mark m b0 b1 b2 b3 b4 l : mask_wf m (b0 :: b1 :: b2 :: b3 :: b4 :: l) ->
  mask_wf (age (mark m b4)) (b1 :: b2 :: b3 :: b4 :: l).
Proof.
  intros (h1 & h2 & h3 & -> & H1 & H2 & H3). exists (Some (Test86MSByte b4)), h1, h2. rewrite age_mark.
  split; [done |]. split; [by exists b4 | done].
Qed.

Lemma says_app h l l' i : says h (l !! i) -> says h ((l ++ l') !! i).
Proof. destruct h as [f |]; [| done]. intros (b & Hb & Hf). exists b. split; [by apply lookup_app_l_Some | done]. Qed.

Lemma mask_wf_app m l l' : mask_wf m l -> mask_wf m (l ++ l').
Proof. intros (h1 & h2 & h3 & -> & H1 & H2 & H3). exists h1, h2, h3. split; [done |]. split_and!; by apply says_app. Qed.

(** A mask has no bits left after four bytes. *)
Lemma age_4 m : age (age (age (age m))) = 0.
Proof.
  unfold age at 4. set (y := Z.land m 0x77).
  assert (0 <= y < 128) as Hy.
  { unfold y. replace (Z.land m 0x77) with (Z.land (Z.land m 0x77) (Z.ones 7)) by (by rewrite <- Z.land_assoc).
    rewrite Z.land_ones by lia. by apply Z.mod_pos_bound. }
  assert (y = Z.land y 0x77) as -> by (unfold y; by rewrite <- Z.land_assoc).
  assert (forallb (fun k => age (age (age (age (Z.of_nat k)))) =? 0) (seq 0 128) = true) as H by reflexivity.
  rewrite forallb_forall in H. specialize (H (Z.to_nat y)). rewrite Z2Nat.id in H by lia. apply Z.eqb_eq, H, in_seq. lia.
Qed.

(** ** Targets *)

(** [x ^ ((1 << k) - 1)] *)
Lemma flip_value k y : 0 <= k -> Z.lxor y (Z.ones k) = y + (2 ^ k - 1) - 2 * (y mod 2 ^ k).
Proof.
  intros Hk. pose proof (Z.pow_pos_nonneg 2 k ltac:(lia) Hk). pose proof (Z.mod_pos_bound y (2 ^ k) ltac:(lia)).
  assert (2 ^ k - 1 - y mod 2 ^ k = Z.ldiff (Z.ones k) y) as E.
  { rewrite <- Z.land_ones by done. replace (2 ^ k - 1) with (Z.ones k) by (rewrite Z.ones_equiv; lia).
    rewrite Z.sub_nocarry_ldiff; apply Z.bits_inj'; intros i Hi; rewrite ?Z.ldiff_spec, ?Z.land_spec, ?Z.bits_0;
      destruct (Z.testbit y i), (Z.testbit (Z.ones k) i); done. }
  replace (y + _ - _) with (y / 2 ^ k * 2 ^ k + (2 ^ k - 1 - y mod 2 ^ k)) by (pose proof (Z.div_mod y (2 ^ k)); lia).
  rewrite E, <- lor_shiftl_add' by lia. apply Z.bits_inj'. intros i Hi.
  rewrite Z.lxor_spec, Z.lor_spec, Z.shiftl_spec, Z.ldiff_spec by done.
  destruct (Z.lt_ge_cases i k).
  - rewrite (Z.testbit_neg_r _ (i - k)), Z.ones_spec_low by lia. by destruct (Z.testbit y i).
  - rewrite <- Z.shiftr_div_pow2, Z.shiftr_spec, Z.ones_spec_high by lia. replace (i - k + k) with i by lia. by destruct (Z.testbit y i).
Qed.

Definition same_25 (x y : Z) : Prop := x mod 2 ^ 25 = y mod 2 ^ 25.
#[export] Instance same_25_equiv : Equivalence same_25.
Proof. unfold same_25. split; repeat intro; congruence. Qed.

Lemma u32_25 x : same_25 (u32 x) x.
Proof. unfold same_25, u32, wrap. apply Z.mod_mod_divide. by exists (2 ^ 7). Qed.

Lemma move_25 e ip x : same_25 (x86_move e ip x) (if e then x + ip else x - ip).
Proof. unfold x86_move. destruct e; apply u32_25. Qed.

Lemma move_same e ip x y : same_25 x y -> same_25 (x86_move e ip x) (x86_move e ip y).
Proof.
  intros H. rewrite !move_25. unfold same_25 in *. destruct e.
  - by rewrite Z.add_mod, H, <- Z.add_mod.
  - by rewrite Zminus_mod, H, <- Zminus_mod.
Qed.

Lemma move_back ip x : same_25 (x86_move false ip (x86_move true ip x)) x.
Proof.
  rewrite (move_25 false). pose proof (move_25 true ip x) as H. unfold same_25 in *.
  rewrite Zminus_mod, H, <- Zminus_mod. f_equal. lia.
Qed.

(** [x ^ ((1 << (32 - 8 * d)) - 1)] changes no bit above the sign byte, and takes
    signs to signs. *)
Definition flip (d x : Z) : Z := Z.lxor x (Z.ones (32 - 8 * d)).

Ltac each_d d := let H := fresh in assert (d = 1 \/ d = 2 \/ d = 3) as H by lia; destruct H as [-> | [-> | ->]].

Lemma flip_same d x y : 1 <= d <= 3 -> same_25 x y -> same_25 (flip d x) (flip d y).
Proof.
  unfold flip, same_25. intros Hd. rewrite !flip_value by lia.
  change (2 ^ 25) with 33554432. each_d d; simpl; Z.to_euclidean_division_equations; lia.
Qed.

Lemma flip_flip d x : flip d (flip d x) = x.
Proof. unfold flip. by rewrite Z.lxor_assoc, Z.lxor_nilpotent, Z.lxor_0_r. Qed.

Lemma sign_same d x y : 1 <= d <= 3 -> same_25 x y -> sign_of d x = sign_of d y.
Proof.
  unfold sign_of, same_25. change (2 ^ 25) with 33554432. intros Hd.
  each_d d; simpl; Z.to_euclidean_division_equations; lia.
Qed.

Lemma sign_flip d x : 1 <= d <= 3 -> sign_of d (flip d x) = 255 - sign_of d x.
Proof.
  unfold flip, sign_of. intros Hd. rewrite flip_value by lia. each_d d; simpl; Z.to_euclidean_division_equations; lia.
Qed.

Lemma sign_range d x : 0 <= sign_of d x < 256.
Proof. unfold sign_of. by apply Z.mod_pos_bound. Qed.

Lemma test_flip s : Test86MSByte (255 - s) = Test86MSByte s.
Proof. unfold Test86MSByte. destruct (Z.eqb_spec (255 - s) 0), (Z.eqb_spec (255 - s) 255), (Z.eqb_spec s 0), (Z.eqb_spec s 255); cbn; lia. Qed.

(** Moving, flipping and moving again ends at the sign byte flipped. *)
Lemma sign_move2 e ip d x : 1 <= d <= 3 -> sign_of d (x86_move e ip (flip d (x86_move e ip x))) = 255 - sign_of d x.
Proof.
  intros Hd. rewrite (sign_same d _ _ Hd (move_25 e ip _)).
  rewrite <- sign_flip by done. unfold flip, sign_of, x86_move, u32, wrap. rewrite !flip_value by lia.
  change (2 ^ 32) with 4294967296. destruct e; each_d d; simpl; Z.to_euclidean_division_equations; lia.
Qed.

Lemma target_sign e ip d x : 1 <= d <= 3 -> Test86MSByte (sign_of d x) = false ->
  Test86MSByte (sign_of d (x86_target e ip d x)) = false.
Proof.
  intros Hd Hx. unfold x86_target. rewrite (proj2 (Z.ltb_lt 0 d)) by lia. cbn [andb].
  destruct (Test86MSByte (sign_of d (x86_move e ip x))) eqn:E; [| done]. fold (flip d (x86_move e ip x)). by rewrite sign_move2, test_flip.
Qed.

Lemma target_same e ip d x y : 0 <= d <= 3 -> same_25 x y -> same_25 (x86_target e ip d x) (x86_target e ip d y).
Proof.
  intros Hd H. apply (move_same e ip) in H as Hm. unfold x86_target. destruct (Z.ltb_spec 0 d); cbn [andb]; [| done].
  rewrite (sign_same d _ _ ltac:(lia) Hm). destruct (Test86MSByte _); [| done]. apply move_same, (flip_same d); [lia | done].
Qed.

Lemma target_back ip d x : 0 <= d <= 3 -> (0 < d -> Test86MSByte (sign_of d x) = false) ->
  same_25 (x86_target false ip d (x86_target true ip d x)) x.
Proof.
  intros Hd Hx. pose proof (move_back ip x) as Hb. unfold x86_target at 2. destruct (Z.ltb_spec 0 d); cbn [andb].
  - destruct (Test86MSByte (sign_of d (x86_move true ip x))) eqn:E.
    + fold (flip d (x86_move true ip x)). set (y := x86_move true ip x) in *.
      pose proof (move_back ip (flip d y)) as Hf. unfold x86_target. rewrite (proj2 (Z.ltb_lt 0 d)) by lia. cbn [andb].
      rewrite (sign_same d _ _ ltac:(lia) Hf), sign_flip, test_flip, E by lia.
      transitivity (x86_move false ip y); [| exact Hb]. apply move_same.
      fold (flip d (x86_move false ip (x86_move true ip (flip d y)))).
      transitivity (flip d (flip d y)); [by apply flip_same; [lia |] | by rewrite flip_flip].
    + unfold x86_target. rewrite (proj2 (Z.ltb_lt 0 d)) by lia. cbn [andb]. by rewrite (sign_same d _ _ ltac:(lia) Hb), Hx.
  - unfold x86_target. by rewrite (proj2 (Z.ltb_ge 0 d)) by lia.
Qed.

Lemma operand_bytes_same x y : same_25 x y -> operand_bytes x = operand_bytes y.
Proof.
  unfold same_25, operand_bytes. change (2 ^ 25) with 33554432. simpl. intros H. f_equal; [| f_equal; [| f_equal; [| f_equal]]];
  Z.to_euclidean_division_equations; lia.
Qed.

Lemma operand_bytes_back b1 b2 b3 b4 : is_byte b1 -> is_byte b2 -> is_byte b3 -> Test86MSByte b4 = true ->
  operand_bytes (operand b1 b2 b3 b4) = [b1; b2; b3; b4].
Proof.
  unfold is_byte, operand_bytes, operand. simpl. intros H1 H2 H3 [H4%Z.eqb_eq | H4%Z.eqb_eq]%orb_prop; subst b4; (f_equal; [| f_equal; [| f_equal; [| f_equal]]]);
  Z.to_euclidean_division_equations; lia.
Qed.

Lemma operand_of_bytes y b1 b2 b3 b4 : operand_bytes y = [b1; b2; b3; b4] -> same_25 (operand b1 b2 b3 b4) y.
Proof.
  unfold operand_bytes, operand, same_25. intros [= <- <- <- <-]. simpl. change (2 ^ 25) with 33554432.
  Z.to_euclidean_division_equations. lia.
Qed.

Lemma operand_bytes_are y : exists b1 b2 b3 b4, operand_bytes y = [b1; b2; b3; b4] /\ is_byte b1 /\ is_byte b2 /\ is_byte b3 /\ is_byte b4 /\
  Test86MSByte b4 = true.
Proof.
  do 4 eexists. split; [reflexivity |]. unfold is_byte. split_and!; try (by apply Z.mod_pos_bound); try (Z.to_euclidean_division_equations; lia).
  unfold Test86MSByte. assert (y / 2 ^ 24 mod 2 = 0 \/ y / 2 ^ 24 mod 2 = 1) as [-> | ->] by (pose proof (Z.mod_pos_bound (y / 2 ^ 24) 2); lia); done.
Qed.

(** The sign byte that the last opcode left alone has in the operand. *)
Lemma sign_operand d b1 b2 b3 b4 : is_byte b1 -> is_byte b2 -> is_byte b3 -> is_byte b4 -> 1 <= d <= 3 ->
  Some (sign_of d (operand b1 b2 b3 b4)) = [b1; b2; b3; b4] !! Z.to_nat (3 - d).
Proof.
  unfold is_byte, sign_of, operand. intros ? ? ? ? Hd. each_d d; simpl; f_equal; Z.to_euclidean_division_equations; lia.
Qed.

Lemma sign_operand_bytes d y : 1 <= d <= 3 -> Some (sign_of d y) = operand_bytes y !! Z.to_nat (3 - d).
Proof.
  unfold sign_of, operand_bytes. intros Hd. each_d d; simpl; f_equal; by rewrite Z.div_1_r.
Qed.

Lemma src_operand b1 b2 b3 b4 : is_byte b1 -> is_byte b2 -> is_byte b3 -> is_byte b4 ->
  Z.lor (Z.lor (Z.lor (Z.shiftl b4 24) (Z.shiftl b3 16)) (Z.shiftl b2 8)) b1 = operand b1 b2 b3 b4.
Proof. intros. rewrite join_be32 by done. unfold operand. lia. Qed.

(** ** The code converts like [x86_target] *)
Lemma dest_round e ip mask d x : mask = 2 ^ d -> 1 <= d <= 3 ->
  let y := x86_move e ip x in
  forall fuel, x86_dest (S fuel) e ip mask x =
    if Test86MSByte (sign_of d y) then x86_dest fuel e ip mask (flip d y) else Some y.
Proof.
  intros -> Hd y fuel. cbn [x86_dest]. fold y. rewrite (proj2 (Z.eqb_neq _ _)) by (pose proof (Z.pow_pos_nonneg 2 d); lia).
  assert (MASK_TO_BIT_NUMBER !! Z.to_nat (Z.shiftr (2 ^ d) 1) = Some d) as -> by (each_d d; done). cbn [mbind option_bind].
  assert (u8 (Z.shiftr y (24 - d * 8)) = sign_of d y) as ->.
  { unfold sign_of. rewrite Z.shiftr_div_pow2, (Z.mul_comm d) by lia. done. }
  destruct (Test86MSByte _); cbn [negb]; [| done]. rewrite (proj2 (Z.ltb_lt 0 d)) by lia. cbn [assert mbind option_bind].
  unfold flip. by each_d d.
Qed.

Lemma x86_dest_value e ip d x : 0 <= d <= 3 -> (0 < d -> Test86MSByte (sign_of d x) = false) ->
  x86_dest 2 e ip (if d =? 0 then 0 else 2 ^ d) x = Some (x86_target e ip d x).
Proof.
  intros Hd Hx. unfold x86_target. destruct (Z.eqb_spec d 0) as [-> | Hd0]; [done |].
  rewrite (proj2 (Z.ltb_lt 0 d)) by lia. cbn [andb]. rewrite (dest_round e ip _ d x) by (done || lia).
  destruct (Test86MSByte (sign_of d (x86_move e ip x))) eqn:E; [| done]. rewrite (dest_round e ip _ d _) by (done || lia).
  by rewrite sign_move2, test_flip, Hx by lia.
Qed.

(** ** The walk over the data *)
Definition converts (m b0 b4 : Z) : bool := is_opcode b0 && (Test86MSByte b4 && allowed m).

Lemma go_short e a m l : (length l < 5)%nat -> x86_go e a m l = (m, l, 0).
Proof. intros H. destruct l as [| ? [| ? [| ? [| ? [|]]]]]; cbn [length] in H; (done || lia). Qed.

Definition push (b0 : Z) (r : Z * list Z * Z) : Z * list Z * Z := (r.1.1, b0 :: r.1.2, 1 + r.2).

(** The mask that is carried over a byte that is not converted. *)
Definition carry (m b0 b4 : Z) : Z := age (if is_opcode b0 then mark m b4 else m).

Lemma go_pass e a m b0 b1 b2 b3 b4 l : converts m b0 b4 = false ->
  x86_go e a m (b0 :: b1 :: b2 :: b3 :: b4 :: l) = push b0 (x86_go e (u32 (a + 1)) (carry m b0 b4) (b1 :: b2 :: b3 :: b4 :: l)).
Proof.
  unfold converts, carry, push. intros H. cbn [x86_go]. destruct (is_opcode b0); cbn [andb] in H; [rewrite H |]; by repeat case_match.
Qed.

Lemma go_convert e a m b0 b1 b2 b3 b4 l : converts m b0 b4 = true ->
  let r := x86_go e (u32 (a + 5)) 0 l in
  x86_go e a m (b0 :: b1 :: b2 :: b3 :: b4 :: l) =
  (r.1.1, b0 :: operand_bytes (x86_target e (u32 (a + 5)) (Z.log2 m) (operand b1 b2 b3 b4)) ++ r.1.2, 5 + r.2).
Proof.
  unfold converts. intros [H1 H2]%andb_prop. cbv zeta. cbn [x86_go]. rewrite H1, H2. by repeat case_match.
Qed.

(** Induction along the walk. *)
Lemma walk_ind (P : Z -> Z -> list Z -> Prop) :
  (forall a m l, (length l < 5)%nat -> P a m l) ->
  (forall a m b0 b1 b2 b3 b4 l, converts m b0 b4 = false ->
     P (u32 (a + 1)) (carry m b0 b4) (b1 :: b2 :: b3 :: b4 :: l) -> P a m (b0 :: b1 :: b2 :: b3 :: b4 :: l)) ->
  (forall a m b0 b1 b2 b3 b4 l, converts m b0 b4 = true -> P (u32 (a + 5)) 0 l -> P a m (b0 :: b1 :: b2 :: b3 :: b4 :: l)) ->
  forall a m l, P a m l.
Proof.
  intros Hs Hp Hc a m l. remember (length l) as n eqn:En. revert a m l En.
  induction (lt_wf n) as [n _ IH]. intros a m l ->.
  destruct l as [| b0 [| b1 [| b2 [| b3 [| b4 l]]]]]; try (apply Hs; cbn; lia).
  destruct (converts m b0 b4) eqn:E; [apply Hc | apply Hp]; try done; eapply IH; try reflexivity; cbn; lia.
Qed.

(** The distance back to the opcode left alone, where the filter converts. *)
Lemma convert_mask m b0 b1 b2 b3 b4 l : converts m b0 b4 = true -> mask_wf m (b0 :: b1 :: b2 :: b3 :: b4 :: l) -> 
  bytes (b0 :: b1 :: b2 :: b3 :: b4 :: l) ->
  0 <= Z.log2 m <= 3 /\ m = (if Z.log2 m =? 0 then 0 else 2 ^ Z.log2 m) /\
  (0 < Z.log2 m -> Test86MSByte (sign_of (Z.log2 m) (operand b1 b2 b3 b4)) = false).
Proof.
  intros [_ [_ Ha]%andb_prop]%andb_prop (h1 & h2 & h3 & -> & Hf) Hb.
  apply list.Forall_cons in Hb as [_ Hb]. repeat (apply list.Forall_cons in Hb as [? Hb]).
  assert (forall d b, 1 <= d <= 3 -> [b1; b2; b3; b4] !! Z.to_nat (3 - d) = Some b -> Test86MSByte b = false -> 
    Test86MSByte (sign_of d (operand b1 b2 b3 b4)) = false) as Hs.
  { intros d b Hd Hlk Ht. rewrite <- sign_operand in Hlk by done. by injection Hlk as ->. }
  destruct (allowed_mask h1 h2 h3 Ha) as [[= -> -> ->] | [[= -> -> ->] | [[= -> -> ->] | [= -> -> ->]]]];
    destruct Hf as (F1 & F2 & F3); (split; [by compute |]); (split; [by compute |]); [by intros ? | intros _ ..].
  - destruct F1 as (b & [= <-] & Ht). by apply (Hs 1 b3).
  - destruct F2 as (b & [= <-] & Ht). by apply (Hs 2 b2).
  - destruct F3 as (b & [= <-] & Ht). by apply (Hs 3 b1).
Qed.

Lemma mask_wf_carry m b0 b1 b2 b3 b4 l : mask_wf m (b0 :: b1 :: b2 :: b3 :: b4 :: l) ->
  mask_wf (carry m b0 b4) (b1 :: b2 :: b3 :: b4 :: l).
Proof. unfold carry. destruct (is_opcode b0); [apply mask_wf_mark | apply mask_wf_age]. Qed.

(** The bytes that the mask speaks of keep, or keep not, a sign byte. *)
Lemma go_keeps e a m l : bytes l -> forall h1 h2 h3, m = mask_of h1 h2 h3 -> fits h1 h2 h3 l ->
  fits h1 h2 h3 (x86_go e a m l).1.2 /\ (x86_go e a m l).1.2 !! 0%nat = l !! 0%nat.
Proof.
  revert a m l. refine (walk_ind _ _ _ _).
  - intros a m l Hl _ h1 h2 h3 _ Hf. by rewrite go_short.
  - intros a m b0 b1 b2 b3 b4 l Hc IH Hb h1 h2 h3 -> Hf. rewrite go_pass by done. cbn [push fst snd]. split; [| done].
    apply list.Forall_cons in Hb as [_ Hb]. destruct Hf as (F1 & F2 & F3).
    assert (exists h0, carry (mask_of h1 h2 h3) b0 b4 = mask_of h0 h1 h2 /\ says h0 (Some b4)) as (h0 & Ec & Hs).
    { unfold carry. destruct (is_opcode b0); [exists (Some (Test86MSByte b4)) | exists None]; rewrite ?age_mark, ?age_mask; [| done].
      split; [done |]. by exists b4. }
    destruct (IH Hb h0 h1 h2 Ec) as ((_ & R2 & R3) & R0); [done |]. split_and!; [exact R2 | exact R3 |]. by rewrite lookup_cons, R0.
  - intros a m b0 b1 b2 b3 b4 l Hc _ Hb h1 h2 h3 -> Hf. rewrite go_convert by done. cbv zeta. cbn [fst snd]. split; [| done].
    destruct (convert_mask _ b0 b1 b2 b3 b4 l Hc) as (_ & _ & Hsg); [by exists h1, h2, h3 | done |].
    set (x := operand b1 b2 b3 b4) in *. set (r := x86_go e _ 0 l).
    assert (forall d, 1 <= d <= 3 -> Test86MSByte (sign_of d x) = false ->
      says (Some false) ((b0 :: operand_bytes (x86_target e (u32 (a + 5)) d x) ++ r.1.2) !! Z.to_nat (4 - d))) as Hd.
    { intros d Hd Ht. exists (sign_of d (x86_target e (u32 (a + 5)) d x)). split; [| by apply target_sign].
      replace (Z.to_nat (4 - d)) with (S (Z.to_nat (3 - d))) by lia. rewrite lookup_cons. apply lookup_app_l_Some.
      by rewrite sign_operand_bytes. }
    unfold converts in Hc. apply andb_prop in Hc as [_ [_ Ha]%andb_prop].
    destruct (allowed_mask h1 h2 h3 Ha) as [[= -> -> ->] | [[= -> -> ->] | [[= -> -> ->] | [= -> -> ->]]]]; (split_and!; try exact I).
    + apply (Hd 1); [lia | by apply Hsg].
    + apply (Hd 2); [lia | by apply Hsg].
    + apply (Hd 3); [lia | by apply Hsg].
Qed.

(** What is left undone, and the state there. *)
Lemma go_bounds e a m l : bytes l -> mask_wf m l ->
  let r := x86_go e a m l in
  length r.1.2 = length l /\ bytes r.1.2 /\ 0 <= r.2 <= Z.of_nat (length l) /\ Z.of_nat (length l) - r.2 < 5 /\
  drop (Z.to_nat r.2) r.1.2 = drop (Z.to_nat r.2) l /\ mask_wf r.1.1 (drop (Z.to_nat r.2) l).
Proof.
  cbv zeta. revert a m l. refine (walk_ind _ _ _ _).
  - intros a m l Hl Hb Hm. rewrite go_short by done. cbn [fst snd]. change (Z.to_nat 0) with 0%nat. rewrite drop_0. split_and!; (done || lia).
  - intros a m b0 b1 b2 b3 b4 l Hc IH Hb Hm. rewrite go_pass by done. cbn [push fst snd].
    apply list.Forall_cons in Hb as [H0 Hb]. destruct (IH Hb (mask_wf_carry _ _ _ _ _ _ _ Hm)) as (L & B & N & U & D & W).
    set (t := b1 :: _) in *. rewrite !Z2Nat.inj_add by lia. change (Z.to_nat 1) with 1%nat. cbn [Nat.add drop length].
    split_and!; try done; try lia. by constructor.
  - intros a m b0 b1 b2 b3 b4 l Hc IH Hb Hm. rewrite go_convert by done. cbv zeta. cbn [fst snd].
    do 4 (apply list.Forall_cons in Hb as [? Hb]). apply list.Forall_cons in Hb as [_ Hb].
    destruct (IH Hb (mask_wf_0 l)) as (L & B & N & U & D & W).
    destruct (operand_bytes_are (x86_target e (u32 (a + 5)) (Z.log2 m) (operand b1 b2 b3 b4))) as (c1 & c2 & c3 & c4 & -> & ? & ? & ? & ? & _).
    rewrite !Z2Nat.inj_add by lia. change (Z.to_nat 5) with 5%nat. cbn [Nat.add drop length app].
    split_and!; try done; try lia. by do 5 (apply list.Forall_cons; split; [done |]).
Qed.

(** Going on with more data is doing it at once. *)
Lemma go_split e a m l1 l2 : let r := x86_go e a m l1 in
  let r2 := x86_go e (u32 (a + r.2)) r.1.1 (drop (Z.to_nat r.2) l1 ++ l2) in
  bytes l1 -> mask_wf m l1 -> u32 a = a ->
  x86_go e a m (l1 ++ l2) = (r2.1.1, take (Z.to_nat r.2) r.1.2 ++ r2.1.2, r.2 + r2.2).
Proof.
  cbv zeta. revert a m l1. refine (walk_ind _ _ _ _).
  - intros a m l Hl Hb Hm Ha. rewrite (go_short e a m l) by done. cbn [fst snd]. change (Z.to_nat 0) with 0%nat. rewrite drop_0, Z.add_0_r, Ha, take_0.
    by destruct (x86_go e a m (l ++ l2)) as [[? ?] ?].
  - intros a m b0 b1 b2 b3 b4 l Hc IH Hb Hm Ha. cbn [app]. rewrite !go_pass by done. apply list.Forall_cons in Hb as [H0 Hb].
    pose proof (mask_wf_carry _ _ _ _ _ _ _ Hm) as Hw. destruct (go_bounds e (u32 (a + 1)) _ _ Hb Hw) as (_ & _ & N & _).
    cbn [app] in IH. unfold push. rewrite (IH Hb Hw (u32_idemp _)). cbn [fst snd].
    set (r := x86_go e (u32 (a + 1)) _ (b1 :: _)) in *. rewrite !Z2Nat.inj_add by lia. change (Z.to_nat 1) with 1%nat. cbn [Nat.add drop take app].
    rewrite u32_add_l, <- Z.add_assoc. f_equal. lia.
  - intros a m b0 b1 b2 b3 b4 l Hc IH Hb Hm Ha. cbn [app]. rewrite !go_convert by done. cbv zeta.
    do 5 (apply list.Forall_cons in Hb as [? Hb]). destruct (go_bounds e (u32 (a + 5)) 0 _ Hb (mask_wf_0 _)) as (_ & _ & N & _).
    rewrite (IH Hb (mask_wf_0 _) (u32_idemp _)). cbn [fst snd]. set (r := x86_go e (u32 (a + 5)) 0 l) in *.
    destruct (operand_bytes_are (x86_target e (u32 (a + 5)) (Z.log2 m) (operand b1 b2 b3 b4))) as (c1 & c2 & c3 & c4 & -> & _).
    rewrite !Z2Nat.inj_add by lia. change (Z.to_nat 5) with 5%nat. cbn [Nat.add drop take app].
    rewrite u32_add_l, <- Z.add_assoc. f_equal. lia.
Qed.

(** Decoding undoes encoding, from any mask that is true of the data. *)
Lemma go_roundtrip a m l : bytes l -> mask_wf m l ->
  let r := x86_go true a m l in x86_go false a m r.1.2 = (r.1.1, l, r.2).
Proof.
  cbv zeta. revert a m l. refine (walk_ind _ _ _ _).
  - intros a m l Hl _ _. by rewrite !(go_short _ a m l).
  - intros a m b0 b1 b2 b3 b4 l Hc IH Hb Hm. rewrite (go_pass true) by done. cbn [push fst snd].
    apply list.Forall_cons in Hb as [_ Hb]. pose proof (mask_wf_carry _ _ _ _ _ _ _ Hm) as Hw.
    specialize (IH Hb Hw). destruct (go_bounds true (u32 (a + 1)) _ _ Hb Hw) as (L & _).
    assert (converts m b0 b4 = false -> forall c4, (is_opcode b0 = true -> Test86MSByte c4 = Test86MSByte b4) ->
      converts m b0 c4 = false /\ carry m b0 c4 = carry m b0 b4) as Hsame.
    { unfold converts, carry, mark. intros H c4 E. destruct (is_opcode b0); [| done]. by rewrite E. }
    destruct Hm as (h1 & h2 & h3 & -> & F1 & F2 & F3).
    set (m := mask_of h1 h2 h3) in *. set (t := b1 :: b2 :: b3 :: b4 :: l) in *. set (r := x86_go true (u32 (a + 1)) (carry m b0 b4) t) in *.
    assert (is_opcode b0 = true -> says (Some (Test86MSByte b4)) (r.1.2 !! 3%nat)) as Hk.
    { intros Ho. apply (go_keeps true (u32 (a + 1)) (carry m b0 b4) t Hb (Some (Test86MSByte b4)) h1 h2).
      - unfold carry, m. rewrite Ho. apply age_mark.
      - split_and!; [by exists b4 | exact F1 | exact F2]. }
    destruct r as [[m' t'] n]. cbn [fst snd] in *. destruct t' as [| c1 [| c2 [| c3 [| c4 t']]]]; try done.
    destruct (Hsame Hc c4) as [Hc' Ec]; [by intros Ho; destruct (Hk Ho) as (? & [= <-] & ?) |].
    rewrite go_pass, Ec, IH by done. done.
  - intros a m b0 b1 b2 b3 b4 l Hc IH Hb Hm. rewrite (go_convert true) by done. cbv zeta. cbn [fst snd].
    destruct (convert_mask _ _ _ _ _ _ _ Hc Hm Hb) as (Hd & _ & Hsg).
    do 5 (apply list.Forall_cons in Hb as [? Hb]). specialize (IH Hb (mask_wf_0 l)).
    set (x := operand b1 b2 b3 b4) in *. set (y := x86_target true _ _ x).
    destruct (operand_bytes_are y) as (c1 & c2 & c3 & c4 & Ey & _ & _ & _ & _ & Ht). rewrite Ey. cbn [app].
    assert (converts m b0 c4 = true) as Hc'.
    { unfold converts in *. apply andb_prop in Hc as [-> [_ Ha]%andb_prop]. by rewrite Ht, Ha. }
    rewrite go_convert by done. cbv zeta. rewrite IH. cbn [fst snd].
    assert (Test86MSByte b4 = true) as Hb4 by (unfold converts in Hc; by apply andb_prop in Hc as [_ [? _]%andb_prop]).
    rewrite (operand_bytes_same _ x).
    + unfold x. by rewrite operand_bytes_back.
    + transitivity (x86_target false (u32 (a + 5)) (Z.log2 m) y); [apply target_same; [done | by apply operand_of_bytes] | by apply target_back].
Qed.

(** ** The code is the walk *)
Lemma view_age p s : u32 (p - prev_pos s) < 2 ^ 32 - 1 -> x86_view (p + 1) s = age (x86_view p s).
Proof.
  intros H. unfold x86_view. replace (p + 1 - prev_pos s) with (p - prev_pos s + 1) by lia. rewrite <- u32_add_l.
  pose proof (u32_range (p - prev_pos s)). set (q := u32 (p - prev_pos s)) in *. rewrite u32_small by lia.
  destruct (Z.ltb_spec 5 q), (Z.ltb_spec 5 (q + 1)); try lia; [done | |].
  - assert (q = 5) as Eq by lia. rewrite Eq. change (shift_mask (Z.to_nat 5) (prev_mask s)) with (age (age (age (age (age (prev_mask s)))))). by rewrite age_4.
  - rewrite Z2Nat.inj_add, Nat.add_comm by lia. done.
Qed.

Lemma view_at p m : x86_view p (MkX86 m p) = m.
Proof. unfold x86_view. cbn [prev_pos prev_mask]. by rewrite Z.sub_diag. Qed.

Lemma view_u32 p s : x86_view (u32 p) s = x86_view p s.
Proof. unfold x86_view. rewrite <- Z.add_opp_r, u32_add_l. done. Qed.

Lemma distance_step p q : u32 (p - q) < 2 ^ 32 - 1 -> u32 (p + 1 - q) = u32 (p - q) + 1.
Proof.
  intros H. replace (p + 1 - q) with (p - q + 1) by lia. rewrite <- u32_add_l. pose proof (u32_range (p - q)). apply u32_small. lia.
Qed.

Lemma u32_distance p k : 0 <= k < 2 ^ 32 -> u32 (p + k - u32 p) = k.
Proof. intros H. rewrite u32_sub_r. replace (p + k - p) with k by lia. by apply u32_small. Qed.

(** After an opcode: the mask for the next byte, when it was left alone and when
    it was converted. *)
Lemma view_next p m : x86_view (p + 1) (MkX86 m (u32 p)) = age m.
Proof. unfold x86_view. cbn [prev_pos prev_mask]. by rewrite u32_distance. Qed.

Lemma view_after p : x86_view (p + 5) (MkX86 0 (u32 p)) = 0.
Proof. unfold x86_view. cbn [prev_pos prev_mask]. by rewrite u32_distance. Qed.

Lemma rd_at pre bs post k b : 0 <= k -> bs !! Z.to_nat k = Some b -> rd (pre ++ bs ++ post) (Z.of_nat (length pre) + k) = Some b.
Proof. by apply rd_offset. Qed.

Lemma wr_at pre bs post k v : 0 <= k < Z.of_nat (length bs) ->
  wr (pre ++ bs ++ post) (Z.of_nat (length pre) + k) v = Some (pre ++ <[Z.to_nat k := v]> bs ++ post).
Proof. by apply wr_offset. Qed.

Lemma opcode_left now e pre b0 b1 b2 b3 b4 l m : mask_wf m (b0 :: b1 :: b2 :: b3 :: b4 :: l) -> is_opcode b0 = true -> converts m b0 b4 = false ->
  x86_opcode now e (Z.of_nat (length pre)) m (pre ++ b0 :: b1 :: b2 :: b3 :: b4 :: l) =
  Some (pre ++ b0 :: b1 :: b2 :: b3 :: b4 :: l, Z.of_nat (length pre) + 1, mark m b4).
Proof.
  intros (h1 & h2 & h3 & Em & _) Ho Hc. unfold x86_opcode.
  change (b0 :: b1 :: b2 :: b3 :: b4 :: l) with ([b0; b1; b2; b3; b4] ++ l).
  rewrite (rd_at pre _ l 4 b4) by done. cbn [mbind option_bind].
  assert (exists v, MASK_TO_ALLOWED_STATUS !! Z.to_nat (Z.land (Z.shiftr m 1) 0x7) = Some v) as (v & Hv) by (subst m; each_mask; by eexists).
  rewrite Hv. cbn [mbind option_bind]. unfold converts, allowed in Hc. rewrite Ho, Hv in Hc. cbn [andb default from_option] in Hc.
  change (id v) with v in Hc. by rewrite <- andb_assoc, Hc.
Qed.

Lemma written_operand y : [u8 y; u8 (Z.shiftr y 8); u8 (Z.shiftr y 16); u8 (Z.lnot (Z.land (Z.shiftr y 24) 1 - 1))] = operand_bytes y.
Proof.
  unfold operand_bytes, u8, wrap. rewrite !Z.shiftr_div_pow2 by lia. do 4 f_equal. change 1 with (Z.ones 1) at 1. rewrite Z.land_ones by lia.
  change (2 ^ 1) with 2. assert (y / 2 ^ 24 mod 2 = 0 \/ y / 2 ^ 24 mod 2 = 1) as [-> | ->] by (pose proof (Z.mod_pos_bound (y / 2 ^ 24) 2); lia); done.
Qed.

Lemma opcode_convert now e pre b0 b1 b2 b3 b4 l m : let b := b0 :: b1 :: b2 :: b3 :: b4 :: l in
  mask_wf m b -> bytes b -> converts m b0 b4 = true ->
  x86_opcode now e (Z.of_nat (length pre)) m (pre ++ b) =
  Some (pre ++ b0 :: operand_bytes (x86_target e (u32 (now + Z.of_nat (length pre) + 5)) (Z.log2 m) (operand b1 b2 b3 b4)) ++ l,
        Z.of_nat (length pre) + 5, 0).
Proof.
  cbv zeta. intros Hm Hb Hc. destruct (convert_mask _ _ _ _ _ _ _ Hc Hm Hb) as (Hd & Em & Hsg).
  do 5 (apply list.Forall_cons in Hb as [? Hb]). unfold x86_opcode.
  change (b0 :: b1 :: b2 :: b3 :: b4 :: l) with ([b0; b1; b2; b3; b4] ++ l).
  rewrite (rd_at pre _ l 4 b4), (rd_at pre _ l 3 b3), (rd_at pre _ l 2 b2), (rd_at pre _ l 1 b1) by done.
  unfold converts, allowed in Hc. apply andb_prop in Hc as [_ Hc]. cbn [mbind option_bind].
  destruct (MASK_TO_ALLOWED_STATUS !! _) as [v |]; [| by rewrite andb_false_r in Hc]. cbn [mbind option_bind].
  cbn [default from_option] in Hc. change (id v) with v in Hc. rewrite <- andb_assoc, Hc, src_operand by done.
  assert (x86_dest 2 e (u32 (now + u32 (Z.of_nat (length pre)) + 5)) m (operand b1 b2 b3 b4) =
    Some (x86_target e (u32 (now + Z.of_nat (length pre) + 5)) (Z.log2 m) (operand b1 b2 b3 b4))) as ->.
  { replace (u32 (now + u32 (Z.of_nat (length pre)) + 5)) with (u32 (now + Z.of_nat (length pre) + 5))
      by (rewrite <- (u32_add_l (now + u32 _)), u32_add_r, u32_add_l; done).
    rewrite Em at 1. by apply x86_dest_value. }
  cbn [mbind option_bind]. set (y := x86_target _ _ _ _). cbv zeta.
  do 4 (rewrite (wr_at pre) by (rewrite ?length_insert; cbn; lia); cbn [mbind option_bind]).
  rewrite <- (written_operand y). reflexivity.
Qed.

(** A round of the loop. *)
Lemma loop_round fuel now e pre s b0 b1 b2 b3 b4 l : let b := pre ++ b0 :: b1 :: b2 :: b3 :: b4 :: l in
  let i := Z.of_nat (length pre) in
  x86_loop (S fuel) now e (Z.of_nat (length b) - 5) i (prev_mask s) (prev_pos s) b =
  if is_opcode b0 then
    '(b', j, m) ← x86_opcode now e i (x86_view (now + i) s) b;
    x86_loop fuel now e (Z.of_nat (length b) - 5) j m (u32 (now + i)) b'
  else x86_loop fuel now e (Z.of_nat (length b) - 5) (i + 1) (prev_mask s) (prev_pos s) b.
Proof.
  cbv zeta. cbn [x86_loop]. rewrite (proj2 (Z.leb_le _ _)) by (rewrite length_app; cbn; lia). rewrite rd_app by done.
  cbn [mbind option_bind]. rewrite <- negb_orb. fold (is_opcode b0). destruct (is_opcode b0); cbn [negb]; [| done].
  unfold x86_view. rewrite u32_add_r. replace (u32 (now + u32 (Z.of_nat (length pre)) - prev_pos s)) with (u32 (now + Z.of_nat (length pre) - prev_pos s)); [done |].
  replace (now + u32 (Z.of_nat (length pre)) - prev_pos s) with (now - prev_pos s + u32 (Z.of_nat (length pre))) by lia.
  rewrite u32_add_r. f_equal. lia.
Qed.

(** The loop, from the byte at [length pre] on. *)
Lemma loop_walk now e pre s l : let p := now + Z.of_nat (length pre) in
  bytes l -> mask_wf (x86_view p s) l -> u32 (p - prev_pos s) + Z.of_nat (length l) < 2 ^ 32 - 1 ->
  forall fuel, (length l < fuel)%nat ->
  let r := x86_go e (u32 p) (x86_view p s) l in
  exists s', x86_loop fuel now e (Z.of_nat (length (pre ++ l)) - 5) (Z.of_nat (length pre)) (prev_mask s) (prev_pos s) (pre ++ l)
    = Some (pre ++ r.1.2, Z.of_nat (length pre) + r.2, s') /\ x86_view (p + r.2) s' = r.1.1.
Proof.
  cbv zeta. remember (u32 (now + Z.of_nat (length pre))) as a eqn:Ea. remember (x86_view (now + Z.of_nat (length pre)) s) as m eqn:Em.
  revert pre s Ea Em. revert a m l. refine (walk_ind _ _ _ _).
  - intros a m l Hl pre s -> -> Hb Hm Hq fuel Hf. rewrite go_short by done. cbn [fst snd]. destruct fuel as [| fuel]; [lia |].
    cbn [x86_loop]. rewrite (proj2 (Z.leb_gt _ _)) by (rewrite length_app; lia). rewrite !Z.add_0_r. exists s. by destruct s.
  - intros a m b0 b1 b2 b3 b4 l Hc IH pre s -> -> Hb Hm Hq fuel Hf. destruct fuel as [| fuel]; [lia |].
    pose proof (mask_wf_carry _ _ _ _ _ _ _ Hm) as Hw. pose proof Hb as [_ Hbt]%list.Forall_cons.
    set (p := now + Z.of_nat (length pre)) in *. set (m := x86_view p s) in *.
    assert (exists s0, x86_loop (S fuel) now e (Z.of_nat (length (pre ++ b0 :: b1 :: b2 :: b3 :: b4 :: l)) - 5) (Z.of_nat (length pre)) (prev_mask s) (prev_pos s)
        (pre ++ b0 :: b1 :: b2 :: b3 :: b4 :: l) =
      x86_loop fuel now e (Z.of_nat (length (pre ++ b0 :: b1 :: b2 :: b3 :: b4 :: l)) - 5) (Z.of_nat (length pre) + 1) (prev_mask s0) (prev_pos s0)
        (pre ++ b0 :: b1 :: b2 :: b3 :: b4 :: l) /\ x86_view (p + 1) s0 = carry m b0 b4 /\
      u32 (p + 1 - prev_pos s0) <= u32 (p - prev_pos s) + 1) as (s0 & -> & Hv & Hd).
    { rewrite loop_round. unfold carry. pose proof (u32_range (p - prev_pos s)). destruct (is_opcode b0) eqn:Ho.
      - fold p m. rewrite opcode_left by done. cbn [mbind option_bind]. exists (MkX86 (mark m b4) (u32 p)).
        split; [done |]. split; [apply view_next |]. cbn [prev_pos]. rewrite u32_distance by done. lia.
      - exists s. split; [done |]. cbn [length] in Hq. split; [apply view_age; lia |]. rewrite distance_step; lia. }
    assert (now + Z.of_nat (length (pre ++ [b0])) = p + 1) as Ep by (rewrite length_app; cbn; lia).
    destruct (IH (pre ++ [b0]) s0) with (fuel := fuel) as (s' & Hl & Hr);
      [by rewrite Ep, u32_add_l | by rewrite Ep | done | done | rewrite Ep; cbn [length] in Hq |- *; lia | cbn [length] in Hf |- *; lia |].
    rewrite Ep in Hr. rewrite <- !app_assoc in Hl. cbn [app] in Hl.
    replace (length (pre ++ [b0])) with (length pre + 1)%nat in Hl by (rewrite length_app; cbn; lia).
    exists s'. rewrite go_pass by done. cbn [push fst snd]. rewrite !Z.add_assoc. split; [| exact Hr].
    replace (Z.of_nat (length pre) + 1) with (Z.of_nat (length pre + 1)) by lia. exact Hl.
  - intros a m b0 b1 b2 b3 b4 l Hc IH pre s -> -> Hb Hm Hq fuel Hf. destruct fuel as [| fuel]; [lia |].
    set (p := now + Z.of_nat (length pre)) in *. set (m := x86_view p s) in *.
    rewrite loop_round, go_convert by done. fold p m. cbv zeta. cbn [fst snd].
    assert (is_opcode b0 = true) as -> by (unfold converts in Hc; by apply andb_prop in Hc as [? _]).
    rewrite opcode_convert by done. cbn [mbind option_bind]. fold p.
    do 5 (apply list.Forall_cons in Hb as [? Hb]).
    replace (u32 (u32 p + 5)) with (u32 (p + 5)) in * by (by rewrite u32_add_l).
    destruct (operand_bytes_are (x86_target e (u32 (p + 5)) (Z.log2 m) (operand b1 b2 b3 b4))) as (c1 & c2 & c3 & c4 & -> & _).
    set (pre' := pre ++ [b0; c1; c2; c3; c4]).
    assert (length pre' = (length pre + 5)%nat) as Lp by (unfold pre'; by rewrite length_app).
    assert (now + Z.of_nat (length pre') = p + 5) as Ep by lia.
    destruct (IH pre' (MkX86 0 (u32 p))) with (fuel := fuel) as (s' & Hl & Hr);
      [by rewrite Ep | by rewrite Ep, view_after | done | apply mask_wf_0
      | rewrite Ep; cbn [prev_pos length] in *; rewrite u32_distance by done; pose proof (u32_range (p - prev_pos s)); lia
      | cbn [length] in Hf; lia |].
    rewrite Ep in Hr. exists s'. rewrite !Z.add_assoc. split; [| exact Hr].
    rewrite Lp in Hl. unfold pre' in Hl. rewrite <- !app_assoc in Hl. cbn [app prev_mask prev_pos] in Hl. cbn [app].
    replace (Z.of_nat (length pre) + 5) with (Z.of_nat (length pre + 5)) by lia.
    replace (length (pre ++ b0 :: b1 :: b2 :: b3 :: b4 :: l)) with (length (pre ++ b0 :: c1 :: c2 :: c3 :: c4 :: l)) by (by rewrite !length_app).
    exact Hl.
Qed.

Lemma view_entry p s : x86_view p (MkX86 (prev_mask s) (if 5 <? u32 (p - prev_pos s) then u32 (p - 5) else prev_pos s)) = x86_view p s.
Proof.
  unfold x86_view. cbn [prev_mask prev_pos]. destruct (5 <? u32 (p - prev_pos s)) eqn:E; [| by rewrite E].
  rewrite u32_sub_r. replace (p - (p - 5)) with 5 by lia.
  change (shift_mask (Z.to_nat (u32 5)) (prev_mask s)) with (age (age (age (age (age (prev_mask s)))))). by rewrite age_4.
Qed.

(** On a buffer of at most 2 GiB the filter is the walk. *)
Lemma x86_code_walk s p e l : bytes l -> mask_wf (x86_view p s) l -> Z.of_nat (length l) <= 2 ^ 31 ->
  let r := x86_go e (u32 p) (x86_view p s) l in
  exists s', x86_code s p e l = Some (s', r.1.2, r.2) /\ x86_view (p + r.2) s' = r.1.1.
Proof.
  cbv zeta. intros Hb Hm Hl. unfold x86_code. destruct (Z.ltb_spec (Z.of_nat (length l)) 5) as [H5 | H5].
  - rewrite go_short by lia. cbn [fst snd]. rewrite Z.add_0_r. by exists s.
  - set (s1 := MkX86 (prev_mask s) (if 5 <? u32 (p - prev_pos s) then u32 (p - 5) else prev_pos s)).
    pose proof (view_entry p s) as Hv. fold s1 in Hv.
    assert (u32 (p - prev_pos s1) <= 5) as Hd.
    { unfold s1. cbn [prev_pos]. destruct (Z.ltb_spec 5 (u32 (p - prev_pos s))); [| lia]. rewrite u32_sub_r. replace (p - (p - 5)) with 5 by lia. done. }
    destruct (loop_walk p e [] s1 l) with (fuel := S (length l)) as (s' & Hs & Hr);
      cbn [length app] in *; rewrite ?Z.add_0_r, ?Hv; try done; try lia.
    rewrite Z.add_0_r, Hv in Hs, Hr. change (Z.of_nat 0) with 0 in Hs. cbn [prev_mask prev_pos] in Hs. 
    change (prev_mask s) with (prev_mask s1). fold s1. change (if 5 <? u32 (p - prev_pos s) then u32 (p - 5) else prev_pos s) with (prev_pos s1).
    rewrite Hs. cbn [mbind option_bind app]. rewrite Z.add_0_l. by exists s'.
Qed.

(** The filter is one for the wrapper of SimpleCoder.v. *)
#[export] Instance x86_is_filter : Filter x86_code x86_whole x86_wf x86_eqv 5 (2 ^ 31).
Proof.
  assert (forall s p e l, x86_whole s p e l = let r := x86_go e (u32 p) (x86_view p s) l in (MkX86 r.1.1 (u32 (p + r.2)), r.1.2, r.2)) as Hw.
  { intros. unfold x86_whole. by destruct (x86_go _ _ _ _) as [[? ?] ?]. }
  cbv zeta in Hw. unfold x86_wf, x86_eqv. split.
  - done.
  - intros p. split; repeat intro; congruence.
  - intros s p e. rewrite Hw. cbn [x86_go fst snd]. eexists. split; [reflexivity |]. rewrite Z.add_0_r, <- (view_u32 p), view_at. done.
  - intros s p e l Hb Hm Hl. destruct (x86_code_walk s p e l Hb Hm Hl) as (s' & -> & Hv). rewrite Hw.
    do 4 eexists. split; [reflexivity |]. split; [reflexivity |]. by rewrite view_at, view_u32.
  - intros s p e l t l' n Hb Hm. rewrite Hw. intros [= <- <- <-]. rewrite view_at. by apply go_bounds.
  - intros s p a b. apply mask_wf_app.
  - intros s1 s2 p l ->. done.
  - intros s1 s2 p e l t1 l' n Hb Hm E. rewrite !Hw, E. intros [= <- <- <-]. by eexists.
  - intros s p e a b t a' n u b' m Hb%Forall_app Hm. rewrite !Hw. intros [= <- <- <-].
    destruct (go_bounds e (u32 p) _ a (proj1 Hb) Hm) as (_ & _ & N & _).
    rewrite (go_split e (u32 p) _ a b (proj1 Hb) Hm (u32_idemp p)). set (r := x86_go e (u32 p) (x86_view p s) a) in *.
    rewrite view_at, u32_idemp, (u32_add_l p). intros [= <- <- <-]. cbn [fst snd]. eexists. split; [reflexivity |].
    rewrite u32_add_l. replace (p + r.2 + _) with (p + (r.2 + (x86_go e (u32 (p + r.2)) r.1.1 (drop (Z.to_nat r.2) a ++ b)).2)) by lia. done.
Qed.

Lemma x86_start_wf p l : x86_wf p x86_start l.
Proof.
  unfold x86_wf. assert (x86_view p x86_start = 0) as ->; [| apply mask_wf_0].
  unfold x86_view. destruct (Z.ltb_spec 5 (u32 (p - prev_pos x86_start))) as [H | H]; [done |].
  pose proof (u32_range (p - prev_pos x86_start)). cbn [prev_mask x86_start]. unfold shift_mask.
  induction (Z.to_nat _) as [| k IH]; [done |]. change (age (Nat.iter k age 0) = 0). by rewrite IH.
Qed.

(** C28: Decoding undoes encoding: from the same position, the x86 filter in a
    decoder gives back what its encoder was given, every byte of it, and both leave
    the same bytes at the end undone; on up to 2 GiB in a call. *)
Theorem x86_roundtrip p l : bytes l -> Z.of_nat (length l) <= 2 ^ 31 ->
  exists s l' n s', x86_code x86_start p true l = Some (s, l', n) /\ x86_code x86_start p false l' = Some (s', l, n) /\
    Z.of_nat (length l) - n < 5.
Proof.
  intros Hb Hl. pose proof (x86_start_wf p l) as Hm. unfold x86_wf in Hm.
  destruct (x86_code_walk x86_start p true l Hb Hm Hl) as (s & -> & _).
  destruct (go_bounds true (u32 p) _ l Hb Hm) as (L & B & _ & U & _). pose proof (go_roundtrip (u32 p) _ l Hb Hm) as Hr. cbv zeta in Hr.
  set (r := x86_go true _ _ l) in *.
  destruct (x86_code_walk x86_start p false r.1.2 B) as (s' & E & _); [apply (x86_start_wf p) | by rewrite L |].
  rewrite Hr in E. do 4 eexists. split; [reflexivity |]. split; [exact E |]. exact U.
Qed.

(** The call at 2 is preceded by an opcode that is left alone; the first target
    computed for it has a sign byte where that opcode has its own, so a second
    one is computed. *)
Definition x86_data : list Z := [0xE8; 1; 0xE8; 0x10; 0xF0; 0xFE; 0; 0x90; 0xE9; 0xFB; 0xFF; 0xFF; 0xFF; 0x90; 0xC3; 0x90].

Example x86_run : (fun r => (r.1.2, r.2)) <$> x86_code x86_start 0x1000 true x86_data =
  Some ([0xE8; 1; 0xE8; 0xEF; 0x0F; 0; 0xFF; 0x90; 0xE9; 0x08; 0x10; 0; 0; 0x90; 0xC3; 0x90], 13).
Proof. vm_compute. reflexivity. Qed.

Lemma x86_roundtrip_witness :
  exists s l' n s', x86_code x86_start 0x1000 true x86_data = Some (s, l', n) /\ x86_code x86_start 0x1000 false l' = Some (s', x86_data, n) /\
    Z.of_nat (length x86_data) - n < 5.
Proof. apply x86_roundtrip; [by apply (bool_decide_unpack (bytes x86_data)) | done]. Defined.
