(* ===== verification/LzDict.v ===== *)
(** * liblzma: the dictionary of the LZ decoders

    lz/lz_decoder.h: the circular buffer in which an LZ decoder keeps the last
    [size] bytes of the output, [lzma_dict], and the inline functions on it.
    [pos] is where the next byte goes, [full] how many bytes there are, [limit]
    how far the decoder may write now. The file proves that each function adds
    to the history what it should, never leaves the buffer and never copies with
    memcpy between regions that overlap; repeating a match, which the code does
    in one of three ways, is repeating it byte by byte. *)

From Stdlib Require Import ZArith Lia.
From stdpp Require Import base list option.
From S2P Require Import Prelude LzmaBase Coder.
Local Open Scope Z_scope.

(** ** The code *)
Record lzma_dict := MkDict { d_buf : list Z; d_pos : Z; d_full : Z; d_limit : Z; d_size : Z; need_reset : bool }.

Definition set_written (d : lzma_dict) (buf : list Z) (pos : Z) : lzma_dict :=
  MkDict buf pos (d_full d) (d_limit d) (d_size d) (need_reset d).
Definition set_full (d : lzma_dict) (full : Z) : lzma_dict :=
  MkDict (d_buf d) (d_pos d) full (d_limit d) (d_size d) (need_reset d).
Definition set_limit (d : lzma_dict) (limit : Z) : lzma_dict :=
  MkDict (d_buf d) (d_pos d) (d_full d) limit (d_size d) (need_reset d).

(** [if (dict->full < dict->pos) dict->full = dict->pos] *)
Definition update_full (d : lzma_dict) : lzma_dict := if d_full d <? d_pos d then set_full d (d_pos d) else d.

Definition dict_get (d : lzma_dict) (distance : Z) : option Z :=
  rd (d_buf d) (u64 (d_pos d - distance - 1 + (if distance <? d_pos d then 0 else d_size d))).

Definition dict_is_empty (d : lzma_dict) : bool := d_full d =? 0.

Definition dict_is_distance_valid (d : lzma_dict) (distance : Z) : bool := distance <? d_full d.

(** [memcpy], undefined where the regions overlap, and [memmove], inside the
    buffer; [dict->pos] moves on. *)
Definition copy_from (overlap_ok : bool) (d : lzma_dict) (src n : Z) : option lzma_dict :=
  assert (overlap_ok || (src + n <=? d_pos d) || (d_pos d + n <=? src)) ;;
  bs ← rd_bytes (d_buf d) src (Z.to_nat n);
  buf ← wr_bytes (d_buf d) (d_pos d) bs;
  Some (set_written d buf (d_pos d + n)).

(** [do ... while (--left > 0)] *)
Fixpoint repeat_loop (n : nat) (distance : Z) (d : lzma_dict) : option lzma_dict :=
  match n with
  | O => Some d
  | S n =>
      b ← dict_get d distance;
      buf ← wr (d_buf d) (d_pos d) b;
      repeat_loop n distance (set_written d buf (d_pos d + 1))
  end.

(** The three cases. *)
Definition repeat_block (d : lzma_dict) (distance left : Z) : option lzma_dict :=
  if distance <? left then repeat_loop (Z.to_nat left) distance d
  else if distance <? d_pos d then copy_from false d (d_pos d - distance - 1) left
  else
    assert (d_full d =? d_size d) ;;
    let copy_pos := u32 (d_pos d - distance - 1 + d_size d) in
    let copy_size := u32 (d_size d - copy_pos) in
    if copy_size <? left then
      d ← copy_from true d copy_pos copy_size;
      copy_from false d 0 (u32 (left - copy_size))
    else copy_from true d copy_pos left.

(** The answer, the dictionary and the new [*len]. *)
Definition dict_repeat (d : lzma_dict) (distance len : Z) : option (bool * lzma_dict * Z) :=
  let dict_avail := u64 (d_limit d - d_pos d) in
  let left := u32 (Z.min dict_avail len) in
  let len := u32 (len - left) in
  d ← repeat_block d distance left;
  Some (negb (len =? 0), update_full d, len).

Definition dict_put (d : lzma_dict) (byte : Z) : option (bool * lzma_dict) :=
  if d_pos d =? d_limit d then Some (true, d)
  else
    buf ← wr (d_buf d) (d_pos d) (u8 byte);
    Some (false, update_full (set_written d buf (d_pos d + 1))).

(** The dictionary and the new [*in_pos] and [*left]. *)
Definition dict_write (d : lzma_dict) (inp : list Z) (in_pos in_size left : Z) : option (lzma_dict * Z * Z) :=
  let in_size := if left <? u64 (in_size - in_pos) then in_pos + left else in_size in
  '(in_pos', buf, pos) ← lzma_bufcpy inp in_pos in_size (d_buf d) (d_pos d) (d_limit d);
  Some (update_full (set_written d buf pos), in_pos', left - (in_pos' - in_pos)).

Definition dict_reset (d : lzma_dict) : lzma_dict :=
  MkDict (d_buf d) (d_pos d) (d_full d) (d_limit d) (d_size d) true.

(** ** The history

    All bytes of the output that are still there, the oldest first. *)
Definition history (d : lzma_dict) : list Z :=
  if d_full d =? d_pos d then take (Z.to_nat (d_pos d)) (d_buf d)
  else drop (Z.to_nat (d_pos d)) (d_buf d) ++ take (Z.to_nat (d_pos d)) (d_buf d).

(** Before the buffer is full once, [full] is [pos]. *)
Definition dict_ok (d : lzma_dict) : Prop :=
  Z.of_nat (length (d_buf d)) = d_size d /\ bytes (d_buf d) /\ 0 < d_size d <= 2 ^ 32 /\
  0 <= d_pos d <= d_limit d /\ d_limit d <= d_size d /\
  (d_full d = d_pos d \/ d_full d = d_size d).

(** [w] is written at [pos]. *)
Definition put (d : lzma_dict) (w : list Z) : lzma_dict :=
  update_full (set_written d (take (Z.to_nat (d_pos d)) (d_buf d) ++ w ++ drop (Z.to_nat (d_pos d) + length w) (d_buf d))
                             (d_pos d + Z.of_nat (length w))).

(** The last bytes of a list. *)
Definition tail_of (n : nat) (l : list Z) : list Z := drop (length l - n) l.

(** What a match means: each byte is the one [distance + 1] bytes back. *)
Fixpoint lz_copy (n : nat) (distance : nat) (h : list Z) : list Z :=
  match n with
  | O => []
  | S n => let b := h !!! (length h - 1 - distance)%nat in b :: lz_copy n distance (h ++ [b])
  end.

Section lemmas.
  Implicit Types d : lzma_dict.

Lemma history_length d : dict_ok d -> Z.of_nat (length (history d)) = d_full d.
Proof.
  intros (Hl & _ & Hs & Hp & Hlim & Hf). unfold history. destruct (Z.eqb_spec (d_full d) (d_pos d)).
  - rewrite length_take. lia.
  - rewrite length_app, length_drop, length_take. lia.
Qed.

Lemma history_bytes d : dict_ok d -> bytes (history d).
Proof.
  intros (_ & Hb & _). unfold history. case_match; [by apply Forall_take |]. apply Forall_app. split; [by apply Forall_drop | by apply Forall_take].
Qed.

(** A byte of the history. *)
Lemma dict_get_history d distance : dict_ok d -> 0 <= distance < d_full d ->
  dict_get d distance = history d !! (length (history d) - 1 - Z.to_nat distance)%nat.
Proof.
  intros Hd Hr. pose proof (history_length d Hd) as Hh. destruct Hd as (Hl & _ & Hs & Hp & Hlim & Hf).
  unfold dict_get, rd. rewrite u64_small by (destruct (Z.ltb_spec distance (d_pos d)); lia).
  destruct (Z.ltb_spec distance (d_pos d)) as [H1 | H1]; (rewrite (proj2 (Z.ltb_ge _ _)) by lia).
  - unfold history in *. destruct (Z.eqb_spec (d_full d) (d_pos d)).
    + rewrite lookup_take_lt by lia. f_equal. lia.
    + rewrite lookup_app_r by (rewrite length_app, length_drop, length_take in *; lia).
      rewrite lookup_take_lt by (rewrite length_app, length_drop, length_take in *; lia). f_equal.
      rewrite length_app, !length_drop, length_take in *. lia.
  - unfold history in *. rewrite (proj2 (Z.eqb_neq _ _)) in * by lia.
    rewrite lookup_app_l by (rewrite length_app, length_drop, length_take in *; lia). rewrite lookup_drop. f_equal.
    rewrite length_app, length_drop, length_take in *. lia.
Qed.

Lemma dict_get_inside d distance : dict_ok d -> 0 <= distance < d_pos d + d_size d -> exists b, dict_get d distance = Some b /\ is_byte b.
Proof.
  intros (Hl & Hb & Hs & Hp & Hlim & Hf) Hr. unfold dict_get. set (i := u64 _).
  assert (0 <= i < Z.of_nat (length (d_buf d))) as Hi.
  { unfold i. rewrite u64_small; destruct (Z.ltb_spec distance (d_pos d)); lia. }
  rewrite (rd_total _ _ Hi). eexists. split; [reflexivity |]. apply (rd_byte (d_buf d) i); [done |]. by apply rd_total.
Qed.

Lemma dict_put_ok d w : dict_ok d -> bytes w -> d_pos d + Z.of_nat (length w) <= d_limit d -> dict_ok (put d w).
Proof.
  intros (Hl & Hb & Hs & Hp & Hlim & Hf) Hw Hr. unfold put, update_full, dict_ok.
  assert (bytes (take (Z.to_nat (d_pos d)) (d_buf d) ++ w ++ drop (Z.to_nat (d_pos d) + length w) (d_buf d))) as Hbuf.
  { apply Forall_app. split; [by apply Forall_take |]. apply Forall_app. split; [done | by apply Forall_drop]. }
  cbn [set_written d_full d_pos]. destruct (Z.ltb_spec (d_full d) (d_pos d + Z.of_nat (length w)));
    cbn [set_full set_written d_buf d_pos d_full d_limit d_size]; rewrite !length_app, length_take, length_drop; (split_and!; try done; lia).
Qed.

Lemma put_pos d w : d_pos (put d w) = d_pos d + Z.of_nat (length w).
Proof. unfold put, update_full. by case_match. Qed.

Lemma put_limit d w : d_limit (put d w) = d_limit d.
Proof. unfold put, update_full. by case_match. Qed.

Lemma put_size d w : d_size (put d w) = d_size d.
Proof. unfold put, update_full. by case_match. Qed.

Lemma put_full d w : dict_ok d -> d_pos d + Z.of_nat (length w) <= d_limit d -> 
  d_full (put d w) = Z.max (d_full d) (d_pos d + Z.of_nat (length w)).
Proof.
  intros _ _. unfold put, update_full. cbn [set_written d_full d_pos]. destruct (Z.ltb_spec (d_full d) (d_pos d + Z.of_nat (length w))); cbn; lia.
Qed.

Lemma put_buf d w : d_buf (put d w) = take (Z.to_nat (d_pos d)) (d_buf d) ++ w ++ drop (Z.to_nat (d_pos d) + length w) (d_buf d).
Proof. unfold put, update_full. by case_match. Qed.

(** Writing adds to the history; what is more than the buffer holds is forgotten. *)
Lemma history_put d w : dict_ok d -> d_pos d + Z.of_nat (length w) <= d_limit d ->
  history (put d w) = tail_of (Z.to_nat (d_size d)) (history d ++ w).
Proof.
  intros Hd Hw. pose proof (history_length d Hd) as Hh. pose proof Hd as (Hl & _ & Hs & Hp & Hlim & Hf).
  unfold history at 1. rewrite put_full, put_pos, put_buf by done. set (k := (Z.to_nat (d_pos d) + length w)%nat).
  set (A := take (Z.to_nat (d_pos d)) (d_buf d)). set (C := drop k (d_buf d)).
  assert (length A = Z.to_nat (d_pos d)) as HA by (unfold A; rewrite length_take; lia).
  assert (length C = Z.to_nat (d_size d - d_pos d - Z.of_nat (length w))) as HC by (unfold C, k; rewrite length_drop; lia).
  replace (Z.to_nat (d_pos d + Z.of_nat (length w))) with k by lia.
  rewrite (take_app_length' (A ++ w)), (drop_app_length' (A ++ w)) || rewrite app_assoc, take_app_length', drop_app_length' by (rewrite length_app; lia).
  unfold tail_of. rewrite length_app. unfold history in *.
  destruct (Z.eqb_spec (d_full d) (d_pos d)) as [E | E].
  - fold A. rewrite (proj2 (Z.eqb_eq _ _)) by lia. replace (_ - _)%nat with 0%nat by lia. done.
  - fold A in Hh |- *. rewrite <- app_assoc. replace (_ + _ - _)%nat with (length w) by lia.
    rewrite drop_app_le by (rewrite length_drop; lia). rewrite drop_drop. fold k C.
    destruct (Z.eqb_spec (Z.max (d_full d) (d_pos d + Z.of_nat (length w))) (d_pos d + Z.of_nat (length w))) as [E2 | E2]; [| done].
    assert (C = []) as -> by (apply nil_length_inv; lia). done.
Qed.

Lemma put_nil d : dict_ok d -> put d [] = d.
Proof.
  intros (Hl & _ & Hs & Hp & Hlim & Hf). unfold put, update_full. cbn [length app set_written d_full d_pos]. rewrite Nat.add_0_r, take_drop, Z.add_0_r.
  rewrite (proj2 (Z.ltb_ge _ _)) by lia. by destruct d.
Qed.

Lemma put_put d w1 w2 : dict_ok d -> d_pos d + Z.of_nat (length w1) + Z.of_nat (length w2) <= d_limit d -> put (put d w1) w2 = put d (w1 ++ w2).
Proof.
  intros (Hl & _ & Hs & Hp & Hlim & Hf) Hw. unfold put at 1. rewrite put_pos, put_buf.
  set (A := take (Z.to_nat (d_pos d)) (d_buf d)).
  assert (length A = Z.to_nat (d_pos d)) as HA by (unfold A; rewrite length_take; lia).
  replace (Z.to_nat (d_pos d + Z.of_nat (length w1))) with (Z.to_nat (d_pos d) + length w1)%nat by lia.
  rewrite (app_assoc A), take_app_length' by (rewrite length_app; lia).
  rewrite (drop_app_ge (A ++ w1)) by (rewrite length_app; lia). rewrite drop_drop. rewrite length_app, HA.
  replace (_ + length w1 + (_ - _))%nat with (Z.to_nat (d_pos d) + (length w1 + length w2))%nat by lia.
  unfold put. rewrite (length_app w1 w2), <- !app_assoc, Nat2Z.inj_add, Z.add_assoc. fold A.
  unfold update_full. cbn [set_written d_full d_pos d_buf].
  destruct (Z.ltb_spec (d_full d) (d_pos d + Z.of_nat (length w1))); cbn [set_full set_written d_full d_pos d_buf d_limit d_size need_reset].
  - destruct (Z.ltb_spec (d_pos d + Z.of_nat (length w1)) (d_pos d + Z.of_nat (length w1) + Z.of_nat (length w2))).
    + by rewrite (proj2 (Z.ltb_lt _ _)) by lia.
    + rewrite (proj2 (Z.ltb_lt (d_full d) _)) by lia. unfold set_full, set_written. cbn. f_equal; lia.
  - by destruct (Z.ltb_spec (d_full d) (d_pos d + Z.of_nat (length w1) + Z.of_nat (length w2))).
Qed.
End lemmas.

(** ** Copies *)
Lemma lz_copy_length n k h : length (lz_copy n k h) = n.
Proof. revert h. induction n as [| n IH]; intros h; cbn [lz_copy length]; [done |]. by rewrite IH. Qed.

Lemma lz_copy_app n m k h : lz_copy (n + m) k h = lz_copy n k h ++ lz_copy m k (h ++ lz_copy n k h).
Proof.
  revert h. induction n as [| n IH]; intros h; cbn [lz_copy Nat.add app]; [by rewrite app_nil_r |].
  rewrite IH. by rewrite <- app_assoc.
Qed.

(** A copy looks back no farther than its distance. *)
Lemma lz_copy_suffix n k h0 h : (k < length h)%nat -> lz_copy n k (h0 ++ h) = lz_copy n k h.
Proof.
  revert h. induction n as [| n IH]; intros h Hk; cbn [lz_copy]; [done |].
  assert ((h0 ++ h) !!! (length (h0 ++ h) - 1 - k)%nat = h !!! (length h - 1 - k)%nat) as ->.
  { rewrite length_app, lookup_total_app_r by lia. f_equal. lia. }
  f_equal. rewrite <- app_assoc. apply IH. rewrite length_app. lia.
Qed.

Lemma lz_copy_tail n k h s : (k < s)%nat -> (k < length h)%nat -> lz_copy n k (tail_of s h) = lz_copy n k h.
Proof.
  intros Hs Hk. unfold tail_of. rewrite <- (take_drop (length h - s) h) at 3. rewrite lz_copy_suffix; [done |].
  rewrite length_drop. lia.
Qed.

Lemma lz_copy_bytes n k h : bytes h -> (k < length h)%nat -> bytes (lz_copy n k h).
Proof.
  revert h. induction n as [| n IH]; intros h Hb Hk; cbn [lz_copy]; [constructor |].
  assert (is_byte (h !!! (length h - 1 - k)%nat)) as H.
  { eapply Forall_lookup_1; [exact Hb |]. apply list_lookup_lookup_total_lt. lia. }
  constructor; [done |]. apply IH; [| rewrite length_app; lia]. apply Forall_app. split; [done |]. by constructor.
Qed.

(** Where source and target do not overlap, it is one block. *)
Lemma lz_copy_lookup n k h i : (i < n <= k + 1)%nat -> (k < length h)%nat -> lz_copy n k h !! i = h !! (length h - 1 - k + i)%nat.
Proof.
  revert h i. induction n as [| n IH]; intros h i Hi Hk; [lia |]. cbn [lz_copy]. destruct i as [| i].
  - rewrite Nat.add_0_r. symmetry. apply list_lookup_lookup_total_lt. lia.
  - rewrite lookup_cons, IH by (rewrite ?length_app; lia). rewrite length_app. cbn [length].
    rewrite lookup_app_l by lia. f_equal. lia.
Qed.

Lemma lz_copy_block n k h : (n <= k + 1)%nat -> (k < length h)%nat -> lz_copy n k h = take n (drop (length h - 1 - k) h).
Proof.
  intros Hn Hk. apply list_eq. intros i. destruct (Nat.lt_ge_cases i n) as [Hi | Hi].
  - rewrite lz_copy_lookup, lookup_take_lt, lookup_drop by lia. done.
  - rewrite !lookup_ge_None_2; [done | rewrite length_take; lia | rewrite lz_copy_length; lia].
Qed.

(** ** The functions *)
Section functions.
  Implicit Types d : lzma_dict.

(** The fullness is only updated at the end. *)
Lemma full_later d w : put d w = update_full (set_full (put d w) (d_full d)).
Proof.
  unfold put, update_full. cbn [set_written d_full d_pos].
  destruct (Z.ltb_spec (d_full d) (d_pos d + Z.of_nat (length w))); cbn [set_full set_written d_full d_pos];
    [rewrite (proj2 (Z.ltb_lt _ _)) by done | rewrite (proj2 (Z.ltb_ge _ _)) by done]; done.
Qed.

Lemma written_put d w : dict_ok d -> d_pos d + Z.of_nat (length w) <= d_limit d ->
  wr_bytes (d_buf d) (d_pos d) w = Some (d_buf (put d w)).
Proof.
  intros (Hl & _ & Hs & Hp & Hlim & Hf) Hw. rewrite wr_bytes_seg by lia. rewrite put_buf. do 4 f_equal. lia.
Qed.

Lemma set_written_put d w : set_written d (d_buf (put d w)) (d_pos d + Z.of_nat (length w)) = set_full (put d w) (d_full d).
Proof. rewrite put_buf. unfold put, update_full. by case_match. Qed.

Lemma update_set_full d w : update_full (set_written d (d_buf (put d w)) (d_pos d + Z.of_nat (length w))) = put d w.
Proof. by rewrite set_written_put, <- full_later. Qed.

Lemma repeat_loop_full n k d f : repeat_loop n k (set_full d f) = (fun d => set_full d f) <$> repeat_loop n k d.
Proof.
  revert d. induction n as [| n IH]; intros d; cbn [repeat_loop]; [done |]. unfold dict_get. cbn [set_full d_buf d_pos d_size].
  destruct (rd _ _) as [b |]; cbn [mbind option_bind fmap option_fmap option_map]; [| done].
  destruct (wr _ _ _) as [buf |]; cbn [mbind option_bind fmap option_fmap option_map]; [| done].
  exact (IH (set_written d buf (d_pos d + 1))).
Qed.

Lemma repeat_loop_spec n k d : dict_ok d -> 0 <= k < d_full d -> k < d_size d -> d_pos d + Z.of_nat n <= d_limit d ->
  repeat_loop n k d = Some (set_full (put d (lz_copy n (Z.to_nat k) (history d))) (d_full d)).
Proof.
  revert d. induction n as [| n IH]; intros d Hd Hk Hks Hn.
  - cbn [repeat_loop lz_copy]. rewrite put_nil by done. by destruct d.
  - pose proof (history_length d Hd) as Hh. cbn [repeat_loop lz_copy]. rewrite dict_get_history by (done || lia).
    rewrite (list_lookup_lookup_total_lt (history d)) by lia. cbn [mbind option_bind].
    set (b := history d !!! _).
    assert (is_byte b) as Hb.
    { destruct (dict_get_inside d k Hd ltac:(destruct Hd as (? & ? & ? & ? & ? & ?); lia)) as (b' & Hg & Hb').
      rewrite dict_get_history in Hg by (done || lia). rewrite (list_lookup_lookup_total_lt (history d)) in Hg by lia. by injection Hg as <-. }
    pose proof (written_put d [b] Hd ltac:(cbn; lia)) as Hw. cbn [wr_bytes] in Hw.
    destruct (wr (d_buf d) (d_pos d) b) as [buf |]; [| done]. cbn [mbind option_bind] in Hw |- *. injection Hw as ->.
    pose proof (set_written_put d [b]) as Es. cbn [length] in Es. change (Z.of_nat 1) with 1 in Es. rewrite Es, repeat_loop_full.
    assert (dict_ok (put d [b])) as Hd1 by (apply dict_put_ok; [done | by repeat (constructor; try done) | cbn; lia]).
    assert (d_pos (put d [b]) = d_pos d + 1) as Ep by (by rewrite put_pos).
    rewrite IH; [| done | rewrite put_full by (done || cbn; lia); lia | by rewrite put_size | rewrite Ep, put_limit; lia].
    cbn [fmap option_fmap option_map]. f_equal. rewrite history_put by (done || cbn; lia).
    rewrite lz_copy_tail by (rewrite ?length_app; cbn; lia).
    rewrite put_put by (rewrite ?lz_copy_length; cbn; (done || lia)). cbn [app]. done.
Qed.
Lemma copy_from_spec overlap_ok d src n : dict_ok d -> 0 <= src -> 0 <= n -> src + n <= d_size d -> d_pos d + n <= d_limit d ->
  overlap_ok = true \/ src + n <= d_pos d \/ d_pos d + n <= src ->
  copy_from overlap_ok d src n = Some (set_full (put d (seg (d_buf d) src (src + n))) (d_full d)).
Proof.
  intros Hd Hs Hn Hsn Hp Ho. unfold copy_from.
  assert (overlap_ok || (src + n <=? d_pos d) || (d_pos d + n <=? src) = true) as ->.
  { destruct Ho as [-> | [H | H]]; [done | |]; apply Z.leb_le in H; rewrite H; by rewrite ?orb_true_r. }
  cbn [assert mbind option_bind]. pose proof Hd as (Hl & _). rewrite (rd_bytes_seg _ _ (src + n)) by lia. cbn [mbind option_bind].
  pose proof (seg_length (d_buf d) src (src + n) ltac:(lia) ltac:(lia)) as Hlen.
  rewrite written_put by (done || lia). cbn [mbind option_bind]. rewrite <- set_written_put. do 3 f_equal. lia.
Qed.

(** A source before [pos], and one before the start of the buffer. *)
Lemma copy_near d k n : dict_ok d -> 0 <= k < d_pos d -> 0 <= n <= k + 1 -> k < d_full d ->
  seg (d_buf d) (d_pos d - k - 1) (d_pos d - k - 1 + n) = lz_copy (Z.to_nat n) (Z.to_nat k) (history d).
Proof.
  intros Hd Hk Hn Hf. pose proof (history_length d Hd) as Hh. rewrite lz_copy_block by lia.
  assert (exists X, history d = X ++ take (Z.to_nat (d_pos d)) (d_buf d)) as (X & E)
    by (unfold history; case_match; [by exists [] | by eexists]).
  destruct Hd as (Hl & _ & Hs & Hp & Hlim & _). rewrite E in *. rewrite length_app, length_take in *.
  rewrite drop_app_ge by lia. unfold seg. rewrite skipn_firstn_comm, take_take. f_equal; [lia |]. f_equal. lia.
Qed.

Lemma copy_far d k n : dict_ok d -> d_pos d <= k < d_full d -> 0 <= n <= k + 1 ->
  let p := d_pos d - k - 1 + d_size d in
  lz_copy (Z.to_nat n) (Z.to_nat k) (history d) =
  if d_size d - p <? n then seg (d_buf d) p (d_size d) ++ seg (d_buf d) 0 (n - (d_size d - p)) else seg (d_buf d) p (p + n).
Proof.
  intros Hd Hk Hn p. pose proof (history_length d Hd) as Hh.
  destruct Hd as (Hl & _ & Hs & Hp & Hlim & Hf). rewrite lz_copy_block by lia. unfold history in *. rewrite (proj2 (Z.eqb_neq _ _)) in * by lia.
  rewrite length_app, length_drop, length_take in *. rewrite drop_app_le, drop_drop by (rewrite length_drop; lia).
  replace (_ + (_ - 1 - _))%nat with (Z.to_nat p) by lia. destruct (Z.ltb_spec (d_size d - p) n).
  - rewrite take_app_ge by (rewrite length_drop; lia). unfold seg. rewrite length_drop, Z.sub_0_r, drop_0, take_take.
    f_equal; [| f_equal; lia]. rewrite take_ge by (rewrite length_drop; lia). done.
  - rewrite take_app_le by (rewrite length_drop; lia). unfold seg. f_equal. lia.
Qed.

Lemma copy_from_full o d f src n : copy_from o (set_full d f) src n = (fun d => set_full d f) <$> copy_from o d src n.
Proof.
  unfold copy_from. cbn [set_full d_buf d_pos]. destruct (assert _); cbn [mbind option_bind fmap option_fmap option_map]; [| done].
  destruct (rd_bytes _ _ _); cbn [mbind option_bind fmap option_fmap option_map]; [| done].
  by destruct (wr_bytes _ _ _).
Qed.

Lemma repeat_block_spec d k n : dict_ok d -> 0 <= k < d_full d -> k < 2 ^ 32 - 1 -> 0 <= n < 2 ^ 32 -> d_pos d + n <= d_limit d ->
  repeat_block d k n = Some (set_full (put d (lz_copy (Z.to_nat n) (Z.to_nat k) (history d))) (d_full d)).
Proof.
  intros Hd Hk Hk32 Hn Hl. pose proof Hd as (Hb & _ & Hs & Hp & Hlim & Hf). unfold repeat_block.
  destruct (Z.ltb_spec k n) as [H1 | H1].
  { rewrite repeat_loop_spec by (done || lia). done. }
  destruct (Z.ltb_spec k (d_pos d)) as [H2 | H2].
  { rewrite copy_from_spec by (done || lia). by rewrite copy_near by (done || lia). }
  rewrite (proj2 (Z.eqb_eq _ _)) by lia. cbn [assert mbind option_bind]. cbv zeta. rewrite copy_far by (done || lia). cbv zeta.
  set (p := d_pos d - k - 1 + d_size d). rewrite (u32_small p), (u32_small (d_size d - p)) by lia.
  destruct (Z.ltb_spec (d_size d - p) n) as [H3 | H3]; [| by rewrite copy_from_spec by (auto || lia)].
  rewrite u32_small, copy_from_spec by (auto || lia). cbn [mbind option_bind].
  replace (p + (d_size d - p)) with (d_size d) by lia. set (w := seg (d_buf d) p (d_size d)).
  assert (Z.of_nat (length w) = d_size d - p) as Hw by (unfold w; apply seg_length; lia).
  assert (bytes w) as Hbw by (apply Forall_take, Forall_drop, Hd).
  assert (copy_from false (put d w) 0 (n - (d_size d - p)) = Some (set_full (put (put d w) (seg (d_buf (put d w)) 0 (n - (d_size d - p)))) (d_full (put d w)))) as E.
  { rewrite copy_from_spec; [by rewrite Z.add_0_l | apply dict_put_ok; (done || lia) | done | lia | rewrite put_size; lia
      | rewrite put_pos, put_limit; lia | rewrite put_pos; right; left; lia]. }
  rewrite copy_from_full, E. cbn [fmap option_fmap option_map].
  assert (seg (d_buf (put d w)) 0 (n - (d_size d - p)) = seg (d_buf d) 0 (n - (d_size d - p))) as ->.
  { rewrite put_buf. unfold seg. rewrite Z.sub_0_r, !drop_0, take_app_le, take_take by (rewrite length_take; lia). f_equal. lia. }
  rewrite put_put; [done | done |]. rewrite Hw, seg_length by lia. lia.
Qed.

(** Repeating a match adds its bytes, as many as there is room for, and says
    whether some are left. *)
Lemma dict_repeat_spec d k len : dict_ok d -> 0 <= k < d_full d -> k < 2 ^ 32 - 1 -> 0 <= len < 2 ^ 32 ->
  let n := Z.min (d_limit d - d_pos d) len in
  dict_repeat d k len = Some (0 <? len - n, put d (lz_copy (Z.to_nat n) (Z.to_nat k) (history d)), len - n).
Proof.
  intros Hd Hk Hk32 Hlen n. pose proof Hd as (_ & _ & Hs & Hp & Hlim & _). unfold dict_repeat. rewrite (u64_small (d_limit d - d_pos d)) by lia. fold n.
  rewrite (u32_small n), (u32_small (len - n)), repeat_block_spec by (done || lia). cbn [mbind option_bind]. rewrite <- full_later.
  do 3 f_equal. destruct (Z.eqb_spec (len - n) 0), (Z.ltb_spec 0 (len - n)); done || lia.
Qed.

Lemma dict_put_spec d b : dict_ok d ->
  dict_put d b = Some (if d_pos d =? d_limit d then (true, d) else (false, put d [u8 b])).
Proof.
  intros Hd. unfold dict_put. destruct (Z.eqb_spec (d_pos d) (d_limit d)) as [E | E]; [done |].
  pose proof Hd as (_ & _ & _ & Hp & _). pose proof (written_put d [u8 b] Hd ltac:(cbn; lia)) as Hw. cbn [wr_bytes] in Hw.
  destruct (wr (d_buf d) (d_pos d) (u8 b)) as [buf |]; [| done]. cbn [mbind option_bind] in Hw |- *. injection Hw as ->.
  pose proof (update_set_full d [u8 b]) as Hu. cbn [length] in Hu. change (Z.of_nat 1) with 1 in Hu. by rewrite Hu.
Qed.

(** Copying uncompressed data: as much as there is, as was asked for and as there
    is room for. *)
Lemma dict_write_spec d inp in_pos in_size remaining : dict_ok d -> 0 <= in_pos <= in_size -> in_size <= Z.of_nat (length inp) -> in_size < 2 ^ 64 ->
  0 <= remaining < 2 ^ 64 ->
  let n := Z.min (Z.min (in_size - in_pos) remaining) (d_limit d - d_pos d) in
  dict_write d inp in_pos in_size remaining = Some (put d (seg inp in_pos (in_pos + n)), in_pos + n, remaining - n).
Proof.
  intros Hd Hi Hl Hs64 Hrem n. pose proof Hd as (Hb & _ & Hs & Hp & Hlim & _). unfold dict_write. rewrite (u64_small (_ - in_pos)) by lia.
  set (end_ := if remaining <? in_size - in_pos then in_pos + remaining else in_size).
  assert (end_ - in_pos = Z.min (in_size - in_pos) remaining) as Es by (unfold end_; destruct (Z.ltb_spec remaining (in_size - in_pos)); lia).
  unfold lzma_bufcpy. rewrite !u64_small by lia. rewrite Es. fold n.
  rewrite (rd_bytes_seg _ _ (in_pos + n)) by lia. cbn [mbind option_bind].
  pose proof (seg_length inp in_pos (in_pos + n) ltac:(lia) ltac:(lia)) as Hlen.
  rewrite written_put by (done || lia). cbn [mbind option_bind]. do 3 f_equal; [| lia].
  rewrite <- (update_set_full d (seg inp in_pos (in_pos + n))) at 2. do 2 f_equal. lia.
Qed.
End functions.

(** C35: Repeating a match of [len] bytes, which the code does byte by byte, with one
    copy or with two, adds to the history what repeating it byte by byte means, as
    many bytes as there is room for; it never copies between regions that overlap
    with memcpy, and says how many bytes are left and whether any are. *)
Theorem dict_repeat_history d k len : dict_ok d -> 0 <= k < d_full d -> k < 2 ^ 32 - 1 -> 0 <= len < 2 ^ 32 ->
  let n := Z.min (d_limit d - d_pos d) len in
  exists d', dict_repeat d k len = Some (0 <? len - n, d', len - n) /\ dict_ok d' /\ d_pos d' = d_pos d + n /\
    history d' = tail_of (Z.to_nat (d_size d)) (history d ++ lz_copy (Z.to_nat n) (Z.to_nat k) (history d)).
Proof.
  intros Hd Hk Hk32 Hlen n. rewrite dict_repeat_spec by done. fold n. pose proof (history_length d Hd) as Hh.
  pose proof Hd as (_ & _ & Hs & Hp & Hlim & _). set (w := lz_copy (Z.to_nat n) (Z.to_nat k) (history d)).
  assert (Z.of_nat (length w) = n) as Hw by (unfold w; rewrite lz_copy_length; lia).
  exists (put d w). split; [done |]. split; [apply dict_put_ok; [done | apply lz_copy_bytes; [by apply history_bytes | lia] | lia] |].
  split; [by rewrite put_pos, Hw |]. apply history_put; (done || lia).
Qed.

(** A full buffer of eight bytes, written up to the third: five bytes from seven
    back, which wrap around its end. *)
Lemma dict_repeat_history_witness :
  let d := MkDict [11; 12; 13; 4; 5; 6; 7; 8] 3 8 8 8 false in
  exists d', dict_repeat d 6 6 = Some (true, d', 1) /\ history d' = [11; 12; 13; 5; 6; 7; 8; 11].
Proof.
  intros d. assert (dict_ok d) as Hd.
  { unfold dict_ok, d. cbn [d_buf d_pos d_full d_limit d_size]. split; [reflexivity |].
    split; [repeat (constructor; [unfold is_byte; lia |]); constructor | lia]. }
  destruct (dict_repeat_history d 6 6 Hd) as (d' & E & _ & _ & H); [unfold d; cbn; lia | lia | lia |].
  exists d'. split; [exact E | rewrite H; reflexivity].
Defined.
