(* ===== verification/RangeDecoder.v ===== *)
(** * liblzma: the range decoder

    rangecoder/range_decoder.h and range_common.h: arithmetic decoding of bits, each
    with a probability that adapts, or without one. The macros of the header are
    functions of the decoder, of the probability and of the input; reading a byte
    that is not there yet, where the macros jump to the end of the LZMA decoder,
    is the answer [None] inside the option monad's [Some]. The file proves that
    the range never gets so small that one byte does not normalise it, and that
    probabilities stay between 31 and 2017, so that neither bit is ever
    impossible. *)

From Stdlib Require Import ZArith Lia.
From stdpp Require Import base list option.
From S2P Require Import Prelude LzmaBase.
Local Open Scope Z_scope.

(** ** range_common.h *)
Definition RC_SHIFT_BITS : Z := 8.
Definition RC_TOP_BITS : Z := 24.
Definition RC_TOP_VALUE : Z := Z.shiftl 1 RC_TOP_BITS.
Definition RC_BIT_MODEL_TOTAL_BITS : Z := 11.
Definition RC_BIT_MODEL_TOTAL : Z := Z.shiftl 1 RC_BIT_MODEL_TOTAL_BITS.
Definition RC_MOVE_BITS : Z := 5.

(** What [bit_reset] stores. *)
Definition bit_reset : Z := Z.shiftr RC_BIT_MODEL_TOTAL 1.

(** ** range_decoder.h *)
Record lzma_range_decoder := MkRc { range : Z; code : Z; init_bytes_left : Z }.

(** [rc->code = (rc->code << 8) | byte] *)
Definition shift_in (code byte : Z) : Z := Z.lor (u32 (Z.shiftl code RC_SHIFT_BITS)) byte.

(** The loop runs [init_bytes_left] times at most, which is its fuel. *)
Fixpoint rc_read_init_loop (fuel : nat) (rc : lzma_range_decoder) (inp : list Z) (in_pos in_size : Z)
    : option (lzma_ret * lzma_range_decoder * Z) :=
  match fuel with
  | O => Some (LZMA_STREAM_END, rc, in_pos)
  | S fuel =>
      if in_pos =? in_size then Some (LZMA_OK, rc, in_pos)
      else
        b ← rd inp in_pos;
        if (init_bytes_left rc =? 5) && negb (b =? 0) then Some (LZMA_DATA_ERROR, rc, in_pos)
        else rc_read_init_loop fuel (MkRc (range rc) (shift_in (code rc) b) (init_bytes_left rc - 1)) inp (in_pos + 1) in_size
  end.

Definition rc_read_init (rc : lzma_range_decoder) (inp : list Z) (in_pos in_size : Z) : option (lzma_ret * lzma_range_decoder * Z) :=
  rc_read_init_loop (Z.to_nat (init_bytes_left rc)) rc inp in_pos in_size.

Definition rc_reset : lzma_range_decoder := MkRc UINT32_MAX 0 5.
Definition rc_is_finished (rc : lzma_range_decoder) : bool := code rc =? 0.

(** [Some None]: there is no more input. *)
Definition rc_normalize (rc : lzma_range_decoder) (inp : list Z) (in_pos in_size : Z) : option (option (lzma_range_decoder * Z)) :=
  if range rc <? RC_TOP_VALUE then
    if in_pos =? in_size then Some None
    else
      b ← rd inp in_pos;
      Some (Some (MkRc (u32 (Z.shiftl (range rc) RC_SHIFT_BITS)) (shift_in (code rc) b) (init_bytes_left rc), in_pos + 1))
  else Some (Some (rc, in_pos)).

Definition rc_bound (rc : lzma_range_decoder) (prob : Z) : Z := u32 (Z.shiftr (range rc) RC_BIT_MODEL_TOTAL_BITS * prob).

Definition rc_update_0 (rc : lzma_range_decoder) (prob : Z) : lzma_range_decoder * Z :=
  (MkRc (rc_bound rc prob) (code rc) (init_bytes_left rc), u16 (prob + Z.shiftr (RC_BIT_MODEL_TOTAL - prob) RC_MOVE_BITS)).

Definition rc_update_1 (rc : lzma_range_decoder) (prob : Z) : lzma_range_decoder * Z :=
  (MkRc (u32 (range rc - rc_bound rc prob)) (u32 (code rc - rc_bound rc prob)) (init_bytes_left rc), u16 (prob - Z.shiftr prob RC_MOVE_BITS)).

(** [rc_if_0], and the update of the branch taken: the bit. *)
Definition rc_decode (rc : lzma_range_decoder) (prob : Z) : bool * lzma_range_decoder * Z :=
  if code rc <? rc_bound rc prob then (false, (rc_update_0 rc prob).1, (rc_update_0 rc prob).2)
  else (true, (rc_update_1 rc prob).1, (rc_update_1 rc prob).2).

(** [rc_direct], after [rc_normalize]. *)
Definition rc_direct (rc : lzma_range_decoder) (dest : Z) : lzma_range_decoder * Z :=
  let range := Z.shiftr (range rc) 1 in
  let code := u32 (code rc - range) in
  let bound := u32 (0 - Z.shiftr code 31) in
  (MkRc range (u32 (code + Z.land range bound)) (init_bytes_left rc), u32 (u32 (Z.shiftl dest 1) + u32 (bound + 1))).

(** ** Ranges and probabilities *)
Definition prob_ok (p : Z) : Prop := 31 <= p <= 2017.
Definition rc_ok (rc : lzma_range_decoder) : Prop := 2 ^ 16 <= range rc < 2 ^ 32 /\ 0 <= code rc < 2 ^ 32.
Definition rc_normal (rc : lzma_range_decoder) : Prop := 2 ^ 24 <= range rc < 2 ^ 32 /\ 0 <= code rc < 2 ^ 32.

Lemma bit_reset_ok : prob_ok bit_reset.
Proof. split; done. Qed.

Lemma shift_in_range c b : is_byte b -> 0 <= shift_in c b < 2 ^ 32.
Proof.
  intros Hb. unfold is_byte in Hb. unfold shift_in, RC_SHIFT_BITS.
  assert (u32 (Z.shiftl c 8) = Z.shiftl (c mod 2 ^ 24) 8) as ->.
  { rewrite !Z.shiftl_mul_pow2 by lia. unfold u32, wrap. change (2 ^ 32) with (2 ^ 24 * 2 ^ 8). by rewrite Z.mul_mod_distr_r. }
  pose proof (Z.mod_pos_bound c (2 ^ 24) ltac:(lia)). rewrite lor_shiftl_add' by lia. lia.
Qed.

(** One byte is always enough. *)
Lemma rc_normalize_ok rc inp in_pos in_size : rc_ok rc -> bytes inp -> 0 <= in_pos <= in_size -> in_size <= Z.of_nat (length inp) ->
  exists r, rc_normalize rc inp in_pos in_size = Some r /\
    match r with
    | None => in_pos = in_size /\ range rc < RC_TOP_VALUE
    | Some (rc', in_pos') => rc_normal rc' /\ in_pos <= in_pos' <= in_size /\ init_bytes_left rc' = init_bytes_left rc
    end.
Proof.
  intros [Hr Hc] Hb Hi Hs. unfold rc_normalize. change RC_TOP_VALUE with (2 ^ 24). destruct (Z.ltb_spec (range rc) (2 ^ 24)).
  - destruct (Z.eqb_spec in_pos in_size); [by eexists |].
    rewrite (rd_total inp in_pos) by lia. cbn [mbind option_bind]. eexists. split; [reflexivity |].
    assert (is_byte (inp !!! Z.to_nat in_pos)) as Hby by (apply (rd_byte inp in_pos); [done |]; apply rd_total; lia).
    split; [| split; [lia | done]]. unfold rc_normal, RC_SHIFT_BITS. cbn [range code]. split; [| by apply shift_in_range].
    rewrite Z.shiftl_mul_pow2, u32_small by lia. lia.
  - eexists. split; [reflexivity |]. unfold rc_normal. split; [lia |]. split; [lia | done].
Qed.

(** A range that was normalised needs no byte. *)
Lemma rc_normalize_twice rc inp in_pos in_size rc' in_pos' : 2 ^ 16 <= range rc < 2 ^ 32 ->
  rc_normalize rc inp in_pos in_size = Some (Some (rc', in_pos')) ->
  forall p n, rc_normalize rc' inp p n = Some (Some (rc', p)).
Proof.
  intros Hr E p n. assert (2 ^ 24 <= range rc') as H.
  { unfold rc_normalize in E. change RC_TOP_VALUE with (2 ^ 24) in E. destruct (Z.ltb_spec (range rc) (2 ^ 24)); [| by injection E as <- _].
    destruct (in_pos =? in_size); [done |]. destruct (rd inp in_pos); cbn [mbind option_bind] in E; [| done]. injection E as <- _.
    unfold RC_SHIFT_BITS. cbn [range]. rewrite Z.shiftl_mul_pow2, u32_small by lia. lia. }
  unfold rc_normalize. change RC_TOP_VALUE with (2 ^ 24). by rewrite (proj2 (Z.ltb_ge _ _)).
Qed.

Lemma rc_bound_range rc p : rc_normal rc -> prob_ok p -> 2 ^ 16 <= rc_bound rc p /\ rc_bound rc p + 2 ^ 16 <= range rc.
Proof.
  intros [Hr _] Hp. unfold prob_ok in Hp. unfold rc_bound, RC_BIT_MODEL_TOTAL_BITS. rewrite Z.shiftr_div_pow2 by lia.
  assert (2 ^ 13 <= range rc / 2 ^ 11) as H1 by (apply Z.div_le_lower_bound; lia).
  pose proof (Z.mul_div_le (range rc) (2 ^ 11) ltac:(lia)) as H2.
  assert (range rc / 2 ^ 11 * p <= range rc / 2 ^ 11 * 2017) as H3 by (apply Z.mul_le_mono_nonneg_l; lia).
  assert (range rc / 2 ^ 11 * 31 <= range rc / 2 ^ 11 * p) as H4 by (apply Z.mul_le_mono_nonneg_l; lia).
  rewrite u32_small by lia. lia.
Qed.

(** Either bit leaves a usable range and a usable probability. *)
Lemma rc_decode_ok rc p : rc_normal rc -> prob_ok p ->
  let '(_, rc', p') := rc_decode rc p in rc_ok rc' /\ prob_ok p' /\ init_bytes_left rc' = init_bytes_left rc.
Proof.
  intros Hrc Hp. pose proof (rc_bound_range rc p Hrc Hp) as [B1 B2]. destruct Hrc as [Hr Hc]. unfold prob_ok in *.
  unfold rc_decode, rc_update_0, rc_update_1, rc_ok. change RC_BIT_MODEL_TOTAL with 2048. change RC_MOVE_BITS with 5.
  assert (forall x, 0 <= x < 2 ^ 16 -> u16 x = x) as Hu by (intros; by apply (wrap_small 16)).
  destruct (code rc <? rc_bound rc p); cbn [fst snd range code init_bytes_left].
  - rewrite Z.shiftr_div_pow2 by lia. change (2 ^ 5) with 32. rewrite Hu by (Z.to_euclidean_division_equations; lia).
    split; [lia |]. split; [| done]. Z.to_euclidean_division_equations; lia.
  - rewrite Z.shiftr_div_pow2 by lia. change (2 ^ 5) with 32. rewrite Hu by (Z.to_euclidean_division_equations; lia).
    rewrite (u32_small (range rc - _)) by lia. pose proof (u32_range (code rc - rc_bound rc p)).
    split; [lia |]. split; [| done]. Z.to_euclidean_division_equations; lia.
Qed.

Lemma rc_direct_ok rc x : rc_normal rc ->
  let '(rc', x') := rc_direct rc x in rc_ok rc' /\ 0 <= x' < 2 ^ 32 /\ init_bytes_left rc' = init_bytes_left rc.
Proof.
  intros [Hr Hc]. unfold rc_direct, rc_ok. cbn [range code init_bytes_left]. rewrite Z.shiftr_div_pow2 by lia. change (2 ^ 1) with 2.
  split; [split; [Z.to_euclidean_division_equations; lia | apply u32_range] |]. split; [apply u32_range | done].
Qed.
