(* ===== verification/Lzma.v ===== *)
(** * liblzma: the LZMA decoder

    lzma/lzma_common.h and lzma/lzma_decoder.c: the decoder as a machine that can
    stop wherever it needs a byte of input or room for output. In the C text a
    switch jumps to a case label in the middle of a loop, and the macros of the
    range decoder jump to its end; here each label is a constructor of [lzma_seq],
    the code from a label to the next one is a step, and [lzma_loop] takes steps.
    The labels and the bodies between them are those of the unrolled version,
    which is the one that is built (HAVE_SMALL is not defined).

    The local variables of [lzma_decode], copies of members of the coder, are the
    record [locals]. [None] is an access outside an array, reading a probability
    that was not initialised, or a failed assertion. *)

From Stdlib Require Import ZArith Lia.
From stdpp Require Import base list option gmap.
From S2P Require Import Prelude LzmaBase Coder Vli RangeDecoder LzDict.
Local Open Scope Z_scope.

(** ** lzma_common.h *)
Definition LZMA_PB_MAX : Z := 4.
Definition LZMA_LCLP_MAX : Z := 4.
Definition POS_STATES_MAX : Z := Z.shiftl 1 LZMA_PB_MAX.

Record lzma_options_lzma := MkOptions { dict_size : Z; preset_dict : list Z; lc : Z; lp : Z; pb : Z }.

Definition is_lclppb_valid (o : lzma_options_lzma) : bool :=
  (lc o <=? LZMA_LCLP_MAX) && (lp o <=? LZMA_LCLP_MAX) && (u32 (lc o + lp o) <=? LZMA_LCLP_MAX) && (pb o <=? LZMA_PB_MAX).

Inductive lzma_lzma_state :=
  | STATE_LIT_LIT | STATE_MATCH_LIT_LIT | STATE_REP_LIT_LIT | STATE_SHORTREP_LIT_LIT | STATE_MATCH_LIT | STATE_REP_LIT
  | STATE_SHORTREP_LIT | STATE_LIT_MATCH | STATE_LIT_LONGREP | STATE_LIT_SHORTREP | STATE_NONLIT_MATCH | STATE_NONLIT_REP.

Definition state_number (s : lzma_lzma_state) : Z :=
  match s with
  | STATE_LIT_LIT => 0 | STATE_MATCH_LIT_LIT => 1 | STATE_REP_LIT_LIT => 2 | STATE_SHORTREP_LIT_LIT => 3 | STATE_MATCH_LIT => 4
  | STATE_REP_LIT => 5 | STATE_SHORTREP_LIT => 6 | STATE_LIT_MATCH => 7 | STATE_LIT_LONGREP => 8 | STATE_LIT_SHORTREP => 9
  | STATE_NONLIT_MATCH => 10 | STATE_NONLIT_REP => 11
  end.

Definition STATES : Z := 12.
Definition LIT_STATES : Z := 7.
Definition is_literal_state (s : lzma_lzma_state) : bool := state_number s <? LIT_STATES.
Definition update_match (s : lzma_lzma_state) : lzma_lzma_state := if state_number s <? LIT_STATES then STATE_LIT_MATCH else STATE_NONLIT_MATCH.
Definition update_long_rep (s : lzma_lzma_state) : lzma_lzma_state := if state_number s <? LIT_STATES then STATE_LIT_LONGREP else STATE_NONLIT_REP.
Definition update_short_rep (s : lzma_lzma_state) : lzma_lzma_state := if state_number s <? LIT_STATES then STATE_LIT_SHORTREP else STATE_NONLIT_REP.

(** [next_state], the table in [lzma_decode]. *)
Definition next_state (s : lzma_lzma_state) : lzma_lzma_state :=
  match s with
  | STATE_LIT_LIT | STATE_MATCH_LIT_LIT | STATE_REP_LIT_LIT | STATE_SHORTREP_LIT_LIT => STATE_LIT_LIT
  | STATE_MATCH_LIT => STATE_MATCH_LIT_LIT
  | STATE_REP_LIT => STATE_REP_LIT_LIT
  | STATE_SHORTREP_LIT => STATE_SHORTREP_LIT_LIT
  | STATE_LIT_MATCH => STATE_MATCH_LIT
  | STATE_LIT_LONGREP => STATE_REP_LIT
  | STATE_LIT_SHORTREP => STATE_SHORTREP_LIT
  | STATE_NONLIT_MATCH => STATE_MATCH_LIT
  | STATE_NONLIT_REP => STATE_REP_LIT
  end.

Definition LITERAL_CODER_SIZE : Z := 0x300.
Definition LITERAL_CODERS_MAX : Z := Z.shiftl 1 LZMA_LCLP_MAX.

(** The index of the literal coder. *)
Definition literal_subcoder (lc lp_mask pos prev_byte : Z) : Z :=
  Z.shiftl (Z.land pos lp_mask) lc + Z.shiftr prev_byte (8 - lc).

Definition MATCH_LEN_MIN : Z := 2.
Definition LEN_LOW_SYMBOLS : Z := 8.
Definition LEN_MID_SYMBOLS : Z := 8.
Definition LEN_HIGH_SYMBOLS : Z := 256.
Definition LEN_SYMBOLS : Z := LEN_LOW_SYMBOLS + LEN_MID_SYMBOLS + LEN_HIGH_SYMBOLS.
Definition MATCH_LEN_MAX : Z := MATCH_LEN_MIN + LEN_SYMBOLS - 1.
Definition DIST_STATES : Z := 4.
Definition get_dist_state (len : Z) : Z := if len <? DIST_STATES + MATCH_LEN_MIN then len - MATCH_LEN_MIN else DIST_STATES - 1.
Definition DIST_SLOTS : Z := 64.
Definition DIST_MODEL_START : Z := 4.
Definition DIST_MODEL_END : Z := 14.
Definition FULL_DISTANCES : Z := 128.
Definition ALIGN_BITS : Z := 4.
Definition ALIGN_SIZE : Z := 16.

(** ** The probabilities

    The arrays of [lzma_lzma1_decoder] and of its two length decoders. Arrays of
    arrays are families; a pointer is an array and an offset. *)
Inductive length_decoder := match_len_decoder | rep_len_decoder.

Inductive prob_array :=
  | literal (i : Z) | is_match (s : Z) | is_rep | is_rep0 | is_rep1 | is_rep2 | is_rep0_long (s : Z)
  | dist_slot (i : Z) | pos_special | pos_align
  | choice (ld : length_decoder) | choice2 (ld : length_decoder) | low (ld : length_decoder) (p : Z) | mid (ld : length_decoder) (p : Z)
  | high (ld : length_decoder).

(** Where an array is in the structure, and its size, in probabilities; [None]
    for an index outside its family. *)
Definition ld_base (ld : length_decoder) : Z := match ld with match_len_decoder => 13106 | rep_len_decoder => 13620 end.

Definition place (a : prob_array) : option (Z * Z) :=
  let family (base n size i : Z) := if (0 <=? i) && (i <? n) then Some (base + i * size, size) else None in
  match a with
  | literal i => family 0 LITERAL_CODERS_MAX LITERAL_CODER_SIZE i
  | is_match s => family 12288 STATES POS_STATES_MAX s
  | is_rep => Some (12480, STATES)
  | is_rep0 => Some (12492, STATES)
  | is_rep1 => Some (12504, STATES)
  | is_rep2 => Some (12516, STATES)
  | is_rep0_long s => family 12528 STATES POS_STATES_MAX s
  | dist_slot i => family 12720 DIST_STATES DIST_SLOTS i
  | pos_special => Some (12976, FULL_DISTANCES - DIST_MODEL_END)
  | pos_align => Some (13090, ALIGN_SIZE)
  | choice ld => Some (ld_base ld, 1)
  | choice2 ld => Some (ld_base ld + 1, 1)
  | low ld p => family (ld_base ld + 2) POS_STATES_MAX LEN_LOW_SYMBOLS p
  | mid ld p => family (ld_base ld + 130) POS_STATES_MAX LEN_MID_SYMBOLS p
  | high ld => Some (ld_base ld + 258, LEN_HIGH_SYMBOLS)
  end.

Definition address (a : prob_array) (i : Z) : option Z :=
  '(base, size) ← place a;
  if (0 <=? i) && (i <? size) then Some (base + i) else None.

(** The probabilities that were stored, by their place. *)
Notation prob_store := (gmap Z Z).

(** ** The coder *)
Inductive len_seq := LEN_CHOICE | LEN_LOW (i : nat) | LEN_CHOICE2 | LEN_MID (i : nat) | LEN_HIGH (i : nat).

Inductive lzma_seq :=
  | SEQ_NORMALIZE | SEQ_IS_MATCH | SEQ_LITERAL (i : nat) | SEQ_LITERAL_MATCHED (i : nat) | SEQ_LITERAL_WRITE | SEQ_IS_REP
  | SEQ_LEN (ld : length_decoder) (q : len_seq) | SEQ_DIST_SLOT (i : nat) | SEQ_DIST_MODEL | SEQ_DIRECT | SEQ_ALIGN (i : nat)
  | SEQ_EOPM | SEQ_IS_REP0 | SEQ_SHORTREP | SEQ_IS_REP0_LONG | SEQ_IS_REP1 | SEQ_IS_REP2 | SEQ_COPY.

#[export] Instance length_decoder_eq_dec : EqDecision length_decoder.
Proof. solve_decision. Defined.
#[export] Instance len_seq_eq_dec : EqDecision len_seq.
Proof. solve_decision. Defined.
#[export] Instance lzma_seq_eq_dec : EqDecision lzma_seq.
Proof. solve_decision. Defined.

(** The four distances, and the state of an incomplete symbol. *)
Record lzma_reps := MkReps { rep0 : Z; rep1 : Z; rep2 : Z; rep3 : Z }.
Record lzma_incomplete := MkInc { probs : option (prob_array * Z); symbol : Z; limit : Z; offset : Z; len : Z }.

Record lzma_lzma1_decoder := MkLzma {
  c_probs : prob_store; c_rc : lzma_range_decoder; c_state : lzma_lzma_state; c_reps : lzma_reps;
  pos_mask : Z; literal_context_bits : Z; literal_pos_mask : Z; uncompressed_size : Z; sequence : lzma_seq; c_inc : lzma_incomplete }.

Record locals := MkLocals {
  store : prob_store; rc : lzma_range_decoder; in_at : Z; dict : lzma_dict; state : lzma_lzma_state; reps : lzma_reps;
  inc : lzma_incomplete; pos_state : Z }.

Definition set_store_rc (s : locals) (st : prob_store) (rc : lzma_range_decoder) : locals :=
  MkLocals st rc (in_at s) (dict s) (state s) (reps s) (inc s) (pos_state s).
Definition set_rc (s : locals) (rc : lzma_range_decoder) (in_at : Z) : locals :=
  MkLocals (store s) rc in_at (dict s) (state s) (reps s) (inc s) (pos_state s).
Definition set_dict (s : locals) (d : lzma_dict) : locals :=
  MkLocals (store s) (rc s) (in_at s) d (state s) (reps s) (inc s) (pos_state s).
Definition set_state (s : locals) (st : lzma_lzma_state) : locals :=
  MkLocals (store s) (rc s) (in_at s) (dict s) st (reps s) (inc s) (pos_state s).
Definition set_reps (s : locals) (r : lzma_reps) : locals :=
  MkLocals (store s) (rc s) (in_at s) (dict s) (state s) r (inc s) (pos_state s).
Definition set_inc (s : locals) (i : lzma_incomplete) : locals :=
  MkLocals (store s) (rc s) (in_at s) (dict s) (state s) (reps s) i (pos_state s).
Definition set_pos_state (s : locals) (p : Z) : locals :=
  MkLocals (store s) (rc s) (in_at s) (dict s) (state s) (reps s) (inc s) p.

Definition set_rep0 (s : locals) (r : Z) : locals := set_reps s (MkReps r (rep1 (reps s)) (rep2 (reps s)) (rep3 (reps s))).
Definition set_probs (s : locals) (p : prob_array * Z) : locals :=
  set_inc s (MkInc (Some p) (symbol (inc s)) (limit (inc s)) (offset (inc s)) (len (inc s))).
Definition set_symbol (s : locals) (x : Z) : locals := set_inc s (MkInc (probs (inc s)) x (limit (inc s)) (offset (inc s)) (len (inc s))).
Definition set_lim (s : locals) (x : Z) : locals := set_inc s (MkInc (probs (inc s)) (symbol (inc s)) x (offset (inc s)) (len (inc s))).
Definition set_offset (s : locals) (x : Z) : locals := set_inc s (MkInc (probs (inc s)) (symbol (inc s)) (limit (inc s)) x (len (inc s))).
Definition set_len (s : locals) (x : Z) : locals := set_inc s (MkInc (probs (inc s)) (symbol (inc s)) (limit (inc s)) (offset (inc s)) x).

(** What a step comes to: the next label, or [goto out] with the value of [ret]
    and, where it is assigned, of [coder->sequence]. *)
Inductive outcome := Next (s : locals) (q : lzma_seq) | Out (ret : lzma_ret) (q : option lzma_seq) (s : locals).

(** ** The main loop *)
Section decoder.
  Context (inp : list Z) (in_size : Z) (uncompressed_size pos_mask literal_context_bits literal_pos_mask : Z).

Definition no_eopm : bool := negb (uncompressed_size =? LZMA_VLI_UNKNOWN).

Definition normalize (q : lzma_seq) (k : locals -> option outcome) (s : locals) : option outcome :=
  r ← rc_normalize (rc s) inp (in_at s) in_size;
  match r with
  | None => Some (Out LZMA_OK (Some q) s)
  | Some (rc, in_at) => k (set_rc s rc in_at)
  end.

(** [rc_if_0(a[i], q) { rc_update_0; k0 } else { rc_update_1; k1 }] *)
Definition rc_if_0 (a : prob_array) (i : Z) (q : lzma_seq) (k0 k1 : locals -> option outcome) : locals -> option outcome :=
  normalize q (fun s =>
    at_ ← address a i;
    p ← store s !! at_;
    let '(bit, rc, p) := rc_decode (rc s) p in
    (if bit : bool then k1 else k0) (set_store_rc s (<[at_ := p]> (store s)) rc)).

(** [rc_bit_last], and [rc_bit], which also shifts the bit into [symbol]; [k] is
    what comes after. *)
Definition rc_bit_last (a : prob_array) (i : Z) (action0 action1 : locals -> locals) (q : lzma_seq) (k : locals -> option outcome)
    : locals -> option outcome :=
  rc_if_0 a i q (fun s => k (action0 s)) (fun s => k (action1 s)).

Definition rc_bit (a : prob_array) (i : Z) (action0 action1 : locals -> locals) (q : lzma_seq) (k : locals -> option outcome)
    : locals -> option outcome :=
  rc_bit_last a i (fun s => action0 (set_symbol s (u32 (Z.shiftl (symbol (inc s)) 1))))
                  (fun s => action1 (set_symbol s (u32 (u32 (Z.shiftl (symbol (inc s)) 1) + 1)))) q k.

Definition no_action (s : locals) : locals := s.
Definition goto (q : lzma_seq) (s : locals) : option outcome := Some (Next s q).

(** [probs[i]] *)
Definition with_probs (k : prob_array -> Z -> locals -> option outcome) (s : locals) : option outcome :=
  '(a, off) ← probs (inc s); k a off s.

(** The top of the loop. *)
Definition loop_top (s : locals) : option outcome := goto SEQ_IS_MATCH (set_pos_state s (Z.land (d_pos (dict s)) pos_mask)).

(** After the main loop: [rc_normalize(SEQ_NORMALIZE); coder->sequence = SEQ_IS_MATCH;] *)
Definition after_loop : locals -> option outcome := normalize SEQ_NORMALIZE (fun s => Some (Out LZMA_OK (Some SEQ_IS_MATCH) s)).

(** A literal is next: its coder, and its match byte. *)
Definition literal_start (s : locals) : option outcome :=
  prev ← dict_get (dict s) 0;
  let s := set_probs s (literal (literal_subcoder literal_context_bits literal_pos_mask (d_pos (dict s)) prev), 0) in
  let s := set_symbol s 1 in
  if is_literal_state (state s) then goto (SEQ_LITERAL 0) s
  else
    b ← dict_get (dict s) (rep0 (reps s));
    let s := set_len s (Z.shiftl b 1) in
    goto (SEQ_LITERAL_MATCHED 0) (set_offset s 0x100).

Definition step_is_match (s : locals) : option outcome :=
  if no_eopm && (d_pos (dict s) =? d_limit (dict s)) then after_loop s
  else rc_if_0 (is_match (state_number (state s))) (pos_state s) SEQ_IS_MATCH literal_start (goto SEQ_IS_REP) s.

Definition literal_end (s : locals) : option outcome := goto SEQ_LITERAL_WRITE (set_state s (next_state (state s))).

Definition step_literal (i : nat) : locals -> option outcome :=
  with_probs (fun a off s =>
    rc_bit a (off + symbol (inc s)) no_action no_action (SEQ_LITERAL i)
      (if (i =? 7)%nat then literal_end else goto (SEQ_LITERAL (S i))) s).

Definition step_literal_matched (i : nat) : locals -> option outcome :=
  with_probs (fun a off s =>
    let match_bit := Z.land (len (inc s)) (offset (inc s)) in
    let subcoder_index := u32 (offset (inc s) + match_bit + symbol (inc s)) in
    rc_bit a (off + subcoder_index)
      (fun s => set_offset s (Z.land (offset (inc s)) (u32 (Z.lnot match_bit))))
      (fun s => set_offset s (Z.land (offset (inc s)) match_bit)) (SEQ_LITERAL_MATCHED i)
      (if (i =? 7)%nat then literal_end else fun s => goto (SEQ_LITERAL_MATCHED (S i)) (set_len s (u32 (Z.shiftl (len (inc s)) 1)))) s).

Definition step_literal_write (s : locals) : option outcome :=
  '(full, d) ← dict_put (dict s) (symbol (inc s));
  if full : bool then Some (Out LZMA_OK (Some SEQ_LITERAL_WRITE) s) else loop_top (set_dict s d).

(** [symbol = 1;] and the length decoder. *)
Definition len_decode (ld : length_decoder) (s : locals) : option outcome := goto (SEQ_LEN ld LEN_CHOICE) (set_symbol s 1).

Definition step_is_rep (s : locals) : option outcome :=
  rc_if_0 is_rep (state_number (state s)) SEQ_IS_REP
    (fun s =>
      let s := set_state s (update_match (state s)) in
      let s := set_reps s (MkReps (rep0 (reps s)) (rep0 (reps s)) (rep1 (reps s)) (rep2 (reps s))) in
      len_decode match_len_decoder s)
    (fun s =>
      if negb (dict_is_distance_valid (dict s) 0) then Some (Out LZMA_DATA_ERROR None s)
      else goto SEQ_IS_REP0 s) s.

(** The end of [len_decode]: the slot of the distance is next, or the copy. *)
Definition len_end (ld : length_decoder) (target : Z) (s : locals) : option outcome :=
  let s := set_len s (u32 target) in
  match ld with
  | match_len_decoder => goto (SEQ_DIST_SLOT 0) (set_symbol (set_probs s (dist_slot (get_dist_state (len (inc s))), 0)) 1)
  | rep_len_decoder =>
      assert (MATCH_LEN_MIN <=? len (inc s)) ;;
      assert (len (inc s) <=? MATCH_LEN_MAX) ;;
      goto SEQ_COPY s
  end.

Definition step_len (ld : length_decoder) (q : len_seq) (s : locals) : option outcome :=
  match q with
  | LEN_CHOICE => rc_if_0 (choice ld) 0 (SEQ_LEN ld LEN_CHOICE) (goto (SEQ_LEN ld (LEN_LOW 0))) (goto (SEQ_LEN ld LEN_CHOICE2)) s
  | LEN_LOW i =>
      rc_bit (low ld (pos_state s)) (symbol (inc s)) no_action no_action (SEQ_LEN ld (LEN_LOW i))
        (if (i =? 2)%nat then fun s => len_end ld (symbol (inc s) - LEN_LOW_SYMBOLS + MATCH_LEN_MIN) s
         else goto (SEQ_LEN ld (LEN_LOW (S i)))) s
  | LEN_CHOICE2 => rc_if_0 (choice2 ld) 0 (SEQ_LEN ld LEN_CHOICE2) (goto (SEQ_LEN ld (LEN_MID 0))) (goto (SEQ_LEN ld (LEN_HIGH 0))) s
  | LEN_MID i =>
      rc_bit (mid ld (pos_state s)) (symbol (inc s)) no_action no_action (SEQ_LEN ld (LEN_MID i))
        (if (i =? 2)%nat then fun s => len_end ld (symbol (inc s) - LEN_MID_SYMBOLS + MATCH_LEN_MIN + LEN_LOW_SYMBOLS) s
         else goto (SEQ_LEN ld (LEN_MID (S i)))) s
  | LEN_HIGH i =>
      rc_bit (high ld) (symbol (inc s)) no_action no_action (SEQ_LEN ld (LEN_HIGH i))
        (if (i =? 7)%nat then fun s => len_end ld (symbol (inc s) - LEN_HIGH_SYMBOLS + MATCH_LEN_MIN + LEN_LOW_SYMBOLS + LEN_MID_SYMBOLS) s
         else goto (SEQ_LEN ld (LEN_HIGH (S i)))) s
  end.

(** The distance of a match is decoded. *)
Definition check_distance (s : locals) : option outcome :=
  if negb (dict_is_distance_valid (dict s) (rep0 (reps s))) then Some (Out LZMA_DATA_ERROR None s)
  else
    assert (MATCH_LEN_MIN <=? len (inc s)) ;;
    assert (len (inc s) <=? MATCH_LEN_MAX) ;;
    goto SEQ_COPY s.

(** The slot is decoded: the other bits of the distance. *)
Definition slot_end (s : locals) : option outcome :=
  let s := set_symbol s (u32 (symbol (inc s) - DIST_SLOTS)) in
  let slot := symbol (inc s) in
  assert (slot <=? 63) ;;
  if slot <? DIST_MODEL_START then check_distance (set_rep0 s slot)
  else
    let limit := u32 (Z.shiftr slot 1 - 1) in
    assert ((1 <=? limit) && (limit <=? 30)) ;;
    let r := 2 + Z.land slot 1 in
    if slot <? DIST_MODEL_END then
      assert (limit <=? 5) ;;
      let r := u32 (Z.shiftl r limit) in
      assert (r <=? 96) ;;
      assert ((-1 <=? r - slot - 1) && (r - slot - 1 <=? 82)) ;;
      let s := set_probs (set_rep0 (set_lim s limit) r) (pos_special, r - slot - 1) in
      goto SEQ_DIST_MODEL (set_offset (set_symbol s 1) 0)
    else
      assert (14 <=? slot) ;;
      assert (6 <=? limit) ;;
      let limit := limit - ALIGN_BITS in
      assert (2 <=? limit) ;;
      goto SEQ_DIRECT (set_rep0 (set_lim s limit) r).

Definition step_dist_slot (i : nat) : locals -> option outcome :=
  with_probs (fun a off s =>
    rc_bit a (off + symbol (inc s)) no_action no_action (SEQ_DIST_SLOT i)
      (if (i =? 5)%nat then slot_end else goto (SEQ_DIST_SLOT (S i))) s).

(** [rep0 += x] *)
Definition add_rep0 (x : Z) (s : locals) : locals := set_rep0 s (u32 (rep0 (reps s) + x)).

(** [switch (limit)]: the cases 5 to 2 fall through to the next one. *)
Definition step_dist_model : locals -> option outcome :=
  with_probs (fun a off s =>
    let limit := limit (inc s) in
    let add := add_rep0 (Z.shiftl 1 (offset (inc s))) in
    if (2 <=? limit) && (limit <=? 5) then
      assert (negb (limit =? 5) || (offset (inc s) =? 0)) ;;
      rc_bit a (off + symbol (inc s)) no_action add SEQ_DIST_MODEL
        (fun s => goto SEQ_DIST_MODEL (set_lim (set_offset s (u32 (offset (inc s) + 1))) (limit - 1))) s
    else if limit =? 1 then rc_bit_last a (off + symbol (inc s)) no_action add SEQ_DIST_MODEL check_distance s
    else check_distance s).

Definition step_direct : locals -> option outcome :=
  normalize SEQ_DIRECT (fun s =>
    let '(rc, r) := rc_direct (rc s) (rep0 (reps s)) in
    let s := set_rep0 (set_rc s rc (in_at s)) r in
    let s := set_lim s (u32 (limit (inc s) - 1)) in
    if 0 <? limit (inc s) then goto SEQ_DIRECT s
    else goto (SEQ_ALIGN 0) (set_symbol (set_rep0 s (u32 (Z.shiftl r ALIGN_BITS))) 1)).

(** All bits of the distance are there. *)
Definition align_end (s : locals) : option outcome :=
  if rep0 (reps s) =? UINT32_MAX then
    if negb (uncompressed_size =? LZMA_VLI_UNKNOWN) then Some (Out LZMA_DATA_ERROR None s) else goto SEQ_EOPM s
  else check_distance s.

Definition step_align (i : nat) (s : locals) : option outcome :=
  if (i =? 3)%nat then rc_bit_last pos_align (symbol (inc s)) no_action (add_rep0 8) (SEQ_ALIGN i) align_end s
  else rc_bit pos_align (symbol (inc s)) no_action (add_rep0 (Z.shiftl 1 (Z.of_nat i))) (SEQ_ALIGN i) (goto (SEQ_ALIGN (S i))) s.

Definition step_eopm : locals -> option outcome := normalize SEQ_EOPM (fun s => Some (Out LZMA_STREAM_END None s)).

(** A repeated match: its distance is known, its length is next. *)
Definition rep_end (s : locals) : option outcome := len_decode rep_len_decoder (set_state s (update_long_rep (state s))).

Definition step_is_rep0 (s : locals) : option outcome :=
  rc_if_0 is_rep0 (state_number (state s)) SEQ_IS_REP0 (goto SEQ_IS_REP0_LONG) (goto SEQ_IS_REP1) s.

Definition step_is_rep0_long (s : locals) : option outcome :=
  rc_if_0 (is_rep0_long (state_number (state s))) (pos_state s) SEQ_IS_REP0_LONG
    (fun s => goto SEQ_SHORTREP (set_state s (update_short_rep (state s)))) rep_end s.

Definition step_shortrep (s : locals) : option outcome :=
  b ← dict_get (dict s) (rep0 (reps s));
  '(full, d) ← dict_put (dict s) b;
  if full : bool then Some (Out LZMA_OK (Some SEQ_SHORTREP) s) else loop_top (set_dict s d).

Definition step_is_rep1 (s : locals) : option outcome :=
  rc_if_0 is_rep1 (state_number (state s)) SEQ_IS_REP1
    (fun s => rep_end (set_reps s (MkReps (rep1 (reps s)) (rep0 (reps s)) (rep2 (reps s)) (rep3 (reps s)))))
    (goto SEQ_IS_REP2) s.

Definition step_is_rep2 (s : locals) : option outcome :=
  rc_if_0 is_rep2 (state_number (state s)) SEQ_IS_REP2
    (fun s => rep_end (set_reps s (MkReps (rep2 (reps s)) (rep0 (reps s)) (rep1 (reps s)) (rep3 (reps s)))))
    (fun s => rep_end (set_reps s (MkReps (rep3 (reps s)) (rep0 (reps s)) (rep1 (reps s)) (rep2 (reps s))))) s.

Definition step_copy (s : locals) : option outcome :=
  '(full, d, l) ← dict_repeat (dict s) (rep0 (reps s)) (len (inc s));
  let s := set_len (set_dict s d) l in
  if full : bool then Some (Out LZMA_OK (Some SEQ_COPY) s) else loop_top s.

Definition step (q : lzma_seq) (s : locals) : option outcome :=
  match q with
  | SEQ_NORMALIZE | SEQ_IS_MATCH => step_is_match s
  | SEQ_LITERAL i => step_literal i s
  | SEQ_LITERAL_MATCHED i => step_literal_matched i s
  | SEQ_LITERAL_WRITE => step_literal_write s
  | SEQ_IS_REP => step_is_rep s
  | SEQ_LEN ld q => step_len ld q s
  | SEQ_DIST_SLOT i => step_dist_slot i s
  | SEQ_DIST_MODEL => step_dist_model s
  | SEQ_DIRECT => step_direct s
  | SEQ_ALIGN i => step_align i s
  | SEQ_EOPM => step_eopm s
  | SEQ_IS_REP0 => step_is_rep0 s
  | SEQ_SHORTREP => step_shortrep s
  | SEQ_IS_REP0_LONG => step_is_rep0_long s
  | SEQ_IS_REP1 => step_is_rep1 s
  | SEQ_IS_REP2 => step_is_rep2 s
  | SEQ_COPY => step_copy s
  end.

Fixpoint lzma_loop (fuel : nat) (q : lzma_seq) (s : locals) : option (lzma_ret * option lzma_seq * locals) :=
  match fuel with
  | O => None
  | S fuel =>
      o ← step q s;
      match o with
      | Next s q => lzma_loop fuel q s
      | Out ret q s => Some (ret, q, s)
      end
  end.
End decoder.

(** ** lzma_decode *)

(** The local copies. *)
Definition enter (c : lzma_lzma1_decoder) (d : lzma_dict) (in_pos : Z) : locals :=
  MkLocals (c_probs c) (c_rc c) in_pos d (c_state c) (c_reps c) (c_inc c) (Z.land (d_pos d) (pos_mask c)).

Definition set_coder_rc (c : lzma_lzma1_decoder) (rc : lzma_range_decoder) : lzma_lzma1_decoder :=
  MkLzma (c_probs c) rc (c_state c) (c_reps c) (pos_mask c) (literal_context_bits c) (literal_pos_mask c) (uncompressed_size c) (sequence c) (c_inc c).

(** The limit that a known uncompressed size puts on the dictionary. *)
Definition decode_limit (unc : Z) (d : lzma_dict) : Z :=
  if no_eopm unc && (unc <? u64 (d_limit d - d_pos d)) then d_pos d + unc else d_limit d.

(** Enough for every step there can be: [lzma_decode_safe] in LzmaRun.v. *)
Definition decode_fuel (d : lzma_dict) : nat := Z.to_nat (64 * (d_limit d - d_pos d + 1)).

(** From [out] on: the state is saved, all but [dict.limit], and the end of data of
    a known size is noticed. *)
Definition save (c : lzma_lzma1_decoder) (d0 : lzma_dict) (ret : lzma_ret) (q : option lzma_seq) (s : locals)
    : lzma_ret * lzma_lzma1_decoder * lzma_dict * Z :=
  let unc := uncompressed_size c in
  let known := negb (unc =? LZMA_VLI_UNKNOWN) in
  let unc' := if known then u64 (unc - (d_pos (dict s) - d_pos d0)) else unc in
  let q' := default (sequence c) q in
  let ret := if known && (unc' =? 0) && bool_decide (ret = LZMA_OK) && negb (bool_decide (q' = SEQ_NORMALIZE))
             then if bool_decide (q' = SEQ_IS_MATCH) then LZMA_STREAM_END else LZMA_DATA_ERROR else ret in
  let c' rc := MkLzma (store s) rc (state s) (reps s) (pos_mask c) (literal_context_bits c) (literal_pos_mask c) unc' q' (inc s) in
  let d' := set_limit (dict s) (d_limit d0) in
  if bool_decide (ret = LZMA_STREAM_END)
  then (if rc_is_finished (rc s) then LZMA_STREAM_END else LZMA_DATA_ERROR, c' rc_reset, d', in_at s)
  else (ret, c' (rc s), d', in_at s).

Definition lzma_decode (c : lzma_lzma1_decoder) (d : lzma_dict) (inp : list Z) (in_pos in_size : Z)
    : option (lzma_ret * lzma_lzma1_decoder * lzma_dict * Z) :=
  '(ret, rc, in_pos) ← rc_read_init (c_rc c) inp in_pos in_size;
  let c := set_coder_rc c rc in
  if negb (bool_decide (ret = LZMA_STREAM_END)) then Some (ret, c, d, in_pos)
  else
    let local := set_limit d (decode_limit (uncompressed_size c) d) in
    '(ret, q, s) ← lzma_loop inp in_size (uncompressed_size c) (pos_mask c) (literal_context_bits c) (literal_pos_mask c)
                     (decode_fuel local) (sequence c) (enter c local in_pos);
    Some (save c d ret q s).

(** ** Resetting and initialising *)
Definition below (n : Z) : list Z := map Z.of_nat (seq 0 (Z.to_nat n)).
Definition array_of (n : Z) (a : prob_array) : list (prob_array * Z) := map (pair a) (below n).

Definition literal_init (lc lp : Z) : list (prob_array * Z) :=
  flat_map (fun i => array_of LITERAL_CODER_SIZE (literal i)) (below (Z.shiftl 1 (lc + lp))).

Definition bit_reset_each (l : list (prob_array * Z)) (st : prob_store) : option prob_store :=
  each (fun '(a, i) st => at_ ← address a i; Some (<[at_ := bit_reset]> st)) l st.

(** The bits that are reset, in the order of the loops. *)
Definition states_reset (pos_mask : Z) : list (prob_array * Z) :=
  flat_map (fun i => flat_map (fun j => [(is_match i, j); (is_rep0_long i, j)]) (below (pos_mask + 1)) ++
                     [(is_rep, i); (is_rep0, i); (is_rep1, i); (is_rep2, i)]) (below STATES).

Definition dist_reset : list (prob_array * Z) :=
  flat_map (fun i => array_of DIST_SLOTS (dist_slot i)) (below DIST_STATES) ++
  array_of (FULL_DISTANCES - DIST_MODEL_END) pos_special ++ array_of ALIGN_SIZE pos_align.

Definition lengths_reset (num_pos_states : Z) : list (prob_array * Z) :=
  [(choice match_len_decoder, 0); (choice2 match_len_decoder, 0); (choice rep_len_decoder, 0); (choice2 rep_len_decoder, 0)] ++
  flat_map (fun p => array_of LEN_LOW_SYMBOLS (low match_len_decoder p) ++ array_of LEN_MID_SYMBOLS (mid match_len_decoder p) ++
                     array_of LEN_LOW_SYMBOLS (low rep_len_decoder p) ++ array_of LEN_MID_SYMBOLS (mid rep_len_decoder p)) (below num_pos_states) ++
  array_of LEN_HIGH_SYMBOLS (high match_len_decoder) ++ array_of LEN_HIGH_SYMBOLS (high rep_len_decoder).

Definition lzma_decoder_reset (c : lzma_lzma1_decoder) (o : lzma_options_lzma) : option lzma_lzma1_decoder :=
  let mask := u32 (Z.shiftl 1 (pb o)) - 1 in
  assert (lc o + lp o <=? LZMA_LCLP_MAX) ;;
  st ← bit_reset_each (literal_init (lc o) (lp o)) (c_probs c);
  st ← bit_reset_each (states_reset mask) st;
  st ← bit_reset_each dist_reset st;
  st ← bit_reset_each (lengths_reset (u32 (Z.shiftl 1 (pb o)))) st;
  Some (MkLzma st rc_reset STATE_LIT_LIT (MkReps 0 0 0 0) mask (lc o) (u32 (Z.shiftl 1 (lp o)) - 1) (uncompressed_size c)
          SEQ_IS_MATCH (MkInc None 0 0 0 0)).

Definition lzma_decoder_uncompressed (c : lzma_lzma1_decoder) (unc : Z) : lzma_lzma1_decoder :=
  MkLzma (c_probs c) (c_rc c) (c_state c) (c_reps c) (pos_mask c) (literal_context_bits c) (literal_pos_mask c) unc (sequence c) (c_inc c).

(** [alloc] is what an allocation gives: the memory of a new coder, or nothing. *)
Definition lzma_lzma_decoder_create (coder alloc : option lzma_lzma1_decoder) (o : lzma_options_lzma)
    : lzma_ret * option lzma_lzma1_decoder * option (Z * list Z) :=
  match coder, alloc with
  | None, None => (LZMA_MEM_ERROR, None, None)
  | Some c, _ | None, Some c => (LZMA_OK, Some c, Some (dict_size o, preset_dict o))
  end.

Definition lzma_decoder_init (coder alloc : option lzma_lzma1_decoder) (o : lzma_options_lzma)
    : option (lzma_ret * option lzma_lzma1_decoder * option (Z * list Z)) :=
  if negb (is_lclppb_valid o) then Some (LZMA_PROG_ERROR, coder, None)
  else
    match lzma_lzma_decoder_create coder alloc o with
    | (LZMA_OK, Some c, lz) =>
        c ← lzma_decoder_reset c o;
        Some (LZMA_OK, Some (lzma_decoder_uncompressed c LZMA_VLI_UNKNOWN), lz)
    | r => Some r
    end.

(** [lc], [lp], [pb] of the properties byte; [true] is an error. *)
Definition lzma_lzma_lclppb_decode (byte : Z) : bool * (Z * Z * Z) :=
  if (4 * 5 + 4) * 9 + 8 <? byte then (true, (0, 0, 0))
  else
    let pb := byte / (9 * 5) in
    let byte := u8 (byte - pb * 9 * 5) in
    let lp := byte / 9 in
    let lc := byte - lp * 9 in
    (LZMA_LCLP_MAX <? lc + lp, (lc, lp, pb)).

Definition lzma_lzma_props_decode (alloc : bool) (props : list Z) : option (lzma_ret * option lzma_options_lzma) :=
  if negb (Z.of_nat (length props) =? 5) then Some (LZMA_OPTIONS_ERROR, None)
  else if negb alloc then Some (LZMA_MEM_ERROR, None)
  else
    b ← rd props 0;
    let '(bad, (lc, lp, pb)) := lzma_lzma_lclppb_decode b in
    if bad : bool then Some (LZMA_OPTIONS_ERROR, None)
    else
      size ← unaligned_read32le props 1;
      Some (LZMA_OK, Some (MkOptions size [] lc lp pb)).
