(* ===== verification/LzmaSafe.v ===== *)
(** * liblzma: the LZMA decoder is safe

    Whatever the input: no step of the decoder (Lzma.v) leaves an array or the
    dictionary, reads a probability that was not initialised, or fails an
    assertion; each step but the last of a round brings the end of the round
    nearer, and a round writes at least one byte to the dictionary, so the
    decoder ends. [at_label] is what holds at each label, also when the decoder
    is stopped there. *)

From Stdlib Require Import ZArith Lia.
From stdpp Require Import base list option gmap.
From S2P Require Import Prelude LzmaBase Coder Vli RangeDecoder LzDict Lzma.
Local Open Scope Z_scope.

Section safe.
  Context (inp : list Z) (in_size : Z) (uncompressed_size lc lp pb : Z).
  Context (inp_bytes : bytes inp) (in_size_ok : in_size <= Z.of_nat (length inp)).
  Context (lc_ok : 0 <= lc) (lp_ok : 0 <= lp) (lclp_ok : lc + lp <= 4) (pb_ok : 0 <= pb <= 4).
  Local Notation pos_mask := (2 ^ pb - 1).
  Local Notation step := (step inp in_size uncompressed_size (2 ^ pb - 1) lc (2 ^ lp - 1)).
  Implicit Types s : locals.

(** The probabilities that are initialised, and what is known of them. *)
Definition live (a : prob_array) (i : Z) : Prop :=
  match a with
  | literal k => 0 <= k < 2 ^ (lc + lp) /\ 0 <= i < LITERAL_CODER_SIZE
  | is_match k | is_rep0_long k => 0 <= k < STATES /\ 0 <= i <= pos_mask
  | is_rep | is_rep0 | is_rep1 | is_rep2 => 0 <= i < STATES
  | dist_slot k => 0 <= k < DIST_STATES /\ 0 <= i < DIST_SLOTS
  | pos_special => 0 <= i < FULL_DISTANCES - DIST_MODEL_END
  | pos_align => 0 <= i < ALIGN_SIZE
  | choice _ | choice2 _ => i = 0
  | low _ k | mid _ k => 0 <= k <= pos_mask /\ 0 <= i < 8
  | high _ => 0 <= i < LEN_HIGH_SYMBOLS
  end.

Definition store_ok (st : prob_store) : Prop :=
  forall a i, live a i -> exists at_ p, address a i = Some at_ /\ st !! at_ = Some p /\ prob_ok p.

(** A distance that may be used once there is a history. *)
Definition rep_ok (d : lzma_dict) (r : Z) : Prop := 0 <= r < 2 ^ 32 - 1 /\ (r < d_full d \/ (d_full d = 0 /\ r = 0)).

(** Inside the loop the range decoder is initialised. *)
Definition rc_run (rc : lzma_range_decoder) : Prop := rc_ok rc /\ init_bytes_left rc = 0.

Definition locals_ok s : Prop :=
  store_ok (store s) /\ rc_run (rc s) /\ 0 <= in_at s <= in_size /\ dict_ok (dict s) /\ 0 <= pos_state s <= pos_mask /\
  rep_ok (dict s) (rep1 (reps s)) /\ rep_ok (dict s) (rep2 (reps s)) /\ rep_ok (dict s) (rep3 (reps s)).

(** [i] bits of a symbol are decoded. *)
Definition tree (i : nat) (x : Z) : Prop := 2 ^ Z.of_nat i <= x < 2 ^ Z.of_nat (S i).
Definition len_ok (l : Z) : Prop := MATCH_LEN_MIN <= l <= MATCH_LEN_MAX.
Definition rep0_ok s : Prop := rep_ok (dict s) (rep0 (reps s)).

Definition at_len (q : len_seq) (x : Z) : Prop :=
  match q with
  | LEN_CHOICE | LEN_CHOICE2 => x = 1
  | LEN_LOW i | LEN_MID i => (i <= 2)%nat /\ tree i x
  | LEN_HIGH i => (i <= 7)%nat /\ tree i x
  end.

(** The bits of a short distance: [slot] and how many were to be decoded. *)
Definition at_dist_model (x : lzma_incomplete) : Prop :=
  exists slot, DIST_MODEL_START <= slot < DIST_MODEL_END /\ 1 <= limit x /\ 0 <= offset x /\
    limit x + offset x = slot / 2 - 1 /\ 2 ^ offset x <= symbol x < 2 ^ (offset x + 1) /\
    probs x = Some (pos_special, (2 + slot mod 2) * 2 ^ (slot / 2 - 1) - slot - 1).

Definition at_label (q : lzma_seq) s : Prop :=
  let x := inc s in
  match q with
  | SEQ_NORMALIZE | SEQ_IS_MATCH | SEQ_IS_REP => rep0_ok s /\ (is_literal_state (state s) = false -> 0 < d_full (dict s))
  | SEQ_LITERAL i => rep0_ok s /\ (i <= 7)%nat /\ tree i (symbol x) /\ exists k, probs x = Some (literal k, 0) /\ 0 <= k < 2 ^ (lc + lp)
  | SEQ_LITERAL_MATCHED i => rep0_ok s /\ (i <= 7)%nat /\ tree i (symbol x) /\ 0 <= len x /\ (offset x = 0 \/ offset x = 0x100) /\
      exists k, probs x = Some (literal k, 0) /\ 0 <= k < 2 ^ (lc + lp)
  | SEQ_LITERAL_WRITE => rep0_ok s /\ is_literal_state (state s) = true
  | SEQ_LEN match_len_decoder q => at_len q (symbol x)
  | SEQ_LEN rep_len_decoder q => rep0_ok s /\ 0 < d_full (dict s) /\ at_len q (symbol x)
  | SEQ_DIST_SLOT i => len_ok (len x) /\ (i <= 5)%nat /\ tree i (symbol x) /\ exists k, probs x = Some (dist_slot k, 0) /\ 0 <= k < DIST_STATES
  | SEQ_DIST_MODEL => len_ok (len x) /\ at_dist_model x /\ 0 <= rep0 (reps s) <= 96 + 2 ^ offset x
  | SEQ_DIRECT => len_ok (len x) /\ 1 <= limit x <= 26
  | SEQ_ALIGN i => len_ok (len x) /\ (i <= 3)%nat /\ tree i (symbol x) /\ 0 <= rep0 (reps s) < 2 ^ 32
  | SEQ_EOPM => uncompressed_size = LZMA_VLI_UNKNOWN
  | SEQ_IS_REP0 | SEQ_SHORTREP | SEQ_IS_REP0_LONG | SEQ_IS_REP1 | SEQ_IS_REP2 => rep0_ok s /\ 0 < d_full (dict s)
  | SEQ_COPY => 0 <= rep0 (reps s) < d_full (dict s) /\ rep0 (reps s) < 2 ^ 32 - 1 /\ 1 <= len x <= MATCH_LEN_MAX
  end.

(** How many steps at most are left of a round. *)
Definition rank (q : lzma_seq) (limit : Z) : Z :=
  match q with
  | SEQ_COPY | SEQ_SHORTREP | SEQ_LITERAL_WRITE | SEQ_EOPM => 1
  | SEQ_ALIGN i => 5 - Z.of_nat i
  | SEQ_DIRECT => limit + 5
  | SEQ_DIST_MODEL => limit + 2
  | SEQ_DIST_SLOT i => 38 - Z.of_nat i
  | SEQ_LEN _ (LEN_LOW i) | SEQ_LEN _ (LEN_MID i) | SEQ_LEN _ (LEN_HIGH i) => 46 - Z.of_nat i
  | SEQ_LEN _ LEN_CHOICE2 => 47
  | SEQ_LEN _ LEN_CHOICE => 48
  | SEQ_IS_REP2 => 49
  | SEQ_IS_REP0_LONG | SEQ_IS_REP1 => 50
  | SEQ_IS_REP0 => 51
  | SEQ_IS_REP => 52
  | SEQ_NORMALIZE | SEQ_IS_MATCH => 53
  | SEQ_LITERAL i | SEQ_LITERAL_MATCHED i => 9 - Z.of_nat i
  end.

(** Bytes were added to the dictionary, within its limit. *)
Definition extends (d0 d : lzma_dict) : Prop :=
  exists w, bytes w /\ d_pos d0 + Z.of_nat (length w) <= d_limit d0 /\ d = put d0 w.

(** How the loop may end: where it can go on once there is more input or more
    room, or for good. *)
Definition ended (ret : lzma_ret) (q : option lzma_seq) s : Prop :=
  match q with
  | Some q => ret = LZMA_OK /\ at_label q s /\ (in_at s = in_size \/ (q <> SEQ_NORMALIZE /\ d_pos (dict s) = d_limit (dict s)))
  | None => ret = LZMA_DATA_ERROR \/ (ret = LZMA_STREAM_END /\ uncompressed_size = LZMA_VLI_UNKNOWN)
  end.

Definition outcome_ok s0 (n : Z) (o : outcome) : Prop :=
  match o with
  | Next s q => locals_ok s /\ at_label q s /\ extends (dict s0) (dict s) /\ in_at s0 <= in_at s /\
      (d_pos (dict s0) < d_pos (dict s) \/ (dict s = dict s0 /\ rank q (limit (inc s)) < n))
  | Out ret q s => locals_ok s /\ extends (dict s0) (dict s) /\ in_at s0 <= in_at s /\
      ended ret q s
  end.

Definition good s0 (n : Z) (o : option outcome) : Prop := exists r, o = Some r /\ outcome_ok s0 n r.

Lemma extends_refl d : dict_ok d -> extends d d.
Proof. intros Hd. exists []. split; [constructor |]. rewrite put_nil by done. split; [| done]. destruct Hd as (_ & _ & _ & Hp & _). cbn. lia. Qed.

(** *** The steps' parts *)

(** The states that come after [s0] in a step before the dictionary is touched. *)
Definition later s0 s : Prop := locals_ok s /\ dict s = dict s0 /\ in_at s0 <= in_at s.

Lemma goto_good s0 n s q : later s0 s -> at_label q s -> rank q (limit (inc s)) < n -> good s0 n (goto q s).
Proof.
  intros (Hs & Hd & Hi) Hq Hr. eexists. split; [reflexivity |]. split; [done |]. split; [done |]. rewrite Hd.
  split; [apply extends_refl; rewrite <- Hd; apply Hs |]. split; [done |]. by right.
Qed.

Lemma out_good s0 n ret q s : later s0 s -> ended ret q s ->
  good s0 n (Some (Out ret q s)).
Proof.
  intros (Hs & Hd & Hi) Hq. eexists. split; [reflexivity |]. split; [done |]. rewrite Hd.
  split; [apply extends_refl; rewrite <- Hd; apply Hs |]. by split.
Qed.

(** What [normalize] and [rc_if_0] change. *)
Definition with_rc s st rc in_at : locals := MkLocals st rc in_at (dict s) (state s) (reps s) (inc s) (pos_state s).

Lemma at_label_rc q s st rc in_at : at_label q s -> at_label q (with_rc s st rc in_at).
Proof. by destruct q. Qed.

Lemma normalize_good s0 n q k s : later s0 s -> at_label q s ->
  (forall rc in_at, let s' := with_rc s (store s) rc in_at in rc_normal rc -> init_bytes_left rc = 0 -> later s0 s' -> good s0 n (k s')) ->
  good s0 n (normalize inp in_size q k s).
Proof.
  intros (Hs & Hd & Hi) Hq Hk. pose proof Hs as (Hst & [Hrc H0] & Hin & Hrest). unfold normalize.
  destruct (rc_normalize_ok (rc s) inp (in_at s) in_size Hrc inp_bytes Hin in_size_ok) as (r & -> & Hr). cbn [mbind option_bind].
  destruct r as [[rc' in_at'] |]; [| apply out_good; [done |]; destruct Hr; split; [done |]; split; [done |]; by left].
  destruct Hr as (Hn & Hi' & E0). apply (Hk rc' in_at' Hn); [by rewrite E0 |]. split; [| split; [done | cbn; lia]].
  unfold locals_ok, with_rc. cbn [store rc in_at dict pos_state reps]. split; [done |]. split; [| split; [lia | done]].
  unfold rc_run, rc_ok. rewrite E0. destruct Hn. split; [split; [split; [lia | lia] | done] | done].
Qed.

Lemma store_ok_insert st at_ p : store_ok st -> prob_ok p -> store_ok (<[at_ := p]> st).
Proof.
  intros Hst Hp a i Hl. destruct (Hst a i Hl) as (at' & p' & Ha & Hs & Hp'). destruct (decide (at_ = at')) as [-> | Hne].
  - exists at', p. by rewrite lookup_insert_eq.
  - exists at', p'. by rewrite lookup_insert_ne.
Qed.

Lemma rc_if_0_good s0 n a i q k0 k1 s : later s0 s -> at_label q s -> live a i ->
  (forall st rc in_at, let s' := with_rc s st rc in_at in later s0 s' -> good s0 n (k0 s') /\ good s0 n (k1 s')) ->
  good s0 n (rc_if_0 inp in_size a i q k0 k1 s).
Proof.
  intros Hs Hq Ha Hk. apply normalize_good; [done | done |]. intros rc1 in1 s1 Hn Hz Hs1.
  pose proof Hs1 as ((Hst & _ & Hin & Hrest) & Hd & Hi). destruct (Hst a i Ha) as (at_ & p & -> & Hp & Hpo). cbn [mbind option_bind].
  rewrite Hp. cbn [mbind option_bind]. pose proof (rc_decode_ok rc1 p Hn Hpo) as Hdec. change (rc s1) with rc1.
  destruct (rc_decode rc1 p) as [[bit rc2] p2]. destruct Hdec as (Hrc2 & Hp2 & E0).
  assert (later s0 (with_rc s (<[at_ := p2]> (store s1)) rc2 in1)) as Hs2.
  { split; [| by split]. unfold locals_ok, with_rc. cbn [store rc in_at dict pos_state reps].
    split; [by apply store_ok_insert |]. split; [split; [done | by rewrite E0] |]. by split. }
  destruct (Hk _ _ _ Hs2) as [Hk0 H1]. by destruct bit.
Qed.

Lemma tree_next i x (b : bool) : tree i x -> tree (S i) (2 * x + if b then 1 else 0).
Proof. unfold tree. rewrite !Nat2Z.inj_succ, !Z.pow_succ_r by lia. destruct b; lia. Qed.

Lemma tree_bound i x m : tree i x -> (i <= m)%nat -> 1 <= x < 2 ^ Z.of_nat (S m).
Proof.
  unfold tree. intros H Hi. pose proof (Z.pow_pos_nonneg 2 (Z.of_nat i)).
  pose proof (Z.pow_le_mono_r 2 (Z.of_nat (S i)) (Z.of_nat (S m))). lia.
Qed.

Lemma tree_1 : tree 0 1.
Proof. done. Qed.

Lemma later_inc s0 s x : later s0 s -> later s0 (set_inc s x).
Proof. done. Qed.

Lemma later_state s0 s x : later s0 s -> later s0 (set_state s x).
Proof. done. Qed.

Lemma later_reps s0 s r : later s0 s -> rep_ok (dict s) (rep1 r) -> rep_ok (dict s) (rep2 r) -> rep_ok (dict s) (rep3 r) -> later s0 (set_reps s r).
Proof. intros ((H1 & H2 & H3 & H4 & H5 & _) & Hd & Hi) R1 R2 R3. split; [| done]. unfold locals_ok; cbn. split_and!; (done || lia). Qed.

Lemma later_rep0 s0 s r : later s0 s -> later s0 (set_rep0 s r).
Proof. done. Qed.

Lemma rc_bit_last_good s0 n a i act0 act1 q k s : later s0 s -> at_label q s -> live a i ->
  (forall st rc in_at (b : bool), let s' := with_rc s st rc in_at in later s0 s' -> good s0 n (k ((if b then act1 else act0) s'))) ->
  good s0 n (rc_bit_last inp in_size a i act0 act1 q k s).
Proof.
  intros Hs Hq Ha Hk. apply rc_if_0_good; [done | done | done |]. intros st rc in_at s' Hs'.
  split; [apply (Hk st rc in_at false Hs') | apply (Hk st rc in_at true Hs')].
Qed.

Lemma rc_bit_good s0 n a i act0 act1 q k s j : later s0 s -> at_label q s -> live a i -> tree j (symbol (inc s)) -> (j <= 7)%nat ->
  (forall st rc in_at (b : bool), let s' := with_rc s st rc in_at in let x := 2 * symbol (inc s) + (if b then 1 else 0) in
     later s0 s' -> tree (S j) x -> good s0 n (k ((if b then act1 else act0) (set_symbol s' x)))) ->
  good s0 n (rc_bit inp in_size a i act0 act1 q k s).
Proof.
  intros Hs Hq Ha Ht Hj Hk. apply rc_bit_last_good; [done | done | done |]. intros st rc in_at b s' Hs'.
  pose proof (tree_bound _ _ 7 Ht Hj) as Hb. change (2 ^ Z.of_nat 8) with 256 in Hb.
  pose proof (Hk st rc in_at b Hs' (tree_next _ _ b Ht)) as H. cbn in H. revert H. 
  destruct b; change (symbol (inc s')) with (symbol (inc s)); rewrite Z.shiftl_mul_pow2 by lia;
    replace (symbol (inc s) * 2 ^ 1) with (2 * symbol (inc s)) by lia; rewrite (u32_small (2 * _)) by lia;
    rewrite ?Z.add_0_r, ?u32_small by lia; done.
Qed.

(** *** The steps *)
Lemma start_later s : locals_ok s -> later s s.
Proof. done. Qed.

Lemma rep_ok_mono d0 d r : extends d0 d -> dict_ok d0 -> rep_ok d0 r -> (d_full d0 = 0 -> r < d_full d \/ d_full d = 0) -> rep_ok d r.
Proof.
  intros (w & _ & Hw & ->) Hd [Hr Hf] H0. split; [done |]. rewrite put_full in * by done. lia.
Qed.

(** Room was found and a round is over. *)
Lemma loop_top_good s0 n s d : locals_ok s0 -> locals_ok s -> dict s = dict s0 -> in_at s0 <= in_at s ->
  extends (dict s0) d -> d_pos (dict s0) < d_pos d -> rep0_ok s -> (is_literal_state (state s) = true \/ 0 < d_full (dict s)) ->
  good s0 n (loop_top (2 ^ pb - 1) (set_dict s d)).
Proof.
  intros H0 Hs Hd Hi (w & Hw & Hl & ->) Hp Hr Hst. eexists. split; [reflexivity |].
  pose proof H0 as (_ & _ & _ & Hd0 & _).
  assert (forall r, rep_ok (dict s0) r -> rep_ok (put (dict s0) w) r) as Hrep.
  { intros r [H1 H2]. split; [done |]. rewrite put_full, put_pos in * by done. destruct Hd0 as (_ & _ & _ & ? & _). lia. }
  assert (0 < d_full (put (dict s0) w)) as Hf.
  { rewrite put_full by done. rewrite put_pos in Hp. destruct Hd0 as (_ & _ & _ & ? & _). lia. }
  split; [| split; [| split; [by exists w | split; [done | by left]]]].
  - destruct Hs as (H1 & H2 & H3 & H4 & H5 & R1 & R2 & R3). rewrite Hd in *.
    unfold locals_ok. cbn [set_pos_state set_dict store rc in_at dict pos_state reps].
    split_and!; try done; try lia; try (by apply Hrep); try (by apply dict_put_ok).
    + rewrite Z.land_nonneg. right. lia.
    + replace (2 ^ pb - 1) with (Z.ones pb) by (rewrite Z.ones_equiv; lia). rewrite Z.land_ones by lia.
      pose proof (Z.mod_pos_bound (d_pos (put (dict s0) w)) (2 ^ pb) ltac:(lia)). rewrite Z.ones_equiv. lia.
  - unfold rep0_ok in *. rewrite Hd in Hr. split; [by apply Hrep | done].
Qed.

Lemma subcoder_range pos b : 0 <= pos -> is_byte b -> 0 <= literal_subcoder lc (2 ^ lp - 1) pos b < 2 ^ (lc + lp).
Proof.
  intros Hp Hb. unfold is_byte in Hb. unfold literal_subcoder. replace (2 ^ lp - 1) with (Z.ones lp) by (rewrite Z.ones_equiv; lia).
  rewrite Z.land_ones, Z.shiftl_mul_pow2, Z.shiftr_div_pow2 by lia.
  pose proof (Z.mod_pos_bound pos (2 ^ lp) ltac:(lia)) as H1.
  assert (0 <= b / 2 ^ (8 - lc) < 2 ^ lc) as H2.
  { split; [apply Z.div_pos; lia |]. apply Z.div_lt_upper_bound; [lia |]. rewrite <- Z.pow_add_r by lia. replace (8 - lc + lc) with 8 by lia. lia. }
  rewrite Z.pow_add_r by lia. assert (pos mod 2 ^ lp * 2 ^ lc <= (2 ^ lp - 1) * 2 ^ lc) by (apply Z.mul_le_mono_nonneg_r; lia). lia.
Qed.

Lemma rep_inside d r : dict_ok d -> rep_ok d r -> exists b, dict_get d r = Some b /\ is_byte b.
Proof. intros Hd [Hr Hf]. apply dict_get_inside; [done |]. destruct Hd as (_ & _ & ? & ? & ? & ?). lia. Qed.

Lemma literal_start_good s0 s : later s0 s -> at_label SEQ_IS_MATCH s ->
  good s0 (rank SEQ_IS_MATCH 0) (literal_start lc (2 ^ lp - 1) s).
Proof.
  intros Hs (Hr & Hst). unfold literal_start. pose proof Hs as ((_ & _ & _ & Hd & _) & _).
  destruct (dict_get_inside (dict s) 0 Hd) as (b & -> & Hb); [destruct Hd as (_ & _ & ? & ? & ?); lia |]. cbn [mbind option_bind].
  assert (0 <= d_pos (dict s)) as Hp by (destruct Hd as (_ & _ & ? & ? & ?); lia).
  pose proof (subcoder_range _ _ Hp Hb) as Hk. cbv zeta.
  change (state (set_symbol (set_probs s _) 1)) with (state s). change (dict (set_symbol (set_probs s _) 1)) with (dict s).
  change (reps (set_symbol (set_probs s _) 1)) with (reps s).
  destruct (is_literal_state (state s)) eqn:El.
  - apply goto_good; [exact Hs | | done]. split; [done |]. split; [lia |]. split; [apply tree_1 |]. by eexists.
  - destruct (rep_inside _ _ Hd Hr) as (b' & -> & Hb'). cbn [mbind option_bind].
    apply goto_good; [exact Hs | | done]. split; [done |]. split; [lia |]. split; [apply tree_1 |].
    split; [apply Z.shiftl_nonneg; unfold is_byte in Hb'; lia |]. split; [by right |]. by eexists.
Qed.

Lemma state_number_range st : 0 <= state_number st < STATES.
Proof. by destruct st. Qed.

Lemma step_is_match_good q s : q = SEQ_NORMALIZE \/ q = SEQ_IS_MATCH -> locals_ok s -> at_label q s -> good s (rank q (limit (inc s))) (step q s).
Proof.
  intros Hq Hs Hl. assert (at_label SEQ_IS_MATCH s) as Hl' by (by destruct Hq as [-> | ->]).
  assert (step q s = step_is_match inp in_size uncompressed_size lc (2 ^ lp - 1) s) as -> by (by destruct Hq as [-> | ->]).
  assert (rank q (limit (inc s)) = rank SEQ_IS_MATCH 0) as -> by (by destruct Hq as [-> | ->]).
  unfold step_is_match, after_loop. destruct (no_eopm _ && (d_pos _ =? _)) eqn:E.
  - apply normalize_good; [done | exact Hl' |]. intros rc in_at s' Hn H0 Hs'. apply out_good; [done |].
    apply andb_true_iff in E as [_ E]. apply Z.eqb_eq in E. split; [done |]. split; [done |]. by right.
  - apply rc_if_0_good; [done | exact Hl' | |].
    + pose proof (state_number_range (state s)). destruct Hs as (_ & _ & _ & _ & ? & _). done.
    + intros st rc in_at s' Hs'. split; [by apply literal_start_good |]. apply goto_good; [done | exact Hl' | done].
Qed.

Lemma next_state_literal st : is_literal_state (next_state st) = true.
Proof. by destruct st. Qed.

Lemma literal_end_good s0 n s : later s0 s -> rep0_ok s -> 1 < n -> good s0 n (literal_end s).
Proof. intros Hs Hr Hn. apply goto_good; [done | | done]. split; [done |]. apply next_state_literal. Qed.

Lemma step_literal_good i s : locals_ok s -> at_label (SEQ_LITERAL i) s -> good s (rank (SEQ_LITERAL i) (limit (inc s))) (step (SEQ_LITERAL i) s).
Proof.
  intros Hs Hl. pose proof Hl as (Hr & Hi & Ht & k & Hp & Hk). cbn [Lzma.step]. unfold step_literal, with_probs. rewrite Hp. cbn [mbind option_bind].
  pose proof (tree_bound _ _ 7 Ht Hi) as Hb. change (2 ^ Z.of_nat 8) with 256 in Hb.
  apply (rc_bit_good _ _ _ _ _ _ _ _ _ i); [done | exact Hl | split; [done | unfold LITERAL_CODER_SIZE; lia] | done | done |].
  intros st rc in_at b s' x Hs' Hx. assert ((if b then no_action else no_action) (set_symbol s' x) = set_symbol s' x) as -> by (by destruct b).
  destruct (Nat.eqb_spec i 7) as [-> | H7]; [apply literal_end_good; try done; cbn; lia |].
  apply goto_good; [exact Hs' | | cbn [rank]; lia]. split; [done |]. split; [lia |]. split; [done |]. by exists k.
Qed.

Lemma step_literal_matched_good i s : locals_ok s -> at_label (SEQ_LITERAL_MATCHED i) s ->
  good s (rank (SEQ_LITERAL_MATCHED i) (limit (inc s))) (step (SEQ_LITERAL_MATCHED i) s).
Proof.
  intros Hs Hl. pose proof Hl as (Hr & Hi & Ht & Hlen & Ho & k & Hp & Hk). cbn [Lzma.step]. unfold step_literal_matched, with_probs.
  rewrite Hp. cbn [mbind option_bind].
  set (mb := Z.land (len (inc s)) (offset (inc s))).
  assert (mb = 0 \/ (mb = 0x100 /\ offset (inc s) = 0x100)) as Hmb.
  { unfold mb. destruct Ho as [-> | ->]; [left; apply Z.land_0_r |]. 
    destruct (Z.testbit (len (inc s)) 8) eqn:E; [right; split; [| done] | left]; apply Z.bits_inj'; intros j Hj; rewrite Z.land_spec;
      change 256 with (2 ^ 8); rewrite ?Z.pow2_bits_eqb, ?Z.bits_0 by lia; destruct (Z.eqb_spec 8 j); subst; rewrite ?E; by rewrite ?andb_false_r. }
  pose proof (tree_bound _ _ 7 Ht Hi) as Hb. change (2 ^ Z.of_nat 8) with 256 in Hb.
  apply (rc_bit_good _ _ _ _ _ _ _ _ _ i); [done | exact Hl | | done | done |].
  { split; [done |]. assert (0 <= offset (inc s) + mb <= 0x200) by (destruct Hmb as [E | [E E2]], Ho; lia).
    unfold LITERAL_CODER_SIZE. rewrite u32_small by lia. lia. }
  intros st rc in_at b s' x Hs' Hx.
  set (s1 := (if b then _ else _) (set_symbol s' x)).
  assert (later s s1 /\ dict s1 = dict s /\ rep0 (reps s1) = rep0 (reps s) /\ symbol (inc s1) = x /\ probs (inc s1) = probs (inc s) /\
    len (inc s1) = len (inc s) /\ (offset (inc s1) = 0 \/ offset (inc s1) = 0x100)) as (Hs1 & E1 & E2 & E3 & E4 & E5 & Ho1).
  { unfold s1. destruct b; (split; [exact Hs' |]); split_and!; try done; cbn; destruct Hmb as [-> | [-> ->]]; rewrite ?Z.land_0_r; auto;
      destruct Ho as [-> | ->]; auto. }
  clearbody s1. destruct (Nat.eqb_spec i 7) as [-> | H7].
  - apply literal_end_good; [done | unfold rep0_ok; by rewrite E1, E2 | cbn; lia].
  - apply goto_good; [exact Hs1 | | cbn [rank]; lia]. unfold at_label, rep0_ok. cbn [set_len set_inc inc symbol probs offset len dict reps].
    rewrite E1, E2, E3, E4. split; [done |]. split; [lia |]. split; [done |]. split; [apply u32_range |]. split; [done |]. by exists k.
Qed.

Lemma step_literal_write_good s : locals_ok s -> at_label SEQ_LITERAL_WRITE s -> good s (rank SEQ_LITERAL_WRITE (limit (inc s))) (step SEQ_LITERAL_WRITE s).
Proof.
  intros Hs (Hr & Hst). cbn [Lzma.step]. unfold step_literal_write. pose proof Hs as (_ & _ & _ & Hd & _). rewrite dict_put_spec by done.
  cbn [mbind option_bind]. destruct (Z.eqb_spec (d_pos (dict s)) (d_limit (dict s))) as [E | E].
  - apply out_good; [done |]. split; [done |]. split; [done |]. by right.
  - pose proof Hd as (_ & _ & _ & Hp & _). apply (loop_top_good s _ s); try done; [| rewrite put_pos; cbn; lia | by left].
    exists [u8 (symbol (inc s))]. split; [constructor; [apply u8_range | constructor] |]. split; [cbn; lia | done].
Qed.

Lemma live_state s : locals_ok s -> live is_rep (state_number (state s)).
Proof. intros _. apply state_number_range. Qed.

Lemma later_locals s0 s : later s0 s -> locals_ok s.
Proof. by intros [H _]. Qed.

Lemma step_is_rep_good s : locals_ok s -> at_label SEQ_IS_REP s -> good s (rank SEQ_IS_REP (limit (inc s))) (step SEQ_IS_REP s).
Proof.
  intros Hs Hl. pose proof Hl as (Hr & Hst). cbn [Lzma.step]. unfold step_is_rep.
  apply rc_if_0_good; [done | exact Hl | by apply live_state |]. intros st rc in_at s' Hs'. split.
  - apply goto_good; [| done | done]. apply (later_reps s (set_state s' (update_match (state s')))); [exact Hs' | exact Hr | |];
      apply (later_locals _ _ Hs').
  - unfold dict_is_distance_valid. change (dict s') with (dict s). destruct (Z.ltb_spec 0 (d_full (dict s))); cbn [negb].
    + apply goto_good; [done | by split | done].
    + apply out_good; [done | by left].
Qed.

(** The end of a length. *)
Lemma len_end_good s0 n s ld target : later s0 s -> 0 <= target < 2 ^ 32 -> len_ok target -> 38 < n ->
  (ld = rep_len_decoder -> rep0_ok s /\ 0 < d_full (dict s)) -> good s0 n (len_end ld target s).
Proof.
  intros Hs Ht Hl Hn Hr. unfold len_end. rewrite u32_small by done. destruct ld.
  - apply goto_good; [exact Hs | | exact Hn]. split; [done |]. split; [lia |]. split; [apply tree_1 |]. eexists. split; [reflexivity |].
    cbn [set_len set_inc inc len]. unfold len_ok, get_dist_state, DIST_STATES, MATCH_LEN_MIN in *. destruct (Z.ltb_spec target (4 + 2)); lia.
  - cbn [set_len set_inc inc len]. destruct Hl as [Hl1 Hl2]. rewrite (proj2 (Z.leb_le _ _) Hl1), (proj2 (Z.leb_le _ _) Hl2). cbn [assert mbind option_bind].
    destruct (Hr eq_refl) as [[Hr0 [Hr1 | Hr1]] Hf]; [| lia].
    apply goto_good; [exact Hs | | cbn [rank]; lia]. cbn. unfold MATCH_LEN_MIN in *. split_and!; lia.
Qed.

(** What is carried through the bits of a length. *)
Definition through (ld : length_decoder) s : Prop := ld = rep_len_decoder -> rep0_ok s /\ 0 < d_full (dict s).

Lemma at_len_label ld q s : through ld s -> at_len q (symbol (inc s)) -> at_label (SEQ_LEN ld q) s.
Proof. intros Hr Hq. destruct ld; [done |]. destruct (Hr eq_refl). by split_and!. Qed.

Lemma label_through ld q s : at_label (SEQ_LEN ld q) s -> through ld s /\ at_len q (symbol (inc s)).
Proof. destruct ld; intros H; [by split | destruct H as (H1 & H2 & H3)]. split; [by intros _ | done]. Qed.

Lemma len_bits_good a ld (q : nat -> len_seq) (m : nat) (lowest : Z) kend i s :
  (forall s, kend s = len_end ld (symbol (inc s) - 2 ^ Z.of_nat (S m) + lowest) s) ->
  locals_ok s -> through ld s -> tree i (symbol (inc s)) -> (i <= m)%nat -> (m = 2%nat \/ m = 7%nat) ->
  at_label (SEQ_LEN ld (q i)) s -> (forall j, rank (SEQ_LEN ld (q j)) 0 = 46 - Z.of_nat j) ->
  (forall j x, (j <= m)%nat -> tree j x -> at_len (q j) x) ->
  live a (symbol (inc s)) -> 2 <= lowest -> lowest + 2 ^ Z.of_nat (S m) - 1 <= MATCH_LEN_MAX ->
  good s (46 - Z.of_nat i)
    (rc_bit inp in_size a (symbol (inc s)) no_action no_action (SEQ_LEN ld (q i))
      (if (i =? m)%nat then kend else goto (SEQ_LEN ld (q (S i)))) s).
Proof.
  intros Hke Hs Hth Ht Hi Hm Hl Hrank Hat Ha Hlow Hmax.
  apply (rc_bit_good _ _ _ _ _ _ _ _ _ i); [done | exact Hl | done | done | lia |].
  intros st rc in_at b s' x Hs' Hx. assert ((if b then no_action else no_action) (set_symbol s' x) = set_symbol s' x) as -> by (by destruct b).
  destruct (Nat.eqb_spec i m) as [-> | Hne].
  - rewrite Hke. unfold tree in Hx. rewrite (Nat2Z.inj_succ (S m)), Z.pow_succ_r in Hx by lia. cbn [set_symbol set_inc inc symbol].
    unfold MATCH_LEN_MAX, MATCH_LEN_MIN in *. change (2 + LEN_SYMBOLS - 1) with 273 in Hmax.
    apply len_end_good; [exact Hs' | lia | unfold len_ok, MATCH_LEN_MAX, MATCH_LEN_MIN; change (2 + LEN_SYMBOLS - 1) with 273; lia | lia | exact Hth].
  - apply goto_good; [exact Hs' | apply at_len_label; [exact Hth |]; apply Hat; [lia | done] |].
    assert (rank (SEQ_LEN ld (q (S i))) (limit (inc (set_symbol s' x))) = rank (SEQ_LEN ld (q (S i))) 0) as -> by done. rewrite Hrank. lia.
Qed.

Lemma step_len_good ld q s : locals_ok s -> at_label (SEQ_LEN ld q) s -> good s (rank (SEQ_LEN ld q) (limit (inc s))) (step (SEQ_LEN ld q) s).
Proof.
  intros Hs Hl. destruct (label_through _ _ _ Hl) as [Hth Hq]. pose proof Hs as (_ & _ & _ & _ & Hps & _). cbn [Lzma.step].
  destruct q as [| i | | i | i]; cbn [step_len].
  - apply rc_if_0_good; [done | exact Hl | done |]. intros st rc in_at s' Hs'.
    split; (apply goto_good; [done | apply at_len_label; [exact Hth |] | done]); [split; [lia |]; cbn in Hq |- *; by rewrite Hq | exact Hq].
  - destruct Hq as [Hi Ht]. pose proof (tree_bound _ _ 2 Ht Hi) as Hb. change (2 ^ Z.of_nat 3) with 8 in Hb.
    apply (len_bits_good (low ld (pos_state s)) ld LEN_LOW 2 2); try done; [by left |]. split; [done | lia].
  - apply rc_if_0_good; [done | exact Hl | done |]. intros st rc in_at s' Hs'.
    split; (apply goto_good; [done | apply at_len_label; [exact Hth |] | done]); (split; [lia |]; cbn in Hq |- *; by rewrite Hq).
  - destruct Hq as [Hi Ht]. pose proof (tree_bound _ _ 2 Ht Hi) as Hb. change (2 ^ Z.of_nat 3) with 8 in Hb.
    apply (len_bits_good (mid ld (pos_state s)) ld LEN_MID 2 10); try done; [| by left | split; [done | lia]].
    intros s1. f_equal. unfold LEN_MID_SYMBOLS, MATCH_LEN_MIN, LEN_LOW_SYMBOLS. lia.
  - destruct Hq as [Hi Ht]. pose proof (tree_bound _ _ 7 Ht Hi) as Hb. change (2 ^ Z.of_nat 8) with 256 in Hb.
    apply (len_bits_good (high ld) ld LEN_HIGH 7 18); try done; [| by right | unfold live, LEN_HIGH_SYMBOLS; lia].
    intros s1. f_equal. unfold LEN_HIGH_SYMBOLS, LEN_MID_SYMBOLS, MATCH_LEN_MIN, LEN_LOW_SYMBOLS. lia.
Qed.

Lemma check_distance_good s0 n s : later s0 s -> len_ok (len (inc s)) -> 0 <= rep0 (reps s) < 2 ^ 32 - 1 -> 1 < n -> good s0 n (check_distance s).
Proof.
  intros Hs [Hl1 Hl2] Hr Hn. unfold check_distance, dict_is_distance_valid.
  destruct (Z.ltb_spec (rep0 (reps s)) (d_full (dict s))); cbn [negb]; [| apply out_good; [done | by left]].
  rewrite (proj2 (Z.leb_le _ _) Hl1), (proj2 (Z.leb_le _ _) Hl2). cbn [assert mbind option_bind].
  apply goto_good; [done | | done]. cbn. unfold MATCH_LEN_MIN in *. split_and!; lia.
Qed.

(** What a slot from 4 to 13 gives: how many bits are to come, the lowest
    distance, the place of its probabilities. *)
Lemma short_slot slot : DIST_MODEL_START <= slot < DIST_MODEL_END ->
  let L := slot / 2 - 1 in let r := (2 + slot mod 2) * 2 ^ L in
  1 <= L <= 5 /\ 4 <= r <= 96 /\ -1 <= r - slot - 1 <= 82 /\ r - slot - 1 + 2 ^ L <= 114.
Proof.
  unfold DIST_MODEL_START, DIST_MODEL_END. cbv zeta. intros H.
  assert (slot = 4 \/ slot = 5 \/ slot = 6 \/ slot = 7 \/ slot = 8 \/ slot = 9 \/ slot = 10 \/ slot = 11 \/ slot = 12 \/ slot = 13) as Hc by lia.
  destruct Hc as [-> | [-> | [-> | [-> | [-> | [-> | [-> | [-> | [-> | ->]]]]]]]]]; split_and!; vm_compute; discriminate.
Qed.

Lemma slot_end_good s0 n s : later s0 s -> len_ok (len (inc s)) -> 64 <= symbol (inc s) < 128 -> 32 < n -> good s0 n (slot_end s).
Proof.
  intros Hs Hl Hx Hn. unfold slot_end. cbn [set_symbol set_inc inc symbol]. unfold DIST_SLOTS. rewrite u32_small by lia.
  set (slot := symbol (inc s) - 64). rewrite (proj2 (Z.leb_le slot 63)) by lia. cbn [assert mbind option_bind].
  destruct (Z.ltb_spec slot DIST_MODEL_START) as [H4 | H4].
  { apply check_distance_good; [exact Hs | exact Hl | cbn; unfold DIST_MODEL_START in H4; lia | lia]. }
  unfold DIST_MODEL_START in H4. rewrite Z.shiftr_div_pow2 by lia. change (2 ^ 1) with 2.
  assert (2 <= slot / 2 <= 31) as Hh by (split; [apply Z.div_le_lower_bound | apply Z.lt_succ_r, Z.div_lt_upper_bound]; lia).
  rewrite (u32_small (slot / 2 - 1)) by lia. rewrite (proj2 (Z.leb_le 1 (slot / 2 - 1))), (proj2 (Z.leb_le (slot / 2 - 1) 30)) by lia. cbn [andb assert mbind option_bind].
  assert (Z.land slot 1 = slot mod 2) as -> by (change 1 with (Z.ones 1); by rewrite Z.land_ones).
  destruct (Z.ltb_spec slot DIST_MODEL_END) as [H14 | H14].
  - destruct (short_slot slot ltac:(split; [done | done])) as (HL & Hr & Hp1 & Hp2). cbv zeta in *.
    rewrite (proj2 (Z.leb_le (slot / 2 - 1) 5)) by lia. cbn [assert mbind option_bind]. rewrite Z.shiftl_mul_pow2, u32_small by lia.
    set (r := (2 + slot mod 2) * 2 ^ (slot / 2 - 1)) in *. rewrite (proj2 (Z.leb_le r 96)) by lia. cbn [assert mbind option_bind].
    rewrite (proj2 (Z.leb_le (-1) (r - slot - 1))), (proj2 (Z.leb_le (r - slot - 1) 82)) by lia. cbn [andb assert mbind option_bind].
    apply goto_good; [exact Hs | | cbn [rank set_offset set_symbol set_probs set_rep0 set_lim set_inc set_reps inc limit]; lia].
    split; [done |]. split; [| cbn; lia]. exists slot. cbn [set_offset set_symbol set_probs set_rep0 set_lim set_inc set_reps inc limit offset symbol probs].
    split; [by split |]. split_and!; (done || lia).
  - unfold DIST_MODEL_END in H14. assert (7 <= slot / 2) by (apply Z.div_le_lower_bound; lia).
    rewrite (proj2 (Z.leb_le 14 slot)), (proj2 (Z.leb_le 6 (slot / 2 - 1))) by lia. cbn [assert mbind option_bind]. unfold ALIGN_BITS.
    rewrite (proj2 (Z.leb_le 2 (slot / 2 - 1 - 4))) by lia. cbn [assert mbind option_bind].
    apply goto_good; [exact Hs | | cbn [rank set_rep0 set_lim set_inc set_reps inc limit]; lia]. split; [done |]. cbn. lia.
Qed.

Lemma step_dist_slot_good i s : locals_ok s -> at_label (SEQ_DIST_SLOT i) s -> good s (rank (SEQ_DIST_SLOT i) (limit (inc s))) (step (SEQ_DIST_SLOT i) s).
Proof.
  intros Hs Hl. pose proof Hl as (Hlen & Hi & Ht & k & Hp & Hk). cbn [Lzma.step]. unfold step_dist_slot, with_probs. rewrite Hp. cbn [mbind option_bind].
  pose proof (tree_bound _ _ 5 Ht Hi) as Hb. change (2 ^ Z.of_nat 6) with 64 in Hb.
  apply (rc_bit_good _ _ _ _ _ _ _ _ _ i); [done | exact Hl | split; [done | unfold DIST_SLOTS; lia] | done | lia |].
  intros st rc in_at b s' x Hs' Hx. assert ((if b then no_action else no_action) (set_symbol s' x) = set_symbol s' x) as -> by (by destruct b).
  destruct (Nat.eqb_spec i 5) as [-> | H5].
  - apply slot_end_good; [exact Hs' | exact Hlen | exact Hx | done].
  - apply goto_good; [exact Hs' | | cbn [rank]; lia]. split; [done |]. split; [lia |]. split; [done |]. by exists k.
Qed.

Lemma step_dist_model_good s : locals_ok s -> at_label SEQ_DIST_MODEL s -> good s (rank SEQ_DIST_MODEL (limit (inc s))) (step SEQ_DIST_MODEL s).
Proof.
  intros Hs Hl. pose proof Hl as (Hlen & (slot & Hslot & Hlim & Hoff & HL & Hx & Hp) & Hr). cbn [Lzma.step]. unfold step_dist_model, with_probs.
  destruct (short_slot slot Hslot) as (HL5 & Hr0 & Hp1 & Hp2). cbv zeta in *. set (L := slot / 2 - 1) in *.
  rewrite Hp. cbn [mbind option_bind]. set (off := (2 + slot mod 2) * 2 ^ L - slot - 1) in *.
  assert (2 ^ (offset (inc s) + 1) <= 2 ^ L) as Hpow by (apply Z.pow_le_mono_r; lia).
  assert (2 ^ L <= 2 ^ 5) as HpL by (apply Z.pow_le_mono_r; lia).
  pose proof (Z.pow_pos_nonneg 2 (offset (inc s)) ltac:(lia) Hoff) as Hpos. rewrite Z.pow_add_r in Hpow, Hx by lia. change (2 ^ 1) with 2 in *.
  assert (live pos_special (off + symbol (inc s))) as Ha by (unfold live, FULL_DISTANCES, DIST_MODEL_END; lia).
  assert (forall s' (b : bool), later s s' -> inc s' = inc s -> reps s' = reps s ->
    let s1 := (if b then add_rep0 (Z.shiftl 1 (offset (inc s))) else no_action) s' in
    later s s1 /\ inc s1 = inc s /\ 0 <= rep0 (reps s1) <= 96 + 2 ^ (offset (inc s) + 1)) as Hadd.
  { intros s' b Hs' Ei Er. rewrite Z.pow_add_r by lia. change (2 ^ 1) with 2. destruct b; (split; [exact Hs' | split; [exact Ei |]]); [| unfold no_action; rewrite Er; lia].
    cbn. rewrite Er, Z.shiftl_mul_pow2, u32_small by lia. lia. }
  destruct (Z.leb_spec 2 (limit (inc s))) as [H2 | H2]; cbn [andb].
  - rewrite (proj2 (Z.leb_le (limit (inc s)) 5)) by lia.
    assert (negb (limit (inc s) =? 5) || (offset (inc s) =? 0) = true) as ->.
    { destruct (Z.eqb_spec (limit (inc s)) 5); cbn [negb orb]; [| done]. apply Z.eqb_eq. lia. }
    cbn [assert mbind option_bind].
    assert (tree (Z.to_nat (offset (inc s))) (symbol (inc s))) as Ht by (unfold tree; rewrite Nat2Z.inj_succ, Z2Nat.id, Z.pow_succ_r by lia; lia).
    apply (rc_bit_good _ _ _ _ _ _ _ _ _ (Z.to_nat (offset (inc s)))); [done | exact Hl | done | done | lia |].
    intros st rc in_at b s' x Hs' Hx'.
    assert ((if b then add_rep0 (Z.shiftl 1 (offset (inc s))) else no_action) (set_symbol s' x) =
      set_symbol ((if b then add_rep0 (Z.shiftl 1 (offset (inc s))) else no_action) s') x) as -> by (by destruct b).
    destruct (Hadd s' b Hs' eq_refl eq_refl) as (Hs1 & Ei & Hr1). set (s1 := (if b then _ else _) s') in *. clearbody s1.
    apply goto_good; [exact Hs1 | | cbn [rank set_lim set_offset set_symbol set_inc inc limit]; lia].
    unfold at_label. cbn [set_lim set_offset set_symbol set_inc inc limit len offset symbol probs reps]. rewrite Ei, u32_small by lia.
    split; [done |]. split; [| lia]. exists slot. unfold tree in Hx'. rewrite !Nat2Z.inj_succ, Z2Nat.id, !Z.pow_succ_r in Hx' by lia.
    unfold at_dist_model. cbn [symbol offset limit probs].
    split; [done |]. split_and!; try done; try lia; rewrite ?(Z.pow_add_r 2 (offset (inc s) + 1)), ?(Z.pow_add_r 2 (offset (inc s))) by lia; change (2 ^ 1) with 2; lia.
  - rewrite (proj2 (Z.eqb_eq (limit (inc s)) 1)) by lia.
    apply rc_bit_last_good; [done | exact Hl | done |]. intros st rc in_at b s' Hs'.
    destruct (Hadd s' b Hs' eq_refl eq_refl) as (Hs1 & Ei & Hr1). set (s1 := (if b then _ else _) s') in *.
    apply check_distance_good; [done | by rewrite Ei | | cbn [rank]; lia]. rewrite Z.pow_add_r in Hr1 by lia. lia.
Qed.

Lemma step_direct_good s : locals_ok s -> at_label SEQ_DIRECT s -> good s (rank SEQ_DIRECT (limit (inc s))) (step SEQ_DIRECT s).
Proof.
  intros Hs Hl. pose proof Hl as (Hlen & Hlim). cbn [Lzma.step]. unfold step_direct. apply normalize_good; [done | exact Hl |].
  intros rc1 in_at s' Hn H0 Hs'. pose proof (rc_direct_ok rc1 (rep0 (reps s')) Hn) as Hd. change (rc s') with rc1.
  destruct (rc_direct rc1 (rep0 (reps s'))) as [rc2 r]. destruct Hd as (Hrc2 & Hr & E0).
  assert (later s (set_rep0 (set_rc s' rc2 in_at) r)) as Hs1.
  { destruct Hs' as ((H1 & _ & H3) & Hd & Hi). split; [| by split]. unfold locals_ok, rc_run. cbn. rewrite E0. by split. }
  set (s1 := set_rep0 _ _) in *. cbn zeta. change (limit (inc s1)) with (limit (inc s)). rewrite u32_small by lia.
  change (limit (inc (set_lim s1 (limit (inc s) - 1)))) with (limit (inc s) - 1).
  destruct (Z.ltb_spec 0 (limit (inc s) - 1)).
  - apply goto_good; [exact Hs1 | | cbn; lia]. split; [done |]. cbn. lia.
  - apply goto_good; [exact Hs1 | | cbn; lia]. split; [done |]. split; [lia |]. split; [apply tree_1 | apply u32_range].
Qed.

Lemma align_end_good s0 n s : later s0 s -> len_ok (len (inc s)) -> 0 <= rep0 (reps s) < 2 ^ 32 -> 1 < n ->
  good s0 n (align_end uncompressed_size s).
Proof.
  intros Hs Hl Hr Hn. unfold align_end. change UINT32_MAX with (2 ^ 32 - 1). destruct (Z.eqb_spec (rep0 (reps s)) (2 ^ 32 - 1)).
  - destruct (Z.eqb_spec uncompressed_size LZMA_VLI_UNKNOWN); cbn [negb]; [by apply goto_good | apply out_good; [done | by left]].
  - apply check_distance_good; (done || lia).
Qed.

Lemma step_align_good i s : locals_ok s -> at_label (SEQ_ALIGN i) s -> good s (rank (SEQ_ALIGN i) (limit (inc s))) (step (SEQ_ALIGN i) s).
Proof.
  intros Hs Hl. pose proof Hl as (Hlen & Hi & Ht & Hr). cbn [Lzma.step]. unfold step_align.
  pose proof (tree_bound _ _ 3 Ht Hi) as Hb. change (2 ^ Z.of_nat 4) with 16 in Hb.
  assert (live pos_align (symbol (inc s))) as Ha by (unfold live, ALIGN_SIZE; lia).
  destruct (Nat.eqb_spec i 3) as [-> | H3].
  - apply rc_bit_last_good; [done | exact Hl | done |]. intros st rc in_at b s' Hs'.
    apply align_end_good; [by destruct b | by destruct b | | done]. destruct b; [apply u32_range | exact Hr].
  - apply (rc_bit_good _ _ _ _ _ _ _ _ _ i); [done | exact Hl | done | done | lia |]. intros st rc in_at b s' x Hs' Hx.
    apply goto_good; [by destruct b | | cbn [rank]; lia].
    destruct b; (split; [done |]); (split; [lia |]); (split; [exact Hx |]); [apply u32_range | exact Hr].
Qed.

Lemma step_eopm_good s : locals_ok s -> at_label SEQ_EOPM s -> good s (rank SEQ_EOPM (limit (inc s))) (step SEQ_EOPM s).
Proof. intros Hs Hl. cbn [Lzma.step]. apply normalize_good; [done | done |]. intros rc in_at s' Hn H0 Hs'. apply out_good; [done |]. by right. Qed.

(** *** Repeated matches *)
Lemma rep_end_good s0 n s : later s0 s -> rep0_ok s -> 0 < d_full (dict s) -> 48 < n -> good s0 n (rep_end s).
Proof. intros Hs Hr Hf Hn. apply goto_good; [exact Hs | by split_and! | exact Hn]. Qed.

Lemma step_is_rep0_good s : locals_ok s -> at_label SEQ_IS_REP0 s -> good s (rank SEQ_IS_REP0 (limit (inc s))) (step SEQ_IS_REP0 s).
Proof.
  intros Hs Hl. cbn [Lzma.step]. apply rc_if_0_good; [done | exact Hl | by apply live_state |]. intros st rc in_at s' Hs'.
  by split; apply goto_good.
Qed.

Lemma step_is_rep0_long_good s : locals_ok s -> at_label SEQ_IS_REP0_LONG s -> good s (rank SEQ_IS_REP0_LONG (limit (inc s))) (step SEQ_IS_REP0_LONG s).
Proof.
  intros Hs Hl. pose proof Hl as [Hr Hf]. cbn [Lzma.step]. apply rc_if_0_good; [done | exact Hl | |].
  { split; [apply state_number_range | apply Hs]. }
  intros st rc in_at s' Hs'. split; [by apply goto_good | by apply rep_end_good].
Qed.

Lemma step_is_rep1_good s : locals_ok s -> at_label SEQ_IS_REP1 s -> good s (rank SEQ_IS_REP1 (limit (inc s))) (step SEQ_IS_REP1 s).
Proof.
  intros Hs Hl. pose proof Hl as [Hr Hf]. pose proof Hs as (_ & _ & _ & _ & _ & R1 & R2 & R3).
  cbn [Lzma.step]. apply rc_if_0_good; [done | exact Hl | by apply live_state |]. intros st rc in_at s' Hs'. split; [| by apply goto_good].
  apply rep_end_good; [by apply later_reps | exact R1 | done | done].
Qed.

Lemma step_is_rep2_good s : locals_ok s -> at_label SEQ_IS_REP2 s -> good s (rank SEQ_IS_REP2 (limit (inc s))) (step SEQ_IS_REP2 s).
Proof.
  intros Hs Hl. pose proof Hl as [Hr Hf]. pose proof Hs as (_ & _ & _ & _ & _ & R1 & R2 & R3).
  cbn [Lzma.step]. apply rc_if_0_good; [done | exact Hl | by apply live_state |]. intros st rc in_at s' Hs'.
  split; (apply rep_end_good; [by apply later_reps | | done | done]); [exact R2 | exact R3].
Qed.

Lemma step_shortrep_good s : locals_ok s -> at_label SEQ_SHORTREP s -> good s (rank SEQ_SHORTREP (limit (inc s))) (step SEQ_SHORTREP s).
Proof.
  intros Hs [Hr Hf]. cbn [Lzma.step]. unfold step_shortrep. pose proof Hs as (_ & _ & _ & Hd & _).
  destruct (rep_inside _ _ Hd Hr) as (b & -> & Hb). cbn [mbind option_bind]. rewrite dict_put_spec by done. cbn [mbind option_bind].
  destruct (Z.eqb_spec (d_pos (dict s)) (d_limit (dict s))) as [E | E].
  - apply out_good; [done |]. split; [done |]. split; [done |]. by right.
  - pose proof Hd as (_ & _ & _ & Hp & _). apply (loop_top_good s _ s); try done; [| rewrite put_pos; cbn; lia | by right].
    exists [u8 b]. split; [constructor; [apply u8_range | constructor] |]. split; [cbn; lia | done].
Qed.

Lemma step_copy_good s : locals_ok s -> at_label SEQ_COPY s -> good s (rank SEQ_COPY (limit (inc s))) (step SEQ_COPY s).
Proof.
  intros Hs (Hr & Hr32 & Hlen). cbn [Lzma.step]. unfold step_copy. pose proof Hs as (H1 & H2 & H3 & Hd & H5 & R1 & R2 & R3).
  unfold MATCH_LEN_MAX, MATCH_LEN_MIN in Hlen. change (2 + LEN_SYMBOLS - 1) with 273 in Hlen.
  rewrite dict_repeat_spec by (done || lia). cbn [mbind option_bind].
  pose proof Hd as (_ & Hby & _ & Hp & _). set (m := Z.min (d_limit (dict s) - d_pos (dict s)) (len (inc s))).
  set (w := lz_copy (Z.to_nat m) (Z.to_nat (rep0 (reps s))) (history (dict s))).
  assert (length w = Z.to_nat m) as Hw by apply lz_copy_length.
  assert (bytes w) as Hbw.
  { pose proof (history_length _ Hd). apply lz_copy_bytes; [by apply history_bytes | lia]. }
  assert (extends (dict s) (put (dict s) w)) as Hext by (exists w; split; [done |]; split; [lia | done]).
  destruct (Z.ltb_spec 0 (len (inc s) - m)) as [Hl | Hl].
  - eexists. split; [reflexivity |].
    assert (forall r, rep_ok (dict s) r -> rep_ok (put (dict s) w) r) as Hrep.
    { intros r [Ha Hb]. split; [done |]. rewrite put_full by (done || lia). lia. }
    split; [| split; [exact Hext | split; [done |]]].
    + unfold locals_ok. cbn [set_len set_dict set_inc store rc in_at dict pos_state reps].
      split_and!; try done; try lia; try (by apply Hrep). apply dict_put_ok; [done | done | lia].
    + split; [done |]. cbn [at_label set_len set_dict set_inc dict reps inc len]. unfold MATCH_LEN_MAX, MATCH_LEN_MIN. change (2 + LEN_SYMBOLS - 1) with 273.
      rewrite put_full, put_pos, put_limit by (done || lia). split; [lia |]. right. split; [done | lia].
  - apply (loop_top_good s _ (set_len s (len (inc s) - m))); try done; [cbn [set_dict dict]; rewrite put_pos; lia | | right; change (0 < d_full (dict s)); lia].
    split; [change (0 <= rep0 (reps s) < 2 ^ 32 - 1); lia | left; change (rep0 (reps s) < d_full (dict s)); lia].
Qed.

(** Every step. *)
Lemma step_good q s : locals_ok s -> at_label q s -> good s (rank q (limit (inc s))) (step q s).
Proof.
  intros Hs Hl. destruct q; [apply step_is_match_good; auto | apply step_is_match_good; auto | by apply step_literal_good
  | by apply step_literal_matched_good | by apply step_literal_write_good | by apply step_is_rep_good | by apply step_len_good
  | by apply step_dist_slot_good | by apply step_dist_model_good | by apply step_direct_good | by apply step_align_good
  | by apply step_eopm_good | by apply step_is_rep0_good | by apply step_shortrep_good | by apply step_is_rep0_long_good
  | by apply step_is_rep1_good | by apply step_is_rep2_good | by apply step_copy_good].
Qed.

(** *** The loop *)
Lemma extends_trans d0 d1 d2 : dict_ok d0 -> extends d0 d1 -> extends d1 d2 -> extends d0 d2.
Proof.
  intros H0 (w1 & B1 & L1 & ->) (w2 & B2 & L2 & ->). rewrite put_pos, put_limit in L2. exists (w1 ++ w2).
  split; [by apply Forall_app |]. split; [rewrite length_app; lia |]. apply put_put; [done | lia].
Qed.

Lemma rank_bound q s : at_label q s -> 0 < rank q (limit (inc s)) <= 53.
Proof.
  destruct q as [| | i | i | | | ld [| i | | i | i] | i | | | i | | | | | | |]; cbn [rank]; try lia;
    try (intros (_ & H & _); lia); try (intros (_ & H); cbn in H; lia);
    try (intros H; apply label_through in H as [_ [H _]]; lia).
  intros (_ & (slot & Hs & H1 & H2 & H3 & _) & _). destruct (short_slot slot Hs) as (H & _). cbv zeta in H. lia.
Qed.

(** The loop ends, within the steps that the room in the dictionary allows. *)
Lemma loop_good fuel q s : locals_ok s -> at_label q s ->
  64 * (d_limit (dict s) - d_pos (dict s)) + rank q (limit (inc s)) <= Z.of_nat fuel ->
  exists ret q' s', lzma_loop inp in_size uncompressed_size (2 ^ pb - 1) lc (2 ^ lp - 1) fuel q s = Some (ret, q', s') /\
    locals_ok s' /\ extends (dict s) (dict s') /\ in_at s <= in_at s' /\
    ended ret q' s'.
Proof.
  revert q s. induction fuel as [| fuel IH]; intros q s Hs Hq Hf.
  - pose proof (rank_bound _ _ Hq). destruct Hs as (_ & _ & _ & (_ & _ & _ & Hp & _) & _). lia.
  - cbn [lzma_loop]. destruct (step_good q s Hs Hq) as (o & -> & Ho). cbn [mbind option_bind]. destruct o as [s1 q1 | ret q1 s1].
    + destruct Ho as (Hs1 & Hq1 & He1 & Hi1 & Hr1). pose proof He1 as (w & _ & Hw & Ew).
      assert (d_limit (dict s1) = d_limit (dict s)) as El by (rewrite Ew; apply put_limit).
      destruct (IH q1 s1 Hs1 Hq1) as (ret & q' & s' & -> & Hs' & He' & Hi' & Ho').
      { pose proof (rank_bound _ _ Hq1). pose proof (rank_bound _ _ Hq). rewrite El. destruct Hr1 as [Hr1 | [-> Hr1]]; lia. }
      exists ret, q', s'. split; [done |]. split; [done |]. split; [| split; [lia | done]].
      apply (extends_trans _ (dict s1)); [apply Hs | done | done].
    + destruct Ho as (Hs1 & He1 & Hi1 & Ho1). by exists ret, q1, s1.
Qed.
End safe.
