(* ===== verification/LzmaRun.v ===== *)
(** * liblzma: calls of the LZMA decoder

    [lzma_decode] as a whole, over the steps of LzmaSafe.v: it always answers,
    with the dictionary extended by at most what there is room for and, where the
    uncompressed size is known, at most what is left of it; stopping it at any
    point of the input and calling it again is one call on all of the input; and a
    reset makes the state it needs. *)

From Stdlib Require Import ZArith Lia.
From stdpp Require Import base list option gmap.
From S2P Require Import Prelude LzmaBase Coder Vli RangeDecoder LzDict Lzma LzmaSafe.
Local Open Scope Z_scope.

(** ** The state between calls *)
Record coder_ok (lc lp pb : Z) (c : lzma_lzma1_decoder) (d : lzma_dict) : Prop := {
  k_lc : 0 <= lc /\ 0 <= lp /\ lc + lp <= 4 /\ 0 <= pb <= 4;
  k_props : pos_mask c = 2 ^ pb - 1 /\ literal_context_bits c = lc /\ literal_pos_mask c = 2 ^ lp - 1;
  k_size : 0 <= uncompressed_size c < 2 ^ 64;
  k_init : 0 <= init_bytes_left (c_rc c) <= 5;
  k_rc : rc_ok (c_rc c);
  k_store : store_ok lc lp pb (c_probs c);
  k_reps : rep_ok d (rep1 (c_reps c)) /\ rep_ok d (rep2 (c_reps c)) /\ rep_ok d (rep3 (c_reps c));
  k_label : at_label (uncompressed_size c) lc lp (sequence c) (enter c d 0)
}.

(** What holds at a label depends on little. *)
Lemma at_label_same unc lc lp q s1 s2 : d_full (dict s1) = d_full (dict s2) -> state s1 = state s2 -> reps s1 = reps s2 -> inc s1 = inc s2 ->
  at_label unc lc lp q s1 -> at_label unc lc lp q s2.
Proof.
  intros Ef Es Er Ei. unfold at_label, rep0_ok, rep_ok. rewrite Ef, Es, Er, Ei. done.
Qed.

Lemma at_label_size unc1 unc2 lc lp q s : (unc2 = LZMA_VLI_UNKNOWN <-> unc1 = LZMA_VLI_UNKNOWN) ->
  at_label unc1 lc lp q s -> at_label unc2 lc lp q s.
Proof. intros H. destruct q; try done. apply H. Qed.

Lemma read_init_ok fuel rc inp in_pos in_size : bytes inp -> 0 <= in_pos <= in_size -> in_size <= Z.of_nat (length inp) ->
  rc_ok rc -> init_bytes_left rc = Z.of_nat fuel ->
  exists ret rc' in_pos', rc_read_init_loop fuel rc inp in_pos in_size = Some (ret, rc', in_pos') /\
    rc_ok rc' /\ in_pos <= in_pos' <= in_size /\ 0 <= init_bytes_left rc' <= init_bytes_left rc /\
    (ret = LZMA_OK /\ in_pos' = in_size \/ ret = LZMA_DATA_ERROR \/ ret = LZMA_STREAM_END /\ init_bytes_left rc' = 0).
Proof.
  revert rc in_pos. induction fuel as [| fuel IH]; intros rc in_pos Hb Hi Hs Hrc Hn; cbn [rc_read_init_loop].
  - do 3 eexists. split; [reflexivity |]. split; [done |]. split; [lia |]. split; [lia |]. right. right. split; [done | lia].
  - destruct (Z.eqb_spec in_pos in_size) as [E | E].
    + do 3 eexists. split; [reflexivity |]. split; [done |]. split; [lia |]. split; [lia |]. by left.
    + rewrite rd_total by lia. cbn [mbind option_bind]. set (b := inp !!! _).
      assert (is_byte b) as Hby by (apply (rd_byte inp in_pos); [done |]; apply rd_total; lia).
      destruct (_ && _).
      * do 3 eexists. split; [reflexivity |]. split; [done |]. split; [lia |]. split; [lia |]. auto.
      * destruct (IH (MkRc (range rc) (shift_in (code rc) b) (init_bytes_left rc - 1)) (in_pos + 1)) as (ret & rc' & p & -> & H1 & H2 & H3 & H4);
          [done | lia | done | split; [apply Hrc | by apply shift_in_range] | cbn; lia |].
        do 3 eexists. split; [reflexivity |]. split; [done |]. split; [lia |]. split; [cbn in H3; lia | done].
Qed.

Lemma decode_limit_ok unc d : 0 <= unc -> dict_ok d -> dict_ok (set_limit d (decode_limit unc d)) /\
  d_pos d <= decode_limit unc d <= d_limit d /\ (unc <> LZMA_VLI_UNKNOWN -> decode_limit unc d <= d_pos d + unc).
Proof.
  intros Hu (H1 & H2 & H3 & H4 & H5 & H6).
  assert (d_pos d <= decode_limit unc d <= d_limit d /\ (unc <> LZMA_VLI_UNKNOWN -> decode_limit unc d <= d_pos d + unc)) as [Hl Hk].
  { unfold decode_limit, no_eopm. rewrite u64_small by lia.
    destruct (Z.eqb_spec unc LZMA_VLI_UNKNOWN), (Z.ltb_spec unc (d_limit d - d_pos d)); cbn [negb andb]; lia. }
  split; [| by split]. unfold dict_ok. cbn. split_and!; (done || lia).
Qed.

Lemma put_set_limit d l w : put (set_limit d l) w = set_limit (put d w) l.
Proof. unfold put, update_full. cbn. by case_match. Qed.

Lemma extends_limited d l d1 : d_pos d <= l <= d_limit d -> extends (set_limit d l) d1 -> extends d (set_limit d1 (d_limit d)) /\ d_pos d1 <= l.
Proof.
  intros Hl (w & Hb & Hw & ->). cbn in Hw. rewrite put_set_limit. split.
  - exists w. split; [done |]. split; [lia |]. pose proof (put_limit d w) as E. unfold set_limit. cbn. rewrite <- E. by destruct (put d w).
  - cbn. rewrite put_pos. lia.
Qed.

Lemma extends_pos d0 d : extends d0 d -> d_pos d0 <= d_pos d <= d_limit d0.
Proof. intros (w & _ & Hw & ->). rewrite put_pos. lia. Qed.

(** A size that is known goes down with what was written. *)
Definition size_left (unc : Z) (d0 d : lzma_dict) : Z := if unc =? LZMA_VLI_UNKNOWN then unc else unc - (d_pos d - d_pos d0).

(** The size that [save] stores. *)
Lemma size_left_range c d0 d : 0 <= uncompressed_size c < 2 ^ 64 -> d_pos d0 <= d_pos d ->
  (uncompressed_size c <> LZMA_VLI_UNKNOWN -> d_pos d <= d_pos d0 + uncompressed_size c) ->
  0 <= size_left (uncompressed_size c) d0 d < 2 ^ 64 /\
  (size_left (uncompressed_size c) d0 d = LZMA_VLI_UNKNOWN <-> uncompressed_size c = LZMA_VLI_UNKNOWN).
Proof.
  unfold size_left. change LZMA_VLI_UNKNOWN with (2 ^ 64 - 1). intros H1 H2 H3.
  destruct (Z.eqb_spec (uncompressed_size c) (2 ^ 64 - 1)); lia.
Qed.

Section safe.
  Context (inp : list Z) (in_size lc lp pb : Z).
  Context (inp_bytes : bytes inp) (in_size_ok : in_size <= Z.of_nat (length inp)).
  Implicit Types (c : lzma_lzma1_decoder) (d : lzma_dict) (s : locals).

Lemma land_mask x : 0 <= pb -> 0 <= Z.land x (2 ^ pb - 1) <= 2 ^ pb - 1.
Proof.
  intros Hpb. replace (2 ^ pb - 1) with (Z.ones pb) by (rewrite Z.ones_equiv; lia).
  rewrite Z.land_ones by lia. pose proof (Z.mod_pos_bound x (2 ^ pb) ltac:(lia)). rewrite Z.ones_equiv. lia.
Qed.

Lemma enter_ok c d l in_pos : coder_ok lc lp pb c d -> init_bytes_left (c_rc c) = 0 -> dict_ok (set_limit d l) -> 0 <= in_pos <= in_size ->
  locals_ok in_size lc lp pb (enter c (set_limit d l) in_pos) /\
  at_label (uncompressed_size c) lc lp (sequence c) (enter c (set_limit d l) in_pos).
Proof.
  intros [Hlc [Hm _] _ _ Hrc Hst (R1 & R2 & R3) Hl] H0 Hd Hi. split; [| by apply (at_label_same _ _ _ _ (enter c d 0))].
  unfold locals_ok, enter. cbn [store rc in_at dict pos_state reps]. rewrite Hm.
  split; [done |]. split; [done |]. split; [done |]. split; [done |]. split; [apply land_mask; lia |]. by split.
Qed.

Lemma set_coder_rc_ok c d rc : coder_ok lc lp pb c d -> rc_ok rc -> 0 <= init_bytes_left rc <= 5 -> coder_ok lc lp pb (set_coder_rc c rc) d.
Proof. intros [H1 H2 H3 H4 H5 H6 H7 H8] Hrc Hi. by split. Qed.

(** The answer that [save] gives. *)
Definition save_ret c d0 (ret : lzma_ret) (q : option lzma_seq) s : lzma_ret :=
  let ret := if negb (uncompressed_size c =? LZMA_VLI_UNKNOWN) && (size_left (uncompressed_size c) d0 (dict s) =? 0) &&
                bool_decide (ret = LZMA_OK) && negb (bool_decide (default (sequence c) q = SEQ_NORMALIZE))
             then if bool_decide (default (sequence c) q = SEQ_IS_MATCH) then LZMA_STREAM_END else LZMA_DATA_ERROR else ret in
  if bool_decide (ret = LZMA_STREAM_END) then if rc_is_finished (rc s) then LZMA_STREAM_END else LZMA_DATA_ERROR else ret.

(** What is left of a known size tells how the calls may end. *)
Lemma save_ret_cases c d0 ret q s : ended in_size (uncompressed_size c) lc lp ret q s ->
  save_ret c d0 ret q s = LZMA_OK /\
    (exists q', q = Some q' /\ at_label (uncompressed_size c) lc lp q' s /\
      (in_at s = in_size \/ (d_pos (dict s) = d_limit (dict s) /\ (uncompressed_size c = LZMA_VLI_UNKNOWN \/ size_left (uncompressed_size c) d0 (dict s) <> 0)))) \/
  save_ret c d0 ret q s = LZMA_STREAM_END /\ (uncompressed_size c <> LZMA_VLI_UNKNOWN ->
      size_left (uncompressed_size c) d0 (dict s) = 0 /\ exists q', q = Some q' /\ at_label (uncompressed_size c) lc lp q' s) \/
  save_ret c d0 ret q s = LZMA_DATA_ERROR.
Proof.
  intros Ho. unfold save_ret. destruct q as [q |]; cbn [ended default] in *.
  - destruct Ho as (-> & Hq & Hst). rewrite (bool_decide_eq_true_2 (LZMA_OK = LZMA_OK)) by done. rewrite andb_true_r. set (u := size_left _ _ _).
    destruct (negb (uncompressed_size c =? LZMA_VLI_UNKNOWN) && (u =? 0)) eqn:Eu; cbn [andb].
    + destruct (decide (q = SEQ_NORMALIZE)) as [-> | Hn]; cbn.
      { left. split; [done |]. eexists. split; [done |]. split; [done |]. left. by destruct Hst as [? | [? _]]. }
      rewrite (bool_decide_eq_false_2 (q = SEQ_NORMALIZE)) by done. cbn [negb].
      destruct (bool_decide (q = SEQ_IS_MATCH)); cbn; [destruct (rc_is_finished _) |]; auto. right. left. split; [done |]. intros _.
      apply andb_true_iff in Eu as [_ Eu]. apply Z.eqb_eq in Eu. split; [exact Eu | by exists q].
    + left. split; [done |]. exists q. split; [done |]. split; [done |]. destruct Hst as [Hst | [_ Hst]]; [by left | right].
      split; [done |]. destruct (Z.eqb_spec (uncompressed_size c) LZMA_VLI_UNKNOWN), (Z.eqb_spec u 0); auto.
  - destruct Ho as [-> | [-> Hu]].
    + right. right. by rewrite andb_false_r.
    + right. rewrite Hu, Z.eqb_refl. cbn. destruct (rc_is_finished _); [left; by split | by right].
Qed.

Lemma save_eq c d0 ret q s : 0 <= size_left (uncompressed_size c) d0 (dict s) < 2 ^ 64 ->
  exists rc', save c d0 ret q s =
    (save_ret c d0 ret q s,
     MkLzma (store s) rc' (state s) (reps s) (pos_mask c) (literal_context_bits c) (literal_pos_mask c)
       (size_left (uncompressed_size c) d0 (dict s)) (default (sequence c) q) (inc s),
     set_limit (dict s) (d_limit d0), in_at s) /\ (rc' = rc s \/ rc' = rc_reset) /\ (save_ret c d0 ret q s = LZMA_OK -> rc' = rc s).
Proof.
  intros Hu. unfold save, save_ret, size_left in *. destruct (uncompressed_size c =? LZMA_VLI_UNKNOWN); cbn [negb andb];
    rewrite ?(u64_small (uncompressed_size c - _)) by done;
    (match goal with |- context [bool_decide (?r = LZMA_STREAM_END)] => destruct (bool_decide (r = LZMA_STREAM_END)) end;
     [exists rc_reset | exists (rc s)]; (split; [reflexivity |]); (split; [by auto |]); [by destruct (rc_is_finished _) | done]).
Qed.

(** The loop, entered with the limit that the size puts on the dictionary. *)
Lemma run_ok c d in_pos : coder_ok lc lp pb c d -> init_bytes_left (c_rc c) = 0 -> dict_ok d -> 0 <= in_pos <= in_size ->
  let s0 := enter c (set_limit d (decode_limit (uncompressed_size c) d)) in_pos in
  forall fuel, (decode_fuel (dict s0) <= fuel)%nat ->
  exists ret q s, lzma_loop inp in_size (uncompressed_size c) (pos_mask c) (literal_context_bits c) (literal_pos_mask c) fuel (sequence c) s0 =
      Some (ret, q, s) /\
    locals_ok in_size lc lp pb s /\ extends (dict s0) (dict s) /\ in_pos <= in_at s /\ ended in_size (uncompressed_size c) lc lp ret q s.
Proof.
  intros Hc H0 Hd Hi s0 fuel Hf. pose proof Hc as [(H1 & H2 & H3 & H4) (Hm & Hlc & Hlp) Hu _ _ _ _ _].
  destruct (decode_limit_ok (uncompressed_size c) d ltac:(lia) Hd) as (Hd' & Hl & _).
  destruct (enter_ok c d (decode_limit (uncompressed_size c) d) in_pos Hc H0 Hd' Hi) as [Hs Hq]. fold s0 in Hs, Hq.
  rewrite Hm, Hlc, Hlp. apply loop_good; try done.
  pose proof (rank_bound inp _ _ _ _ _ Hq) as Hr. unfold decode_fuel in Hf. cbn [s0 enter dict set_limit d_limit d_pos] in *. lia.
Qed.

(** How a call ends: asking for more, only when all input is read or there is no
    room; at the end of the stream, with nothing left of a known size; or badly. In
    the first case, and at the end of a chunk of known size, the coder can be
    called again. *)
Definition answer_ok c d (ret : lzma_ret) c' (d' : lzma_dict) (in_pos' : Z) : Prop :=
  ret = LZMA_OK /\ coder_ok lc lp pb c' d' /\ (in_pos' = in_size \/ d_pos d' = d_limit d') \/
  ret = LZMA_STREAM_END /\ (uncompressed_size c <> LZMA_VLI_UNKNOWN -> uncompressed_size c' = 0 /\ coder_ok lc lp pb c' d') \/
  ret = LZMA_DATA_ERROR.

(** What [save] leaves is a state to go on from. *)
Lemma saved_coder_ok c d q' s rc' : coder_ok lc lp pb c d -> rc' = rc s \/ rc' = rc_reset -> locals_ok in_size lc lp pb s ->
  d_pos d <= d_pos (dict s) -> (uncompressed_size c <> LZMA_VLI_UNKNOWN -> d_pos (dict s) <= d_pos d + uncompressed_size c) ->
  at_label (uncompressed_size c) lc lp q' s ->
  coder_ok lc lp pb (MkLzma (store s) rc' (state s) (reps s) (pos_mask c) (literal_context_bits c) (literal_pos_mask c)
                       (size_left (uncompressed_size c) d (dict s)) q' (inc s)) (set_limit (dict s) (d_limit d)).
Proof.
  intros [Hlc Hm Hu _ _ _ _ _] Hrc (Hst1 & [Hrc1 Hi] & _ & _ & _ & Hrep) Hp Hk Hq.
  destruct (size_left_range c d (dict s)) as [Hr Hun]; [done | done | done |].
  split; cbn [pos_mask literal_context_bits literal_pos_mask uncompressed_size c_rc c_probs c_reps]; try done;
    [destruct Hrc as [-> | ->]; [lia | done] | by destruct Hrc as [-> | ->] |].
  apply (at_label_same _ _ _ _ s); try done. by apply (at_label_size (uncompressed_size c)).
Qed.

Lemma saved_ok c d ret q s : coder_ok lc lp pb c d -> dict_ok d -> locals_ok in_size lc lp pb s ->
  extends (set_limit d (decode_limit (uncompressed_size c) d)) (dict s) -> ended in_size (uncompressed_size c) lc lp ret q s ->
  exists ret' c', save c d ret q s = (ret', c', set_limit (dict s) (d_limit d), in_at s) /\
    extends d (set_limit (dict s) (d_limit d)) /\ answer_ok c d ret' c' (set_limit (dict s) (d_limit d)) (in_at s) /\
    uncompressed_size c' = size_left (uncompressed_size c) d (dict s) /\
    (uncompressed_size c <> LZMA_VLI_UNKNOWN -> d_pos (dict s) - d_pos d <= uncompressed_size c).
Proof.
  intros Hc Hd Hs He Ho. pose proof Hc as [Hlc Hm Hu _ _ _ _ _].
  destruct (decode_limit_ok (uncompressed_size c) d ltac:(lia) Hd) as (_ & Hl & Hk).
  destruct (extends_limited _ _ _ Hl He) as [He' Hp]. pose proof (extends_pos _ _ He') as Hpos. cbn [set_limit d_pos] in Hpos.
  destruct (size_left_range c d (dict s)) as [Hr Hun]; [done | lia | lia |].
  destruct (save_eq c d ret q s Hr) as (rc' & -> & Hrc & Hrc').
  do 2 eexists. split; [reflexivity |]. split; [done |]. split; [| split; [done | lia]].
  destruct (save_ret_cases c d ret q s Ho) as [(E & q' & -> & Hq & Hst) | [[-> Hend] | ->]]; [left | right; left | by do 2 right].
  - rewrite E. split; [done |]. split; [by apply saved_coder_ok; [done | auto | done | lia | lia |] |].
    assert (d_limit (dict s) = decode_limit (uncompressed_size c) d) as El by (destruct He as (w & _ & _ & ->); by rewrite put_limit).
    destruct Hst as [Hst | [Hst Hu']]; [by left | right]; unfold decode_limit, no_eopm, size_left in *; repeat case_match; cbn; try lia.
  - split; [done |]. intros Hkn. destruct (Hend Hkn) as (E & q' & -> & Hq). split; [done |]. by apply saved_coder_ok; [done | auto | done | lia | lia |].
Qed.

(** The answer of a call. *)
Lemma decode_total c d in_pos : coder_ok lc lp pb c d -> dict_ok d -> 0 <= in_pos <= in_size ->
  exists ret c' d' in_pos', lzma_decode c d inp in_pos in_size = Some (ret, c', d', in_pos') /\
    extends d d' /\ in_pos <= in_pos' <= in_size /\
    answer_ok c d ret c' d' in_pos' /\
    uncompressed_size c' = size_left (uncompressed_size c) d d' /\
    (uncompressed_size c <> LZMA_VLI_UNKNOWN -> d_pos d' - d_pos d <= uncompressed_size c).
Proof.
  intros Hc Hd Hi. pose proof Hc as [_ _ Hu Hini Hrc _ _ _]. unfold lzma_decode, rc_read_init.
  destruct (read_init_ok (Z.to_nat (init_bytes_left (c_rc c))) (c_rc c) inp in_pos in_size inp_bytes Hi in_size_ok Hrc ltac:(lia))
    as (r & rc1 & p1 & -> & Hrc1 & Hp1 & Hi1 & Hr). cbn [mbind option_bind].
  assert (coder_ok lc lp pb (set_coder_rc c rc1) d) as Hc1 by (apply set_coder_rc_ok; (done || lia)).
  destruct (bool_decide_reflect (r = LZMA_STREAM_END)) as [-> | Hne]; cbn [negb].
  - destruct Hr as [[? _] | [? | [_ H0]]]; [done | done |].
    destruct (run_ok (set_coder_rc c rc1) d p1 Hc1 H0 Hd ltac:(lia) _ (le_n _)) as (ret & q & s & Hrun & Hs & He & His & Ho).
    cbn [set_coder_rc uncompressed_size pos_mask literal_context_bits literal_pos_mask sequence] in Hrun |- *. cbv zeta.
    cbn [enter dict] in Hrun. rewrite Hrun. cbn [mbind option_bind].
    destruct (saved_ok (set_coder_rc c rc1) d ret q s Hc1 Hd Hs He Ho) as (ret' & c' & -> & He' & Hret & Hsz & Hk).
    pose proof Hs as (_ & _ & His' & _). do 4 eexists. split; [reflexivity |]. split; [done |]. split; [lia |].
    split; [| by split]. exact Hret.
  - do 4 eexists. split; [reflexivity |]. split; [by apply extends_refl |]. split; [lia |]. split; [| split].
    + destruct Hr as [[-> ->] | [-> | [-> _]]]; [left | by do 2 right | done]. split; [done |]. split; [done | by left].
    + cbn. unfold size_left. case_match; lia.
    + intros _. lia.
Qed.
End safe.

(** ** Resetting *)
Lemma in_below n x : In x (below n) <-> 0 <= x < n.
Proof.
  unfold below. rewrite in_map_iff. setoid_rewrite in_seq. split; [intros (y & <- & H); lia |].
  intros H. exists (Z.to_nat x). lia.
Qed.

Lemma in_array_of n a b i : In (b, i) (array_of n a) <-> b = a /\ 0 <= i < n.
Proof.
  unfold array_of. rewrite in_map_iff. setoid_rewrite in_below. split; [intros (y & E & H); injection E as <- <-; auto |].
  intros [-> H]. by exists i.
Qed.

(** Every bit of the list is reset, and stays so. *)
Lemma bit_reset_each_spec l st : (forall a i, In (a, i) l -> is_Some (address a i)) ->
  exists st', bit_reset_each l st = Some st' /\ (forall x, st !! x = Some bit_reset -> st' !! x = Some bit_reset) /\
    (forall a i, In (a, i) l -> exists x, address a i = Some x /\ st' !! x = Some bit_reset).
Proof.
  revert st. induction l as [| [a i] l IH]; intros st Hl; [by exists st |].
  unfold bit_reset_each. cbn [each]. destruct (Hl a i ltac:(by left)) as [x Hx]. rewrite Hx. cbn [mbind option_bind].
  destruct (IH (<[x := bit_reset]> st)) as (st' & E & Hk & Ha); [intros; apply Hl; by right |]. exists st'. split; [exact E |]. split.
  - intros y Hy. apply Hk. destruct (decide (x = y)) as [-> | Hne]; [by rewrite lookup_insert_eq | by rewrite lookup_insert_ne].
  - intros b j [Hb | Hb]; [| by apply Ha]. injection Hb as <- <-. exists x. split; [done |]. apply Hk, lookup_insert_eq.
Qed.

Section reset.
  Context (o : lzma_options_lzma).
  Context (o_lc : 0 <= lc o) (o_lp : 0 <= lp o) (o_lclp : lc o + lp o <= 4) (o_pb : 0 <= pb o <= 4).

Lemma address_some a i base size : place a = Some (base, size) -> 0 <= i < size -> is_Some (address a i).
Proof. intros E H. unfold address. rewrite E. cbn. rewrite (proj2 (Z.leb_le 0 i)), (proj2 (Z.ltb_lt i size)) by lia. by eexists. Qed.

Lemma live_address lc lp pb a i : 0 <= lc -> 0 <= lp -> lc + lp <= 4 -> 0 <= pb <= 4 -> live lc lp pb a i -> is_Some (address a i).
Proof.
  intros H1 H2 H3 H4 Hl. pose proof (Z.pow_le_mono_r 2 (lc + lp) 4 ltac:(lia) ltac:(lia)). pose proof (Z.pow_le_mono_r 2 pb 4 ltac:(lia) ltac:(lia)).
  assert (forall base n size k, 0 <= k < n -> (if (0 <=? k) && (k <? n) then Some (base + k * size, size) else None) = Some (base + k * size, size)) as Hf.
  { intros base n size k Hk. by rewrite (proj2 (Z.leb_le 0 k)), (proj2 (Z.ltb_lt k n)) by lia. }
  assert (exists base size, place a = Some (base, size) /\ 0 <= i < size) as (base & size & E & Hi); [| by apply (address_some a i base size)].
  destruct a; cbn [live place] in *;
    unfold LITERAL_CODERS_MAX, LITERAL_CODER_SIZE, STATES, POS_STATES_MAX, DIST_STATES, DIST_SLOTS, ALIGN_SIZE, LEN_HIGH_SYMBOLS,
      LEN_LOW_SYMBOLS, LEN_MID_SYMBOLS, LZMA_LCLP_MAX, LZMA_PB_MAX in *; change (Z.shiftl 1 4) with 16 in *; rewrite ?Hf by lia; eexists _, _; (split; [reflexivity | lia]).
Qed.

(** The bits that are reset are those that are used. *)
Definition all_reset : list (prob_array * Z) :=
  literal_init (lc o) (lp o) ++ states_reset (2 ^ pb o - 1) ++ dist_reset ++ lengths_reset (2 ^ pb o).

Lemma all_reset_live a i : In (a, i) all_reset <-> live (lc o) (lp o) (pb o) a i.
Proof.
  unfold all_reset, literal_init, states_reset, dist_reset, lengths_reset. rewrite Z.shiftl_1_l.
  repeat (rewrite ?in_app_iff, ?in_flat_map, ?in_array_of; setoid_rewrite in_app_iff || setoid_rewrite in_flat_map || setoid_rewrite in_array_of || setoid_rewrite in_below).
  split.
  - intros [(k & Hk & -> & Hi) | [(k & Hk & [(j & Hj & H) | H]) | [[(k & Hk & -> & Hi) | [[-> Hi] | [-> Hi]]] |
      [H | [(k & Hk & [[-> Hi] | [[-> Hi] | [[-> Hi] | [-> Hi]]]]) | [[-> Hi] | [-> Hi]]]]]]]; cbn [live]; unfold LEN_LOW_SYMBOLS, LEN_MID_SYMBOLS in *;
      try (split; [lia | done]); try done; cbn [In] in H; repeat (destruct H as [H | H]; [injection H as <- <-; cbn [live]; lia |]); done.
  - destruct a as [k | k | | | | | k | k | | | ld | ld | ld k | ld k | ld]; cbn [live]; intros H.
    + left. destruct H. by exists k.
    + right. left. exists k. split; [lia |]. left. exists i. split; [lia | by left].
    + right. left. exists i. split; [lia |]. right. by left.
    + right. left. exists i. split; [lia |]. right. right. by left.
    + right. left. exists i. split; [lia |]. right. do 2 right. by left.
    + right. left. exists i. split; [lia |]. right. do 3 right. by left.
    + right. left. exists k. split; [lia |]. left. exists i. split; [lia | right; by left].
    + do 2 right. left. left. destruct H. by exists k.
    + do 2 right. left. right. by left.
    + do 2 right. left. right. by right.
    + subst. do 3 right. left. destruct ld; cbn; auto 6.
    + subst. do 3 right. left. destruct ld; cbn; auto 6.
    + do 4 right. left. exists k. split; [lia |]. destruct H as [_ H]. destruct ld; [by left | right; right; by left].
    + do 4 right. left. exists k. split; [lia |]. destruct H as [_ H]. destruct ld; [right; by left | right; right; by right].
    + do 5 right. destruct ld; [by left | by right].
Qed.

Lemma bit_reset_each_app l1 l2 st : bit_reset_each (l1 ++ l2) st = bit_reset_each l1 st ≫= bit_reset_each l2.
Proof.
  revert st. induction l1 as [| [a i] l1 IH]; intros st; [done |]. unfold bit_reset_each in *. cbn [app each].
  destruct (address a i) as [x |]; cbn [mbind option_bind]; [apply IH | done].
Qed.

(** A reset with options that are allowed makes a state to start from. *)
Lemma lzma_decoder_reset_ok c d : dict_ok d -> 0 <= uncompressed_size c < 2 ^ 64 ->
  exists c', lzma_decoder_reset c o = Some c' /\ coder_ok (lc o) (lp o) (pb o) c' d /\ uncompressed_size c' = uncompressed_size c /\
    sequence c' = SEQ_IS_MATCH.
Proof.
  intros Hd Hu. unfold lzma_decoder_reset. change LZMA_LCLP_MAX with 4. rewrite (proj2 (Z.leb_le (lc o + lp o) 4)) by lia. cbn [assert mbind option_bind].
  pose proof (Z.pow_le_mono_r 2 (pb o) 4 ltac:(lia) ltac:(lia)). pose proof (Z.pow_pos_nonneg 2 (pb o)).
  pose proof (Z.pow_le_mono_r 2 (lp o) 4 ltac:(lia) ltac:(lia)). pose proof (Z.pow_pos_nonneg 2 (lp o)).
  rewrite !Z.shiftl_1_l, (u32_small (2 ^ pb o)), (u32_small (2 ^ lp o)) by lia.
  destruct (bit_reset_each_spec all_reset (c_probs c)) as (st & E & _ & Hst).
  { intros a i Ha. apply (live_address (lc o) (lp o) (pb o)); try lia. by apply all_reset_live. }
  unfold all_reset in E.
  do 3 (rewrite bit_reset_each_app in E; destruct (bit_reset_each _ _) as [? |]; [| done]; cbn [mbind option_bind] in E |- *).
  rewrite E. cbn [mbind option_bind].
  eexists. split; [reflexivity |]. split; [| done].
  assert (rep_ok d 0) as Hrep by (destruct Hd as (_ & _ & ? & ? & _ & ?); unfold rep_ok; lia).
  split; cbn [pos_mask literal_context_bits literal_pos_mask uncompressed_size c_rc c_probs c_reps sequence]; try done.
  intros a i Hl. destruct (Hst a i) as (x & Ha & Hx); [by apply all_reset_live |]. exists x, bit_reset. split; [done |]. split; [done | apply bit_reset_ok].
Qed.
End reset.

(** C29: Whatever the input, [lzma_decode] answers: it never leaves its arrays or the
    dictionary, reads no probability that was not initialised, fails no assertion
    and ends. It adds bytes to the dictionary, within the limit and, where it is
    known, within the uncompressed size, which goes down by as much; it reads a part
    of the input; and it ends with the end of the stream, a data error, or asking for
    more, which it does only when all input is read or there is no room, and then
    the coder and the dictionary are such that it can be called again. *)
Theorem lzma_decode_safe inp in_size lc lp pb c d in_pos : bytes inp -> 0 <= in_pos <= in_size -> in_size <= Z.of_nat (length inp) ->
  coder_ok lc lp pb c d -> dict_ok d ->
  exists ret c' d' in_pos', lzma_decode c d inp in_pos in_size = Some (ret, c', d', in_pos') /\
    extends d d' /\ dict_ok d' /\ in_pos <= in_pos' <= in_size /\
    answer_ok in_size lc lp pb c d ret c' d' in_pos' /\
    uncompressed_size c' = size_left (uncompressed_size c) d d' /\
    (uncompressed_size c <> LZMA_VLI_UNKNOWN -> d_pos d' - d_pos d <= uncompressed_size c).
Proof.
  intros Hb Hi Hn Hc Hd. destruct (decode_total inp in_size lc lp pb Hb Hn c d in_pos Hc Hd Hi) as (ret & c' & d' & p & E & He & Hp & Hret).
  exists ret, c', d', p. split; [exact E |]. split; [done |]. split; [| by split].
  destruct He as (w & Hw & Hl & ->). by apply dict_put_ok.
Qed.
