(* ===== verification/LzmaResume.v ===== *)
(** * liblzma: the LZMA decoder may be stopped anywhere

    A call that stopped because it had read all the input it was given, or because
    the dictionary had no more room for it, can be taken up again: with more
    input, the second call ends as one call on all of the input would have. The
    labels of the C switch, and saving the local variables, are for this. *)

From Stdlib Require Import ZArith Lia.
From stdpp Require Import base list option gmap.
From S2P Require Import Prelude LzmaBase Coder Vli RangeDecoder LzDict Lzma LzmaSafe LzmaRun.
Local Open Scope Z_scope.

(** ** One step with less and with more input *)
Section steps.
  Context (inp : list Z) (uncompressed_size pos_mask lcb lpm : Z).
  Local Notation step n := (step inp n uncompressed_size pos_mask lcb lpm).
  Local Notation loop n := (lzma_loop inp n uncompressed_size pos_mask lcb lpm).
  Implicit Types s : locals.

(** [normalize] is the only thing that looks at the end of the input. *)
Lemma normalize_resume n1 n2 q k s : in_at s <= n1 <= n2 ->
  normalize inp n1 q k s = normalize inp n2 q k s \/ normalize inp n1 q k s = Some (Out LZMA_OK (Some q) s).
Proof.
  intros Hn. unfold normalize, rc_normalize. destruct (range (rc s) <? RC_TOP_VALUE); [| by left].
  destruct (Z.eqb_spec (in_at s) n1); [by right |]. rewrite (proj2 (Z.eqb_neq (in_at s) n2)) by lia. by left.
Qed.

(** After it a step leaves the dictionary alone, and does not stop any more. *)
Definition quiet s0 (o : option outcome) : Prop :=
  match o with
  | Some (Next s _) => dict s = dict s0 /\ pos_state s = pos_state s0
  | Some (Out _ (Some _) _) => False
  | _ => True
  end.

Definition calm (K : locals -> option outcome) : Prop := forall s, quiet s (K s).

Lemma calm_goto q : calm (goto q).
Proof. done. Qed.

Lemma calm_if0 a i (k0 k1 : locals -> option outcome) : calm k0 -> calm k1 ->
  calm (fun s => at_ ← address a i; p ← store s !! at_;
    let '(bit, rc, p) := rc_decode (rc s) p in (if bit : bool then k1 else k0) (set_store_rc s (<[at_ := p]> (store s)) rc)).
Proof.
  intros H0 H1 s. destruct (address a i) as [x |]; cbn [mbind option_bind]; [| done]. destruct (store s !! x) as [p |]; cbn [mbind option_bind]; [| done].
  destruct (rc_decode (rc s) p) as [[bit rc'] p']. destruct bit; [apply (H1 (set_store_rc _ _ _)) | apply (H0 (set_store_rc _ _ _))].
Qed.

(** What comes before a continuation may change the other variables. *)
Lemma calm_after (f : locals -> locals) K : (forall s, dict (f s) = dict s /\ pos_state (f s) = pos_state s) -> calm K -> calm (fun s => K (f s)).
Proof.
  intros Hf HK s. pose proof (HK (f s)) as H. destruct (Hf s) as [E1 E2]. unfold quiet in *. by rewrite E1, E2 in H.
Qed.

Lemma calm_check_distance : calm check_distance.
Proof. intros s. unfold check_distance, assert. repeat (case_match; cbn [mbind option_bind]); done. Qed.

Lemma calm_slot_end : calm slot_end.
Proof.
  intros s. unfold slot_end, assert. cbv zeta. repeat (case_match; cbn [mbind option_bind]); try done.
  apply (calm_after (fun s => set_rep0 (set_symbol s _) _) _ (fun _ => conj eq_refl eq_refl) calm_check_distance).
Qed.

Lemma calm_align_end : calm (align_end uncompressed_size).
Proof. intros s. unfold align_end. repeat case_match; try done. apply calm_check_distance. Qed.

Lemma calm_len_end ld x : calm (fun s => len_end ld (x s) s).
Proof. intros s. unfold len_end, assert. destruct ld; [done |]. repeat (case_match; cbn [mbind option_bind]); done. Qed.

Lemma calm_literal_start : calm (literal_start lcb lpm).
Proof.
  intros s. unfold literal_start. destruct (dict_get (dict s) 0); cbn [mbind option_bind]; [| done]. cbv zeta. case_match; [done |].
  match goal with |- quiet _ (?x ≫= _) => by destruct x end.
Qed.

(** A step does not look at the end of the input, or it begins by looking at it.
    [q'] is where it stops if it has to. *)
Definition starts (q q' : lzma_seq) (K : locals -> option outcome) s : Prop :=
  forall n, step n q s = normalize inp n q' K s /\ step n q' s = step n q s.

Definition over s : bool := no_eopm uncompressed_size && (d_pos (dict s) =? d_limit (dict s)).

(** The steps that write to the dictionary. *)
Definition writes (q : lzma_seq) : Prop := q = SEQ_LITERAL_WRITE \/ q = SEQ_SHORTREP \/ q = SEQ_COPY.

Definition splits (q : lzma_seq) s : Prop :=
  ((forall n1 n2, step n1 q s = step n2 q s) /\ (writes q \/ forall n, quiet s (step n q s))) \/
  exists q' K, starts q q' K s /\ (calm K \/ over s = true /\ q' = SEQ_NORMALIZE /\ K = (fun s => Some (Out LZMA_OK (Some SEQ_IS_MATCH) s))).

Definition keeps (f : locals -> locals) : Prop := forall s, dict (f s) = dict s /\ pos_state (f s) = pos_state s.

Lemma splits_if0 q q' a i k0 k1 s : (forall n, step n q s = rc_if_0 inp n a i q' k0 k1 s) -> (forall n, step n q' s = step n q s) ->
  calm k0 -> calm k1 -> splits q s.
Proof. intros E1 E2 H0 H1. right. eexists q', _. split; [intros n; split; [apply E1 | apply E2] |]. left. by apply calm_if0. Qed.

Lemma splits_last q a i act0 act1 k s : (forall n, step n q s = rc_bit_last inp n a i act0 act1 q k s) -> keeps act0 -> keeps act1 -> calm k -> splits q s.
Proof. intros E H0 H1 Hk. eapply (splits_if0 q q); [exact E | done | by apply calm_after | by apply calm_after]. Qed.

Lemma splits_bit q a i act0 act1 k s : (forall n, step n q s = rc_bit inp n a i act0 act1 q k s) -> keeps act0 -> keeps act1 -> calm k -> splits q s.
Proof.
  intros E H0 H1 Hk. eapply splits_last; [exact E | | | done]; intros s'; [destruct (H0 (set_symbol s' (u32 (Z.shiftl (symbol (inc s')) 1))))
    | destruct (H1 (set_symbol s' (u32 (u32 (Z.shiftl (symbol (inc s')) 1) + 1))))]; done.
Qed.

Lemma keeps_no_action : keeps no_action.
Proof. done. Qed.

Lemma splits_match q s : q = SEQ_NORMALIZE \/ q = SEQ_IS_MATCH -> splits q s.
Proof.
  intros Hq. assert (forall n, step n q s = step_is_match inp n uncompressed_size lcb lpm s) as E by (by destruct Hq as [-> | ->]).
  destruct (over s) eqn:Eo.
  - right. eexists SEQ_NORMALIZE, _. split; [split; [| done] | by right]. rewrite E. unfold step_is_match. fold (over s). by rewrite Eo.
  - eapply (splits_if0 _ SEQ_IS_MATCH); [intros n; rewrite E; unfold step_is_match; fold (over s); by rewrite Eo | done | apply calm_literal_start | done].
Qed.

(** Where the probabilities are in an array that was chosen before. *)
Lemma splits_probs q k s : (forall n, step n q s = with_probs (k n) s) ->
  (forall a off, probs (inc s) = Some (a, off) -> splits q s) -> splits q s.
Proof.
  intros E H. destruct (probs (inc s)) as [[a off] |] eqn:Ep; [by apply (H a off) |].
  left. split; [intros n1 n2 | right; intros n]; rewrite !E; unfold with_probs; by rewrite Ep.
Qed.

Lemma calm_if (b : bool) K1 K2 : calm K1 -> calm K2 -> calm (if b then K1 else K2).
Proof. by destruct b. Qed.

Ltac bits lem := eapply lem;
  [intros n; cbn [Lzma.step step_len]; unfold step_literal, step_literal_matched, step_dist_slot, step_dist_model, step_align, with_probs;
   repeat match goal with E : _ = _ |- _ => rewrite E end; reflexivity
  | try done | try done | try done].

Lemma step_splits q s : splits q s.
Proof.
  destruct q as [| | i | i | | | ld [| i | | i | i] | i | | | i | | | | | | |]; try (by apply splits_match; auto); try (by left; split; [| left; unfold writes; auto]).
  - eapply splits_probs; [intros n; reflexivity |]. intros a off Ep. bits splits_bit. by apply calm_if.
  - eapply splits_probs; [intros n; reflexivity |]. intros a off Ep. bits splits_bit. by apply calm_if.
  - eapply splits_if0; [intros n; reflexivity | done | |]; [done |]. intros s'. by case_match.
  - by eapply splits_if0.
  - bits splits_bit. apply calm_if; [apply calm_len_end | done].
  - by eapply splits_if0.
  - bits splits_bit. apply calm_if; [apply calm_len_end | done].
  - bits splits_bit. apply calm_if; [apply calm_len_end | done].
  - eapply splits_probs; [intros n; reflexivity |]. intros a off Ep. bits splits_bit. apply calm_if; [apply calm_slot_end | done].
  - eapply splits_probs; [intros n; reflexivity |]. intros a off Ep.
    destruct ((2 <=? limit (inc s)) && (limit (inc s) <=? 5)) eqn:E2; [destruct (negb (limit (inc s) =? 5) || (offset (inc s) =? 0)) eqn:E3 |];
      [| left; split; [intros n1 n2 | right; intros n]; cbn [Lzma.step]; unfold step_dist_model, with_probs; rewrite Ep; cbn [mbind option_bind]; by rewrite E2, E3 |].
    + bits splits_bit.
    + destruct (limit (inc s) =? 1) eqn:E1; [bits splits_last; apply calm_check_distance |].
      left. split; [intros n1 n2 | right; intros n]; cbn [Lzma.step]; unfold step_dist_model, with_probs; rewrite Ep; cbn [mbind option_bind];
        rewrite E2, E1; [done | apply calm_check_distance].
  - right. eexists SEQ_DIRECT, _. split; [split; [reflexivity | done] |]. left. intros s'. destruct (rc_direct _ _). cbv zeta. by case_match.
  - destruct (i =? 3)%nat eqn:E3.
    + bits splits_last. apply calm_align_end.
    + bits splits_bit.
  - by right; eexists SEQ_EOPM, _; split; [split; [reflexivity | done] | left].
  - by eapply splits_if0.
  - by eapply splits_if0.
  - by eapply splits_if0.
  - by eapply splits_if0.
Qed.

(** With more input a step does the same, or goes on where it stopped. *)
Lemma step_resume n1 n2 q s : in_at s <= n1 <= n2 ->
  step n1 q s = step n2 q s \/ exists q', step n1 q s = Some (Out LZMA_OK (Some q') s) /\ step n2 q' s = step n2 q s.
Proof.
  intros Hn. destruct (step_splits q s) as [[E _] | (q' & K & Hq & _)]; [by left |].
  destruct (Hq n1) as [E1 _], (Hq n2) as [E2 E3]. rewrite E1.
  destruct (normalize_resume n1 n2 q' K s Hn) as [E | E]; rewrite E; [by left | right; by exists q'].
Qed.

Lemma normalize_cases n q K s o : normalize inp n q K s = Some o ->
  o = Out LZMA_OK (Some q) s \/ exists rc in_at, K (set_rc s rc in_at) = Some o /\ rc_normalize (Lzma.rc s) inp (Lzma.in_at s) n = Some (Some (rc, in_at)).
Proof.
  unfold normalize. destruct (rc_normalize _ _ _ _) as [[[rc' p] |] |]; cbn [mbind option_bind]; intros H; [right | left | done]; [by eexists _, _ | by injection H as <-].
Qed.

(** [pos_state] is that of the round. *)
Definition pos_ok s : Prop := pos_state s = Z.land (d_pos (dict s)) pos_mask.

Lemma step_pos n q s s' q' : step n q s = Some (Next s' q') -> pos_ok s -> pos_ok s'.
Proof.
  intros E Hp. assert (quiet s (step n q s) -> pos_ok s') as Hquiet.
  { rewrite E. intros [E1 E2]. unfold pos_ok. by rewrite E1, E2. }
  destruct (step_splits q s) as [[_ [Hw | H]] | (q1 & K & Hq & HK)]; [| by apply Hquiet |].
  - destruct Hw as [-> | [-> | ->]]; cbn [Lzma.step] in E; unfold step_literal_write, step_shortrep, step_copy, loop_top, goto in E.
    + apply option.bind_Some in E as ([[] d] & _ & E); [done |]. by injection E as <- _.
    + apply option.bind_Some in E as (b & _ & E). apply option.bind_Some in E as ([[] d] & _ & E); [done |]. by injection E as <- _.
    + apply option.bind_Some in E as ([[[] d] l] & _ & E); [done |]. by injection E as <- _.
  - destruct (Hq n) as [E1 _]. rewrite E1 in E. apply normalize_cases in E as [? | (rc1 & p1 & E & _)]; [done |].
    destruct HK as [HK | (_ & _ & ->)]; [| done]. pose proof (HK (set_rc s rc1 p1)) as H. rewrite E in H. destruct H as [H1 H2].
    unfold pos_ok. by rewrite H1, H2.
Qed.

(** Where it stopped for room, it stops again as long as there is none. *)
Definition stuck n (q : lzma_seq) s : Prop := forall p, step n q (set_pos_state s p) = Some (Out LZMA_OK (Some q) (set_pos_state s p)).

Lemma copy_stuck n s s' q' lc lp : dict_ok (dict s) -> at_label uncompressed_size lc lp SEQ_COPY s ->
  step n SEQ_COPY s = Some (Out LZMA_OK (Some q') s') -> q' = SEQ_COPY /\ stuck n SEQ_COPY s'.
Proof.
  intros Hd (Hr & Hr32 & Hlen) E. cbn [Lzma.step] in E. unfold step_copy in E.
  unfold MATCH_LEN_MAX, MATCH_LEN_MIN in Hlen. change (2 + LEN_SYMBOLS - 1) with 273 in Hlen.
  pose proof Hd as (Hbuf & Hby & Hsz & Hp & Hlim & Hfull).
  rewrite dict_repeat_spec in E by (done || lia). cbn [mbind option_bind] in E. set (m := Z.min (d_limit (dict s) - d_pos (dict s)) (len (inc s))) in *.
  set (w := lz_copy (Z.to_nat m) (Z.to_nat (rep0 (reps s))) (history (dict s))) in *.
  assert (length w = Z.to_nat m) as Hw by apply lz_copy_length.
  assert (bytes w) as Hbw by (apply lz_copy_bytes; [by apply history_bytes | pose proof (history_length _ Hd); lia]).
  destruct (Z.ltb_spec 0 (len (inc s) - m)); [| done]. injection E as <- <-. split; [done |]. intros p.
  assert (dict_ok (put (dict s) w)) as Hd' by (apply dict_put_ok; (done || lia)).
  cbn [Lzma.step]. unfold step_copy. cbn [set_pos_state set_len set_dict set_inc dict reps inc len].
  rewrite dict_repeat_spec; [| done | rewrite put_full by (done || lia); lia | lia | lia].
  rewrite put_limit, put_pos. replace (Z.min _ _) with 0 by lia. cbn [lz_copy Z.to_nat mbind option_bind].
  rewrite put_nil, Z.sub_0_r by done. by rewrite (proj2 (Z.ltb_lt 0 _)) by done.
Qed.

Lemma step_stop n q s s' q' lc lp pb : locals_ok n lc lp pb s -> at_label uncompressed_size lc lp q s ->
  step n q s = Some (Out LZMA_OK (Some q') s') -> s' = s /\ step n q' s = step n q s \/ stuck n q' s'.
Proof.
  intros Hs Hl E. pose proof Hs as (_ & [[Hr _] _] & _ & Hd & _). destruct (step_splits q s) as [[_ [Hw | H]] | (q1 & K & Hq & HK)].
  - right. destruct Hw as [-> | [-> | ->]]; cbn [Lzma.step] in E; unfold step_literal_write, step_shortrep in E.
    + apply option.bind_Some in E as ([[] d] & E1 & E); [| done]. injection E as <- <-. intros p. cbn [Lzma.step]. unfold step_literal_write. cbn [set_pos_state inc dict].
      by rewrite E1.
    + apply option.bind_Some in E as (b & E0 & E). apply option.bind_Some in E as ([[] d] & E1 & E); [| done]. injection E as <- <-. intros p.
      cbn [Lzma.step]. unfold step_shortrep. cbn [set_pos_state reps dict]. rewrite E0. cbn [mbind option_bind]. by rewrite E1.
    + by destruct (copy_stuck n s s' q' lc lp Hd Hl E) as [-> H].
  - pose proof (H n) as Hn. by rewrite E in Hn.
  - destruct (Hq n) as [E1 E2]. rewrite E1 in E. apply normalize_cases in E as [E | (rc1 & p1 & E & En)].
    + left. injection E as <- <-. by split.
    + right. destruct HK as [HK | (Ho & _ & ->)]; [pose proof (HK (set_rc s rc1 p1)) as H; by rewrite E in H |]. injection E as <- <-.
      intros p. cbn [Lzma.step]. unfold step_is_match. cbn [set_pos_state set_rc dict]. fold (over s). rewrite Ho.
      unfold after_loop, normalize. cbn [set_pos_state set_rc Lzma.rc Lzma.in_at]. by rewrite (rc_normalize_twice _ _ _ _ _ _ Hr En).
Qed.

(** ** Runs *)
Definition runs n (q : lzma_seq) s (r : lzma_ret * option lzma_seq * locals) : Prop := exists fuel, loop n fuel q s = Some r.

Lemma runs_step n q s s' q' r : step n q s = Some (Next s' q') -> (runs n q s r <-> runs n q' s' r).
Proof.
  intros E. split; intros [fuel H].
  - destruct fuel as [| fuel]; [done |]. exists fuel. cbn [lzma_loop] in H. by rewrite E in H.
  - exists (S fuel). cbn [lzma_loop]. by rewrite E.
Qed.

Lemma runs_out n q s ret q' s' r : step n q s = Some (Out ret q' s') -> (runs n q s r <-> r = (ret, q', s')).
Proof.
  intros E. split.
  - intros [[| fuel] H]; [done |]. cbn [lzma_loop] in H. rewrite E in H. by injection H as <-.
  - intros ->. exists 1%nat. cbn [lzma_loop]. by rewrite E.
Qed.

Lemma runs_same n q1 q2 s r : step n q1 s = step n q2 s -> runs n q1 s r -> runs n q2 s r.
Proof. intros E [[| fuel] H]; [done |]. exists (S fuel). cbn [lzma_loop] in *. by rewrite <- E. Qed.

Lemma runs_unique n q s r1 r2 : runs n q s r1 -> runs n q s r2 -> r1 = r2.
Proof.
  intros [f1 H1] [f2 H2]. revert q s f2 H1 H2. induction f1 as [| f1 IH]; intros q s f2 H1 H2; [done |]. destruct f2 as [| f2]; [done |].
  cbn [lzma_loop] in *. destruct (step n q s) as [[s' q' | ret q' s'] |]; cbn [mbind option_bind] in *; [by apply (IH q' s' f2) | congruence | done].
Qed.

(** Equal but for [pos_state], which is not kept between calls. *)
Definition same_end (r1 r2 : lzma_ret * option lzma_seq * locals) : Prop := r1.1 = r2.1 /\ exists p, r1.2 = set_pos_state r2.2 p.

Lemma same_end_refl r : same_end r r.
Proof. split; [done |]. exists (pos_state r.2). by destruct (r.2). Qed.

Definition re_enter s : locals := set_pos_state s (Z.land (d_pos (dict s)) pos_mask).

Lemma re_enter_same s : pos_ok s -> re_enter s = s.
Proof. intros H. unfold re_enter. rewrite <- H. by destruct s. Qed.
End steps.

Section runs.
  Context (inp : list Z) (n1 n2 unc lc lp pb : Z).
  Context (inp_bytes : bytes inp) (n12 : n1 <= n2) (n2_ok : n2 <= Z.of_nat (length inp)).
  Context (lc_ok : 0 <= lc) (lp_ok : 0 <= lp) (lclp_ok : lc + lp <= 4) (pb_ok : 0 <= pb <= 4).
  Local Notation step n := (step inp n unc (2 ^ pb - 1) lc (2 ^ lp - 1)).
  Local Notation runs := (runs inp unc (2 ^ pb - 1) lc (2 ^ lp - 1)).
  Implicit Types s : locals.

(** What a run that stopped left to do is what a run with more input does. *)
Lemma run_resume fuel q s q' s' r : locals_ok n1 lc lp pb s -> at_label unc lc lp q s -> pos_ok (2 ^ pb - 1) s ->
  lzma_loop inp n1 unc (2 ^ pb - 1) lc (2 ^ lp - 1) fuel q s = Some (LZMA_OK, Some q', s') -> runs n2 q s r ->
  exists r', runs n2 q' (re_enter (2 ^ pb - 1) s') r' /\ same_end r r'.
Proof.
  revert q s. induction fuel as [| fuel IH]; intros q s Hs Hl Hp E Hr; [done |]. cbn [lzma_loop] in E.
  pose proof Hs as (_ & _ & Hi & _).
  destruct (step_good inp n1 unc lc lp pb inp_bytes ltac:(lia) lc_ok lp_ok lclp_ok pb_ok q s Hs Hl) as (o & Eo & Ho). rewrite Eo in E. cbn [mbind option_bind] in E.
  destruct (step_resume inp unc (2 ^ pb - 1) lc (2 ^ lp - 1) n1 n2 q s ltac:(lia)) as [E12 | (q1 & E1 & E2)].
  - rewrite Eo in E12. symmetry in E12. destruct o as [s1 q1 | ret q1 s1].
    + destruct Ho as (Hs1 & Hl1 & _). apply (proj1 (runs_step _ _ _ _ _ _ _ _ _ _ _ E12)) in Hr.
      apply (IH q1 s1); try done. by eapply step_pos.
    + injection E as -> -> ->. pose proof Hr as Hr'. apply (proj1 (runs_out _ _ _ _ _ _ _ _ _ _ _ _ E12)) in Hr' as ->.
      assert (locals_ok n2 lc lp pb s) as Hs2 by (destruct Hs as (? & ? & ? & Hrest); split; [done |]; split; [done |]; split; [lia | done]).
      destruct (step_stop inp unc (2 ^ pb - 1) lc (2 ^ lp - 1) n2 q s s' q' lc lp pb Hs2 Hl E12) as [[-> Eq] | Hst].
      * eexists. rewrite re_enter_same by done. split; [| apply same_end_refl]. eapply runs_same; [symmetry; exact Eq | done].
      * eexists. split; [apply (proj2 (runs_out _ _ _ _ _ _ _ _ _ _ _ _ (Hst _))); reflexivity |]. split; [done |]. by exists (pos_state s'); destruct s'.
  - rewrite Eo in E1. injection E1 as ->. injection E as <- <-. exists r. rewrite re_enter_same by done.
    split; [| apply same_end_refl]. eapply runs_same; [symmetry; exact E2 | done].
Qed.
End runs.

(** ** Calls *)

(** The loop only asks whether the size is known. *)
Lemma loop_size inp n unc1 unc2 pos_mask lcb lpm fuel q s : (unc1 =? LZMA_VLI_UNKNOWN) = (unc2 =? LZMA_VLI_UNKNOWN) ->
  lzma_loop inp n unc1 pos_mask lcb lpm fuel q s = lzma_loop inp n unc2 pos_mask lcb lpm fuel q s.
Proof.
  intros E. revert q s. induction fuel as [| fuel IH]; intros q s; [done |]. cbn [lzma_loop].
  assert (step inp n unc1 pos_mask lcb lpm q s = step inp n unc2 pos_mask lcb lpm q s) as ->.
  { destruct q; try done; cbn [step]; unfold step_is_match, step_align, align_end, no_eopm; by rewrite E. }
  destruct (step inp n unc2 pos_mask lcb lpm q s) as [[s' q' | ret q' s'] |]; cbn [mbind option_bind]; [apply IH | done | done].
Qed.

Lemma read_init_resume fuel rc inp in_pos n1 n2 ret rc1 p1 : in_pos <= n1 <= n2 -> init_bytes_left rc = Z.of_nat fuel ->
  rc_read_init_loop fuel rc inp in_pos n1 = Some (ret, rc1, p1) ->
  (ret <> LZMA_OK -> rc_read_init_loop fuel rc inp in_pos n2 = Some (ret, rc1, p1)) /\
  (ret = LZMA_OK -> rc_read_init_loop fuel rc inp in_pos n2 = rc_read_init rc1 inp p1 n2).
Proof.
  revert rc in_pos. induction fuel as [| fuel IH]; intros rc in_pos Hn Hi E; cbn [rc_read_init_loop] in *; [injection E as <- <- <-; by split |].
  destruct (Z.eqb_spec in_pos n1) as [-> | Hne].
  - injection E as <- <- <-. split; [done |]. intros _. unfold rc_read_init. by replace (Z.to_nat (init_bytes_left rc)) with (S fuel) by lia.
  - rewrite (proj2 (Z.eqb_neq in_pos n2)) by lia. destruct (rd inp in_pos); cbn [mbind option_bind] in *; [| done].
    destruct (_ && _); [injection E as <- <- <-; by split |]. apply IH; [lia | cbn; lia | done].
Qed.

(** The limit that was computed is computed again. *)
Lemma decode_limit_again unc d d1 : 0 <= unc < 2 ^ 64 -> dict_ok d -> d_pos d <= d_pos d1 <= decode_limit unc d -> d_limit d1 = d_limit d ->
  decode_limit (size_left unc d d1) d1 = decode_limit unc d.
Proof.
  intros Hu (_ & _ & Hs & Hp & Hlim & _) Hd El. unfold decode_limit, no_eopm, size_left in *. rewrite El in *.
  change LZMA_VLI_UNKNOWN with (2 ^ 64 - 1) in *. rewrite (u64_small (d_limit d - d_pos d)) in * by lia.
  destruct (Z.eqb_spec unc (2 ^ 64 - 1)) as [-> | Hne]; cbn [negb andb] in *; [done |].
  rewrite u64_small by (destruct (Z.ltb_spec unc (d_limit d - d_pos d)); lia).
  destruct (Z.ltb_spec unc (d_limit d - d_pos d)), (Z.ltb_spec (unc - (d_pos d1 - d_pos d)) (d_limit d - d_pos d1)),
    (Z.eqb_spec (unc - (d_pos d1 - d_pos d)) (2 ^ 64 - 1)); cbn [negb andb]; lia.
Qed.

Definition with_sequence (c : lzma_lzma1_decoder) (q : lzma_seq) : lzma_lzma1_decoder :=
  MkLzma (c_probs c) (c_rc c) (c_state c) (c_reps c) (pos_mask c) (literal_context_bits c) (literal_pos_mask c) (uncompressed_size c) q (c_inc c).

(** Saving at the end of the second call is saving at the end of the only one. *)
Lemma save_resume c c1 d d1 ret q s p : pos_mask c1 = pos_mask c -> literal_context_bits c1 = literal_context_bits c ->
  literal_pos_mask c1 = literal_pos_mask c -> uncompressed_size c1 = size_left (uncompressed_size c) d d1 -> d_limit d1 = d_limit d ->
  (uncompressed_size c1 = LZMA_VLI_UNKNOWN <-> uncompressed_size c = LZMA_VLI_UNKNOWN) -> (q = None -> ret <> LZMA_OK) ->
  exists ret' c2 c2' d2 p2, save c d ret q (set_pos_state s p) = (ret', c2, d2, p2) /\ save c1 d1 ret q s = (ret', c2', d2, p2) /\
    c2' = with_sequence c2 (sequence c2') /\ (ret' = LZMA_OK -> c2' = c2).
Proof.
  intros Em Eb Ep Eu El Hun Hq. unfold save. cbv zeta. cbn [set_pos_state store rc in_at dict state reps inc]. rewrite Em, Eb, Ep, El.
  assert ((uncompressed_size c1 =? LZMA_VLI_UNKNOWN) = (uncompressed_size c =? LZMA_VLI_UNKNOWN)) as Ek
    by (destruct (Z.eqb_spec (uncompressed_size c1) LZMA_VLI_UNKNOWN), (Z.eqb_spec (uncompressed_size c) LZMA_VLI_UNKNOWN); tauto).
  rewrite Ek.
  assert ((if negb (uncompressed_size c =? LZMA_VLI_UNKNOWN) then u64 (uncompressed_size c1 - (d_pos (dict s) - d_pos d1)) else uncompressed_size c1) =
    (if negb (uncompressed_size c =? LZMA_VLI_UNKNOWN) then u64 (uncompressed_size c - (d_pos (dict s) - d_pos d)) else uncompressed_size c)) as ->.
  { unfold size_left in Eu. destruct (Z.eqb_spec (uncompressed_size c) LZMA_VLI_UNKNOWN); cbn [negb]; [done |]. f_equal. lia. }
  set (u := if negb _ then _ else _). destruct q as [q |]; cbn [default].
  - case_match; (do 5 eexists; split; [reflexivity |]; split; [reflexivity |]; by split).
  - rewrite (bool_decide_eq_false_2 (ret = LZMA_OK)) by auto. rewrite !andb_false_r. cbn [andb].
    destruct (bool_decide (ret = LZMA_STREAM_END)); (do 5 eexists; split; [reflexivity |]; split; [reflexivity |]); (split; [done |]);
      [by destruct (rc_is_finished _) | intros E; by destruct (Hq eq_refl)].
Qed.

(** Two calls and one call give the same. *)
Definition same_answer (one two : option (lzma_ret * lzma_lzma1_decoder * lzma_dict * Z)) : Prop :=
  exists ret c c' d p, one = Some (ret, c, d, p) /\ two = Some (ret, c', d, p) /\
    c' = with_sequence c (sequence c') /\ (ret = LZMA_OK -> c' = c).

Section calls.
  Context (inp : list Z) (n1 n2 lc lp pb : Z).
  Context (inp_bytes : bytes inp) (n12 : n1 <= n2) (n2_ok : n2 <= Z.of_nat (length inp)).
  Local Notation run n c := (lzma_loop inp n (uncompressed_size c) (pos_mask c) (literal_context_bits c) (literal_pos_mask c)).

Lemma answer_same_refl c d in_pos : coder_ok lc lp pb c d -> dict_ok d -> 0 <= in_pos <= n2 ->
  same_answer (lzma_decode c d inp in_pos n2) (lzma_decode c d inp in_pos n2).
Proof.
  intros Hc Hd Hi. destruct (decode_total inp n2 lc lp pb inp_bytes n2_ok c d in_pos Hc Hd Hi) as (ret & c' & d' & p & -> & _).
  exists ret, c', c', d', p. split; [done |]. split; [done |]. split; [by destruct c' | done].
Qed.

(** The part after the range decoder was initialised. *)
Lemma run_twice c d in_pos q' s1 c1 d1 p1 : coder_ok lc lp pb c d -> init_bytes_left (c_rc c) = 0 -> dict_ok d -> 0 <= in_pos <= n1 ->
  let local := set_limit d (decode_limit (uncompressed_size c) d) in
  run n1 c (decode_fuel local) (sequence c) (enter c local in_pos) = Some (LZMA_OK, Some q', s1) ->
  save c d LZMA_OK (Some q') s1 = (LZMA_OK, c1, d1, p1) ->
  same_answer ('(ret, q, s) ← run n2 c (decode_fuel local) (sequence c) (enter c local in_pos); Some (save c d ret q s))
              (lzma_decode c1 d1 inp p1 n2).
Proof.
  intros Hc H0 Hd Hi local E1 Es.
  pose proof Hc as [(H1 & H2 & H3 & H4) (Hm & Hlc & Hlp) Hu _ _ _ _ _].
  destruct (run_ok inp n1 lc lp pb inp_bytes ltac:(lia) c d in_pos Hc H0 Hd Hi _ (le_n _)) as (? & ? & ? & E1' & Hs1 & He1 & Hi1 & Ho1).
  cbn [enter dict] in E1'. fold local in E1'. rewrite E1 in E1'. injection E1' as <- <- <-.
  destruct (saved_ok inp n1 lc lp pb c d LZMA_OK (Some q') s1 Hc Hd Hs1 He1 Ho1) as (ret' & c1' & Es' & He1' & Hret & Hsz & Hk).
  rewrite Es in Es'. injection Es' as <- <- -> ->. destruct Hret as [(_ & Hc1 & _) | [[? _] | ?]]; [| done | done].
  pose proof (extends_pos _ _ He1') as Hp1. cbn [set_limit d_pos] in Hp1. set (d1 := set_limit (dict s1) (d_limit d)) in *.
  assert (dict_ok d1) as Hd1.
  { destruct He1' as (w & Hw & Hl & ->). by apply dict_put_ok. }
  destruct (size_left_range c d (dict s1) Hu ltac:(lia) ltac:(lia)) as [Hr Hun].
  destruct (save_eq c d LZMA_OK (Some q') s1 Hr) as (rc' & Es' & _ & Hrc). rewrite Es in Es'. injection Es' as Eret Ec1. rewrite (Hrc (eq_sym Eret)) in Ec1.
  destruct (run_ok inp n2 lc lp pb inp_bytes n2_ok c d in_pos Hc H0 Hd ltac:(lia) _ (le_n _)) as (r2 & q2 & s2 & E2 & Hs2 & He2 & Hi2 & Ho2).
  cbn [enter dict] in E2. fold local in E2. rewrite E2. cbn [mbind option_bind].
  assert (pos_ok (2 ^ pb - 1) (enter c local in_pos)) as Hpe by (unfold pos_ok; cbn [enter pos_state dict]; by rewrite Hm).
  destruct (decode_limit_ok (uncompressed_size c) d ltac:(lia) Hd) as (Hdl & Hl & _).
  destruct (enter_ok inp n1 lc lp pb c d _ in_pos Hc H0 Hdl Hi) as [Hse Hle].
  rewrite Hm, Hlc, Hlp in *.
  destruct (run_resume inp n1 n2 (uncompressed_size c) lc lp pb inp_bytes n12 n2_ok H1 H2 H3 H4 _ _ _ _ _ (r2, q2, s2) Hse Hle Hpe E1) as (r' & Hr' & Hsame);
    [by exists (decode_fuel local) |].
  pose proof Hs1 as (_ & [_ Hi0] & Hin1 & _).
  assert (enter c1 (set_limit d1 (decode_limit (uncompressed_size c1) d1)) (in_at s1) = re_enter (2 ^ pb - 1) s1) as Een.
  { destruct (extends_limited _ _ _ Hl He1) as [_ Hp']. rewrite Hsz. change (size_left (uncompressed_size c) d (dict s1)) with (size_left (uncompressed_size c) d d1).
    rewrite decode_limit_again; [| done | done | cbn; lia | done].
    assert (d_limit (dict s1) = decode_limit (uncompressed_size c) d) as <- by (destruct He1 as (w & _ & _ & ->); by rewrite put_limit).
    unfold enter, re_enter, set_pos_state, d1. rewrite Ec1. cbn. by destruct (dict s1). }
  destruct (run_ok inp n2 lc lp pb inp_bytes n2_ok c1 d1 (in_at s1) Hc1 ltac:(by rewrite Ec1) Hd1 ltac:(lia) _ (le_n _)) as (r3 & q3 & s3 & E3 & _ & _ & _ & Ho3).
  assert (lzma_decode c1 d1 inp (in_at s1) n2 = Some (save c1 d1 r3 q3 s3)) as ->.
  { unfold lzma_decode, rc_read_init. assert (init_bytes_left (c_rc c1) = 0) as -> by (by rewrite Ec1). change (Z.to_nat 0) with O. cbn [rc_read_init_loop mbind option_bind].
    rewrite bool_decide_eq_true_2 by done. cbn [negb].
    assert (set_coder_rc c1 (c_rc c1) = c1) as -> by (by destruct c1). cbn [enter dict] in E3. cbv zeta. by rewrite E3. }
  assert ((uncompressed_size c1 =? LZMA_VLI_UNKNOWN) = (uncompressed_size c =? LZMA_VLI_UNKNOWN)) as Ek.
  { rewrite Hsz. destruct (Z.eqb_spec (size_left (uncompressed_size c) d (dict s1)) LZMA_VLI_UNKNOWN), (Z.eqb_spec (uncompressed_size c) LZMA_VLI_UNKNOWN); tauto. }
  rewrite (loop_size _ _ _ _ _ _ _ _ _ _ Ek), Een in E3.
  assert (r' = (r3, q3, s3)) as ->.
  { eapply runs_unique; [exact Hr' |]. eexists. rewrite <- E3. rewrite Ec1. reflexivity. }
  destruct Hsame as [Eq [p Es2]]. cbn [fst snd] in Eq, Es2. injection Eq as -> ->. rewrite Es2.
  destruct (save_resume c c1 d d1 r3 q3 s3 p) as (ret' & c2 & c2' & d2 & p2 & E & E' & Hq & Hok); [by rewrite Ec1, Hm | by rewrite Ec1, Hlc | by rewrite Ec1, Hlp | done | done | by rewrite Hsz | |].
  { intros ->. cbn [ended] in Ho3. intros ->. by destruct Ho3 as [? | [? _]]. }
  exists ret', c2, c2', d2, p2. by rewrite E, E'.
Qed.
End calls.

(** C30: A call that asked for more, because the input or the room had ended, can be
    taken up with more input: the two calls answer as one call on all of the
    input does, with the same dictionary, position and coder (but for the label,
    which a call that ends for good does not store). *)
Theorem lzma_decode_resume inp lc lp pb c d in_pos n1 n2 c1 d1 p1 : bytes inp -> 0 <= in_pos <= n1 -> n1 <= n2 -> n2 <= Z.of_nat (length inp) ->
  coder_ok lc lp pb c d -> dict_ok d -> lzma_decode c d inp in_pos n1 = Some (LZMA_OK, c1, d1, p1) ->
  same_answer (lzma_decode c d inp in_pos n2) (lzma_decode c1 d1 inp p1 n2).
Proof.
  intros Hb Hi H12 Hn Hc Hd E. pose proof Hc as [_ _ _ Hini Hrc _ _ _].
  destruct (read_init_ok (Z.to_nat (init_bytes_left (c_rc c))) (c_rc c) inp in_pos n1 Hb Hi ltac:(lia) Hrc ltac:(lia))
    as (r & rc1 & q1 & E1 & Hrc1 & Hq1 & Hi1 & Hr).
  destruct (read_init_resume (Z.to_nat (init_bytes_left (c_rc c))) (c_rc c) inp in_pos n1 n2 _ _ _ ltac:(lia) ltac:(lia) E1) as [Hend Hok].
  assert (coder_ok lc lp pb (set_coder_rc c rc1) d) as Hc1 by (apply set_coder_rc_ok; (done || lia)).
  unfold lzma_decode, rc_read_init in E. rewrite E1 in E. unfold lzma_decode at 1, rc_read_init at 1. cbn [mbind option_bind] in E.
  destruct (decide (r = LZMA_STREAM_END)) as [-> | Hne].
  - rewrite Hend by done. cbn [mbind option_bind]. rewrite bool_decide_eq_true_2 in E |- * by done. cbn [negb] in E |- *. cbv zeta in E |- *.
    destruct Hr as [[? _] | [? | [_ H0]]]; [done | done |].
    set (c0 := set_coder_rc c rc1) in *.
    apply option.bind_Some in E as ([[r1 q] s1] & Erun & Es). injection Es as Es.
    destruct (run_ok inp n1 lc lp pb Hb ltac:(lia) c0 d q1 Hc1 H0 Hd ltac:(lia) _ (le_n _)) as (? & ? & ? & E' & Hs & He & _ & Ho).
    cbn [enter dict] in E'. rewrite Erun in E'. injection E' as <- <- <-.
    destruct (saved_ok inp n1 lc lp pb c0 d r1 q s1 Hc1 Hd Hs He Ho) as (ret' & c' & Es' & Hex & _ & _ & Hk).
    pose proof (extends_pos _ _ Hex) as Hpos. cbn [set_limit d_pos] in Hpos. pose proof Hc1 as [_ _ Hu _ _ _ _ _].
    destruct (size_left_range c0 d (dict s1) Hu ltac:(lia) ltac:(lia)) as [Hr' _].
    destruct (save_eq c0 d r1 q s1 Hr') as (rc' & Es2 & _). rewrite Es in Es2. injection Es2 as Eret _ _ _.
    destruct (save_ret_cases n1 lc lp c0 d r1 q s1 Ho) as [(_ & q' & -> & _) | [[Eq _] | Eq]]; [| by rewrite <- Eret in Eq | by rewrite <- Eret in Eq].
    destruct Ho as [-> _]. apply (run_twice inp n1 n2 lc lp pb Hb H12 Hn c0 d q1 q' s1); (done || lia).
  - rewrite bool_decide_eq_false_2 in E by done. injection E as -> <- <- <-. rewrite Hok by done.
    exact (answer_same_refl inp n2 lc lp pb Hb Hn _ d q1 Hc1 Hd ltac:(lia)).
Qed.

(** ** A stream

    The words of the program's name, some letters, and the end marker: 71 bytes in
    34, with literals, a match and repeated matches of all kinds. *)
Definition sample : list Z :=
  [0; 48; 152; 136; 167; 80; 209; 58; 154; 171; 240; 70; 230; 153; 207; 205; 252; 119; 106; 90; 60; 105; 122; 217; 148; 34; 91; 69; 123;
   255; 254; 73; 176; 0].
Definition sample_options : lzma_options_lzma := MkOptions 4096 [] 3 0 2.
Definition sample_dict : lzma_dict := MkDict (replicate 4096 0) 0 0 4096 4096 false.
Definition blank_coder : lzma_lzma1_decoder :=
  MkLzma ∅ rc_reset STATE_LIT_LIT (MkReps 0 0 0 0) 0 0 0 LZMA_VLI_UNKNOWN SEQ_IS_MATCH (MkInc None 0 0 0 0).
Definition sample_coder : lzma_lzma1_decoder := default blank_coder (lzma_decoder_reset blank_coder sample_options).

Example sample_decoded :
  ('(ret, _, d, p) ← lzma_decode sample_coder sample_dict sample 0 34; Some (ret, take (Z.to_nat (d_pos d)) (d_buf d), p)) =
  Some (LZMA_STREAM_END,
        [97; 98; 99; 97; 98; 99; 97; 98; 99; 97; 98; 100; 32; 66; 105; 111; 115; 112; 104; 101; 114; 101; 32; 66; 105; 111; 115; 112; 104; 101;
         114; 101; 32; 97; 97; 97; 97; 97; 97; 97; 97; 97; 97; 97; 97; 97; 97; 97; 97; 97; 97; 97; 97; 97; 97; 97; 97; 97; 97; 97; 97; 97; 97; 97;
         32; 97; 98; 99; 97; 98; 99], 34).
Proof. vm_compute. reflexivity. Qed.

Lemma sample_bytes : bytes sample.
Proof. apply (bool_decide_unpack _). vm_compute. exact I. Qed.

Lemma sample_dict_ok : dict_ok sample_dict.
Proof.
  unfold dict_ok, sample_dict. cbn [d_buf d_pos d_full d_limit d_size]. rewrite length_replicate.
  split; [reflexivity |]. split; [apply Forall_replicate; unfold is_byte; lia | lia].
Qed.

Lemma sample_coder_ok : coder_ok 3 0 2 sample_coder sample_dict.
Proof.
  assert (exists c, lzma_decoder_reset blank_coder sample_options = Some c /\ coder_ok 3 0 2 c sample_dict) as (c & E & Hc).
  { destruct (lzma_decoder_reset_ok sample_options ltac:(done) ltac:(done) ltac:(done) ltac:(done) blank_coder sample_dict sample_dict_ok)
      as (c & E & Hc & _); [change (0 <= 2 ^ 64 - 1 < 2 ^ 64); lia |]. exists c. exact (conj E Hc). }
  unfold sample_coder. rewrite E. exact Hc.
Qed.

(** The first half of it. *)
Local Notation sample_first := (lzma_decode sample_coder sample_dict sample 0 17).

Lemma sample_first_ok : exists c1 d1 p1, sample_first = Some (LZMA_OK, c1, d1, p1).
Proof.
  assert ((fun r => r.1.1.1) <$> sample_first = Some LZMA_OK) as E by (vm_compute; reflexivity).
  destruct sample_first as [[[[r c1] d1] p1] |]; [| done]. injection E as ->. by exists c1, d1, p1.
Qed.

Lemma lzma_decode_safe_witness :
  exists ret c' d' p, sample_first = Some (ret, c', d', p) /\ extends sample_dict d' /\ 0 <= p <= 17.
Proof.
  destruct (lzma_decode_safe sample 17 3 0 2 sample_coder sample_dict 0 sample_bytes ltac:(done) ltac:(done) sample_coder_ok sample_dict_ok)
    as (ret & c' & d' & p & E & He & _ & Hp & _).
  exists ret, c', d', p. split; [exact E |]. by split.
Defined.

Lemma lzma_decode_resume_witness :
  exists c1 d1 p1, sample_first = Some (LZMA_OK, c1, d1, p1) /\
    same_answer (lzma_decode sample_coder sample_dict sample 0 34) (lzma_decode c1 d1 sample p1 34).
Proof.
  assert (0 <= 0 <= 17 /\ 17 <= 34 /\ 34 <= Z.of_nat (length sample)) as (H1 & H2 & H3) by (cbn; lia).
  destruct sample_first_ok as (c1 & d1 & p1 & E). exists c1, d1, p1. split; [exact E |].
  exact (lzma_decode_resume sample 3 0 2 sample_coder sample_dict 0 17 34 c1 d1 p1 sample_bytes H1 H2 H3 sample_coder_ok sample_dict_ok E).
Defined.
