(* ===== verification/LzDecoder.v ===== *)
(** * liblzma: the wrapper of the LZ decoders

    lz/lz_decoder.c: a coder of a chain whose core, LZMA or LZMA2, decodes into a
    dictionary; the wrapper tells it how far to write, copies what it wrote to the
    output of the application, and starts again at the beginning of the dictionary
    when that is full. The core is the interface [LzCore]; its two implementations
    are Lzma.v and Lzma2.v. *)

From Stdlib Require Import ZArith Lia.
From stdpp Require Import base list option.
From S2P Require Import Prelude LzmaBase Coder LzDict.
Local Open Scope Z_scope.

(** ** The code *)
Definition LZMA_BUFFER_SIZE : Z := 4096.

Record lz_coder {lz_t : Type} := MkLz {
  lz_dict : lzma_dict; lz : lz_t; next_finished : bool; this_finished : bool; temp_pos : Z; temp_size : Z; temp_buffer : list Z }.
Arguments lz_coder : clear implicits.

Definition set_pos (d : lzma_dict) (pos : Z) : lzma_dict := MkDict (d_buf d) pos (d_full d) (d_limit d) (d_size d) (need_reset d).

Definition lz_decoder_reset (d : lzma_dict) : option lzma_dict :=
  buf ← wr (d_buf d) (u64 (d_size d - 1)) 0;
  Some (MkDict buf 0 0 (d_limit d) (d_size d) false).

Section decoder.
  Context {lz_t : Type} (lz_code : lz_t -> lzma_dict -> list Z -> Z -> Z -> option (lzma_ret * lz_t * lzma_dict * Z)).
  Context {next : Type} (next_code : next -> io -> lzma_action -> option (lzma_ret * next * io)).
  Notation coder := (lz_coder lz_t).

(** The dictionary for the next call of the core: it wraps if it is full, and its
    limit is what there is room for. *)
Definition wrap_dict (d : lzma_dict) : lzma_dict := if d_pos d =? d_size d then set_pos d 0 else d.
Definition limit_dict (d : lzma_dict) (out_avail : Z) : lzma_dict := set_limit d (d_pos d + Z.min out_avail (u64 (d_size d - d_pos d))).

Fixpoint decode_buffer (fuel : nat) (c : lz_t) (d : lzma_dict) (o : io) : option (lzma_ret * lz_t * lzma_dict * io) :=
  match fuel with
  | O => None
  | S fuel =>
      let d := wrap_dict d in
      let dict_start := d_pos d in
      let out_avail := u64 (out_size o - out_pos o) in
      '(ret, c, d, p) ← lz_code c (limit_dict d out_avail) (inp o) (in_pos o) (in_size o);
      let copy_size := u64 (d_pos d - dict_start) in
      assert (copy_size <=? out_avail) ;;
      bs ← rd_bytes (d_buf d) dict_start (Z.to_nat copy_size);
      out' ← wr_bytes (out o) (out_pos o) bs;
      let o := MkIo (inp o) p out' (out_pos o + copy_size) in
      if need_reset d then
        d ← lz_decoder_reset d;
        if negb (bool_decide (ret = LZMA_OK)) || (out_pos o =? out_size o) then Some (ret, c, d, o) else decode_buffer fuel c d o
      else if negb (bool_decide (ret = LZMA_OK)) || (out_pos o =? out_size o) || (d_pos d <? d_size d) then Some (ret, c, d, o)
      else decode_buffer fuel c d o
  end.

(** Each round but the last reads a byte or writes one. *)
Definition buffer_fuel (o : io) : nat := Z.to_nat (in_size o - in_pos o + (out_size o - out_pos o) + 1).

Definition set_core (c : coder) (d : lzma_dict) (x : lz_t) : coder :=
  MkLz _ d x (next_finished c) (this_finished c) (temp_pos c) (temp_size c) (temp_buffer c).
Definition set_temp (c : coder) (pos size : Z) (buffer : list Z) : coder :=
  MkLz _ (lz_dict c) (lz c) (next_finished c) (this_finished c) pos size buffer.
Definition set_next_finished (c : coder) : coder :=
  MkLz _ (lz_dict c) (lz c) true (this_finished c) (temp_pos c) (temp_size c) (temp_buffer c).
Definition set_this_finished (c : coder) : coder :=
  MkLz _ (lz_dict c) (lz c) (next_finished c) true (temp_pos c) (temp_size c) (temp_buffer c).

(** Filling the temporary buffer from the next coder; [Some ret] is an early
    return. *)
Definition refill_temp (c : coder) (nx : next) (o : io) (action : lzma_action) : option (option lzma_ret * coder * next * io) :=
  if negb (next_finished c) && (temp_pos c =? temp_size c) then
    let c := set_temp c 0 0 (temp_buffer c) in
    '(ret, nx, b) ← next_code nx (MkIo (inp o) (in_pos o) (temp_buffer c) 0) action;
    let c := set_temp c 0 (out_pos b) (out b) in
    let o := MkIo (inp o) (in_pos b) (out o) (out_pos o) in
    if bool_decide (ret = LZMA_STREAM_END) then Some (None, set_next_finished c, nx, o)
    else if negb (bool_decide (ret = LZMA_OK)) || (temp_size c =? 0) then Some (Some ret, c, nx, o)
    else Some (None, c, nx, o)
  else Some (None, c, nx, o).

(** The loop of a coder that is not the last of its chain. *)
Fixpoint lz_decode_loop (fuel : nat) (c : coder) (nx : next) (o : io) (action : lzma_action) : option (lzma_ret * coder * next * io) :=
  match fuel with
  | O => None
  | S fuel =>
      if negb (out_pos o <? out_size o) then Some (LZMA_OK, c, nx, o)
      else
        '(early, c, nx, o) ← refill_temp c nx o action;
        match early with
        | Some ret => Some (ret, c, nx, o)
        | None =>
            if this_finished c then
              Some (if negb (temp_size c =? 0) then LZMA_DATA_ERROR else if next_finished c then LZMA_STREAM_END else LZMA_OK, c, nx, o)
            else
              src ← rd_bytes (temp_buffer c) 0 (Z.to_nat (temp_size c));
              let b := MkIo src (temp_pos c) (out o) (out_pos o) in
              '(ret, x, d, b) ← decode_buffer (buffer_fuel b) (lz c) (lz_dict c) b;
              let c := set_temp (set_core c d x) (in_pos b) (temp_size c) (temp_buffer c) in
              let o := MkIo (inp o) (in_pos o) (out b) (out_pos b) in
              if bool_decide (ret = LZMA_STREAM_END) then lz_decode_loop fuel (set_this_finished c) nx o action
              else if negb (bool_decide (ret = LZMA_OK)) then Some (ret, c, nx, o)
              else if next_finished c && (out_pos o <? out_size o) then Some (LZMA_DATA_ERROR, c, nx, o)
              else lz_decode_loop fuel c nx o action
        end
  end.

(** [has_next] is [coder->next.code != NULL]. *)
Definition lz_decode (fuel : nat) (has_next : bool) (c : coder) (nx : next) (o : io) (action : lzma_action)
    : option (lzma_ret * coder * next * io) :=
  if negb has_next then
    '(ret, x, d, o) ← decode_buffer (buffer_fuel o) (lz c) (lz_dict c) o;
    Some (ret, set_core c d x, nx, o)
  else lz_decode_loop fuel c nx o action.

(** [lz_init] answers for the core, and gives the options: the size of the
    dictionary and a preset one. [allocs] are the answers of the allocations: of the
    structure, and the memory of the dictionary. *)
Definition round_dict_size (size : Z) : option Z :=
  let size := if size <? 4096 then 4096 else size in
  if 2 ^ 64 - 1 - 15 <? size then None else Some (Z.land (u64 (size + 15)) (u64 (Z.lnot 15))).

Definition preset (d : lzma_dict) (bytes : list Z) : option lzma_dict :=
  let copy_size := Z.min (Z.of_nat (length bytes)) (d_size d) in
  bs ← rd_bytes bytes (Z.of_nat (length bytes) - copy_size) (Z.to_nat copy_size);
  buf ← wr_bytes (d_buf d) 0 bs;
  Some (MkDict buf copy_size copy_size (d_limit d) (d_size d) (need_reset d)).

Definition lzma_lz_decoder_init (c : option coder) (alloc : option coder) (lz_init : lz_t -> lzma_ret * lz_t * Z * list Z)
    (alloc_dict : Z -> option (list Z)) (next_init : lzma_ret) : option (lzma_ret * option coder) :=
  match c, alloc with
  | None, None => Some (LZMA_MEM_ERROR, None)
  | Some c, _ | None, Some c =>
      let '(ret, x, dict_size, preset_dict) := lz_init (lz c) in
      if negb (bool_decide (ret = LZMA_OK)) then Some (ret, Some (set_core c (lz_dict c) x))
      else
        match round_dict_size dict_size with
        | None => Some (LZMA_MEM_ERROR, Some (set_core c (lz_dict c) x))
        | Some size =>
            let d := lz_dict c in
            match (if negb (d_size d =? size) then alloc_dict size else Some (d_buf d)) with
            | None => Some (LZMA_MEM_ERROR, Some (set_core c (MkDict [] (d_pos d) (d_full d) (d_limit d) (d_size d) (need_reset d)) x))
            | Some buf =>
                d ← lz_decoder_reset (MkDict buf (d_pos d) (d_full d) (d_limit d) size (need_reset d));
                d ← (if (length preset_dict =? 0)%nat then Some d else preset d preset_dict);
                Some (next_init, Some (MkLz _ d x false false 0 0 (temp_buffer c)))
            end
        end
  end.

Definition lzma_lz_decoder_uncompressed (set_uncompressed : lz_t -> Z -> lz_t) (c : coder) (uncompressed_size : Z) : coder :=
  set_core c (lz_dict c) (set_uncompressed (lz c) uncompressed_size).

Definition lzma_lz_decoder_memusage (sizeof_coder dictionary_size : Z) : Z := u64 (sizeof_coder + dictionary_size).
End decoder.

(** ** What the wrapper asks of the core

    [ok c d]: the core can be called with the dictionary [d]. It matters only how
    much history there is. *)
Class LzCore {lz_t : Type} (code : lz_t -> lzma_dict -> list Z -> Z -> Z -> option (lzma_ret * lz_t * lzma_dict * Z))
    (ok : lz_t -> lzma_dict -> Prop) : Prop := {
  core_full c d1 d2 : d_full d1 = d_full d2 -> ok c d1 -> ok c d2;
  core_answers c d inp in_pos in_size : ok c d -> dict_ok d -> need_reset d = false -> bytes inp -> 0 <= in_pos <= in_size ->
    in_size <= Z.of_nat (length inp) -> in_size < 2 ^ 64 -> exists ret c' w (reset : bool) in_pos',
      code c d inp in_pos in_size = Some (ret, c', (if reset then dict_reset (put d w) else put d w), in_pos') /\
      bytes w /\ d_pos d + Z.of_nat (length w) <= d_limit d /\ in_pos <= in_pos' <= in_size /\
      (if reset then ret = LZMA_OK /\ in_pos < in_pos' /\ forall d2, d_full d2 = 0 -> ok c' d2
       else ret = LZMA_OK -> ok c' (put d w) /\ (in_pos' = in_size \/ d_pos d + Z.of_nat (length w) = d_limit d))
}.

(** ** Calls *)

(** A dictionary between calls; its limit does not matter. *)
Definition dict_wf (d : lzma_dict) : Prop := dict_ok (set_limit d (d_pos d)) /\ need_reset d = false.

Lemma dict_wf_ok d : dict_ok d -> need_reset d = false -> dict_wf d.
Proof.
  intros (H1 & H2 & H3 & H4 & H5 & H6) Hn. split; [| done]. unfold dict_ok. cbn. split; [done |]. split; [done |]. lia.
Qed.

Lemma wrap_wf d : dict_wf d -> dict_wf (wrap_dict d) /\ d_full (wrap_dict d) = d_full d /\ 0 <= d_pos (wrap_dict d) < d_size (wrap_dict d).
Proof.
  intros [(H1 & H2 & H3 & H4 & H5 & H6) Hn]. cbn in *. unfold wrap_dict. destruct (Z.eqb_spec (d_pos d) (d_size d)); cbn.
  - split; [| lia]. split; [| done]. unfold dict_ok. cbn. split; [done |]. split; [done |]. lia.
  - split; [| lia]. split; [| done]. unfold dict_ok. cbn. split; [done |]. split; [done |]. lia.
Qed.

Lemma limit_dict_ok d n : dict_wf d -> 0 <= n -> dict_ok (limit_dict d n) /\ d_limit (limit_dict d n) = d_pos d + Z.min n (d_size d - d_pos d).
Proof.
  intros [(H1 & H2 & H3 & H4 & H5 & H6) _] Hn. cbn in *. unfold limit_dict. rewrite u64_small by lia. cbn. split; [| done].
  unfold dict_ok. cbn. split; [done |]. split; [done |]. lia.
Qed.

(** A reset empties the dictionary. *)
Lemma lz_decoder_reset_ok d : dict_ok d -> exists d', lz_decoder_reset d = Some d' /\ dict_wf d' /\ d_full d' = 0 /\ d_pos d' = 0 /\ d_size d' = d_size d.
Proof.
  intros (H1 & H2 & H3 & H4 & H5 & H6). unfold lz_decoder_reset. rewrite u64_small by lia. unfold wr.
  rewrite (proj2 (Z.leb_le _ _)), (proj2 (Z.ltb_lt _ _)) by lia. cbn [mbind option_bind]. eexists. split; [reflexivity |].
  split; [| done]. split; [| done]. unfold dict_ok. cbn. rewrite length_insert. split; [done |].
  split; [apply Forall_insert; [done | unfold is_byte; lia] | lia].
Qed.

Lemma put_written d w : dict_ok d -> d_pos d + Z.of_nat (length w) <= d_size d ->
  rd_bytes (d_buf (put d w)) (d_pos d) (length w) = Some w.
Proof.
  intros (H1 & H2 & H3 & H4 & H5 & H6) Hw. rewrite put_buf. apply rd_bytes_app; [rewrite length_take; lia | done].
Qed.

Section calls.
  Context {lz_t : Type} (code : lz_t -> lzma_dict -> list Z -> Z -> Z -> option (lzma_ret * lz_t * lzma_dict * Z)).
  Context (ok : lz_t -> lzma_dict -> Prop) {C : LzCore code ok}.

(** What a call puts out is what calls of the core write to the dictionary, one
    after the other, each with the dictionary the one before left, wrapped where it
    was full and emptied where the core asked for it. *)
Inductive core_run (inp : list Z) (in_size : Z) : lz_t -> lzma_dict -> Z -> list Z -> lzma_ret -> lz_t -> lzma_dict -> Z -> Prop :=
  | core_last c d n p ret c' w p' : code c (limit_dict (wrap_dict d) n) inp p in_size = Some (ret, c', put (limit_dict (wrap_dict d) n) w, p') ->
      core_run inp in_size c d p w ret c' (put (limit_dict (wrap_dict d) n) w) p'
  | core_reset c d n p ret c' w d' p' : code c (limit_dict (wrap_dict d) n) inp p in_size = Some (ret, c', dict_reset (put (limit_dict (wrap_dict d) n) w), p') ->
      lz_decoder_reset (dict_reset (put (limit_dict (wrap_dict d) n) w)) = Some d' -> core_run inp in_size c d p w ret c' d' p'
  | core_more c d p w1 c1 d1 p1 w2 ret c2 d2 p2 : core_run inp in_size c d p w1 LZMA_OK c1 d1 p1 ->
      core_run inp in_size c1 d1 p1 w2 ret c2 d2 p2 -> core_run inp in_size c d p (w1 ++ w2) ret c2 d2 p2.

Definition buffer_done (c : lz_t) (d : lzma_dict) (o : io) (r : lzma_ret * lz_t * lzma_dict * io) : Prop :=
  let '(ret, c', d', o') := r in
  exists w, moved o o' w /\ bytes w /\ dict_wf d' /\ d_size d' = d_size d /\ core_run (inp o) (in_size o) c d (in_pos o) w ret c' d' (in_pos o') /\
    (ret = LZMA_OK -> ok c' d' /\ (in_pos o' = in_size o \/ out_pos o' = out_size o)).

(** One round. *)
Lemma round_ok c d o : ok c d -> dict_wf d -> io_ok o -> bytes (inp o) ->
  let n := u64 (out_size o - out_pos o) in
  let d0 := limit_dict (wrap_dict d) n in
  exists ret c' w (reset : bool) p, code c d0 (inp o) (in_pos o) (in_size o) = Some (ret, c', (if reset then dict_reset (put d0 w) else put d0 w), p) /\
    bytes w /\ Z.of_nat (length w) <= Z.min n (d_size d0 - d_pos d0) /\ in_pos o <= p <= in_size o /\
    (if reset then ret = LZMA_OK /\ in_pos o < p /\ forall d2, d_full d2 = 0 -> ok c' d2
     else ret = LZMA_OK -> ok c' (put d0 w) /\ (p = in_size o \/ Z.of_nat (length w) = Z.min n (d_size d0 - d_pos d0))) /\
    exists out', wr_bytes (out o) (out_pos o) w = Some out' /\ moved o (MkIo (inp o) p out' (out_pos o + Z.of_nat (length w))) w.
Proof.
  intros Hok Hd Ho Hb n d0. destruct (wrap_wf d Hd) as (Hw & Hf & Hp). pose proof Ho as (O1 & O2 & O3 & O4).
  assert (n = out_size o - out_pos o) as En by (apply u64_small; lia).
  destruct (limit_dict_ok (wrap_dict d) n Hw ltac:(lia)) as [Hd0 El]. fold d0 in Hd0, El.
  destruct (core_answers c d0 (inp o) (in_pos o) (in_size o)) as (ret & c' & w & reset & p & E & Hbw & Hl & Hpp & Hr); try done.
  { by apply (core_full c d). } { apply Hw. }
  assert (d_size d0 = d_size (wrap_dict d) /\ d_pos d0 = d_pos (wrap_dict d)) as [Es Ep] by done.
  exists ret, c', w, reset, p. split; [exact E |]. split; [done |]. split; [lia |]. split; [done |]. split.
  { destruct reset; [done |]. intros Hret. destruct (Hr Hret) as [H1 [H2 | H2]]; (split; [done |]); [by left | right; lia]. }
  eexists. rewrite wr_bytes_seg by (unfold out_size in *; lia). split; [reflexivity |].
  unfold moved, in_size, out_size in *. cbn [inp in_pos out out_pos]. rewrite !length_app, length_take, length_drop.
  split_and!; try done; try lia. rewrite app_assoc, take_app_length'; [done |]. rewrite length_app, length_take. lia.
Qed.

Lemma dict_reset_ok d : dict_ok d -> dict_ok (dict_reset d).
Proof. done. Qed.

(** What is common to the rounds that go on and those that do not. *)
Lemma buffer_more c d o w c1 d1 o1 r : moved o o1 w -> bytes w -> io_ok o -> d_size d1 = d_size d ->
  core_run (inp o) (in_size o) c d (in_pos o) w LZMA_OK c1 d1 (in_pos o1) -> buffer_done c1 d1 o1 r -> buffer_done c d o r.
Proof.
  destruct r as [[[ret c2] d2] o2]. intros Hm Hw Ho Hs Hr (w2 & Hm2 & Hw2 & Hd2 & Hs2 & Hr2 & Hok). exists (w ++ w2).
  pose proof Hm as (E1 & _ & E3 & _). unfold in_size, out_size in *. rewrite E1, E3 in *.
  split; [eapply moved_trans; [apply Ho | exact Hm | exact Hm2] |]. split; [by apply Forall_app |]. split; [done |]. split; [congruence |].
  split; [by eapply core_more |]. done.
Qed.

Lemma decode_buffer_ok fuel c d o : ok c d -> dict_wf d -> io_ok o -> bytes (inp o) ->
  in_size o - in_pos o + (out_size o - out_pos o) < Z.of_nat fuel ->
  exists r, decode_buffer code fuel c d o = Some r /\ buffer_done c d o r.
Proof.
  revert c d o. induction fuel as [| fuel IH]; intros c d o Hok Hd Ho Hb Hf; [destruct Ho; lia |]. cbn [decode_buffer]. cbv zeta.
  destruct (round_ok c d o Hok Hd Ho Hb) as (ret & c1 & w & reset & p & E & Hw & Hl & Hp & Hr & out1 & Ewr & Hm).
  set (n := u64 (out_size o - out_pos o)) in *. set (d0 := limit_dict (wrap_dict d) n) in *. rewrite E. cbn [mbind option_bind].
  destruct (wrap_wf d Hd) as (Hwf & Hfull & Hpos). pose proof Ho as (O1 & O2 & O3 & O4).
  assert (n = out_size o - out_pos o) as En by (apply u64_small; lia).
  destruct (limit_dict_ok (wrap_dict d) n Hwf ltac:(lia)) as [Hd0 El]. fold d0 in Hd0, El.
  assert (d_size d0 = d_size (wrap_dict d) /\ d_pos d0 = d_pos (wrap_dict d) /\ d_size (wrap_dict d) = d_size d) as (Es & Ep & Esz)
    by (split; [done |]; split; [done |]; unfold wrap_dict; by destruct (_ =? _)).
  assert (dict_ok (put d0 w)) as Hput by (apply dict_put_ok; (done || lia)).
  pose proof Hd0 as (_ & _ & Hsz0 & _).
  assert (d_pos (if reset then dict_reset (put d0 w) else put d0 w) = d_pos (wrap_dict d) + Z.of_nat (length w)) as -> by (destruct reset; cbn; by rewrite put_pos).
  assert (d_buf (if reset then dict_reset (put d0 w) else put d0 w) = d_buf (put d0 w)) as -> by (by destruct reset).
  assert (need_reset (if reset then dict_reset (put d0 w) else put d0 w) = reset) as ->.
  { destruct reset; [done |]. unfold put, update_full. destruct (_ <? _); exact (proj2 Hwf). }
  rewrite u64_small, (proj2 (Z.leb_le _ _)) by lia. cbn [assert mbind option_bind].
  rewrite <- Ep, (Z.add_simpl_l (d_pos d0)), Nat2Z.id, put_written by (done || lia). cbn [mbind option_bind]. rewrite Ewr. cbn [mbind option_bind].
  set (o1 := MkIo _ _ _ _) in *.
  assert (io_ok o1) as Ho1 by (by apply (moved_ok o o1 w)).
  pose proof Hm as (Ei & Hpi & Elen & _). assert (out_size o1 = out_size o /\ in_size o1 = in_size o) as [Eo1 Ei1] by (split; [unfold out_size; by rewrite Elen | done]).
  assert (forall ret c1 d1, dict_wf d1 -> d_size d1 = d_size d -> core_run (inp o) (in_size o) c d (in_pos o) w ret c1 d1 p ->
    (ret = LZMA_OK -> ok c1 d1 /\ (p = in_size o \/ out_pos o1 = out_size o)) -> buffer_done c d o (ret, c1, d1, o1)) as Hlast.
  { intros. exists w. by split_and!. }
  destruct reset.
  - destruct Hr as (-> & Hlt & Hok1). destruct (lz_decoder_reset_ok (dict_reset (put d0 w)) Hput) as (d1 & Er & Hd1 & Ef1 & _ & Es1).
    rewrite Er. cbn [mbind option_bind]. change (d_size (dict_reset (put d0 w))) with (d_size (put d0 w)) in Es1. rewrite put_size in Es1.
    assert (core_run (inp o) (in_size o) c d (in_pos o) w LZMA_OK c1 d1 p) as Hrun by (by eapply core_reset).
    rewrite bool_decide_eq_true_2 by done. cbn [negb orb]. destruct (Z.eqb_spec (out_pos o1) (out_size o1)) as [Efull | Hroom].
    + eexists. split; [reflexivity |]. apply Hlast; [done | by rewrite Es1, Es, Esz | done |]. intros _. split; [by apply Hok1 | right; by rewrite Efull].
    + destruct (IH c1 d1 o1) as (r & -> & Hr); [by apply Hok1 | done | done | done | cbn [o1 in_pos out_pos] in *; lia |].
      exists r. split; [done |]. eapply (buffer_more c d o w); [done | done | done | by rewrite Es1, Es, Esz | exact Hrun | exact Hr].
  - assert (core_run (inp o) (in_size o) c d (in_pos o) w ret c1 (put d0 w) p) as Hrun by (by apply core_last).
    assert (dict_wf (put d0 w)) as Hwf1.
    { apply dict_wf_ok; [done |]. unfold put, update_full. destruct (_ <? _); exact (proj2 Hwf). }
    rewrite put_size. destruct (bool_decide_reflect (ret = LZMA_OK)) as [-> | Hne]; cbn [negb orb].
    2: { eexists. split; [reflexivity |]. apply Hlast; [done | by rewrite put_size, Es, Esz | done | done]. }
    destruct (Hr eq_refl) as [Hok1 Hstop].
    destruct (Z.eqb_spec (out_pos o1) (out_size o1)) as [Efull | Hroom]; cbn [orb].
    { eexists. split; [reflexivity |]. apply Hlast; [done | by rewrite put_size, Es, Esz | done |]. intros _. split; [done | right; by rewrite Efull]. }
    cbn [o1 out_pos in_pos] in *. destruct (Z.ltb_spec (d_pos d0 + Z.of_nat (length w)) (d_size d0)).
    + eexists. split; [reflexivity |]. apply Hlast; [done | by rewrite put_size, Es, Esz | done |]. intros _. split; [done |].
      destruct Hstop as [-> | Hstop]; [by left | right; lia].
    + destruct (IH c1 (put d0 w) o1) as (r & E1 & Hr1); [done | done | done | done | cbn [o1 in_pos out_pos]; lia |]. fold o1. rewrite E1.
      exists r. split; [done |]. eapply (buffer_more c d o w); [done | done | done | by rewrite put_size, Es, Esz | exact Hrun | exact Hr1].
Qed.
End calls.

(** ** Starting *)
Lemma round_dict_size_spec size : 0 <= size < 2 ^ 32 ->
  exists n, round_dict_size size = Some n /\ n mod 16 = 0 /\ Z.max 4096 size <= n < Z.max 4096 size + 16.
Proof.
  intros Hs. unfold round_dict_size. set (m := if size <? 4096 then 4096 else size).
  assert (m = Z.max 4096 size) as Em by (unfold m; destruct (Z.ltb_spec size 4096); lia). rewrite Em.
  rewrite (proj2 (Z.ltb_ge _ _)), u64_small by lia. set (x := Z.max 4096 size + 15) in *.
  change 15 with (Z.ones 4). rewrite align_down by lia. change (2 ^ 4) with 16.
  exists (x / 16 * 16). split; [done |]. split; [apply Z.mod_mul; lia |]. pose proof (Z.div_mod x 16 ltac:(lia)). pose proof (Z.mod_pos_bound x 16 ltac:(lia)).
  unfold x in *. lia.
Qed.

(** The preset dictionary is the history to start with, or its end. *)
Lemma preset_ok d bs : dict_wf d -> d_pos d = 0 -> d_full d = 0 -> bytes bs ->
  exists d', preset d bs = Some d' /\ dict_wf d' /\ d_size d' = d_size d /\ history d' = tail_of (Z.to_nat (d_size d)) bs.
Proof.
  intros [(H1 & H2 & H3 & H4 & H5 & H6) Hn] Hp Hf Hb. cbn in *. unfold preset. set (n := Z.min _ _).
  rewrite (rd_bytes_seg _ _ (Z.of_nat (length bs))) by lia. cbn [mbind option_bind].
  pose proof (seg_length bs (Z.of_nat (length bs) - n) (Z.of_nat (length bs)) ltac:(lia) ltac:(lia)) as Hl. set (w := seg bs _ _) in *.
  assert (w = tail_of (Z.to_nat (d_size d)) bs) as <-.
  { unfold w, seg, tail_of. rewrite take_ge by (rewrite length_drop; lia). f_equal. lia. }
  rewrite wr_bytes_seg by lia. change (Z.to_nat 0) with 0%nat. rewrite take_0, Z.add_0_l. cbn [mbind option_bind app].
  eexists. split; [reflexivity |]. split; [| split; [done |]].
  - split; [| done]. unfold dict_ok. cbn. rewrite length_app, length_drop. split; [lia |].
    split; [apply Forall_app; split; [by apply Forall_take, Forall_drop | by apply Forall_drop] | lia].
  - unfold history. cbn. rewrite Z.eqb_refl. rewrite take_app_length'; [done | lia].
Qed.

Section start.
  Context {lz_t : Type} (ok : lz_t -> lzma_dict -> Prop).
  Notation coder := (lz_coder lz_t).

(** The dictionary the coder has, if it has one, is memory of its size. *)
Definition coder_memory (c : coder) : Prop :=
  Z.of_nat (length (d_buf (lz_dict c))) = d_size (lz_dict c) /\ bytes (d_buf (lz_dict c)).

Lemma lz_init_ok c alloc c0 lz_init (alloc_dict : Z -> option (list Z)) next_init x dict_size preset_dict :
  match c with Some c => Some c | None => alloc end = Some c0 -> coder_memory c0 ->
  lz_init (lz c0) = (LZMA_OK, x, dict_size, preset_dict) -> (forall d, dict_wf d -> ok x d) -> 0 <= dict_size < 2 ^ 32 - 15 ->
  bytes preset_dict -> (forall n, exists buf, alloc_dict n = Some buf /\ Z.of_nat (length buf) = n /\ bytes buf) ->
  exists c', lzma_lz_decoder_init c alloc lz_init alloc_dict next_init = Some (next_init, Some c') /\
    ok (lz c') (lz_dict c') /\ dict_wf (lz_dict c') /\ d_size (lz_dict c') mod 16 = 0 /\
    Z.max 4096 dict_size <= d_size (lz_dict c') < Z.max 4096 dict_size + 16 /\
    history (lz_dict c') = tail_of (Z.to_nat (d_size (lz_dict c'))) preset_dict /\
    next_finished c' = false /\ this_finished c' = false /\ temp_pos c' = 0 /\ temp_size c' = 0.
Proof.
  intros Ec [M1 M2] Ei Hx Hs Hb Ha.
  assert (lzma_lz_decoder_init c alloc lz_init alloc_dict next_init = lzma_lz_decoder_init (Some c0) alloc lz_init alloc_dict next_init) as ->
    by (destruct c, alloc; by simplify_eq).
  unfold lzma_lz_decoder_init. rewrite Ei, bool_decide_eq_true_2 by done. cbn [negb].
  destruct (round_dict_size_spec dict_size ltac:(lia)) as (n & -> & Hn16 & Hn).
  assert (exists buf, (if negb (d_size (lz_dict c0) =? n) then alloc_dict n else Some (d_buf (lz_dict c0))) = Some buf /\ Z.of_nat (length buf) = n /\ bytes buf)
    as (buf & -> & Hbl & Hbb).
  { destruct (Z.eqb_spec (d_size (lz_dict c0)) n) as [E | E]; cbn [negb]; [| apply Ha]. eexists. split; [done |]. split; [by rewrite M1 | done]. }
  destruct (lz_decoder_reset_ok (MkDict buf 0 0 0 n false)) as (d1 & Er & Hd1 & Hf1 & Hp1 & Hs1).
  { unfold dict_ok. cbn. split; [done |]. split; [done | lia]. }
  assert (exists d1', lz_decoder_reset (MkDict buf (d_pos (lz_dict c0)) (d_full (lz_dict c0)) (d_limit (lz_dict c0)) n (need_reset (lz_dict c0))) = Some d1' /\
    dict_wf d1' /\ d_full d1' = 0 /\ d_pos d1' = 0 /\ d_size d1' = n) as (d2 & -> & Hd2 & Hf2 & Hp2 & Hs2).
  { unfold lz_decoder_reset in *. cbn [d_buf d_size] in *. destruct (wr buf (u64 (n - 1)) 0) as [buf' |]; cbn [mbind option_bind] in *; [| done].
    injection Er as <-. eexists. split; [done |]. split; [| done]. destruct Hd1 as [H _]. split; [exact H | done]. }
  cbn [mbind option_bind]. clear dependent d1.
  assert (exists d3, (if (length preset_dict =? 0)%nat then Some d2 else preset d2 preset_dict) = Some d3 /\ dict_wf d3 /\ d_size d3 = n /\
    history d3 = tail_of (Z.to_nat n) preset_dict) as (d3 & -> & Hd3 & Hs3 & Hh3).
  { destruct (Nat.eqb_spec (length preset_dict) 0) as [E | E].
    - exists d2. apply nil_length_inv in E as ->. split; [done |]. split; [done |]. split; [done |].
      unfold history. by rewrite Hf2, Hp2.
    - destruct (preset_ok d2 preset_dict Hd2 Hp2 Hf2 Hb) as (d3 & E3 & H1 & H2 & H3). exists d3. rewrite <- Hs2. by split_and!. }
  cbn [mbind option_bind]. eexists. split; [reflexivity |]. cbn [lz lz_dict next_finished this_finished temp_pos temp_size].
  rewrite Hs3. split; [by apply Hx |]. split_and!; (done || lia).
Qed.
End start.

(** ** The coder *)
Section coder.
  Context {lz_t : Type} (code : lz_t -> lzma_dict -> list Z -> Z -> Z -> option (lzma_ret * lz_t * lzma_dict * Z)).
  Context (ok : lz_t -> lzma_dict -> Prop) {C : LzCore code ok}.
  Context {next : Type} (next_code : next -> io -> lzma_action -> option (lzma_ret * next * io)).

(** C31: For every core that keeps its promises, the coder that is the last of its
    chain, which LZMA and LZMA2 always are, answers every call, without leaving a
    buffer: it puts out what calls of the core write to the dictionary, in order,
    each with the dictionary the call before left, wrapped where it was full and
    emptied where the core asked for it; it asks for more only when it has read all
    input or filled the output, and can then be called again. *)
Theorem lz_decode_refines fuel c nx o action : ok (lz c) (lz_dict c) -> dict_wf (lz_dict c) -> io_ok o -> bytes (inp o) ->
  exists ret c' o' w, lz_decode code next_code fuel false c nx o action = Some (ret, c', nx, o') /\
    moved o o' w /\ bytes w /\ dict_wf (lz_dict c') /\ d_size (lz_dict c') = d_size (lz_dict c) /\
    core_run code (inp o) (in_size o) (lz c) (lz_dict c) (in_pos o) w ret (lz c') (lz_dict c') (in_pos o') /\
    (ret = LZMA_OK -> ok (lz c') (lz_dict c') /\ (in_pos o' = in_size o \/ out_pos o' = out_size o)).
Proof.
  intros Hok Hd Ho Hb. unfold lz_decode. cbn [negb]. pose proof Ho as (O1 & O2 & _).
  destruct (decode_buffer_ok code ok (buffer_fuel o) (lz c) (lz_dict c) o Hok Hd Ho Hb) as (r & -> & Hr); [unfold buffer_fuel; lia |].
  destruct r as [[[ret x] d'] o']. destruct Hr as (w & H1 & H2 & H3 & H4 & H5 & H6). cbn [mbind option_bind].
  exists ret, (set_core c d' x), o', w. by split_and!.
Qed.
End coder.
