(* ===== verification/Lzma2.v ===== *)
(** * liblzma: LZMA2

    lzma/lzma2_decoder.c: chunks of LZMA data and of plain data, each with its sizes;
    control bytes say where the dictionary, the state and the properties of the
    LZMA decoder start afresh. The file proves that no input makes it use an LZMA
    decoder that was not reset since the dictionary was, and that it is, as LZMA is,
    a core for the wrapper of LzDecoder.v. *)

From Stdlib Require Import ZArith Lia.
From stdpp Require Import base list option gmap.
From S2P Require Import Prelude LzmaBase Coder Vli RangeDecoder LzDict Lzma LzmaSafe LzmaRun LzmaResume LzDecoder.
Local Open Scope Z_scope.

(** ** The code *)
Inductive lzma2_sequence :=
  | SEQ_CONTROL | SEQ_UNCOMPRESSED_1 | SEQ_UNCOMPRESSED_2 | SEQ_COMPRESSED_0 | SEQ_COMPRESSED_1 | SEQ_PROPERTIES | SEQ_LZMA | SEQ_COPY.

#[export] Instance lzma2_sequence_eq_dec : EqDecision lzma2_sequence.
Proof. solve_decision. Defined.

Record lzma_lzma2_coder := MkLzma2 {
  seq2 : lzma2_sequence; next_sequence : lzma2_sequence; lzma : lzma_lzma1_decoder; chunk_uncompressed : Z; compressed_size : Z;
  need_properties : bool; need_dictionary_reset : bool; options : lzma_options_lzma }.

Definition set_seq (c : lzma_lzma2_coder) (q : lzma2_sequence) : lzma_lzma2_coder :=
  MkLzma2 q (next_sequence c) (lzma c) (chunk_uncompressed c) (compressed_size c) (need_properties c) (need_dictionary_reset c) (options c).
Definition set_next_seq (c : lzma_lzma2_coder) (q : lzma2_sequence) : lzma_lzma2_coder :=
  MkLzma2 (seq2 c) q (lzma c) (chunk_uncompressed c) (compressed_size c) (need_properties c) (need_dictionary_reset c) (options c).
Definition set_lzma (c : lzma_lzma2_coder) (l : lzma_lzma1_decoder) : lzma_lzma2_coder :=
  MkLzma2 (seq2 c) (next_sequence c) l (chunk_uncompressed c) (compressed_size c) (need_properties c) (need_dictionary_reset c) (options c).
Definition set_uncompressed (c : lzma_lzma2_coder) (n : Z) : lzma_lzma2_coder :=
  MkLzma2 (seq2 c) (next_sequence c) (lzma c) n (compressed_size c) (need_properties c) (need_dictionary_reset c) (options c).
Definition set_compressed (c : lzma_lzma2_coder) (n : Z) : lzma_lzma2_coder :=
  MkLzma2 (seq2 c) (next_sequence c) (lzma c) (chunk_uncompressed c) n (need_properties c) (need_dictionary_reset c) (options c).
Definition set_needs (c : lzma_lzma2_coder) (props dict : bool) : lzma_lzma2_coder :=
  MkLzma2 (seq2 c) (next_sequence c) (lzma c) (chunk_uncompressed c) (compressed_size c) props dict (options c).
Definition set_options (c : lzma_lzma2_coder) (o : lzma_options_lzma) : lzma_lzma2_coder :=
  MkLzma2 (seq2 c) (next_sequence c) (lzma c) (chunk_uncompressed c) (compressed_size c) (need_properties c) (need_dictionary_reset c) o.

(** A round of the loop: on with it, or the answer. *)
Inductive round := Again (c : lzma_lzma2_coder) (d : lzma_dict) (in_pos : Z) | Stop (ret : lzma_ret) (c : lzma_lzma2_coder) (d : lzma_dict) (in_pos : Z).

(** The kind of chunk; [true] is an invalid control byte. *)
Definition chunk_kind (c : lzma_lzma2_coder) (control : Z) : option (bool * lzma_lzma2_coder) :=
  if 0x80 <=? control then
    let c := set_seq (set_uncompressed c (Z.shiftl (Z.land control 0x1F) 16)) SEQ_UNCOMPRESSED_1 in
    if 0xC0 <=? control then Some (false, set_next_seq (set_needs c false (need_dictionary_reset c)) SEQ_PROPERTIES)
    else if need_properties c then Some (true, c)
    else
      let c := set_next_seq c SEQ_LZMA in
      if 0xA0 <=? control then l ← lzma_decoder_reset (lzma c) (options c); Some (false, set_lzma c l) else Some (false, c)
  else if 2 <? control then Some (true, c)
  else Some (false, set_next_seq (set_seq c SEQ_COMPRESSED_0) SEQ_COPY).

Definition seq_control (c : lzma_lzma2_coder) (d : lzma_dict) (inp : list Z) (in_pos : Z) : option round :=
  control ← rd inp in_pos;
  let in_pos := in_pos + 1 in
  if control =? 0 then Some (Stop LZMA_STREAM_END c d in_pos)
  else
    let fresh := (0xE0 <=? control) || (control =? 1) in
    let c := if fresh then set_needs c true true else c in
    if negb fresh && need_dictionary_reset c then Some (Stop LZMA_DATA_ERROR c d in_pos)
    else
      '(bad, c) ← chunk_kind c control;
      if bad : bool then Some (Stop LZMA_DATA_ERROR c d in_pos)
      else if need_dictionary_reset c then Some (Stop LZMA_OK (set_needs c (need_properties c) false) (dict_reset d) in_pos)
      else Some (Again c d in_pos).

Definition seq_properties (c : lzma_lzma2_coder) (d : lzma_dict) (inp : list Z) (in_pos : Z) : option round :=
  b ← rd inp in_pos;
  let '(bad, (lc, lp, pb)) := lzma_lzma_lclppb_decode b in
  let c := if (4 * 5 + 4) * 9 + 8 <? b then c else set_options c (MkOptions (dict_size (options c)) (preset_dict (options c)) lc lp pb) in
  if bad : bool then Some (Stop LZMA_DATA_ERROR c d (in_pos + 1))
  else l ← lzma_decoder_reset (lzma c) (options c); Some (Again (set_seq (set_lzma c l) SEQ_LZMA) d (in_pos + 1)).

Definition seq_lzma (c : lzma_lzma2_coder) (d : lzma_dict) (inp : list Z) (in_pos in_size : Z) : option round :=
  '(ret, l, d, p) ← lzma_decode (lzma c) d inp in_pos in_size;
  let c := set_lzma c l in
  let in_used := u64 (p - in_pos) in
  if compressed_size c <? in_used then Some (Stop LZMA_DATA_ERROR c d p)
  else
    let c := set_compressed c (compressed_size c - in_used) in
    if negb (bool_decide (ret = LZMA_STREAM_END)) then Some (Stop ret c d p)
    else if negb (compressed_size c =? 0) then Some (Stop LZMA_DATA_ERROR c d p)
    else Some (Again (set_seq c SEQ_CONTROL) d p).

Definition seq_copy (c : lzma_lzma2_coder) (d : lzma_dict) (inp : list Z) (in_pos in_size : Z) : option round :=
  '(d, p, remaining) ← dict_write d inp in_pos in_size (compressed_size c);
  let c := set_compressed c remaining in
  if negb (compressed_size c =? 0) then Some (Stop LZMA_OK c d p) else Some (Again (set_seq c SEQ_CONTROL) d p).

Definition lzma2_round (c : lzma_lzma2_coder) (d : lzma_dict) (inp : list Z) (in_pos in_size : Z) : option round :=
  match seq2 c with
  | SEQ_CONTROL => seq_control c d inp in_pos
  | SEQ_UNCOMPRESSED_1 =>
      b ← rd inp in_pos; Some (Again (set_seq (set_uncompressed c (u64 (chunk_uncompressed c + Z.shiftl b 8))) SEQ_UNCOMPRESSED_2) d (in_pos + 1))
  | SEQ_UNCOMPRESSED_2 =>
      b ← rd inp in_pos;
      let c := set_seq (set_uncompressed c (u64 (chunk_uncompressed c + (b + 1)))) SEQ_COMPRESSED_0 in
      Some (Again (set_lzma c (lzma_decoder_uncompressed (lzma c) (chunk_uncompressed c))) d (in_pos + 1))
  | SEQ_COMPRESSED_0 => b ← rd inp in_pos; Some (Again (set_seq (set_compressed c (Z.shiftl b 8)) SEQ_COMPRESSED_1) d (in_pos + 1))
  | SEQ_COMPRESSED_1 =>
      b ← rd inp in_pos; Some (Again (set_seq (set_compressed c (u64 (compressed_size c + (b + 1)))) (next_sequence c)) d (in_pos + 1))
  | SEQ_PROPERTIES => seq_properties c d inp in_pos
  | SEQ_LZMA => seq_lzma c d inp in_pos in_size
  | SEQ_COPY => seq_copy c d inp in_pos in_size
  end.

Fixpoint lzma2_loop (fuel : nat) (c : lzma_lzma2_coder) (d : lzma_dict) (inp : list Z) (in_pos in_size : Z)
    : option (lzma_ret * lzma_lzma2_coder * lzma_dict * Z) :=
  match fuel with
  | O => None
  | S fuel =>
      if (in_pos <? in_size) || bool_decide (seq2 c = SEQ_LZMA) then
        r ← lzma2_round c d inp in_pos in_size;
        match r with
        | Again c d in_pos => lzma2_loop fuel c d inp in_pos in_size
        | Stop ret c d in_pos => Some (ret, c, d, in_pos)
        end
      else Some (LZMA_OK, c, d, in_pos)
  end.

(** Every round but one with LZMA data reads a byte. *)
Definition lzma2_fuel (in_pos in_size : Z) : nat := Z.to_nat (2 * (in_size - in_pos) + 2).

Definition lzma2_decode (c : lzma_lzma2_coder) (d : lzma_dict) (inp : list Z) (in_pos in_size : Z)
    : option (lzma_ret * lzma_lzma2_coder * lzma_dict * Z) := lzma2_loop (lzma2_fuel in_pos in_size) c d inp in_pos in_size.

(** [alloc] and [alloc_lzma] are what the allocations give. The LZMA decoder of a new
    coder is not there yet: [has_lzma]. *)
Definition lzma2_decoder_init (coder alloc : option lzma_lzma2_coder) (has_lzma : bool) (alloc_lzma : option lzma_lzma1_decoder) (o : lzma_options_lzma)
    : lzma_ret * option lzma_lzma2_coder * option (Z * list Z) :=
  match coder, alloc with
  | None, None => (LZMA_MEM_ERROR, None, None)
  | Some c, _ | None, Some c =>
      let c := set_needs (set_seq c SEQ_CONTROL) true (length (preset_dict o) =? 0)%nat in
      let '(ret, l, lz) := lzma_lzma_decoder_create (if has_lzma then Some (lzma c) else None) alloc_lzma o in
      (ret, Some (set_lzma c (default (lzma c) l)), lz)
  end.

Definition lzma_lzma2_props_decode (alloc : bool) (props : list Z) : option (lzma_ret * option lzma_options_lzma) :=
  if negb (Z.of_nat (length props) =? 1) then Some (LZMA_OPTIONS_ERROR, None)
  else
    b ← rd props 0;
    if negb (Z.land b 0xC0 =? 0) then Some (LZMA_OPTIONS_ERROR, None)
    else if 40 <? b then Some (LZMA_OPTIONS_ERROR, None)
    else if negb alloc then Some (LZMA_MEM_ERROR, None)
    else
      let size := if b =? 40 then UINT32_MAX else u32 (Z.shiftl (Z.lor 2 (Z.land b 1)) (b / 2 + 11)) in
      Some (LZMA_OK, Some (MkOptions size [] 0 0 0)).

(** ** The state of the decoder *)
Definition options_ok (o : lzma_options_lzma) : Prop := 0 <= lc o /\ 0 <= lp o /\ lc o + lp o <= 4 /\ 0 <= pb o <= 4.

(** The LZMA decoder was reset since the dictionary was. *)
Definition ready (c : lzma_lzma2_coder) (d : lzma_dict) : Prop :=
  options_ok (options c) /\ sequence (lzma c) <> SEQ_EOPM /\ exists lc lp pb, coder_ok lc lp pb (lzma c) d.

Definition copy_ready (c : lzma_lzma2_coder) (d : lzma_dict) : Prop := need_properties c = false -> ready c d.

(** Before LZMA data; with new properties the decoder is reset first. *)
Definition lzma_next (c : lzma_lzma2_coder) (d : lzma_dict) : Prop :=
  need_properties c = false /\ (next_sequence c = SEQ_PROPERTIES \/ next_sequence c = SEQ_LZMA /\ ready c d).

Definition size_known (c : lzma_lzma2_coder) : Prop := uncompressed_size (lzma c) <> LZMA_VLI_UNKNOWN.

Definition lzma2_ok (c : lzma_lzma2_coder) (d : lzma_dict) : Prop :=
  0 <= uncompressed_size (lzma c) < 2 ^ 64 /\
  match seq2 c with
  | SEQ_CONTROL => copy_ready c d
  | SEQ_UNCOMPRESSED_1 => lzma_next c d /\ 0 <= chunk_uncompressed c <= 0x1F0000
  | SEQ_UNCOMPRESSED_2 => lzma_next c d /\ 0 <= chunk_uncompressed c <= 0x1FFF00
  | SEQ_COMPRESSED_0 => next_sequence c = SEQ_COPY /\ copy_ready c d \/ lzma_next c d /\ size_known c
  | SEQ_COMPRESSED_1 => (next_sequence c = SEQ_COPY /\ copy_ready c d \/ lzma_next c d /\ size_known c) /\ 0 <= compressed_size c <= 0xFF00
  | SEQ_PROPERTIES => need_properties c = false /\ size_known c /\ 0 <= compressed_size c <= 0x10000
  | SEQ_LZMA => ready c d /\ need_properties c = false /\ size_known c /\ 0 <= compressed_size c <= 0x10000
  | SEQ_COPY => copy_ready c d /\ 1 <= compressed_size c <= 0x10000
  end.

(** It depends on how much history there is. *)
Lemma coder_ok_full lc lp pb c d1 d2 : d_full d1 = d_full d2 -> coder_ok lc lp pb c d1 -> coder_ok lc lp pb c d2.
Proof.
  intros E [H1 H2 H3 H4 H5 H6 H7 H8]. split; try done.
  - unfold rep_ok in *. by rewrite <- E.
  - by apply (at_label_same _ _ _ _ (enter c d1 0)).
Qed.

Lemma ready_full c d1 d2 : d_full d1 = d_full d2 -> ready c d1 -> ready c d2.
Proof. intros E (Ho & Hq & lc & lp & pb & Hc). split; [done |]. split; [done |]. exists lc, lp, pb. by apply (coder_ok_full _ _ _ _ d1). Qed.

Lemma lzma2_ok_full c d1 d2 : d_full d1 = d_full d2 -> lzma2_ok c d1 -> lzma2_ok c d2.
Proof.
  intros E [Hu H]. split; [done |]. pose proof (ready_full c d1 d2 E) as Hr. unfold copy_ready, lzma_next in *. destruct (seq2 c); tauto.
Qed.

(** History that grows keeps the distances allowed. *)
Lemma rep_ok_grows d1 d2 r : 0 <= d_full d1 <= d_full d2 -> rep_ok d1 r -> rep_ok d2 r.
Proof. intros Hf [Hr H]. split; [done | lia]. Qed.

Lemma at_label_grows unc lc lp q s1 s2 : 0 <= d_full (dict s1) <= d_full (dict s2) -> state s1 = state s2 -> reps s1 = reps s2 -> inc s1 = inc s2 ->
  at_label unc lc lp q s1 -> at_label unc lc lp q s2.
Proof.
  intros Ef Es Er Ei H. pose proof (rep_ok_grows (dict s1) (dict s2) (rep0 (reps s1)) Ef) as Hg.
  unfold at_label, rep0_ok in *. rewrite <- Es, <- Er, <- Ei. destruct q; try (destruct ld); try done; try tauto; try (split; [tauto | lia]); intuition lia.
Qed.

Lemma coder_ok_grows lc lp pb c d1 d2 : 0 <= d_full d1 <= d_full d2 -> coder_ok lc lp pb c d1 -> coder_ok lc lp pb c d2.
Proof.
  intros Hf [H1 H2 H3 H4 H5 H6 (R1 & R2 & R3) H8]. split; try done.
  - split_and!; by apply (rep_ok_grows d1).
  - by apply (at_label_grows _ _ _ _ (enter c d1 0)).
Qed.

Lemma ready_grows c d1 d2 : 0 <= d_full d1 <= d_full d2 -> ready c d1 -> ready c d2.
Proof. intros Hf (Ho & Hq & lc & lp & pb & Hc). split; [done |]. split; [done |]. exists lc, lp, pb. by apply (coder_ok_grows _ _ _ _ d1). Qed.

(** ** Rounds *)
(** The properties byte, where it is taken. *)
Lemma lclppb_ok b lc lp pb : 0 <= b < 256 -> lzma_lzma_lclppb_decode b = (false, (lc, lp, pb)) ->
  b <= 224 /\ 0 <= lc /\ 0 <= lp /\ lc + lp <= 4 /\ 0 <= pb <= 4.
Proof.
  intros Hb. unfold lzma_lzma_lclppb_decode. change ((4 * 5 + 4) * 9 + 8) with 224. change (9 * 5) with 45. change LZMA_LCLP_MAX with 4.
  destruct (Z.ltb_spec 224 b); [done |]. cbv zeta. unfold u8. rewrite (wrap_small 8 (b - b / 45 * 9 * 5)) by (change (2 ^ 8) with 256; Z.to_euclidean_division_equations; lia).
  intros E. injection E as Ebad <- <- <-. apply Z.ltb_ge in Ebad. split; [lia |]. Z.to_euclidean_division_equations. lia.
Qed.

Section rounds.
  Context (inp : list Z) (in_size : Z) (inp_bytes : bytes inp) (in_size_ok : in_size <= Z.of_nat (length inp)) (in_size_64 : in_size < 2 ^ 64).
  Implicit Types (c : lzma_lzma2_coder) (d : lzma_dict).

Definition round_ok c d in_pos (r : round) : Prop :=
  match r with
  | Again c' d' p => lzma2_ok c' d' /\ extends d d' /\ in_pos <= p <= in_size /\ (in_pos < p \/ seq2 c = SEQ_LZMA /\ seq2 c' = SEQ_CONTROL)
  | Stop ret c' d' p => in_pos <= p <= in_size /\
      (d' = dict_reset d /\ ret = LZMA_OK /\ in_pos < p /\ (forall d2, d_full d2 = 0 -> lzma2_ok c' d2) \/
       extends d d' /\ (ret = LZMA_OK -> lzma2_ok c' d' /\ (p = in_size \/ d_pos d' = d_limit d')))
  end.

Definition good_round c d in_pos (o : option round) : Prop := exists r, o = Some r /\ round_ok c d in_pos r.

Lemma again_good c d in_pos c' : dict_ok d -> 0 <= in_pos < in_size -> lzma2_ok c' d -> good_round c d in_pos (Some (Again c' d (in_pos + 1))).
Proof. intros Hd Hi Hc. eexists. split; [done |]. split; [done |]. split; [by apply extends_refl |]. split; [lia | left; lia]. Qed.

Lemma failed_good c d in_pos c' ret p : dict_ok d -> in_pos <= p <= in_size -> ret <> LZMA_OK -> good_round c d in_pos (Some (Stop ret c' d p)).
Proof. intros Hd Hi Hr. eexists. split; [done |]. split; [done |]. right. by split; [apply extends_refl |]. Qed.

(** The byte at the position. *)
Lemma byte_there in_pos : 0 <= in_pos < in_size -> exists b, rd inp in_pos = Some b /\ 0 <= b < 256.
Proof.
  intros Hi. rewrite rd_total by lia. eexists. split; [done |]. apply (rd_byte inp in_pos); [done |]. apply rd_total. lia.
Qed.

Lemma reset_ready c d : dict_ok d -> options_ok (options c) -> 0 <= uncompressed_size (lzma c) < 2 ^ 64 ->
  exists l, lzma_decoder_reset (lzma c) (options c) = Some l /\ uncompressed_size l = uncompressed_size (lzma c) /\ ready (set_lzma c l) d.
Proof.
  intros Hd (H1 & H2 & H3 & H4) Hu. destruct (lzma_decoder_reset_ok (options c) H1 H2 H3 H4 (lzma c) d Hd Hu) as (l & E & Hl & El & Eq).
  exists l. split; [done |]. split; [done |]. split; [exact (conj H1 (conj H2 (conj H3 H4))) |].
  split; [cbn; by rewrite Eq |]. by eexists _, _, _.
Qed.

(** A control byte that starts a chunk. *)
Lemma chunk_kind_ok c d control : dict_ok d -> 0 <= control < 256 -> 0 <= uncompressed_size (lzma c) < 2 ^ 64 -> copy_ready c d ->
  exists bad c', chunk_kind c control = Some (bad, c') /\
    (bad = false -> lzma2_ok c' d /\ need_dictionary_reset c' = need_dictionary_reset c /\
        (need_properties c = true -> forall d2 b, lzma2_ok (set_needs c' (need_properties c') b) d2)).
Proof.
  intros Hd Hc Hu Hr. unfold chunk_kind. assert (0 <= Z.shiftl (Z.land control 0x1F) 16 <= 0x1F0000) as Hn.
  { change 0x1F with (Z.ones 5). rewrite Z.land_ones, Z.shiftl_mul_pow2 by lia. pose proof (Z.mod_pos_bound control (2 ^ 5) ltac:(lia)). lia. }
  destruct (Z.leb_spec 0x80 control).
  - destruct (Z.leb_spec 0xC0 control).
    + do 2 eexists. split; [done |]. intros _. cbn -[Z.shiftl Z.land]. split; [| split; [done |]];
        intros; (split; [done |]); cbn -[Z.shiftl Z.land]; (split; [split; [done | by left] | done]).
    + cbn [need_properties set_seq set_uncompressed]. destruct (need_properties c) eqn:Ep; [by do 2 eexists |].
      destruct (Z.leb_spec 0xA0 control).
      * cbn -[Z.shiftl Z.land lzma_decoder_reset]. destruct (Hr Ep) as [Ho _]. destruct (reset_ready c d Hd Ho Hu) as (l & E & El & Hl). rewrite E.
        cbn [mbind option_bind]. do 2 eexists. split; [done |]. intros _. cbn -[Z.shiftl Z.land]. split; [| by split].
        split; [cbn; by rewrite El |]. cbn -[Z.shiftl Z.land]. split; [| done]. split; [done |]. right. split; [done | exact Hl].
      * do 2 eexists. split; [done |]. intros _. cbn -[Z.shiftl Z.land]. split; [| by split]. split; [done |]. cbn -[Z.shiftl Z.land].
        split; [| done]. split; [done |]. right. split; [done | exact (Hr Ep)].
  - destruct (Z.ltb_spec 2 control); [by do 2 eexists |]. do 2 eexists. split; [done |]. intros _. cbn. split; [| split; [done |]].
    + split; [done |]. left. by split.
    + intros Ep d2 b. split; [done |]. left. split; [done |]. unfold copy_ready. cbn. by rewrite Ep.
Qed.

Lemma seq_control_good c d in_pos : dict_ok d -> 0 <= in_pos < in_size -> 0 <= uncompressed_size (lzma c) < 2 ^ 64 -> copy_ready c d ->
  good_round c d in_pos (seq_control c d inp in_pos).
Proof.
  intros Hd Hi Hu Hr. unfold seq_control. destruct (byte_there in_pos Hi) as (b & -> & Hb). cbn [mbind option_bind].
  destruct (b =? 0); [by apply failed_good; [| lia |] |]. cbv zeta. set (fresh := (0xE0 <=? b) || (b =? 1)).
  destruct fresh; cbn [negb andb].
  - destruct (chunk_kind_ok (set_needs c true true) d b Hd Hb Hu) as (bad & c' & -> & Hk); [done |]. cbn [mbind option_bind].
    destruct bad; [by apply failed_good; [| lia |] |]. destruct (Hk eq_refl) as (_ & En & Hfresh). rewrite En. cbn.
    eexists. split; [done |]. split; [lia |]. left. split; [done |]. split; [done |]. split; [lia |]. intros d2 _. by apply Hfresh.
  - destruct (need_dictionary_reset c) eqn:En0; [by apply failed_good; [| lia |] |].
    destruct (chunk_kind_ok c d b Hd Hb Hu Hr) as (bad & c' & -> & Hk). cbn [mbind option_bind].
    destruct bad; [by apply failed_good; [| lia |] |]. destruct (Hk eq_refl) as (Hc' & En & _). rewrite En, En0. by apply again_good.
Qed.

Lemma seq_properties_good c d in_pos : dict_ok d -> 0 <= in_pos < in_size -> 0 <= uncompressed_size (lzma c) < 2 ^ 64 ->
  need_properties c = false -> size_known c -> 0 <= compressed_size c <= 0x10000 ->
  good_round c d in_pos (seq_properties c d inp in_pos).
Proof.
  intros Hd Hi Hu Hn Hk Hs. unfold seq_properties. destruct (byte_there in_pos Hi) as (b & -> & Hb). cbn [mbind option_bind].
  destruct (lzma_lzma_lclppb_decode b) as [bad [[lc lp] pb]] eqn:E. destruct bad; [by apply failed_good; [| lia |] |].
  destruct (lclppb_ok b lc lp pb Hb E) as (Hb2 & Ho). change ((4 * 5 + 4) * 9 + 8) with 224. rewrite (proj2 (Z.ltb_ge 224 b)) by lia.
  set (c1 := set_options c _). destruct (reset_ready c1 d Hd) as (l & -> & El & Hl); [exact Ho | exact Hu |]. cbn [mbind option_bind].
  apply again_good; [done | done |]. change (lzma c1) with (lzma c) in El. split; [cbn; by rewrite El |]. cbn.
  split; [exact Hl |]. split; [done |]. split; [| done]. unfold size_known in *. cbn. by rewrite El.
Qed.

(** A decoder of data of known size is not at the end marker. *)
Lemma known_label lc lp pb l d : coder_ok lc lp pb l d -> uncompressed_size l <> LZMA_VLI_UNKNOWN -> sequence l <> SEQ_EOPM.
Proof. intros [_ _ _ _ _ _ _ H] Hk E. rewrite E in H. by apply Hk. Qed.

(** The size may be set, but at the end marker. *)
Lemma coder_ok_size lc lp pb l d n : 0 <= n < 2 ^ 64 -> sequence l <> SEQ_EOPM -> coder_ok lc lp pb l d ->
  coder_ok lc lp pb (lzma_decoder_uncompressed l n) d.
Proof.
  intros Hn Hq [H1 H2 H3 H4 H5 H6 H7 H8]. split; try done. cbn [sequence lzma_decoder_uncompressed uncompressed_size].
  apply (at_label_same _ _ _ _ (enter l d 0)); try done. by destruct (sequence l).
Qed.

Lemma seq_lzma_good c d in_pos : dict_ok d -> 0 <= in_pos <= in_size -> seq2 c = SEQ_LZMA -> lzma2_ok c d ->
  good_round c d in_pos (seq_lzma c d inp in_pos in_size).
Proof.
  intros Hd Hi Hq [Hu H]. rewrite Hq in H. destruct H as ((Ho & _ & lc & lp & pb & Hc) & Hn & Hk & Hs). unfold seq_lzma.
  destruct (decode_total inp in_size lc lp pb inp_bytes in_size_ok (lzma c) d in_pos Hc Hd Hi) as (ret & l & d' & p & -> & He & Hp & Hret & El & Hl).
  cbn [mbind option_bind]. cbv zeta. rewrite u64_small by lia. cbn [compressed_size set_lzma].
  pose proof (extends_pos _ _ He) as Hpos. assert (uncompressed_size l <> LZMA_VLI_UNKNOWN /\ 0 <= uncompressed_size l < 2 ^ 64) as [Hkl Hul].
  { destruct (size_left_range (lzma c) d d' Hu) as [Hr Hiff]; [lia | intros; specialize (Hl ltac:(done)); lia |]. rewrite El. split; [| done]. unfold size_known in Hk. tauto. }
  destruct (Z.ltb_spec (compressed_size c) (p - in_pos)).
  { eexists. split; [done |]. split; [lia |]. right. split; [done |]. done. }
  destruct Hret as [(-> & Hl' & Hstop) | [[-> Hend] | ->]].
  - rewrite bool_decide_eq_false_2 by done. cbn [negb]. eexists. split; [done |]. split; [lia |]. right. split; [done |]. intros _.
    split; [| done]. split; [done |]. cbn. rewrite Hq. split; [| split; [done |]; split; [done | cbn; lia]].
    split; [done |]. split; [by apply (known_label lc lp pb _ d') |]. by exists lc, lp, pb.
  - rewrite bool_decide_eq_true_2 by done. cbn [negb compressed_size set_compressed]. destruct (Hend Hk) as [_ Hl'].
    destruct (_ =? 0); cbn [negb]; eexists; (split; [done |]).
    + split; [| split; [done |]; split; [lia | by right]]. split; [done |]. intros _. split; [done |]. split; [by apply (known_label lc lp pb _ d') |]. by exists lc, lp, pb.
    + split; [lia |]. right. split; [done |]. done.
  - rewrite bool_decide_eq_false_2 by done. cbn [negb]. eexists. split; [done |]. split; [lia |]. right. by split.
Qed.

Lemma seq_copy_good c d in_pos : dict_ok d -> 0 <= in_pos < in_size -> 0 <= uncompressed_size (lzma c) < 2 ^ 64 -> seq2 c = SEQ_COPY ->
  copy_ready c d -> 1 <= compressed_size c <= 0x10000 ->
  good_round c d in_pos (seq_copy c d inp in_pos in_size).
Proof.
  intros Hd Hi Hu Hq Hr Hs. unfold seq_copy. rewrite dict_write_spec by (done || lia). cbn [mbind option_bind].
  set (n := Z.min _ _). cbn [compressed_size set_compressed]. pose proof Hd as (_ & _ & _ & Hp & _ & Hf).
  pose proof (seg_length inp in_pos (in_pos + n) ltac:(lia) ltac:(lia)) as Hlen. set (w := seg inp _ _) in *.
  assert (extends d (put d w)) as He.
  { exists w. split; [by apply Forall_take, Forall_drop |]. split; [lia | done]. }
  assert (copy_ready c (put d w)) as Hr'.
  { intros Ep. apply (ready_grows c d); [| by apply Hr]. rewrite put_full by (done || lia). destruct Hd as (_ & _ & Hsz & _). lia. }
  destruct (Z.eqb_spec (compressed_size c - n) 0) as [E | E]; cbn [negb]; eexists; (split; [done |]).
  - split; [| split; [done |]; split; [lia |]]. { split; [done | exact Hr']. } left. lia.
  - split; [lia |]. right. split; [done |]. intros _. split; [| rewrite put_pos, put_limit; lia].
    split; [done |]. cbn. rewrite Hq. split; [exact Hr' | cbn; lia].
Qed.

(** Every round. *)
Lemma lzma2_round_good c d in_pos : lzma2_ok c d -> dict_ok d -> 0 <= in_pos <= in_size -> in_pos < in_size \/ seq2 c = SEQ_LZMA ->
  good_round c d in_pos (lzma2_round c d inp in_pos in_size).
Proof.
  intros Hc Hd Hi Hgo. pose proof Hc as [Hu H]. unfold lzma2_round. destruct (seq2 c) eqn:Eq.
  1-6, 8: assert (0 <= in_pos < in_size) as Hi' by (destruct Hgo as [? | ?]; [lia | done]).
  - by apply seq_control_good.
  - destruct (byte_there in_pos Hi') as (b & -> & Hb). cbn [mbind option_bind]. destruct H as [Hn Hz].
    apply again_good; [done | done |]. split; [done |]. cbn -[Z.shiftl]. split; [exact Hn |]. rewrite Z.shiftl_mul_pow2, u64_small by lia. lia.
  - destruct (byte_there in_pos Hi') as (b & -> & Hb). cbn [mbind option_bind]. destruct H as [Hn Hz]. cbv zeta. cbn [chunk_uncompressed set_seq set_uncompressed].
    rewrite u64_small by lia. apply again_good; [done | done |]. split; [cbn; lia |]. cbn. right.
    split; [| unfold size_known; cbn; change LZMA_VLI_UNKNOWN with (2 ^ 64 - 1); lia].
    destruct Hn as [Hn [Hx | (Hx & Ho & Hq & lc & lp & pb & Hl)]]; (split; [exact Hn |]); [by left | right]. split; [exact Hx |]. split; [exact Ho |].
    split; [exact Hq |]. exists lc, lp, pb. apply coder_ok_size; [lia | exact Hq | exact Hl].
  - destruct (byte_there in_pos Hi') as (b & -> & Hb). cbn [mbind option_bind].
    apply again_good; [done | done |]. split; [done |]. cbn -[Z.shiftl]. split; [exact H |]. rewrite Z.shiftl_mul_pow2 by lia. lia.
  - destruct (byte_there in_pos Hi') as (b & -> & Hb). cbn [mbind option_bind]. destruct H as [Hn Hz]. rewrite u64_small by lia.
    apply again_good; [done | done |]. split; [done |]. cbn.
    destruct Hn as [[Hx Hn] | [[Hn [Hx | [Hx Hr]]] Hk]]; rewrite Hx.
    + split; [exact Hn | lia].
    + split; [exact Hn |]. split; [exact Hk | lia].
    + split; [exact Hr |]. split; [exact Hn |]. split; [exact Hk | lia].
  - destruct H as (Hn & Hk & Hz). by apply seq_properties_good.
  - destruct H as (Hr & Hz). by apply seq_copy_good.
  - by apply seq_lzma_good.
Qed.

(** How the loop may end, as the wrapper asks for it. *)
Definition loop_done d in_pos (o : option (lzma_ret * lzma_lzma2_coder * lzma_dict * Z)) : Prop :=
  exists ret c' w (reset : bool) p, o = Some (ret, c', (if reset then dict_reset (put d w) else put d w), p) /\
    bytes w /\ d_pos d + Z.of_nat (length w) <= d_limit d /\ in_pos <= p <= in_size /\
    (if reset then ret = LZMA_OK /\ in_pos < p /\ forall d2, d_full d2 = 0 -> lzma2_ok c' d2
     else ret = LZMA_OK -> lzma2_ok c' (put d w) /\ (p = in_size \/ d_pos d + Z.of_nat (length w) = d_limit d)).

Lemma loop_done_later d in_pos d1 p1 o : dict_ok d -> extends d d1 -> in_pos <= p1 -> loop_done d1 p1 o -> loop_done d in_pos o.
Proof.
  intros Hd (w1 & Hw1 & Hl1 & ->) Hp1 (ret & c' & w & reset & p & -> & Hw & Hl & Hp & Hr). rewrite put_pos, put_limit in Hl, Hr.
  assert (put (put d w1) w = put d (w1 ++ w)) as Epp by (apply put_put; [done | lia]). rewrite Epp in Hr |- *.
  exists ret, c', (w1 ++ w), reset, p. rewrite length_app, Nat2Z.inj_add, Z.add_assoc. split; [done |].
  split; [by apply Forall_app |]. split; [exact Hl |]. split; [lia |].
  destruct reset; [destruct Hr as (H1 & H2 & H3); split; [done |]; split; [lia | done] | exact Hr].
Qed.

Lemma loop_done_stop d in_pos c ret c1 d1 p1 : dict_ok d -> round_ok c d in_pos (Stop ret c1 d1 p1) -> loop_done d in_pos (Some (ret, c1, d1, p1)).
Proof.
  intros Hd [Hp1 [(-> & -> & Hlt1 & Hok) | ((w & Hw & Hl & ->) & Hok)]].
  - exists LZMA_OK, c1, [], true, p1. rewrite put_nil by done. split; [done |]. split; [constructor |].
    pose proof Hd as (_ & _ & _ & Hp & _). split; [cbn; lia |]. split; [done |]. by split.
  - exists ret, c1, w, false, p1. rewrite put_pos, put_limit in Hok. split; [done |]. split; [done |]. split; [done |]. by split.
Qed.

Lemma lzma2_loop_good fuel c d in_pos : lzma2_ok c d -> dict_ok d -> 0 <= in_pos <= in_size ->
  2 * (in_size - in_pos) + (if bool_decide (seq2 c = SEQ_LZMA) then 1 else 0) < Z.of_nat fuel ->
  loop_done d in_pos (lzma2_loop fuel c d inp in_pos in_size).
Proof.
  revert c d in_pos. induction fuel as [| fuel IH]; intros c d in_pos Hc Hd Hi Hf; [case_bool_decide; lia |]. cbn [lzma2_loop].
  destruct ((in_pos <? in_size) || bool_decide (seq2 c = SEQ_LZMA)) eqn:Ego.
  - destruct (lzma2_round_good c d in_pos Hc Hd Hi) as (r & -> & Hr).
    { apply orb_true_iff in Ego as [E | E]; [left; by apply Z.ltb_lt | right; by apply bool_decide_eq_true in E]. }
    cbn [mbind option_bind]. destruct r as [c1 d1 p1 | ret c1 d1 p1]; [| by apply (loop_done_stop d in_pos c)].
    destruct Hr as (Hc1 & He & Hp1 & Hgo). apply (loop_done_later d in_pos d1 p1); [done | done | lia |].
    apply IH; [done | destruct He as (w & Hw & Hl & ->); by apply dict_put_ok | lia |].
    destruct Hgo as [Hgo | [Eq1 Eq2]]; [repeat case_bool_decide; lia |]. rewrite Eq2, (bool_decide_eq_false_2 (SEQ_CONTROL = SEQ_LZMA)) by done.
    rewrite bool_decide_eq_true_2 in Hf by done. lia.
  - apply orb_false_iff in Ego as [E _]. apply Z.ltb_ge in E. pose proof Hd as (_ & _ & _ & Hp & _).
    exists LZMA_OK, c, [], false, in_pos. rewrite put_nil by done. split; [done |]. split; [constructor |]. split; [cbn; lia |].
    split; [lia |]. intros _. split; [done | left; lia].
Qed.
End rounds.

(** ** The two cores *)
#[export] Instance lzma_is_core : LzCore lzma_decode (fun c d => exists lc lp pb, coder_ok lc lp pb c d).
Proof.
  split.
  - intros c d1 d2 E (lc & lp & pb & Hc). exists lc, lp, pb. by apply (coder_ok_full _ _ _ _ d1).
  - intros c d inp in_pos in_size (lc & lp & pb & Hc) Hd _ Hb Hi Hs _.
    destruct (decode_total inp in_size lc lp pb Hb Hs c d in_pos Hc Hd Hi) as (ret & c' & d' & p & E & (w & Hw & Hl & ->) & Hp & Hret & _).
    exists ret, c', w, false, p. split; [exact E |]. split; [done |]. split; [done |]. split; [done |]. intros ->.
    destruct Hret as [(_ & Hc' & Hstop) | [[? _] | ?]]; [| done | done]. rewrite put_pos, put_limit in Hstop. split; [by exists lc, lp, pb | done].
Qed.

#[export] Instance lzma2_is_core : LzCore lzma2_decode lzma2_ok.
Proof.
  split.
  - intros c d1 d2. apply lzma2_ok_full.
  - intros c d inp in_pos in_size Hc Hd _ Hb Hi Hs H64. apply lzma2_loop_good; try done.
    unfold lzma2_fuel. case_bool_decide; lia.
Qed.

(** ** LZMA2 from the start *)
Lemma lzma2_init_ok coder alloc has_lzma alloc_lzma o ret c lz d : lzma2_decoder_init coder alloc has_lzma alloc_lzma o = (ret, Some c, lz) ->
  0 <= uncompressed_size (lzma c) < 2 ^ 64 -> lzma2_ok c d /\ (ret = LZMA_OK -> lz = Some (dict_size o, preset_dict o)).
Proof.
  unfold lzma2_decoder_init. intros E Hu. assert (forall c0, (let c := set_needs (set_seq c0 SEQ_CONTROL) true (length (preset_dict o) =? 0)%nat in
      let '(ret, l, lz) := lzma_lzma_decoder_create (if has_lzma then Some (lzma c) else None) alloc_lzma o in
      (ret, Some (set_lzma c (default (lzma c) l)), lz)) = (ret, Some c, lz) -> seq2 c = SEQ_CONTROL /\ need_properties c = true /\
      (ret = LZMA_OK -> lz = Some (dict_size o, preset_dict o))) as H.
  { intros c0 E0. cbv zeta in E0. unfold lzma_lzma_decoder_create in E0. destruct has_lzma, alloc_lzma; injection E0 as <- <- <-; by split_and!. }
  assert (seq2 c = SEQ_CONTROL /\ need_properties c = true /\ (ret = LZMA_OK -> lz = Some (dict_size o, preset_dict o))) as (H1 & H2 & H3)
    by (destruct coder as [c0 |], alloc as [c1 |]; try (by apply (H c0)); try (by apply (H c1)); done).
  split; [| done]. split; [done |]. rewrite H1. intros Hn. congruence.
Qed.

(** C32: Whatever the input, [lzma2_decode] answers: it stays inside its buffers and the
    dictionary, never decodes with an LZMA decoder that was not reset since the
    dictionary was, and ends. It extends the dictionary, or asks for it to be reset
    after it did and read something; it asks for more only when all input is read
    or there is no room, and can then be called again. *)
Theorem lzma2_decode_safe inp in_size c d in_pos : bytes inp -> 0 <= in_pos <= in_size -> in_size <= Z.of_nat (length inp) -> in_size < 2 ^ 64 ->
  lzma2_ok c d -> dict_ok d -> loop_done in_size d in_pos (lzma2_decode c d inp in_pos in_size).
Proof.
  intros Hb Hi Hs H64 Hc Hd. apply lzma2_loop_good; try done. unfold lzma2_fuel. case_bool_decide; lia.
Qed.

(** A chunk with new properties, of an LZMA2 encoder, then the end marker, decoded
    through the wrapper: the first 20 bytes of the output, then the rest. *)
Definition sample2 : list Z :=
  [224; 0; 53; 0; 22; 93; 0; 48; 152; 136; 170; 237; 156; 3; 235; 24; 205; 115; 16; 64; 218; 20; 110; 69; 234; 45; 57; 14; 192; 0].
Definition sample2_options : lzma_options_lzma := MkOptions 4096 [] 0 0 0.
Definition blank2 : lzma_lzma2_coder := MkLzma2 SEQ_CONTROL SEQ_CONTROL blank_coder 0 0 false false sample2_options.
Definition sample2_coder : lzma_lzma2_coder := default blank2 (lzma2_decoder_init None (Some blank2) false (Some blank_coder) sample2_options).1.2.
Definition sample2_lz : lz_coder lzma_lzma2_coder := MkLz _ sample_dict sample2_coder false false 0 0 [].
Definition sample2_io : io := MkIo sample2 0 (replicate 20 0) 0.
Definition no_next : () -> io -> lzma_action -> option (lzma_ret * () * io) := fun u o _ => Some (LZMA_OK, u, o).

Example sample2_decoded :
  ('(ret1, c, _, o1) ← lz_decode lzma2_decode no_next 0 false sample2_lz () sample2_io LZMA_RUN;
   '(ret2, _, _, o2) ← lz_decode lzma2_decode no_next 0 false c () (MkIo sample2 (in_pos o1) (replicate 40 0) 0) LZMA_RUN;
   Some (ret1, out o1, ret2, take (Z.to_nat (out_pos o2)) (out o2), in_pos o2)) =
  Some (LZMA_OK, [97; 98; 99; 97; 98; 99; 97; 98; 99; 97; 98; 99; 97; 98; 99; 97; 98; 99; 97; 98], LZMA_STREAM_END,
        [99; 97; 98; 99; 32; 66; 105; 111; 115; 112; 104; 101; 114; 101; 32; 66; 105; 111; 115; 112; 104; 101; 114; 101; 32; 66; 105; 111; 115;
         112; 104; 101; 114; 101], 30).
Proof. vm_compute. reflexivity. Qed.

Lemma sample2_bytes : bytes sample2.
Proof. apply (bool_decide_unpack _). vm_compute. exact I. Qed.

Lemma sample2_coder_ok d : lzma2_ok sample2_coder d.
Proof.
  assert (exists c lz, lzma2_decoder_init None (Some blank2) false (Some blank_coder) sample2_options = (LZMA_OK, Some c, lz) /\
    0 <= uncompressed_size (lzma c) < 2 ^ 64) as (c & lz & E & Hu) by (do 2 eexists; split; [reflexivity | change (0 <= 2 ^ 64 - 1 < 2 ^ 64); lia]).
  unfold sample2_coder. rewrite E. by apply (lzma2_init_ok _ _ _ _ _ _ _ _ _ E Hu).
Qed.

Lemma lzma2_decode_safe_witness : loop_done 30 sample_dict 0 (lzma2_decode sample2_coder sample_dict sample2 0 30).
Proof. apply lzma2_decode_safe; [exact sample2_bytes | lia | cbn; lia | lia | apply sample2_coder_ok | exact sample_dict_ok]. Defined.

Lemma lz_decode_refines_witness :
  exists ret c' o' w, lz_decode lzma2_decode no_next 0 false sample2_lz () sample2_io LZMA_RUN = Some (ret, c', (), o') /\ moved sample2_io o' w.
Proof.
  destruct (lz_decode_refines lzma2_decode lzma2_ok no_next 0 sample2_lz () sample2_io LZMA_RUN) as (ret & c' & o' & w & E & Hm & _).
  - apply sample2_coder_ok.
  - exact (dict_wf_ok _ sample_dict_ok eq_refl).
  - unfold io_ok, in_size, out_size. cbn. lia.
  - exact sample2_bytes.
  - exists ret, c', o', w. split; [exact E | exact Hm].
Defined.
