(* ===== verification/VliStream.v ===== *)
(** * liblzma: variable-length integers read in pieces

    What the calls of [lzma_vli_decode] that read one integer, a few bytes each time,
    make of the bytes read so far, and of any bytes at all: the decoders of Block
    Headers and of the Index are verified with these. *)

From Stdlib Require Import ZArith Lia.
From stdpp Require Import base list option.
From S2P Require Import Prelude LzmaBase Vli Coder.
Local Open Scope Z_scope.

(** The integer of groups of seven bits, the lowest first. *)
Fixpoint groups_value (bs : list Z) : Z :=
  match bs with [] => 0 | b :: bs => b mod 128 + 128 * groups_value bs end.

(** More bytes have to follow. *)
Definition unfinished (bs : list Z) : Prop := Forall (fun b => 128 <= b < 256) bs.

(** The bytes read so far, when decoding stopped between two calls. *)
Definition partial (bs : list Z) (vli pos : Z) : Prop :=
  unfinished bs /\ pos = Z.of_nat (length bs) /\ pos < LZMA_VLI_BYTES_MAX /\ vli = groups_value bs.

Lemma partial_nil : partial [] 0 0.
Proof. split; [constructor | done]. Qed.

Lemma groups_value_app a b : groups_value (a ++ b) = groups_value a + 2 ^ (7 * Z.of_nat (length a)) * groups_value b.
Proof.
  induction a as [| x a IH]; cbn [app groups_value length]; [change (2 ^ _) with 1; lia |]. rewrite IH.
  replace (7 * Z.of_nat (S (length a))) with (7 + 7 * Z.of_nat (length a)) by lia. rewrite Z.pow_add_r by lia. change (2 ^ 7) with 128. lia.
Qed.

Lemma groups_value_range bs : 0 <= groups_value bs < 2 ^ (7 * Z.of_nat (length bs)).
Proof.
  induction bs as [| b bs IH]; cbn [groups_value length]; [done |].
  replace (7 * Z.of_nat (S (length bs))) with (7 + 7 * Z.of_nat (length bs)) by lia. rewrite Z.pow_add_r by lia. change (2 ^ 7) with 128.
  pose proof (Z.mod_pos_bound b 128 eq_refl). lia.
Qed.

(** The encodings: unfinished bytes and a last one, which is not a needless zero. *)
Lemma vli_groups_last n a b : unfinished a -> 0 <= b < 128 -> (b = 0 -> a = []) -> (length a < n)%nat ->
  vli_groups n (groups_value (a ++ [b])) = a ++ [b].
Proof.
  revert n. induction a as [| x a IH]; intros n Ha Hb Hz Hn; (destruct n as [| n]; [cbn in Hn; lia |]).
  - cbn [app groups_value]. rewrite Z.mul_0_r, Z.add_0_r, Z.mod_small by lia. by rewrite vli_groups_lt by lia.
  - apply list.Forall_cons in Ha as [Hx Ha]. cbn [app groups_value length] in *.
    assert (0 < b) as Hb0 by (destruct (Z.eq_dec b 0) as [E | E]; [by specialize (Hz E) | lia]).
    assert (1 <= groups_value (a ++ [b])) as H1.
    { rewrite groups_value_app. cbn [groups_value]. rewrite Z.mul_0_r, Z.add_0_r, (Z.mod_small b) by lia.
      pose proof (groups_value_range a). pose proof (Z.pow_pos_nonneg 2 (7 * Z.of_nat (length a)) ltac:(lia) ltac:(lia)). nia. }
    pose proof (Z.mod_pos_bound x 128 eq_refl) as Hm. rewrite vli_groups_ge by lia.
    assert ((x mod 128 + 128 * groups_value (a ++ [b])) mod 128 = x mod 128) as ->.
    { rewrite Z.add_comm, Z.mul_comm, Z.add_comm, Z.mod_add, Z.mod_mod by lia. done. }
    assert ((x mod 128 + 128 * groups_value (a ++ [b])) / 128 = groups_value (a ++ [b])) as ->.
    { rewrite Z.mul_comm, Z.div_add, Z.div_small by lia. lia. }
    rewrite IH; [| done | done | intros; lia | lia]. f_equal. pose proof (Z.div_mod x 128 ltac:(lia)).
    assert (x / 128 = 1) by (symmetry; apply (Z.div_unique x 128 1 (x - 128)); lia). lia.
Qed.

Lemma vli_groups_shape n v : 0 <= v < 2 ^ (7 * Z.of_nat (S n)) -> exists a b, vli_groups (S n) v = a ++ [b] /\ unfinished a /\
  0 <= b < 128 /\ (b = 0 -> a = []) /\ (length a <= n)%nat /\ groups_value (a ++ [b]) = v.
Proof.
  revert v. induction n as [| n IH]; intros v Hv.
  - change (2 ^ (7 * Z.of_nat 1)) with 128 in Hv. rewrite vli_groups_lt by lia. exists [], v. cbn [app groups_value].
    rewrite Z.mod_small by lia. split; [done |]. split; [constructor |]. split; [lia |]. split; [done |]. split; [cbn; lia | lia].
  - destruct (Z.lt_ge_cases v 128).
    + rewrite vli_groups_lt by lia. exists [], v. cbn [app groups_value].
      rewrite Z.mod_small by lia. split; [done |]. split; [constructor |]. split; [lia |]. split; [done |]. split; [cbn; lia | lia].
    + destruct (vli_shift_bound (S n) v) as [H1 H2]; [lia | lia |]. destruct (IH (v / 128)) as (a & b & E & Ha & Hb & Hz & Hl & Hg); [lia |].
      rewrite vli_groups_ge, E by lia. exists ((128 + v mod 128) :: a), b. pose proof (Z.mod_pos_bound v 128 eq_refl). pose proof (Z.div_mod v 128 ltac:(lia)).
      split; [done |]. split; [constructor; [lia | done] |]. split; [done |]. split.
      { intros ->. rewrite (Hz eq_refl) in Hg. change (0 = v / 128) in Hg. pose proof (Z.div_str_pos v 128 ltac:(lia)). lia. }
      split; [cbn; lia |]. cbn [app groups_value]. rewrite Hg. replace (128 + v mod 128) with (v mod 128 + 1 * 128) by lia.
      rewrite Z.mod_add, Z.mod_mod by lia. lia.
Qed.

Lemma vli_bytes_shape v : 0 <= v <= LZMA_VLI_MAX -> exists a b, vli_bytes v = a ++ [b] /\ unfinished a /\
  0 <= b < 128 /\ (b = 0 -> a = []) /\ Z.of_nat (length a) < LZMA_VLI_BYTES_MAX /\ groups_value (a ++ [b]) = v.
Proof.
  intros Hv. rewrite vli_bytes_9 by done. destruct (vli_groups_shape 8 v) as (a & b & E & Ha & Hb & Hz & Hl & Hg).
  { change (7 * Z.of_nat 9) with 63. change LZMA_VLI_MAX with (2 ^ 63 - 1) in Hv. lia. }
  exists a, b. unfold LZMA_VLI_BYTES_MAX. split_and!; (done || lia).
Qed.

Lemma vli_bytes_last a b : unfinished a -> 0 <= b < 128 -> (b = 0 -> a = []) -> Z.of_nat (length a) < LZMA_VLI_BYTES_MAX ->
  vli_bytes (groups_value (a ++ [b])) = a ++ [b] /\ 0 <= groups_value (a ++ [b]) <= LZMA_VLI_MAX.
Proof.
  unfold LZMA_VLI_BYTES_MAX. intros Ha Hb Hz Hl. split; [apply vli_groups_last; (done || lia) |].
  pose proof (groups_value_range (a ++ [b])) as Hr. rewrite length_app in Hr. cbn in Hr.
  assert (2 ^ (7 * Z.of_nat (length a + 1)) <= 2 ^ 63) by (apply Z.pow_le_mono_r; lia). change LZMA_VLI_MAX with (2 ^ 63 - 1). lia.
Qed.

(** No encoding begins another. *)
Lemma unfinished_split a1 b1 r1 a2 b2 r2 : unfinished a1 -> unfinished a2 -> b1 < 128 -> b2 < 128 ->
  a1 ++ b1 :: r1 = a2 ++ b2 :: r2 -> a1 = a2 /\ b1 = b2 /\ r1 = r2.
Proof.
  revert a2. induction a1 as [| x a1 IH]; intros [| y a2] H1 H2 Hb1 Hb2 E; cbn [app] in E; injection E; intros.
  - done.
  - subst. apply list.Forall_cons in H2 as [? _]. lia.
  - subst. apply list.Forall_cons in H1 as [? _]. lia.
  - apply list.Forall_cons in H1 as [_ H1]. apply list.Forall_cons in H2 as [_ H2]. subst y. destruct (IH a2) as (-> & -> & ->); done.
Qed.

(** ** Any bytes

    What one call of [lzma_vli_decode] after the bytes [bs] of an integer makes of
    the input: it reads [bs'] of it. *)
Definition not_vli (bs : list Z) : Prop := forall w r1 r2, 0 <= w <= LZMA_VLI_MAX -> bs ++ r1 <> vli_bytes w ++ r2.

Definition read_more (single : bool) (bs : list Z) (in_size : Z) (ret : lzma_ret) (v p e : Z) : Prop :=
  (ret = (if single then LZMA_OK else LZMA_STREAM_END) /\ bs = vli_bytes v /\ 0 <= v <= LZMA_VLI_MAX) \/
  (ret = (if single then LZMA_DATA_ERROR else LZMA_OK) /\ partial bs v p /\ bs <> [] /\ e = in_size) \/
  (ret = LZMA_DATA_ERROR /\ not_vli bs).

Lemma seg_cons inp i j b : 0 <= i < j -> j <= Z.of_nat (length inp) -> rd inp i = Some b -> seg inp i j = b :: seg inp (i + 1) j.
Proof.
  intros Hi Hj Hr. rewrite (seg_app inp i (i + 1) j) by lia. rewrite rd_total in Hr by lia. injection Hr as Hr.
  unfold seg at 1. replace (Z.to_nat (i + 1 - i)) with 1%nat by lia.
  rewrite (drop_S inp (inp !!! Z.to_nat i)) by (apply list_lookup_lookup_total_lt; lia). cbn. by rewrite Hr.
Qed.

Lemma vli_decode_loop_any n single vli pos bs inp in_pos in_size : bytes inp -> partial bs vli pos -> pos + Z.of_nat (S n) = LZMA_VLI_BYTES_MAX ->
  0 <= in_pos < in_size -> in_size <= Z.of_nat (length inp) ->
  exists ret v p e, vli_decode_loop (S n) single vli pos inp in_pos in_size = Some (ret, v, p, e) /\ in_pos < e <= in_size /\
    read_more single (bs ++ seg inp in_pos e) in_size ret v p e.
Proof.
  intros Hb. revert vli pos bs in_pos. induction n as [| n IH]; intros vli pos bs in_pos (Hu & Hp & Hm & Hv) Hn Hi Hs;
    rewrite vli_decode_unfold; (rewrite rd_total by lia); cbn [mbind option_bind]; cbv zeta; set (b := inp !!! Z.to_nat in_pos);
    (assert (rd inp in_pos = Some b) as Hrd by (apply rd_total; lia)); pose proof (rd_byte _ _ _ Hb Hrd) as Hbb; unfold is_byte in Hbb;
    rewrite land_128, land_127 by done; pose proof (Z.mod_pos_bound b 128 eq_refl) as Hmod;
    pose proof (groups_value_range bs) as Hr; rewrite <- Hp, <- Hv in Hr;
    (destruct (vli_add_group vli (b mod 128) pos) as [-> Hlt]; [lia | done | done |]);
    (assert (vli + b mod 128 * 2 ^ (7 * pos) = groups_value (bs ++ [b])) as Ev by
      (rewrite groups_value_app, <- Hv, <- Hp; cbn [groups_value]; lia)); rewrite Ev;
    (assert (seg inp in_pos (in_pos + 1) = [b]) as Es by (rewrite (seg_cons inp in_pos (in_pos + 1) b) by (done || lia); unfold seg; by rewrite Z.sub_diag)).
  1, 2: destruct (Z.ltb_spec b 128) as [Hb1 | Hb1].
  1, 3: destruct ((b =? 0) && (1 <? pos + 1)) eqn:Ez; do 4 eexists; (split; [reflexivity |]); (split; [lia |]); rewrite Es;
    [right; right; split; [done |]; apply andb_true_iff in Ez as [Ez1%Z.eqb_eq Ez2%Z.ltb_lt]; intros w r1 r2 Hw E;
     destruct (vli_bytes_shape w Hw) as (a2 & b2 & Ew & Ha2 & Hb2 & Hz2 & _); rewrite Ew, <- !app_assoc in E; cbn [app] in E;
     destruct (unfinished_split _ _ _ _ _ _ Hu Ha2 Hb1 (proj2 Hb2) E) as (-> & <- & _); specialize (Hz2 Ez1); subst a2; cbn in Hp; lia
    |left; destruct (vli_bytes_last bs b Hu ltac:(lia)) as [E1 E2]; [intros ->; destruct bs; [done |]; cbn [length] in Hp; rewrite (proj2 (Z.ltb_lt 1 (pos + 1))) in Ez by lia; done | lia | by rewrite E1 ]].
  - (* the ninth byte *)
    rewrite (proj2 (Z.eqb_eq _ _)) by lia. do 4 eexists. split; [reflexivity |]. split; [lia |]. rewrite Es. right. right. split; [done |].
    intros w r1 r2 Hw E. destruct (vli_bytes_shape w Hw) as (a2 & b2 & Ew & Ha2 & Hb2 & Hz2 & Hl & _). rewrite Ew, <- !app_assoc in E. cbn [app] in E.
    assert (length a2 < length (bs ++ [b]))%nat as Hl2 by (rewrite length_app; cbn; lia).
    assert ((bs ++ [b]) !! length a2 = Some b2) as Hl3.
    { transitivity ((bs ++ b :: r1) !! length a2); [| by rewrite E, list_lookup_middle]. change (b :: r1) with ([b] ++ r1).
      rewrite app_assoc. symmetry. by apply lookup_app_l. }
    assert (unfinished (bs ++ [b])) as Hub by (apply Forall_app; split; [done | constructor; [lia | constructor]]).
    pose proof (Forall_lookup_1 _ _ _ _ Hub Hl3). cbn in *. lia.
  - rewrite (proj2 (Z.eqb_neq _ _)) by lia.
    assert (partial (bs ++ [b]) (groups_value (bs ++ [b])) (pos + 1)) as Hpart.
    { split; [apply Forall_app; split; [done | constructor; [lia | constructor]] |]. rewrite length_app. cbn. split; [lia |]. split; [lia | done]. }
    destruct (Z.ltb_spec (in_pos + 1) in_size) as [Hin | Hin].
    + destruct (IH _ _ _ (in_pos + 1) Hpart) as (ret & v & p & e & -> & He & Hm2); [lia | lia | lia |].
      do 4 eexists. split; [reflexivity |]. split; [lia |]. rewrite <- app_assoc in Hm2. by rewrite (seg_cons inp in_pos e b) by (done || lia).
    + do 4 eexists. split; [reflexivity |]. split; [lia |]. rewrite Es. right. left. split; [done |]. split; [exact Hpart |]. split; [| lia].
      intros E. apply app_eq_nil in E as [_ E]. done.
Qed.

(** One call in the mode that keeps the position. *)
Lemma vli_decode_stream vli pos bs inp in_pos in_size : bytes inp -> partial bs (if pos =? 0 then 0 else vli) pos ->
  0 <= in_pos < in_size -> in_size <= Z.of_nat (length inp) ->
  exists ret v p e, lzma_vli_decode vli (Some pos) inp in_pos in_size = Some (ret, v, Some p, e) /\ in_pos < e <= in_size /\
    read_more false (bs ++ seg inp in_pos e) in_size ret v p e.
Proof.
  intros Hb Hp Hi Hs. unfold lzma_vli_decode. set (acc := if pos =? 0 then 0 else vli) in *. pose proof Hp as (_ & Hp1 & Hp2 & Hp3).
  pose proof (groups_value_range bs) as Hr. rewrite <- Hp1, <- Hp3 in Hr.
  rewrite (proj2 (Z.leb_gt LZMA_VLI_BYTES_MAX pos)), Z.shiftr_div_pow2, Z.mul_comm, Z.div_small by lia. cbn [orb negb Z.eqb].
  rewrite (proj2 (Z.leb_gt in_size in_pos)) by lia. unfold LZMA_VLI_BYTES_MAX in Hp2.
  rewrite (vli_decode_fuel 9 (S (Z.to_nat (8 - pos)))) by (unfold LZMA_VLI_BYTES_MAX; lia).
  destruct (vli_decode_loop_any (Z.to_nat (8 - pos)) false acc pos bs inp in_pos in_size Hb Hp) as (ret & v & p & e & -> & He & Hm);
    [unfold LZMA_VLI_BYTES_MAX; lia | done | done |]. cbn [mbind option_bind]. by exists ret, v, p, e.
Qed.

(** The mode for the whole integer at once. *)
Lemma vli_decode_whole vli inp in_pos in_size : bytes inp -> 0 <= in_pos <= in_size -> in_size <= Z.of_nat (length inp) ->
  exists ret v e, lzma_vli_decode vli None inp in_pos in_size = Some (ret, v, None, e) /\ in_pos <= e <= in_size /\
    ((ret = LZMA_OK /\ seg inp in_pos e = vli_bytes v /\ 0 <= v <= LZMA_VLI_MAX) \/
     (ret = LZMA_DATA_ERROR /\ forall w rest, 0 <= w <= LZMA_VLI_MAX -> seg inp in_pos in_size <> vli_bytes w ++ rest)).
Proof.
  intros Hb Hi Hs. unfold lzma_vli_decode. destruct (Z.leb_spec in_size in_pos) as [H | H].
  - do 3 eexists. split; [reflexivity |]. split; [lia |]. right. split; [done |]. intros w rest Hw E.
    replace in_pos with in_size in E by lia. pose proof (vli_len_range w Hw) as Hl. unfold vli_len in Hl.
    apply (f_equal length) in E. pose proof (seg_length inp in_size in_size ltac:(lia) Hs). rewrite length_app in E. lia.
  - destruct (vli_decode_loop_any 8 true 0 0 [] inp in_pos in_size Hb partial_nil) as (ret & v & p & e & -> & He & Hm); [done | lia | lia |].
    cbn [mbind option_bind app] in *. exists ret, v, e. split; [done |]. split; [lia |].
    destruct Hm as [(-> & E & Hv) | [(-> & Hp & Hne & ->) | (-> & Hn)]]; [by left | right | right]; (split; [done |]); intros w rest Hw E.
    + destruct Hp as (Hu & _). destruct (vli_bytes_shape w Hw) as (a & b & Ew & Ha & Hb2 & _). rewrite E, Ew in Hu.
      unfold unfinished in Hu. rewrite !Forall_app, Forall_singleton in Hu. lia.
    + apply (Hn w (seg inp e in_size) rest Hw). rewrite <- E. symmetry. apply seg_app; lia.
Qed.

(** What follows an encoding does not matter. *)
Lemma vli_decode_value vli v pre post in_size : bytes (pre ++ vli_bytes v ++ post) -> 0 <= v <= LZMA_VLI_MAX ->
  Z.of_nat (length pre) + vli_len v <= in_size -> in_size <= Z.of_nat (length (pre ++ vli_bytes v ++ post)) ->
  lzma_vli_decode vli None (pre ++ vli_bytes v ++ post) (Z.of_nat (length pre)) in_size = Some (LZMA_OK, v, None, Z.of_nat (length pre) + vli_len v).
Proof.
  intros Hb Hv Hl Hs. pose proof (vli_len_range v Hv) as Hr. unfold lzma_vli_decode. rewrite (proj2 (Z.leb_gt _ _)) by lia. unfold vli_len in *.
  rewrite vli_bytes_9 in * by done. rewrite vli_decode_loop_groups; try (done || lia).
  - cbn [mbind option_bind]. by replace (0 + v * 2 ^ (7 * 0)) with v by (simpl; lia).
  - change (7 * Z.of_nat 9) with 63. change LZMA_VLI_MAX with (2 ^ 63 - 1) in Hv. lia.
Qed.

(** Two encodings that begin the same bytes are the same. *)
Lemma vli_bytes_prefix v w r1 r2 : 0 <= v <= LZMA_VLI_MAX -> 0 <= w <= LZMA_VLI_MAX -> vli_bytes v ++ r1 = vli_bytes w ++ r2 -> v = w /\ r1 = r2.
Proof.
  intros Hv Hw E. destruct (vli_bytes_shape v Hv) as (a1 & b1 & E1 & Ha1 & Hb1 & _ & _ & G1). destruct (vli_bytes_shape w Hw) as (a2 & b2 & E2 & Ha2 & Hb2 & _ & _ & G2).
  rewrite E1, E2, <- !app_assoc in E. cbn [app] in E.
  destruct (unfinished_split _ _ _ _ _ _ Ha1 Ha2 (proj2 Hb1) (proj2 Hb2) E) as (Ea & Eb & Er). subst a2 b2. split; [congruence | done].
Qed.

Lemma vli_bytes_bytes v : 0 <= v -> bytes (vli_bytes v).
Proof. apply vli_groups_bytes. Qed.
