(* ===== verification/Filters.v ===== *)
(** * liblzma: filters and their options

    common/filter_common.c, common/filter_decoder.c, common/filter_flags_decoder.c
    and simple/simple_decoder.c: the tables of the filters, which chains of them are
    valid, what memory they need, and how the flags of a filter in a Block Header give
    its options. A filter array is a list of entries up to and with the one whose ID
    is [LZMA_VLI_UNKNOWN]; [None] is a read past it or past a buffer. *)

From Stdlib Require Import ZArith Lia.
From stdpp Require Import base list option.
From S2P Require Import Prelude LzmaBase Vli VliStream StreamFlags Coder Delta RangeDecoder LzDict Lzma LzDecoder Lzma2.
Local Open Scope Z_scope.

Definition LZMA_FILTERS_MAX : Z := 4.
Definition LZMA_FILTER_RESERVED_START : Z := 2 ^ 62.
Definition LZMA_MEMUSAGE_BASE : Z := 2 ^ 15.
Definition LZMA_FILTER_DELTA : Z := 0x03.
Definition LZMA_FILTER_X86 : Z := 0x04.
Definition LZMA_FILTER_POWERPC : Z := 0x05.
Definition LZMA_FILTER_IA64 : Z := 0x06.
Definition LZMA_FILTER_ARM : Z := 0x07.
Definition LZMA_FILTER_ARMTHUMB : Z := 0x08.
Definition LZMA_FILTER_SPARC : Z := 0x09.
Definition LZMA_FILTER_LZMA2 : Z := 0x21.
Definition LZMA_FILTER_LZMA1 : Z := 0x4000000000000001.

(** What [options] points to; which structure it is depends on the filter. *)
Inductive filter_options := Opt_lzma (o : lzma_options_lzma) | Opt_delta (o : lzma_options_delta) | Opt_bcj (start_offset : Z).

Record lzma_filter := MkFilter { id : Z; filter_opts : option filter_options }.

(** ** Which chains are valid *)
Record feature := MkFeature { f_id : Z; non_last_ok : bool; last_ok : bool; changes_size : bool }.

Definition features : list feature :=
  [MkFeature LZMA_FILTER_LZMA1 false true true; MkFeature LZMA_FILTER_LZMA2 false true true; MkFeature LZMA_FILTER_X86 true false false;
   MkFeature LZMA_FILTER_POWERPC true false false; MkFeature LZMA_FILTER_IA64 true false false; MkFeature LZMA_FILTER_ARM true false false;
   MkFeature LZMA_FILTER_ARMTHUMB true false false; MkFeature LZMA_FILTER_SPARC true false false; MkFeature LZMA_FILTER_DELTA true false false;
   MkFeature LZMA_VLI_UNKNOWN false false false].

(** The index [j] that the loop stops at; [None] where it runs off the table. *)
Fixpoint feature_find (table : list feature) (i : Z) : option (option feature) :=
  match table with
  | [] => None
  | f :: table => if f_id f =? i then Some (Some f) else if f_id f =? LZMA_VLI_UNKNOWN then Some None else feature_find table i
  end.

(** The loop, from the entry [i]; [filters] is the array from there on. *)
Fixpoint validate_loop (filters : list lzma_filter) (i : Z) (non_last : bool) (changes_size_count : Z) : option (lzma_ret * Z) :=
  match filters with
  | [] => None
  | f :: rest =>
      ft ← feature_find features (id f);
      match ft with
      | None => Some (LZMA_OPTIONS_ERROR, 0)
      | Some ft =>
          if negb non_last then Some (LZMA_OPTIONS_ERROR, 0)
          else
            let changes_size_count := changes_size_count + Z.b2z (changes_size ft) in
            let i := i + 1 in
            next ← head rest;
            if negb (id next =? LZMA_VLI_UNKNOWN) then validate_loop rest i (non_last_ok ft) changes_size_count
            else if (LZMA_FILTERS_MAX <? i) || negb (last_ok ft) || (3 <? changes_size_count) then Some (LZMA_OPTIONS_ERROR, 0)
            else Some (LZMA_OK, i)
      end
  end.

Definition validate_chain (filters : list lzma_filter) : option (lzma_ret * Z) :=
  f ← head filters;
  if id f =? LZMA_VLI_UNKNOWN then Some (LZMA_PROG_ERROR, 0) else validate_loop filters 0 true 0.

(** ** simple_decoder.c *)
Definition lzma_simple_props_decode (alloc : bool) (props : list Z) : option (lzma_ret * option Z) :=
  if Z.of_nat (length props) =? 0 then Some (LZMA_OK, None)
  else if negb (Z.of_nat (length props) =? 4) then Some (LZMA_OPTIONS_ERROR, None)
  else if negb alloc then Some (LZMA_MEM_ERROR, None)
  else
    off ← unaligned_read32le props 0;
    Some (LZMA_OK, if off =? 0 then None else Some off).

(** ** filter_decoder.c *)

(** The functions that initialize the decoders. *)
Inductive filter_init := lzma_lzma_decoder_init | lzma_lzma2_decoder_init | lzma_simple_x86_decoder_init | lzma_simple_powerpc_decoder_init
  | lzma_simple_ia64_decoder_init | lzma_simple_arm_decoder_init | lzma_simple_armthumb_decoder_init | lzma_simple_sparc_decoder_init
  | lzma_delta_decoder_init.

#[export] Instance filter_init_eq_dec : EqDecision filter_init.
Proof. solve_decision. Defined.

Record lzma_filter_decoder := MkDecoder {
  d_id : Z; d_init : filter_init; d_memusage : option (option filter_options -> option Z);
  d_props_decode : option (bool -> list Z -> option (lzma_ret * option filter_options)) }.

(** The sizes of the structures, on the machine. *)
Record sizes := MkSizes { sizeof_lz : Z; sizeof_lzma1 : Z; sizeof_lzma2 : Z; sizeof_delta : Z }.

Section decoders.
  Context (sz : sizes).

Definition lzma_lzma_decoder_memusage_nocheck (o : lzma_options_lzma) : Z := u64 (sizeof_lzma1 sz + lzma_lz_decoder_memusage (sizeof_lz sz) (dict_size o)).

Definition lzma_lzma_decoder_memusage (o : lzma_options_lzma) : Z :=
  if negb (is_lclppb_valid o) then UINT64_MAX else lzma_lzma_decoder_memusage_nocheck o.

Definition lzma_lzma2_decoder_memusage (o : lzma_options_lzma) : Z := u64 (sizeof_lzma2 sz + lzma_lzma_decoder_memusage_nocheck o).

(** Reading the options through a pointer of the type that the filter's are. *)
Definition with_lzma {A} (f : lzma_options_lzma -> A) (o : option filter_options) : option A :=
  match o with Some (Opt_lzma o) => Some (f o) | _ => None end.
Definition with_delta {A} (f : option lzma_options_delta -> A) (o : option filter_options) : option A :=
  match o with Some (Opt_delta o) => Some (f (Some o)) | None => Some (f None) | _ => None end.

Definition props_of {A} (wrap : A -> filter_options) (r : option (lzma_ret * option A)) : option (lzma_ret * option filter_options) :=
  match r with Some (ret, o) => Some (ret, option_map wrap o) | None => None end.
Definition lzma_props (alloc : bool) (props : list Z) := props_of Opt_lzma (lzma_lzma_props_decode alloc props).
Definition lzma2_props (alloc : bool) (props : list Z) := props_of Opt_lzma (lzma_lzma2_props_decode alloc props).
Definition simple_props (alloc : bool) (props : list Z) := props_of Opt_bcj (lzma_simple_props_decode alloc props).
Definition delta_props (alloc : bool) (props : list Z) := props_of Opt_delta (lzma_delta_props_decode alloc props (Z.of_nat (length props))).

Definition simple_decoder (id : Z) (init : filter_init) : lzma_filter_decoder := MkDecoder id init None (Some simple_props).

Definition decoders : list lzma_filter_decoder :=
  [MkDecoder LZMA_FILTER_LZMA1 lzma_lzma_decoder_init (Some (with_lzma lzma_lzma_decoder_memusage)) (Some lzma_props);
   MkDecoder LZMA_FILTER_LZMA2 lzma_lzma2_decoder_init (Some (with_lzma lzma_lzma2_decoder_memusage)) (Some lzma2_props);
   simple_decoder LZMA_FILTER_X86 lzma_simple_x86_decoder_init; simple_decoder LZMA_FILTER_POWERPC lzma_simple_powerpc_decoder_init;
   simple_decoder LZMA_FILTER_IA64 lzma_simple_ia64_decoder_init; simple_decoder LZMA_FILTER_ARM lzma_simple_arm_decoder_init;
   simple_decoder LZMA_FILTER_ARMTHUMB lzma_simple_armthumb_decoder_init; simple_decoder LZMA_FILTER_SPARC lzma_simple_sparc_decoder_init;
   MkDecoder LZMA_FILTER_DELTA lzma_delta_decoder_init (Some (with_delta (lzma_delta_coder_memusage (sizeof_delta sz)))) (Some delta_props)].

Definition decoder_find (i : Z) : option lzma_filter_decoder := find (fun d => d_id d =? i) decoders.

Definition lzma_filter_decoder_is_supported (i : Z) : bool := bool_decide (is_Some (decoder_find i)).

Definition lzma_properties_decode (f : lzma_filter) (alloc : bool) (props : list Z) : option (lzma_ret * lzma_filter) :=
  let f := MkFilter (id f) None in
  match decoder_find (id f) with
  | None => Some (LZMA_OPTIONS_ERROR, f)
  | Some fd =>
      match d_props_decode fd with
      | None => Some (if Z.of_nat (length props) =? 0 then LZMA_OK else LZMA_OPTIONS_ERROR, f)
      | Some props_decode => '(ret, o) ← props_decode alloc props; Some (ret, MkFilter (id f) o)
      end
  end.

(** *** The memory of a chain *)
Fixpoint memusage_loop (filters : list lzma_filter) (total : Z) : option Z :=
  match filters with
  | [] => None
  | f :: rest =>
      match decoder_find (id f) with
      | None => Some UINT64_MAX
      | Some fc =>
          usage ← (match d_memusage fc with None => Some 1024 | Some memusage => memusage (filter_opts f) end);
          if bool_decide (is_Some (d_memusage fc)) && (usage =? UINT64_MAX) then Some UINT64_MAX
          else
            let total := u64 (total + usage) in
            next ← head rest;
            if negb (id next =? LZMA_VLI_UNKNOWN) then memusage_loop rest total else Some (u64 (total + LZMA_MEMUSAGE_BASE))
      end
  end.

Definition lzma_raw_decoder_memusage (filters : list lzma_filter) : option Z :=
  '(ret, _) ← validate_chain filters;
  if negb (bool_decide (ret = LZMA_OK)) then Some UINT64_MAX else memusage_loop filters 0.

(** ** filter_flags_decoder.c *)
Definition lzma_filter_flags_decode (f : lzma_filter) (alloc : bool) (inp : list Z) (in_pos in_size : Z) : option (lzma_ret * lzma_filter * Z) :=
  '(ret, i, _, in_pos) ← lzma_vli_decode (id f) None inp in_pos in_size;
  let f := MkFilter i None in
  if negb (bool_decide (ret = LZMA_OK)) then Some (ret, f, in_pos)
  else if LZMA_FILTER_RESERVED_START <=? id f then Some (LZMA_DATA_ERROR, f, in_pos)
  else
    '(ret, props_size, _, in_pos) ← lzma_vli_decode 0 None inp in_pos in_size;
    if negb (bool_decide (ret = LZMA_OK)) then Some (ret, f, in_pos)
    else if u64 (in_size - in_pos) <? props_size then Some (LZMA_DATA_ERROR, f, in_pos)
    else
      props ← rd_bytes inp in_pos (Z.to_nat props_size);
      '(ret, f) ← lzma_properties_decode f alloc props;
      Some (ret, f, in_pos + props_size).
End decoders.

(** ** Well-formed options *)
Definition branch_filters : list Z := [LZMA_FILTER_X86; LZMA_FILTER_POWERPC; LZMA_FILTER_IA64; LZMA_FILTER_ARM; LZMA_FILTER_ARMTHUMB; LZMA_FILTER_SPARC].

Definition filter_ok (f : lzma_filter) : Prop :=
  match filter_opts f with
  | Some (Opt_lzma o) => (id f = LZMA_FILTER_LZMA1 \/ id f = LZMA_FILTER_LZMA2) /\ options_ok o /\ 0 <= dict_size o < 2 ^ 32 /\ preset_dict o = []
  | Some (Opt_delta o) => id f = LZMA_FILTER_DELTA /\ opt_type o = LZMA_DELTA_TYPE_BYTE /\ LZMA_DELTA_DIST_MIN <= dist o <= LZMA_DELTA_DIST_MAX
  | Some (Opt_bcj off) => id f ∈ branch_filters /\ 0 < off < 2 ^ 32
  | None => id f ∈ branch_filters
  end.

Lemma filter_ok_known f : filter_ok f -> id f = LZMA_FILTER_LZMA1 \/ id f = LZMA_FILTER_LZMA2 \/ id f = LZMA_FILTER_DELTA \/ id f ∈ branch_filters.
Proof. unfold filter_ok. destruct (filter_opts f) as [[] |]; tauto. Qed.

Lemma decoder_find_cases sz i d : decoder_find sz i = Some d ->
  (i = LZMA_FILTER_LZMA1 /\ d_props_decode d = Some lzma_props) \/ (i = LZMA_FILTER_LZMA2 /\ d_props_decode d = Some lzma2_props) \/
  (i = LZMA_FILTER_DELTA /\ d_props_decode d = Some delta_props) \/ (i ∈ branch_filters /\ d_props_decode d = Some simple_props).
Proof.
  intros E. apply find_some in E as [Hin E]. apply Z.eqb_eq in E as <-. unfold decoders in Hin. cbn [In] in Hin.
  unfold branch_filters. rewrite !elem_of_cons.
  destruct Hin as [<- | [<- | [<- | [<- | [<- | [<- | [<- | [<- | [<- | []]]]]]]]]]; cbn; tauto.
Qed.

(** Four bytes of a buffer. *)
Lemma read32le_total l i : bytes l -> 0 <= i -> i + 4 <= Z.of_nat (length l) ->
  exists x, unaligned_read32le l i = Some x /\ 0 <= x < 2 ^ 32 /\ seg l i (i + 4) = le32 x.
Proof.
  intros Hb Hi Hl. pose proof (seg_split l i (i + 4) ltac:(lia) Hl) as E.
  pose proof (seg_length l i (i + 4) ltac:(lia) Hl) as Hlen. set (m := seg l i (i + 4)) in *. rewrite E in Hb.
  apply Forall_app in Hb as [_ Hb]. apply Forall_app in Hb as [Hb _].
  do 4 (destruct m as [| ? m]; [cbn in Hlen; lia |]). destruct m; [| cbn in Hlen; lia].
  repeat match goal with H : Forall _ (_ :: _) |- _ => apply list.Forall_cons in H as [? H] end.
  destruct (read32le_at (take (Z.to_nat i) l) z z0 z1 z2 (drop (Z.to_nat (i + 4)) l) i) as (x & Ex & Em & Hx); try done; [rewrite length_take; lia |].
  exists x. split; [by rewrite E |]. by split.
Qed.

(** Decoding properties: total, and what it accepts is well formed. *)
Lemma lzma_props_ok alloc props : bytes props -> exists ret o, lzma_lzma_props_decode alloc props = Some (ret, o) /\
  (ret = LZMA_OK -> exists o', o = Some o' /\ options_ok o' /\ 0 <= dict_size o' < 2 ^ 32 /\ preset_dict o' = []).
Proof.
  intros Hb. unfold lzma_lzma_props_decode. destruct (Z.eqb_spec (Z.of_nat (length props)) 5) as [El | El]; cbn [negb]; [| by do 2 eexists].
  destruct alloc; cbn [negb]; [| by do 2 eexists]. rewrite rd_total by lia. cbn [mbind option_bind].
  assert (0 <= props !!! Z.to_nat 0 < 256) as Hb0.
  { assert (is_byte (props !!! Z.to_nat 0)) as H; [| exact H]. apply (rd_byte props 0); [done |]. apply rd_total. lia. }
  destruct (lzma_lzma_lclppb_decode (props !!! Z.to_nat 0)) as [bad [[a b] c]] eqn:E. destruct bad; [by do 2 eexists |].
  destruct (lclppb_ok _ a b c Hb0 E) as (_ & Ho). destruct (read32le_total props 1 Hb) as (x & -> & Hx & _); [lia | lia |]. cbn [mbind option_bind].
  do 2 eexists. split; [reflexivity |]. intros _. eexists. split; [reflexivity |]. by split.
Qed.

Lemma lzma2_props_ok alloc props : bytes props -> exists ret o, lzma_lzma2_props_decode alloc props = Some (ret, o) /\
  (ret = LZMA_OK -> exists o', o = Some o' /\ options_ok o' /\ 0 <= dict_size o' < 2 ^ 32 /\ preset_dict o' = []).
Proof.
  intros Hb. unfold lzma_lzma2_props_decode. destruct (Z.eqb_spec (Z.of_nat (length props)) 1) as [El | El]; cbn [negb]; [| by do 2 eexists].
  rewrite rd_total by lia. cbn [mbind option_bind]. set (b := props !!! _). destruct (negb (Z.land b 0xC0 =? 0)); [by do 2 eexists |].
  destruct (40 <? b); [by do 2 eexists |]. destruct alloc; cbn [negb]; [| by do 2 eexists].
  do 2 eexists. split; [reflexivity |]. intros _. eexists. split; [reflexivity |]. cbn -[Z.shiftl]. split; [unfold options_ok; cbn; lia |].
  split; [| done]. destruct (b =? 40); [unfold UINT32_MAX; lia | apply u32_range].
Qed.

Lemma simple_props_ok alloc props : bytes props -> exists ret o, lzma_simple_props_decode alloc props = Some (ret, o) /\
  (ret = LZMA_OK -> forall off, o = Some off -> 0 < off < 2 ^ 32).
Proof.
  intros Hb. unfold lzma_simple_props_decode. destruct (Z.eqb_spec (Z.of_nat (length props)) 0) as [E0 | E0]; [by do 2 eexists |].
  destruct (Z.eqb_spec (Z.of_nat (length props)) 4) as [El | El]; cbn [negb]; [| by do 2 eexists].
  destruct alloc; cbn [negb]; [| by do 2 eexists]. destruct (read32le_total props 0 Hb) as (x & -> & Hx & _); [lia | lia |]. cbn [mbind option_bind].
  do 2 eexists. split; [reflexivity |]. intros _ off. destruct (Z.eqb_spec x 0); intros E; [done |]. injection E as <-. lia.
Qed.

Lemma delta_props_ok alloc props : bytes props -> exists ret o, lzma_delta_props_decode alloc props (Z.of_nat (length props)) = Some (ret, o) /\
  (ret = LZMA_OK -> exists o', o = Some o' /\ opt_type o' = LZMA_DELTA_TYPE_BYTE /\ LZMA_DELTA_DIST_MIN <= dist o' <= LZMA_DELTA_DIST_MAX).
Proof.
  intros Hb. unfold lzma_delta_props_decode. destruct (Z.eqb_spec (Z.of_nat (length props)) 1) as [El | El]; cbn [negb]; [| by do 2 eexists].
  destruct alloc; cbn [negb]; [| by do 2 eexists]. assert (rd props 0 = Some (props !!! Z.to_nat 0)) as E by (apply rd_total; lia). rewrite E.
  pose proof (rd_byte _ _ _ Hb E) as Hbb. unfold is_byte in Hbb. cbn [mbind option_bind]. do 2 eexists. split; [reflexivity |]. intros _.
  eexists. split; [reflexivity |]. cbn. unfold LZMA_DELTA_DIST_MIN, LZMA_DELTA_DIST_MAX. lia.
Qed.

Lemma properties_decode_ok sz f alloc props : bytes props -> exists ret f', lzma_properties_decode sz f alloc props = Some (ret, f') /\ id f' = id f /\
  (ret = LZMA_OK -> filter_ok f').
Proof.
  intros Hb. unfold lzma_properties_decode. cbn [id]. destruct (decoder_find sz (id f)) as [d |] eqn:Ef; [| by do 2 eexists].
  unfold filter_ok. destruct (decoder_find_cases sz _ d Ef) as [(Ei & ->) | [(Ei & ->) | [(Ei & ->) | (Ei & ->)]]];
    unfold lzma_props, lzma2_props, delta_props, simple_props, props_of.
  - destruct (lzma_props_ok alloc props Hb) as (ret & o & -> & H). do 2 eexists. split; [reflexivity |]. split; [done |].
    intros Hr. destruct (H Hr) as (o' & -> & Ho). cbn. split; [by left | done].
  - destruct (lzma2_props_ok alloc props Hb) as (ret & o & -> & H). do 2 eexists. split; [reflexivity |]. split; [done |].
    intros Hr. destruct (H Hr) as (o' & -> & Ho). cbn. split; [by right | done].
  - destruct (delta_props_ok alloc props Hb) as (ret & o & -> & H). do 2 eexists. split; [reflexivity |]. split; [done |].
    intros Hr. destruct (H Hr) as (o' & -> & Ho). cbn. by split.
  - destruct (simple_props_ok alloc props Hb) as (ret & o & -> & H). do 2 eexists. split; [reflexivity |]. split; [done |].
    intros Hr. destruct o as [off |]; cbn; [| done]. split; [done | by apply H].
Qed.

(** ** Valid chains *)
Definition lzma_id (i : Z) : Prop := i = LZMA_FILTER_LZMA1 \/ i = LZMA_FILTER_LZMA2.
Definition middle_id (i : Z) : Prop := i = LZMA_FILTER_DELTA \/ i ∈ branch_filters.

(** Filters that keep the size, then LZMA or LZMA2. *)
Inductive chain : list lzma_filter -> Prop :=
  | chain_last f : lzma_id (id f) -> chain [f]
  | chain_more f fs : middle_id (id f) -> chain fs -> chain (f :: fs).

(** The array of the filters [fs]. *)
Definition terminated (fs : list lzma_filter) (filters : list lzma_filter) : Prop :=
  exists t post, filters = fs ++ t :: post /\ id t = LZMA_VLI_UNKNOWN /\ Forall (fun f => id f <> LZMA_VLI_UNKNOWN) fs.

Lemma feature_cases i : i <> LZMA_VLI_UNKNOWN -> exists r, feature_find features i = Some r /\
  match r with
  | None => ~ lzma_id i /\ ~ middle_id i
  | Some ft => lzma_id i /\ ~ middle_id i /\ non_last_ok ft = false /\ last_ok ft = true /\ changes_size ft = true \/
               middle_id i /\ ~ lzma_id i /\ non_last_ok ft = true /\ last_ok ft = false /\ changes_size ft = false
  end.
Proof.
  intros Hi. assert (middle_id i <-> 3 <= i <= 9) as Hm.
  { unfold middle_id, branch_filters. rewrite !elem_of_cons, elem_of_nil. unfold LZMA_FILTER_DELTA, LZMA_FILTER_X86, LZMA_FILTER_POWERPC,
      LZMA_FILTER_IA64, LZMA_FILTER_ARM, LZMA_FILTER_ARMTHUMB, LZMA_FILTER_SPARC. lia. }
  assert (lzma_id i <-> i = 0x21 \/ i = 0x4000000000000001) as Hl by (unfold lzma_id, LZMA_FILTER_LZMA1, LZMA_FILTER_LZMA2; lia).
  unfold feature_find, features. cbn [f_id].
  unfold LZMA_FILTER_LZMA1, LZMA_FILTER_LZMA2, LZMA_FILTER_DELTA, LZMA_FILTER_X86, LZMA_FILTER_POWERPC, LZMA_FILTER_IA64, LZMA_FILTER_ARM,
    LZMA_FILTER_ARMTHUMB, LZMA_FILTER_SPARC in *.
  change LZMA_VLI_UNKNOWN with 18446744073709551615 in *.
  repeat (match goal with |- context [if ?a =? i then _ else _] => destruct (Z.eqb_spec a i) end;
    [eexists; split; [reflexivity |]; cbn; rewrite Hm, Hl; lia |];
    rewrite ?(proj2 (Z.eqb_neq _ 18446744073709551615)) by (done || lia)).
  eexists. split; [reflexivity |]. cbn. rewrite Hm, Hl. lia.
Qed.

Lemma chain_not_nil fs : chain fs -> fs <> [].
Proof. by intros []. Qed.

Lemma validate_loop_spec fs t post i : fs <> [] -> id t = LZMA_VLI_UNKNOWN -> Forall (fun f => id f <> LZMA_VLI_UNKNOWN) fs -> 0 <= i ->
  exists r, validate_loop (fs ++ t :: post) i true 0 = Some r /\
    (chain fs /\ i + Z.of_nat (length fs) <= LZMA_FILTERS_MAX /\ r = (LZMA_OK, i + Z.of_nat (length fs)) \/
     ~ (chain fs /\ i + Z.of_nat (length fs) <= LZMA_FILTERS_MAX) /\ r = (LZMA_OPTIONS_ERROR, 0)).
Proof.
  intros Hne Ht. revert i. induction fs as [| f fs IH]; intros i Hu Hi; [done |]. clear Hne. apply list.Forall_cons in Hu as [Hf Hu].
  cbn [app validate_loop length]. destruct (feature_cases (id f) Hf) as (r & -> & Hr). cbn [mbind option_bind].
  destruct r as [ft |].
  2: { eexists. split; [reflexivity |]. right. split; [| done]. intros [Hc _]. inversion Hc; subst; tauto. }
  cbn [negb]. destruct fs as [| g fs].
  - cbn [app head mbind option_bind]. rewrite Ht, Z.eqb_refl. cbn [negb].
    destruct Hr as [(Hl & Hm & _ & -> & ->) | (Hm & Hl & _ & -> & ->)]; cbn [negb orb length].
    + change (3 <? 0 + Z.b2z true) with false. rewrite !orb_false_r.
      destruct (Z.ltb_spec LZMA_FILTERS_MAX (i + 1)); (eexists; split; [reflexivity |]); [right | left].
      * split; [lia | done].
      * split; [by constructor |]. split; [lia | done].
    + rewrite orb_true_r. eexists. split; [reflexivity |]. right. split; [| done]. intros [Hc _]. inversion Hc as [| ? ? _ Hc2]; subst; [tauto |]. by apply chain_not_nil in Hc2.
  - cbn [app head mbind option_bind]. pose proof Hu as Hu2. apply list.Forall_cons in Hu2 as [Hg _]. rewrite (proj2 (Z.eqb_neq (id g) _) Hg). cbn [negb].
    destruct Hr as [(Hl & Hm & -> & _ & ->) | (Hm & Hl & -> & _ & ->)].
    + cbn [app] in *. cbn [validate_loop]. destruct (feature_cases (id g) Hg) as (r & -> & _). cbn [mbind option_bind negb]. eexists.
      split; [destruct r; reflexivity |]. right. split; [| done]. intros [Hc _]. inversion Hc; subst. tauto.
    + change (0 + Z.b2z false) with 0. destruct (IH ltac:(done) (i + 1) Hu ltac:(lia)) as (r & E & Hr). cbn [app] in E. rewrite E.
      exists r. split; [done |]. assert (chain (f :: g :: fs) <-> chain (g :: fs)) as Ec.
      { split; [intros Hc; by inversion Hc | intros; by constructor]. }
      rewrite Ec. cbn [length] in *. replace (i + Z.of_nat (S (S (length fs)))) with (i + 1 + Z.of_nat (S (length fs))) by lia. exact Hr.
Qed.

Lemma validate_chain_spec fs filters : terminated fs filters -> exists r, validate_chain filters = Some r /\
  forall n, r = (LZMA_OK, n) <-> chain fs /\ n = Z.of_nat (length fs) /\ n <= LZMA_FILTERS_MAX.
Proof.
  intros (t & post & -> & Ht & Hu). unfold validate_chain. destruct fs as [| f fs].
  - cbn [app head mbind option_bind]. rewrite Ht, Z.eqb_refl. eexists. split; [reflexivity |]. intros n. split; [done |].
    intros (Hc & _). by apply chain_not_nil in Hc.
  - cbn [app head mbind option_bind]. pose proof Hu as Hu2. apply list.Forall_cons in Hu2 as [Hf _]. rewrite (proj2 (Z.eqb_neq (id f) _) Hf).
    destruct (validate_loop_spec (f :: fs) t post 0 ltac:(done) Ht Hu ltac:(lia)) as (r & E & Hr). cbn [app] in E. rewrite E.
    exists r. split; [done |]. intros n. destruct Hr as [(Hc & Hl & ->) | (Hn & ->)]; rewrite ?Z.add_0_l in *.
    + split; [intros [= <-]; by split_and! | by intros (_ & -> & _)].
    + split; [done |]. intros (Hc & -> & Hl). by destruct Hn.
Qed.

(** The memory of a chain can be computed. *)
Lemma memusage_ok sz f d : filter_ok f -> decoder_find sz (id f) = Some d ->
  exists u, match d_memusage d with None => Some 1024 | Some memusage => memusage (filter_opts f) end = Some u.
Proof.
  intros Hf E. apply find_some in E as [Hin E]. apply Z.eqb_eq in E. unfold filter_ok in Hf. destruct f as [i o]. cbn [id filter_opts] in *. subst i.
  assert (forall x, x ∈ branch_filters -> x = LZMA_FILTER_LZMA1 \/ x = LZMA_FILTER_LZMA2 \/ x = LZMA_FILTER_DELTA -> False) as Hno.
  { intros x Hx [-> | [-> | ->]]; by repeat (apply elem_of_cons in Hx as [Hx | Hx]); [.. | apply elem_of_nil in Hx]. }
  unfold decoders in Hin. cbn [In] in Hin.
  destruct o as [[o | o | off] |]; destruct Hin as [<- | [<- | [<- | [<- | [<- | [<- | [<- | [<- | [<- | []]]]]]]]]];
    cbn [d_memusage d_id simple_decoder with_lzma with_delta] in *; try (by eexists); exfalso.
  all: try (by destruct Hf as [[Hf | Hf] _]); try (by destruct Hf as [Hf _]).
  all: eapply Hno; [exact Hf || exact (proj1 Hf) | tauto].
Qed.

Lemma memusage_loop_ok sz fs t post total : fs <> [] -> id t = LZMA_VLI_UNKNOWN -> Forall filter_ok fs ->
  exists u, memusage_loop sz (fs ++ t :: post) total = Some u.
Proof.
  intros Hne Ht. revert total. induction fs as [| f fs IH]; intros total Hf; [done |]. clear Hne. apply list.Forall_cons in Hf as [Hf Hfs].
  cbn [app memusage_loop]. destruct (decoder_find sz (id f)) as [d |] eqn:E; [| by eexists].
  destruct (memusage_ok sz f d Hf E) as (u & ->). cbn [mbind option_bind]. destruct (bool_decide _ && _); [by eexists |].
  destruct fs as [| g fs]; cbn [app head mbind option_bind].
  - rewrite Ht, Z.eqb_refl. by eexists.
  - destruct (negb _); [| by eexists]. by apply IH.
Qed.

Lemma raw_decoder_memusage_ok sz fs filters : fs <> [] -> terminated fs filters -> Forall filter_ok fs ->
  exists u, lzma_raw_decoder_memusage sz filters = Some u.
Proof.
  intros Hne Ht Hf. unfold lzma_raw_decoder_memusage. destruct (validate_chain_spec fs filters Ht) as ([ret n] & -> & _). cbn [mbind option_bind].
  destruct (negb _); [by eexists |]. destruct Ht as (t & post & -> & Ht & _). by apply memusage_loop_ok.
Qed.

(** ** The flags of a filter *)
Definition flags_of (f : Z * list Z) : list Z := vli_bytes f.1 ++ vli_bytes (Z.of_nat (length f.2)) ++ f.2.

(** Flags that are accepted, and what they describe. *)
Definition described (sz : sizes) (alloc : bool) (f : Z * list Z) (f' : lzma_filter) : Prop :=
  0 <= f.1 < LZMA_FILTER_RESERVED_START /\ bytes f.2 /\ Z.of_nat (length f.2) <= LZMA_VLI_MAX /\
  lzma_properties_decode sz (MkFilter f.1 None) alloc f.2 = Some (LZMA_OK, f').

Lemma described_ok sz alloc f f' : described sz alloc f f' -> id f' = f.1 /\ filter_ok f'.
Proof.
  intros (Hi & Hb & _ & E). destruct (properties_decode_ok sz (MkFilter f.1 None) alloc f.2 Hb) as (ret & f2 & E2 & Hid & Hok).
  rewrite E in E2. injection E2 as <- <-. by split; [| apply Hok].
Qed.

Lemma flags_of_bytes f : 0 <= f.1 -> bytes f.2 -> bytes (flags_of f).
Proof. intros. unfold flags_of. apply Forall_app. split; [by apply vli_bytes_bytes |]. apply Forall_app. split; [apply vli_bytes_bytes; lia | done]. Qed.

Lemma seg_bytes l i j : bytes l -> bytes (seg l i j).
Proof. intros. by apply Forall_take, Forall_drop. Qed.

(** Reading flags, whatever the bytes are. *)
Lemma flags_decode_ok sz f alloc inp in_pos in_size : bytes inp -> 0 <= in_pos <= in_size -> in_size <= Z.of_nat (length inp) -> in_size < 2 ^ 64 ->
  exists ret f' e, lzma_filter_flags_decode sz f alloc inp in_pos in_size = Some (ret, f', e) /\
    (ret = LZMA_OK -> in_pos <= e <= in_size /\ exists fl, described sz alloc fl f' /\ seg inp in_pos e = flags_of fl).
Proof.
  intros Hb Hi Hs H64. unfold lzma_filter_flags_decode.
  destruct (vli_decode_whole (id f) inp in_pos in_size Hb Hi Hs) as (ret & i & p1 & -> & Hp1 & H1). cbn [mbind option_bind].
  case_bool_decide as Hr1; cbn [negb]; [| by do 3 eexists]. destruct H1 as [(_ & E1 & Hv1) | (-> & _)]; [| done]. cbn [id].
  destruct (Z.leb_spec LZMA_FILTER_RESERVED_START i) as [| Hres]; [by do 3 eexists |].
  destruct (vli_decode_whole 0 inp p1 in_size Hb ltac:(lia) Hs) as (ret2 & n & p2 & -> & Hp2 & H2). cbn [mbind option_bind].
  case_bool_decide as Hr2; cbn [negb]; [| by do 3 eexists]. destruct H2 as [(_ & E2 & Hv2) | (-> & _)]; [| done].
  rewrite u64_small by lia. destruct (Z.ltb_spec (in_size - p2) n) as [| Hn]; [by do 3 eexists |].
  rewrite (rd_bytes_seg inp p2 (p2 + n)) by lia. cbn [mbind option_bind].
  pose proof (seg_length inp p2 (p2 + n) ltac:(lia) ltac:(lia)) as Hl. pose proof (seg_bytes inp p2 (p2 + n) Hb) as Hbs.
  destruct (properties_decode_ok sz (MkFilter i None) alloc _ Hbs) as (ret3 & f' & E3 & _). rewrite E3. cbn [mbind option_bind].
  do 3 eexists. split; [reflexivity |]. intros ->. split; [lia |]. exists (i, seg inp p2 (p2 + n)). split; [split; [cbn; lia | split; [done | split; [cbn; lia | done]]] |].
  unfold flags_of. cbn [fst snd]. rewrite Hl, Z.add_simpl_l, <- E1, <- E2. rewrite (seg_app inp in_pos p1), (seg_app inp p1 p2) by lia. done.
Qed.

(** Reading the flags that are there. *)
Lemma flags_decode_value sz f0 alloc pre fl f post in_size : described sz alloc fl f -> let inp := pre ++ flags_of fl ++ post in bytes inp ->
  let n := Z.of_nat (length (flags_of fl)) in Z.of_nat (length pre) + n <= in_size -> in_size <= Z.of_nat (length inp) -> in_size < 2 ^ 64 ->
  lzma_filter_flags_decode sz f0 alloc inp (Z.of_nat (length pre)) in_size = Some (LZMA_OK, f, Z.of_nat (length pre) + n).
Proof.
  intros (Hi & Hbf & Hl & E) inp Hb n Hn Hs H64. unfold lzma_filter_flags_decode. unfold n, inp, flags_of in *. set (m := Z.of_nat (length fl.2)) in *.
  assert (LZMA_FILTER_RESERVED_START <= LZMA_VLI_MAX) as Hres by done.
  rewrite <- !app_assoc in Hb, Hs |- *. rewrite !length_app in Hn. pose proof (vli_len_range fl.1 ltac:(lia)) as L1. pose proof (vli_len_range m ltac:(lia)) as L2.
  unfold vli_len in L1, L2. rewrite vli_decode_value by (unfold vli_len; (done || lia)). cbn [mbind option_bind]. rewrite bool_decide_eq_true_2 by done.
  cbn [negb id]. rewrite (proj2 (Z.leb_gt _ _)) by lia. rewrite (app_assoc pre) in Hb, Hs |- *.
  assert (Z.of_nat (length pre) + vli_len fl.1 = Z.of_nat (length (pre ++ vli_bytes fl.1))) as -> by (rewrite length_app; unfold vli_len; lia).
  rewrite vli_decode_value by (done || (unfold vli_len; lia) || (rewrite ?length_app; unfold vli_len; lia)). cbn [mbind option_bind]. rewrite bool_decide_eq_true_2 by done. cbn [negb].
  rewrite (app_assoc (pre ++ _)). 
  assert (Z.of_nat (length (pre ++ vli_bytes fl.1)) + vli_len m = Z.of_nat (length ((pre ++ vli_bytes fl.1) ++ vli_bytes m))) as ->
    by (rewrite length_app; unfold vli_len; rewrite !length_app; lia).
  rewrite u64_small by (rewrite !length_app; lia). rewrite (proj2 (Z.ltb_ge _ _)) by (rewrite !length_app; lia).
  rewrite rd_bytes_app by lia. cbn [mbind option_bind]. rewrite E. cbn [mbind option_bind]. do 2 f_equal. rewrite !length_app. lia.
Qed.
