(* ===== verification/Sha256Spec.v ===== *)
(** * SHA-256: the reference

    The hash of FIPS 180-4, on byte strings: the functions of section 4.1.2, the
    message schedule and the compression of section 6.2.2, the padding of
    section 5.1.1. The repository has two implementations, check/sha256.c of
    liblzma (Sha256.v) and crt0/crt0_sha256.cpp of libbio (BioSha256.v); both
    fill a block of 64 bytes and compress it when it is full, which [pending]
    describes. *)

From Stdlib Require Import ZArith Lia.
From stdpp Require Import base list option.
From S2P Require Import Prelude LzmaBase.
Local Open Scope Z_scope.

(** ** Functions on words *)
Definition ROTR (n x : Z) : Z := Z.lor (Z.shiftr x n) (u32 (Z.shiftl x (32 - n))).
Definition SHR (n x : Z) : Z := Z.shiftr x n.
Definition Ch (x y z : Z) : Z := Z.lxor (Z.land x y) (Z.land (u32 (Z.lnot x)) z).
Definition Maj (x y z : Z) : Z := Z.lxor (Z.lxor (Z.land x y) (Z.land x z)) (Z.land y z).
Definition Sigma0 (x : Z) : Z := Z.lxor (Z.lxor (ROTR 2 x) (ROTR 13 x)) (ROTR 22 x).
Definition Sigma1 (x : Z) : Z := Z.lxor (Z.lxor (ROTR 6 x) (ROTR 11 x)) (ROTR 25 x).
Definition sigma0 (x : Z) : Z := Z.lxor (Z.lxor (ROTR 7 x) (ROTR 18 x)) (SHR 3 x).
Definition sigma1 (x : Z) : Z := Z.lxor (Z.lxor (ROTR 17 x) (ROTR 19 x)) (SHR 10 x).

(** The constants of sections 4.2.2 and 5.3.3: the first 32 bits of the fractional
    parts of the cube roots of the first 64 primes, and of the square roots of
    the first eight. *)
Definition prime (n : Z) : bool :=
  forallb (fun d => negb (n mod d =? 0)) (map Z.of_nat (seq 2 (Z.to_nat (Z.sqrt n) - 1))).
Definition primes : list Z := filter prime (map Z.of_nat (seq 2 310)).

(** The cube root, rounded down, of a number below 2^108, bit by bit. *)
Definition cube_root (n : Z) : Z :=
  foldl (fun r b => if (r + 2 ^ b) ^ 3 <=? n then r + 2 ^ b else r) 0 (rev (map Z.of_nat (seq 0 36))).

Definition K : list Z := map (fun p => u32 (cube_root (p * 2 ^ 96))) primes.
Definition H0 : list Z := map (fun p => u32 (Z.sqrt (p * 2 ^ 64))) (take 8 primes).

(** ** Words of bytes *)
Definition be_word (b0 b1 b2 b3 : Z) : Z := b0 * 2 ^ 24 + b1 * 2 ^ 16 + b2 * 2 ^ 8 + b3.
Definition be32 (x : Z) : list Z := [u8 (Z.shiftr x 24); u8 (Z.shiftr x 16); u8 (Z.shiftr x 8); u8 x].
Definition be64 (x : Z) : list Z := be32 (Z.shiftr x 32) ++ be32 (u32 x).

Fixpoint words (bs : list Z) : list Z :=
  match bs with
  | b0 :: b1 :: b2 :: b3 :: bs => be_word b0 b1 b2 b3 :: words bs
  | _ => []
  end.

(** ** The compression function *)

(** Words 16 to 63 of the schedule. *)
Definition next_word (w : list Z) : Z :=
  let n := length w in
  u32 (sigma1 (w !!! (n - 2)%nat) + w !!! (n - 7)%nat + sigma0 (w !!! (n - 15)%nat) + w !!! (n - 16)%nat).

Definition extend (n : nat) (w : list Z) : list Z := Nat.iter n (fun w => w ++ [next_word w]) w.
Definition schedule (block : list Z) : list Z := extend 48 (words block).

Definition round (r : list Z) (k w : Z) : list Z :=
  match r with
  | [a; b; c; d; e; f; g; h] =>
      let T1 := u32 (h + Sigma1 e + Ch e f g + k + w) in
      let T2 := u32 (Sigma0 a + Maj a b c) in
      [u32 (T1 + T2); a; b; c; u32 (d + T1); e; f; g]
  | _ => r
  end.

(** The working variables after the first [t] rounds. *)
Definition rounds (ws : list Z) (t : nat) (st : list Z) : list Z :=
  foldl (fun r kw => round r kw.1 kw.2) st (take t (zip K ws)).

Definition add_words (a b : list Z) : list Z := zip_with (fun x y => u32 (x + y)) a b.
Definition compress (st block : list Z) : list Z := add_words st (rounds (schedule block) 64 st).

(** ** The hash *)
Fixpoint hash_blocks (n : nat) (st l : list Z) : list Z :=
  match n with
  | O => st
  | S n => hash_blocks n (compress st (take 64 l)) (drop 64 l)
  end.

Definition zeros (len : nat) : nat := Z.to_nat ((55 - Z.of_nat len) mod 64).
Definition pad (m : list Z) : list Z :=
  m ++ 0x80 :: replicate (zeros (length m)) 0 ++ be64 (8 * Z.of_nat (length m)).
Definition digest (st : list Z) : list Z := mjoin (be32 <$> st).
Definition sha256 (m : list Z) : list Z := digest (hash_blocks (length (pad m) / 64) H0 (pad m)).

(** The examples of FIPS 180-4: the strings abc and the empty one. *)
Example sha256_abc : words (sha256 [97; 98; 99]) =
  [0xba7816bf; 0x8f01cfea; 0x414140de; 0x5dae2223; 0xb00361a3; 0x96177a9c; 0xb410ff61; 0xf20015ad].
Proof. vm_compute. reflexivity. Qed.

Example sha256_empty : words (sha256 []) =
  [0xe3b0c442; 0x98fc1c14; 0x9afbf4c8; 0x996fb924; 0x27ae41e4; 0x649b934c; 0xa495991b; 0x7852b855].
Proof. vm_compute. reflexivity. Qed.

(** ** Blocks being filled *)

Lemma hash_blocks_app n k st a b : length a = (64 * n)%nat ->
  hash_blocks (n + k) st (a ++ b) = hash_blocks k (hash_blocks n st a) b.
Proof.
  revert st a. induction n as [| n IH]; intros st a Ha.
  - by rewrite (nil_length_inv a Ha).
  - cbn [hash_blocks Nat.add]. rewrite take_app_le, drop_app_le by lia. apply IH. rewrite length_drop. lia.
Qed.

(** [pos] bytes of the block [data] are filled, with the end of the message [m];
    [st] is the state after the blocks before them. *)
Definition pending (st data m : list Z) (pos : nat) : Prop :=
  exists q a d, m = a ++ d /\ length a = (64 * q)%nat /\ length d = pos /\ st = hash_blocks q H0 a /\
    length data = 64%nat /\ take pos data = d /\ (pos <= 64)%nat.

Lemma pending_init data : length data = 64%nat -> pending H0 data [] 0.
Proof. intros H. exists 0%nat, [], []. split_and!; try done. lia. Qed.

Lemma pending_length st data m pos : pending st data m pos ->
  length data = 64%nat /\ (pos <= 64)%nat /\ (pos < 64 -> pos = length m mod 64)%nat.
Proof.
  intros (q & a & d & -> & Ha & Hd & _ & Hl & _ & Hp). split; [done |]. split; [done |]. intros Hlt.
  rewrite length_app, Ha, Hd, Nat.add_comm, Nat.mul_comm, Nat.Div0.mod_add. by rewrite Nat.mod_small.
Qed.

Lemma pending_put st data m pos src data' : pending st data m pos -> (pos + length src <= 64)%nat ->
  data' = take pos data ++ src ++ drop (pos + length src) data -> pending st data' (m ++ src) (pos + length src).
Proof.
  intros (q & a & d & -> & Ha & Hd & -> & Hl & Ht & Hp) Hs ->. exists q, a, (d ++ src).
  rewrite app_assoc, !length_app, length_take, length_drop. split_and!; try done; try lia.
  rewrite app_assoc, Ht, take_app_length'; [done | by rewrite length_app, Hd].
Qed.

Lemma pending_write st data m pos src : pending st data m pos -> (pos + length src <= 64)%nat -> bytes data -> bytes src ->
  exists data', wr_bytes data (Z.of_nat pos) src = Some data' /\ pending st data' (m ++ src) (pos + length src) /\ bytes data'.
Proof.
  intros Hp Hs Hd Hb. pose proof (pending_length _ _ _ _ Hp) as (Hl & _). exists (take pos data ++ src ++ drop (pos + length src) data). split.
  - rewrite <- (take_drop pos data) at 1. rewrite <- (take_drop (length src) (drop pos data)), drop_drop.
    apply wr_bytes_app; rewrite ?length_take, ?length_drop; lia.
  - split; [by apply (pending_put _ data) |]. repeat (apply Forall_app; split); [by apply Forall_take | done | by apply Forall_drop].
Qed.

Lemma pending_wr st data m pos b : pending st data m pos -> (pos < 64)%nat -> bytes data -> is_byte b ->
  exists data', wr data (Z.of_nat pos) b = Some data' /\ pending st data' (m ++ [b]) (pos + 1) /\ bytes data'.
Proof.
  intros Hp Hs Hd Hb. destruct (pending_write st data m pos [b] Hp) as (data' & E & H); [simpl; lia | done | by constructor; [| constructor] |].
  exists data'. split; [| done]. cbn [wr_bytes] in E. by destruct (wr data (Z.of_nat pos) b).
Qed.

Lemma pending_process st data m : pending st data m 64 -> pending (compress st data) data m 0.
Proof.
  intros (q & a & d & -> & Ha & Hd & -> & Hl & Ht & _). exists (q + 1)%nat, (a ++ d), [].
  rewrite app_nil_r, length_app. split_and!; try done; try lia.
  rewrite hash_blocks_app by done. cbn [hash_blocks]. rewrite take_ge in Ht by lia. subst d. by rewrite take_ge by lia.
Qed.

Lemma pending_hash st data m : pending st data m 0 -> st = hash_blocks (length m / 64) H0 m.
Proof.
  intros (q & a & d & -> & Ha & Hd & -> & _). apply nil_length_inv in Hd as ->.
  rewrite app_nil_r, Ha, Nat.mul_comm, Nat.div_mul by done. done.
Qed.

Lemma zeros_spec len : ((len + 1 + zeros len) mod 64 = 56)%nat.
Proof.
  unfold zeros. apply Nat2Z.inj. rewrite Nat2Z.inj_mod, !Nat2Z.inj_add, Z2Nat.id by (apply Z.mod_pos_bound; lia).
  Z.to_euclidean_division_equations. lia.
Qed.

(** ** Words *)
Definition is_word (x : Z) : Prop := 0 <= x < 2 ^ 32.

Lemma u32_word x : is_word (u32 x).
Proof. apply u32_range. Qed.

Lemma word_high x k : is_word x -> 32 <= k -> Z.testbit x k = false.
Proof. intros Hx Hk. rewrite <- (Z.mod_small x (2 ^ 32) Hx). by apply Z.mod_pow2_bits_high. Qed.

Lemma word_ext x y : is_word x -> is_word y -> (forall k, 0 <= k < 32 -> Z.testbit x k = Z.testbit y k) -> x = y.
Proof.
  intros Hx Hy H. apply Z.bits_inj'. intros k Hk. destruct (Z.lt_ge_cases k 32); [by apply H |].
  by rewrite !word_high.
Qed.

Lemma word_of_bits x : 0 <= x -> (forall k, 32 <= k -> Z.testbit x k = false) -> is_word x.
Proof.
  intros Hx H. split; [done |]. assert (x = u32 x) as ->; [| apply u32_range].
  apply Z.bits_inj'. intros k Hk. unfold u32, wrap. destruct (Z.lt_ge_cases k 32).
  - by rewrite Z.mod_pow2_bits_low.
  - by rewrite Z.mod_pow2_bits_high, H.
Qed.

Lemma word_lxor x y : is_word x -> is_word y -> is_word (Z.lxor x y).
Proof.
  intros Hx Hy. apply word_of_bits; [apply Z.lxor_nonneg; unfold is_word in *; lia |].
  intros k Hk. by rewrite Z.lxor_spec, !word_high.
Qed.

Lemma word_lor x y : is_word x -> is_word y -> is_word (Z.lor x y).
Proof.
  intros Hx Hy. apply word_of_bits; [apply Z.lor_nonneg; unfold is_word in *; lia |].
  intros k Hk. by rewrite Z.lor_spec, !word_high.
Qed.

Lemma word_land x y : is_word x -> is_word (Z.land x y).
Proof.
  intros Hx. apply word_of_bits; [apply Z.land_nonneg; unfold is_word in *; lia |].
  intros k Hk. by rewrite Z.land_spec, word_high.
Qed.

Lemma word_shiftr x n : is_word x -> 0 <= n -> is_word (Z.shiftr x n).
Proof.
  intros Hx Hn. apply word_of_bits; [apply Z.shiftr_nonneg; unfold is_word in *; lia |].
  intros k Hk. rewrite Z.shiftr_spec, word_high by (done || lia). done.
Qed.

Lemma u32_testbit x k : 0 <= k < 32 -> Z.testbit (u32 x) k = Z.testbit x k.
Proof. intros H. unfold u32, wrap. apply Z.mod_pow2_bits_low. lia. Qed.

Lemma ROTR_word n x : is_word x -> 0 <= n -> is_word (ROTR n x).
Proof.
  intros Hx Hn. unfold ROTR. apply word_of_bits.
  - apply Z.lor_nonneg. split; [apply Z.shiftr_nonneg; unfold is_word in *; lia | apply u32_word].
  - intros k Hk. rewrite Z.lor_spec, !word_high; auto using u32_word, word_shiftr.
Qed.

Lemma ROTR_spec n x k : is_word x -> 0 < n < 32 -> 0 <= k < 32 ->
  Z.testbit (ROTR n x) k = Z.testbit x ((k + n) mod 32).
Proof.
  intros Hx Hn Hk. unfold ROTR. rewrite Z.lor_spec, Z.shiftr_spec, u32_testbit, Z.shiftl_spec by lia.
  destruct (Z.lt_ge_cases (k + n) 32).
  - rewrite (Z.mod_small (k + n)) by lia. rewrite (Z.testbit_neg_r _ (k - _)) by lia. apply orb_false_r.
  - rewrite word_high by done. replace ((k + n) mod 32) with (k - (32 - n)); [done |].
    rewrite <- (Z.mod_small (k - (32 - n)) 32) by lia. rewrite <- (Z.mod_add (k - _) 1) by lia. f_equal. lia.
Qed.

Lemma ROTR_ROTR n m x : is_word x -> 0 < n -> 0 < m -> n + m < 32 -> ROTR n (ROTR m x) = ROTR (n + m) x.
Proof.
  intros Hx Hn Hm Hs. apply word_ext; [by repeat (apply ROTR_word; try lia) | apply ROTR_word; (done || lia) |]. intros k Hk.
  rewrite !ROTR_spec by (done || lia || (apply ROTR_word; (done || lia)) || (apply Z.mod_pos_bound; lia)).
  rewrite Z.add_mod_idemp_l by lia. do 2 f_equal. lia.
Qed.

Lemma ROTR_lxor n x y : is_word x -> is_word y -> 0 < n < 32 -> ROTR n (Z.lxor x y) = Z.lxor (ROTR n x) (ROTR n y).
Proof.
  intros Hx Hy Hn. apply word_ext; [apply ROTR_word; [by apply word_lxor | lia] | apply word_lxor; apply ROTR_word; (done || lia) |].
  intros k Hk. rewrite Z.lxor_spec, !ROTR_spec, Z.lxor_spec by (done || by apply word_lxor). done.
Qed.

(** ** The schedule and the rounds *)
Lemma extend_S n w : extend (S n) w = extend n w ++ [next_word (extend n w)].
Proof. done. Qed.

Lemma extend_length n w : length (extend n w) = (length w + n)%nat.
Proof. induction n as [| n IH]; [simpl; lia |]. rewrite extend_S, length_app, IH. simpl. lia. Qed.

Lemma extend_prefix n k w : (k <= n)%nat -> take (length w + k) (extend n w) = extend k w.
Proof.
  induction n as [| n IH]; intros Hk.
  - assert (k = 0%nat) as -> by lia. rewrite take_ge; [done | simpl; lia].
  - destruct (decide (k = S n)) as [-> |]; [rewrite take_ge; [done | rewrite extend_length; lia] |].
    rewrite extend_S, take_app_le by (rewrite extend_length; lia). apply IH. lia.
Qed.

Lemma extend_start n w : take (length w) (extend n w) = w.
Proof. rewrite <- (Nat.add_0_r (length w)). by rewrite extend_prefix by lia. Qed.

(** Every word is the next one of those before it. *)
Lemma extend_spec n w t : (length w <= t < length w + n)%nat -> extend n w !!! t = next_word (take t (extend n w)).
Proof.
  intros [Hlo Hhi]. pose proof (extend_prefix n (S (t - length w)) w ltac:(lia)) as E.
  rewrite <- (lookup_total_take_lt _ (length w + S (t - length w))) by lia. rewrite E, extend_S.
  rewrite lookup_total_app_r by (rewrite extend_length; lia).
  rewrite extend_length. replace (t - (length w + (t - length w)))%nat with 0%nat by lia. cbn.
  rewrite <- (extend_prefix n (t - length w) w) by lia. do 2 f_equal. lia.
Qed.

Lemma schedule_spec block : length (words block) = 16%nat -> let ws := schedule block in
  length ws = 64%nat /\ take 16 ws = words block /\
  forall t, (16 <= t < 64)%nat ->
    ws !!! t = u32 (sigma1 (ws !!! (t - 2)%nat) + ws !!! (t - 7)%nat + sigma0 (ws !!! (t - 15)%nat) + ws !!! (t - 16)%nat).
Proof.
  intros H ws. assert (length ws = 64%nat) as Hl by (unfold ws, schedule; by rewrite extend_length, H).
  split; [done |]. split.
  - rewrite <- (extend_start 48 (words block)), H. done.
  - intros t Ht. assert (ws !!! t = next_word (take t ws)) as -> by (apply (extend_spec 48); lia).
    unfold next_word. rewrite length_take, Nat.min_l by lia. by rewrite !lookup_total_take_lt by lia.
Qed.

Lemma words_length n bs : length bs = (4 * n)%nat -> length (words bs) = n.
Proof.
  revert bs. induction n as [| n IH]; intros bs H; [by rewrite (nil_length_inv bs H) |].
  destruct bs as [| b0 [| b1 [| b2 [| b3 bs]]]]; simpl in H; try lia. cbn. f_equal. apply IH. lia.
Qed.

Lemma be_word_range b0 b1 b2 b3 : is_byte b0 -> is_byte b1 -> is_byte b2 -> is_byte b3 -> is_word (be_word b0 b1 b2 b3).
Proof. unfold is_byte, is_word, be_word. lia. Qed.

(** The word at [t] is made of the bytes at [4 t] and after. *)
Lemma words_lookup n bs t : length bs = (4 * n)%nat -> (t < n)%nat ->
  exists b0 b1 b2 b3, take 4 (drop (4 * t) bs) = [b0; b1; b2; b3] /\ words bs !!! t = be_word b0 b1 b2 b3.
Proof.
  revert bs t. induction n as [| n IH]; intros bs t H Ht; [lia |].
  destruct bs as [| b0 [| b1 [| b2 [| b3 bs]]]]; simpl in H; try lia. destruct t as [| t].
  - by exists b0, b1, b2, b3.
  - destruct (IH bs t) as (c0 & c1 & c2 & c3 & E & Ew); [lia | lia |]. exists c0, c1, c2, c3.
    split; [| exact Ew]. rewrite <- E. replace (4 * S t)%nat with (4 + 4 * t)%nat by lia. by rewrite <- drop_drop.
Qed.

Lemma words_words bs : bytes bs -> Forall is_word (words bs).
Proof.
  assert (forall n bs, (length bs <= n)%nat -> bytes bs -> Forall is_word (words bs)) as H; [| by apply (H (length bs))].
  clear bs. induction n as [| n IH]; intros bs Hn Hb; [destruct bs; [constructor | simpl in Hn; lia] |].
  destruct bs as [| b0 [| b1 [| b2 [| b3 bs]]]]; try constructor.
  - repeat (apply list.Forall_cons in Hb as [? Hb]). by apply be_word_range.
  - repeat (apply list.Forall_cons in Hb as [? Hb]). apply IH; [simpl in Hn; lia | done].
Qed.

Lemma extend_words n w : Forall is_word w -> Forall is_word (extend n w).
Proof.
  intros Hw. induction n as [| n IH]; [done |]. rewrite extend_S. apply Forall_app. split; [exact IH |].
  constructor; [apply u32_word | done].
Qed.

Lemma schedule_words block : bytes block -> Forall is_word (schedule block).
Proof. intros Hb. by apply extend_words, words_words. Qed.

Lemma rounds_S ws t st : length ws = 64%nat -> (t < 64)%nat ->
  rounds ws (S t) st = round (rounds ws t st) (K !!! t) (ws !!! t).
Proof.
  intros Hl Ht. assert (zip K ws !! t = Some (K !!! t, ws !!! t)) as E.
  { apply lookup_zip_with_Some. exists (K !!! t), (ws !!! t).
    split; [done |]. split; apply list_lookup_lookup_total_lt; [exact Ht | lia]. }
  unfold rounds. by rewrite (take_S_r _ _ _ E), foldl_app.
Qed.

(** Eight words, which a round makes of eight words. *)
Definition eight (st : list Z) : Prop := length st = 8%nat /\ Forall is_word st.

Lemma round_eight r k w : eight r -> eight (round r k w).
Proof.
  intros [Hl Hw]. destruct r as [| a [| b [| c [| d [| e [| f [| g [| h [|]]]]]]]]]; try done.
  split; [done |]. cbn [round]. repeat (apply list.Forall_cons in Hw as [? Hw]).
  repeat (apply list.Forall_cons; split); solve [apply u32_word | assumption | constructor].
Qed.

Lemma H0_eight : eight H0.
Proof. split; [done |]. apply (bool_decide_unpack (Forall (fun x => 0 <= x < 2 ^ 32) H0)). reflexivity. Qed.

Lemma rounds_eight ws t st : eight st -> eight (rounds ws t st).
Proof.
  intros H. unfold rounds. revert st H. induction (take t (zip K ws)) as [| kw l IH]; intros st H; [done |].
  cbn [foldl]. by apply IH, round_eight.
Qed.

Lemma add_words_eight a b : eight a -> eight b -> eight (add_words a b).
Proof.
  intros [La _] [Lb _]. unfold add_words. split; [rewrite length_zip_with; lia |].
  clear La Lb. revert b. induction a as [| x a IH]; intros [| y b]; try constructor; [apply u32_word | apply IH].
Qed.

Lemma compress_eight st block : eight st -> eight (compress st block).
Proof. intros H. by apply add_words_eight, rounds_eight. Qed.

Lemma hash_blocks_eight n l st : eight st -> eight (hash_blocks n st l).
Proof. revert l st. induction n as [| n IH]; intros l st H; [done |]. cbn [hash_blocks]. by apply IH, compress_eight. Qed.

Lemma pending_eight st data m pos : pending st data m pos -> eight st.
Proof. intros (q & a & d & _ & _ & _ & -> & _). apply hash_blocks_eight, H0_eight. Qed.

Lemma pad_split m : pad m = ((m ++ [0x80]) ++ replicate (zeros (length m)) 0) ++ be64 (8 * Z.of_nat (length m)).
Proof. unfold pad. by rewrite <- !app_assoc. Qed.

Lemma pending_sha256 st data m : pending st data (pad m) 0 -> digest st = sha256 m.
Proof. intros H. unfold sha256. by rewrite <- (pending_hash _ _ _ H). Qed.

(** A word put together from its bytes by shifts. *)
Lemma be_lor b0 b1 b2 b3 : is_byte b0 -> is_byte b1 -> is_byte b2 -> is_byte b3 ->
  Z.lor (Z.shiftl b0 24) (Z.lor (Z.shiftl b1 16) (Z.lor (Z.shiftl b2 8) b3)) = be_word b0 b1 b2 b3.
Proof.
  unfold is_byte, be_word. intros. rewrite (lor_shiftl_add' b3) by lia. rewrite (lor_shiftl_add' _ b1) by lia.
  rewrite lor_shiftl_add' by lia. lia.
Qed.

(** The bytes of a 64-bit number. *)
Lemma u8_u32_shiftr x n : 0 <= n -> n + 8 <= 32 -> u8 (Z.shiftr (u32 x) n) = u8 (Z.shiftr x n).
Proof.
  intros Hn Hn'. unfold u8, u32, wrap. apply Z.bits_inj'. intros k Hk. destruct (Z.lt_ge_cases k 8).
  - by rewrite !Z.mod_pow2_bits_low, !Z.shiftr_spec, Z.mod_pow2_bits_low by lia.
  - by rewrite !Z.mod_pow2_bits_high by lia.
Qed.

Lemma be64_value x : be64 x = [u8 (Z.shiftr x 56); u8 (Z.shiftr x 48); u8 (Z.shiftr x 40); u8 (Z.shiftr x 32);
  u8 (Z.shiftr x 24); u8 (Z.shiftr x 16); u8 (Z.shiftr x 8); u8 x].
Proof.
  unfold be64, be32. rewrite !Z.shiftr_shiftr, !u8_u32_shiftr by lia. cbn.
  pose proof (u8_u32_shiftr x 0 ltac:(lia) ltac:(lia)) as E. rewrite !Z.shiftr_0_r in E. by rewrite E.
Qed.

Lemma be64_bytes x : bytes (be64 x).
Proof. unfold be64. repeat (constructor; [apply u8_range |]); constructor. Qed.

Lemma digest_length st : length (digest st) = (4 * length st)%nat.
Proof. induction st as [| x st IH]; [done |]. change (digest (x :: st)) with (be32 x ++ digest st). rewrite length_app, IH. simpl. lia. Qed.

Lemma sha256_length m : length (sha256 m) = 32%nat.
Proof. unfold sha256. destruct (hash_blocks_eight (length (pad m) / 64) (pad m) H0 H0_eight) as [H _]. by rewrite digest_length, H. Qed.
