(* ===== verification/Sha256.v ===== *)
(** * liblzma: SHA-256

    check/sha256.c and the byte-swapping macros of common/tuklib_integer.h. The
    code keeps the last sixteen words of the schedule in a circular array, and
    rotates the names of the eight working variables instead of moving them.

    [check->buffer] is the list of its 64 bytes; its 32-bit and 64-bit views
    are little-endian, as on the target. [None] is an access outside an array. *)

From Stdlib Require Import ZArith Lia.
From stdpp Require Import base list option.
From S2P Require Import Prelude LzmaBase Sha256Spec.
Local Open Scope Z_scope.

Definition bswap32 (num : Z) : Z :=
  Z.lor (Z.lor (Z.lor (u32 (Z.shiftl num 24)) (Z.land (u32 (Z.shiftl num 8)) 0x00FF0000))
    (Z.land (Z.shiftr num 8) 0x0000FF00)) (Z.shiftr num 24).

Definition bswap64 (num : Z) : Z :=
  Z.lor (Z.lor (Z.lor (Z.lor (Z.lor (Z.lor (Z.lor
    (u64 (Z.shiftl num 56))
    (Z.land (u64 (Z.shiftl num 40)) 0x00FF000000000000))
    (Z.land (u64 (Z.shiftl num 24)) 0x0000FF0000000000))
    (Z.land (u64 (Z.shiftl num 8)) 0x000000FF00000000))
    (Z.land (Z.shiftr num 8) 0x00000000FF000000))
    (Z.land (Z.shiftr num 24) 0x0000000000FF0000))
    (Z.land (Z.shiftr num 40) 0x000000000000FF00))
    (Z.shiftr num 56).

Definition conv32be : Z -> Z := bswap32.
Definition conv64be : Z -> Z := bswap64.

(** ** Macros *)
Definition rotr_32 (num amount : Z) : Z := Z.lor (Z.shiftr num amount) (u32 (Z.shiftl num (32 - amount))).

Definition Ch (x y z : Z) : Z := Z.lxor z (Z.land x (Z.lxor y z)).
Definition Maj (x y z : Z) : Z := u32 (Z.land x (Z.lxor y z) + Z.land y z).
Definition S0 (x : Z) : Z := rotr_32 (Z.lxor x (rotr_32 (Z.lxor x (rotr_32 x 9)) 11)) 2.
Definition S1 (x : Z) : Z := rotr_32 (Z.lxor x (rotr_32 (Z.lxor x (rotr_32 x 14)) 5)) 6.
Definition s0 (x : Z) : Z := Z.lxor (rotr_32 (Z.lxor x (rotr_32 x 11)) 7) (Z.shiftr x 3).
Definition s1 (x : Z) : Z := Z.lxor (rotr_32 (Z.lxor x (rotr_32 x 2)) 17) (Z.shiftr x 10).

Definition SHA256_K : list Z :=
  [0x428A2F98; 0x71374491; 0xB5C0FBCF; 0xE9B5DBA5;
   0x3956C25B; 0x59F111F1; 0x923F82A4; 0xAB1C5ED5;
   0xD807AA98; 0x12835B01; 0x243185BE; 0x550C7DC3;
   0x72BE5D74; 0x80DEB1FE; 0x9BDC06A7; 0xC19BF174;
   0xE49B69C1; 0xEFBE4786; 0x0FC19DC6; 0x240CA1CC;
   0x2DE92C6F; 0x4A7484AA; 0x5CB0A9DC; 0x76F988DA;
   0x983E5152; 0xA831C66D; 0xB00327C8; 0xBF597FC7;
   0xC6E00BF3; 0xD5A79147; 0x06CA6351; 0x14292967;
   0x27B70A85; 0x2E1B2138; 0x4D2C6DFC; 0x53380D13;
   0x650A7354; 0x766A0ABB; 0x81C2C92E; 0x92722C85;
   0xA2BFE8A1; 0xA81A664B; 0xC24B8B70; 0xC76C51A3;
   0xD192E819; 0xD6990624; 0xF40E3585; 0x106AA070;
   0x19A4C116; 0x1E376C08; 0x2748774C; 0x34B0BCB5;
   0x391C0CB3; 0x4ED8AA4A; 0x5B9CCA4F; 0x682E6FF3;
   0x748F82EE; 0x78A5636F; 0x84C87814; 0x8CC70208;
   0x90BEFFFA; 0xA4506CEB; 0xBEF9A3F7; 0xC67178F2].

(** [W[i] = conv32be(data[i])], with the value of the expression. *)
Definition blk0 (data : list Z) (i : Z) (W : list Z) : option (list Z * Z) :=
  x ← unaligned_read32le data (4 * i);
  W ← wr W i (conv32be x);
  Some (W, conv32be x).

Definition blk2 (i : Z) (W : list Z) : option (list Z * Z) :=
  w ← rd W (Z.land i 15);
  w2 ← rd W (Z.land (i - 2) 15);
  w7 ← rd W (Z.land (i - 7) 15);
  w15 ← rd W (Z.land (i - 15) 15);
  let x := u32 (w + (s1 w2 + w7 + s0 w15)) in
  W ← wr W (Z.land i 15) x;
  Some (W, x).

(** [a(i)] to [h(i)] are [T[(0 - i) & 7]] to [T[(7 - i) & 7]]. *)
Definition reg (n i : Z) : Z := Z.land (n - i) 7.

Definition R (i j blk : Z) (T : list Z) : option (list Z) :=
  h ← rd T (reg 7 i); e ← rd T (reg 4 i); f ← rd T (reg 5 i); g ← rd T (reg 6 i);
  k ← rd SHA256_K (i + j);
  let h := u32 (h + (S1 e + Ch e f g + k + blk)) in
  T ← wr T (reg 7 i) h;
  d ← rd T (reg 3 i); h ← rd T (reg 7 i);
  T ← wr T (reg 3 i) (u32 (d + h));
  h ← rd T (reg 7 i); a ← rd T (reg 0 i); b ← rd T (reg 1 i); c ← rd T (reg 2 i);
  wr T (reg 7 i) (u32 (h + (S0 a + Maj a b c))).

Definition R0 (data : list Z) (i : Z) (WT : list Z * list Z) : option (list Z * list Z) :=
  '(W, x) ← blk0 data i WT.1; T ← R i 0 x WT.2; Some (W, T).

Definition R2 (j i : Z) (WT : list Z * list Z) : option (list Z * list Z) :=
  '(W, x) ← blk2 i WT.1; T ← R i j x WT.2; Some (W, T).

Definition sixteen : list Z := [0; 1; 2; 3; 4; 5; 6; 7; 8; 9; 10; 11; 12; 13; 14; 15].

(** [for (j = 16; j < 64; j += 16)]. *)
Fixpoint j_loop (fuel : nat) (j : Z) (WT : list Z * list Z) : option (list Z * list Z) :=
  match fuel with
  | O => None
  | S fuel => if j <? 64 then WT ← each (R2 j) sixteen WT; j_loop fuel (u32 (j + 16)) WT else Some WT
  end.

(** [W] is what the uninitialised array holds. *)
Definition transform (W : list Z) (state data : list Z) : option (list Z) :=
  T ← rd_bytes state 0 8;
  WT ← each (R0 data) sixteen (W, T);
  WT ← j_loop 4 16 WT;
  each (fun k state => x ← rd state k; y ← rd WT.2 (reg k 0); wr state k (u32 (x + y)))
    [0; 1; 2; 3; 4; 5; 6; 7] state.

(** ** Hashing *)
Record lzma_sha256_state := MkSha { state : list Z; size : Z }.

Section hashing.
  (** What the array [W] holds before it is written. *)
  Context (W : list Z).

(** The buffer and the state of a check. *)
Definition process (c : list Z * lzma_sha256_state) : option (list Z * lzma_sha256_state) :=
  st ← transform W (state c.2) c.1;
  Some (c.1, MkSha st (size c.2)).

Definition lzma_sha256_init (buffer : list Z) : list Z * lzma_sha256_state :=
  (buffer, MkSha [0x6A09E667; 0xBB67AE85; 0x3C6EF372; 0xA54FF53A; 0x510E527F; 0x9B05688C; 0x1F83D9AB; 0x5BE0CD19] 0).

Fixpoint sha256_update_loop (fuel : nat) (buf : list Z) (pos size_ : Z) (c : list Z * lzma_sha256_state)
    : option (list Z * lzma_sha256_state) :=
  match fuel with
  | O => None
  | S fuel =>
      if 0 <? size_ then
        let copy_start := Z.land (size c.2) 0x3F in
        let copy_size := 64 - copy_start in
        let copy_size := if size_ <? copy_size then size_ else copy_size in
        bs ← rd_bytes buf pos (Z.to_nat copy_size);
        buffer ← wr_bytes c.1 copy_start bs;
        let size' := u64 (size c.2 + copy_size) in
        c ← (if Z.land size' 0x3F =? 0 then process (buffer, MkSha (state c.2) size')
             else Some (buffer, MkSha (state c.2) size'));
        sha256_update_loop fuel buf (pos + copy_size) (size_ - copy_size) c
      else Some c
  end.

Definition lzma_sha256_update (buf : list Z) (c : list Z * lzma_sha256_state) : option (list Z * lzma_sha256_state) :=
  sha256_update_loop (S (length buf)) buf 0 (Z.of_nat (length buf)) c.

(** [while (pos != 64 - 8)]. *)
Fixpoint pad_loop (fuel : nat) (pos : Z) (c : list Z * lzma_sha256_state) : option (list Z * lzma_sha256_state) :=
  match fuel with
  | O => None
  | S fuel =>
      if negb (pos =? 64 - 8) then
        '(c, pos) ← (if pos =? 64 then c ← process c; Some (c, 0) else Some (c, pos));
        buffer ← wr c.1 pos 0x00;
        pad_loop fuel (pos + 1) (buffer, c.2)
      else Some c
  end.

Definition lzma_sha256_finish (c : list Z * lzma_sha256_state) : option (list Z * lzma_sha256_state) :=
  let pos := Z.land (size c.2) 0x3F in
  buffer ← wr c.1 pos 0x80;
  '(buffer, s) ← pad_loop 65 (pos + 1) (buffer, c.2);
  let s := MkSha (state s) (u64 (size s * 8)) in
  let x := conv64be (size s) in
  buffer ← unaligned_write32le buffer 56 (u32 x);
  buffer ← unaligned_write32le buffer 60 (u32 (Z.shiftr x 32));
  '(buffer, s) ← process (buffer, s);
  buffer ← each (fun i buffer => x ← rd (state s) i; unaligned_write32le buffer (4 * i) (conv32be x))
    [0; 1; 2; 3; 4; 5; 6; 7] buffer;
  Some (buffer, s).
End hashing.

Example lzma_sha256_abc :
  (c ← lzma_sha256_update (replicate 16 5) [97; 98; 99] (lzma_sha256_init (replicate 64 9));
   c ← lzma_sha256_finish (replicate 16 5) c; Some (take 32 c.1)) = Some (sha256 [97; 98; 99]).
Proof. vm_compute. reflexivity. Qed.

(** ** Byte order *)

(** A masked shift is a byte put in its place. *)
Lemma testbit_ff p k : 0 <= p -> 0 <= k -> Z.testbit (Z.shiftl 255 p) k = (p <=? k) && (k <? p + 8).
Proof.
  intros Hp Hk. rewrite Z.shiftl_spec by done. change 255 with (Z.ones 8). rewrite Z.testbit_ones by lia.
  f_equal; apply eq_true_iff_eq; rewrite ?Z.leb_le, ?Z.ltb_lt; lia.
Qed.

Lemma testbit_byte_at b p k : 0 <= p -> 0 <= k ->
  Z.testbit (Z.shiftl (u8 b) p) k = (p <=? k) && (k <? p + 8) && Z.testbit b (k - p).
Proof.
  intros Hp Hk. rewrite Z.shiftl_spec by done. unfold u8, wrap. destruct (Z.leb_spec p k); [| by rewrite Z.testbit_neg_r by lia].
  destruct (Z.ltb_spec k (p + 8)); [by rewrite Z.mod_pow2_bits_low by lia | by rewrite Z.mod_pow2_bits_high by lia].
Qed.

Lemma byte_up w n p x : 0 <= n <= p -> p + 8 <= w ->
  Z.land (wrap w (Z.shiftl x n)) (Z.shiftl 255 p) = Z.shiftl (u8 (Z.shiftr x (p - n))) p.
Proof.
  intros Hn Hw. apply Z.bits_inj'. intros k Hk. rewrite Z.land_spec, testbit_ff, testbit_byte_at, andb_comm by lia.
  destruct (Z.leb_spec p k); [| done]. destruct (Z.ltb_spec k (p + 8)); [| done]. unfold wrap.
  rewrite Z.mod_pow2_bits_low, Z.shiftl_spec, Z.shiftr_spec by lia. cbn [andb]. f_equal. lia.
Qed.

Lemma byte_down n p x : 0 <= n -> 0 <= p -> Z.land (Z.shiftr x n) (Z.shiftl 255 p) = Z.shiftl (u8 (Z.shiftr x (p + n))) p.
Proof.
  intros Hn Hp. apply Z.bits_inj'. intros k Hk. rewrite Z.land_spec, testbit_ff, testbit_byte_at, andb_comm by lia.
  destruct (Z.leb_spec p k); [| done]. destruct (Z.ltb_spec k (p + 8)); [| done].
  rewrite !Z.shiftr_spec by lia. cbn [andb]. f_equal. lia.
Qed.

Lemma byte_top w x : 8 <= w -> wrap w (Z.shiftl x (w - 8)) = Z.shiftl (u8 x) (w - 8).
Proof.
  intros Hw. apply Z.bits_inj'. intros k Hk. rewrite testbit_byte_at by lia. unfold wrap.
  destruct (Z.ltb_spec k (w - 8 + 8)).
  - rewrite Z.mod_pow2_bits_low, Z.shiftl_spec, andb_true_r by lia. destruct (Z.leb_spec (w - 8) k); [done |].
    by rewrite Z.testbit_neg_r by lia.
  - rewrite Z.mod_pow2_bits_high by lia. by rewrite andb_false_r.
Qed.

Lemma byte_bottom w x : 8 <= w -> 0 <= x < 2 ^ w -> Z.shiftr x (w - 8) = u8 (Z.shiftr x (w - 8)).
Proof.
  intros Hw Hx. symmetry. apply u8_small. rewrite Z.shiftr_div_pow2 by lia.
  assert (0 < 2 ^ (w - 8)) as H0 by (apply Z.pow_pos_nonneg; lia). split; [apply Z.div_pos; lia |].
  apply Z.div_lt_upper_bound; [lia |]. change 256 with (2 ^ 8). rewrite <- Z.pow_add_r by lia.
  replace (w - 8 + 8) with w by lia. apply Hx.
Qed.

Lemma bswap32_value x : is_word x ->
  bswap32 x = be_word (u8 x) (u8 (Z.shiftr x 8)) (u8 (Z.shiftr x 16)) (u8 (Z.shiftr x 24)).
Proof.
  intros Hx. rewrite <- be_lor by apply u8_range. unfold bswap32. rewrite <- !Z.lor_assoc.
  f_equal; [by apply (byte_top 32) |]. f_equal; [apply (byte_up 32 8 16); lia |].
  f_equal; [apply (byte_down 8 8); lia |]. by apply (byte_bottom 32).
Qed.

Lemma bswap64_value x : 0 <= x < 2 ^ 64 ->
  bswap64 x = be_word (u8 x) (u8 (Z.shiftr x 8)) (u8 (Z.shiftr x 16)) (u8 (Z.shiftr x 24)) * 2 ^ 32
    + be_word (u8 (Z.shiftr x 32)) (u8 (Z.shiftr x 40)) (u8 (Z.shiftr x 48)) (u8 (Z.shiftr x 56)).
Proof.
  intros Hx. set (lo := be_word (u8 (Z.shiftr x 32)) _ _ _).
  assert (0 <= lo < 2 ^ 32) as Hlo by (apply be_word_range; apply u8_range).
  rewrite <- lor_shiftl_add' by (done || lia). rewrite <- be_lor by apply u8_range. rewrite !Z.shiftl_lor, !Z.shiftl_shiftl by lia.
  unfold lo. rewrite <- be_lor by apply u8_range. unfold bswap64. rewrite <- !Z.lor_assoc.
  f_equal; [by apply (byte_top 64) |]. f_equal; [apply (byte_up 64 40 48); lia |].
  f_equal; [apply (byte_up 64 24 40); lia |]. f_equal; [apply (byte_up 64 8 32); lia |].
  f_equal; [apply (byte_down 8 24); lia |]. f_equal; [apply (byte_down 24 16); lia |].
  f_equal; [apply (byte_down 40 8); lia |]. by apply (byte_bottom 64).
Qed.

(** What the big-endian accesses of the code read and write. *)
Lemma le32_word b0 b1 b2 b3 : is_byte b0 -> is_byte b1 -> is_byte b2 -> is_byte b3 ->
  le32 (be_word b3 b2 b1 b0) = [b0; b1; b2; b3].
Proof.
  unfold is_byte, le32, be_word, u8, wrap. intros. rewrite !Z.shiftr_div_pow2 by lia.
  repeat f_equal; Z.to_euclidean_division_equations; lia.
Qed.

Lemma load32be bs t : bytes bs -> (4 * t + 4 <= length bs)%nat ->
  exists x, unaligned_read32le bs (4 * Z.of_nat t) = Some x /\
    (forall b0 b1 b2 b3, take 4 (drop (4 * t) bs) = [b0; b1; b2; b3] -> conv32be x = be_word b0 b1 b2 b3).
Proof.
  intros Hb Hl. set (pre := take (4 * t) bs). set (mid := take 4 (drop (4 * t) bs)). set (post := drop 4 (drop (4 * t) bs)).
  assert (bs = pre ++ mid ++ post) as E by (unfold pre, mid, post; by rewrite !take_drop).
  assert (length mid = 4%nat) as Hm by (unfold mid; rewrite length_take, length_drop; lia).
  destruct mid as [| c0 [| c1 [| c2 [| c3 [|]]]]] eqn:Em; try done.
  rewrite E in Hb. apply Forall_app in Hb as [_ Hb]. apply Forall_app in Hb as [Hb _].
  repeat (apply list.Forall_cons in Hb as [? Hb]). set (x := be_word c3 c2 c1 c0).
  assert (is_word x) as Hx by (by apply be_word_range). exists x. split.
  - rewrite E, <- (le32_word c0 c1 c2 c3) by done. fold x. apply read32le_app; [| done].
    unfold pre. rewrite length_take. lia.
  - intros b0 b1 b2 b3 [= <- <- <- <-]. unfold conv32be. rewrite bswap32_value by done.
    pose proof (le32_word c0 c1 c2 c3 H H0 H1 H2) as Hle. fold x in Hle. unfold le32 in Hle. by injection Hle as -> -> -> ->.
Qed.

Lemma store32be x : is_word x -> le32 (conv32be x) = be32 x.
Proof. intros Hx. unfold conv32be. rewrite bswap32_value by done. by rewrite le32_word by apply u8_range. Qed.

Lemma store64be x : 0 <= x < 2 ^ 64 -> le32 (u32 (conv64be x)) ++ le32 (u32 (Z.shiftr (conv64be x) 32)) = be64 x.
Proof.
  intros Hx. unfold conv64be. rewrite bswap64_value by done.
  set (hi := be_word (u8 x) _ _ _). set (lo := be_word (u8 (Z.shiftr x 32)) _ _ _).
  assert (0 <= lo < 2 ^ 32) as Hlo by (apply be_word_range; apply u8_range).
  assert (0 <= hi < 2 ^ 32) as Hhi by (apply be_word_range; apply u8_range).
  assert (u32 (hi * 2 ^ 32 + lo) = lo) as ->.
  { unfold u32, wrap. rewrite Z.add_comm, Z.mod_add by done. by apply Z.mod_small. }
  assert (Z.shiftr (hi * 2 ^ 32 + lo) 32 = hi) as ->.
  { rewrite Z.shiftr_div_pow2 by lia. rewrite Z.div_add_l by done. rewrite Z.div_small by done. lia. }
  rewrite u32_small by done. unfold hi, lo. rewrite !le32_word by apply u8_range. by rewrite be64_value.
Qed.

(** ** The functions on words *)
Lemma rotr_ROTR x n : rotr_32 x n = ROTR n x.
Proof. done. Qed.

Ltac word := repeat first [assumption | apply word_lxor | apply word_land | apply u32_word | apply ROTR_word; [| lia] | apply word_shiftr; [| lia]].

Lemma Ch_eq x y z : is_word x -> is_word y -> is_word z -> Ch x y z = Sha256Spec.Ch x y z.
Proof.
  intros Hx Hy Hz. unfold Ch, Sha256Spec.Ch. apply word_ext; [word | word |]. intros k Hk.
  rewrite !Z.lxor_spec, !Z.land_spec, Z.lxor_spec, u32_testbit, Z.lnot_spec by lia.
  by destruct (Z.testbit x k), (Z.testbit y k), (Z.testbit z k).
Qed.

Lemma Maj_eq x y z : is_word x -> is_word y -> is_word z -> Maj x y z = Sha256Spec.Maj x y z.
Proof.
  intros Hx Hy Hz. unfold Maj, Sha256Spec.Maj. set (a := Z.land x (Z.lxor y z)). set (b := Z.land y z).
  assert (a + b = Z.lxor a b) as ->.
  { rewrite Z.add_nocarry_lxor; [done |]. apply Z.bits_inj'. intros k Hk. unfold a, b.
    rewrite !Z.land_spec, Z.lxor_spec, Z.bits_0. by destruct (Z.testbit x k), (Z.testbit y k), (Z.testbit z k). }
  rewrite u32_small by (unfold a, b; apply word_lxor; word). unfold a, b.
  apply Z.bits_inj'. intros k Hk. rewrite !Z.lxor_spec, !Z.land_spec, Z.lxor_spec.
  by destruct (Z.testbit x k), (Z.testbit y k), (Z.testbit z k).
Qed.

Lemma nested3 x l m n : is_word x -> 0 < l -> 0 < m -> 0 < n -> l + m + n < 32 ->
  rotr_32 (Z.lxor x (rotr_32 (Z.lxor x (rotr_32 x l)) m)) n
  = Z.lxor (Z.lxor (ROTR n x) (ROTR (n + m) x)) (ROTR (n + m + l) x).
Proof.
  intros Hx Hl Hm Hn Hs. rewrite !rotr_ROTR. rewrite (ROTR_lxor m), (ROTR_lxor n), (ROTR_lxor n) by (lia || word).
  rewrite !ROTR_ROTR by (lia || word). by rewrite Z.lxor_assoc, ?Z.add_assoc.
Qed.

Lemma nested2 x m n : is_word x -> 0 < m -> 0 < n -> m + n < 32 ->
  rotr_32 (Z.lxor x (rotr_32 x m)) n = Z.lxor (ROTR n x) (ROTR (n + m) x).
Proof. intros. rewrite !rotr_ROTR, ROTR_lxor, ROTR_ROTR by (lia || word). done. Qed.

Lemma S0_eq x : is_word x -> S0 x = Sigma0 x.
Proof. intros. unfold S0. by rewrite nested3 by (done || lia). Qed.

Lemma S1_eq x : is_word x -> S1 x = Sigma1 x.
Proof. intros. unfold S1. by rewrite nested3 by (done || lia). Qed.

Lemma s0_eq x : is_word x -> s0 x = sigma0 x.
Proof. intros. unfold s0. by rewrite nested2 by (done || lia). Qed.

Lemma s1_eq x : is_word x -> s1 x = sigma1 x.
Proof. intros. unfold s1. by rewrite nested2 by (done || lia). Qed.

Lemma SHA256_K_eq : SHA256_K = K.
Proof. reflexivity. Qed.

(** ** Rounds

    After [t] rounds variable [n] of the reference is at [(n - t) mod 8]. *)
Definition rotated (t : Z) (T r : list Z) : Prop :=
  length T = 8%nat /\ eight r /\ forall n, 0 <= n < 8 -> rd T ((n - t) mod 8) = Some (r !!! Z.to_nat n).

Lemma reg_mod n i j : j mod 8 = 0 -> reg n i = (n - (i + j)) mod 8.
Proof.
  intros Hj. unfold reg. change 7 with (Z.ones 3). rewrite Z.land_ones by lia. change (2 ^ 3) with 8.
  Z.to_euclidean_division_equations. lia.
Qed.

Lemma eight_form r : eight r -> exists a b c d e f g h, r = [a; b; c; d; e; f; g; h] /\
  is_word a /\ is_word b /\ is_word c /\ is_word d /\ is_word e /\ is_word f /\ is_word g /\ is_word h.
Proof.
  intros [Hl Hw]. destruct r as [| a [| b [| c [| d [| e [| f [| g [| h [|]]]]]]]]]; try done.
  repeat (apply list.Forall_cons in Hw as [? Hw]). by exists a, b, c, d, e, f, g, h.
Qed.

Lemma R_spec i j blk T r : rotated (i + j) T r -> j mod 8 = 0 -> 0 <= i + j < 64 ->
  exists T', R i j blk T = Some T' /\ rotated (i + j + 1) T' (round r (K !!! Z.to_nat (i + j)) blk).
Proof.
  intros (Hl & Hr & HT) Hj Ht. unfold R. rewrite !(reg_mod _ i j Hj). set (t := i + j) in *.
  rewrite (HT 7), (HT 4), (HT 5), (HT 6) by lia. rewrite SHA256_K_eq, rd_total by (split; [lia |]; apply Ht). cbn [mbind option_bind].
  set (k := K !!! Z.to_nat t). destruct (eight_form r Hr) as (a & b & c & d & e & f & g & h & -> & Ha & Hb & Hc & Hd & He & Hf & Hg & Hh).
  cbn [lookup_total list_lookup_total] in *.
  change ([a; b; c; d; e; f; g; h] !!! Z.to_nat 7) with h. change ([a; b; c; d; e; f; g; h] !!! Z.to_nat 4) with e.
  change ([a; b; c; d; e; f; g; h] !!! Z.to_nat 5) with f. change ([a; b; c; d; e; f; g; h] !!! Z.to_nat 6) with g.
  assert (forall n, 0 <= (n - t) mod 8 < Z.of_nat (length T)) as Hin by (intros n; rewrite Hl; apply Z.mod_pos_bound; lia).
  assert (forall n m, 0 <= n < 8 -> 0 <= m < 8 -> ((n - t) mod 8 =? (m - t) mod 8) = (n =? m)) as Heq.
  { intros n m Hn Hm. apply eq_true_iff_eq. rewrite !Z.eqb_eq. split; [| by intros ->]. Z.to_euclidean_division_equations. lia. }
  destruct (wr_spec T ((7 - t) mod 8) (u32 (h + (S1 e + Ch e f g + k + blk))) (Hin 7)) as (T1 & -> & L1 & R1). cbn [mbind option_bind].
  rewrite !R1, !Heq by lia. cbn [Z.eqb Pos.eqb]. rewrite (HT 3) by lia. cbn [mbind option_bind].
  rewrite <- L1 in Hin.
  destruct (wr_spec T1 ((3 - t) mod 8) (u32 (d + u32 (h + (S1 e + Ch e f g + k + blk)))) (Hin 3)) as (T2 & E2 & L2 & R2').
  change ([a; b; c; d; e; f; g; h] !!! Z.to_nat 3) with d. rewrite E2. cbn [mbind option_bind].
  rewrite !R2', !Heq by lia. cbn [Z.eqb Pos.eqb]. rewrite !R1, !Heq by lia. cbn [Z.eqb Pos.eqb].
  rewrite (HT 0), (HT 1), (HT 2) by lia. cbn [mbind option_bind].
  change ([a; b; c; d; e; f; g; h] !!! Z.to_nat 0) with a. change ([a; b; c; d; e; f; g; h] !!! Z.to_nat 1) with b.
  change ([a; b; c; d; e; f; g; h] !!! Z.to_nat 2) with c. rewrite <- L2 in Hin.
  destruct (wr_spec T2 ((7 - t) mod 8) (u32 (u32 (h + (S1 e + Ch e f g + k + blk)) + (S0 a + Maj a b c))) (Hin 7)) as (T3 & -> & L3 & R3).
  eexists. split; [reflexivity |]. split; [congruence |]. split; [by apply round_eight |].
  intros n Hn. replace ((n - (t + 1)) mod 8) with (((n + 7) mod 8 - t) mod 8)
    by (Z.to_euclidean_division_equations; lia).
  pose proof (Z.mod_pos_bound (n + 7) 8 ltac:(lia)) as Hm. rewrite R3, R2', R1, !Heq, (HT ((n + 7) mod 8)) by lia.
  cbn [round]. rewrite <- S1_eq, <- Ch_eq, <- S0_eq, <- Maj_eq by done.
  replace (h + S1 e + Ch e f g + k + blk) with (h + (S1 e + Ch e f g + k + blk)) by lia.
  assert (n = 0 \/ n = 1 \/ n = 2 \/ n = 3 \/ n = 4 \/ n = 5 \/ n = 6 \/ n = 7) as Hc8 by lia.
  destruct Hc8 as [-> | [-> | [-> | [-> | [-> | [-> | [-> | ->]]]]]]];
    match goal with |- context [(?n + 7) mod 8] => let z := eval vm_compute in ((n + 7) mod 8) in change ((n + 7) mod 8) with z end;
    cbn; try reflexivity.
  f_equal. rewrite !u32_add_l. set (x := h + _).
  change (u32 (x + (S0 a + Maj a b c)) = u32 (x + u32 (S0 a + Maj a b c))).
  unfold u32, wrap. by rewrite Z.add_mod_idemp_r.
Qed.

(** The last sixteen words of the schedule, each at its index modulo 16. *)
Definition windowed (t : Z) (W ws : list Z) : Prop :=
  length W = 16%nat /\ forall s, 0 <= s < t -> t - 16 <= s -> rd W (s mod 16) = Some (ws !!! Z.to_nat s).

Lemma windowed_next t W ws x : 0 <= t -> windowed t W ws -> x = ws !!! Z.to_nat t ->
  exists W', wr W (t mod 16) x = Some W' /\ windowed (t + 1) W' ws.
Proof.
  intros Ht [Hl HW] ->. destruct (wr_spec W (t mod 16) (ws !!! Z.to_nat t)) as (W' & E & L & HR).
  { rewrite Hl. apply Z.mod_pos_bound. lia. }
  exists W'. split; [done |]. split; [congruence |]. intros s Hs1 Hs2. rewrite HR.
  destruct (Z.eqb_spec (s mod 16) (t mod 16)) as [Em |].
  - assert (s = t) as -> by (Z.to_euclidean_division_equations; lia). done.
  - apply HW; [| lia]. assert (s <> t) by congruence. lia.
Qed.

Lemma land_15 x : Z.land x 15 = x mod 16.
Proof. change 15 with (Z.ones 4). by rewrite Z.land_ones by lia. Qed.

Lemma each_sixteen {A} (f : Z -> A -> option A) (Inv : Z -> A -> Prop) j s :
  (forall i s, 0 <= i < 16 -> Inv (i + j) s -> exists s', f i s = Some s' /\ Inv (i + j + 1) s') ->
  Inv j s -> exists s', each f sixteen s = Some s' /\ Inv (j + 16) s'.
Proof.
  intros Hf Hs. unfold sixteen.
  assert (forall n i s, Inv (i + j) s -> 0 <= i -> i + Z.of_nat n <= 16 ->
    exists s', each f (seqZ i (Z.of_nat n)) s = Some s' /\ Inv (i + j + Z.of_nat n) s') as H.
  { induction n as [| n IH]; intros i s1 Hi H0 Hn.
    - exists s1. rewrite Z.add_0_r. done.
    - rewrite seqZ_cons by lia. cbn [each]. destruct (Hf i s1) as (s2 & -> & H2); [lia | done |]. cbn [mbind option_bind].
      rewrite Nat2Z.inj_succ, Z.pred_succ. replace (i + j + 1) with (Z.succ i + j) in H2 by lia.
      destruct (IH (Z.succ i) s2 H2) as (s3 & -> & H3); [lia | lia |]. exists s3. split; [done |].
      by replace (i + j + Z.succ (Z.of_nat n)) with (Z.succ i + j + Z.of_nat n) by lia. }
  destruct (H 16%nat 0 s) as (s' & E & Hs'); [done | lia | done |]. exists s'. split; [exact E |].
  by replace (j + 16) with (0 + j + Z.of_nat 16) by lia.
Qed.

Section block_rounds.
  Context (data st : list Z) (Hdata : length data = 64%nat) (Hbytes : bytes data) (Hst : eight st).
  Local Notation ws := (schedule data).

Lemma data_words : length (words data) = 16%nat.
Proof. by apply words_length. Qed.

Lemma blk0_spec t W : 0 <= t < 16 -> windowed t W ws ->
  exists W', blk0 data t W = Some (W', ws !!! Z.to_nat t) /\ windowed (t + 1) W' ws.
Proof.
  intros Ht HW. unfold blk0. destruct (load32be data (Z.to_nat t) Hbytes ltac:(lia)) as (x & Hx & Hv).
  rewrite Z2Nat.id in Hx by lia. rewrite Hx. cbn [mbind option_bind].
  destruct (words_lookup 16 data (Z.to_nat t) Hdata ltac:(lia)) as (b0 & b1 & b2 & b3 & Hb & Hw).
  rewrite (Hv _ _ _ _ Hb), <- Hw. destruct (schedule_spec data data_words) as (_ & Hpre & _).
  assert (words data !!! Z.to_nat t = ws !!! Z.to_nat t) as -> by (rewrite <- Hpre; apply lookup_total_take_lt; lia).
  destruct (windowed_next t W ws _ ltac:(lia) HW eq_refl) as (W' & E & HW'). rewrite Z.mod_small in E by lia. rewrite E.
  by exists W'.
Qed.

Lemma blk2_spec i j W : 0 <= i < 16 -> j mod 16 = 0 -> 16 <= i + j < 64 -> windowed (i + j) W ws ->
  exists W', blk2 i W = Some (W', ws !!! Z.to_nat (i + j)) /\ windowed (i + j + 1) W' ws.
Proof.
  intros Hi Hj Ht HW. unfold blk2. rewrite !land_15. set (t := i + j) in *.
  assert (forall n, (i - n) mod 16 = (t - n) mod 16) as Hm by (intros n; unfold t; Z.to_euclidean_division_equations; lia).
  assert (i mod 16 = (t - 16) mod 16) as E16 by (unfold t; Z.to_euclidean_division_equations; lia).
  pose proof HW as [_ HR]. rewrite E16, !Hm. rewrite !HR by lia. cbn [mbind option_bind].
  destruct (schedule_spec data data_words) as (Hlen & _ & Hws).
  pose proof (Forall_lookup_total_1 _ _ (Z.to_nat (t - 2)) (schedule_words data Hbytes)) as H2.
  pose proof (Forall_lookup_total_1 _ _ (Z.to_nat (t - 15)) (schedule_words data Hbytes)) as H15.
  set (x := u32 _). assert (x = ws !!! Z.to_nat t) as Hx.
  { unfold x. rewrite (Hws (Z.to_nat t)) by lia. rewrite s1_eq by (apply H2; lia). rewrite s0_eq by (apply H15; lia).
    rewrite !Z2Nat.inj_sub by lia. change (Z.to_nat 2) with 2%nat. change (Z.to_nat 7) with 7%nat.
    change (Z.to_nat 15) with 15%nat. change (Z.to_nat 16) with 16%nat. f_equal. lia. }
  destruct (windowed_next t W ws x ltac:(lia) HW Hx) as (W' & E & HW').
  assert ((t - 16) mod 16 = t mod 16) as -> by (Z.to_euclidean_division_equations; lia). rewrite E. cbn [mbind option_bind].
  exists W'. by rewrite <- Hx.
Qed.

(** After [t] rounds. *)
Definition at_round (t : Z) (WT : list Z * list Z) : Prop :=
  windowed t WT.1 ws /\ rotated t WT.2 (rounds ws (Z.to_nat t) st).

Lemma rounds_next t : 0 <= t < 64 ->
  rounds ws (Z.to_nat (t + 1)) st = round (rounds ws (Z.to_nat t) st) (K !!! Z.to_nat t) (ws !!! Z.to_nat t).
Proof.
  intros Ht. destruct (schedule_spec data data_words) as (Hlen & _).
  replace (Z.to_nat (t + 1)) with (S (Z.to_nat t)) by lia. apply rounds_S; [done | lia].
Qed.

Lemma R0_spec i WT : 0 <= i < 16 -> at_round i WT -> exists WT', R0 data i WT = Some WT' /\ at_round (i + 1) WT'.
Proof.
  intros Hi [HW HT]. unfold R0. destruct (blk0_spec i WT.1 Hi HW) as (W' & -> & HW'). cbn [mbind option_bind].
  rewrite <- (Z.add_0_r i) in HT. destruct (R_spec i 0 (ws !!! Z.to_nat i) WT.2 _ HT) as (T' & -> & HT'); [done | lia |].
  cbn [mbind option_bind]. eexists. split; [reflexivity |]. split; [done |]. cbn [snd]. rewrite rounds_next by lia.
  by rewrite !Z.add_0_r in HT'.
Qed.

Lemma R2_spec i j WT : 0 <= i < 16 -> j mod 16 = 0 -> 16 <= i + j < 64 -> at_round (i + j) WT ->
  exists WT', R2 j i WT = Some WT' /\ at_round (i + j + 1) WT'.
Proof.
  intros Hi Hj Ht [HW HT]. unfold R2. destruct (blk2_spec i j WT.1 Hi Hj Ht HW) as (W' & -> & HW'). cbn [mbind option_bind].
  destruct (R_spec i j (ws !!! Z.to_nat (i + j)) WT.2 _ HT) as (T' & -> & HT');
    [Z.to_euclidean_division_equations; lia | lia |].
  cbn [mbind option_bind]. eexists. split; [reflexivity |]. split; [done |]. cbn [snd]. by rewrite rounds_next by lia.
Qed.

Lemma j_loop_spec n j WT : 0 <= j -> j mod 16 = 0 -> 16 <= j -> j + 16 * Z.of_nat n = 64 -> at_round j WT ->
  exists WT', j_loop (S n) j WT = Some WT' /\ at_round 64 WT'.
Proof.
  revert j WT. induction n as [| n IH]; intros j WT Hj Hm Hlo Hn HW.
  - exists WT. cbn [j_loop]. rewrite (proj2 (Z.ltb_ge _ _)) by lia. split; [done |]. by replace 64 with j by lia.
  - cbn [j_loop]. rewrite (proj2 (Z.ltb_lt _ _)) by lia.
    destruct (each_sixteen (R2 j) at_round j WT) as (WT' & -> & HW'); [| done |].
    + intros i s Hi Hs. apply R2_spec; [done | done | lia | done].
    + cbn [mbind option_bind]. rewrite u32_small by lia. apply IH; [lia | | lia | lia | done].
      Z.to_euclidean_division_equations; lia.
Qed.
End block_rounds.

(** The function computes the compression of the reference, whatever the array
    [W] holds at first. *)
Lemma lzma_transform_spec W st data : length W = 16%nat -> length data = 64%nat -> bytes data -> eight st ->
  transform W st data = Some (compress st data).
Proof.
  intros HW Hd Hb Hst. unfold transform.
  assert (rd_bytes st 0 8 = Some st) as -> by (rewrite <- (app_nil_r st) at 1; apply rd_bytes_head; symmetry; apply Hst).
  cbn [mbind option_bind].
  assert (at_round data st 0 (W, st)) as H0.
  { split; [split; [done |]; intros; lia |]. split; [apply Hst |]. split; [done |]. intros n Hn. cbn [fst snd].
    rewrite Z.sub_0_r, Z.mod_small by lia.
    destruct Hst as [Hl8 _]. apply rd_total. change (rounds _ (Z.to_nat 0) st) with st. lia. }
  destruct (each_sixteen (R0 data) (at_round data st) 0 (W, st)) as (WT1 & -> & H1); [| done |].
  { intros i s Hi Hs. rewrite Z.add_0_r in *. by apply R0_spec. }
  cbn [mbind option_bind]. destruct (j_loop_spec data st Hd Hb 3 16 WT1) as (WT2 & -> & _ & H2); [done | done | done | done | exact H1 |].
  cbn [mbind option_bind]. destruct H2 as (Hl & Hr & HT). change (Z.to_nat 64) with 64%nat in *.
  unfold compress. set (r := rounds _ 64 st) in *.
  assert (forall n, 0 <= n < 8 -> rd WT2.2 (reg n 0) = Some (r !!! Z.to_nat n)) as HR.
  { intros n Hn. rewrite <- (HT n Hn). f_equal. unfold reg. change 7 with (Z.ones 3). rewrite Z.land_ones by lia.
    change (2 ^ 3) with 8. Z.to_euclidean_division_equations; lia. }
  clearbody r. cbn [each]. rewrite !HR by lia.
  destruct (eight_form r Hr) as (a & b & c & d & e & f & g & h & -> & _).
  destruct (eight_form st Hst) as (a' & b' & c' & d' & e' & f' & g' & h' & -> & _). reflexivity.
Qed.

(** ** The whole hash *)
Section whole.
  Context (W : list Z) (HW : length W = 16%nat).

(** The check has hashed [m]. *)
Definition hashed (m : list Z) (c : list Z * lzma_sha256_state) : Prop :=
  pending (state c.2) c.1 m (length m mod 64) /\ bytes c.1 /\ size c.2 = u64 (Z.of_nat (length m)).

Lemma lzma_process_spec buf s m : pending (state s) buf m 64 -> bytes buf ->
  exists st, process W (buf, s) = Some (buf, MkSha st (size s)) /\ pending st buf m 0.
Proof.
  intros Hp Hb. unfold process. cbn [fst snd]. pose proof (pending_length _ _ _ _ Hp) as (Hl & _).
  rewrite lzma_transform_spec by (try done; by apply (pending_eight _ _ _ _ Hp)). cbn [mbind option_bind].
  eexists. split; [reflexivity |]. by apply pending_process.
Qed.

Lemma size_low n : Z.land (u64 n) 0x3F = n mod 64.
Proof.
  change 0x3F with (Z.ones 6). rewrite Z.land_ones by lia. unfold u64, wrap. change (2 ^ 6) with 64.
  change (2 ^ 64) with (64 * 2 ^ 58). Z.to_euclidean_division_equations. lia.
Qed.

Lemma lzma_update_loop_spec fuel pre rest m c : (length rest < fuel)%nat -> bytes rest -> hashed m c ->
  exists c', sha256_update_loop W fuel (pre ++ rest) (Z.of_nat (length pre)) (Z.of_nat (length rest)) c = Some c' /\
    hashed (m ++ rest) c'.
Proof.
  revert pre rest m c. induction fuel as [| fuel IH]; intros pre rest m c Hf Hb Hc; [lia |]. cbn [sha256_update_loop].
  destruct rest as [| b0 rest0]; [exists c; by rewrite !app_nil_r |]. set (rest := b0 :: rest0) in *.
  rewrite (proj2 (Z.ltb_lt _ _)) by (simpl; lia). destruct c as [buffer s]. destruct Hc as (Hp & Hbb & Hs). cbn [fst snd] in *.
  rewrite Hs, size_low. set (r := (length m mod 64)%nat) in *. pose proof (Nat.mod_upper_bound (length m) 64 ltac:(lia)) as Hr. fold r in Hr.
  assert (Z.of_nat (length m) mod 64 = Z.of_nat r) as -> by (unfold r; by rewrite Nat2Z.inj_mod).
  set (n := if Z.of_nat (length rest) <? 64 - Z.of_nat r then Z.of_nat (length rest) else 64 - Z.of_nat r).
  assert (0 < n <= Z.of_nat (length rest) /\ n <= 64 - Z.of_nat r) as Hn.
  { unfold n. destruct (Z.ltb_spec (Z.of_nat (length rest)) (64 - Z.of_nat r)); simpl length in *; lia. }
  set (src := take (Z.to_nat n) rest). assert (length src = Z.to_nat n) as Hsrc by (unfold src; rewrite length_take; lia).
  assert (pre ++ rest = pre ++ src ++ drop (Z.to_nat n) rest) as -> by (unfold src; by rewrite take_drop).
  rewrite rd_bytes_app by done. cbn [mbind option_bind]. pose proof (pending_length _ _ _ _ Hp) as (Hl & _).
  assert (bytes rest) as Hb' by done. rewrite <- (take_drop (Z.to_nat n) rest) in Hb'. apply Forall_app in Hb' as [Hbs Hbr]. fold src in Hbs.
  destruct (pending_write _ _ _ _ src Hp) as (buf' & -> & Hp' & Hbuf); [lia | done | done |]. cbn [mbind option_bind].
  assert (u64 (u64 (Z.of_nat (length m)) + n) = u64 (Z.of_nat (length (m ++ src)))) as ->.
  { unfold u64, wrap. rewrite Z.add_mod_idemp_l by done. f_equal. rewrite length_app. lia. }
  rewrite size_low. replace (Z.of_nat (length pre) + n) with (Z.of_nat (length (pre ++ src))) by (rewrite length_app; lia).
  replace (Z.of_nat (length rest) - n) with (Z.of_nat (length (drop (Z.to_nat n) rest))) by (rewrite length_drop; lia).
  rewrite app_assoc. assert (m ++ rest = (m ++ src) ++ drop (Z.to_nat n) rest) as -> by (rewrite <- app_assoc; unfold src; by rewrite take_drop).
  assert (Z.of_nat (length (m ++ src)) mod 64 = (Z.of_nat r + n) mod 64) as Em.
  { rewrite length_app, Nat2Z.inj_add, Hsrc. unfold r. rewrite Nat2Z.inj_mod. rewrite Z2Nat.id by lia. by rewrite Z.add_mod_idemp_l. }
  assert (Z.of_nat (length (m ++ src) mod 64) = (Z.of_nat r + n) mod 64) as En by (by rewrite Nat2Z.inj_mod).
  rewrite Em. destruct (Z.eqb_spec ((Z.of_nat r + n) mod 64) 0) as [E0 |].
  - assert (r + length src = 64)%nat as Efull by (Z.to_euclidean_division_equations; lia). rewrite Efull in Hp'.
    destruct (lzma_process_spec buf' (MkSha (state s) (u64 (Z.of_nat (length (m ++ src))))) (m ++ src) Hp' Hbuf) as (st & -> & Hst).
    cbn [mbind option_bind]. apply IH; [rewrite length_drop; lia | done |]. split; [| done]. cbn [fst snd state].
    assert (length (m ++ src) mod 64 = 0)%nat as -> by lia. done.
  - cbn [mbind option_bind]. apply IH; [rewrite length_drop; lia | done |]. split; [| done]. cbn [fst snd state].
    assert (length (m ++ src) mod 64 = r + length src)%nat as -> by (Z.to_euclidean_division_equations; lia). done.
Qed.

Lemma lzma_update_spec buf m c : bytes buf -> hashed m c ->
  exists c', lzma_sha256_update W buf c = Some c' /\ hashed (m ++ buf) c'.
Proof. intros Hb Hc. by apply (lzma_update_loop_spec (S (length buf)) []); [lia | |]. Qed.

Lemma lzma_init_spec buffer : length buffer = 64%nat -> bytes buffer -> hashed [] (lzma_sha256_init buffer).
Proof. intros Hl Hb. split; [by apply pending_init | done]. Qed.

Lemma pad_loop_spec fuel pos k buf s m : (k < fuel)%nat -> (k < 64)%nat -> (Z.of_nat pos + Z.of_nat k) mod 64 = 56 ->
  pending (state s) buf m pos -> bytes buf ->
  exists buf' st, pad_loop W fuel (Z.of_nat pos) (buf, s) = Some (buf', MkSha st (size s)) /\
    pending st buf' (m ++ replicate k 0) 56 /\ bytes buf'.
Proof.
  revert pos k buf s m. induction fuel as [| fuel IH]; intros pos k buf s m Hf Hk Hm Hp Hb; [lia |]. cbn [pad_loop].
  pose proof (pending_length _ _ _ _ Hp) as (Hl & Hpos & _). destruct k as [| k].
  - assert (pos = 56%nat) as -> by (Z.to_euclidean_division_equations; lia).
    cbn [replicate]. rewrite app_nil_r. exists buf, (state s). by destruct s.
  - assert (pos <> 56%nat) as Hne by (intros ->; Z.to_euclidean_division_equations; lia).
    rewrite (proj2 (Z.eqb_neq _ _)) by lia. cbn [negb].
    assert (exists pos' st, (if Z.of_nat pos =? 64 then c ← process W (buf, s); Some (c, 0) else Some ((buf, s), Z.of_nat pos))
        = Some ((buf, MkSha st (size s)), Z.of_nat pos') /\ pending st buf m pos' /\ (pos' < 64)%nat /\
        (Z.of_nat (pos' + 1) + Z.of_nat k) mod 64 = 56)
      as (pos' & st & -> & Hp' & Hlt & Hm').
    { destruct (Z.eqb_spec (Z.of_nat pos) 64).
      - assert (pos = 64%nat) as -> by lia. destruct (lzma_process_spec buf s m Hp Hb) as (st & -> & Hst).
        exists 0%nat, st. split; [done |]. split; [done |]. split; [lia |]. Z.to_euclidean_division_equations; lia.
      - exists pos, (state s). split; [by destruct s |]. split; [done |]. split; [lia |].
        Z.to_euclidean_division_equations; lia. }
    cbn [mbind option_bind fst snd]. destruct (pending_wr _ _ _ _ 0 Hp' Hlt Hb) as (buf1 & -> & Hp1 & Hb1); [done |]. cbn [mbind option_bind].
    replace (Z.of_nat pos' + 1) with (Z.of_nat (pos' + 1)) by lia.
    destruct (IH (pos' + 1)%nat k buf1 (MkSha st (size s)) (m ++ [0])) as (buf2 & st2 & -> & H2); try done; try lia.
    exists buf2, st2. split; [done |]. by rewrite <- app_assoc in H2.
Qed.

(** The words of the state, in big-endian order at the start of the buffer. *)
Lemma digest_app a b : digest (a ++ b) = digest a ++ digest b.
Proof. unfold digest. by rewrite fmap_app, join_app. Qed.

Lemma store_words_loop done_ todo old rest : Forall is_word todo -> length old = (4 * length todo)%nat ->
  each (fun i buffer => x ← rd (done_ ++ todo) i; unaligned_write32le buffer (4 * i) (conv32be x))
    (seqZ (Z.of_nat (length done_)) (Z.of_nat (length todo))) (digest done_ ++ old ++ rest)
  = Some (digest (done_ ++ todo) ++ rest).
Proof.
  revert done_ old. induction todo as [| x todo IH]; intros done_ old Hw Hl.
  - rewrite app_nil_r. by rewrite (nil_length_inv old Hl).
  - apply list.Forall_cons in Hw as [Hx Hw]. cbn [length]. rewrite seqZ_cons by lia. cbn [each].
    rewrite rd_app by done. cbn [mbind option_bind]. rewrite <- (take_drop 4 old), <- app_assoc.
    cbn [length] in Hl.
    rewrite write32le_app by (rewrite ?digest_length, ?length_take; lia). cbn [mbind option_bind].
    rewrite store32be, app_assoc by done. specialize (IH (done_ ++ [x]) (drop 4 old) Hw).
    rewrite digest_app, <- !app_assoc in IH. rewrite <- app_assoc. change (x :: todo) with ([x] ++ todo). rewrite <- IH by (rewrite length_drop; lia).
    rewrite length_app. cbn [length]. do 2 f_equal; lia.
Qed.

Lemma store_words st old rest : eight st -> length old = 32%nat ->
  each (fun i buffer => x ← rd st i; unaligned_write32le buffer (4 * i) (conv32be x)) [0; 1; 2; 3; 4; 5; 6; 7] (old ++ rest)
  = Some (digest st ++ rest).
Proof. intros [He Hw] Hl. pose proof (store_words_loop [] st old rest Hw) as H. rewrite He in H. by apply H. Qed.

Lemma lzma_finish_spec m c : hashed m c -> 8 * Z.of_nat (length m) < 2 ^ 64 ->
  exists c', lzma_sha256_finish W c = Some c' /\ take 32 c'.1 = sha256 m.
Proof.
  intros (Hp & Hb & Hs) Hm. destruct c as [buf s]. cbn [fst snd] in *. unfold lzma_sha256_finish. cbn [fst snd].
  set (len := length m) in *. rewrite Hs, size_low.
  assert (Z.of_nat len mod 64 = Z.of_nat (len mod 64)) as -> by (by rewrite Nat2Z.inj_mod).
  pose proof (Nat.mod_upper_bound len 64 ltac:(lia)) as Hr. set (r := (len mod 64)%nat) in *.
  destruct (pending_wr _ _ _ _ 0x80 Hp Hr Hb) as (buf1 & -> & Hp1 & Hb1); [done |]. cbn [mbind option_bind].
  replace (Z.of_nat r + 1) with (Z.of_nat (r + 1)) by lia. pose proof (zeros_spec len) as Hz.
  assert (zeros len < 64)%nat as Hz64 by (unfold zeros; pose proof (Z.mod_pos_bound (55 - Z.of_nat len) 64); lia).
  destruct (pad_loop_spec 65 (r + 1) (zeros len) buf1 s (m ++ [0x80])) as (buf2 & st2 & -> & Hp2 & Hb2); try done; try lia.
  { unfold r. apply (f_equal Z.of_nat) in Hz. rewrite Nat2Z.inj_mod, !Nat2Z.inj_add in Hz.
    rewrite Nat2Z.inj_add, Nat2Z.inj_mod. Z.to_euclidean_division_equations; lia. }
  cbn [mbind option_bind state size]. rewrite Hs, (u64_small (Z.of_nat len)), u64_small, (Z.mul_comm _ 8) by lia.
  set (bits := 8 * Z.of_nat len) in *. pose proof (store64be bits ltac:(lia)) as H64.
  set (hi := u32 (conv64be bits)) in *. set (lo := u32 (Z.shiftr (conv64be bits) 32)) in *.
  pose proof (pending_length _ _ _ _ Hp2) as (Hl2 & _).
  rewrite <- (take_drop 56 buf2). rewrite <- (take_drop 4 (drop 56 buf2)), drop_drop.
  rewrite write32le_app by (rewrite ?length_take, ?length_drop; lia). cbn [mbind option_bind].
  rewrite <- (take_drop 4 (drop (56 + 4) buf2)), drop_drop. rewrite app_assoc.
  rewrite write32le_app by (rewrite ?length_app, ?length_take, ?length_drop; change (length (le32 hi)) with 4%nat; lia).
  cbn [mbind option_bind]. rewrite <- app_assoc, (app_assoc (le32 hi)), H64.
  assert (drop (56 + 4 + 4) buf2 = []) as -> by (apply drop_ge; lia). rewrite app_nil_r.
  pose proof (be64_bytes bits) as Hbe.
  assert (pending st2 (take 56 buf2 ++ be64 bits) (pad m) 64) as Hp3.
  { rewrite pad_split. apply (pending_put _ buf2 _ 56); [exact Hp2 | done |]. by rewrite drop_ge, app_nil_r by (simpl; lia). }
  destruct (lzma_process_spec _ (MkSha st2 bits) (pad m) Hp3) as (st3 & -> & Hp4); [apply Forall_app; split; [by apply Forall_take | done] |].
  cbn [mbind option_bind state].
  assert (take 56 buf2 ++ be64 bits = take 32 buf2 ++ take 24 (drop 32 buf2) ++ be64 bits) as ->.
  { rewrite app_assoc. f_equal. by rewrite take_take_drop. }
  rewrite store_words by (try apply (pending_eight _ _ _ _ Hp4); rewrite length_take; lia). cbn [mbind option_bind].
  eexists. split; [reflexivity |]. cbn [fst]. rewrite take_app_length'; [by apply (pending_sha256 _ _ _ Hp4) |].
  destruct (eight_form st3 (pending_eight _ _ _ _ Hp4)) as (? & ? & ? & ? & ? & ? & ? & ? & -> & _). done.
Qed.
End whole.

(** A message given in any pieces, to a check whose buffer and uninitialised
    array hold anything, has the digest of the standard, and no access leaves
    its array. *)
Theorem lzma_sha256_correct W buffer ps : length W = 16%nat -> length buffer = 64%nat -> bytes buffer ->
  bytes (concat ps) -> 8 * Z.of_nat (length (concat ps)) < 2 ^ 64 ->
  exists c c', each (lzma_sha256_update W) ps (lzma_sha256_init buffer) = Some c /\
    lzma_sha256_finish W c = Some c' /\ take 32 c'.1 = sha256 (concat ps).
Proof.
  intros HW Hl Hb Hps Hlen.
  destruct (each_invariant (lzma_sha256_update W) (fun m c => hashed m c) bytes (@app Z)) with (l := ps) (m := @nil Z)
    (s := lzma_sha256_init buffer) as (c & Hc & Hh).
  - intros p m c Hp Hc. by apply lzma_update_spec.
  - by apply bytes_concat_inv.
  - by apply lzma_init_spec.
  - rewrite foldl_app_concat in Hh. destruct (lzma_finish_spec W HW _ _ Hh Hlen) as (c' & Hf & Ht). by exists c, c'.
Qed.

Lemma lzma_sha256_correct_witness :
  (bytes (replicate 64 9) /\ bytes (concat [[97]; [98; 99]])) /\
  exists c c', each (lzma_sha256_update (replicate 16 5)) [[97]; [98; 99]] (lzma_sha256_init (replicate 64 9)) = Some c /\
    lzma_sha256_finish (replicate 16 5) c = Some c' /\ take 32 c'.1 = sha256 [97; 98; 99].
Proof.
  assert (bytes (replicate 64 9)) as Hb by (apply (bool_decide_unpack _); reflexivity).
  assert (bytes (concat [[97]; [98; 99]])) as Hm by (apply (bool_decide_unpack _); reflexivity).
  split; [exact (conj Hb Hm) |].
  exact (lzma_sha256_correct (replicate 16 5) (replicate 64 9) [[97]; [98; 99]] eq_refl eq_refl Hb Hm eq_refl).
Defined.
