(* ===== verification/BioSha256.v ===== *)
(** * libbio: SHA-256

    source/bio/crt0/crt0_sha256.cpp and src/include/sha256.h, used by the
    dynamic linker to hash the modules it registers. The reference is that of
    Sha256Spec.v. [None] is an access outside an array. *)

From Stdlib Require Import ZArith Lia.
From stdpp Require Import base list option.
From S2P Require Import Prelude LzmaBase Sha256Spec.
Local Open Scope Z_scope.

Record SHA256_CTX := MkCtx { data : list Z; datalen : Z; bitlen : Z; state : list Z }.

(** ** Macros *)
Definition ROTRIGHT (a b : Z) : Z := Z.lor (Z.shiftr a b) (u32 (Z.shiftl a (32 - b))).
Definition CH (x y z : Z) : Z := Z.lxor (Z.land x y) (Z.land (u32 (Z.lnot x)) z).
Definition MAJ (x y z : Z) : Z := Z.lxor (Z.lxor (Z.land x y) (Z.land x z)) (Z.land y z).
Definition EP0 (x : Z) : Z := Z.lxor (Z.lxor (ROTRIGHT x 2) (ROTRIGHT x 13)) (ROTRIGHT x 22).
Definition EP1 (x : Z) : Z := Z.lxor (Z.lxor (ROTRIGHT x 6) (ROTRIGHT x 11)) (ROTRIGHT x 25).
Definition SIG0 (x : Z) : Z := Z.lxor (Z.lxor (ROTRIGHT x 7) (ROTRIGHT x 18)) (Z.shiftr x 3).
Definition SIG1 (x : Z) : Z := Z.lxor (Z.lxor (ROTRIGHT x 17) (ROTRIGHT x 19)) (Z.shiftr x 10).

Definition k : list Z :=
  [0x428a2f98; 0x71374491; 0xb5c0fbcf; 0xe9b5dba5; 0x3956c25b; 0x59f111f1; 0x923f82a4; 0xab1c5ed5] ++
  [0xd807aa98; 0x12835b01; 0x243185be; 0x550c7dc3; 0x72be5d74; 0x80deb1fe; 0x9bdc06a7; 0xc19bf174] ++
  [0xe49b69c1; 0xefbe4786; 0x0fc19dc6; 0x240ca1cc; 0x2de92c6f; 0x4a7484aa; 0x5cb0a9dc; 0x76f988da] ++
  [0x983e5152; 0xa831c66d; 0xb00327c8; 0xbf597fc7; 0xc6e00bf3; 0xd5a79147; 0x06ca6351; 0x14292967] ++
  [0x27b70a85; 0x2e1b2138; 0x4d2c6dfc; 0x53380d13; 0x650a7354; 0x766a0abb; 0x81c2c92e; 0x92722c85] ++
  [0xa2bfe8a1; 0xa81a664b; 0xc24b8b70; 0xc76c51a3; 0xd192e819; 0xd6990624; 0xf40e3585; 0x106aa070] ++
  [0x19a4c116; 0x1e376c08; 0x2748774c; 0x34b0bcb5; 0x391c0cb3; 0x4ed8aa4a; 0x5b9cca4f; 0x682e6ff3] ++
  [0x748f82ee; 0x78a5636f; 0x84c87814; 0x8cc70208; 0x90befffa; 0xa4506ceb; 0xbef9a3f7; 0xc67178f2].

(** ** The transformation *)

(** [for (i = 0, j = 0; i < 16; ++i, j += 4)]. *)
Fixpoint load_loop (fuel : nat) (i j : Z) (data m : list Z) : option (list Z) :=
  match fuel with
  | O => None
  | S fuel =>
      if i <? 16 then
        b0 ← rd data j; b1 ← rd data (j + 1); b2 ← rd data (j + 2); b3 ← rd data (j + 3);
        m ← wr m i (Z.lor (Z.lor (Z.lor (Z.shiftl b0 24) (Z.shiftl b1 16)) (Z.shiftl b2 8)) b3);
        load_loop fuel (i + 1) (j + 4) data m
      else Some m
  end.

(** [for ( ; i < 64; ++i)]. *)
Fixpoint extend_loop (fuel : nat) (i : Z) (m : list Z) : option (list Z) :=
  match fuel with
  | O => None
  | S fuel =>
      if i <? 64 then
        m2 ← rd m (i - 2); m7 ← rd m (i - 7); m15 ← rd m (i - 15); m16 ← rd m (i - 16);
        m ← wr m i (u32 (SIG1 m2 + m7 + SIG0 m15 + m16));
        extend_loop fuel (i + 1) m
      else Some m
  end.

Record vars := MkVars { a : Z; b : Z; c : Z; d : Z; e : Z; f : Z; g : Z; h : Z }.

Fixpoint round_loop (fuel : nat) (i : Z) (m : list Z) (v : vars) : option vars :=
  match fuel with
  | O => None
  | S fuel =>
      if i <? 64 then
        ki ← rd k i; mi ← rd m i;
        let t1 := u32 (h v + EP1 (e v) + CH (e v) (f v) (g v) + ki + mi) in
        let t2 := u32 (EP0 (a v) + MAJ (a v) (b v) (c v)) in
        round_loop fuel (i + 1) m (MkVars (u32 (t1 + t2)) (a v) (b v) (c v) (u32 (d v + t1)) (e v) (f v) (g v))
      else Some v
  end.

(** [ctx->state[0] += a] and so on. *)
Definition add_back (st : list Z) (v : vars) : option (list Z) :=
  x ← rd st 0; st ← wr st 0 (u32 (x + a v)); x ← rd st 1; st ← wr st 1 (u32 (x + b v));
  x ← rd st 2; st ← wr st 2 (u32 (x + c v)); x ← rd st 3; st ← wr st 3 (u32 (x + d v));
  x ← rd st 4; st ← wr st 4 (u32 (x + e v)); x ← rd st 5; st ← wr st 5 (u32 (x + f v));
  x ← rd st 6; st ← wr st 6 (u32 (x + g v)); x ← rd st 7; wr st 7 (u32 (x + h v)).

Section hashing.
  (** What the uninitialised array [m] holds. *)
  Context (m : list Z).

Definition sha256_transform (ctx : SHA256_CTX) (data_ : list Z) : option SHA256_CTX :=
  m ← load_loop 17 0 0 data_ m;
  m ← extend_loop 49 16 m;
  s0 ← rd (state ctx) 0; s1 ← rd (state ctx) 1; s2 ← rd (state ctx) 2; s3 ← rd (state ctx) 3;
  s4 ← rd (state ctx) 4; s5 ← rd (state ctx) 5; s6 ← rd (state ctx) 6; s7 ← rd (state ctx) 7;
  v ← round_loop 65 0 m (MkVars s0 s1 s2 s3 s4 s5 s6 s7);
  st ← add_back (state ctx) v;
  Some (MkCtx (data ctx) (datalen ctx) (bitlen ctx) st).

Definition sha256_init (ctx : SHA256_CTX) : SHA256_CTX :=
  MkCtx (data ctx) 0 0 [0x6a09e667; 0xbb67ae85; 0x3c6ef372; 0xa54ff53a; 0x510e527f; 0x9b05688c; 0x1f83d9ab; 0x5be0cd19].

(** One byte. *)
Definition update_byte (ctx : SHA256_CTX) (byte : Z) : option SHA256_CTX :=
  dat ← wr (data ctx) (datalen ctx) byte;
  let ctx := MkCtx dat (u32 (datalen ctx + 1)) (bitlen ctx) (state ctx) in
  if datalen ctx =? 64 then
    ctx ← sha256_transform ctx (data ctx);
    Some (MkCtx (data ctx) 0 (u64 (bitlen ctx + 512)) (state ctx))
  else Some ctx.

(** [for (i = 0; i < len; ++i)] with [i] a [WORD] and [len] a [size_t]: [inr] is
    the context when the loop ends, [inl] the one it has reached when the fuel
    is used up. *)
Fixpoint update_loop (fuel : nat) (i : Z) (ctx : SHA256_CTX) (data_ : list Z) (len : Z)
    : option (SHA256_CTX + SHA256_CTX) :=
  match fuel with
  | O => Some (inl ctx)
  | S fuel =>
      if i <? len then
        byte ← rd data_ i;
        ctx ← update_byte ctx byte;
        update_loop fuel (u32 (i + 1)) ctx data_ len
      else Some (inr ctx)
  end.

Definition sha256_update (ctx : SHA256_CTX) (data_ : list Z) (len : Z) : option SHA256_CTX :=
  r ← update_loop (S (Z.to_nat len)) 0 ctx data_ len;
  match r with inr ctx => Some ctx | inl _ => None end.

(** [while (i < limit) ctx->data[i++] = 0x00]. *)
Fixpoint fill_loop (fuel : nat) (i limit : Z) (data : list Z) : option (list Z) :=
  match fuel with
  | O => None
  | S fuel => if i <? limit then data ← wr data i 0x00; fill_loop fuel (i + 1) limit data else Some data
  end.

(** [for (i = 0; i < 4; ++i)] over the bytes of the digest. *)
Fixpoint hash_loop (fuel : nat) (i : Z) (st hash : list Z) : option (list Z) :=
  match fuel with
  | O => None
  | S fuel =>
      if i <? 4 then
        s0 ← rd st 0; hash ← wr hash i (Z.land (Z.shiftr s0 (24 - i * 8)) 0xff);
        s1 ← rd st 1; hash ← wr hash (i + 4) (Z.land (Z.shiftr s1 (24 - i * 8)) 0xff);
        s2 ← rd st 2; hash ← wr hash (i + 8) (Z.land (Z.shiftr s2 (24 - i * 8)) 0xff);
        s3 ← rd st 3; hash ← wr hash (i + 12) (Z.land (Z.shiftr s3 (24 - i * 8)) 0xff);
        s4 ← rd st 4; hash ← wr hash (i + 16) (Z.land (Z.shiftr s4 (24 - i * 8)) 0xff);
        s5 ← rd st 5; hash ← wr hash (i + 20) (Z.land (Z.shiftr s5 (24 - i * 8)) 0xff);
        s6 ← rd st 6; hash ← wr hash (i + 24) (Z.land (Z.shiftr s6 (24 - i * 8)) 0xff);
        s7 ← rd st 7; hash ← wr hash (i + 28) (Z.land (Z.shiftr s7 (24 - i * 8)) 0xff);
        hash_loop fuel (i + 1) st hash
      else Some hash
  end.

(** [Pad whatever data is left in the buffer]. *)
Definition final_pad (ctx : SHA256_CTX) : option SHA256_CTX :=
  let i := datalen ctx in
  if datalen ctx <? 56 then
    dat ← wr (data ctx) i 0x80;
    dat ← fill_loop 57 (i + 1) 56 dat;
    Some (MkCtx dat (datalen ctx) (bitlen ctx) (state ctx))
  else
    dat ← wr (data ctx) i 0x80;
    dat ← fill_loop 65 (i + 1) 64 dat;
    ctx ← sha256_transform (MkCtx dat (datalen ctx) (bitlen ctx) (state ctx)) dat;
    dat ← wr_bytes (data ctx) 0 (replicate 56 0);
    Some (MkCtx dat (datalen ctx) (bitlen ctx) (state ctx)).

(** The length of the message in bits, in the last eight bytes. *)
Definition put_length (dat : list Z) (bits : Z) : option (list Z) :=
  dat ← wr dat 63 (u8 bits);
  dat ← wr dat 62 (u8 (Z.shiftr bits 8));
  dat ← wr dat 61 (u8 (Z.shiftr bits 16));
  dat ← wr dat 60 (u8 (Z.shiftr bits 24));
  dat ← wr dat 59 (u8 (Z.shiftr bits 32));
  dat ← wr dat 58 (u8 (Z.shiftr bits 40));
  dat ← wr dat 57 (u8 (Z.shiftr bits 48));
  wr dat 56 (u8 (Z.shiftr bits 56)).

Definition sha256_final (ctx : SHA256_CTX) (hash : list Z) : option (SHA256_CTX * list Z) :=
  ctx ← final_pad ctx;
  let bits := u64 (bitlen ctx + u32 (datalen ctx * 8)) in
  dat ← put_length (data ctx) bits;
  ctx ← sha256_transform (MkCtx dat (datalen ctx) bits (state ctx)) dat;
  hash ← hash_loop 5 0 (state ctx) hash;
  Some (ctx, hash).
End hashing.

Example sha256_final_abc :
  (let m := replicate 64 7 in
   ctx ← sha256_update m (sha256_init (MkCtx (replicate 64 9) 3 3 [])) [97; 98; 99] 3;
   r ← sha256_final m ctx (replicate 32 0); Some r.2) = Some (sha256 [97; 98; 99]).
Proof. vm_compute. reflexivity. Qed.

(** ** The transformation is the compression of the reference *)
Lemma SIG0_eq x : SIG0 x = sigma0 x.
Proof. done. Qed.

Lemma SIG1_eq x : SIG1 x = sigma1 x.
Proof. done. Qed.

Definition var_list (v : vars) : list Z := [a v; b v; c v; d v; e v; f v; g v; h v].

(** The first [t] words of the schedule are in the array. *)
Definition filled (t : Z) (m ws : list Z) : Prop :=
  length m = 64%nat /\ forall s, 0 <= s < t -> rd m s = Some (ws !!! Z.to_nat s).

Lemma filled_next t m ws x : 0 <= t < 64 -> filled t m ws -> x = ws !!! Z.to_nat t ->
  exists m', wr m t x = Some m' /\ filled (t + 1) m' ws.
Proof.
  intros Ht [Hl Hm] ->. destruct (wr_spec m t (ws !!! Z.to_nat t)) as (m' & E & L & HR); [lia |].
  exists m'. split; [done |]. split; [congruence |]. intros s Hs. rewrite HR.
  destruct (Z.eqb_spec s t) as [-> |]; [done |]. apply Hm. lia.
Qed.

Section block.
  Context (block : list Z) (Hlen : length block = 64%nat) (Hbytes : bytes block).
  Local Notation ws := (schedule block).

Lemma block_words : length (words block) = 16%nat.
Proof. by apply words_length. Qed.

Lemma load_loop_spec n i m : 0 <= i -> i + Z.of_nat n = 16 -> filled i m ws ->
  exists m', load_loop (S n) i (4 * i) block m = Some m' /\ filled 16 m' ws.
Proof.
  revert i m. induction n as [| n IH]; intros i m Hi Hn Hm.
  - exists m. cbn [load_loop]. rewrite (proj2 (Z.ltb_ge _ _)) by lia. split; [done |]. by replace 16 with i by lia.
  - cbn [load_loop]. rewrite (proj2 (Z.ltb_lt _ _)) by lia.
    destruct (words_lookup 16 block (Z.to_nat i) Hlen ltac:(lia)) as (b0 & b1 & b2 & b3 & Hb & Hw).
    set (pre := take (4 * Z.to_nat i) block). set (post := drop 4 (drop (4 * Z.to_nat i) block)).
    assert (block = pre ++ [b0; b1; b2; b3] ++ post) as E by (unfold pre, post; by rewrite <- Hb, !take_drop).
    assert (Z.of_nat (length pre) = 4 * i) as Hp by (unfold pre; rewrite length_take; lia).
    assert (forall j x, 0 <= j -> [b0; b1; b2; b3] !! Z.to_nat j = Some x -> rd block (4 * i + j) = Some x) as HR
      by (intros j x Hj Hx; rewrite E; apply (rd_offset _ _ _ _ j); [lia | done | done]).
    pose proof (HR 0 b0 ltac:(lia) eq_refl) as H0. rewrite Z.add_0_r in H0. rewrite H0, (HR 1 b1), (HR 2 b2), (HR 3 b3) by done.
    cbn [mbind option_bind]. pose proof Hbytes as Hb'. rewrite E in Hb'. apply Forall_app in Hb' as [_ Hb']. apply Forall_app in Hb' as [Hb' _].
    repeat (apply list.Forall_cons in Hb' as [? Hb']).
    rewrite <- !Z.lor_assoc.
    assert (Z.lor (Z.shiftl b0 24) (Z.lor (Z.shiftl b1 16) (Z.lor (Z.shiftl b2 8) b3)) = ws !!! Z.to_nat i) as Hv.
    { rewrite be_lor, <- Hw by done. destruct (schedule_spec block block_words) as (_ & Hpre & _).
      rewrite <- Hpre. apply lookup_total_take_lt. lia. }
    destruct (filled_next i m ws _ ltac:(lia) Hm Hv) as (m' & -> & Hm'). cbn [mbind option_bind].
    replace (4 * i + 4) with (4 * (i + 1)) by lia. apply IH; [lia | lia | done].
Qed.

Lemma extend_loop_spec n i m : 16 <= i -> i + Z.of_nat n = 64 -> filled i m ws ->
  exists m', extend_loop (S n) i m = Some m' /\ filled 64 m' ws.
Proof.
  revert i m. induction n as [| n IH]; intros i m Hi Hn Hm.
  - exists m. cbn [extend_loop]. rewrite (proj2 (Z.ltb_ge _ _)) by lia. split; [done |]. by replace 64 with i by lia.
  - cbn [extend_loop]. rewrite (proj2 (Z.ltb_lt _ _)) by lia. pose proof Hm as [_ HR]. rewrite !HR by lia. cbn [mbind option_bind].
    destruct (schedule_spec block block_words) as (_ & _ & Hws).
    set (x := u32 _). assert (x = ws !!! Z.to_nat i) as Hx.
    { unfold x. rewrite (Hws (Z.to_nat i)), !Z2Nat.inj_sub by lia.
      change (Z.to_nat 2) with 2%nat. change (Z.to_nat 7) with 7%nat. change (Z.to_nat 15) with 15%nat.
      change (Z.to_nat 16) with 16%nat. rewrite SIG1_eq, SIG0_eq. done. }
    destruct (filled_next i m ws x ltac:(lia) Hm Hx) as (m' & -> & Hm'). cbn [mbind option_bind].
    apply IH; [lia | lia | exact Hm'].
Qed.

Lemma round_loop_spec st fuel i m v : 0 <= i <= 64 -> 64 - i < Z.of_nat fuel -> filled 64 m ws ->
  var_list v = rounds ws (Z.to_nat i) st -> exists v', round_loop fuel i m v = Some v' /\ var_list v' = rounds ws 64 st.
Proof.
  revert i v. induction fuel as [| fuel IH]; intros i v Hi Hn Hm Hv; [lia |]. cbn [round_loop].
  destruct (Z.ltb_spec i 64).
  - pose proof Hm as [_ HR]. rewrite HR by lia. rewrite rd_total by (change (length k) with 64%nat; lia). cbn [mbind option_bind].
    apply IH; [lia | lia | done |]. destruct (schedule_spec block block_words) as (Hl & _).
    replace (Z.to_nat (i + 1)) with (S (Z.to_nat i)) by lia. rewrite rounds_S by (done || lia). by rewrite <- Hv.
  - exists v. split; [done |]. rewrite Hv. f_equal. lia.
Qed.
End block.

Lemma rounds_0 ws st : rounds ws (Z.to_nat 0) st = st.
Proof. done. Qed.

Lemma add_back_value s0 s1 s2 s3 s4 s5 s6 s7 v :
  add_back [s0; s1; s2; s3; s4; s5; s6; s7] v = Some (add_words [s0; s1; s2; s3; s4; s5; s6; s7] (var_list v)).
Proof. reflexivity. Qed.

Lemma schedule_loaded m block : length m = 64%nat -> length block = 64%nat -> bytes block ->
  exists m1 m2, load_loop 17 0 0 block m = Some m1 /\ extend_loop 49 16 m1 = Some m2 /\ filled 64 m2 (schedule block).
Proof.
  intros Hm Hl Hb.
  destruct (load_loop_spec block Hl Hb 16 0 m) as (m1 & E1 & H1); [done | done | by split; [| intros; lia] |].
  destruct (extend_loop_spec block Hl 48 16 m1) as (m2 & E2 & H2); [done | done | done |]. by exists m1, m2.
Qed.

Lemma rounds_run m block st v : length block = 64%nat -> filled 64 m (schedule block) -> var_list v = st ->
  exists v', round_loop 65 0 m v = Some v' /\ var_list v' = rounds (schedule block) 64 st.
Proof. intros Hl Hm <-. apply round_loop_spec; [done | done | done | done | by rewrite rounds_0]. Qed.

Lemma transform_spec m ctx block : length m = 64%nat -> length block = 64%nat -> bytes block -> eight (state ctx) ->
  sha256_transform m ctx block = Some (MkCtx (data ctx) (datalen ctx) (bitlen ctx) (compress (state ctx) block)).
Proof.
  intros Hm Hl Hb He. unfold sha256_transform. destruct (schedule_loaded m block Hm Hl Hb) as (m1 & m2 & -> & E2 & H2).
  cbn [mbind option_bind]. rewrite E2. cbn [mbind option_bind]. destruct ctx as [dat dl bl st]. cbn [state data datalen bitlen] in *.
  assert (exists s0 s1 s2 s3 s4 s5 s6 s7, st = [s0; s1; s2; s3; s4; s5; s6; s7]) as (s0 & s1 & s2 & s3 & s4 & s5 & s6 & s7 & E).
  { destruct He as [He _]. destruct st as [| s0 [| s1 [| s2 [| s3 [| s4 [| s5 [| s6 [| s7 [|]]]]]]]]]; try done.
    by exists s0, s1, s2, s3, s4, s5, s6, s7. }
  destruct (rounds_run m2 block st (MkVars s0 s1 s2 s3 s4 s5 s6 s7) Hl H2) as (v & Ev & Hv); [done |].
  assert (forall i x, 0 <= i -> st !! Z.to_nat i = Some x -> rd st i = Some x) as HR.
  { intros i x Hi Hx. unfold rd. by rewrite (proj2 (Z.ltb_ge _ _)) by lia. }
  rewrite (HR 0 s0), (HR 1 s1), (HR 2 s2), (HR 3 s3), (HR 4 s4), (HR 5 s5), (HR 6 s6), (HR 7 s7) by (done || by rewrite E).
  rewrite !bind_Some, Ev, bind_Some.
  assert (add_back st v = Some (add_words st (var_list v))) as -> by (rewrite E; apply add_back_value). rewrite bind_Some.
  unfold compress. by rewrite <- Hv.
Qed.

(** ** The whole hash *)
Section whole.
  Context (m : list Z) (Hm : length m = 64%nat).

(** The context has taken in [s]. *)
Definition absorbed (s : list Z) (ctx : SHA256_CTX) : Prop :=
  pending (state ctx) (data ctx) s (Z.to_nat (datalen ctx)) /\ bytes (data ctx) /\
  datalen ctx = Z.of_nat (length s) mod 64 /\ bitlen ctx = u64 (8 * (Z.of_nat (length s) - datalen ctx)).

Lemma init_absorbed ctx : length (data ctx) = 64%nat -> bytes (data ctx) -> absorbed [] (sha256_init ctx).
Proof. intros Hl Hb. split; [by apply pending_init | done]. Qed.

Lemma process_spec dat st dl bl s : pending st dat s 64 -> bytes dat ->
  exists st', sha256_transform m (MkCtx dat dl bl st) dat = Some (MkCtx dat dl bl st') /\ pending st' dat s 0.
Proof.
  intros Hp Hb. pose proof (pending_length _ _ _ _ Hp) as (Hl & _).
  rewrite transform_spec by (try done; by apply (pending_eight _ _ _ _ Hp)). eexists. split; [reflexivity |]. by apply pending_process.
Qed.

Lemma update_byte_spec ctx s x : absorbed s ctx -> is_byte x ->
  exists ctx', update_byte m ctx x = Some ctx' /\ absorbed (s ++ [x]) ctx'.
Proof.
  intros (Hp & Hb & Hd & Hbl) Hx. destruct ctx as [dat dl bl st]. unfold update_byte. cbn [data datalen bitlen state] in *.
  pose proof (Z.mod_pos_bound (Z.of_nat (length s)) 64 ltac:(lia)) as Hr. rewrite <- Hd in Hr.
  destruct (pending_wr _ _ _ _ x Hp) as (dat' & E & Hp' & Hb'); [lia | done | done |]. rewrite Z2Nat.id in E by lia. rewrite E, bind_Some.
  rewrite u32_small by lia. replace (Z.to_nat dl + 1)%nat with (Z.to_nat (dl + 1)) in Hp' by lia. cbn [data datalen bitlen state].
  assert (Z.of_nat (length (s ++ [x])) = Z.of_nat (length s) + 1) as El by (rewrite length_app; simpl; lia).
  destruct (Z.eqb_spec (dl + 1) 64) as [E64 |].
  - rewrite E64 in *. destruct (process_spec dat' st 64 bl _ Hp' Hb') as (st' & -> & Hp2). rewrite bind_Some. cbn [data datalen bitlen state].
    eexists. split; [reflexivity |]. split; [exact Hp2 |]. split; [done |]. cbn [data datalen bitlen state]. rewrite El.
    split; [Z.to_euclidean_division_equations; lia |]. rewrite Hbl. unfold u64, wrap. rewrite Z.add_mod_idemp_l by done. f_equal. lia.
  - eexists. split; [reflexivity |]. split; [exact Hp' |]. split; [done |]. cbn [data datalen bitlen state]. rewrite El.
    split; [Z.to_euclidean_division_equations; lia |]. rewrite Hbl. do 2 f_equal. lia.
Qed.

Lemma update_loop_spec fuel pre rest ctx s : (length rest < fuel)%nat -> Z.of_nat (length (pre ++ rest)) < 2 ^ 32 -> bytes rest ->
  absorbed s ctx -> exists ctx', update_loop m fuel (Z.of_nat (length pre)) ctx (pre ++ rest) (Z.of_nat (length (pre ++ rest))) = Some (inr ctx') /\
    absorbed (s ++ rest) ctx'.
Proof.
  revert pre rest ctx s. induction fuel as [| fuel IH]; intros pre rest ctx s Hf Hl Hb Ha; [lia |]. cbn [update_loop].
  destruct rest as [| x rest].
  - rewrite !app_nil_r, Z.ltb_irrefl. by exists ctx.
  - rewrite length_app in Hl |- *. cbn [length] in *. rewrite (proj2 (Z.ltb_lt _ _)), rd_app, bind_Some by (done || lia).
    apply list.Forall_cons in Hb as [Hx Hb]. destruct (update_byte_spec ctx s x Ha Hx) as (ctx1 & -> & Ha1). rewrite bind_Some.
    rewrite u32_small by lia. replace (Z.of_nat (length pre) + 1) with (Z.of_nat (length (pre ++ [x]))) by (rewrite length_app; simpl; lia).
    destruct (IH (pre ++ [x]) rest ctx1 (s ++ [x])) as (ctx2 & E & Ha2); [lia | rewrite !length_app; simpl; lia | done | done |].
    exists ctx2. rewrite <- !app_assoc in E, Ha2. split; [| exact Ha2]. rewrite <- E. do 2 f_equal. rewrite length_app. done.
Qed.

Lemma update_spec ctx s dat : absorbed s ctx -> bytes dat -> Z.of_nat (length dat) < 2 ^ 32 ->
  exists ctx', sha256_update m ctx dat (Z.of_nat (length dat)) = Some ctx' /\ absorbed (s ++ dat) ctx'.
Proof.
  intros Ha Hb Hl. unfold sha256_update. rewrite Nat2Z.id.
  destruct (update_loop_spec (S (length dat)) [] dat ctx s) as (ctx' & E & Ha'); [lia | done | done | done |].
  change (Z.of_nat (length [])) with 0 in E. cbn [app] in E. rewrite E, bind_Some. by exists ctx'.
Qed.

(** The index is 32 bits wide: it never reaches a greater length. *)
Lemma update_never fuel i ctx s dat len : 0 <= i < 2 ^ 32 -> 2 ^ 32 <= len -> len <= Z.of_nat (length dat) -> bytes dat ->
  absorbed s ctx -> exists ctx', update_loop m fuel i ctx dat len = Some (inl ctx').
Proof.
  revert i ctx s. induction fuel as [| fuel IH]; intros i ctx s Hi Hlen Hd Hb Ha; [by exists ctx |]. cbn [update_loop].
  rewrite (proj2 (Z.ltb_lt _ _)), rd_total, bind_Some by lia.
  destruct (update_byte_spec ctx s (dat !!! Z.to_nat i) Ha) as (ctx1 & -> & Ha1).
  { apply (Forall_lookup_total_1 _ _ _ Hb). lia. }
  rewrite bind_Some. apply (IH _ _ _ (u32_range _) Hlen Hd Hb Ha1).
Qed.

Lemma fill_loop_spec fuel pos k_ limit dat st s : (k_ < fuel)%nat -> (pos + k_ = limit)%nat -> (limit <= 64)%nat ->
  pending st dat s pos -> bytes dat ->
  exists dat', fill_loop fuel (Z.of_nat pos) (Z.of_nat limit) dat = Some dat' /\ pending st dat' (s ++ replicate k_ 0) limit /\ bytes dat'.
Proof.
  revert pos k_ dat s. induction fuel as [| fuel IH]; intros pos k_ dat s Hf He Hl Hp Hb; [lia |]. cbn [fill_loop]. destruct k_ as [| k_].
  - rewrite (proj2 (Z.ltb_ge _ _)) by lia. exists dat. cbn [replicate]. rewrite app_nil_r.
    replace limit with pos by lia. done.
  - rewrite (proj2 (Z.ltb_lt _ _)) by lia. destruct (pending_wr _ _ _ _ 0 Hp) as (dat1 & -> & Hp1 & Hb1); [lia | done | done |].
    rewrite bind_Some. replace (Z.of_nat pos + 1) with (Z.of_nat (pos + 1)) by lia.
    destruct (IH (pos + 1)%nat k_ dat1 (s ++ [0])) as (dat2 & -> & H2); [lia | lia | lia | done | done |].
    exists dat2. rewrite <- app_assoc in H2. by split.
Qed.

Lemma final_pad_spec ctx s : absorbed s ctx -> exists dat st, final_pad m ctx = Some (MkCtx dat (datalen ctx) (bitlen ctx) st) /\
  pending st dat ((s ++ [0x80]) ++ replicate (zeros (length s)) 0) 56 /\ bytes dat.
Proof.
  intros (Hp & Hb & Hd & _). destruct ctx as [dat dl bl st]. unfold final_pad. cbn [data datalen bitlen state] in *.
  pose proof (Z.mod_pos_bound (Z.of_nat (length s)) 64 ltac:(lia)) as Hr. rewrite <- Hd in Hr.
  destruct (pending_wr _ _ _ _ 0x80 Hp) as (dat1 & E1 & Hp1 & Hb1); [lia | done | done |]. rewrite Z2Nat.id in E1 by lia. rewrite E1, !bind_Some.
  replace (dl + 1) with (Z.of_nat (Z.to_nat dl + 1)) by lia. destruct (Z.ltb_spec dl 56).
  - assert (zeros (length s) = 55 - Z.to_nat dl)%nat as -> by (unfold zeros; Z.to_euclidean_division_equations; lia).
    destruct (fill_loop_spec 57 (Z.to_nat dl + 1) (55 - Z.to_nat dl) 56 dat1 st (s ++ [0x80])) as (dat2 & E2 & H2); [lia | lia | lia | done | done |].
    change 56 with (Z.of_nat 56). rewrite E2, bind_Some. by exists dat2, st.
  - assert (zeros (length s) = (63 - Z.to_nat dl) + 56)%nat as -> by (unfold zeros; Z.to_euclidean_division_equations; lia).
    destruct (fill_loop_spec 65 (Z.to_nat dl + 1) (63 - Z.to_nat dl) 64 dat1 st (s ++ [0x80])) as (dat2 & E2 & Hp2 & Hb2); [lia | lia | lia | done | done |].
    change 64 with (Z.of_nat 64). rewrite E2, bind_Some. destruct (process_spec dat2 st dl bl _ Hp2 Hb2) as (st' & -> & Hp3). rewrite bind_Some.
    cbn [data datalen bitlen state]. destruct (pending_write _ _ _ _ (replicate 56 0) Hp3) as (dat3 & E3 & Hp4 & Hb4);
      [rewrite length_replicate; lia | done | by apply Forall_replicate |].
    change (Z.of_nat 0) with 0 in E3. rewrite E3, bind_Some. exists dat3, st'. split; [done |]. split; [| done].
    rewrite replicate_add, app_assoc. rewrite length_replicate in Hp4. exact Hp4.
Qed.

Lemma hash_loop_value s0 s1 s2 s3 s4 s5 s6 s7 hash : length hash = 32%nat ->
  hash_loop 5 0 [s0; s1; s2; s3; s4; s5; s6; s7] hash = Some (digest [s0; s1; s2; s3; s4; s5; s6; s7]).
Proof.
  intros Hl. do 32 (destruct hash as [| ? hash]; [simpl in Hl; lia |]). destruct hash; [| simpl in Hl; lia].
  assert (forall x, u8 x = Z.land (Z.shiftr x 0) 0xff) as E0
    by (intros x; rewrite Z.shiftr_0_r; change 0xff with (Z.ones 8); by rewrite Z.land_ones by lia).
  assert (forall x n, u8 (Z.shiftr x n) = Z.land (Z.shiftr x n) 0xff) as E
    by (intros x n; change 0xff with (Z.ones 8); by rewrite Z.land_ones by lia).
  unfold digest, be32. cbn [fmap list_fmap mjoin list_join app]. rewrite !E, !E0.
  cbv -[Z.land Z.shiftr]. reflexivity.
Qed.

(** The eight bytes of the length, written from the end. *)
Lemma put_length_value dat bits : length dat = 64%nat -> put_length dat bits = Some (take 56 dat ++ be64 bits).
Proof.
  intros Hl. unfold put_length. rewrite be64_value. rewrite <- (take_drop 56 dat) at 1.
  assert (length (take 56 dat) = 56%nat) as Hp by (rewrite length_take; lia). set (pre := take 56 dat) in *.
  assert (length (drop 56 dat) = 8%nat) as Ho by (rewrite length_drop; lia). set (old := drop 56 dat) in *. clearbody pre old.
  do 8 (destruct old as [| ? old]; [simpl in Ho; lia |]). destruct old; [| simpl in Ho; lia].
  assert (forall old_ i j x, i = 56 + j -> 0 <= j < Z.of_nat (length old_) -> wr (pre ++ old_) i x = Some (pre ++ <[Z.to_nat j := x]> old_)) as H.
  { intros old_ i j x -> Hj. pose proof (wr_offset pre old_ [] (56 + j) j x) as E. rewrite !app_nil_r in E. apply E; lia. }
  rewrite (H _ 63 7), bind_Some by (simpl; lia). rewrite (H _ 62 6), bind_Some by (simpl; lia).
  rewrite (H _ 61 5), bind_Some by (simpl; lia). rewrite (H _ 60 4), bind_Some by (simpl; lia).
  rewrite (H _ 59 3), bind_Some by (simpl; lia). rewrite (H _ 58 2), bind_Some by (simpl; lia).
  rewrite (H _ 57 1), bind_Some by (simpl; lia). rewrite (H _ 56 0) by (simpl; lia). reflexivity.
Qed.

Lemma final_spec ctx s hash : absorbed s ctx -> length hash = 32%nat -> 8 * Z.of_nat (length s) < 2 ^ 64 ->
  exists ctx', sha256_final m ctx hash = Some (ctx', sha256 s).
Proof.
  intros Ha Hh Hlen. destruct (final_pad_spec ctx s Ha) as (dat & st & Ef & Hp & Hb). destruct Ha as (_ & _ & Hd & Hbl).
  unfold sha256_final. rewrite Ef, bind_Some. cbn [data datalen bitlen state].
  pose proof (Z.mod_pos_bound (Z.of_nat (length s)) 64 ltac:(lia)) as Hr. rewrite <- Hd in Hr.
  assert (datalen ctx <= Z.of_nat (length s)) as Hle by (rewrite Hd; apply Z.mod_le; lia).
  set (bits := u64 (bitlen ctx + u32 (datalen ctx * 8))).
  assert (bits = 8 * Z.of_nat (length s)) as Ebits by (unfold bits; rewrite Hbl, u32_small, (u64_small (8 * _)), u64_small by lia; lia).
  pose proof (pending_length _ _ _ _ Hp) as (Hl & _). rewrite (put_length_value dat bits Hl), bind_Some.
  pose proof (be64_bytes bits) as Hbe.
  assert (pending st (take 56 dat ++ be64 bits) (pad s) 64) as Hp2.
  { rewrite pad_split, <- Ebits. apply (pending_put _ dat _ 56); [done | done |]. by rewrite drop_ge, app_nil_r by (simpl; lia). }
  assert (bytes (take 56 dat ++ be64 bits)) as Hb2
    by (apply Forall_app; split; [by apply Forall_take | done]).
  set (dat2 := take 56 dat ++ _) in *.
  destruct (process_spec dat2 st (datalen ctx) bits (pad s) Hp2 Hb2) as (st2 & Et & Hp3).
  assert (exists s0 s1 s2 s3 s4 s5 s6 s7, st2 = [s0; s1; s2; s3; s4; s5; s6; s7]) as (s0 & s1 & s2 & s3 & s4 & s5 & s6 & s7 & E2).
  { pose proof (pending_eight _ _ _ _ Hp3) as [He _].
    destruct st2 as [| s0 [| s1 [| s2 [| s3 [| s4 [| s5 [| s6 [| s7 [|]]]]]]]]]; try done. by exists s0, s1, s2, s3, s4, s5, s6, s7. }
  exists (MkCtx dat2 (datalen ctx) bits st2). rewrite <- (pending_sha256 _ _ _ Hp3), Et, bind_Some. cbn [state].
  by rewrite E2, hash_loop_value, bind_Some.
Qed.
End whole.

(** C39: A message given in any pieces of less than 2^32 bytes has the digest of the
    standard, whatever the uninitialised array and the context hold at first,
    and no access leaves its array. *)
Theorem sha256_correct m ctx hash ps : length m = 64%nat -> length (data ctx) = 64%nat -> bytes (data ctx) ->
  length hash = 32%nat -> bytes (concat ps) -> Forall (fun p => Z.of_nat (length p) < 2 ^ 32) ps ->
  8 * Z.of_nat (length (concat ps)) < 2 ^ 64 ->
  exists ctx1 ctx2, each (fun p ctx => sha256_update m ctx p (Z.of_nat (length p))) ps (sha256_init ctx) = Some ctx1 /\
    sha256_final m ctx1 hash = Some (ctx2, sha256 (concat ps)).
Proof.
  intros Hm Hl Hb Hh Hps Hsz Hlen.
  destruct (each_invariant (fun p ctx => sha256_update m ctx p (Z.of_nat (length p))) absorbed
    (fun p => bytes p /\ Z.of_nat (length p) < 2 ^ 32) (@app Z)) with (l := ps) (m := @nil Z) (s := sha256_init ctx) as (ctx1 & Hc & Ha).
  - intros p s c [Hp Hpl] Hc. by apply update_spec.
  - apply list.Forall_and. split; [by apply bytes_concat_inv | done].
  - by apply init_absorbed.
  - rewrite foldl_app_concat in Ha. destruct (final_spec m Hm _ _ hash Ha Hh Hlen) as (ctx2 & Hf). by exists ctx1, ctx2.
Qed.

Lemma sha256_correct_witness :
  (bytes (replicate 64 9) /\ bytes (concat [[97]; [98; 99]])) /\
  exists ctx1 ctx2, each (fun p ctx => sha256_update (replicate 64 5) ctx p (Z.of_nat (length p))) [[97]; [98; 99]]
      (sha256_init (MkCtx (replicate 64 9) 3 3 [])) = Some ctx1 /\
    sha256_final (replicate 64 5) ctx1 (replicate 32 0) = Some (ctx2, sha256 [97; 98; 99]).
Proof.
  assert (bytes (replicate 64 9)) as Hb by (apply (bool_decide_unpack _); reflexivity).
  assert (bytes (concat [[97]; [98; 99]])) as Hm by (apply (bool_decide_unpack _); reflexivity).
  assert (Forall (fun p : list Z => Z.of_nat (length p) < 2 ^ 32) [[97]; [98; 99]]) as Hs by (apply (bool_decide_unpack _); reflexivity).
  split; [exact (conj Hb Hm) |].
  exact (sha256_correct (replicate 64 5) (MkCtx (replicate 64 9) 3 3 []) (replicate 32 0) [[97]; [98; 99]]
    eq_refl eq_refl Hb eq_refl Hm Hs eq_refl).
Defined.

(** C40: The index of the loop is a [WORD], the length a [size_t]: the call ends
    with a piece of less than 2^32 bytes, and does not end with a longer one,
    however many rounds it is given. *)
Theorem sha256_update_ends_iff m ctx p : length m = 64%nat -> length (data ctx) = 64%nat -> bytes (data ctx) -> bytes p ->
  (exists fuel ctx', update_loop m fuel 0 (sha256_init ctx) p (Z.of_nat (length p)) = Some (inr ctx'))
  <-> Z.of_nat (length p) < 2 ^ 32.
Proof.
  intros Hm Hl Hb Hp. pose proof (init_absorbed ctx Hl Hb) as Ha. split.
  - intros (fuel & ctx' & E). destruct (Z.lt_ge_cases (Z.of_nat (length p)) (2 ^ 32)) as [| Hge]; [done |].
    destruct (update_never m Hm fuel 0 (sha256_init ctx) [] p _ ltac:(lia) Hge ltac:(lia) Hp Ha) as (c & E'). by rewrite E in E'.
  - intros Hlt. destruct (update_loop_spec m Hm (S (length p)) [] p (sha256_init ctx) []) as (ctx' & E & _); [lia | done | done | done |].
    by exists (S (length p)), ctx'.
Qed.

Lemma sha256_update_ends_iff_witness :
  bytes (replicate 64 9) /\
  ((exists fuel ctx', update_loop (replicate 64 5) fuel 0 (sha256_init (MkCtx (replicate 64 9) 3 3 [])) [97; 98; 99] 3 = Some (inr ctx'))
   <-> 3 < 2 ^ 32).
Proof.
  assert (bytes (replicate 64 9)) as Hb by (apply (bool_decide_unpack _); reflexivity).
  assert (bytes [97; 98; 99]) as Hm by (apply (bool_decide_unpack _); reflexivity).
  split; [exact Hb |].
  exact (sha256_update_ends_iff (replicate 64 5) (MkCtx (replicate 64 9) 3 3 []) [97; 98; 99] eq_refl eq_refl Hb Hm).
Defined.
