(* ===== verification/Check.v ===== *)
(** * liblzma: integrity checks

    check/check.c and check/check.h: the interface to CRC32, CRC64 and SHA-256
    that the Block coders and the Index hash use. All three are built in. The
    piece of an update is the list of its bytes with its address, which the CRC
    code looks at. [None] is an access outside an array, or to another member
    of the union than the one written last. *)

From Stdlib Require Import ZArith Lia.
From stdpp Require Import base list option.
From S2P Require Import Prelude LzmaBase CrcTables Crc StreamFlags Sha256Spec Sha256.
Local Open Scope Z_scope.

Definition LZMA_CHECK_NONE : Z := 0.
Definition LZMA_CHECK_CRC32 : Z := 1.
Definition LZMA_CHECK_CRC64 : Z := 4.
Definition LZMA_CHECK_SHA256 : Z := 10.

Definition available_checks : list bool :=
  [true; true; false; false; true; false; false; false; false; false; true; false; false; false; false; false].

Definition lzma_check_is_supported (type : Z) : option bool :=
  if LZMA_CHECK_ID_MAX <? u32 type then Some false else available_checks !! Z.to_nat (u32 type).

Definition check_sizes : list Z := [0; 4; 4; 4; 8; 8; 8; 16; 16; 16; 32; 32; 32; 64; 64; 64].

Definition lzma_check_size (type : Z) : option Z :=
  if LZMA_CHECK_ID_MAX <? u32 type then Some UINT32_MAX else rd check_sizes (u32 type).

Inductive check_union := Crc32 (crc32 : Z) | Crc64 (crc64 : Z) | Sha (sha256 : lzma_sha256_state).
Record lzma_check_state := MkCheck { buffer : list Z; state : check_union }.

Section check.
  (** What the uninitialised array of the SHA-256 transformation holds. *)
  Context (W : list Z).

Definition lzma_check_init (check : lzma_check_state) (type : Z) : lzma_check_state :=
  if type =? LZMA_CHECK_NONE then check
  else if type =? LZMA_CHECK_CRC32 then MkCheck (buffer check) (Crc32 0)
  else if type =? LZMA_CHECK_CRC64 then MkCheck (buffer check) (Crc64 0)
  else if type =? LZMA_CHECK_SHA256 then let c := lzma_sha256_init (buffer check) in MkCheck c.1 (Sha c.2)
  else check.

Definition lzma_check_update (type : Z) (piece : Z * list Z) (check : lzma_check_state) : option lzma_check_state :=
  if type =? LZMA_CHECK_CRC32 then
    match state check with
    | Crc32 crc => crc ← lzma_crc32 piece.1 piece.2 crc; Some (MkCheck (buffer check) (Crc32 crc))
    | _ => None
    end
  else if type =? LZMA_CHECK_CRC64 then
    match state check with
    | Crc64 crc => crc ← lzma_crc64 piece.1 piece.2 crc; Some (MkCheck (buffer check) (Crc64 crc))
    | _ => None
    end
  else if type =? LZMA_CHECK_SHA256 then
    match state check with
    | Sha s => c ← lzma_sha256_update W piece.2 (buffer check, s); Some (MkCheck c.1 (Sha c.2))
    | _ => None
    end
  else Some check.

Definition lzma_check_finish (check : lzma_check_state) (type : Z) : option lzma_check_state :=
  if type =? LZMA_CHECK_CRC32 then
    match state check with
    | Crc32 crc => b ← unaligned_write32le (buffer check) 0 crc; Some (MkCheck b (state check))
    | _ => None
    end
  else if type =? LZMA_CHECK_CRC64 then
    match state check with
    | Crc64 crc =>
        b ← unaligned_write32le (buffer check) 0 (u32 crc);
        b ← unaligned_write32le b 4 (u32 (Z.shiftr crc 32));
        Some (MkCheck b (state check))
    | _ => None
    end
  else if type =? LZMA_CHECK_SHA256 then
    match state check with
    | Sha s => c ← lzma_sha256_finish W (buffer check, s); Some (MkCheck c.1 (Sha c.2))
    | _ => None
    end
  else Some check.
End check.

(** ** What the Check field of a Block holds *)
Definition le64 (x : Z) : list Z := le32 (u32 x) ++ le32 (u32 (Z.shiftr x 32)).

Definition check_value (type : Z) (m : list Z) : list Z :=
  if type =? LZMA_CHECK_CRC32 then le32 (crc_reference poly32 32 m 0)
  else if type =? LZMA_CHECK_CRC64 then le64 (crc_reference poly64 64 m 0)
  else if type =? LZMA_CHECK_SHA256 then sha256 m
  else [].

(** The types this build supports. *)
Definition supported (type : Z) : Prop := type ∈ [LZMA_CHECK_NONE; LZMA_CHECK_CRC32; LZMA_CHECK_CRC64; LZMA_CHECK_SHA256].

Lemma supported_iff type : 0 <= type < 2 ^ 32 -> lzma_check_is_supported type = Some true <-> supported type.
Proof.
  intros Ht. unfold lzma_check_is_supported, supported, LZMA_CHECK_ID_MAX. rewrite u32_small by done.
  unfold LZMA_CHECK_NONE, LZMA_CHECK_CRC32, LZMA_CHECK_CRC64, LZMA_CHECK_SHA256. rewrite !elem_of_cons, elem_of_nil.
  destruct (Z.ltb_spec 15 type); [split; [done | lia] |].
  assert (exists n, type = Z.of_nat n /\ (n < 16)%nat) as (n & -> & Hn) by (exists (Z.to_nat type); lia). rewrite Nat2Z.id.
  do 16 (destruct n as [| n]; [cbn; split; intros; (lia || done) |]). lia.
Qed.

(** The check after the message [m]. *)
Definition checked (type : Z) (m : list Z) (check : lzma_check_state) : Prop :=
  length (buffer check) = 64%nat /\ bytes m /\
  if type =? LZMA_CHECK_CRC32 then state check = Crc32 (crc_reference poly32 32 m 0)
  else if type =? LZMA_CHECK_CRC64 then state check = Crc64 (crc_reference poly64 64 m 0)
  else if type =? LZMA_CHECK_SHA256 then exists s, state check = Sha s /\ hashed m (buffer check, s)
  else True.

Lemma crc32_range m : bytes m -> 0 <= crc_reference poly32 32 m 0 < 2 ^ 32.
Proof. intros. apply crc_reference_range; [lia | by unfold poly32 | done | lia]. Qed.

Lemma crc64_range m : bytes m -> 0 <= crc_reference poly64 64 m 0 < 2 ^ 64.
Proof. intros. apply crc_reference_range; [lia | by unfold poly64 | done | lia]. Qed.

Lemma init_checked check type : length (buffer check) = 64%nat -> bytes (buffer check) -> checked type [] (lzma_check_init check type).
Proof.
  intros Hl Hb. unfold checked, lzma_check_init. pose proof (lzma_init_spec (buffer check) Hl Hb) as Hi.
  destruct (Z.eqb_spec type LZMA_CHECK_NONE) as [-> |]; [split_and!; [done | constructor | done] |].
  destruct (type =? LZMA_CHECK_CRC32); [split_and!; [done | constructor | done] |]. destruct (type =? LZMA_CHECK_CRC64); [split_and!; [done | constructor | done] |].
  destruct (type =? LZMA_CHECK_SHA256); [| split_and!; [done | constructor | done]]. split; [done |]. split; [constructor |]. eexists. split; [reflexivity | exact Hi].
Qed.

Section laws.
  Context (W : list Z) (HW : length W = 16%nat).

Lemma update_checked type piece m check : bytes piece.2 -> checked type m check ->
  exists check', lzma_check_update W type piece check = Some check' /\ checked type (m ++ piece.2) check'.
Proof.
  intros Hp (Hl & Hm & Hs). assert (bytes (m ++ piece.2)) as Hmp by (by apply Forall_app). unfold lzma_check_update, checked.
  destruct (type =? LZMA_CHECK_CRC32).
  - rewrite Hs, crc32_value, bind_Some, <- crc_reference_app by (done || by apply crc32_range). by eexists.
  - destruct (type =? LZMA_CHECK_CRC64).
    + rewrite Hs, crc64_value, bind_Some, <- crc_reference_app by (done || by apply crc64_range). by eexists.
    + destruct (type =? LZMA_CHECK_SHA256); [| by exists check]. destruct Hs as (s & -> & Hh).
      destruct (lzma_update_spec W HW piece.2 m _ Hp Hh) as ([b s'] & -> & Hh'). rewrite bind_Some. eexists. split; [reflexivity |].
      pose proof Hh' as (Hpd & _). split; [by apply (pending_length _ _ _ _ Hpd) |]. split; [done |]. by exists s'.
Qed.

Lemma finish_checked type m check : supported type -> checked type m check -> 8 * Z.of_nat (length m) < 2 ^ 64 ->
  exists check', lzma_check_finish W check type = Some check' /\
    take (length (check_value type m)) (buffer check') = check_value type m.
Proof.
  intros Ht (Hl & Hm & Hs) Hlen. unfold lzma_check_finish, check_value.
  destruct (type =? LZMA_CHECK_CRC32).
  - rewrite Hs, <- (take_drop 4 (buffer check)). rewrite write32le_head, bind_Some by (rewrite length_take; lia).
    eexists. split; [reflexivity |]. cbn [buffer]. by rewrite take_app_length.
  - destruct (type =? LZMA_CHECK_CRC64).
    + rewrite Hs, <- (take_drop 4 (buffer check)). rewrite write32le_head, bind_Some by (rewrite length_take; lia).
      rewrite <- (take_drop 4 (drop 4 (buffer check))). rewrite write32le_app, bind_Some by (rewrite ?length_take, ?length_drop; (reflexivity || lia)).
      eexists. split; [reflexivity |]. cbn [buffer]. unfold le64. rewrite app_assoc. by rewrite take_app_length.
    + destruct (type =? LZMA_CHECK_SHA256); [| by exists check]. destruct Hs as (s & -> & Hh).
      destruct (lzma_finish_spec W HW m _ Hh Hlen) as (c' & -> & Hc). rewrite bind_Some. eexists. split; [reflexivity |].
      cbn [buffer]. by rewrite sha256_length.
Qed.
End laws.

(** C38: The Check of data given in any pieces, wherever they lie, is what the
    standards say - the bit-serial CRC32 and CRC64 in little-endian order, the
    digest of FIPS 180-4, nothing for the type none - in the first bytes of the
    buffer, as many as lzma_check_size answers. *)
Theorem check_correct W check type pieces : length W = 16%nat -> length (buffer check) = 64%nat -> bytes (buffer check) ->
  lzma_check_is_supported type = Some true -> 0 <= type < 2 ^ 32 ->
  Forall (fun piece => bytes piece.2) pieces -> 8 * Z.of_nat (length (concat pieces.*2)) < 2 ^ 64 ->
  exists c c', each (lzma_check_update W type) pieces (lzma_check_init check type) = Some c /\
    lzma_check_finish W c type = Some c' /\
    lzma_check_size type = Some (Z.of_nat (length (check_value type (concat pieces.*2)))) /\
    take (length (check_value type (concat pieces.*2))) (buffer c') = check_value type (concat pieces.*2).
Proof.
  intros HW Hl Hb Ht Hr Hp Hlen. apply supported_iff in Ht; [| done].
  destruct (each_invariant (lzma_check_update W type) (fun m c => checked type m c) (fun piece => bytes piece.2) (fun m piece => m ++ piece.2))
    with (l := pieces) (m := @nil Z) (s := lzma_check_init check type) as (c & Hc & Hck); [| done | by apply init_checked |].
  { intros piece m c Hpc Hc. by apply update_checked. }
  assert (forall m, foldl (fun m piece => m ++ piece.2) m pieces = m ++ concat pieces.*2) as Hf.
  { clear. induction pieces as [| p ps IH]; intros m; cbn; [by rewrite app_nil_r | by rewrite IH, app_assoc]. }
  rewrite Hf in Hck. cbn [app] in Hck. destruct (finish_checked W HW type _ c Ht Hck Hlen) as (c' & Hfin & Hv).
  exists c, c'. split; [done |]. split; [done |]. split; [| done].
  unfold supported in Ht. rewrite !elem_of_cons, elem_of_nil in Ht.
  destruct Ht as [-> | [-> | [-> | [-> | []]]]]; try done.
  change (check_value LZMA_CHECK_SHA256 ?m) with (sha256 m). by rewrite sha256_length.
Qed.

Definition abc_pieces : list (Z * list Z) := [(4096, [97]); (17, [98; 99])].

Lemma check_correct_witness :
  exists c c', each (lzma_check_update (replicate 16 5) LZMA_CHECK_SHA256) abc_pieces
      (lzma_check_init (MkCheck (replicate 64 9) (Crc32 7)) LZMA_CHECK_SHA256) = Some c /\
    lzma_check_finish (replicate 16 5) c LZMA_CHECK_SHA256 = Some c' /\
    lzma_check_size LZMA_CHECK_SHA256 = Some (Z.of_nat (length (check_value LZMA_CHECK_SHA256 (concat abc_pieces.*2)))) /\
    take (length (check_value LZMA_CHECK_SHA256 (concat abc_pieces.*2))) (buffer c') = check_value LZMA_CHECK_SHA256 (concat abc_pieces.*2).
Proof.
  assert (bytes (replicate 64 9)) as Hb by (apply (bool_decide_unpack _); reflexivity).
  assert (Forall (fun piece : Z * list Z => bytes piece.2) abc_pieces) as Hm by (apply (bool_decide_unpack _); reflexivity).
  assert (0 <= LZMA_CHECK_SHA256 < 2 ^ 32) as Hr by (unfold LZMA_CHECK_SHA256; lia).
  exact (check_correct (replicate 16 5) (MkCheck (replicate 64 9) (Crc32 7)) LZMA_CHECK_SHA256 abc_pieces
    eq_refl eq_refl Hb eq_refl Hr Hm eq_refl).
Defined.
