(* ===== verification/BlockHeader.v ===== *)
(** * liblzma: Block Headers and Block sizes

    common/block_util.c and common/block_header_decoder.c, with the part of
    common/index.h they use. The header is what comes before the data of a Block: its
    sizes, where they were known, and the filters of the chain that decodes it. The
    file proves which bytes [lzma_block_header_decode] accepts, and what it makes of
    them. [block->filters] is an array of the caller. *)

From Stdlib Require Import ZArith Lia.
From stdpp Require Import base list option.
From S2P Require Import Prelude LzmaBase Vli VliStream Crc StreamFlags Coder Check Delta LzDict Lzma Filters.
Local Open Scope Z_scope.

Definition LZMA_BLOCK_HEADER_SIZE_MIN : Z := 8.
Definition LZMA_BLOCK_HEADER_SIZE_MAX : Z := 1024.
Definition UNPADDED_SIZE_MIN : Z := 5.
Definition UNPADDED_SIZE_MAX : Z := Z.land LZMA_VLI_MAX (u64 (Z.lnot 3)).

(** ** index.h *)
Definition vli_ceil4 (vli : Z) : option Z := assert (vli <=? LZMA_VLI_MAX) ;; Some (Z.land (u64 (vli + 3)) (u64 (Z.lnot 3))).

Record lzma_block := MkBlock {
  blk_version : Z; blk_header_size : Z; blk_check : Z; blk_compressed_size : Z; blk_uncompressed_size : Z;
  blk_filters : list lzma_filter; blk_raw_check : list Z; blk_ignore_check : bool }.

Definition set_sizes (b : lzma_block) (compressed uncompressed : Z) : lzma_block :=
  MkBlock (blk_version b) (blk_header_size b) (blk_check b) compressed uncompressed (blk_filters b) (blk_raw_check b) (blk_ignore_check b).
Definition set_filters (b : lzma_block) (fs : list lzma_filter) : lzma_block :=
  MkBlock (blk_version b) (blk_header_size b) (blk_check b) (blk_compressed_size b) (blk_uncompressed_size b) fs (blk_raw_check b) (blk_ignore_check b).

(** ** block_util.c *)
Definition lzma_block_unpadded_size (b : lzma_block) : option Z :=
  if (1 <? blk_version b) || (blk_header_size b <? LZMA_BLOCK_HEADER_SIZE_MIN) || (LZMA_BLOCK_HEADER_SIZE_MAX <? blk_header_size b)
     || negb (Z.land (blk_header_size b) 3 =? 0) || negb (lzma_vli_is_valid (blk_compressed_size b)) || (blk_compressed_size b =? 0)
     || (LZMA_CHECK_ID_MAX <? u32 (blk_check b))
  then Some 0
  else if blk_compressed_size b =? LZMA_VLI_UNKNOWN then Some LZMA_VLI_UNKNOWN
  else
    check_size ← lzma_check_size (blk_check b);
    let unpadded_size := u64 (u64 (blk_compressed_size b + blk_header_size b) + check_size) in
    assert (UNPADDED_SIZE_MIN <=? unpadded_size) ;;
    Some (if UNPADDED_SIZE_MAX <? unpadded_size then 0 else unpadded_size).

Definition lzma_block_compressed_size (b : lzma_block) (unpadded_size : Z) : option (lzma_ret * lzma_block) :=
  u ← lzma_block_unpadded_size b;
  if u =? 0 then Some (LZMA_PROG_ERROR, b)
  else
    check_size ← lzma_check_size (blk_check b);
    let container_size := u32 (blk_header_size b + check_size) in
    if unpadded_size <=? container_size then Some (LZMA_DATA_ERROR, b)
    else
      let compressed_size := u64 (unpadded_size - container_size) in
      if negb (blk_compressed_size b =? LZMA_VLI_UNKNOWN) && negb (blk_compressed_size b =? compressed_size) then Some (LZMA_DATA_ERROR, b)
      else Some (LZMA_OK, set_sizes b compressed_size (blk_uncompressed_size b)).

Definition lzma_block_total_size (b : lzma_block) : option Z :=
  unpadded_size ← lzma_block_unpadded_size b;
  if negb (unpadded_size =? LZMA_VLI_UNKNOWN) then vli_ceil4 unpadded_size else Some unpadded_size.

(** ** block_header_decoder.c *)
Definition blank_filter : lzma_filter := MkFilter LZMA_VLI_UNKNOWN None.

(** Filling the first [n] entries of the array. *)
Definition blank_filters (n : nat) (b : lzma_block) : option lzma_block :=
  assert (bool_decide (n <= length (blk_filters b))%nat) ;; Some (set_filters b (replicate n blank_filter ++ drop n (blk_filters b))).

Definition free_properties (b : lzma_block) : option lzma_block := blank_filters (Z.to_nat LZMA_FILTERS_MAX) b.

Definition lzma_block_header_size_decode (b : Z) : Z := u32 (u32 (b + 1) * 4).

Section decoder.
  Context (sz : sizes) (alloc : nat -> bool).

(** The filters from [i] on; [Some ret] is an early return. *)
Fixpoint flags_loop (count i : nat) (b : lzma_block) (inp : list Z) (in_pos in_size : Z) : option (option lzma_ret * lzma_block * Z) :=
  match count with
  | O => Some (None, b, in_pos)
  | S count =>
      f ← blk_filters b !! i;
      '(ret, f, in_pos) ← lzma_filter_flags_decode sz f (alloc i) inp in_pos in_size;
      let b := set_filters b (<[i := f]> (blk_filters b)) in
      if negb (bool_decide (ret = LZMA_OK)) then b ← free_properties b; Some (Some ret, b, in_pos)
      else flags_loop count (S i) b inp in_pos in_size
  end.

(** [false] where a byte of the padding is not zero. *)
Fixpoint padding_loop (fuel : nat) (inp : list Z) (in_pos in_size : Z) : option bool :=
  match fuel with
  | O => None
  | S fuel =>
      if in_pos <? in_size then
        b ← rd inp in_pos;
        if negb (b =? 0x00) then Some false else padding_loop fuel inp (in_pos + 1) in_size
      else Some true
  end.

(** A size field that is there if a bit of the flags is set. *)
Definition size_field (present : bool) (size : Z) (inp : list Z) (in_pos in_size : Z) : option (lzma_ret * Z * Z) :=
  if present then '(ret, size, _, in_pos) ← lzma_vli_decode size None inp in_pos in_size; Some (ret, size, in_pos)
  else Some (LZMA_OK, LZMA_VLI_UNKNOWN, in_pos).

(** What follows the flags byte [b1]. *)
Definition header_fields (b : lzma_block) (b1 : Z) (inp : list Z) (in_size : Z) : option (lzma_ret * lzma_block) :=
  '(ret, size, in_pos) ← size_field (negb (Z.land b1 0x40 =? 0)) (blk_compressed_size b) inp 2 in_size;
  let b := set_sizes b size (blk_uncompressed_size b) in
  if negb (bool_decide (ret = LZMA_OK)) then Some (ret, b)
  else
    unpadded ← (if negb (Z.land b1 0x40 =? 0) then lzma_block_unpadded_size b else Some LZMA_VLI_UNKNOWN);
    if unpadded =? 0 then Some (LZMA_DATA_ERROR, b)
    else
      '(ret, size, in_pos) ← size_field (negb (Z.land b1 0x80 =? 0)) (blk_uncompressed_size b) inp in_pos in_size;
      let b := set_sizes b (blk_compressed_size b) size in
      if negb (bool_decide (ret = LZMA_OK)) then Some (ret, b)
      else
        '(early, b, in_pos) ← flags_loop (Z.to_nat (Z.land b1 3 + 1)) 0 b inp in_pos in_size;
        match early with
        | Some ret => Some (ret, b)
        | None =>
            zeros ← padding_loop (S (Z.to_nat (in_size - in_pos))) inp in_pos in_size;
            if zeros : bool then Some (LZMA_OK, b)
            else b ← free_properties b; Some (LZMA_OPTIONS_ERROR, b)
        end.

(** [addr] is the address of [in]. *)
Definition lzma_block_header_decode (b : lzma_block) (addr : Z) (inp : list Z) : option (lzma_ret * lzma_block) :=
  b ← blank_filters (Z.to_nat (LZMA_FILTERS_MAX + 1)) b;
  let b := MkBlock (if 1 <? blk_version b then 1 else blk_version b) (blk_header_size b) (blk_check b) (blk_compressed_size b)
    (blk_uncompressed_size b) (blk_filters b) (blk_raw_check b) false in
  b0 ← rd inp 0;
  if negb (lzma_block_header_size_decode b0 =? blk_header_size b) || (LZMA_CHECK_ID_MAX <? u32 (blk_check b)) then Some (LZMA_PROG_ERROR, b)
  else
    let in_size := u64 (blk_header_size b - 4) in
    crc ← crc32_at addr inp 0 (Z.to_nat in_size);
    stored ← unaligned_read32le inp in_size;
    if negb (crc =? stored) then Some (LZMA_DATA_ERROR, b)
    else
      b1 ← rd inp 1;
      if negb (Z.land b1 0x3C =? 0) then Some (LZMA_OPTIONS_ERROR, b) else header_fields b b1 inp in_size.
End decoder.

(** ** Sizes *)
Lemma check_size_ok c : check_ok c -> exists n, lzma_check_size c = Some n /\ 0 <= n <= 64.
Proof.
  unfold check_ok, LZMA_CHECK_ID_MAX. intros Hc. unfold lzma_check_size, LZMA_CHECK_ID_MAX. rewrite u32_small, (proj2 (Z.ltb_ge _ _)) by lia.
  assert (exists n, c = Z.of_nat n /\ (n < 16)%nat) as (n & -> & Hn) by (exists (Z.to_nat c); lia).
  do 16 (destruct n as [| n]; [eexists; split; [reflexivity | lia] |]). lia.
Qed.

(** The size of a Block without its padding, where everything is known. *)
Definition block_ok (b : lzma_block) : Prop :=
  blk_version b <= 1 /\ LZMA_BLOCK_HEADER_SIZE_MIN <= blk_header_size b <= LZMA_BLOCK_HEADER_SIZE_MAX /\ blk_header_size b mod 4 = 0 /\ check_ok (blk_check b).

Lemma unpadded_value b n : block_ok b -> lzma_check_size (blk_check b) = Some n -> 1 <= blk_compressed_size b <= LZMA_VLI_MAX ->
  lzma_block_unpadded_size b =
    Some (let u := blk_compressed_size b + blk_header_size b + n in if UNPADDED_SIZE_MAX <? u then 0 else u).
Proof.
  intros (Hv & Hh & Hm & Hc) En Hs. unfold check_ok, LZMA_CHECK_ID_MAX in Hc. unfold lzma_block_unpadded_size. rewrite En.
  destruct (check_size_ok _ Hc) as (n' & En' & Hn). rewrite En in En'. injection En' as <-.
  unfold lzma_vli_is_valid, LZMA_CHECK_ID_MAX, LZMA_BLOCK_HEADER_SIZE_MIN, LZMA_BLOCK_HEADER_SIZE_MAX in *.
  change 3 with (Z.ones 2) at 1. rewrite Z.land_ones by lia. change (2 ^ 2) with 4. rewrite Hm, u32_small by lia.
  change LZMA_VLI_MAX with 9223372036854775807 in *. change LZMA_VLI_UNKNOWN with 18446744073709551615 in *. change (2 ^ 64) with 18446744073709551616 in *.
  rewrite (proj2 (Z.ltb_ge _ _)), (proj2 (Z.ltb_ge _ 8)), (proj2 (Z.ltb_ge 1024 _)), (proj2 (Z.leb_le _ _)), (proj2 (Z.eqb_neq (blk_compressed_size b) 0)), (proj2 (Z.ltb_ge 15 _)) by lia.
  cbn [orb negb Z.eqb]. rewrite (proj2 (Z.eqb_neq _ _)) by lia. cbn [mbind option_bind].
  rewrite (u64_small (blk_compressed_size b + _)), u64_small by (change (2 ^ 64) with 18446744073709551616; lia). unfold assert, UNPADDED_SIZE_MIN.
  by rewrite (proj2 (Z.leb_le _ _)) by lia.
Qed.

(** The validation never fails an assertion. *)
Lemma unpadded_total b : check_ok (blk_check b) -> 0 <= blk_compressed_size b -> exists u, lzma_block_unpadded_size b = Some u.
Proof.
  intros Hc H0. destruct (check_size_ok _ Hc) as (n & En & Hn).
  destruct (decide (block_ok b /\ 1 <= blk_compressed_size b <= LZMA_VLI_MAX)) as [[Hb Hs] | Hno]; [rewrite (unpadded_value b n) by done; by eexists |].
  unfold lzma_block_unpadded_size. case_match eqn:E; [by eexists |]. case_match; [by eexists |]. exfalso. apply Hno.
  unfold lzma_vli_is_valid in E. change 3 with (Z.ones 2) in E. rewrite Z.land_ones in E by lia. change (2 ^ 2) with 4 in E.
  unfold block_ok, check_ok in *. repeat (apply orb_false_iff in E as [E ?]). lia.
Qed.

(** ** The bytes of a header *)
Record fields := MkFields { h_compressed : option Z; h_uncompressed : option Z; h_flags : list (Z * list Z) }.

Definition size_bytes (o : option Z) : list Z := match o with Some v => vli_bytes v | None => [] end.
Definition flag_byte (h : fields) : Z :=
  Z.of_nat (length (h_flags h)) - 1 + (if h_compressed h then 0x40 else 0) + (if h_uncompressed h then 0x80 else 0).
Definition fields_bytes (h : fields) : list Z :=
  size_bytes (h_compressed h) ++ size_bytes (h_uncompressed h) ++ concat (flags_of <$> h_flags h).

Definition block_header_bytes (size : Z) (h : fields) : list Z :=
  let body := [size / 4 - 1; flag_byte h] ++ fields_bytes h in
  let padded := body ++ replicate (Z.to_nat (size - 4) - length body) 0 in
  padded ++ le32 (crc_of padded).

(** ** The loops *)
Section loops.
  Context (sz : sizes) (alloc : nat -> bool) (inp : list Z) (in_size : Z).
  Context (Hb : bytes inp) (Hs : in_size <= Z.of_nat (length inp)) (H64 : in_size < 2 ^ 64).

(** The flags from [i] on, and the filters they describe. *)
Fixpoint described_from (i : nat) (fls : list (Z * list Z)) (fs : list lzma_filter) : Prop :=
  match fls, fs with
  | [], [] => True
  | fl :: fls, f :: fs => described sz (alloc i) fl f /\ described_from (S i) fls fs
  | _, _ => False
  end.

Lemma described_length i fls fs : described_from i fls fs -> length fs = length fls.
Proof. revert i fs. induction fls as [| fl fls IH]; intros i [| f fs]; cbn; [done | done | done |]. intros [_ H]. by rewrite (IH _ _ H). Qed.

Lemma described_from_ok i fls fs : described_from i fls fs -> Forall filter_ok fs /\ Forall (fun f => id f <> LZMA_VLI_UNKNOWN) fs.
Proof.
  revert i fs. induction fls as [| fl fls IH]; intros i [| f fs]; cbn; [repeat constructor | done | done |]. intros [H1 H2].
  destruct (IH _ _ H2) as [F1 F2]. destruct (described_ok _ _ _ _ H1) as [Hid Hf]. destruct H1 as ([_ Hr] & _).
  split; constructor; try done. rewrite Hid. unfold LZMA_FILTER_RESERVED_START in Hr. change LZMA_VLI_UNKNOWN with (2 ^ 64 - 1). lia.
Qed.

Lemma blank_filters_ok n b : (n <= length (blk_filters b))%nat -> blank_filters n b = Some (set_filters b (replicate n blank_filter ++ drop n (blk_filters b))).
Proof. intros. unfold blank_filters. by rewrite bool_decide_eq_true_2. Qed.

Lemma flags_loop_ok count i b in_pos pre mid post : blk_filters b = pre ++ mid ++ post -> length pre = i -> length mid = count ->
  (4 <= length (blk_filters b))%nat -> 0 <= in_pos <= in_size ->
  exists early b' e, flags_loop sz alloc count i b inp in_pos in_size = Some (early, b', e) /\ early <> Some LZMA_OK /\
    (early = None -> in_pos <= e <= in_size /\ exists fls fs, length fls = count /\ described_from i fls fs /\
      seg inp in_pos e = concat (flags_of <$> fls) /\ b' = set_filters b (pre ++ fs ++ post)).
Proof.
  revert i b in_pos pre mid. induction count as [| count IH]; intros i b in_pos pre mid Ef Hpre Hmid H4 Hi.
  - destruct mid; [| done]. do 3 eexists. split; [reflexivity |]. split; [done |]. intros _. split; [lia |]. exists [], [].
    split; [done |]. split; [done |]. cbn. unfold seg. rewrite Z.sub_diag. split; [done |]. destruct b. cbn in *. by subst.
  - destruct mid as [| m mid]; [done |]. cbn [flags_loop].
    assert (blk_filters b !! i = Some m) as -> by (rewrite Ef; by apply list_lookup_middle). cbn [mbind option_bind].
    destruct (flags_decode_ok sz m (alloc i) inp in_pos in_size Hb Hi Hs H64) as (ret & f & e & -> & Hok). cbn [mbind option_bind].
    case_bool_decide as Hr; cbn [negb].
    + destruct (Hok Hr) as (He & fl & Hfl & Eseg).
      assert (<[i:=f]> (blk_filters b) = (pre ++ [f]) ++ mid ++ post) as E1.
      { rewrite Ef. cbn [app]. subst i.
        replace (length pre) with (length pre + 0)%nat by lia. rewrite insert_app_r. cbn. by rewrite <- app_assoc. }
      destruct (IH (S i) (set_filters b (<[i:=f]> (blk_filters b))) e (pre ++ [f]) mid) as (early & b' & e' & -> & Hne & Hd).
      * exact E1.
      * rewrite length_app. cbn. lia.
      * cbn in Hmid. lia.
      * cbn. by rewrite length_insert.
      * lia.
      * exists early, b', e'. split; [done |]. split; [done |]. intros Hn. destruct (Hd Hn) as (He' & fls & fs & Hl & Hdf & Es & ->).
        split; [lia |]. exists (fl :: fls), (f :: fs). split; [cbn; by f_equal |]. split; [by split |]. split.
        -- rewrite (seg_app inp in_pos e) by lia. rewrite Eseg, Es. done.
        -- cbn. by rewrite <- app_assoc.
    + unfold free_properties. rewrite blank_filters_ok by (cbn; rewrite length_insert; exact H4). cbn [mbind option_bind].
      do 3 eexists. split; [reflexivity |]. split; [congruence | done].
Qed.

(** Reading flags that are there. *)
Lemma flags_loop_value fls fs i b pre mid post ipre ipost : described_from i fls fs -> blk_filters b = pre ++ mid ++ post -> length pre = i -> length mid = length fls ->
  inp = ipre ++ concat (flags_of <$> fls) ++ ipost -> let e := Z.of_nat (length ipre) + Z.of_nat (length (concat (flags_of <$> fls))) in e <= in_size ->
  flags_loop sz alloc (length fls) i b inp (Z.of_nat (length ipre)) in_size = Some (None, set_filters b (pre ++ fs ++ post), e).
Proof.
  revert i b pre mid ipre fs. induction fls as [| fl fls IH]; intros i b pre mid ipre [| f fs] Hd Ef Hpre Hmid Ei e He; cbn [described_from] in Hd; try done.
  - destruct mid; [| done]. cbn in *. rewrite <- Ef. destruct b. cbn. do 2 f_equal. unfold e. cbn. lia.
  - destruct Hd as [Hfl Hd]. destruct mid as [| m mid]; [done |]. cbn [flags_loop length].
    assert (blk_filters b !! i = Some m) as -> by (rewrite Ef; by apply list_lookup_middle). cbn [mbind option_bind]. cbn [fmap list_fmap concat] in Ei, e. unfold e in He |- *. rewrite length_app in He |- *.
    rewrite <- app_assoc in Ei. rewrite Ei at 1. rewrite Ei in Hb, Hs. rewrite (flags_decode_value sz m (alloc i) ipre fl f) by (done || lia).
    cbn [mbind option_bind]. rewrite bool_decide_eq_true_2 by done. cbn [negb].
    assert (Z.of_nat (length ipre) + Z.of_nat (length (flags_of fl)) = Z.of_nat (length (ipre ++ flags_of fl))) as -> by (rewrite length_app; lia).
    rewrite (IH (S i) _ (pre ++ [f]) mid (ipre ++ flags_of fl) fs); try done.
    + cbn. rewrite <- app_assoc, length_app. do 2 f_equal. lia.
    + cbn. rewrite Ef. cbn [app]. subst i. replace (length pre) with (length pre + 0)%nat by lia. rewrite insert_app_r. cbn. by rewrite <- app_assoc.
    + rewrite length_app. cbn. lia.
    + cbn in Hmid. lia.
    + by rewrite <- app_assoc.
    + rewrite length_app. lia.
Qed.

Lemma padding_ok fuel in_pos : 0 <= in_pos <= in_size -> in_size - in_pos < Z.of_nat fuel ->
  exists r, padding_loop fuel inp in_pos in_size = Some r /\ (r = true <-> seg inp in_pos in_size = replicate (Z.to_nat (in_size - in_pos)) 0).
Proof.
  revert in_pos. induction fuel as [| fuel IH]; intros in_pos Hi Hf; [lia |]. cbn [padding_loop]. destruct (Z.ltb_spec in_pos in_size) as [Hlt | Hge].
  - assert (rd inp in_pos = Some (inp !!! Z.to_nat in_pos)) as Hr by (apply rd_total; lia). rewrite Hr. cbn [mbind option_bind].
    rewrite (seg_cons inp in_pos in_size _ ltac:(lia) Hs Hr). replace (Z.to_nat (in_size - in_pos)) with (S (Z.to_nat (in_size - (in_pos + 1)))) by lia.
    cbn [replicate]. destruct (Z.eqb_spec (inp !!! Z.to_nat in_pos) 0) as [E | E]; cbn [negb].
    + rewrite E. destruct (IH (in_pos + 1)) as (r & -> & Hr2); [lia | lia |]. exists r. split; [done |]. rewrite Hr2. split; [by intros -> | by intros [= H]].
    + eexists. split; [reflexivity |]. split; [done |]. intros [= H _]. done.
  - eexists. split; [reflexivity |]. replace in_pos with in_size by lia. unfold seg. rewrite Z.sub_diag. done.
Qed.
End loops.

(** ** The header *)
Lemma flag_bits b : is_byte b -> Z.land b 0x3C = 0 ->
  b = Z.land b 3 + (if negb (Z.land b 0x40 =? 0) then 0x40 else 0) + (if negb (Z.land b 0x80 =? 0) then 0x80 else 0) /\ 0 <= Z.land b 3 <= 3.
Proof.
  intros [H0 H1].
  assert (forall n : nat, (n < 256)%nat -> let b := Z.of_nat n in Z.land b 0x3C = 0 ->
    b = Z.land b 3 + (if negb (Z.land b 0x40 =? 0) then 0x40 else 0) + (if negb (Z.land b 0x80 =? 0) then 0x80 else 0) /\ 0 <= Z.land b 3 <= 3) as H.
  { intros n Hn. do 256 (destruct n as [| n]; [cbn; (by intros) || (intros _; split; [reflexivity | lia]) |]). lia. }
  rewrite <- (Z2Nat.id b) by done. apply H. lia.
Qed.

Lemma flag_byte_bits n (c u : bool) : 1 <= n <= 4 ->
  let b := n - 1 + (if c then 0x40 else 0) + (if u then 0x80 else 0) in
  is_byte b /\ Z.land b 0x3C = 0 /\ Z.land b 3 = n - 1 /\ negb (Z.land b 0x40 =? 0) = c /\ negb (Z.land b 0x80 =? 0) = u.
Proof.
  intros Hn. assert (n = 1 \/ n = 2 \/ n = 3 \/ n = 4) as [-> | [-> | [-> | ->]]] by lia; destruct c, u; cbn; unfold is_byte; (split; [lia | done]).
Qed.

Section header.
  Context (sz : sizes) (alloc : nat -> bool).

Lemma size_field_ok inp in_size present size p : bytes inp -> 0 <= p <= in_size -> in_size <= Z.of_nat (length inp) ->
  exists ret v e, size_field present size inp p in_size = Some (ret, v, e) /\
    (ret = LZMA_OK -> p <= e <= in_size /\ exists o : option Z, present = (if o then true else false) /\ v = default LZMA_VLI_UNKNOWN o /\
      (forall w, o = Some w -> 0 <= w <= LZMA_VLI_MAX) /\ seg inp p e = size_bytes o).
Proof.
  intros Hb Hp Hs. unfold size_field. destruct present.
  - destruct (vli_decode_whole size inp p in_size Hb Hp Hs) as (ret & v & e & -> & He & H). cbn [mbind option_bind].
    exists ret, v, e. split; [done |]. intros ->. split; [done |]. destruct H as [(_ & E & Hv) | [? _]]; [| done].
    exists (Some v). split; [done |]. split; [done |]. split; [by intros w [= <-] | done].
  - do 3 eexists. split; [reflexivity |]. intros _. split; [lia |]. exists None. cbn. unfold seg. by rewrite Z.sub_diag.
Qed.

Lemma size_field_value o size pre post in_size : bytes (pre ++ size_bytes o ++ post) -> (forall w, o = Some w -> 0 <= w <= LZMA_VLI_MAX) ->
  let n := Z.of_nat (length (size_bytes o)) in Z.of_nat (length pre) + n <= in_size -> in_size <= Z.of_nat (length (pre ++ size_bytes o ++ post)) ->
  size_field (if o then true else false) size (pre ++ size_bytes o ++ post) (Z.of_nat (length pre)) in_size
    = Some (LZMA_OK, default LZMA_VLI_UNKNOWN o, Z.of_nat (length pre) + n).
Proof.
  intros Hb Ho n Hn Hs. destruct o as [w |]; cbn [size_bytes] in *; unfold size_field.
  - rewrite vli_decode_value by (done || by apply Ho). done.
  - unfold n. cbn. do 2 f_equal. lia.
Qed.

(** What the header tells about the Block [b]: the sizes are valid, there are one
    to four filters with properties that are accepted, and everything fits. *)
Definition tells (b : lzma_block) (h : fields) (fs : list lzma_filter) (b' : lzma_block) : Prop :=
  (1 <= length (h_flags h) <= 4)%nat /\ described_from sz alloc 0 (h_flags h) fs /\
  (forall v, h_compressed h = Some v -> 0 <= v <= LZMA_VLI_MAX) /\ (forall v, h_uncompressed h = Some v -> 0 <= v <= LZMA_VLI_MAX) /\
  2 + Z.of_nat (length (fields_bytes h)) <= blk_header_size b - 4 /\
  b' = MkBlock (Z.min 1 (blk_version b)) (blk_header_size b) (blk_check b) (default LZMA_VLI_UNKNOWN (h_compressed h))
    (default LZMA_VLI_UNKNOWN (h_uncompressed h)) (fs ++ replicate (5 - length fs) blank_filter ++ drop 5 (blk_filters b)) (blk_raw_check b) false /\
  (h_compressed h <> None -> exists u, lzma_block_unpadded_size b' = Some u /\ u <> 0).

(** The Block when the decoding of the fields starts. *)
Definition started (b : lzma_block) : lzma_block :=
  MkBlock (Z.min 1 (blk_version b)) (blk_header_size b) (blk_check b) (blk_compressed_size b)
    (blk_uncompressed_size b) (replicate 5 blank_filter ++ drop 5 (blk_filters b)) (blk_raw_check b) false.

Lemma blanks_split k : (k <= 5)%nat -> replicate 5 blank_filter = replicate k blank_filter ++ replicate (5 - k) blank_filter.
Proof. intros. rewrite <- replicate_add. f_equal. lia. Qed.

Lemma rd_some l i : bytes l -> 0 <= i < Z.of_nat (length l) -> exists b, rd l i = Some b /\ is_byte b.
Proof. intros Hb Hi. exists (l !!! Z.to_nat i). rewrite rd_total by done. split; [done |]. apply (rd_byte l i); [done | by apply rd_total]. Qed.

(** The padding of the header. *)
Definition zeros_to (size : Z) (h : fields) : list Z := replicate (Z.to_nat (size - 6) - length (fields_bytes h)) 0.

Lemma header_fields_sound b b1 inp n : bytes inp -> n = blk_header_size b - 4 -> 4 <= n -> n <= Z.of_nat (length inp) -> n < 2 ^ 64 ->
  check_ok (blk_check b) -> is_byte b1 -> Z.land b1 0x3C = 0 ->
  exists ret b', header_fields sz alloc (started b) b1 inp n = Some (ret, b') /\
    (ret = LZMA_OK -> exists h fs, tells b h fs b' /\ b1 = flag_byte h /\ seg inp 2 n = fields_bytes h ++ zeros_to (blk_header_size b) h).
Proof.
  intros Hb En Hn Hl H64 Hc Hb1 E1. unfold header_fields. destruct (flag_bits b1 Hb1 E1) as [Eb1 Hcount].
  destruct (size_field_ok inp n (negb (Z.land b1 0x40 =? 0)) (blk_compressed_size (started b)) 2 Hb ltac:(lia) ltac:(lia)) as (ret & comp & p1 & -> & Hcomp).
  cbn [mbind option_bind]. case_bool_decide as Hr1; cbn [negb]; [| by do 2 eexists]. destruct (Hcomp Hr1) as (Hp1 & co & Eco & -> & Hco & Esegc).
  unfold set_sizes. cbn [started blk_version blk_header_size blk_check blk_compressed_size blk_uncompressed_size blk_filters blk_raw_check blk_ignore_check].
  set (b2 := MkBlock _ _ _ (default LZMA_VLI_UNKNOWN co) _ _ _ _).
  destruct (unpadded_total b2 Hc) as (u & Eu); [cbn; destruct co as [w |]; cbn; [by apply Hco | done] |].
  assert (exists u, (if negb (Z.land b1 0x40 =? 0) then lzma_block_unpadded_size b2 else Some LZMA_VLI_UNKNOWN) = Some u /\
    (co <> None -> lzma_block_unpadded_size b2 = Some u)) as (u' & -> & Hu).
  { rewrite Eco. destruct co; [exists u | by eexists]. by rewrite Eu. }
  cbn [mbind option_bind]. destruct (Z.eqb_spec u' 0) as [| Hu0]; [by do 2 eexists |].
  destruct (size_field_ok inp n (negb (Z.land b1 0x80 =? 0)) (blk_uncompressed_size b) p1 Hb ltac:(lia) ltac:(lia)) as (ret2 & unc & p2 & -> & Hunc).
  cbn [mbind option_bind]. case_bool_decide as Hr2; cbn [negb]; [| by do 2 eexists]. destruct (Hunc Hr2) as (Hp2 & uo & Euo & -> & Huo & Esegu).
  set (count := Z.to_nat (Z.land b1 3 + 1)) in *. match goal with |- context [flags_loop _ _ _ _ ?x] => set (b3 := x) end.
  destruct (flags_loop_ok sz alloc inp n Hb ltac:(lia) ltac:(lia) count 0 b3 p2 [] (replicate count blank_filter) (replicate (5 - count) blank_filter ++ drop 5 (blk_filters b)))
    as (early & b4 & p3 & -> & Hne & Hflags); [| done | by rewrite length_replicate | cbn [blk_filters b3]; rewrite length_app, length_replicate; lia | lia |].
  { cbn [blk_filters b3 app]. rewrite app_assoc, <- blanks_split by lia. done. }
  cbn [mbind option_bind]. destruct early as [r |]; [do 2 eexists; split; [reflexivity |]; intros ->; done |].
  destruct (Hflags eq_refl) as (Hp3 & fls & fs & Hlf & Hdf & Esegf & ->). pose proof (described_length _ _ _ _ _ Hdf) as Hlfs.
  destruct (padding_ok inp n ltac:(lia) (S (Z.to_nat (n - p3))) p3) as (zeros & -> & Hz); [lia | lia |]. cbn [mbind option_bind].
  destruct zeros.
  2: { unfold free_properties. rewrite blank_filters_ok; [by do 2 eexists |]. cbn. rewrite !length_app, length_replicate. change (Z.to_nat LZMA_FILTERS_MAX) with 4%nat. lia. }
  do 2 eexists. split; [reflexivity |]. intros _. exists (MkFields co uo fls), fs.
  assert (seg inp 2 p3 = fields_bytes (MkFields co uo fls)) as Efb.
  { unfold fields_bytes. cbn. rewrite <- Esegc, <- Esegu, <- Esegf, (seg_app inp 2 p1), (seg_app inp p1 p2) by lia. done. }
  pose proof (seg_length inp 2 p3 ltac:(lia) ltac:(lia)) as Hlb. rewrite Efb in Hlb. rewrite (seg_app inp 2 p3), Efb, (proj1 Hz eq_refl) by lia.
  split; [| split].
  - unfold tells. cbn [h_flags h_compressed h_uncompressed]. split; [lia |]. split; [done |]. split; [done |]. split; [done |]. split; [lia |].
    split; [unfold set_filters; cbn; by rewrite Hlfs, Hlf, <- ?app_assoc |].
    intros Hne2. exists u'. split; [exact (Hu Hne2) | done].
  - unfold flag_byte. cbn. rewrite Eb1, Eco, Euo, Hlf. destruct co, uo; lia.
  - unfold zeros_to. do 2 f_equal. lia.
Qed.

Lemma size_bytes_length o : (forall w : Z, o = Some w -> 0 <= w <= LZMA_VLI_MAX) -> bytes (size_bytes o).
Proof. intros H. destruct o; [apply vli_bytes_bytes; by apply H | constructor]. Qed.

Lemma header_fields_value b h fs b' inp n : bytes inp -> n = blk_header_size b - 4 -> 4 <= n -> n <= Z.of_nat (length inp) -> n < 2 ^ 64 ->
  tells b h fs b' -> seg inp 2 n = fields_bytes h ++ zeros_to (blk_header_size b) h ->
  header_fields sz alloc (started b) (flag_byte h) inp n = Some (LZMA_OK, b').
Proof.
  intros Hb En Hn Hl H64 (Hc & Hd & Hco & Huo & Hfit & Eb' & Hu) Eseg. unfold header_fields, flag_byte.
  destruct h as [co uo fls]. cbn [h_flags h_compressed h_uncompressed] in *.
  destruct (flag_byte_bits (Z.of_nat (length fls)) (if co then true else false) (if uo then true else false) ltac:(lia)) as (_ & _ & E3 & E40 & E80).
  match goal with |- context [Z.land ?x 0x40] => assert (x = Z.of_nat (length fls) - 1 + (if (if co then true else false) : bool then 0x40 else 0) +
    (if (if uo then true else false) : bool then 0x80 else 0)) as -> by (destruct co, uo; reflexivity) end.
  rewrite E40, E80, E3. replace (Z.to_nat (Z.of_nat (length fls) - 1 + 1)) with (length fls) by lia. clear E3 E40 E80.
  pose proof (described_length _ _ _ _ _ Hd) as Hlfs. set (rest := zeros_to (blk_header_size b) (MkFields co uo fls) ++ drop (Z.to_nat n) inp).
  assert (inp = take 2 inp ++ size_bytes co ++ size_bytes uo ++ concat (flags_of <$> fls) ++ zeros_to (blk_header_size b) (MkFields co uo fls) ++ drop (Z.to_nat n) inp) as Ei.
  { rewrite (seg_split inp 2 n) at 1 by lia. rewrite Eseg. unfold fields_bytes. cbn [h_compressed h_uncompressed h_flags]. by rewrite <- !app_assoc. }
  fold rest in Ei. assert (length (take 2 inp) = 2%nat) as Hl2 by (rewrite length_take; lia). set (pre := take 2 inp) in *.
  unfold fields_bytes in Hfit. cbn [h_compressed h_uncompressed h_flags] in Hfit. rewrite !length_app in Hfit.
  pose proof Hb as Hb2. rewrite Ei in Hb2. assert (n <= Z.of_nat (length (pre ++ size_bytes co ++ size_bytes uo ++ concat (flags_of <$> fls) ++ rest))) as Hl3 by (by rewrite <- Ei).
  assert (size_field (if co then true else false) (blk_compressed_size (started b)) inp 2 n = Some (LZMA_OK, default LZMA_VLI_UNKNOWN co, 2 + Z.of_nat (length (size_bytes co)))) as ->.
  { rewrite Ei at 1. replace 2 with (Z.of_nat (length pre)) by lia. apply size_field_value; (done || lia). }
  cbn [mbind option_bind]. rewrite bool_decide_eq_true_2 by done. cbn [negb]. unfold set_sizes.
  cbn [started blk_version blk_header_size blk_check blk_compressed_size blk_uncompressed_size blk_filters blk_raw_check blk_ignore_check].
  match goal with |- context [lzma_block_unpadded_size ?x] => assert (exists u, (if (if co then true else false) : bool then lzma_block_unpadded_size x else Some LZMA_VLI_UNKNOWN) = Some u /\ u <> 0) as (u & -> & Hu0) end.
  { destruct co as [c |]; [| by eexists]. destruct (Hu ltac:(done)) as (u & E & Hu0). exists u. split; [| done]. by rewrite Eb' in E. }
  cbn [mbind option_bind]. rewrite (proj2 (Z.eqb_neq _ _) Hu0).
  assert (size_field (if uo then true else false) (blk_uncompressed_size b) inp (2 + Z.of_nat (length (size_bytes co))) n
    = Some (LZMA_OK, default LZMA_VLI_UNKNOWN uo, 2 + Z.of_nat (length (size_bytes co)) + Z.of_nat (length (size_bytes uo)))) as ->.
  { rewrite (app_assoc pre) in Ei, Hb2, Hl3. rewrite Ei at 1. replace (2 + _) with (Z.of_nat (length (pre ++ size_bytes co))) by (rewrite length_app; lia).
    apply size_field_value; (done || (rewrite length_app; lia)). }
  cbn [mbind option_bind]. rewrite bool_decide_eq_true_2 by done. cbn [negb].
  replace (2 + Z.of_nat (length (size_bytes co)) + Z.of_nat (length (size_bytes uo))) with (Z.of_nat (length (pre ++ size_bytes co ++ size_bytes uo))) by (rewrite !length_app; lia).
  match goal with |- context [flags_loop _ _ _ _ ?x] => rewrite (flags_loop_value sz alloc inp n Hb ltac:(lia) ltac:(lia) fls fs 0 x [] (replicate (length fls) blank_filter)
    (replicate (5 - length fls) blank_filter ++ drop 5 (blk_filters b)) (pre ++ size_bytes co ++ size_bytes uo) rest) end.
  - cbn [mbind option_bind]. match goal with |- context [padding_loop _ _ ?x _] => set (e := x) end.
    assert (e = 2 + Z.of_nat (length (fields_bytes (MkFields co uo fls)))) as Ee by (unfold e, fields_bytes; cbn [h_compressed h_uncompressed h_flags]; rewrite !length_app; lia).
    assert (2 + Z.of_nat (length (fields_bytes (MkFields co uo fls))) <= n) as Hle by (unfold fields_bytes; cbn [h_compressed h_uncompressed h_flags]; rewrite !length_app; lia).
    destruct (padding_ok inp n ltac:(lia) (S (Z.to_nat (n - e))) e) as (r & -> & Hr); [lia | lia |]. cbn [mbind option_bind].
    rewrite (seg_app inp 2 e) in Eseg by lia. apply app_inj_1 in Eseg as [_ Ez]; [| pose proof (seg_length inp 2 e ltac:(lia) ltac:(lia)); lia].
    rewrite (proj2 Hr); [| rewrite Ez; unfold zeros_to; f_equal; lia].
    rewrite Eb'. unfold set_filters. cbn. do 2 f_equal. f_equal. by rewrite Hlfs.
  - exact Hd.
  - cbn [blk_filters app]. rewrite app_assoc, <- blanks_split by lia. done.
  - done.
  - by rewrite length_replicate.
  - by rewrite <- !app_assoc.
  - rewrite !length_app. lia.
Qed.
End header.

(** ** The decoder accepts what is a header *)
Section whole.
  Context (sz : sizes) (alloc : nat -> bool).

(** The header in three parts. *)
Lemma header_split size inp : bytes inp -> 8 <= size <= Z.of_nat (length inp) ->
  exists b0 b1, rd inp 0 = Some b0 /\ rd inp 1 = Some b1 /\ is_byte b0 /\ is_byte b1 /\
    seg inp 0 (size - 4) = [b0; b1] ++ seg inp 2 (size - 4) /\
    take (Z.to_nat size) inp = seg inp 0 (size - 4) ++ seg inp (size - 4) size.
Proof.
  intros Hb Hs. destruct (rd_some inp 0 Hb ltac:(lia)) as (b0 & E0 & H0). destruct (rd_some inp 1 Hb ltac:(lia)) as (b1 & E1 & H1).
  exists b0, b1. split_and!; try done.
  - rewrite (seg_cons inp 0 _ b0), (seg_cons inp (0 + 1) _ b1) by (done || lia). done.
  - rewrite <- seg_app by lia. unfold seg. by rewrite Z.sub_0_r.
Qed.

(** The checks before the fields; [b0], [b1] are the first bytes. *)
Lemma header_decode_start b addr inp b0 b1 : bytes inp -> 8 <= blk_header_size b <= 1024 -> blk_header_size b <= Z.of_nat (length inp) ->
  check_ok (blk_check b) -> (5 <= length (blk_filters b))%nat -> rd inp 0 = Some b0 -> rd inp 1 = Some b1 -> is_byte b0 ->
  let n := blk_header_size b - 4 in
  exists stored, seg inp n (blk_header_size b) = le32 stored /\ 0 <= stored < 2 ^ 32 /\
  lzma_block_header_decode sz alloc b addr inp =
    if negb ((b0 + 1) * 4 =? blk_header_size b) then Some (LZMA_PROG_ERROR, started b)
    else if negb (crc_of (seg inp 0 n) =? stored) then Some (LZMA_DATA_ERROR, started b)
    else if negb (Z.land b1 0x3C =? 0) then Some (LZMA_OPTIONS_ERROR, started b)
    else header_fields sz alloc (started b) b1 inp n.
Proof.
  intros Hb Hh Hl Hc H5 E0 E1 H0 n. unfold is_byte in H0. destruct (read32le_total inp n Hb) as (stored & Est & Hst & Eseg); [lia | lia |].
  exists stored. replace (n + 4) with (blk_header_size b) in Eseg by lia. split; [done |]. split; [done |].
  unfold lzma_block_header_decode. rewrite blank_filters_ok by exact H5. cbn [mbind option_bind blk_version blk_header_size blk_check
    blk_compressed_size blk_uncompressed_size blk_filters blk_raw_check set_filters]. rewrite E0. cbn [mbind option_bind].
  assert (MkBlock (if 1 <? blk_version b then 1 else blk_version b) (blk_header_size b) (blk_check b) (blk_compressed_size b) (blk_uncompressed_size b)
    (replicate (Z.to_nat (LZMA_FILTERS_MAX + 1)) blank_filter ++ drop (Z.to_nat (LZMA_FILTERS_MAX + 1)) (blk_filters b)) (blk_raw_check b) false = started b) as ->.
  { unfold started. f_equal. destruct (Z.ltb_spec 1 (blk_version b)); lia. }
  unfold lzma_block_header_size_decode. rewrite (u32_small (b0 + 1)), u32_small by lia.
  unfold check_ok, LZMA_CHECK_ID_MAX in Hc. unfold LZMA_CHECK_ID_MAX. cbn [started blk_check blk_header_size]. rewrite (u32_small (blk_check b)), (proj2 (Z.ltb_ge _ _)), orb_false_r by lia.
  destruct (negb ((b0 + 1) * 4 =? blk_header_size b)); [done |]. rewrite u64_small by lia. fold n.
  pose proof (seg_length inp 0 n ltac:(lia) ltac:(lia)) as Hsl. pose proof (seg_split inp 0 n ltac:(lia) ltac:(lia)) as Ei.
  change (take (Z.to_nat 0) inp) with (@nil Z) in Ei. cbn [app] in Ei.
  assert (crc32_at addr inp 0 (Z.to_nat n) = Some (crc_of (seg inp 0 n))) as ->.
  { rewrite Ei at 1. apply (crc32_at_value addr [] (seg inp 0 n)); [done | lia | by apply seg_bytes]. }
  cbn [mbind option_bind]. rewrite Est. cbn [mbind option_bind]. destruct (negb (crc_of _ =? stored)); [done |]. by rewrite E1.
Qed.

Lemma le32_eq x y : 0 <= x < 2 ^ 32 -> 0 <= y < 2 ^ 32 -> le32 x = le32 y -> x = y.
Proof. intros Hx Hy E. pose proof (read32le_head [] x Hx) as H1. rewrite E, (read32le_head [] y Hy) in H1. congruence. Qed.

Lemma padded_fields size b0 h : 2 + Z.of_nat (length (fields_bytes h)) <= size - 4 -> b0 = size / 4 - 1 ->
  let padded := [b0; flag_byte h] ++ fields_bytes h ++ zeros_to size h in block_header_bytes size h = padded ++ le32 (crc_of padded).
Proof.
  intros Hf ->. cbv zeta. unfold block_header_bytes, zeros_to.
  replace (Z.to_nat (size - 4) - length ([size / 4 - 1; flag_byte h]%Z ++ fields_bytes h))%nat with (Z.to_nat (size - 6) - length (fields_bytes h))%nat
    by (rewrite length_app; cbn [length]; lia).
  by rewrite <- (app_assoc [size / 4 - 1; flag_byte h] (fields_bytes h)).
Qed.

Lemma flag_byte_of h : (1 <= length (h_flags h) <= 4)%nat -> Z.land (flag_byte h) 0x3C = 0.
Proof.
  intros Hc. unfold flag_byte.
  destruct (h_compressed h), (h_uncompressed h); [apply (flag_byte_bits _ true true) | apply (flag_byte_bits _ true false)
    | apply (flag_byte_bits _ false true) | apply (flag_byte_bits _ false false)]; lia.
Qed.

(** What a header that is there says about its parts. *)
Lemma header_parts size inp b0 b1 stored h : bytes inp -> 8 <= size <= Z.of_nat (length inp) -> 2 + Z.of_nat (length (fields_bytes h)) <= size - 4 ->
  seg inp 0 (size - 4) = [b0; b1] ++ seg inp 2 (size - 4) -> take (Z.to_nat size) inp = seg inp 0 (size - 4) ++ seg inp (size - 4) size ->
  seg inp (size - 4) size = le32 stored -> 0 <= stored < 2 ^ 32 -> take (Z.to_nat size) inp = block_header_bytes size h ->
  b0 = size / 4 - 1 /\ b1 = flag_byte h /\ crc_of (seg inp 0 (size - 4)) = stored /\ seg inp 2 (size - 4) = fields_bytes h ++ zeros_to size h.
Proof.
  intros Hb Hs Hfit Es Et Est Hst E. set (n := size - 4) in *. rewrite (padded_fields _ _ h Hfit eq_refl), Et, Es, Est in E.
  assert (length (seg inp 2 n) = length (fields_bytes h ++ zeros_to size h)) as Hlen.
  { pose proof (seg_length inp 2 n ltac:(lia) ltac:(lia)). unfold zeros_to. rewrite length_app, length_replicate. lia. }
  apply app_inj_1 in E as [Ea Ec]; [| cbn [app length]; lia]. injection Ea as -> -> Ef. rewrite Es, Ef. split; [done |]. split; [done |]. split; [| done].
  symmetry. apply le32_eq; [done | | exact Ec]. apply crc_of_range. rewrite <- Ef, <- Es. by apply seg_bytes.
Qed.

(** C33: Whatever bytes it is given, [lzma_block_header_decode] answers, without
    leaving the header or the array of filters; it answers [LZMA_OK] exactly if the
    bytes are the encoding of some sizes and of one to four filters whose properties
    are accepted, padded with zeros and followed by their CRC32, and then the Block
    holds those sizes and filters and nothing else. *)
Theorem block_header_decode_spec b addr inp : bytes inp -> 8 <= blk_header_size b <= 1024 -> blk_header_size b mod 4 = 0 ->
  blk_header_size b <= Z.of_nat (length inp) -> check_ok (blk_check b) -> (5 <= length (blk_filters b))%nat ->
  exists ret b', lzma_block_header_decode sz alloc b addr inp = Some (ret, b') /\
    forall b2, (ret = LZMA_OK /\ b' = b2) <->
      exists h fs, tells sz alloc b h fs b2 /\ take (Z.to_nat (blk_header_size b)) inp = block_header_bytes (blk_header_size b) h.
Proof.
  intros Hb Hh Hm Hl Hc H5. destruct (header_split (blk_header_size b) inp Hb ltac:(lia)) as (b0 & b1 & E0 & E1 & H0 & H1 & Es & Et).
  destruct (header_decode_start b addr inp b0 b1 Hb Hh Hl Hc H5 E0 E1 H0) as (stored & Est & Hst & ->). set (n := blk_header_size b - 4) in *.
  pose proof (Z.div_mod (blk_header_size b) 4 ltac:(lia)) as Hdm.
  assert (forall h fs b2, tells sz alloc b h fs b2 -> take (Z.to_nat (blk_header_size b)) inp = block_header_bytes (blk_header_size b) h ->
    b0 = blk_header_size b / 4 - 1 /\ b1 = flag_byte h /\ crc_of (seg inp 0 n) = stored /\ seg inp 2 n = fields_bytes h ++ zeros_to (blk_header_size b) h) as Hinv.
  { intros h fs b2 (_ & _ & _ & _ & Hfit & _) E. apply header_parts; (done || lia). }
  destruct (Z.eqb_spec ((b0 + 1) * 4) (blk_header_size b)) as [Eh | Eh]; cbn [negb].
  2: { do 2 eexists. split; [reflexivity |]. intros b2. split; [by intros [? _] |]. intros (h & fs & Ht & E). destruct (Hinv _ _ _ Ht E) as (-> & _). lia. }
  destruct (Z.eqb_spec (crc_of (seg inp 0 n)) stored) as [Ecrc | Ecrc]; cbn [negb].
  2: { do 2 eexists. split; [reflexivity |]. intros b2. split; [by intros [? _] |]. intros (h & fs & Ht & E). by destruct (Hinv _ _ _ Ht E) as (_ & _ & ? & _). }
  destruct (Z.eqb_spec (Z.land b1 0x3C) 0) as [E3 | E3]; cbn [negb].
  2: { do 2 eexists. split; [reflexivity |]. intros b2. split; [by intros [? _] |]. intros (h & fs & Ht & E). destruct (Hinv _ _ _ Ht E) as (_ & -> & _).
       destruct Ht as (Hcount & _). by destruct E3; apply flag_byte_of. }
  destruct (header_fields_sound sz alloc b b1 inp n Hb eq_refl ltac:(lia) ltac:(lia) ltac:(lia) Hc H1 E3) as (ret & b' & E & Hsound).
  exists ret, b'. split; [done |]. intros b2. split.
  - intros [Hr <-]. destruct (Hsound Hr) as (h & fs & Ht & Eb1 & Eseg). exists h, fs. split; [done |].
    rewrite (padded_fields _ b0 h) by (lia || apply Ht). rewrite Et, Es, Est, Eb1, Eseg, <- Ecrc, Es, Eb1, Eseg. done.
  - intros (h & fs & Ht & Eb). destruct (Hinv _ _ _ Ht Eb) as (_ & -> & _ & Eseg).
    rewrite (header_fields_value sz alloc b h fs b2 inp n Hb eq_refl ltac:(lia) ltac:(lia) ltac:(lia) Ht Eseg) in E. by injection E as <- <-.
Qed.
End whole.

(** ** A header with the Delta and the LZMA2 filter *)
Definition sample_header : list Z := [2; 1; 3; 1; 2; 33; 1; 0; 163; 93; 25; 176].
Definition sample_sizes : sizes := MkSizes 100 100 100 100.
Definition sample_block : lzma_block := MkBlock 1 12 4 7 7 (replicate 5 (MkFilter 0 None)) (replicate 64 0) true.

Example sample_header_decoded : lzma_block_header_decode sample_sizes (fun _ => true) sample_block 4096 sample_header =
  Some (LZMA_OK, MkBlock 1 12 4 LZMA_VLI_UNKNOWN LZMA_VLI_UNKNOWN
    [MkFilter LZMA_FILTER_DELTA (Some (Opt_delta (MkOptDelta LZMA_DELTA_TYPE_BYTE 3))); MkFilter LZMA_FILTER_LZMA2 (Some (Opt_lzma (MkOptions 4096 [] 0 0 0)));
     blank_filter; blank_filter; blank_filter] (replicate 64 0) false).
Proof. vm_compute. reflexivity. Qed.

(** The header of the example is the encoding of those filters. *)
Lemma block_header_decode_spec_witness : exists h fs b2,
  tells sample_sizes (fun _ => true) sample_block h fs b2 /\ take 12 sample_header = block_header_bytes 12 h.
Proof.
  destruct (block_header_decode_spec sample_sizes (fun _ => true) sample_block 4096 sample_header) as (ret & b' & E & H).
  - apply (bool_decide_unpack _). vm_compute. exact I.
  - cbn. lia.
  - reflexivity.
  - cbn. lia.
  - unfold check_ok, LZMA_CHECK_ID_MAX. cbn. lia.
  - cbn. lia.
  - rewrite sample_header_decoded in E. injection E as <- <-. destruct (proj1 (H _) (conj eq_refl eq_refl)) as (h & fs & Ht & Eb).
    exists h, fs. eexists. split; [exact Ht | exact Eb].
Defined.
