(* ===== verification/IndexHash.v ===== *)
(** * liblzma: the hash of the Index

    common/index_hash.c and the rest of common/index.h. While the Blocks of a Stream
    are decoded, their sizes are summed up and hashed; the Index that follows them is
    then read, in any pieces, and compared with that. The file proves that the Index
    of the Blocks is accepted, however it is cut, and that what is accepted is an
    Index with the same number of Records, the same sums and the same SHA-256. *)

From Stdlib Require Import ZArith Lia.
From stdpp Require Import base list option.
From S2P Require Import Prelude LzmaBase Vli VliStream Crc StreamFlags Coder Filters Check BlockHeader.
Local Open Scope Z_scope.

(** ** index.h *)
Definition index_size_unpadded (count index_list_size : Z) : option Z :=
  n ← lzma_vli_size count; Some (u64 (u64 (1 + n + index_list_size) + 4)).

Definition index_size (count index_list_size : Z) : option Z := s ← index_size_unpadded count index_list_size; vli_ceil4 s.

Definition index_stream_size (blocks_size count index_list_size : Z) : option Z :=
  s ← index_size count index_list_size; Some (u64 (u64 (LZMA_STREAM_HEADER_SIZE + blocks_size + s) + LZMA_STREAM_HEADER_SIZE)).

(** ** index_hash.c *)
Definition LZMA_CHECK_BEST : Z := LZMA_CHECK_SHA256.

Record lzma_index_hash_info := MkInfo {
  blocks_size : Z; uncompressed_sum : Z; count : Z; index_list_size : Z; info_check : lzma_check_state }.

Inductive index_sequence := SEQ_BLOCK | SEQ_COUNT | SEQ_UNPADDED | SEQ_UNCOMPRESSED | SEQ_PADDING_INIT | SEQ_PADDING | SEQ_CRC32.

#[export] Instance index_sequence_eq_dec : EqDecision index_sequence.
Proof. solve_decision. Defined.

Record lzma_index_hash := MkHash {
  ih_sequence : index_sequence; ih_blocks : lzma_index_hash_info; ih_records : lzma_index_hash_info; remaining : Z;
  unpadded_size : Z; uncompressed_size : Z; ih_pos : Z; ih_crc32 : Z }.

Definition set_sequence (h : lzma_index_hash) (q : index_sequence) : lzma_index_hash :=
  MkHash q (ih_blocks h) (ih_records h) (remaining h) (unpadded_size h) (uncompressed_size h) (ih_pos h) (ih_crc32 h).
Definition set_position (h : lzma_index_hash) (p : Z) : lzma_index_hash :=
  MkHash (ih_sequence h) (ih_blocks h) (ih_records h) (remaining h) (unpadded_size h) (uncompressed_size h) p (ih_crc32 h).
Definition set_remaining (h : lzma_index_hash) (n : Z) : lzma_index_hash :=
  MkHash (ih_sequence h) (ih_blocks h) (ih_records h) n (unpadded_size h) (uncompressed_size h) (ih_pos h) (ih_crc32 h).
Definition set_infos (h : lzma_index_hash) (blocks records : lzma_index_hash_info) : lzma_index_hash :=
  MkHash (ih_sequence h) blocks records (remaining h) (unpadded_size h) (uncompressed_size h) (ih_pos h) (ih_crc32 h).
Definition set_record (h : lzma_index_hash) (unpadded uncompressed : Z) : lzma_index_hash :=
  MkHash (ih_sequence h) (ih_blocks h) (ih_records h) (remaining h) unpadded uncompressed (ih_pos h) (ih_crc32 h).
Definition set_crc32 (h : lzma_index_hash) (crc : Z) : lzma_index_hash :=
  MkHash (ih_sequence h) (ih_blocks h) (ih_records h) (remaining h) (unpadded_size h) (uncompressed_size h) (ih_pos h) crc.

(** How a round of the loop of [lzma_index_hash_decode] ends: with another one, with
    a jump to [out], or with an immediate return. *)
Inductive hash_round := Again (h : lzma_index_hash) (in_pos : Z) | Out (ret : lzma_ret) (h : lzma_index_hash) (in_pos : Z) | Return (ret : lzma_ret) (h : lzma_index_hash) (in_pos : Z).

Section hash.
  (** The uninitialised array of the SHA-256 code. *)
  Context (W : list Z).

(** [fresh] is the structure that was there, or what the allocation gave. *)
Definition lzma_index_hash_init (fresh : option lzma_index_hash) : option lzma_index_hash :=
  h ← fresh;
  Some (MkHash SEQ_BLOCK (MkInfo 0 0 0 0 (lzma_check_init (info_check (ih_blocks h)) LZMA_CHECK_BEST))
    (MkInfo 0 0 0 0 (lzma_check_init (info_check (ih_records h)) LZMA_CHECK_BEST)) (remaining h) 0 0 0 0).

Definition lzma_index_hash_size (h : lzma_index_hash) : option Z := index_size (count (ih_blocks h)) (index_list_size (ih_blocks h)).

Definition hash_append (info : lzma_index_hash_info) (unpadded_size uncompressed_size : Z) : option lzma_index_hash_info :=
  ceil ← vli_ceil4 unpadded_size;
  n1 ← lzma_vli_size unpadded_size;
  n2 ← lzma_vli_size uncompressed_size;
  c ← lzma_check_update W LZMA_CHECK_BEST (0, le64 unpadded_size ++ le64 uncompressed_size) (info_check info);
  Some (MkInfo (u64 (blocks_size info + ceil)) (u64 (uncompressed_sum info + uncompressed_size)) (u64 (count info + 1))
    (u64 (index_list_size info + u32 (n1 + n2))) c).

Definition lzma_index_hash_append (h : lzma_index_hash) (unpadded_size uncompressed_size : Z) : option (lzma_ret * lzma_index_hash) :=
  if negb (bool_decide (ih_sequence h = SEQ_BLOCK)) || (unpadded_size <? UNPADDED_SIZE_MIN) || (UNPADDED_SIZE_MAX <? unpadded_size) || (LZMA_VLI_MAX <? uncompressed_size)
  then Some (LZMA_PROG_ERROR, h)
  else
    info ← hash_append (ih_blocks h) unpadded_size uncompressed_size;
    let h := set_infos h info (ih_records h) in
    if (LZMA_VLI_MAX <? blocks_size info) || (LZMA_VLI_MAX <? uncompressed_sum info) then Some (LZMA_DATA_ERROR, h)
    else
      s ← index_size (count info) (index_list_size info);
      if LZMA_BACKWARD_SIZE_MAX <? s then Some (LZMA_DATA_ERROR, h)
      else
        s ← index_stream_size (blocks_size info) (count info) (index_list_size info);
        Some (if LZMA_VLI_MAX <? s then LZMA_DATA_ERROR else LZMA_OK, h).

(** The check of the CRC32, a byte each round. *)
Fixpoint crc_loop (fuel : nat) (h : lzma_index_hash) (inp : list Z) (in_pos in_size : Z) : option hash_round :=
  match fuel with
  | O => None
  | S fuel =>
      if in_pos =? in_size then Some (Return LZMA_OK h in_pos)
      else
        b ← rd inp in_pos;
        let in_pos := in_pos + 1 in
        if negb (Z.land (Z.shiftr (ih_crc32 h) (ih_pos h * 8)) 0xFF =? b) then Some (Return LZMA_DATA_ERROR h in_pos)
        else
          let h := set_position h (ih_pos h + 1) in
          if ih_pos h <? 4 then crc_loop fuel h inp in_pos in_size else Some (Return LZMA_STREAM_END h in_pos)
  end.

Definition seq_count (h : lzma_index_hash) (inp : list Z) (in_pos in_size : Z) : option hash_round :=
  '(ret, v, p, in_pos) ← lzma_vli_decode (remaining h) (Some (ih_pos h)) inp in_pos in_size;
  let h := set_position (set_remaining h v) (default (ih_pos h) p) in
  if negb (bool_decide (ret = LZMA_STREAM_END)) then Some (Out ret h in_pos)
  else if negb (remaining h =? count (ih_blocks h)) then Some (Return LZMA_DATA_ERROR h in_pos)
  else Some (Again (set_sequence (set_position h 0) (if remaining h =? 0 then SEQ_PADDING_INIT else SEQ_UNPADDED)) in_pos).

Definition seq_unpadded (h : lzma_index_hash) (inp : list Z) (in_pos in_size : Z) : option hash_round :=
  '(ret, v, p, in_pos) ← lzma_vli_decode (unpadded_size h) (Some (ih_pos h)) inp in_pos in_size;
  let h := set_position (set_record h v (uncompressed_size h)) (default (ih_pos h) p) in
  if negb (bool_decide (ret = LZMA_STREAM_END)) then Some (Out ret h in_pos)
  else
    let h := set_position h 0 in
    if (unpadded_size h <? UNPADDED_SIZE_MIN) || (UNPADDED_SIZE_MAX <? unpadded_size h) then Some (Return LZMA_DATA_ERROR h in_pos)
    else Some (Again (set_sequence h SEQ_UNCOMPRESSED) in_pos).

Definition seq_uncompressed (h : lzma_index_hash) (inp : list Z) (in_pos in_size : Z) : option hash_round :=
  '(ret, v, p, in_pos) ← lzma_vli_decode (uncompressed_size h) (Some (ih_pos h)) inp in_pos in_size;
  let h := set_position (set_record h (unpadded_size h) v) (default (ih_pos h) p) in
  if negb (bool_decide (ret = LZMA_STREAM_END)) then Some (Out ret h in_pos)
  else
    info ← hash_append (ih_records h) (unpadded_size h) (uncompressed_size h);
    let h := set_infos (set_position h 0) (ih_blocks h) info in
    if (blocks_size (ih_blocks h) <? blocks_size info) || (uncompressed_sum (ih_blocks h) <? uncompressed_sum info)
       || (index_list_size (ih_blocks h) <? index_list_size info)
    then Some (Return LZMA_DATA_ERROR h in_pos)
    else
      let h := set_remaining h (u64 (remaining h - 1)) in
      Some (Again (set_sequence h (if remaining h =? 0 then SEQ_PADDING_INIT else SEQ_UNPADDED)) in_pos).

(** [SEQ_PADDING] falls through to the CRC32; [addr] is the address of [in],
    [in_start] where the call began. *)
Definition seq_padding (h : lzma_index_hash) (addr : Z) (inp : list Z) (in_start in_pos in_size : Z) : option hash_round :=
  if 0 <? ih_pos h then
    let h := set_position h (ih_pos h - 1) in
    b ← rd inp in_pos;
    Some (if negb (b =? 0x00) then Return LZMA_DATA_ERROR h (in_pos + 1) else Again h (in_pos + 1))
  else
    let b := ih_blocks h in
    let r := ih_records h in
    if negb (blocks_size b =? blocks_size r) || negb (uncompressed_sum b =? uncompressed_sum r) || negb (index_list_size b =? index_list_size r)
    then Some (Return LZMA_DATA_ERROR h in_pos)
    else
      cb ← lzma_check_finish W (info_check b) LZMA_CHECK_BEST;
      cr ← lzma_check_finish W (info_check r) LZMA_CHECK_BEST;
      let h := set_infos h (MkInfo (blocks_size b) (uncompressed_sum b) (count b) (index_list_size b) cb)
        (MkInfo (blocks_size r) (uncompressed_sum r) (count r) (index_list_size r) cr) in
      n ← lzma_check_size LZMA_CHECK_BEST;
      x ← rd_bytes (buffer cb) 0 (Z.to_nat n);
      y ← rd_bytes (buffer cr) 0 (Z.to_nat n);
      if negb (bool_decide (x = y)) then Some (Return LZMA_DATA_ERROR h in_pos)
      else
        bs ← rd_bytes inp in_start (Z.to_nat (in_pos - in_start));
        crc ← lzma_crc32 (addr + in_start) bs (ih_crc32 h);
        crc_loop 5 (set_sequence (set_crc32 h crc) SEQ_CRC32) inp in_pos in_size.

Definition hash_round_step (h : lzma_index_hash) (addr : Z) (inp : list Z) (in_start in_pos in_size : Z) : option hash_round :=
  match ih_sequence h with
  | SEQ_BLOCK => b ← rd inp in_pos; Some (if negb (b =? 0x00) then Return LZMA_DATA_ERROR h (in_pos + 1) else Again (set_sequence h SEQ_COUNT) (in_pos + 1))
  | SEQ_COUNT => seq_count h inp in_pos in_size
  | SEQ_UNPADDED => seq_unpadded h inp in_pos in_size
  | SEQ_UNCOMPRESSED => seq_uncompressed h inp in_pos in_size
  | SEQ_PADDING_INIT =>
      s ← index_size_unpadded (count (ih_records h)) (index_list_size (ih_records h));
      seq_padding (set_sequence (set_position h (Z.land (u64 (4 - s)) 3)) SEQ_PADDING) addr inp in_start in_pos in_size
  | SEQ_PADDING => seq_padding h addr inp in_start in_pos in_size
  | SEQ_CRC32 => crc_loop 5 h inp in_pos in_size
  end.

(** [out]: the bytes of this call go into the CRC32. *)
Definition hash_out (ret : lzma_ret) (h : lzma_index_hash) (addr : Z) (inp : list Z) (in_start in_pos : Z) : option (lzma_ret * lzma_index_hash * Z) :=
  bs ← rd_bytes inp in_start (Z.to_nat (in_pos - in_start));
  crc ← lzma_crc32 (addr + in_start) bs (ih_crc32 h);
  Some (ret, set_crc32 h crc, in_pos).

Fixpoint hash_loop (fuel : nat) (h : lzma_index_hash) (addr : Z) (inp : list Z) (in_start in_pos in_size : Z) : option (lzma_ret * lzma_index_hash * Z) :=
  match fuel with
  | O => None
  | S fuel =>
      if in_pos <? in_size then
        r ← hash_round_step h addr inp in_start in_pos in_size;
        match r with
        | Again h in_pos => hash_loop fuel h addr inp in_start in_pos in_size
        | Out ret h in_pos => hash_out ret h addr inp in_start in_pos
        | Return ret h in_pos => Some (ret, h, in_pos)
        end
      else hash_out LZMA_OK h addr inp in_start in_pos
  end.

(** Every round but the last reads a byte. *)
Definition lzma_index_hash_decode (h : lzma_index_hash) (addr : Z) (inp : list Z) (in_pos in_size : Z) : option (lzma_ret * lzma_index_hash * Z) :=
  if in_size <=? in_pos then Some (LZMA_BUF_ERROR, h, in_pos)
  else hash_loop (S (Z.to_nat (in_size - in_pos))) h addr inp in_pos in_pos in_size.
End hash.

(** ** Records *)
Definition ceil4 (n : Z) : Z := (n + 3) / 4 * 4.
Definition record_ok (r : Z * Z) : Prop := UNPADDED_SIZE_MIN <= r.1 <= UNPADDED_SIZE_MAX /\ 0 <= r.2 <= LZMA_VLI_MAX.

Definition sum_of (f : Z * Z -> Z) (rs : list (Z * Z)) : Z := foldr (fun r n => f r + n) 0 rs.
Definition sum_blocks : list (Z * Z) -> Z := sum_of (fun r => ceil4 r.1).
Definition sum_uncompressed : list (Z * Z) -> Z := sum_of (fun r => r.2).
Definition sum_list : list (Z * Z) -> Z := sum_of (fun r => vli_len r.1 + vli_len r.2).
Definition record_bytes (r : Z * Z) : list Z := vli_bytes r.1 ++ vli_bytes r.2.
Definition records_bytes (rs : list (Z * Z)) : list Z := concat (record_bytes <$> rs).
Definition hashed_bytes (rs : list (Z * Z)) : list Z := concat ((fun r => le64 r.1 ++ le64 r.2) <$> rs).

(** The size of the Index of the Blocks. *)
Definition index_len (rs : list (Z * Z)) : Z := ceil4 (1 + vli_len (Z.of_nat (length rs)) + sum_list rs + 4).

(** The limits of a Stream. *)
Definition within (rs : list (Z * Z)) : Prop :=
  sum_blocks rs <= LZMA_VLI_MAX /\ sum_uncompressed rs <= LZMA_VLI_MAX /\ index_len rs <= LZMA_BACKWARD_SIZE_MAX /\
  2 * LZMA_STREAM_HEADER_SIZE + sum_blocks rs + index_len rs <= LZMA_VLI_MAX.

(** What the structure holds after the Records [rs]. *)
Definition info_of (rs : list (Z * Z)) (i : lzma_index_hash_info) : Prop :=
  blocks_size i = sum_blocks rs /\ uncompressed_sum i = sum_uncompressed rs /\ count i = Z.of_nat (length rs) /\ index_list_size i = sum_list rs /\
  checked LZMA_CHECK_BEST (hashed_bytes rs) (info_check i).

Lemma UNPADDED_SIZE_MAX_value : UNPADDED_SIZE_MAX = 2 ^ 63 - 4.
Proof. reflexivity. Qed.

Lemma ceil4_bounds n : n <= ceil4 n < n + 4 /\ ceil4 n mod 4 = 0.
Proof. unfold ceil4. split; [Z.to_euclidean_division_equations; lia | apply Z.mod_mul; lia]. Qed.

Lemma vli_ceil4_value n : 0 <= n <= LZMA_VLI_MAX -> vli_ceil4 n = Some (ceil4 n).
Proof.
  intros Hn. unfold vli_ceil4, assert. rewrite (proj2 (Z.leb_le _ _)) by lia. change LZMA_VLI_MAX with (2 ^ 63 - 1) in Hn. cbn [mbind option_bind].
  rewrite u64_small by lia. change 3 with (Z.ones 2) at 2. rewrite align_down by lia. done.
Qed.

Lemma sum_of_app f rs1 rs2 : sum_of f (rs1 ++ rs2) = sum_of f rs1 + sum_of f rs2.
Proof. unfold sum_of. induction rs1 as [| r rs1 IH]; cbn [app foldr]; [done | rewrite IH; lia]. Qed.

Lemma sum_of_snoc f rs r : sum_of f (rs ++ [r]) = sum_of f rs + f r.
Proof. rewrite sum_of_app. unfold sum_of. cbn [foldr]. lia. Qed.

Lemma sum_of_nonneg f rs : Forall record_ok rs -> (forall r, record_ok r -> 0 <= f r) -> 0 <= sum_of f rs.
Proof. intros H Hf. induction H as [| r rs Hr _ IH]; cbn; [done |]. specialize (Hf r Hr). unfold sum_of in IH. lia. Qed.

Lemma record_ok_ranges r : record_ok r -> 0 <= r.1 <= LZMA_VLI_MAX /\ 0 <= r.2 <= LZMA_VLI_MAX /\ 0 <= ceil4 r.1 <= LZMA_VLI_MAX /\ 2 <= vli_len r.1 + vli_len r.2 <= 18.
Proof.
  intros [H1 H2]. pose proof (ceil4_bounds r.1) as Hc. pose proof UNPADDED_SIZE_MAX_value as Em. unfold UNPADDED_SIZE_MIN in H1.
  assert (0 <= r.1 <= LZMA_VLI_MAX) as H by (change LZMA_VLI_MAX with (2 ^ 63 - 1); lia).
  pose proof (vli_len_range r.1 H). pose proof (vli_len_range r.2 H2). unfold LZMA_VLI_BYTES_MAX in *. change LZMA_VLI_MAX with (2 ^ 63 - 1) in *.
  split; [lia |]. split; [lia |]. split; [| lia]. unfold ceil4 in *. Z.to_euclidean_division_equations. lia.
Qed.

Lemma sums_ok rs : Forall record_ok rs -> 0 <= sum_blocks rs /\ 0 <= sum_uncompressed rs /\ 2 * Z.of_nat (length rs) <= sum_list rs.
Proof.
  intros H. split; [apply sum_of_nonneg; [done | intros r Hr; by apply record_ok_ranges] |].
  split; [apply sum_of_nonneg; [done | intros r Hr; apply (record_ok_ranges r Hr)] |].
  unfold sum_list, sum_of. induction H as [| r rs Hr _ IH]; cbn [foldr length]; [done |]. pose proof (record_ok_ranges r Hr). lia.
Qed.

Lemma record_bytes_bytes r : record_ok r -> bytes (record_bytes r).
Proof. intros Hr. pose proof (record_ok_ranges r Hr). apply Forall_app. split; apply vli_bytes_bytes; lia. Qed.

Lemma records_bytes_bytes rs : Forall record_ok rs -> bytes (records_bytes rs).
Proof. intros H. unfold records_bytes. induction H as [| r rs Hr _ IH]; cbn; [constructor |]. apply Forall_app. split; [by apply record_bytes_bytes | done]. Qed.

Lemma records_bytes_length rs : Z.of_nat (length (records_bytes rs)) = sum_list rs.
Proof.
  unfold records_bytes, sum_list, sum_of. induction rs as [| r rs IH]; cbn [fmap list_fmap concat foldr length]; [done |].
  rewrite length_app, Nat2Z.inj_add, IH. unfold record_bytes, vli_len. rewrite length_app. lia.
Qed.

Lemma le64_bytes x : bytes (le64 x).
Proof. apply Forall_app. split; apply le32_bytes. Qed.

Lemma le64_length x : length (le64 x) = 8%nat.
Proof. done. Qed.

Lemma hashed_bytes_length rs : length (hashed_bytes rs) = (16 * length rs)%nat.
Proof. unfold hashed_bytes. induction rs as [| r rs IH]; cbn [fmap list_fmap concat length]; [done |]. rewrite length_app, IH, length_app, !le64_length. lia. Qed.

Lemma hashed_bytes_snoc rs r : hashed_bytes (rs ++ [r]) = hashed_bytes rs ++ le64 r.1 ++ le64 r.2.
Proof. unfold hashed_bytes. rewrite fmap_app, concat_app. cbn [fmap list_fmap concat]. by rewrite app_nil_r. Qed.

Lemma records_bytes_app rs1 rs2 : records_bytes (rs1 ++ rs2) = records_bytes rs1 ++ records_bytes rs2.
Proof. unfold records_bytes. by rewrite fmap_app, concat_app. Qed.

(** The bytes of Records tell the Records. *)
Lemma records_prefix rs1 rs2 x y : Forall record_ok rs1 -> Forall record_ok rs2 -> (length rs1 <= length rs2)%nat ->
  records_bytes rs1 ++ x = records_bytes rs2 ++ y -> exists rs, rs2 = rs1 ++ rs /\ x = records_bytes rs ++ y.
Proof.
  revert rs2. induction rs1 as [| r1 rs1 IH]; intros rs2 H1 H2 Hl E; [by exists rs2 |].
  destruct rs2 as [| r2 rs2]; [cbn in Hl; lia |]. apply list.Forall_cons in H1 as [Hr1 H1]. apply list.Forall_cons in H2 as [Hr2 H2].
  unfold records_bytes in E. cbn [fmap list_fmap concat] in E. unfold record_bytes in E at 1 3. rewrite <- !app_assoc in E.
  pose proof (record_ok_ranges r1 Hr1). pose proof (record_ok_ranges r2 Hr2).
  apply vli_bytes_prefix in E as [E1 E]; [| lia | lia]. apply vli_bytes_prefix in E as [E2 E]; [| lia | lia].
  destruct (IH rs2 H1 H2) as (rs & -> & ->); [cbn in Hl; lia | exact E |]. exists rs. split; [| done]. destruct r1, r2. cbn in *. by subst.
Qed.

(** ** Adding a Record *)
Section adding.
  Context (W : list Z) (HW : length W = 16%nat).

Lemma hash_append_ok rs i r : Forall record_ok rs -> record_ok r -> info_of rs i -> sum_blocks rs <= LZMA_VLI_MAX ->
  sum_uncompressed rs <= LZMA_VLI_MAX -> sum_list rs <= LZMA_BACKWARD_SIZE_MAX ->
  exists i', hash_append W i r.1 r.2 = Some i' /\ info_of (rs ++ [r]) i'.
Proof.
  intros Hrs Hr (I1 & I2 & I3 & I4 & I5) S1 S2 S3. pose proof (record_ok_ranges r Hr) as (R1 & R2 & R3 & R4). pose proof (sums_ok rs Hrs) as (N1 & N2 & N3).
  unfold hash_append. rewrite vli_ceil4_value by done. cbn [mbind option_bind]. rewrite !vli_size_spec, !(proj2 (Z.ltb_ge _ _)) by lia. cbn [mbind option_bind].
  destruct (update_checked W HW LZMA_CHECK_BEST (0, le64 r.1 ++ le64 r.2) (hashed_bytes rs) (info_check i)) as (c & -> & Hc);
    [apply Forall_app; split; apply le64_bytes | done |]. cbn [mbind option_bind].
  eexists. split; [reflexivity |]. unfold info_of. cbn [blocks_size uncompressed_sum count index_list_size info_check]. rewrite I1, I2, I3, I4.
  change LZMA_VLI_MAX with (2 ^ 63 - 1) in *. change LZMA_BACKWARD_SIZE_MAX with (2 ^ 34) in *.
  unfold sum_blocks, sum_uncompressed, sum_list in *. rewrite !sum_of_snoc, hashed_bytes_snoc, length_app. cbn [length].
  rewrite (u32_small (_ + _)), !u64_small by lia. split; [lia |]. split; [lia |]. split; [lia |]. split; [lia | exact Hc].
Qed.

Lemma index_size_value rs : Forall record_ok rs -> sum_list rs <= 2 * LZMA_BACKWARD_SIZE_MAX ->
  index_size_unpadded (Z.of_nat (length rs)) (sum_list rs) = Some (1 + vli_len (Z.of_nat (length rs)) + sum_list rs + 4) /\
  index_size (Z.of_nat (length rs)) (sum_list rs) = Some (index_len rs).
Proof.
  intros Hrs Hs. pose proof (sums_ok rs Hrs) as (_ & _ & N3). change LZMA_BACKWARD_SIZE_MAX with (2 ^ 34) in Hs.
  assert (0 <= Z.of_nat (length rs) <= LZMA_VLI_MAX) as Hl by (change LZMA_VLI_MAX with (2 ^ 63 - 1); lia). pose proof (vli_len_range _ Hl) as Hv. unfold LZMA_VLI_BYTES_MAX in Hv.
  unfold index_size, index_size_unpadded. rewrite vli_size_spec, (proj2 (Z.ltb_ge _ _)) by lia. cbn [mbind option_bind].
  rewrite (u64_small (1 + _ + _)), u64_small by lia. split; [done |]. apply vli_ceil4_value. change LZMA_VLI_MAX with (2 ^ 63 - 1). lia.
Qed.

(** One more Block. *)
Lemma append_ok h rs r : ih_sequence h = SEQ_BLOCK -> Forall record_ok rs -> within rs -> info_of rs (ih_blocks h) -> 0 <= r.1 -> 0 <= r.2 ->
  exists ret h', lzma_index_hash_append W h r.1 r.2 = Some (ret, h') /\
    (record_ok r -> exists i, h' = set_infos h i (ih_records h) /\ info_of (rs ++ [r]) i /\ (ret = LZMA_OK <-> within (rs ++ [r])) /\ (ret = LZMA_OK \/ ret = LZMA_DATA_ERROR)) /\
    (~ record_ok r -> ret = LZMA_PROG_ERROR /\ h' = h).
Proof.
  intros Hq Hrs (L1 & L2 & L3 & L4) Hi H1 H2. unfold lzma_index_hash_append. rewrite bool_decide_eq_true_2 by done. cbn [negb orb].
  destruct ((r.1 <? UNPADDED_SIZE_MIN) || (UNPADDED_SIZE_MAX <? r.1) || (LZMA_VLI_MAX <? r.2)) eqn:E.
  { do 2 eexists. split; [reflexivity |]. split; [| done]. intros [R1 R2]. rewrite !orb_true_iff, !Z.ltb_lt in E. lia. }
  rewrite !orb_false_iff, !Z.ltb_ge in E. assert (record_ok r) as Hr by (split; lia).
  pose proof (ceil4_bounds (1 + vli_len (Z.of_nat (length rs)) + sum_list rs + 4)) as Hc. fold (index_len rs) in Hc.
  pose proof (sums_ok rs Hrs) as (N1 & N2 & N3). assert (0 <= vli_len (Z.of_nat (length rs))) as Hv by (unfold vli_len; lia).
  destruct (hash_append_ok rs (ih_blocks h) r Hrs Hr Hi L1 L2 ltac:(lia)) as (i & -> & Hi'). cbn [mbind option_bind].
  assert (Forall record_ok (rs ++ [r])) as Hrs' by (apply Forall_app; split; [done | by constructor]). pose proof Hi' as (I1 & I2 & I3 & I4 & I5).
  assert (sum_list (rs ++ [r]) <= 2 * LZMA_BACKWARD_SIZE_MAX) as Hs2.
  { unfold sum_list in *. rewrite sum_of_snoc. pose proof (record_ok_ranges r Hr). change LZMA_BACKWARD_SIZE_MAX with (2 ^ 34) in *. lia. }
  destruct (index_size_value _ Hrs' Hs2) as [_ Esz]. rewrite I1, I2, I3, I4. unfold index_stream_size. rewrite Esz. cbn [mbind option_bind].
  pose proof (sums_ok _ Hrs') as (M1 & M2 & M3). unfold within.
  pose proof (ceil4_bounds (1 + vli_len (Z.of_nat (length (rs ++ [r]))) + sum_list (rs ++ [r]) + 4)) as Hc2. fold (index_len (rs ++ [r])) in Hc2.
  assert (0 <= vli_len (Z.of_nat (length (rs ++ [r])))) as Hv2 by (unfold vli_len; lia).
  destruct (Z.ltb_spec LZMA_VLI_MAX (sum_blocks (rs ++ [r]))); cbn [orb]; [do 2 eexists; split; [reflexivity |]; split; [| done]; intros _; exists i; split_and!; try done; [split; [done | lia] | by right] |].
  destruct (Z.ltb_spec LZMA_VLI_MAX (sum_uncompressed (rs ++ [r]))); [do 2 eexists; split; [reflexivity |]; split; [| done]; intros _; exists i; split_and!; try done; [split; [done | lia] | by right] |].
  destruct (Z.ltb_spec LZMA_BACKWARD_SIZE_MAX (index_len (rs ++ [r]))); [do 2 eexists; split; [reflexivity |]; split; [| done]; intros _; exists i; split_and!; try done; [split; [done | lia] | by right] |].
  change LZMA_VLI_MAX with (2 ^ 63 - 1) in *. change LZMA_BACKWARD_SIZE_MAX with (2 ^ 34) in *. unfold LZMA_STREAM_HEADER_SIZE.
  rewrite (u64_small (12 + _ + _)), u64_small by lia. do 2 eexists. split; [reflexivity |]. split; [| done]. intros _. exists i. split; [done |]. split; [done |].
  destruct (Z.ltb_spec (2 ^ 63 - 1) (12 + sum_blocks (rs ++ [r]) + index_len (rs ++ [r]) + 12)); (split; [| by (left + right)]); (split; [try done; intros _; lia | try done; lia]).
Qed.
End adding.

(** ** Reading the Index *)

(** The Index of the Records. *)
Definition index_start (n : nat) : list Z := 0 :: vli_bytes (Z.of_nat n).
Definition pad_len (rs : list (Z * Z)) : Z := index_len rs - (1 + vli_len (Z.of_nat (length rs)) + sum_list rs + 4).
Definition index_body (rs : list (Z * Z)) : list Z := index_start (length rs) ++ records_bytes rs ++ replicate (Z.to_nat (pad_len rs)) 0.
Definition index_bytes (rs : list (Z * Z)) : list Z := index_body rs ++ le32 (crc_of (index_body rs)).

Lemma pad_len_range rs : 0 <= pad_len rs <= 3.
Proof. unfold pad_len, index_len. pose proof (ceil4_bounds (1 + vli_len (Z.of_nat (length rs)) + sum_list rs + 4)). lia. Qed.

(** What the decoder can tell of two lists of Records. *)
Definition alike (rs1 rs2 : list (Z * Z)) : Prop :=
  length rs1 = length rs2 /\ sum_blocks rs1 = sum_blocks rs2 /\ sum_uncompressed rs1 = sum_uncompressed rs2 /\ sum_list rs1 = sum_list rs2 /\
  Sha256Spec.sha256 (hashed_bytes rs1) = Sha256Spec.sha256 (hashed_bytes rs2).

Section reading.
  Context (W : list Z) (HW : length W = 16%nat).
  (** The Blocks. *)
  Context (rs0 : list (Z * Z)) (Hrs0 : Forall record_ok rs0) (Hw0 : within rs0).

(** The Records read so far. *)
Definition good (done : list (Z * Z)) (h : lzma_index_hash) : Prop :=
  Forall record_ok done /\ info_of done (ih_records h) /\
  sum_blocks done <= sum_blocks rs0 /\ sum_uncompressed done <= sum_uncompressed rs0 /\ sum_list done <= sum_list rs0.

Definition part_read (part : list Z) (vli pos : Z) : Prop := partial part (if pos =? 0 then 0 else vli) pos.

(** The bytes [bs] were read. *)
Definition reading (h : lzma_index_hash) (bs : list Z) : Prop :=
  info_of rs0 (ih_blocks h) /\
  match ih_sequence h with
  | SEQ_BLOCK => bs = [] /\ ih_pos h = 0 /\ good [] h
  | SEQ_COUNT => exists part, bs = 0 :: part /\ part_read part (remaining h) (ih_pos h) /\ good [] h
  | SEQ_UNPADDED => exists done part, bs = index_start (length rs0) ++ records_bytes done ++ part /\ part_read part (unpadded_size h) (ih_pos h) /\
      good done h /\ remaining h = Z.of_nat (length rs0) - Z.of_nat (length done) /\ 0 < remaining h
  | SEQ_UNCOMPRESSED => exists done part, bs = index_start (length rs0) ++ records_bytes done ++ vli_bytes (unpadded_size h) ++ part /\
      part_read part (uncompressed_size h) (ih_pos h) /\ UNPADDED_SIZE_MIN <= unpadded_size h <= UNPADDED_SIZE_MAX /\
      good done h /\ remaining h = Z.of_nat (length rs0) - Z.of_nat (length done) /\ 0 < remaining h
  | SEQ_PADDING_INIT => exists done, bs = index_start (length rs0) ++ records_bytes done /\ good done h /\ length done = length rs0 /\ ih_pos h = 0
  | SEQ_PADDING => exists done, bs = index_start (length rs0) ++ records_bytes done ++ replicate (Z.to_nat (pad_len done - ih_pos h)) 0 /\
      0 <= ih_pos h <= pad_len done /\ good done h /\ length done = length rs0
  | SEQ_CRC32 => False
  end.

(** The CRC32 is being read. *)
Definition ending (h : lzma_index_hash) (bs : list Z) : Prop :=
  ih_sequence h = SEQ_CRC32 /\ exists done, Forall record_ok done /\ alike done rs0 /\ 0 <= ih_pos h < 4 /\ ih_crc32 h = crc_of (index_body done) /\
    bs = index_body done ++ take (Z.to_nat (ih_pos h)) (le32 (ih_crc32 h)).

(** No Index of the Blocks begins with these bytes. *)
Definition never (bs : list Z) : Prop := forall rest, bs ++ rest <> index_bytes rs0.

(** Between two calls. *)
Definition hash_state (h : lzma_index_hash) (bs : list Z) : Prop := reading h bs /\ ih_crc32 h = crc_of bs \/ ending h bs.

(** What a call answers. *)
Definition hash_answer (in_size : Z) (ret : lzma_ret) (h : lzma_index_hash) (bs : list Z) (p : Z) : Prop :=
  (ret = LZMA_OK /\ p = in_size /\ hash_state h bs) \/
  (ret = LZMA_STREAM_END /\ exists done, Forall record_ok done /\ alike done rs0 /\ bs = index_bytes done) \/
  (ret = LZMA_DATA_ERROR /\ never bs).

Definition count_of : Z := Z.of_nat (length rs0).

Lemma count_range : 0 <= count_of <= LZMA_VLI_MAX.
Proof.
  unfold count_of. pose proof (sums_ok rs0 Hrs0) as (_ & _ & H). destruct Hw0 as (_ & _ & Hl & _).
  pose proof (ceil4_bounds (1 + vli_len (Z.of_nat (length rs0)) + sum_list rs0 + 4)) as Hc. fold (index_len rs0) in Hc.
  assert (0 <= vli_len (Z.of_nat (length rs0))) by (unfold vli_len; lia). change LZMA_BACKWARD_SIZE_MAX with (2 ^ 34) in Hl. change LZMA_VLI_MAX with (2 ^ 63 - 1). lia.
Qed.

Lemma list_range : sum_list rs0 <= LZMA_BACKWARD_SIZE_MAX.
Proof.
  destruct Hw0 as (_ & _ & Hl & _). pose proof (ceil4_bounds (1 + vli_len (Z.of_nat (length rs0)) + sum_list rs0 + 4)) as Hc. fold (index_len rs0) in Hc.
  assert (0 <= vli_len (Z.of_nat (length rs0))) by (unfold vli_len; lia). lia.
Qed.

Lemma never_start bs : (forall x y, bs ++ x <> vli_bytes count_of ++ y) -> never (0 :: bs).
Proof. intros H rest E. unfold index_bytes, index_body, index_start in E. cbn [app] in E. injection E as E. rewrite <- !app_assoc in E. by apply H in E. Qed.

Lemma never_record done bs : Forall record_ok done -> (length done < length rs0)%nat ->
  (forall r x y, record_ok r -> (exists more, rs0 = done ++ r :: more) -> bs ++ x <> record_bytes r ++ y) ->
  never (index_start (length rs0) ++ records_bytes done ++ bs).
Proof.
  intros Hd Hl H rest E. unfold index_bytes, index_body in E. rewrite <- !app_assoc in E. apply app_inv_head in E.
  apply records_prefix in E as (rs & Ers & E); [| done | done | lia]. destruct rs as [| r rs]; [rewrite Ers, app_nil_r in Hl; lia |].
  unfold records_bytes in E. cbn [fmap list_fmap concat] in E. rewrite <- app_assoc in E.
  apply (H r rest _) in E; [done | | by eexists]. rewrite Ers in Hrs0. apply Forall_app in Hrs0 as [_ Hr]. by apply list.Forall_cons in Hr as [Hr _].
Qed.

(** After all Records. *)
Lemma never_end done bs : Forall record_ok done -> length done = length rs0 ->
  (done = rs0 -> forall x, bs ++ x <> replicate (Z.to_nat (pad_len rs0)) 0 ++ le32 (crc_of (index_body rs0))) ->
  never (index_start (length rs0) ++ records_bytes done ++ bs).
Proof.
  intros Hd Hl H rest E. unfold index_bytes in E. unfold index_body in E at 1. rewrite <- !app_assoc in E. apply app_inv_head in E.
  apply records_prefix in E as (rs & Ers & E); [| done | done | lia].
  assert (rs = []) as -> by (apply (f_equal length) in Ers; rewrite length_app in Ers; destruct rs; [done | cbn in Ers; lia]). rewrite app_nil_r in Ers.
  unfold records_bytes in E. cbn in E. by apply (H (eq_sym Ers)) in E.
Qed.

Lemma partial_part_read part v p : partial part v p -> part <> [] -> part_read part v p.
Proof. intros Hp Hne. unfold part_read. destruct Hp as (H1 & H2 & H3 & H4). destruct part; [done |]. rewrite (proj2 (Z.eqb_neq p 0)) by (cbn in H2; lia). by split. Qed.

Lemma part_read_nil v : part_read [] v 0.
Proof. apply partial_nil. Qed.

Section call.
  Context (bs0 inp : list Z) (in_start in_size addr : Z).
  Context (Hb : bytes inp) (H0 : 0 <= in_start) (Hs : in_size <= Z.of_nat (length inp)).

Definition so_far (p : Z) : list Z := bs0 ++ seg inp in_start p.

Lemma so_far_app p q : in_start <= p -> p <= q -> q <= in_size -> so_far q = so_far p ++ seg inp p q.
Proof. intros. unfold so_far. rewrite <- app_assoc. f_equal. apply seg_app; lia. Qed.

(** What a round makes of the bytes it reads. *)
Definition round_ok (in_pos : Z) (h : lzma_index_hash) (r : hash_round) : Prop :=
  match r with
  | Again h' p => in_pos < p <= in_size /\ reading h' (so_far p) /\ ih_crc32 h' = ih_crc32 h
  | Out ret h' p => in_pos < p <= in_size /\ ih_crc32 h' = ih_crc32 h /\
      ((ret = LZMA_OK /\ p = in_size /\ reading h' (so_far p)) \/ (ret = LZMA_DATA_ERROR /\ never (so_far p)))
  | Return ret h' p => in_pos <= p <= in_size /\ hash_answer in_size ret h' (so_far p) p /\ (ret = LZMA_OK -> ending h' (so_far p))
  end.

(** A piece of an integer after [pre]. *)
Lemma read_vli pre part vli pos in_pos : in_start <= in_pos < in_size -> so_far in_pos = pre ++ part -> part_read part vli pos ->
  exists ret v p e part', lzma_vli_decode vli (Some pos) inp in_pos in_size = Some (ret, v, Some p, e) /\ in_pos < e <= in_size /\ so_far e = pre ++ part' /\
    ((ret = LZMA_STREAM_END /\ part' = vli_bytes v /\ 0 <= v <= LZMA_VLI_MAX) \/ (ret = LZMA_OK /\ part_read part' v p /\ e = in_size) \/
     (ret = LZMA_DATA_ERROR /\ not_vli part')).
Proof.
  intros Hi Ebs Hp. destruct (vli_decode_stream vli pos part inp in_pos in_size Hb Hp ltac:(lia) Hs) as (ret & v & p & e & -> & He & Hm).
  exists ret, v, p, e, (part ++ seg inp in_pos e). split; [done |]. split; [done |]. split; [rewrite (so_far_app in_pos e), Ebs by lia; by rewrite <- app_assoc |].
  destruct Hm as [Hm | [(-> & Hpart & Hne & ->) | Hm]]; [by left | right; left | by right; right]. split; [done |]. split; [by apply partial_part_read | done].
Qed.

Lemma seq_count_ok h in_pos : in_start <= in_pos < in_size -> ih_sequence h = SEQ_COUNT -> reading h (so_far in_pos) ->
  exists r, seq_count h inp in_pos in_size = Some r /\ round_ok in_pos h r.
Proof.
  intros Hi Hq (Hblk & Hrd). rewrite Hq in Hrd. destruct Hrd as (part & Ebs & Hp & Hg). unfold seq_count.
  destruct (read_vli [0] part _ _ in_pos Hi Ebs Hp) as (ret & v & p & e & part' & -> & He & Esf & Hm). cbn [mbind option_bind default from_option id app] in *.
  destruct Hm as [(-> & -> & Hv) | [(-> & Hpart & ->) | (-> & Hn)]].
  - rewrite bool_decide_eq_true_2 by done. cbn [negb remaining set_position set_remaining ih_blocks].
    pose proof Hblk as (_ & _ & Ec & _). rewrite Ec. destruct (Z.eqb_spec v (Z.of_nat (length rs0))) as [-> | Hne]; cbn [negb].
    + eexists. split; [reflexivity |]. unfold round_ok. split; [lia |]. split; [| done]. split; [done |]. cbn [ih_sequence set_sequence].
      destruct (Z.eqb_spec (Z.of_nat (length rs0)) 0) as [E0 | E0]; cbn.
      * exists []. rewrite Esf. split; [by rewrite app_nil_r |]. split; [exact Hg |]. split; [cbn; lia | done].
      * exists [], []. rewrite Esf. split; [by rewrite !app_nil_r |]. split; [apply part_read_nil |]. split; [exact Hg |]. cbn. lia.
    + eexists. split; [reflexivity |]. split; [lia |]. split; [| done]. right. right. split; [done |]. rewrite Esf. apply never_start. intros x y E2.
      apply vli_bytes_prefix in E2 as [E2 _]; [done | done | exact count_range].
  - rewrite bool_decide_eq_false_2 by done. cbn [negb]. eexists. split; [reflexivity |]. split; [lia |]. split; [done |].
    left. split; [done |]. split; [done |]. split; [done |]. cbn [ih_sequence set_position set_remaining]. rewrite Hq. by exists part'.
  - rewrite bool_decide_eq_false_2 by done. cbn [negb]. eexists. split; [reflexivity |]. split; [lia |]. split; [done |]. right. split; [done |].
    rewrite Esf. apply never_start. intros x y. apply Hn, count_range.
Qed.

Lemma seq_unpadded_ok h in_pos : in_start <= in_pos < in_size -> ih_sequence h = SEQ_UNPADDED -> reading h (so_far in_pos) ->
  exists r, seq_unpadded h inp in_pos in_size = Some r /\ round_ok in_pos h r.
Proof.
  intros Hi Hq (Hblk & Hrd). rewrite Hq in Hrd. destruct Hrd as (done & part & Ebs & Hp & Hg & Hrem & Hpos). unfold seq_unpadded. rewrite app_assoc in Ebs.
  destruct (read_vli _ part _ _ in_pos Hi Ebs Hp) as (ret & v & p & e & part' & -> & He & Esf & Hm). rewrite <- app_assoc in Esf. cbn [mbind option_bind default from_option id] in *.
  assert (length done < length rs0)%nat as Hlen by lia. pose proof Hg as (Hdone & _).
  destruct Hm as [(-> & -> & Hv) | [(-> & Hpart & ->) | (-> & Hn)]].
  - rewrite bool_decide_eq_true_2 by done. cbn [negb unpadded_size set_position set_record].
    destruct ((v <? UNPADDED_SIZE_MIN) || (UNPADDED_SIZE_MAX <? v)) eqn:Ev.
    + eexists. split; [reflexivity |]. split; [lia |]. split; [| done]. right. right. split; [done |]. rewrite Esf. apply never_record; [done | done |].
      intros r x y Hr _ E2. unfold record_bytes in E2. rewrite <- app_assoc in E2. pose proof (record_ok_ranges r Hr).
      apply vli_bytes_prefix in E2 as [-> _]; [| done | lia]. destruct Hr as [Hr _]. rewrite orb_true_iff, !Z.ltb_lt in Ev. lia.
    + rewrite orb_false_iff, !Z.ltb_ge in Ev. eexists. split; [reflexivity |]. unfold round_ok. split; [lia |]. split; [| done]. split; [done |]. cbn [ih_sequence set_sequence].
      exists done, []. cbn. rewrite Esf, app_nil_r. split; [done |]. split; [apply part_read_nil |]. split; [lia |]. done.
  - rewrite bool_decide_eq_false_2 by done. cbn [negb]. eexists. split; [reflexivity |]. split; [lia |]. split; [done |].
    left. split; [done |]. split; [done |]. split; [done |]. cbn [ih_sequence set_position set_record]. rewrite Hq. by exists done, part'.
  - rewrite bool_decide_eq_false_2 by done. cbn [negb]. eexists. split; [reflexivity |]. split; [lia |]. split; [done |]. right. split; [done |].
    rewrite Esf. apply never_record; [done | done |]. intros r x y Hr _. unfold record_bytes. rewrite <- app_assoc. apply Hn. by apply record_ok_ranges.
Qed.

Lemma sum_of_le f rs1 rs2 : Forall record_ok (rs1 ++ rs2) -> (forall r, record_ok r -> 0 <= f r) -> sum_of f rs1 <= sum_of f (rs1 ++ rs2).
Proof. intros H Hf. apply Forall_app in H as [_ H]. rewrite sum_of_app. pose proof (sum_of_nonneg f rs2 H Hf). lia. Qed.

(** The sums of the first Records of the Blocks. *)
Lemma first_sums done r more : rs0 = done ++ r :: more ->
  sum_blocks (done ++ [r]) <= sum_blocks rs0 /\ sum_uncompressed (done ++ [r]) <= sum_uncompressed rs0 /\ sum_list (done ++ [r]) <= sum_list rs0.
Proof.
  intros E. assert (rs0 = (done ++ [r]) ++ more) as E2 by (by rewrite <- app_assoc). pose proof Hrs0 as H. rewrite E2 in H |- *.
  split; [| split]; apply sum_of_le; try done; intros r2 Hr2; pose proof (record_ok_ranges r2 Hr2); lia.
Qed.

Lemma seq_uncompressed_ok h in_pos : in_start <= in_pos < in_size -> ih_sequence h = SEQ_UNCOMPRESSED -> reading h (so_far in_pos) ->
  exists r, seq_uncompressed W h inp in_pos in_size = Some r /\ round_ok in_pos h r.
Proof.
  intros Hi Hq (Hblk & Hrd). rewrite Hq in Hrd. destruct Hrd as (done & part & Ebs & Hp & Hu & Hg & Hrem & Hpos). unfold seq_uncompressed. rewrite !app_assoc in Ebs.
  destruct (read_vli _ part _ _ in_pos Hi Ebs Hp) as (ret & v & p & e & part' & -> & He & Esf & Hm). rewrite <- !app_assoc in Esf. cbn [mbind option_bind default from_option id] in *.
  assert (length done < length rs0)%nat as Hlen by lia. pose proof Hg as (Hdone & Hinfo & S1 & S2 & S3).
  destruct Hm as [(-> & -> & Hv) | [(-> & Hpart & ->) | (-> & Hn)]].
  - rewrite bool_decide_eq_true_2 by done. cbn [negb unpadded_size uncompressed_size set_position set_record set_infos ih_records ih_blocks remaining set_remaining].
    set (r := (unpadded_size h, v)). assert (record_ok r) as Hr by (split; cbn; lia). pose proof Hw0 as (L1 & L2 & _). pose proof list_range as L3.
    destruct (hash_append_ok W HW done (ih_records h) r Hdone Hr Hinfo ltac:(lia) ltac:(lia) ltac:(lia)) as (i & Ei & Hi'). cbn [r fst snd] in Ei. rewrite Ei. cbn [mbind option_bind].
    pose proof Hi' as (I1 & I2 & I3 & I4 & _). pose proof Hblk as (B1 & B2 & B3 & B4 & _). rewrite I1, I2, I4, B1, B2, B4.
    destruct ((sum_blocks rs0 <? sum_blocks (done ++ [r])) || (sum_uncompressed rs0 <? sum_uncompressed (done ++ [r])) || (sum_list rs0 <? sum_list (done ++ [r]))) eqn:Esum.
    + eexists. split; [reflexivity |]. split; [lia |]. split; [| done]. right. right. split; [done |]. rewrite Esf. apply never_record; [done | done |].
      intros r2 x y Hr2 (more & Em) E2. unfold record_bytes in E2. rewrite <- !app_assoc in E2. pose proof (record_ok_ranges r Hr). pose proof (record_ok_ranges r2 Hr2).
      cbn [r fst snd] in *. apply vli_bytes_prefix in E2 as [E2 E3]; [| lia | lia]. apply vli_bytes_prefix in E3 as [E3 _]; [| lia | lia].
      assert (r2 = r) as -> by (destruct r2; cbn in *; by subst). pose proof (first_sums done r more Em). rewrite !orb_true_iff, !Z.ltb_lt in Esum. lia.
    + rewrite !orb_false_iff, !Z.ltb_ge in Esum. pose proof count_range as Hcr. unfold count_of in Hcr. change LZMA_VLI_MAX with (2 ^ 63 - 1) in Hcr.
      assert (u64 (remaining h - 1) = remaining h - 1) as Eu by (apply u64_small; lia). rewrite Eu.
      eexists. split; [reflexivity |]. unfold round_ok. split; [lia |]. split; [| done]. split; [exact Hblk |]. cbn [ih_sequence set_sequence].
      assert (good (done ++ [r]) (set_infos h (ih_blocks h) i)) as Hg'.
      { split; [apply Forall_app; split; [done | by constructor] |]. split; [exact Hi' |]. lia. }
      assert (so_far e = index_start (length rs0) ++ records_bytes (done ++ [r])) as Esf2.
      { rewrite Esf, records_bytes_app. unfold records_bytes at 3. cbn [fmap list_fmap concat]. unfold record_bytes. cbn [r fst snd]. by rewrite app_nil_r. }
      destruct (Z.eqb_spec (remaining h - 1) 0) as [E0 | E0]; cbn.
      * exists (done ++ [r]). split; [exact Esf2 |]. split; [exact Hg' |]. rewrite length_app. cbn. split; [lia | done].
      * exists (done ++ [r]), []. rewrite app_nil_r. split; [exact Esf2 |]. split; [apply part_read_nil |]. split; [exact Hg' |]. rewrite length_app. cbn. lia.
  - rewrite bool_decide_eq_false_2 by done. cbn [negb]. eexists. split; [reflexivity |]. split; [lia |]. split; [done |].
    left. split; [done |]. split; [done |]. split; [done |]. cbn [ih_sequence set_position set_record]. rewrite Hq. by exists done, part'.
  - rewrite bool_decide_eq_false_2 by done. cbn [negb]. eexists. split; [reflexivity |]. split; [lia |]. split; [done |]. right. split; [done |].
    rewrite Esf. apply never_record; [done | done |]. intros r x y Hr _ E2. unfold record_bytes in E2. rewrite <- !app_assoc in E2. pose proof (record_ok_ranges r Hr) as (R1 & R2 & _).
    assert (0 <= unpadded_size h <= LZMA_VLI_MAX) as Hur by (unfold UNPADDED_SIZE_MIN in Hu; rewrite UNPADDED_SIZE_MAX_value in Hu; change LZMA_VLI_MAX with (2 ^ 63 - 1); lia).
    apply vli_bytes_prefix in E2 as [_ E2]; [| done | done]. by apply (Hn r.2) in E2.
Qed.

Lemma le32_byte x i : 0 <= i < 4 -> le32 x !! Z.to_nat i = Some (Z.land (Z.shiftr x (i * 8)) 0xFF).
Proof.
  intros Hi. assert (forall y, u8 y = Z.land y 0xFF) as H by (intros y; change 0xFF with (Z.ones 8); by rewrite Z.land_ones by lia).
  unfold le32. rewrite !H. assert (i = 0 \/ i = 1 \/ i = 2 \/ i = 3) as [-> | [-> | [-> | ->]]] by lia; cbn -[Z.land Z.shiftr]; by rewrite ?Z.shiftr_0_r.
Qed.

Lemma crc_loop_ok fuel h in_pos done : in_start <= in_pos <= in_size -> ih_sequence h = SEQ_CRC32 -> Forall record_ok done -> alike done rs0 ->
  0 <= ih_pos h < 4 -> 4 - ih_pos h < Z.of_nat fuel -> ih_crc32 h = crc_of (index_body done) ->
  so_far in_pos = index_body done ++ take (Z.to_nat (ih_pos h)) (le32 (ih_crc32 h)) ->
  exists ret h' p, crc_loop fuel h inp in_pos in_size = Some (Return ret h' p) /\ in_pos <= p <= in_size /\ hash_answer in_size ret h' (so_far p) p /\
    (ret = LZMA_OK -> ending h' (so_far p)).
Proof.
  revert h in_pos. induction fuel as [| fuel IH]; intros h in_pos Hi Hq Hd Ha Hp Hf Hc Ebs; [lia |]. cbn [crc_loop].
  assert (ending h (so_far in_pos)) as Hend by (split; [done |]; by exists done).
  destruct (Z.eqb_spec in_pos in_size) as [E | E].
  - do 3 eexists. split; [reflexivity |]. split; [lia |]. split; [| done]. left. split; [done |]. split; [done |]. by right.
  - destruct (rd_some inp in_pos Hb ltac:(lia)) as (b & Er & Hbb). rewrite Er. cbn [mbind option_bind].
    pose proof (so_far_app in_pos (in_pos + 1) ltac:(lia) ltac:(lia) ltac:(lia)) as Esf. rewrite (seg_cons inp in_pos (in_pos + 1) b) in Esf by (done || lia).
    assert (seg inp (in_pos + 1) (in_pos + 1) = []) as E0 by (unfold seg; by rewrite Z.sub_diag). rewrite E0, Ebs in Esf.
    pose proof (le32_byte (ih_crc32 h) (ih_pos h) Hp) as Hbyte. set (want := Z.land _ 0xFF) in *.
    assert (take (S (Z.to_nat (ih_pos h))) (le32 (ih_crc32 h)) = take (Z.to_nat (ih_pos h)) (le32 (ih_crc32 h)) ++ [want]) as Etake by (by apply take_S_r).
    destruct (Z.eqb_spec want b) as [Eb | Eb]; cbn [negb].
    + rewrite <- Eb, <- app_assoc, <- Etake in Esf. cbn [ih_pos set_position].
      destruct (Z.ltb_spec (ih_pos h + 1) 4) as [H4 | H4].
      * destruct (IH (set_position h (ih_pos h + 1)) (in_pos + 1)) as (ret & h' & p & Eq & Hrange & Hans); cbn [ih_pos set_position ih_sequence ih_crc32]; try done; [lia | lia | lia | |].
        { rewrite Esf. do 2 f_equal. lia. }
        exists ret, h', p. split; [done |]. split; [lia | done].
      * do 3 eexists. split; [reflexivity |]. split; [lia |]. split; [| done]. right. left. split; [done |]. exists done. split; [done |]. split; [done |].
        rewrite Esf, Hc. unfold index_bytes. f_equal. apply take_ge. cbn [length le32]. lia.
    + do 3 eexists. split; [reflexivity |]. split; [lia |]. split; [| done]. right. right. split; [done |]. rewrite Esf.
      unfold index_body at 1. rewrite (proj1 Ha), <- !app_assoc. apply never_end; [done | by destruct Ha |]. intros Edone x E2. rewrite Edone, <- !app_assoc in E2.
      apply app_inv_head in E2. change ([b] ++ x) with (b :: x) in E2. rewrite Hc, Edone in Etake, E2. apply (f_equal (lookup (Z.to_nat (ih_pos h)))) in E2. rewrite Hc, Edone in Hbyte.
      assert (length (take (Z.to_nat (ih_pos h)) (le32 (crc_of (index_body rs0)))) = Z.to_nat (ih_pos h)) as El by (rewrite length_take; cbn [length le32]; lia).
      rewrite list_lookup_middle in E2 by done. rewrite Hbyte in E2. injection E2 as E2. done.
Qed.
(** The hash of the Records. *)
Lemma finish_hash rs check : checked LZMA_CHECK_BEST (hashed_bytes rs) check -> Z.of_nat (length rs) <= 2 ^ 34 ->
  exists c, lzma_check_finish W check LZMA_CHECK_BEST = Some c /\ rd_bytes (buffer c) 0 32 = Some (Sha256Spec.sha256 (hashed_bytes rs)).
Proof.
  intros Hc Hl. destruct (finish_checked W HW LZMA_CHECK_BEST (hashed_bytes rs) check) with (2 := Hc) as (c & Ec & Hv).
  { unfold supported. do 3 right. left. }
  { rewrite hashed_bytes_length. lia. }
  exists c. split; [done |]. change (check_value LZMA_CHECK_BEST ?m) with (Sha256Spec.sha256 m) in Hv. rewrite Sha256Spec.sha256_length in Hv.
  rewrite <- (take_drop 32 (buffer c)), Hv. apply rd_bytes_head. by rewrite Sha256Spec.sha256_length.
Qed.

Lemma check_crc (Hbs : bytes bs0) p : in_start <= p <= in_size ->
  exists bs, rd_bytes inp in_start (Z.to_nat (p - in_start)) = Some bs /\ lzma_crc32 (addr + in_start) bs (crc_of bs0) = Some (crc_of (so_far p)).
Proof.
  intros Hp. exists (seg inp in_start p). split; [apply rd_bytes_seg; lia |]. rewrite crc32_value; [| by apply seg_bytes | by apply crc_of_range].
  unfold crc_of at 1, so_far. by rewrite <- crc_reference_app.
Qed.

Lemma so_far_byte in_pos b : in_start <= in_pos < in_size -> rd inp in_pos = Some b -> so_far (in_pos + 1) = so_far in_pos ++ [b].
Proof.
  intros Hi Er. rewrite (so_far_app in_pos (in_pos + 1)) by lia. f_equal. rewrite (seg_cons inp in_pos (in_pos + 1) b) by (done || lia).
  unfold seg. by rewrite Z.sub_diag.
Qed.

(** A byte of the padding. *)
Lemma padding_byte_ok h in_pos : in_start <= in_pos < in_size -> ih_sequence h = SEQ_PADDING -> reading h (so_far in_pos) -> 0 < ih_pos h ->
  exists r, seq_padding W h addr inp in_start in_pos in_size = Some r /\ round_ok in_pos h r.
Proof.
  intros Hi Hq (Hblk & Hrd) Hgt. rewrite Hq in Hrd. destruct Hrd as (done & Ebs & Hpos & Hg & Hlen). pose proof Hg as (Hd & _).
  unfold seq_padding. rewrite (proj2 (Z.ltb_lt _ _)) by lia. destruct (rd_some inp in_pos Hb ltac:(lia)) as (b & Er & _). rewrite Er. cbn [mbind option_bind].
  eexists. split; [reflexivity |]. pose proof (so_far_byte in_pos b Hi Er) as Esf. rewrite Ebs, <- !app_assoc in Esf. destruct (Z.eqb_spec b 0) as [-> | Hne]; cbn [negb].
  - split; [lia |]. split; [| done]. split; [done |]. cbn [ih_sequence set_position]. rewrite Hq. exists done. cbn [ih_pos set_position]. rewrite Esf.
    split; [| split; [lia | done]]. do 2 f_equal. replace (Z.to_nat (pad_len done - (ih_pos h - 1))) with (Z.to_nat (pad_len done - ih_pos h) + 1)%nat by lia.
    by rewrite replicate_add.
  - split; [lia |]. split; [| done]. right. right. split; [done |]. rewrite Esf. apply never_end; [done | done |]. intros -> x E.
    rewrite <- app_assoc in E. apply (f_equal (lookup (Z.to_nat (pad_len rs0 - ih_pos h)))) in E. change ([b] ++ x) with (b :: x) in E.
    rewrite list_lookup_middle, lookup_app_l, lookup_replicate_2 in E by (rewrite ?length_replicate; lia). by injection E.
Qed.

(** After the padding. *)
Lemma padding_end_ok (Hbs : bytes bs0) h in_pos : in_start <= in_pos < in_size -> ih_sequence h = SEQ_PADDING -> reading h (so_far in_pos) -> ih_crc32 h = crc_of bs0 ->
  ih_pos h = 0 -> exists r, seq_padding W h addr inp in_start in_pos in_size = Some r /\ round_ok in_pos h r.
Proof.
  intros Hi Hq (Hblk & Hrd) Hcrc E0. rewrite Hq in Hrd. destruct Hrd as (done & Ebs & Hpos & Hg & Hlen). rewrite E0, Z.sub_0_r in Ebs. pose proof Hg as (Hd & Hinfo & _).
  assert (done <> rs0 -> never (so_far in_pos)) as Hother by (intros Hne; rewrite Ebs; by apply never_end).
  pose proof Hblk as (B1 & B2 & _ & B4 & B5). pose proof Hinfo as (I1 & I2 & _ & I4 & I5). unfold seq_padding. rewrite E0, B1, B2, B4, I1, I2, I4. cbn [Z.ltb Z.compare].
  destruct (negb _ || negb _ || negb _) eqn:Esum.
  { eexists. split; [reflexivity |]. split; [lia |]. split; [| done]. right. right. split; [done |]. apply Hother. intros ->. by rewrite !Z.eqb_refl in Esum. }
  rewrite !orb_false_iff, !negb_false_iff, !Z.eqb_eq in Esum. destruct Esum as [[S1 S2] S3].
  assert (Z.of_nat (length rs0) <= 2 ^ 34) as Hn by (pose proof (sums_ok rs0 Hrs0) as (_ & _ & ?); pose proof list_range; change LZMA_BACKWARD_SIZE_MAX with (2 ^ 34) in *; lia).
  destruct (finish_hash rs0 _ B5 Hn) as (cb & -> & Ecb). destruct (finish_hash done _ I5 ltac:(lia)) as (cr & -> & Ecr). cbn [mbind option_bind].
  change (lzma_check_size LZMA_CHECK_BEST) with (Some 32). cbn [mbind option_bind]. change (Z.to_nat 32) with 32%nat. rewrite Ecb, Ecr. cbn [mbind option_bind].
  destruct (decide (Sha256Spec.sha256 (hashed_bytes rs0) = Sha256Spec.sha256 (hashed_bytes done))) as [Eh | Eh].
  - rewrite bool_decide_eq_true_2 by done. cbn [negb ih_crc32 set_infos]. rewrite Hcrc. destruct (check_crc Hbs in_pos ltac:(lia)) as (bs & -> & Ec). cbn [mbind option_bind]. rewrite Ec.
    cbn [mbind option_bind]. assert (so_far in_pos = index_body done) as Ebody by (rewrite Ebs; unfold index_body; by rewrite Hlen). rewrite Ebody in *.
    match goal with |- context [crc_loop 5 ?g] => destruct (crc_loop_ok 5 g in_pos done) as (ret & h' & p & -> & Hp & Hans); cbn [ih_sequence ih_pos ih_crc32 set_sequence set_crc32 set_infos] end;
      rewrite ?E0; try done; [lia | by rewrite app_nil_r |]. eexists. split; [reflexivity | done].
  - rewrite bool_decide_eq_false_2 by done. cbn [negb]. eexists. split; [reflexivity |]. split; [lia |]. split; [| done]. right. right. split; [done |]. apply Hother. by intros ->.
Qed.

Lemma seq_padding_ok (Hbs : bytes bs0) h in_pos : in_start <= in_pos < in_size -> ih_sequence h = SEQ_PADDING -> reading h (so_far in_pos) -> ih_crc32 h = crc_of bs0 ->
  exists r, seq_padding W h addr inp in_start in_pos in_size = Some r /\ round_ok in_pos h r.
Proof.
  intros Hi Hq Hrd Hc. assert (0 <= ih_pos h) by (destruct Hrd as (_ & H); rewrite Hq in H; destruct H as (done & _ & ? & _); lia).
  destruct (Z.eq_dec (ih_pos h) 0); [by apply padding_end_ok | apply padding_byte_ok; (done || lia)].
Qed.

Lemma pad_position n : 0 <= n <= 2 ^ 36 -> Z.land (u64 (4 - n)) 3 = ceil4 n - n.
Proof.
  intros Hn. change 3 with (Z.ones 2). rewrite Z.land_ones by lia. unfold u64, wrap, ceil4. change (2 ^ 2) with 4. Z.to_euclidean_division_equations. lia.
Qed.

Lemma padding_init_ok h in_pos : ih_sequence h = SEQ_PADDING_INIT -> reading h (so_far in_pos) ->
  exists s, index_size_unpadded (count (ih_records h)) (index_list_size (ih_records h)) = Some s /\
    reading (set_sequence (set_position h (Z.land (u64 (4 - s)) 3)) SEQ_PADDING) (so_far in_pos).
Proof.
  intros Hq (Hblk & Hrd). rewrite Hq in Hrd. destruct Hrd as (done & Ebs & Hg & Hlen & _). pose proof Hg as (Hd & (_ & _ & I3 & I4 & _) & _ & _ & S3).
  pose proof list_range as Hl. destruct (index_size_value W HW done Hd ltac:(change LZMA_BACKWARD_SIZE_MAX with (2 ^ 34) in *; lia)) as [Es _]. rewrite I3, I4, Es.
  eexists. split; [reflexivity |]. split; [done |]. exists done. cbn [ih_pos set_sequence set_position]. pose proof (sums_ok done Hd) as (_ & _ & Hn).
  rewrite Hlen in Hn |- *. pose proof count_range as Hcr. pose proof (vli_len_range _ Hcr) as Hv. unfold count_of, LZMA_VLI_BYTES_MAX in Hv. change LZMA_BACKWARD_SIZE_MAX with (2 ^ 34) in Hl.
  rewrite pad_position by lia. rewrite <- Hlen. fold (index_len done). fold (pad_len done). rewrite Z.sub_diag, app_nil_r, Hlen. pose proof (pad_len_range done). split; [done |]. split; [lia | done].
Qed.

Lemma seq_block_ok h in_pos : in_start <= in_pos < in_size -> ih_sequence h = SEQ_BLOCK -> reading h (so_far in_pos) ->
  exists r, hash_round_step W h addr inp in_start in_pos in_size = Some r /\ round_ok in_pos h r.
Proof.
  intros Hi Hq (Hblk & Hrd). rewrite Hq in Hrd. destruct Hrd as (Ebs & E0 & Hg). unfold hash_round_step. rewrite Hq.
  destruct (rd_some inp in_pos Hb ltac:(lia)) as (b & Er & _). rewrite Er. cbn [mbind option_bind]. eexists. split; [reflexivity |].
  pose proof (so_far_byte in_pos b Hi Er) as Esf. rewrite Ebs in Esf. cbn [app] in Esf. destruct (Z.eqb_spec b 0) as [-> | Hne]; cbn [negb].
  - split; [lia |]. split; [| done]. split; [done |]. cbn [ih_sequence set_sequence]. exists []. split; [done |]. cbn [ih_pos set_sequence]. rewrite E0. split; [apply part_read_nil | done].
  - split; [lia |]. split; [| done]. right. right. split; [done |]. rewrite Esf. intros rest E. unfold index_bytes, index_body, index_start in E. cbn [app] in E. by injection E.
Qed.

Lemma round_spec (Hbs : bytes bs0) h in_pos : in_start <= in_pos < in_size -> reading h (so_far in_pos) -> ih_crc32 h = crc_of bs0 ->
  exists r, hash_round_step W h addr inp in_start in_pos in_size = Some r /\ round_ok in_pos h r.
Proof.
  intros Hi Hrd Hc. destruct (ih_sequence h) eqn:Hq; [by apply seq_block_ok | | | | | |]; unfold hash_round_step; rewrite Hq.
  - by apply seq_count_ok.
  - by apply seq_unpadded_ok.
  - by apply seq_uncompressed_ok.
  - destruct (padding_init_ok h in_pos Hq Hrd) as (s & -> & Hrd'). cbn [mbind option_bind].
    destruct (seq_padding_ok Hbs (set_sequence (set_position h (Z.land (u64 (4 - s)) 3)) SEQ_PADDING) in_pos Hi eq_refl Hrd' Hc) as (r & Er & Hr). by exists r.
  - by apply seq_padding_ok.
  - destruct Hrd as [_ Hrd]. by rewrite Hq in Hrd.
Qed.

(** What a call answers is right, whatever the bytes are. *)
Definition call_ok (res : option (lzma_ret * lzma_index_hash * Z)) : Prop :=
  exists ret h' p, res = Some (ret, h', p) /\ in_start <= p <= in_size /\ hash_answer in_size ret h' (so_far p) p.

Lemma hash_out_ok (Hbs : bytes bs0) ret h p : in_start <= p <= in_size -> ih_crc32 h = crc_of bs0 ->
  (ret = LZMA_OK /\ p = in_size /\ reading h (so_far p)) \/ (ret = LZMA_DATA_ERROR /\ never (so_far p)) -> call_ok (hash_out ret h addr inp in_start p).
Proof.
  intros Hp Hc Hr. unfold hash_out. rewrite Hc. destruct (check_crc Hbs p Hp) as (bs & -> & Ec). cbn [mbind option_bind]. rewrite Ec. cbn [mbind option_bind].
  do 3 eexists. split; [reflexivity |]. split; [done |]. destruct Hr as [(-> & -> & Hr) | (-> & Hr)]; [left | by right; right].
  split; [done |]. split; [done |]. by left.
Qed.

Lemma hash_loop_ok (Hbs : bytes bs0) fuel h in_pos : in_start <= in_pos <= in_size -> (Z.to_nat (in_size - in_pos) < fuel)%nat ->
  reading h (so_far in_pos) -> ih_crc32 h = crc_of bs0 -> call_ok (hash_loop W fuel h addr inp in_start in_pos in_size).
Proof.
  revert h in_pos. induction fuel as [| fuel IH]; intros h in_pos Hi Hf Hrd Hc; [lia |]. cbn [hash_loop]. destruct (Z.ltb_spec in_pos in_size) as [Hlt | Hge].
  - destruct (round_spec Hbs h in_pos ltac:(lia) Hrd Hc) as (r & -> & Hr). cbn [mbind option_bind]. destruct r as [h' p | ret h' p | ret h' p].
    + destruct Hr as (Hp & Hrd' & Hc'). apply IH; [lia | lia | done | by rewrite Hc'].
    + destruct Hr as (Hp & Hc' & Hr). apply hash_out_ok; [done | lia | by rewrite Hc' | done].
    + destruct Hr as (Hp & Hr & _). do 3 eexists. split; [reflexivity |]. split; [lia | done].
  - apply hash_out_ok; [done | lia | done |]. left. assert (in_pos = in_size) as -> by lia. done.
Qed.

Lemma hash_decode_ok (Hbs : bytes bs0) h : in_start < in_size -> hash_state h bs0 -> call_ok (lzma_index_hash_decode W h addr inp in_start in_size).
Proof.
  intros Hlt Hst. unfold lzma_index_hash_decode. rewrite (proj2 (Z.leb_gt _ _)) by done.
  assert (so_far in_start = bs0) as E0 by (unfold so_far, seg; by rewrite Z.sub_diag, app_nil_r).
  destruct Hst as [[Hrd Hc] | (Hq & done & Hd & Ha & Hp & Hc & Ebs)]; [apply hash_loop_ok; rewrite ?E0; (assumption || lia) |].
  cbn [hash_loop]. rewrite (proj2 (Z.ltb_lt _ _)) by done. unfold hash_round_step. rewrite Hq.
  destruct (crc_loop_ok 5 h in_start done) as (ret & h' & p & -> & Hrange & Hans & _); rewrite ?E0; try done; [lia | lia |].
  cbn [mbind option_bind]. do 3 eexists. split; [reflexivity | done].
Qed.
End call.
(** ** No piece ends the Index early *)
Lemma unfinished_not_vli part w y : unfinished part -> 0 <= w <= LZMA_VLI_MAX -> part <> vli_bytes w ++ y.
Proof.
  intros Hu Hw ->. destruct (vli_bytes_shape w Hw) as (a & b & E & _ & Hb & _). rewrite E, <- app_assoc in Hu. apply Forall_app in Hu as [_ Hu].
  apply list.Forall_cons in Hu as [Hu _]. lia.
Qed.

Lemma next_record done part : Forall record_ok done -> (length done < length rs0)%nat ->
  (forall r y, record_ok r -> part <> record_bytes r ++ y) -> index_start (length rs0) ++ records_bytes done ++ part <> index_bytes rs0.
Proof.
  intros Hd Hl H E. unfold index_bytes, index_body in E. rewrite <- !app_assoc in E. apply app_inv_head in E.
  apply records_prefix in E as (rs & Ers & E); [| done | done | lia]. destruct rs as [| r rs]; [rewrite Ers, app_nil_r in Hl; lia |].
  unfold records_bytes in E. cbn [fmap list_fmap concat] in E. rewrite <- app_assoc in E. apply H in E; [done |].
  rewrite Ers in Hrs0. apply Forall_app in Hrs0 as [_ Hr]. by apply list.Forall_cons in Hr as [Hr _].
Qed.

Lemma index_body_length rs : Z.of_nat (length (index_body rs)) = index_len rs - 4.
Proof.
  unfold index_body, index_start. rewrite !length_app, length_replicate. cbn [length]. rewrite !Nat2Z.inj_add, records_bytes_length. pose proof (pad_len_range rs) as H. unfold pad_len in *.
  unfold vli_len in *. lia.
Qed.

Lemma index_bytes_length rs : Z.of_nat (length (index_bytes rs)) = index_len rs.
Proof. unfold index_bytes. rewrite length_app, Nat2Z.inj_add, index_body_length. cbn [length le32]. lia. Qed.

Lemma alike_len rs1 rs2 : alike rs1 rs2 -> index_len rs1 = index_len rs2 /\ pad_len rs1 = pad_len rs2.
Proof. intros (E1 & _ & _ & E2 & _). unfold pad_len, index_len. by rewrite E1, E2. Qed.

Lemma short_of_end done k : Forall record_ok done -> length done = length rs0 -> (k <= Z.to_nat (pad_len done))%nat ->
  index_start (length rs0) ++ records_bytes done ++ replicate k 0 <> index_bytes rs0.
Proof.
  intros Hd Hl Hk E. unfold index_bytes in E. unfold index_body in E at 1. rewrite <- !app_assoc in E. apply app_inv_head in E.
  apply records_prefix in E as (rs & Ers & E); [| done | done | lia].
  assert (rs = []) as -> by (apply (f_equal length) in Ers; rewrite length_app in Ers; destruct rs; [done | cbn in Ers; lia]). rewrite app_nil_r in Ers. subst done.
  apply (f_equal length) in E. unfold records_bytes in E. cbn [fmap list_fmap concat app] in E. rewrite length_app, !length_replicate in E. cbn [length le32] in E. lia.
Qed.

Lemma state_not_index h bs : hash_state h bs -> bs <> index_bytes rs0.
Proof.
  intros [[(Hblk & Hrd) _] | (Hq & done & Hd & Ha & Hp & Hc & ->)].
  - destruct (ih_sequence h).
    + by destruct Hrd as (-> & _).
    + destruct Hrd as (part & -> & Hp & _). intros E. unfold index_bytes, index_body, index_start in E. cbn [app] in E. injection E as E. rewrite <- !app_assoc in E.
      by apply (unfinished_not_vli part) in E; [| destruct Hp | exact count_range].
    + destruct Hrd as (done & part & -> & Hp & (Hd & _) & Hrem & Hpos). apply next_record; [done | lia |]. intros r y Hr. unfold record_bytes. rewrite <- app_assoc.
      apply unfinished_not_vli; [by destruct Hp | by apply record_ok_ranges].
    + destruct Hrd as (done & part & -> & Hp & Hu & (Hd & _) & Hrem & Hpos). apply next_record; [done | lia |]. intros r y Hr E. unfold record_bytes in E. rewrite <- app_assoc in E.
      pose proof (record_ok_ranges r Hr) as (R1 & R2 & _).
      apply vli_bytes_prefix in E as [_ E]; [| unfold UNPADDED_SIZE_MIN in Hu; rewrite UNPADDED_SIZE_MAX_value in Hu; change LZMA_VLI_MAX with (2 ^ 63 - 1); lia | done].
      by apply unfinished_not_vli in E; [| destruct Hp |].
    + destruct Hrd as (done & -> & (Hd & _) & Hl & _). pose proof (short_of_end done 0 Hd Hl ltac:(lia)) as H. cbn [replicate] in H. by rewrite app_nil_r in H.
    + destruct Hrd as (done & -> & Hpos & (Hd & _) & Hl). apply short_of_end; [done | done | lia].
    + done.
  - intros E. apply (f_equal (fun l => Z.of_nat (length l))) in E. rewrite length_app, Nat2Z.inj_add, index_body_length, index_bytes_length, length_take in E.
    destruct (alike_len done rs0 Ha) as [El _]. cbn [length le32] in E. lia.
Qed.

(** ** A whole Index in pieces *)
Fixpoint decode_pieces (h : lzma_index_hash) (pieces : list (Z * list Z)) : option (lzma_ret * lzma_index_hash * Z) :=
  match pieces with
  | [] => Some (LZMA_OK, h, 0)
  | (addr, inp) :: pieces =>
      '(ret, h, p) ← lzma_index_hash_decode W h addr inp 0 (Z.of_nat (length inp));
      if negb (bool_decide (ret = LZMA_OK)) then Some (ret, h, p) else '(ret, h, n) ← decode_pieces h pieces; Some (ret, h, p + n)
  end.

Lemma decode_pieces_ok pieces h bs0 : Forall (fun piece => bytes piece.2 /\ piece.2 <> []) pieces -> bytes bs0 -> hash_state h bs0 ->
  exists ret h' n, decode_pieces h pieces = Some (ret, h', n) /\ 0 <= n <= Z.of_nat (length (concat pieces.*2)) /\
    hash_answer (Z.of_nat (length (concat pieces.*2))) ret h' (bs0 ++ take (Z.to_nat n) (concat pieces.*2)) n.
Proof.
  revert h bs0. induction pieces as [| [addr inp] pieces IH]; intros h bs0 Hp Hbs Hst.
  - do 3 eexists. split; [reflexivity |]. split; [cbn; lia |]. left. cbn. by rewrite app_nil_r.
  - apply list.Forall_cons in Hp as [[Hb Hne] Hp]. cbn [decode_pieces fmap list_fmap concat snd] in *.
    assert (0 < Z.of_nat (length inp)) as Hpos by (destruct inp; [done | cbn; lia]).
    destruct (hash_decode_ok bs0 inp 0 (Z.of_nat (length inp)) addr Hb ltac:(lia) ltac:(lia) Hbs h Hpos Hst) as (ret & h' & p & -> & Hpr & Hans). cbn [mbind option_bind].
    unfold so_far, seg in Hans. rewrite Z.sub_0_r in Hans. change (drop (Z.to_nat 0) inp) with inp in Hans. rewrite length_app, Nat2Z.inj_add.
    assert (forall n, n <= Z.of_nat (length inp) -> take (Z.to_nat n) (inp ++ concat pieces.*2) = take (Z.to_nat n) inp) as Htake by (intros; apply take_app_le; lia).
    destruct Hans as [(-> & -> & Hst') | Hans].
    + rewrite bool_decide_eq_true_2 by done. cbn [negb]. rewrite Nat2Z.id, take_ge in Hst' by lia.
      destruct (IH h' (bs0 ++ inp) Hp ltac:(by apply Forall_app) Hst') as (ret & h'' & n & -> & Hn & Hans). cbn [mbind option_bind].
      do 3 eexists. split; [reflexivity |]. split; [lia |]. replace (Z.to_nat (Z.of_nat (length inp) + n)) with (length inp + Z.to_nat n)%nat by lia.
      rewrite take_app_add. rewrite app_assoc. destruct Hans as [(-> & -> & H) | [H | H]]; [left | right; left; exact H | right; right; exact H]. by split; [| split].
    + assert (ret <> LZMA_OK) as Hnok by (by destruct Hans as [[-> _] | [-> _]]). rewrite bool_decide_eq_false_2 by done. cbn [negb].
      do 3 eexists. split; [reflexivity |]. split; [lia |]. rewrite Htake by lia. by right.
Qed.

(** What is accepted is an Index like that of the Blocks, and that one is. *)
Lemma pieces_spec pieces h : Forall (fun piece => bytes piece.2 /\ piece.2 <> []) pieces -> hash_state h [] ->
  exists ret h' n, decode_pieces h pieces = Some (ret, h', n) /\ ret ∈ [LZMA_OK; LZMA_STREAM_END; LZMA_DATA_ERROR] /\
    (ret = LZMA_STREAM_END -> exists rs, Forall record_ok rs /\ alike rs rs0 /\ take (Z.to_nat n) (concat pieces.*2) = index_bytes rs) /\
    (concat pieces.*2 = index_bytes rs0 -> ret = LZMA_STREAM_END /\ n = index_len rs0).
Proof.
  intros Hp Hst. destruct (decode_pieces_ok pieces h [] Hp (Forall_nil_2 _) Hst) as (ret & h' & n & E & Hn & Hans). cbn [app] in Hans.
  exists ret, h', n. split; [done |]. destruct Hans as [(-> & -> & Hst') | [(-> & rs & Hrs & Ha & Ers) | (-> & Hnever)]].
  - split; [by left |]. split; [done |]. intros Ei. rewrite take_ge in Hst' by lia. by apply state_not_index in Hst'.
  - split; [by right; left |]. split; [intros _; by exists rs |]. intros Ei. split; [done |]. apply (f_equal (fun l => Z.of_nat (length l))) in Ers.
    rewrite index_bytes_length, length_take in Ers. destruct (alike_len rs rs0 Ha) as [<- _]. lia.
  - split; [by right; right; left |]. split; [done |]. intros Ei. destruct (Hnever (drop (Z.to_nat n) (concat pieces.*2))). by rewrite take_drop.
Qed.
End reading.

(** ** From the first Block to the end of the Index *)
Section stream.
  Context (W : list Z) (HW : length W = 16%nat).

(** A Block whose sizes were accepted. *)
Definition append_block (r : Z * Z) (h : lzma_index_hash) : option lzma_index_hash :=
  '(ret, h) ← lzma_index_hash_append W h r.1 r.2; if bool_decide (ret = LZMA_OK) then Some h else None.

Definition append_blocks (rs : list (Z * Z)) (old : lzma_index_hash) : option lzma_index_hash :=
  h ← lzma_index_hash_init (Some old); each append_block rs h.

(** After some Blocks. *)
Definition appended (rs : list (Z * Z)) (h : lzma_index_hash) : Prop :=
  ih_sequence h = SEQ_BLOCK /\ Forall record_ok rs /\ within rs /\ info_of rs (ih_blocks h) /\ info_of [] (ih_records h) /\ ih_pos h = 0 /\ ih_crc32 h = 0.

Lemma info_nil check : length (buffer check) = 64%nat -> bytes (buffer check) -> info_of [] (MkInfo 0 0 0 0 (lzma_check_init check LZMA_CHECK_BEST)).
Proof. intros. do 4 (split; [done |]). by apply (init_checked check LZMA_CHECK_BEST). Qed.

Lemma appended_each rs done h h' : appended done h -> Forall (fun r => 0 <= r.1 /\ 0 <= r.2) rs -> each append_block rs h = Some h' -> appended (done ++ rs) h'.
Proof.
  revert done h. induction rs as [| r rs IH]; intros done h Ha Hr E; [cbn in E; injection E as <-; by rewrite app_nil_r |].
  apply list.Forall_cons in Hr as [[R1 R2] Hr]. cbn [each] in E. apply option.bind_Some in E as (h1 & E1 & E). change (r :: rs) with ([r] ++ rs). rewrite app_assoc.
  apply (IH (done ++ [r]) h1); [| done | done]. destruct Ha as (Hq & Hd & Hw & Hi & Hrec & Hp & Hc). unfold append_block in E1.
  destruct (append_ok W HW h done r Hq Hd Hw Hi R1 R2) as (ret & h2 & E2 & Hok & Hbad). rewrite E2 in E1. cbn [mbind option_bind] in E1.
  case_bool_decide as Hret; [| done]. injection E1 as <-. destruct (decide (UNPADDED_SIZE_MIN <= r.1 <= UNPADDED_SIZE_MAX /\ 0 <= r.2 <= LZMA_VLI_MAX)) as [Hrec' | Hrec'];
    [| destruct (Hbad Hrec') as [E3 _]; by rewrite E3 in Hret].
  destruct (Hok Hrec') as (i & -> & Hi' & Hwi & _). repeat (split; [(done || (by apply Forall_app; split; [| by constructor]) || by apply Hwi) |]). done.
Qed.

Lemma appended_state rs h : appended rs h -> hash_state rs h [].
Proof.
  intros (Hq & Hd & Hw & Hi & Hrec & Hp & Hc). left. split; [| by rewrite Hc]. split; [done |]. rewrite Hq. split; [done |]. split; [done |].
  pose proof (sums_ok rs Hd) as (S1 & S2 & S3). split; [constructor |]. split; [done |]. unfold sum_blocks, sum_uncompressed, sum_list in *. cbn. lia.
Qed.

(** C34: the Index hash accepts what the Blocks promised and nothing that differs in
    what it keeps of it. After the sizes [rs] of the Blocks were appended, each with
    success, and the bytes that follow are read in pieces of any lengths, at any
    addresses, the decoder never leaves its buffer, and answers that it needs more,
    that the Index ended or that the data is corrupt. If it says that the Index
    ended, the bytes it took are the encoding of an Index, with its padding and its
    CRC32, whose Records are as many as the Blocks and have the same total sizes and
    the same SHA-256 over the sizes. The Index of the Blocks themselves, however it is
    cut, is read to its last byte and accepted. *)
Theorem index_hash_spec old h rs pieces :
  length (buffer (info_check (ih_blocks old))) = 64%nat -> bytes (buffer (info_check (ih_blocks old))) ->
  length (buffer (info_check (ih_records old))) = 64%nat -> bytes (buffer (info_check (ih_records old))) ->
  Forall (fun r => 0 <= r.1 /\ 0 <= r.2) rs -> append_blocks rs old = Some h -> Forall (fun piece => bytes piece.2 /\ piece.2 <> []) pieces ->
  exists ret h' n, decode_pieces W h pieces = Some (ret, h', n) /\ ret ∈ [LZMA_OK; LZMA_STREAM_END; LZMA_DATA_ERROR] /\
    (ret = LZMA_STREAM_END -> exists rs', Forall record_ok rs' /\ alike rs' rs /\ take (Z.to_nat n) (concat pieces.*2) = index_bytes rs') /\
    (concat pieces.*2 = index_bytes rs -> ret = LZMA_STREAM_END /\ n = index_len rs).
Proof.
  intros B1 B2 B3 B4 Hr E Hp. unfold append_blocks in E. cbn [lzma_index_hash_init mbind option_bind] in E.
  match type of E with each _ _ ?h0 = _ => assert (appended [] h0) as Ha end.
  { split; [done |]. split; [constructor |]. split; [repeat split; vm_compute; discriminate |]. split; [by apply info_nil |]. split; [by apply info_nil | done]. }
  apply (appended_each rs [] _ h Ha Hr) in E. pose proof E as (_ & Hd & Hw & _). by apply (pieces_spec W HW rs Hd Hw pieces h Hp), appended_state.
Qed.
End stream.

(** ** The Index of a Stream with two Blocks *)
Definition blank_hash : lzma_index_hash :=
  let i := MkInfo 7 7 7 7 (MkCheck (replicate 64 9) (Crc32 7)) in MkHash SEQ_CRC32 i i 7 7 7 7 7.
Definition two_blocks : list (Z * Z) := [(54, 54); (1000, 70000)].
Definition two_blocks_hash : option lzma_index_hash := append_blocks (replicate 16 5) two_blocks blank_hash.
Definition two_blocks_pieces : list (Z * list Z) := [(4096, [0; 2; 54]); (17, [54; 232]); (300, [7; 240; 162; 4; 0; 0; 0] ++ take 2 (drop 12 (index_bytes two_blocks))); (1, drop 14 (index_bytes two_blocks))].

Example two_blocks_decoded : (h ← two_blocks_hash; '(ret, _, n) ← decode_pieces (replicate 16 5) h two_blocks_pieces; Some (ret, n)) = Some (LZMA_STREAM_END, 16).
Proof. vm_compute. reflexivity. Qed.

(** One size changed. *)
Example two_blocks_refused : (h ← two_blocks_hash; '(ret, _, n) ← decode_pieces (replicate 16 5) h [(0, [0; 2; 54; 55])]; Some (ret, n)) = Some (LZMA_OK, 4) /\
  (h ← two_blocks_hash; '(ret, _, n) ← decode_pieces (replicate 16 5) h [(0, [0; 2; 54; 55; 232; 7; 239; 162; 4; 0; 0; 0; 0])]; Some (ret, n)) = Some (LZMA_DATA_ERROR, 12).
Proof. split; vm_compute; reflexivity. Qed.

Lemma index_hash_spec_witness : exists h n, two_blocks_hash = Some h /\
  decode_pieces (replicate 16 5) h two_blocks_pieces = Some (LZMA_STREAM_END, n, index_len two_blocks) .
Proof.
  destruct two_blocks_hash as [h |] eqn:E; [| vm_compute in E; discriminate E].
  destruct (index_hash_spec (replicate 16 5) eq_refl blank_hash h two_blocks two_blocks_pieces) as (ret & h' & n & Ed & _ & _ & H).
  - reflexivity.
  - apply (bool_decide_unpack _). vm_compute. exact I.
  - reflexivity.
  - apply (bool_decide_unpack _). vm_compute. exact I.
  - apply (bool_decide_unpack _). vm_compute. exact I.
  - exact E.
  - apply (bool_decide_unpack _). vm_compute. exact I.
  - destruct H as [-> ->]; [vm_compute; reflexivity |]. exists h, h'. split; [reflexivity | exact Ed].
Defined.
