(* ===== verification/BioTypes.v ===== *)
(** * libbio: result codes

    source/bio/bio_Types.cpp and the result macros of include/bio/bio_Macros.hpp.
    A [Result] is a module and a description; the kernel and the services
    exchange it as 22 bits of a [u32]. *)

From stdpp Require Import base list option.
From Stdlib Require Import ZArith Lia.
From S2P Require Import Prelude PthreadH LzmaBase.
Local Open Scope Z_scope.

Definition BIO_MAKERESULT (mod_ desc : Z) : Z :=
  Z.lor (Z.land mod_ 0x1FF) (Z.shiftl (Z.land desc 0x1FFF) 9).

Record Result := MkResult { module : Z; description : Z }.

#[export] Instance Result_eq_dec : EqDecision Result.
Proof. solve_decision. Defined.

(** [Result()], [Result(u32 raw)] and the conversion to [u32]. *)
Definition Result_default : Result := MkResult 0 0.

Definition Result_of_raw (raw : Z) : Result :=
  if raw =? 0 then MkResult 0 0
  else MkResult (Z.land raw 0x1FF) (Z.land (Z.shiftr raw 9) 0x1FFF).

Definition Result_raw (r : Result) : Z := BIO_MAKERESULT (module r) (description r).

Definition IsSuccess (r : Result) : bool := description r =? 0.
Definition IsFailure (r : Result) : bool := negb (IsSuccess r).

Definition ENOENT : Z := 2.
Definition EIO : Z := 5.
Definition EBADF : Z := 9.
Definition EEXIST : Z := 17.
Definition ENODEV : Z := 19.
Definition ENAMETOOLONG : Z := 91.

Definition GetErrnoFrom (res : Result) : Z :=
  if IsFailure res then
    let raw := Result_raw res in
    if raw =? 0x202 then ENOENT
    else if (raw =? 0x402) || (raw =? 0x177602) then EEXIST
    else if raw =? 0x2ee602 then ENAMETOOLONG
    else if raw =? 0x2ee202 then EINVAL
    else if raw =? 0xe02 then EBUSY
    else if (raw =? 0x196002) || (raw =? 0x196202) || (raw =? 0x1a3e02) || (raw =? 0x1a4002) || (raw =? 0x1a4a02)
    then ENOMEM
    else if raw =? 0xea01 then ETIMEDOUT
    else EIO
  else 0.

(** ** Lemmas *)
Definition Result_ok (r : Result) : Prop := 0 <= module r < 2 ^ 9 /\ 0 <= description r < 2 ^ 13.

Lemma Result_of_raw_ok raw : Result_ok (Result_of_raw raw).
Proof.
  unfold Result_of_raw, Result_ok. destruct (raw =? 0); [done |]. simpl module. simpl description.
  change 0x1FF with (Z.ones 9). change 0x1FFF with (Z.ones 13). rewrite !Z.land_ones by lia.
  split; apply Z.mod_pos_bound; lia.
Qed.

Lemma BIO_MAKERESULT_value m d : 0 <= m < 2 ^ 9 -> 0 <= d < 2 ^ 13 -> BIO_MAKERESULT m d = m + d * 2 ^ 9.
Proof.
  intros Hm Hd. unfold BIO_MAKERESULT. change 0x1FF with (Z.ones 9). change 0x1FFF with (Z.ones 13).
  rewrite !Z.land_ones, !Z.mod_small by lia. by apply lor_shiftl_add.
Qed.

Lemma Result_of_raw_value raw : module (Result_of_raw raw) = raw mod 2 ^ 9 /\
  description (Result_of_raw raw) = (raw / 2 ^ 9) mod 2 ^ 13.
Proof.
  unfold Result_of_raw. destruct (Z.eqb_spec raw 0) as [-> |]; [done |]. simpl.
  change 511 with (Z.ones 9). change 8191 with (Z.ones 13).
  by rewrite !Z.land_ones, Z.shiftr_div_pow2 by lia.
Qed.

(** Only the low 22 bits survive the conversions. *)
Lemma Result_raw_of_raw raw : Result_raw (Result_of_raw raw) = raw mod 2 ^ 22.
Proof.
  destruct (Result_of_raw_ok raw) as [Hm Hd]. destruct (Result_of_raw_value raw) as [Em Ed].
  unfold Result_raw. rewrite BIO_MAKERESULT_value by done. rewrite Em, Ed.
  change (2 ^ 22) with (2 ^ 9 * 2 ^ 13). rewrite Z.rem_mul_r by lia. lia.
Qed.

Lemma Result_of_raw_raw r : Result_ok r -> Result_of_raw (Result_raw r) = r.
Proof.
  intros [Hm Hd]. destruct r as [m d]. simpl in *. unfold Result_raw. simpl module. simpl description.
  rewrite BIO_MAKERESULT_value by done.
  destruct (Result_of_raw_value (m + d * 2 ^ 9)) as [Em Ed].
  destruct (Result_of_raw _) as [m' d']. simpl in Em, Ed. subst. f_equal.
  - rewrite Z.mod_add by lia. by apply Z.mod_small.
  - rewrite Z.div_add, (Z.div_small m) by lia. by apply Z.mod_small.
Qed.

(** A raw value that is not zero can be a success, and one of more than 22 bits
    does not compare equal to the result it makes. *)
Example success_not_zero : IsSuccess (Result_of_raw 0x1) = true.
Proof. reflexivity. Qed.

Example errno_of_minus_one : GetErrnoFrom (Result_of_raw (2 ^ 32 - 1)) = EIO.
Proof. reflexivity. Qed.
