(* ===== verification/BioMutex.v ===== *)
(** * libbio: mutexes

    source/bio/os/os_Mutex.cpp: the mutex word shared with the kernel's lock
    arbiter, the recursive mutex and the condition variable.

    The word is 0, or the handle of the owner with bit 30 set once another
    thread waits. The loop of [Lock] is a step function, one atomic operation
    per step, that both the sequential runs ([lock_run]) and the interleavings
    ([mutex_step]) iterate. The kernel calls are parameters. *)

From stdpp Require Import base list option relations.
From Stdlib Require Import ZArith Lia.
From S2P Require Import Prelude LzmaBase BioTypes.
Local Open Scope Z_scope.

Definition HAS_LISTENERS : Z := 0x40000000.

(** [cur &~ 0x40000000] and [cur & 0x40000000]. *)
Definition owner_of (cur : Z) : Z := Z.land cur (u32 (Z.lnot HAS_LISTENERS)).
Definition has_listeners (cur : Z) : bool := negb (Z.land cur HAS_LISTENERS =? 0).

(** [__sync_val_compare_and_swap]: the old value and the new word. *)
Definition cas (word expected desired : Z) : Z * Z :=
  (word, if word =? expected then desired else word).

(** ** Mutex::Lock *)
Inductive lock_pc :=
  | LockCas
  | LockMark (cur : Z)
  | LockArbitrate (owner : Z)
  | LockDone.

(** One operation on the word; [LockArbitrate] is the return of the kernel call,
    which leaves the word as it finds it. *)
Definition lock_step (self : Z) (pc : lock_pc) (word : Z) : lock_pc * Z :=
  match pc with
  | LockCas =>
      let '(cur, word) := cas word 0 self in
      if cur =? 0 then (LockDone, word)
      else if owner_of cur =? self then (LockDone, word)
      else if has_listeners cur then (LockArbitrate (owner_of cur), word)
      else (LockMark cur, word)
  | LockMark cur =>
      let '(old, word) := cas word cur (Z.lor cur HAS_LISTENERS) in
      if old =? cur then (LockArbitrate cur, word) else (LockCas, word)
  | LockArbitrate _ => (LockCas, word)
  | LockDone => (LockDone, word)
  end.

(** ** Mutex::TryLock and Mutex::Unlock *)
Definition Mutex_TryLock (self word : Z) : bool * Z :=
  let '(cur, word) := cas word 0 self in
  if cur =? 0 then (true, word)
  else if owner_of cur =? self then (true, word)
  else (false, word).

(** The compare-and-swap of [Unlock] and whether [ArbitrateUnlock] follows. *)
Definition Mutex_Unlock (self word : Z) : bool * Z :=
  let '(old, word) := cas word self 0 in (has_listeners old, word).

Section Sequential.

(** The word when [ArbitrateLock(owner, word, self)] and [ArbitrateUnlock(word)]
    have returned. *)
Context (arbitrate_lock : Z -> Z -> Z -> Z) (arbitrate_unlock : Z -> Z).

Fixpoint lock_run (fuel : nat) (self : Z) (pc : lock_pc) (word : Z) : option Z :=
  match fuel with
  | O => None
  | S fuel =>
      match pc with
      | LockDone => Some word
      | LockArbitrate o =>
          let '(pc, word) := lock_step self pc (arbitrate_lock o word self) in lock_run fuel self pc word
      | _ => let '(pc, word) := lock_step self pc word in lock_run fuel self pc word
      end
  end.

Definition Mutex_Lock (fuel : nat) (self word : Z) : option Z := lock_run fuel self LockCas word.

Definition unlock_run (self word : Z) : Z :=
  let '(arbitrate, word) := Mutex_Unlock self word in
  if arbitrate then arbitrate_unlock word else word.

(** ** RecursiveMutex *)
Record RecursiveMutex := MkRecursive { mutex : Z; handle : Z; counter : Z }.

Definition RecursiveMutex_new : RecursiveMutex := MkRecursive 0 0 0.

(** The loop leaves [Lock] by its [return]s: what follows it in the body, the
    assignment of [handle] and the increment, is not reached from it. *)
Definition RecursiveMutex_Lock (fuel : nat) (self : Z) (m : RecursiveMutex) : option RecursiveMutex :=
  if negb (handle m =? self) then
    word ← lock_run fuel self LockCas (mutex m);
    Some (MkRecursive word (handle m) (counter m))
  else Some (MkRecursive (mutex m) (handle m) (u32 (counter m + 1))).

Definition RecursiveMutex_TryLock (self : Z) (m : RecursiveMutex) : bool * RecursiveMutex :=
  if negb (handle m =? self) then
    let '(cur, word) := cas (mutex m) 0 self in
    let tlock := (cur =? 0) || (owner_of cur =? self) in
    if negb tlock then (false, MkRecursive word (handle m) (counter m))
    else (true, MkRecursive word self (u32 (counter m + 1)))
  else (true, MkRecursive (mutex m) (handle m) (u32 (counter m + 1))).

Definition RecursiveMutex_Unlock (self : Z) (m : RecursiveMutex) : RecursiveMutex :=
  let counter := u32 (counter m - 1) in
  if counter =? 0
  then MkRecursive (unlock_run self (mutex m)) 0 counter
  else MkRecursive (mutex m) (handle m) counter.

(** ** ConditionVariable

    [wait] is [WaitProcessWideKeyAtomic] on the word of the mutex with the
    caller's handle and the time-out: its result and the word on return. *)
Definition WaitTimeout (fuel : nat) (wait : Z -> Z -> Z -> Result * Z) (self word timeout : Z)
    : option (Result * Z) :=
  let '(rc, word) := wait word self timeout in
  if Result_raw rc =? 0xea01
  then word ← Mutex_Lock fuel self word; Some (rc, word)
  else Some (rc, word).

Definition Wait (fuel : nat) (wait : Z -> Z -> Z -> Result * Z) (self word : Z) : option (Result * Z) :=
  WaitTimeout fuel wait self word (2 ^ 64 - 1).
End Sequential.

(** ** Handles and the word *)
Definition is_handle (h : Z) : Prop := 0 < h < HAS_LISTENERS.

Lemma listeners_bit : HAS_LISTENERS = 2 ^ 30.
Proof. done. Qed.

Lemma owner_of_handle h : is_handle h -> owner_of h = h /\ has_listeners h = false.
Proof.
  intros [H0 H1]. rewrite listeners_bit in H1. unfold owner_of, has_listeners, HAS_LISTENERS.
  assert (Z.land h (2 ^ 30) = 0) as E.
  { replace (2 ^ 30) with (1 * 2 ^ 30) by lia. apply land_disjoint; lia. }
  change 0x40000000 with (2 ^ 30). rewrite E. split; [| done].
  change (u32 (Z.lnot (2 ^ 30))) with (Z.lor (Z.ones 30) (2 ^ 31)).
  rewrite Z.land_lor_distr_r, Z.land_ones, Z.mod_small by lia.
  replace (2 ^ 31) with (2 * 2 ^ 30) by lia. rewrite land_disjoint by lia. apply Z.lor_0_r.
Qed.

Lemma owner_of_marked h : is_handle h ->
  owner_of (Z.lor h HAS_LISTENERS) = h /\ has_listeners (Z.lor h HAS_LISTENERS) = true.
Proof.
  intros Hh. destruct (owner_of_handle h Hh) as [Eo El]. split.
  - unfold owner_of in *. rewrite Z.land_lor_distr_l, Eo. apply Z.lor_0_r.
  - unfold has_listeners. rewrite Z.land_lor_distr_l, Z.land_diag.
    destruct (Z.eqb_spec (Z.lor (Z.land h HAS_LISTENERS) HAS_LISTENERS) 0) as [E |]; [| done].
    by apply Z.lor_eq_0_iff in E as [_ E].
Qed.

(** A well-formed word: free, or a handle with or without the bit. *)
Inductive word_ok : Z -> Prop :=
  | word_free : word_ok 0
  | word_owned h : is_handle h -> word_ok h
  | word_marked h : is_handle h -> word_ok (Z.lor h HAS_LISTENERS).

Lemma word_owner w : word_ok w ->
  (w = 0 /\ owner_of w = 0 /\ has_listeners w = false) \/
  (is_handle (owner_of w) /\
    ((w = owner_of w /\ has_listeners w = false) \/
     (w = Z.lor (owner_of w) HAS_LISTENERS /\ has_listeners w = true))).
Proof.
  intros [| h Hh | h Hh]; [by left | |]; right.
  - destruct (owner_of_handle h Hh) as [-> ->]. split; [done | by left].
  - destruct (owner_of_marked h Hh) as [-> ->]. split; [done | by right].
Qed.

(** ** Interleavings *)
Inductive tpc :=
  | Outside
  | InLock (pc : lock_pc)
  | Inside
  | InUnlock
  | Arbitrating.

Definition in_section (p : option tpc) : bool :=
  match p with Some Inside | Some InUnlock | Some Arbitrating => true | _ => false end.

Definition waits (p : option tpc) : bool :=
  match p with Some (InLock (LockArbitrate _)) => true | _ => false end.

Definition after_lock (pc : lock_pc) : tpc :=
  match pc with LockDone => Inside | _ => InLock pc end.

Section Interleavings.

(** The handles of the threads, and what [ArbitrateUnlock] may leave in the
    word. *)
Context (h : nat -> Z) (arbiter : list tpc -> Z -> Z -> Prop).

Inductive mutex_step : Z * list tpc -> Z * list tpc -> Prop :=
  | step_lock_call t w pcs : pcs !! t = Some Outside ->
      mutex_step (w, pcs) (w, <[t := InLock LockCas]> pcs)
  | step_try_lock t w pcs ok w' : pcs !! t = Some Outside -> Mutex_TryLock (h t) w = (ok, w') ->
      mutex_step (w, pcs) (w', <[t := if ok then Inside else Outside]> pcs)
  | step_lock t w pcs pc pc' w' : pcs !! t = Some (InLock pc) -> lock_step (h t) pc w = (pc', w') ->
      mutex_step (w, pcs) (w', <[t := after_lock pc']> pcs)
  | step_unlock_call t w pcs : pcs !! t = Some Inside -> mutex_step (w, pcs) (w, <[t := InUnlock]> pcs)
  | step_unlock t w pcs arb w' : pcs !! t = Some InUnlock -> Mutex_Unlock (h t) w = (arb, w') ->
      mutex_step (w, pcs) (w', <[t := if arb then Arbitrating else Outside]> pcs)
  | step_arbitrate t w pcs w' : pcs !! t = Some Arbitrating -> arbiter pcs w w' ->
      mutex_step (w, pcs) (w', <[t := Outside]> pcs).

Context (n : nat) (handles : forall t, is_handle (h t)).
Context (distinct : forall t u, (t < n)%nat -> (u < n)%nat -> h t = h u -> t = u).

(** The arbiter clears the word or hands it to a thread that waits for it, with
    the bit when more threads wait. *)
Context (arbiter_spec : forall pcs w w', arbiter pcs w w' ->
  w' = 0 \/ exists t, waits (pcs !! t) = true /\ (w' = h t \/ w' = Z.lor (h t) HAS_LISTENERS)).

(** A thread only marks an owned word, and is no longer in [Lock] when done. *)
Definition mark_ok (p : tpc) : bool :=
  match p with InLock (LockMark cur) => negb (cur =? 0) | InLock LockDone => false | _ => true end.

Definition mutex_inv (c : Z * list tpc) : Prop :=
  word_ok c.1 /\ (forall t, in_section (c.2 !! t) = true -> owner_of c.1 = h t) /\
  Forall (fun p => mark_ok p) c.2 /\ length c.2 = n.

Lemma section_update (pcs : list tpc) (t u : nat) p : in_section (<[t := p]> pcs !! u) = true ->
  (u = t /\ in_section (Some p) = true) \/ (u <> t /\ in_section (pcs !! u) = true).
Proof.
  destruct (decide (u = t)) as [-> | Hn].
  - destruct (lt_dec t (length pcs)) as [Hl | Hl].
    + rewrite list_lookup_insert_eq by done. by left.
    + rewrite list_insert_ge, lookup_ge_None_2 by lia. done.
  - rewrite list_lookup_insert_ne by done. by right.
Qed.

Lemma section_lt (pcs : list tpc) (t : nat) : length pcs = n -> in_section (pcs !! t) = true -> (t < n)%nat.
Proof. intros <- H. destruct (pcs !! t) eqn:E; [by apply lookup_lt_Some in E | done]. Qed.

Lemma free_word_empty (pcs : list tpc) : (forall t : nat, in_section (pcs !! t) = true -> owner_of 0 = h t) ->
  forall t : nat, in_section (pcs !! t) = true -> False.
Proof. intros H t Ht. apply H in Ht. destruct (handles t). change (owner_of 0) with 0 in Ht. lia. Qed.

(** A thread that takes the word, or finds itself its owner, is alone. *)
Lemma inv_take pcs (t : nat) w w' : mutex_inv (w, pcs) ->
  ((w = 0 /\ w' = h t) \/ (w' = w /\ owner_of w = h t)) -> mutex_inv (w', <[t := Inside]> pcs).
Proof.
  intros (Hw & Hi & Hm & Hn) Hc. simpl in *.
  assert (Forall (fun p => mark_ok p) (<[t := Inside]> pcs)) by by apply Forall_insert.
  destruct Hc as [[-> ->] | [-> Ho]]; (split; [| split; [| split]]); simpl;
    rewrite ?length_insert; try done.
  - by constructor.
  - destruct (owner_of_handle (h t) (handles t)) as [-> _].
    intros u [[-> _] | [_ Hu]]%section_update; [done |]. by destruct (free_word_empty pcs Hi u).
  - intros u [[-> _] | [_ Hu]]%section_update; [done | by apply Hi].
Qed.

(** A thread that stays outside changes nothing but the bit. *)
Lemma inv_outside pcs (t : nat) w w' p : mutex_inv (w, pcs) -> word_ok w' -> owner_of w' = owner_of w ->
  in_section (Some p) = false -> mark_ok p -> mutex_inv (w', <[t := p]> pcs).
Proof.
  intros (Hw & Hi & Hm & Hn) Hw' Ho Hp Hmp. cbn [fst snd] in *. split; [done | split; [| split]]; cbn [fst snd].
  - intros u [[_ Hu] | [_ Hu]]%section_update; [by rewrite Hp in Hu |]. rewrite Ho. by apply Hi.
  - by apply Forall_insert.
  - by rewrite length_insert.
Qed.

Lemma mutex_inv_lock (t : nat) w pcs pc pc' w' : mutex_inv (w, pcs) -> pcs !! t = Some (InLock pc) ->
  lock_step (h t) pc w = (pc', w') -> mutex_inv (w', <[t := after_lock pc']> pcs).
Proof.
  intros Hinv Hpc Hs. pose proof Hinv as (Hw & Hi & Hm & _). simpl in Hw, Hi, Hm.
  destruct pc; simpl in Hs.
  - destruct (Z.eqb_spec w 0) as [Ez | Ez]; [injection Hs as <- <-; apply (inv_take pcs t w); [done | by left] |].
    destruct (Z.eqb_spec (owner_of w) (h t)); [injection Hs as <- <-; apply (inv_take pcs t w); [done | by right] |].
    destruct (has_listeners w); injection Hs as <- <-; apply (inv_outside pcs t w); try done.
    simpl. apply Z.eqb_neq in Ez. by rewrite Ez.
  - destruct (Z.eqb_spec w cur) as [-> | Hn]; injection Hs as <- <-; [| by apply (inv_outside pcs t w)].
    destruct (word_owner cur Hw) as [(-> & _ & _) | (Hh & [[E _] | [E Hl]])].
    + by pose proof (Forall_lookup_1 _ _ _ _ Hm Hpc).
    + destruct (owner_of_marked _ Hh) as [Eo _]. rewrite E at 2.
      apply (inv_outside pcs t cur); try done; rewrite E at 1; [by constructor | done].
    + assert (Z.lor cur HAS_LISTENERS = cur) as -> by (by rewrite E, <- Z.lor_assoc, Z.lor_diag).
      by apply (inv_outside pcs t cur).
  - injection Hs as <- <-. by apply (inv_outside pcs t w).
  - by pose proof (Forall_lookup_1 _ _ _ _ Hm Hpc).
Qed.

Lemma mutex_inv_try (t : nat) w pcs ok w' : mutex_inv (w, pcs) -> Mutex_TryLock (h t) w = (ok, w') ->
  mutex_inv (w', <[t := if ok then Inside else Outside]> pcs).
Proof.
  intros Hinv Hs. pose proof Hinv as (Hw & _). simpl in Hw, Hs. unfold Mutex_TryLock, cas in Hs.
  destruct (Z.eqb_spec w 0) as [Ez | Ez]; [injection Hs as <- <-; apply (inv_take pcs t w); [done | by left] |].
  destruct (Z.eqb_spec (owner_of w) (h t)); injection Hs as <- <-;
    [apply (inv_take pcs t w); [done | by right] | by apply (inv_outside pcs t w)].
Qed.

(** A thread that is not the only one in the section cannot exist, so the word
    may change hands when it leaves. *)
Lemma inv_release pcs (t : nat) w w' p : mutex_inv (w, pcs) -> in_section (pcs !! t) = true ->
  word_ok w' -> (in_section (Some p) = true -> owner_of w' = h t) -> mark_ok p ->
  mutex_inv (w', <[t := p]> pcs).
Proof.
  intros (Hw & Hi & Hm & Hl) Ht Hw' Hp Hmp. simpl in *. split; [done | split; [| split]]; simpl.
  - intros u [[-> Hu] | [Hn Hu]]%section_update; [by apply Hp |].
    exfalso. apply Hn, distinct; try by apply (section_lt pcs).
    by rewrite <- (Hi u Hu), <- (Hi t Ht).
  - by apply Forall_insert.
  - by rewrite length_insert.
Qed.

Lemma mutex_inv_unlock (t : nat) w pcs arb w' : mutex_inv (w, pcs) -> pcs !! t = Some InUnlock ->
  Mutex_Unlock (h t) w = (arb, w') -> mutex_inv (w', <[t := if arb then Arbitrating else Outside]> pcs).
Proof.
  intros Hinv Hpc Hs. pose proof Hinv as (Hw & Hi & _). simpl in *.
  assert (in_section (pcs !! t) = true) as Ht by by rewrite Hpc.
  specialize (Hi t Ht). injection Hs as <- <-. rewrite <- Hi.
  destruct (word_owner w Hw) as [(-> & Eo & _) | (Hh & [[E El] | [E El]])].
  - destruct (handles t). rewrite Eo in Hi. lia.
  - rewrite El, <- E, Z.eqb_refl. apply (inv_release pcs t w); try done. by constructor.
  - rewrite El. destruct (Z.eqb_spec w (owner_of w)) as [E' | _].
    + apply (inv_release pcs t w); try done; [by constructor |].
      rewrite E' in El. destruct (owner_of_handle _ Hh) as [_ El']. by rewrite El' in El.
    + by apply (inv_release pcs t w).
Qed.

Lemma mutex_inv_step c c' : mutex_inv c -> mutex_step c c' -> mutex_inv c'.
Proof.
  intros Hinv Hs. destruct Hs as [t w pcs Hp | t w pcs ok w' Hp Ht | t w pcs pc pc' w' Hp Hl
    | t w pcs Hp | t w pcs arb w' Hp Hu | t w pcs w' Hp Ha]; pose proof Hinv as (Hw & Hi & Hm & _); simpl in *.
  - by apply (inv_outside pcs t w).
  - by apply (mutex_inv_try t w).
  - by apply (mutex_inv_lock t w pcs pc).
  - apply (inv_release pcs t w); try done; [by rewrite Hp |]. intros _. apply Hi. by rewrite Hp.
  - by apply (mutex_inv_unlock t w).
  - apply (inv_release pcs t w); try done; [by rewrite Hp |].
    apply arbiter_spec in Ha as [-> | (u & _ & [-> | ->])]; by constructor.
Qed.

Lemma mutex_inv_start : mutex_inv (0, replicate n Outside).
Proof.
  split; [by constructor | split; [| split]]; simpl.
  - intros t Ht. destruct (replicate n Outside !! t) as [p |] eqn:E; [| done].
    apply lookup_replicate in E as [-> _]. done.
  - by apply Forall_replicate.
  - apply length_replicate.
Qed.

(** C18: threads that share a [Mutex], enter by [Lock] or [TryLock] and leave by
    [Unlock], are never inside together, whatever the interleaving, however the
    kernel wakes the waiters, and whichever waiter it hands the mutex to. *)
Theorem bio_mutex_exclusion w pcs (t u : nat) :
  rtc mutex_step (0, replicate n Outside) (w, pcs) ->
  in_section (pcs !! t) = true -> in_section (pcs !! u) = true -> t = u.
Proof.
  intros Hr Ht Hu. assert (mutex_inv (w, pcs)) as (_ & Hi & _ & Hl).
  { remember (0, replicate n Outside) as c0 eqn:E0. remember (w, pcs) as c1 eqn:E1.
    assert (mutex_inv c0) as H0 by (rewrite E0; apply mutex_inv_start). clear E0 E1 Ht Hu.
    induction Hr as [| c c1 c2 Hs _ IH]; [done |]. by apply IH, (mutex_inv_step c). }
  apply distinct; try by apply (section_lt pcs). by rewrite <- (Hi t Ht), <- (Hi u Hu).
Qed.
End Interleavings.

(** ** The recursive mutex, one thread *)
Section Recursive.
Context (al : Z -> Z -> Z -> Z) (au : Z -> Z) (fuel : nat) (self : Z).
Context (Hfuel : (2 <= fuel)%nat) (Hself : is_handle self).

Fixpoint locks (n : nat) (m : RecursiveMutex) : option RecursiveMutex :=
  match n with O => Some m | S n => m ← RecursiveMutex_Lock al fuel self m; locks n m end.

Definition try_locks (n : nat) (m : RecursiveMutex) : RecursiveMutex :=
  Nat.iter n (fun m => snd (RecursiveMutex_TryLock self m)) m.

Definition unlocks (n : nat) (m : RecursiveMutex) : RecursiveMutex :=
  Nat.iter n (RecursiveMutex_Unlock au self) m.

(** A free mutex, or one it holds, is taken at once. *)
Lemma lock_run_taken w : w = 0 \/ w = self -> lock_run al fuel self LockCas w = Some self.
Proof.
  intros Hw. destruct fuel as [| [| f]]; [lia | lia |].
  destruct (owner_of_handle self Hself) as [Ho _]. unfold is_handle in Hself.
  cbn [lock_run lock_step cas]. destruct Hw as [-> | ->]; [done |].
  rewrite (proj2 (Z.eqb_neq self 0)) by lia. by rewrite Ho, Z.eqb_refl.
Qed.

(** [Lock] takes the word and forgets to count. *)
Lemma locks_spec n w c : w = 0 \/ w = self -> (0 < n)%nat ->
  locks n (MkRecursive w 0 c) = Some (MkRecursive self 0 c).
Proof.
  revert w. induction n as [| n IH]; intros w Hw Hn; [lia |]. unfold is_handle in Hself.
  cbn [locks]. unfold RecursiveMutex_Lock. cbn [handle mutex counter].
  rewrite (proj2 (Z.eqb_neq 0 self)), lock_run_taken by (done || lia). cbn [negb mbind option_bind].
  destruct n; [done |]. apply IH; [by right | lia].
Qed.

Lemma unlocks_uncounted m w : (Z.of_nat m < 2 ^ 32) ->
  unlocks m (MkRecursive w 0 0) = MkRecursive w 0 (u32 (- Z.of_nat m)).
Proof.
  induction m as [| m IH]; intros Hm; [done |]. unfold unlocks in *. rewrite Nat.iter_succ.
  rewrite IH by lia. unfold RecursiveMutex_Unlock. cbn [handle mutex counter].
  unfold u32, wrap. rewrite Zminus_mod_idemp_l.
  replace (- Z.of_nat m - 1) with (- Z.of_nat (S m)) by lia.
  destruct (Z.eqb_spec ((- Z.of_nat (S m)) mod 2 ^ 32) 0) as [E |]; [| done]. exfalso.
  rewrite Z.mod_opp_l_nz in E by (rewrite ?Z.mod_small; lia).
  rewrite Z.mod_small in E by lia. lia.
Qed.

(** [k] calls of [TryLock] and as many of [Unlock] are balanced. *)
Lemma recursive_trylock_nesting k :
  0 < Z.of_nat k < 2 ^ 32 ->
  try_locks k RecursiveMutex_new = MkRecursive self self (Z.of_nat k) /\
  unlocks k (try_locks k RecursiveMutex_new) = RecursiveMutex_new.
Proof.
  intros Hk. unfold is_handle in Hself. destruct (owner_of_handle self Hself) as [Ho Hl].
  assert (forall j, (0 < j)%nat -> Z.of_nat j < 2 ^ 32 ->
    try_locks j RecursiveMutex_new = MkRecursive self self (Z.of_nat j)) as Ht.
  { induction j as [| j IH]; intros Hj Hj'; [lia |]. unfold try_locks in *. rewrite Nat.iter_succ.
    destruct j as [| j].
    - change (Nat.iter 0 _ _) with RecursiveMutex_new.
      unfold RecursiveMutex_TryLock, RecursiveMutex_new, cas. cbn [handle mutex counter].
      by rewrite (proj2 (Z.eqb_neq 0 self)) by lia.
    - rewrite IH by lia. unfold RecursiveMutex_TryLock. cbn [handle mutex counter].
      rewrite Z.eqb_refl. cbn [negb snd]. f_equal. rewrite u32_small; lia. }
  split; [apply Ht; lia |]. rewrite Ht by lia.
  assert (forall j, (j < k)%nat ->
    unlocks j (MkRecursive self self (Z.of_nat k)) = MkRecursive self self (Z.of_nat (k - j))) as Hu.
  { induction j as [| j IH]; intros Hj; [by rewrite Nat.sub_0_r |]. unfold unlocks in *. rewrite Nat.iter_succ.
    rewrite IH by lia. unfold RecursiveMutex_Unlock. cbn [handle mutex counter].
    rewrite u32_small by lia. rewrite (proj2 (Z.eqb_neq _ _)) by lia. f_equal. lia. }
  destruct k as [| k]; [lia |]. unfold unlocks in *. rewrite Nat.iter_succ. rewrite Hu by lia.
  unfold RecursiveMutex_Unlock. cbn [handle mutex counter].
  replace (Z.of_nat (S k - k)) with 1 by lia. change (u32 (1 - 1)) with 0. simpl.
  unfold unlock_run, Mutex_Unlock, cas. rewrite Hl, Z.eqb_refl. done.
Qed.

(** C19: a recursive mutex taken with [Lock] is never given back: [Lock] returns
    from inside its loop, before it records the owner and the count, so
    [Unlock] counts down from zero. After any number of calls of [Lock] and any
    number of calls of [Unlock] below 2^32, the word still names the thread and
    no other thread gets the mutex. *)
Theorem recursive_lock_never_released n m other :
  (0 < n)%nat -> Z.of_nat m < 2 ^ 32 -> is_handle other -> other <> self ->
  exists rm, locks n RecursiveMutex_new = Some rm /\
    mutex (unlocks m rm) = self /\ fst (RecursiveMutex_TryLock other (unlocks m rm)) = false.
Proof.
  intros Hn Hm Ho Hne. exists (MkRecursive self 0 0).
  unfold RecursiveMutex_new. rewrite locks_spec by (done || by left). split; [done |].
  rewrite unlocks_uncounted by done. split; [done |].
  destruct (owner_of_handle self Hself) as [Eo _]. unfold is_handle in Hself, Ho.
  unfold RecursiveMutex_TryLock, cas. cbn [handle mutex counter].
  rewrite (proj2 (Z.eqb_neq 0 other)), (proj2 (Z.eqb_neq self 0)), Eo by lia.
  by rewrite (proj2 (Z.eqb_neq self other)) by lia.
Qed.
End Recursive.

(** ** Witnesses *)

(** Two threads with the handles 1 and 2; the arbiter hands the mutex to the
    second when it waits. *)
Definition two_handles (t : nat) : Z := match t with O => 1 | _ => 2 end.

Definition hand_over (pcs : list tpc) (_ w' : Z) : Prop :=
  if waits (pcs !! 1%nat) then w' = 2 else w' = 0.

Lemma hand_over_spec pcs w w' : hand_over pcs w w' ->
  w' = 0 \/ exists t : nat, waits (pcs !! t) = true /\
    (w' = two_handles t \/ w' = Z.lor (two_handles t) HAS_LISTENERS).
Proof.
  unfold hand_over. destruct (waits _) eqn:E; [| by left]. intros ->. right. exists 1%nat. by split; [| left].
Qed.

(** Thread 0 takes the mutex, thread 1 marks it and waits, thread 0 hands it
    over, thread 1 returns from the kernel and from [Lock]. *)
Lemma hand_over_run :
  rtc (mutex_step two_handles hand_over) (0, replicate 2 Outside) (2, [Outside; Inside]).
Proof.
  eapply rtc_l; [by apply (step_try_lock _ _ 0%nat 0 [Outside; Outside] true 1) |].
  eapply rtc_l; [by apply (step_lock_call _ _ 1%nat) |].
  eapply rtc_l; [by apply (step_lock _ _ 1%nat 1 [Inside; InLock LockCas] LockCas (LockMark 1) 1) |].
  eapply rtc_l; [by apply (step_lock _ _ 1%nat 1 [Inside; InLock (LockMark 1)] (LockMark 1)
    (LockArbitrate 1) (Z.lor 1 HAS_LISTENERS)) |].
  eapply rtc_l; [by apply (step_unlock_call _ _ 0%nat) |].
  eapply rtc_l; [by apply (step_unlock _ _ 0%nat (Z.lor 1 HAS_LISTENERS)
    [InUnlock; InLock (LockArbitrate 1)] true (Z.lor 1 HAS_LISTENERS)) |].
  eapply rtc_l; [by apply (step_arbitrate _ _ 0%nat _ [Arbitrating; InLock (LockArbitrate 1)] 2) |].
  eapply rtc_l; [by apply (step_lock _ _ 1%nat 2 [Outside; InLock (LockArbitrate 1)] (LockArbitrate 1) LockCas 2) |].
  eapply rtc_l; [by apply (step_lock _ _ 1%nat 2 [Outside; InLock LockCas] LockCas LockDone 2) |].
  apply rtc_refl.
Qed.

Lemma bio_mutex_exclusion_witness : in_section ([Outside; Inside] !! 1%nat) = true /\ (1 = 1)%nat.
Proof.
  split; [reflexivity |].
  apply (bio_mutex_exclusion two_handles hand_over 2) with (w := 2) (pcs := [Outside; Inside]).
  - intros [| t]; unfold is_handle, HAS_LISTENERS; simpl; lia.
  - intros [| [| t]] [| [| u]]; simpl; lia.
  - apply hand_over_spec.
  - apply hand_over_run.
  - reflexivity.
  - reflexivity.
Defined.

Lemma recursive_lock_never_released_witness :
  exists rm, locks (fun _ w _ => w) 2 7 1 RecursiveMutex_new = Some rm /\
    mutex (unlocks (fun w => w) 7 1 rm) = 7 /\
    fst (RecursiveMutex_TryLock 8 (unlocks (fun w => w) 7 1 rm)) = false.
Proof.
  apply (recursive_lock_never_released (fun _ w _ => w) (fun w => w) 2 7); unfold is_handle, HAS_LISTENERS; lia.
Defined.
