(* ===== verification/BioFs.v ===== *)
(** * libbio: paths, mounted devices and open files

    source/bio/fs/fs_Device.cpp (path processing, the table of devices, the
    newlib calls on descriptors) and the file of source/bio/fs/fs_FspImpl.cpp.

    A C string is the list of its characters before the NUL. [None] is an access
    outside an array. The file-system service behind a device is a parameter:
    its state [S] and its operations. *)

From Stdlib Require Import ZArith Lia.
From stdpp Require Import base list option.
From S2P Require Import Prelude PthreadH LzmaBase BioTypes.
Local Open Scope Z_scope.

(** ** Paths *)
Definition PathMax : Z := 0x301.
Definition slash : Z := 47.
Definition colon : Z := 58.

(** [_inner_ProcessedPathBlock]: [None] when not valid. *)
Record processed := MkProcessed { mount : list Z; processed_path : list Z }.

(** [buf[i] = c] in a zeroed array of [PathMax], where [i] is the number of
    characters written so far. *)
Definition put (buf : list Z) (c : Z) : option (list Z) :=
  if Z.of_nat (length buf) <? PathMax then Some (buf ++ [c]) else None.

(** [strlen], which needs the NUL within the array. *)
Definition strlen (buf : list Z) : option Z :=
  let n := Z.of_nat (length buf) in if n <? PathMax then Some n else None.

(** [imount] counts the mount name, and is -1 after the colon. *)
Fixpoint process_loop (path : list Z) (imount : Z) (mnt ppath : list Z) : option (option processed) :=
  match path with
  | [] =>
      nm ← strlen mnt;
      ppath ← (if 0 <? nm then np ← strlen ppath; Some (if np =? 0 then [slash] else ppath) else Some ppath);
      Some (Some (MkProcessed mnt ppath))
  | c :: path =>
      if c =? slash then
        if 0 <? imount then Some None
        else if match path with c' :: _ => negb (c' =? slash) | [] => true end
        then ppath ← put ppath c; process_loop path imount mnt ppath
        else process_loop path imount mnt ppath
      else if c =? colon then
        if imount <=? 0 then Some None else process_loop path (-1) mnt ppath
      else if imount =? -1 then ppath ← put ppath c; process_loop path imount mnt ppath
      else mnt ← put mnt c; process_loop path (imount + 1) mnt ppath
  end.

Definition _inner_ProcessPath (path : list Z) : option (option processed) := process_loop path 0 [] [].

(** ** Devices *)
Definition tolower (c : Z) : Z := if (65 <=? c) && (c <=? 90) then c + 32 else c.

(** [strcasecmp(a, b) == 0]. *)
Definition strcaseeq (a b : list Z) : bool := bool_decide (tolower <$> a = tolower <$> b).

Section Devices.
Context {D : Type}.

Record Device := MkDevice { dev_mount : list Z; dev_object : D }.

Fixpoint _inner_SearchDevice (devices : list Device) (name : list Z) : option Device :=
  match devices with
  | [] => None
  | d :: devices => if strcaseeq name (dev_mount d) then Some d else _inner_SearchDevice devices name
  end.

Definition ResultMountNameInUse_nn : Z := 0x7802.

Definition Mount (devices : list Device) (d : Device) : Result * list Device :=
  if existsb (fun d' => strcaseeq (dev_mount d) (dev_mount d')) devices
  then (Result_of_raw ResultMountNameInUse_nn, devices)
  else (Result_of_raw 0, devices ++ [d]).

Fixpoint Unmount (devices : list Device) (name : list Z) : list Device :=
  match devices with
  | [] => []
  | d :: devices => if strcaseeq name (dev_mount d) then devices else d :: Unmount devices name
  end.

Definition UnmountAll : list Device := [].
End Devices.
Arguments Device : clear implicits.

(** ** Files of a file-system device *)
Definition SEEK_SET : Z := 0.
Definition SEEK_CUR : Z := 1.
Definition SEEK_END : Z := 2.
Definition ResultInvalidSeek : Z := 0x2ee202.

(** [fsp::File], the session with the service: reading gives the bytes. *)
Class FspFile (S F : Type) := {
  fsp_Read : F -> Z -> Z -> S -> Result * list Z * S;
  fsp_Write : F -> Z -> list Z -> S -> Result * S;
  fsp_GetSize : F -> S -> Result * Z * S;
  fsp_Flush : F -> S -> Result * S
}.

Section Files.
Context {S F : Type} `{FspFile S F}.

Record FileSystemDeviceFile := MkFile { ifile : F; offset : Z }.

Definition Read (f : FileSystemDeviceFile) (size : Z) (s : S) : Result * list Z * S :=
  fsp_Read (ifile f) (offset f) size s.

Definition Write (f : FileSystemDeviceFile) (data : list Z) (s : S) : Result * S :=
  fsp_Write (ifile f) (offset f) data s.

Definition Flush (f : FileSystemDeviceFile) (s : S) : Result * S := fsp_Flush (ifile f) s.

(** [pos] is an [int]; the caller's [off_t] or [u64] has been converted. The
    result of [GetSize] is not looked at. *)
Definition Seek (f : FileSystemDeviceFile) (pos whence : Z) (s : S)
    : Result * Z * FileSystemDeviceFile * S :=
  let move tmpoff s :=
    if (pos <? 0) && (tmpoff <? u64 (i32 (- pos))) then (Result_of_raw ResultInvalidSeek, 0, f, s)
    else let off := u64 (tmpoff + pos) in (Result_of_raw 0, off, MkFile (ifile f) off, s) in
  if whence =? SEEK_SET then move 0 s
  else if whence =? SEEK_CUR then move (offset f) s
  else if whence =? SEEK_END then let '(_, size, s) := fsp_GetSize (ifile f) s in move size s
  else (Result_of_raw ResultInvalidSeek, 0, f, s).

(** ** Descriptors

    The list of open files, the [errno] of the caller and the service. *)
Record fs_state := MkFs { files : list FileSystemDeviceFile; errno : Z; service : S }.

(** [int vecidx = file - 200; if(vecidx < _inner_FileList.size())]: the
    comparison is on [size_t]. *)
Definition file_index (file : Z) (st : fs_state) : option nat :=
  let vecidx := u64 (i32 (file - 200)) in
  if vecidx <? Z.of_nat (length (files st)) then Some (Z.to_nat vecidx) else None.

Definition bad_file (st : fs_state) : Z * fs_state := (-1, MkFs (files st) EBADF (service st)).

Definition ReturnSetErrno (res : Result) (st : fs_state) : Z * fs_state :=
  if IsSuccess res then (0, st) else (-1, MkFs (files st) (GetErrnoFrom res) (service st)).

Definition put_file (i : nat) (f : FileSystemDeviceFile) (st : fs_state) (s : S) : fs_state :=
  MkFs (<[i := f]> (files st)) (errno st) s.

Definition push_file (f : FileSystemDeviceFile) (st : fs_state) : Z * fs_state :=
  let files := files st ++ [f] in
  (i32 (Z.of_nat (length files) - 1 + 200), MkFs files (errno st) (service st)).

Definition _lseek_r (file pos whence : Z) (st : fs_state) : Z * fs_state :=
  match file_index file st with
  | Some i =>
      match files st !! i with
      | Some f =>
          let '(res, ret, f, s) := Seek f (i32 pos) whence (service st) in
          let st := put_file i f st s in
          if IsFailure res then ReturnSetErrno res st else (ret, st)
      | None => (0, st)
      end
  | None => bad_file st
  end.

(** The bytes read are returned with the count. *)
Definition _read_r (file len : Z) (st : fs_state) : Z * list Z * fs_state :=
  match file_index file st with
  | Some i =>
      match files st !! i with
      | Some f =>
          let '(res, data, s) := Read f len (service st) in
          let ret := Z.of_nat (length data) in
          let '(res, f, s) :=
            if IsSuccess res
            then let '(res, _, f, s) := Seek f (i32 ret) SEEK_CUR s in (res, f, s)
            else (res, f, s) in
          let st := put_file i f st s in
          if IsFailure res then let '(r, st) := ReturnSetErrno res st in (r, data, st) else (ret, data, st)
      | None => (0, [], st)
      end
  | None => let '(r, st) := bad_file st in (r, [], st)
  end.

(** [ret] is still 0 where the position is moved by it. *)
Definition _write_r (file : Z) (data : list Z) (log : Z -> list Z -> S -> S) (st : fs_state) : Z * fs_state :=
  let len := Z.of_nat (length data) in
  if (file =? 1) || (file =? 2) then (len, MkFs (files st) (errno st) (log file data (service st)))
  else
    match file_index file st with
    | Some i =>
        match files st !! i with
        | Some f =>
            let ret := 0 in
            let '(res, s) := Write f data (service st) in
            let '(res, f, s) :=
              if IsSuccess res
              then let '(res, _, f, s) := Seek f (i32 ret) SEEK_CUR s in (res, f, s)
              else (res, f, s) in
            let '(res, s) := if IsSuccess res then Flush f s else (res, s) in
            let st := put_file i f st s in
            if IsFailure res then ReturnSetErrno res st else (len, st)
        | None => (0, st)
        end
    | None => bad_file st
    end.

Definition _close_r (file : Z) (st : fs_state) : Z * fs_state :=
  match file_index file st with
  | Some i => (0, MkFs (delete i (files st)) (errno st) (service st))
  | None => bad_file st
  end.
End Files.
Arguments FileSystemDeviceFile : clear implicits.
Arguments fs_state : clear implicits.

(** ** Opening files

    [fsp::FileSystem] behind a [FileSystemDevice]. *)
Class FspFileSystem (S F : Type) := {
  fsp_CreateFile : list Z -> S -> Result * S;
  fsp_OpenFile : Z -> list Z -> S -> Result * F * S;
  fsp_SetSize : F -> Z -> S -> Result * S;
  fsp_CreateDirectory : list Z -> S -> Result * S;
  fsp_DeleteDirectoryRecursively : list Z -> S -> Result * S
}.

Definition O_RDONLY : Z := 0.
Definition O_WRONLY : Z := 1.
Definition O_RDWR : Z := 2.
Definition O_ACCMODE : Z := 3.
Definition O_APPEND : Z := 0x8.
Definition O_CREAT : Z := 0x200.
Definition O_TRUNC : Z := 0x400.
Definition flag (flags f : Z) : bool := negb (Z.land flags f =? 0).

Section Opening.
Context {S F : Type} `{FspFileSystem S F}.

(** The service flags of the access mode; [None]: refused with [EINVAL]. *)
Definition open_mode (flags : Z) : option Z :=
  let acc := Z.land flags O_ACCMODE in
  if acc =? O_RDONLY then if flag flags O_APPEND then None else Some 1
  else if acc =? O_WRONLY then Some (Z.lor 2 4)
  else if acc =? O_RDWR then Some (Z.lor (Z.lor 1 2) 4)
  else None.

Definition OpenFile (path : list Z) (flags : Z) (st : fs_state S F)
    : Result * option (FileSystemDeviceFile F) * fs_state S F :=
  match open_mode flags with
  | None => (Result_of_raw (u32 (-1)), None, MkFs (files st) EINVAL (service st))
  | Some fspflags =>
      let '(res1, s) :=
        if flag flags O_CREAT then fsp_CreateFile path (service st) else (Result_default, service st) in
      if IsFailure res1 then (res1, None, MkFs (files st) (errno st) s)
      else
        let '(res, file, s) := fsp_OpenFile fspflags path s in
        if IsSuccess res then
          let '(res, s) :=
            if negb (Z.land flags O_ACCMODE =? O_RDONLY) && flag flags O_TRUNC
            then fsp_SetSize file 0 s else (res, s) in
          let out := if IsSuccess res then Some (MkFile file 0) else None in
          (res, out, MkFs (files st) (errno st) s)
        else (res, None, MkFs (files st) (errno st) s)
  end.

(** [PROCESS_PATH(-1)] and the call on the device; the outer [None] is the
    overrun of [_inner_ProcessPath]. *)
Definition with_path (devices : list (Device unit)) (path : list Z) (st : fs_state S F)
    (k : list Z -> Z * fs_state S F) : option (Z * fs_state S F) :=
  pp ← _inner_ProcessPath path;
  Some match pp with
       | None => (-1, MkFs (files st) ENOENT (service st))
       | Some pp =>
           match _inner_SearchDevice devices (mount pp) with
           | None => (-1, MkFs (files st) ENODEV (service st))
           | Some _ => k (processed_path pp)
           end
       end.

Definition _open_r (devices : list (Device unit)) (path : list Z) (flags : Z) (st : fs_state S F)
    : option (Z * fs_state S F) :=
  with_path devices path st (fun ppath =>
    let '(res, devf, st) := OpenFile ppath flags st in
    match IsSuccess res, devf with
    | true, Some f => push_file f st
    | _, _ => ReturnSetErrno res st
    end).

Definition mkdir (devices : list (Device unit)) (path : list Z) (st : fs_state S F)
    : option (Z * fs_state S F) :=
  with_path devices path st (fun ppath =>
    let '(res, s) := fsp_CreateDirectory ppath (service st) in
    ReturnSetErrno res (MkFs (files st) (errno st) s)).

Definition rmdir (devices : list (Device unit)) (path : list Z) (st : fs_state S F)
    : option (Z * fs_state S F) :=
  with_path devices path st (fun ppath =>
    let '(res, s) := fsp_DeleteDirectoryRecursively ppath (service st) in
    ReturnSetErrno res (MkFs (files st) (errno st) s)).
End Opening.

Example process_sdmc : _inner_ProcessPath [115; 100; 58; 47; 97; 47; 47; 98]
  = Some (Some (MkProcessed [115; 100] [47; 97; 47; 98])).
Proof. reflexivity. Qed.

Example process_root : _inner_ProcessPath [115; 100; 58] = Some (Some (MkProcessed [115; 100] [47])).
Proof. reflexivity. Qed.

(** A path without a colon is taken for the root of a device. *)
Example process_relative : _inner_ProcessPath [97; 98] = Some (Some (MkProcessed [97; 98] [47])).
Proof. reflexivity. Qed.

(** ** The path of a device *)
Fixpoint collapse (p : list Z) : list Z :=
  match p with
  | [] => []
  | c :: p =>
      if (c =? slash) && match p with c' :: _ => c' =? slash | [] => false end
      then collapse p else c :: collapse p
  end.

Fixpoint single_slashes (p : list Z) : bool :=
  match p with
  | [] => true
  | c :: p => negb ((c =? slash) && match p with c' :: _ => c' =? slash | [] => false end) && single_slashes p
  end.

Definition plain (c : Z) : Prop := c <> slash /\ c <> colon.

Lemma collapse_head p c : c <> slash -> collapse (c :: p) = c :: collapse p.
Proof. intros H. simpl. by rewrite (proj2 (Z.eqb_neq _ _) H). Qed.

Lemma collapse_single p : single_slashes (collapse p).
Proof.
  induction p as [| c p IH]; [done |]. simpl.
  destruct ((c =? slash) && _) eqn:E; [done |]. simpl. apply andb_True. split; [| done].
  apply negb_prop_intro. intros [Hc Hh]%andb_True.
  destruct p as [| c' p]; [done |]. apply Is_true_true in Hc. rewrite Hc in E. simpl in E.
  apply Z.eqb_neq in E. rewrite collapse_head in Hh by done.
  apply Is_true_true, Z.eqb_eq in Hh. done.
Qed.

(** The slashes before the name become one slash before the rest. *)
Definition slashes (k : nat) : list Z := replicate k slash.
Definition lead (k : nat) : list Z := match k with O => [] | S _ => [slash] end.
Definition colonless (c : Z) : Prop := c <> colon.

(** The shapes of a path: what goes to the array [mount], what to [processed_path],
    and the answer. *)
Inductive path_shape : list Z -> list Z -> list Z -> option processed -> Prop :=
| ps_slashes k : path_shape (slashes k) [] (lead k) (Some (MkProcessed [] (lead k)))
| ps_nameless k t : path_shape (slashes k ++ colon :: t) [] (lead k) None
| ps_name k m : m <> [] -> Forall plain m ->
    path_shape (slashes k ++ m) m (lead k) (Some (MkProcessed m [slash]))
| ps_slash k m t : m <> [] -> Forall plain m -> path_shape (slashes k ++ m ++ slash :: t) m (lead k) None
| ps_path k m r : m <> [] -> Forall plain m -> Forall colonless r ->
    path_shape (slashes k ++ m ++ colon :: r) m (lead k ++ collapse r)
      (Some (MkProcessed m (if bool_decide (lead k ++ collapse r = []) then [slash] else lead k ++ collapse r)))
| ps_colon k m r t : m <> [] -> Forall plain m -> Forall colonless r ->
    path_shape (slashes k ++ m ++ colon :: r ++ colon :: t) m (lead k ++ collapse r) None.

(** The arrays have room for [PathMax] characters, one of them the NUL of a string that
    is read again. *)
Definition room (v : option processed) : Z := match v with Some _ => PathMax - 1 | None => PathMax end.

Definition within (l : list Z) (n : Z) : Prop := Z.of_nat (length l) <= n.

#[export] Instance within_dec l n : Decision (within l n).
Proof. unfold within. apply _. Defined.

Lemma put_within buf c : put buf c = if bool_decide (within (buf ++ [c]) PathMax) then Some (buf ++ [c]) else None.
Proof.
  unfold put. destruct (Z.ltb_spec (Z.of_nat (length buf)) PathMax); case_bool_decide as Hf; try done;
    unfold within in Hf; rewrite length_app in Hf; simpl in Hf; lia.
Qed.

Lemma within_app a b n : within (a ++ b) n -> within a n.
Proof. unfold within. rewrite length_app. lia. Qed.

(** [put] and then what goes on from there with the rest. *)
Lemma put_then {A} buf c l (k : option A) :
  (put buf c ≫= fun buf => if bool_decide (within (buf ++ l) PathMax) then k else None)
  = if bool_decide (within (buf ++ c :: l) PathMax) then k else None.
Proof.
  rewrite put_within. replace (buf ++ c :: l) with ((buf ++ [c]) ++ l) by (by rewrite <- app_assoc).
  case_bool_decide as H; [done |]. rewrite bool_decide_eq_false_2; [done |].
  intros H'. by apply H, (within_app _ l).
Qed.

Lemma process_slashes k t : match t with c :: _ => c <> slash | [] => True end ->
  process_loop (slashes k ++ t) 0 [] [] = process_loop t 0 [] (lead k).
Proof.
  intros Ht. induction k as [| k IH]; [done |]. cbn [slashes replicate app process_loop].
  change (slash =? slash) with true. change (0 <? 0) with false. cbv iota. destruct k as [| k].
  - cbn [replicate app]. destruct t as [| c t]; [done |]. by rewrite (proj2 (Z.eqb_neq _ _) Ht).
  - cbn [slashes replicate app] in IH |- *. change (slash =? slash) with true. cbn [negb]. by rewrite IH.
Qed.

(** The mount name. *)
Lemma process_mount m mnt pp t : Forall plain m -> within mnt PathMax ->
  process_loop (m ++ t) (Z.of_nat (length mnt)) mnt pp
  = if bool_decide (within (mnt ++ m) PathMax) then process_loop t (Z.of_nat (length (mnt ++ m))) (mnt ++ m) pp else None.
Proof.
  revert mnt. induction m as [| c m IH]; intros mnt Hm Hf; [by rewrite app_nil_r, bool_decide_eq_true_2 |].
  inversion Hm as [| ? ? [Hs Hc] Hm']; subst. cbn [app process_loop].
  rewrite (proj2 (Z.eqb_neq _ _) Hs), (proj2 (Z.eqb_neq _ _) Hc), (proj2 (Z.eqb_neq _ (-1))) by lia.
  rewrite <- put_then. rewrite put_within. case_bool_decide as H; [| done]. cbn [mbind option_bind].
  replace (Z.of_nat (length mnt) + 1) with (Z.of_nat (length (mnt ++ [c]))) by (rewrite length_app; simpl; lia).
  rewrite IH by done. by rewrite <- app_assoc.
Qed.

(** The rest of the path, after the colon. *)
Lemma process_rest r mnt pp t : Forall colonless r -> within pp PathMax ->
  (t = [] \/ exists t', t = colon :: t') ->
  process_loop (r ++ t) (-1) mnt pp
  = if bool_decide (within (pp ++ collapse r) PathMax) then process_loop t (-1) mnt (pp ++ collapse r) else None.
Proof.
  revert pp. induction r as [| c r IH]; intros pp Hr Hf Ht; [by rewrite app_nil_r, bool_decide_eq_true_2 |].
  inversion Hr as [| ? ? Hc Hr']; subst. cbn [app process_loop].
  assert (match r ++ t with c' :: _ => negb (c' =? slash) | [] => true end
    = negb match r with c' :: _ => c' =? slash | [] => false end) as E.
  { destruct r; [| done]. by destruct Ht as [-> | [t' ->]]. }
  rewrite E. clear E. cbn [collapse].
  assert ((put pp c ≫= fun pp => process_loop (r ++ t) (-1) mnt pp)
    = if bool_decide (within (pp ++ c :: collapse r) PathMax) then process_loop t (-1) mnt (pp ++ c :: collapse r) else None)
    as Hput.
  { rewrite <- put_then. rewrite put_within. case_bool_decide as H; [| done]. cbn [mbind option_bind].
    rewrite IH by done. by rewrite <- app_assoc. }
  destruct (c =? slash) eqn:Es; cbn [andb].
  - change (0 <? -1) with false. cbv iota.
    by destruct (match r with c' :: _ => c' =? slash | [] => false end); cbn [negb]; [apply IH |].
  - rewrite (proj2 (Z.eqb_neq _ _) Hc). by change (-1 =? -1) with true.
Qed.

(** The end of the path, where the arrays are read as strings. *)
Lemma process_end i mnt pp : within mnt PathMax -> within pp PathMax -> mnt <> [] ->
  process_loop [] i mnt pp
  = if bool_decide (within mnt (PathMax - 1) /\ within pp (PathMax - 1))
    then Some (Some (MkProcessed mnt (if bool_decide (pp = []) then [slash] else pp))) else None.
Proof.
  intros Hm Hp Hne. cbn [process_loop]. unfold strlen, within in *.
  destruct (Z.ltb_spec (Z.of_nat (length mnt)) PathMax); cbn [mbind option_bind].
  - rewrite (proj2 (Z.ltb_lt 0 _)) by (destruct mnt; [done | simpl; lia]).
    destruct (Z.ltb_spec (Z.of_nat (length pp)) PathMax); cbn [mbind option_bind].
    + rewrite bool_decide_eq_true_2 by lia. by destruct pp.
    + rewrite bool_decide_eq_false_2; [done | lia].
  - rewrite bool_decide_eq_false_2; [done | lia].
Qed.
(** A list up to its first element without the property. *)
Lemma split_prefix (P : Z -> Prop) `{forall c, Decision (P c)} l :
  exists a b, l = a ++ b /\ Forall P a /\ (b = [] \/ exists c t, b = c :: t /\ ~ P c).
Proof.
  induction l as [| c l (a & b & -> & Ha & Hb)]; [by exists [], []; auto |].
  destruct (decide (P c)) as [Hc | Hc].
  - exists (c :: a), b. split; [done |]. split; [by constructor | done].
  - exists [], (c :: a ++ b). split; [done |]. split; [done |]. right. eauto.
Qed.

#[export] Instance plain_dec c : Decision (plain c).
Proof. unfold plain. apply _. Defined.

#[export] Instance colonless_dec c : Decision (colonless c).
Proof. unfold colonless. apply _. Defined.

Lemma path_shape_total path : exists nm pp v, path_shape path nm pp v.
Proof.
  destruct (split_prefix (fun c => c = slash) path) as (s & t & -> & Hs & Ht).
  assert (s = slashes (length s)) as -> by (unfold slashes; clear Ht; induction Hs as [| ? s -> _ IH]; [done | simpl; by f_equal]).
  generalize (length s). intros k. clear s Hs.
  destruct (split_prefix plain t) as (m & t' & -> & Hm & Ht').
  destruct m as [| c m].
  - destruct Ht' as [-> | (c & t & -> & Hc)]; [rewrite app_nil_r; eauto using path_shape |].
    destruct Ht as [| (c' & t' & [= -> ->] & Hs)]; [done |].
    assert (c' = colon) as ->; [| eauto using path_shape].
    destruct (decide (c' = colon)); [done |]. by destruct Hc.
  - assert (c :: m <> []) as Hne by done. revert Hne Hm. generalize (c :: m). clear c m Ht. intros m Hne Hm.
    destruct Ht' as [-> | (c & t & -> & Hc)]; [rewrite app_nil_r; eauto using path_shape |].
    destruct (decide (c = slash)) as [-> |]; [eauto using path_shape |].
    assert (c = colon) as -> by (destruct (decide (c = colon)); [done | by destruct Hc]).
    destruct (split_prefix colonless t) as (r & t' & -> & Hr & Ht').
    destruct Ht' as [-> | (c & t & -> & Hc')]; [rewrite app_nil_r; eauto using path_shape |].
    assert (c = colon) as -> by (destruct (decide (c = colon)); [done | by destruct Hc']).
    eauto using path_shape.
Qed.

Lemma within_lead k : within (lead k) (PathMax - 1).
Proof. destruct k; unfold within, PathMax; simpl; lia. Qed.

Lemma within_nil n : 0 <= n -> within [] n.
Proof. done. Qed.

Lemma within_mono l n n' : n <= n' -> within l n -> within l n'.
Proof. unfold within. lia. Qed.

(** The name after the slashes and what follows it. *)
Lemma process_named k m t : m <> [] -> Forall plain m ->
  _inner_ProcessPath (slashes k ++ m ++ t)
  = if bool_decide (within m PathMax) then process_loop t (Z.of_nat (length m)) m (lead k) else None.
Proof.
  intros Hne Hm. unfold _inner_ProcessPath. rewrite process_slashes.
  - change 0 with (Z.of_nat (length (@nil Z))). by rewrite process_mount.
  - destruct m as [| c m]; [done |]. inversion Hm as [| ? ? [Hc _] _]. done.
Qed.

(** The colon after the name and the rest. *)
Lemma process_colon k m r t : m <> [] -> Forall plain m -> Forall colonless r ->
  (t = [] \/ exists t', t = colon :: t') ->
  _inner_ProcessPath (slashes k ++ m ++ colon :: r ++ t)
  = if bool_decide (within m PathMax /\ within (lead k ++ collapse r) PathMax)
    then process_loop t (-1) m (lead k ++ collapse r) else None.
Proof.
  intros Hne Hm Hr Ht. rewrite process_named by done. case_bool_decide as Hf.
  - cbn [process_loop]. change (colon =? slash) with false. rewrite Z.eqb_refl. cbv iota.
    rewrite (proj2 (Z.leb_gt _ 0)) by (destruct m; [done | simpl; lia]).
    rewrite process_rest; [| done | eapply within_mono; [| apply within_lead]; lia | done].
    by erewrite bool_decide_ext; [| split; [intros H; exact (conj Hf H) | by intros [_ H]]].
  - rewrite bool_decide_eq_false_2; [done |]. by intros [H _].
Qed.

(** C20: every path has one of six shapes, which say what goes to the arrays for the
    mount name and for the rest, with every run of slashes made one and "/" for an empty
    rest, and whether the path is valid. The code answers that, if the arrays have room;
    otherwise it writes or reads outside them. *)
Theorem process_path_spec path :
  (exists nm pp v, path_shape path nm pp v) /\
  forall nm pp v, path_shape path nm pp v ->
    _inner_ProcessPath path
    = if bool_decide (within nm (room v) /\ within pp (room v)) then Some v else None.
Proof.
  split; [apply path_shape_total |].
  assert (forall k n, PathMax - 1 <= n -> within (lead k) n) as Hlead
    by (intros k n Hn; eapply within_mono; [exact Hn | apply within_lead]).
  assert (forall (m : list Z) k, within m PathMax <-> within m PathMax /\ within (lead k) PathMax) as Hboth
    by (intros m k; split; [split; [done | by apply Hlead] | by intros [H _]]).
  intros nm pp v [k | k t | k m Hne Hm | k m t Hne Hm | k m r Hne Hm Hr | k m r t Hne Hm Hr]; unfold room.
  - rewrite bool_decide_eq_true_2 by (split; [done | apply within_lead]).
    unfold _inner_ProcessPath. rewrite <- (app_nil_r (slashes k)), process_slashes by done. by destruct k.
  - rewrite bool_decide_eq_true_2 by (split; [done | by apply Hlead]).
    unfold _inner_ProcessPath. by rewrite process_slashes.
  - rewrite <- (app_nil_r m) at 1. rewrite process_named by done. case_bool_decide as Hf.
    + rewrite process_end by (done || by apply Hlead). by destruct k.
    + rewrite bool_decide_eq_false_2; [done |]. intros [H _]. by eapply Hf, within_mono; [| exact H].
  - rewrite process_named by done. rewrite (bool_decide_ext _ _ (Hboth m k)). case_bool_decide; [| done].
    cbn [process_loop]. rewrite Z.eqb_refl, (proj2 (Z.ltb_lt 0 _)); [done |]. destruct m; [done | simpl; lia].
  - rewrite <- (app_nil_r r) at 1. rewrite process_colon by (done || by left). case_bool_decide as Hf.
    + destruct Hf. by rewrite process_end.
    + rewrite bool_decide_eq_false_2; [done |]. intros [H1 H2]. apply Hf.
      split; [eapply within_mono; [| exact H1] | eapply within_mono; [| exact H2]]; lia.
  - rewrite process_colon by (done || right; by eexists). by case_bool_decide.
Qed.

(** ** The table of devices *)
Section Table.
Context {D : Type}.
Implicit Types (l : list (Device D)) (d : Device D).

Definition lower_name d : list Z := tolower <$> dev_mount d.

(** No two devices share a name, ignoring case. *)
Definition devices_ok l : Prop := NoDup (lower_name <$> l).

Lemma strcaseeq_spec a b : strcaseeq a b = true <-> tolower <$> a = tolower <$> b.
Proof. unfold strcaseeq. apply bool_decide_eq_true. Qed.

Lemma strcaseeq_false a b : strcaseeq a b = false <-> tolower <$> a <> tolower <$> b.
Proof. unfold strcaseeq. apply bool_decide_eq_false. Qed.

Lemma search_app l l' name :
  _inner_SearchDevice (l ++ l') name
  = match _inner_SearchDevice l name with Some d => Some d | None => _inner_SearchDevice l' name end.
Proof. induction l as [| d l IH]; [done |]. simpl. by destruct (strcaseeq name (dev_mount d)). Qed.

Lemma search_none l name : tolower <$> name ∉ lower_name <$> l <-> _inner_SearchDevice l name = None.
Proof.
  induction l as [| d l IH]; simpl.
  - split; [done |]. intros _. apply not_elem_of_nil.
  - rewrite not_elem_of_cons, IH. unfold lower_name.
    destruct (strcaseeq name (dev_mount d)) eqn:E.
    + apply strcaseeq_spec in E. split; [by intros [? _] | done].
    + apply strcaseeq_false in E. split; [by intros [_ ?] | done].
Qed.

Lemma in_use_spec l d :
  existsb (fun d' => strcaseeq (dev_mount d) (dev_mount d')) l = true <-> lower_name d ∈ lower_name <$> l.
Proof.
  rewrite existsb_exists, list_elem_of_fmap. setoid_rewrite strcaseeq_spec. unfold lower_name.
  split; intros (d' & H1 & H2); exists d'; [by split; [| apply list_elem_of_In] |].
  apply list_elem_of_In in H2. by split.
Qed.

Lemma unmount_search l name name' : devices_ok l ->
  _inner_SearchDevice (Unmount l name) name'
  = if strcaseeq name name' then None else _inner_SearchDevice l name'.
Proof.
  unfold devices_ok. induction l as [| d l IH]; simpl; [by destruct (strcaseeq _ _) |].
  intros [Hd Hl]%list.NoDup_cons. unfold lower_name in Hd at 1.
  destruct (strcaseeq name (dev_mount d)) eqn:E1.
  - apply strcaseeq_spec in E1. destruct (strcaseeq name name') eqn:E2.
    + apply strcaseeq_spec in E2. apply search_none. by rewrite <- E2, E1.
    + apply strcaseeq_false in E2. destruct (strcaseeq name' (dev_mount d)) eqn:E3; [| done].
      apply strcaseeq_spec in E3. by rewrite E1, E3 in E2.
  - apply strcaseeq_false in E1. simpl. rewrite IH by done.
    destruct (strcaseeq name' (dev_mount d)) eqn:E3; [| done]. apply strcaseeq_spec in E3.
    destruct (strcaseeq name name') eqn:E2; [| done]. apply strcaseeq_spec in E2. by rewrite E2, E3 in E1.
Qed.

Lemma unmount_ok l name : devices_ok l -> devices_ok (Unmount l name).
Proof.
  unfold devices_ok. induction l as [| d l IH]; simpl; [done |]. intros [Hd Hl]%list.NoDup_cons.
  destruct (strcaseeq name (dev_mount d)); [done |]. simpl. apply list.NoDup_cons. split; [| by apply IH].
  intros Hi. apply Hd. clear -Hi. induction l as [| d' l IH]; [done |]. simpl in *.
  destruct (strcaseeq name (dev_mount d')); [by apply list_elem_of_further |]. simpl in Hi.
  apply elem_of_cons in Hi as [-> | Hi]; [by apply list_elem_of_here | by apply list_elem_of_further, IH].
Qed.

(** C21: the table never has two devices of the same name up to case; mounting a
    free name makes the device the one found under it and leaves the others, a
    name in use is refused with nothing changed, and unmounting removes exactly
    the device of that name. *)
Theorem mount_table l d name : devices_ok l ->
  let '(res, l') := Mount l d in
  devices_ok l' /\ devices_ok (Unmount l name) /\
  (if bool_decide (lower_name d ∈ lower_name <$> l)
   then IsFailure res = true /\ l' = l
   else IsSuccess res = true /\
     _inner_SearchDevice l' name
     = if strcaseeq name (dev_mount d) then Some d else _inner_SearchDevice l name) /\
  forall name', _inner_SearchDevice (Unmount l name) name'
    = if strcaseeq name name' then None else _inner_SearchDevice l name'.
Proof.
  intros Hl. unfold Mount. destruct (existsb _ l) eqn:E.
  - apply in_use_spec in E. rewrite bool_decide_eq_true_2 by done.
    split; [done | split; [by apply unmount_ok | split; [done | intros; by apply unmount_search]]].
  - assert (lower_name d ∉ lower_name <$> l) as Hn by (intros H; apply in_use_spec in H; by rewrite E in H).
    rewrite bool_decide_eq_false_2 by done. split; [| split; [by apply unmount_ok | split]].
    + unfold devices_ok. rewrite fmap_app. apply list.NoDup_app. split; [done | split].
      * intros x Hx Hx'. apply list_elem_of_singleton in Hx'. by subst.
      * apply NoDup_singleton.
    + split; [done |]. rewrite search_app. simpl.
      destruct (strcaseeq name (dev_mount d)) eqn:E'.
      * apply strcaseeq_spec in E'. rewrite (proj1 (search_none l name)); [done |]. by rewrite E'.
      * by destruct (_inner_SearchDevice l name).
    + intros. by apply unmount_search.
Qed.
End Table.

(** ** Descriptors *)
Section Descriptors.
Context {S F : Type} `{FspFile S F}.
Implicit Types st : fs_state S F.

(** The open file a descriptor stands for. *)
Definition file_at (fd : Z) st : option (FileSystemDeviceFile F) :=
  i ← file_index fd st; files st !! i.

Definition fits st : Prop := Z.of_nat (length (files st)) < 2 ^ 31 - 200.

Lemma file_index_at st (i : nat) : fits st -> 200 + Z.of_nat i < 2 ^ 31 ->
  file_index (200 + Z.of_nat i) st = if bool_decide (i < length (files st))%nat then Some i else None.
Proof.
  unfold fits, file_index. intros Hf Hi. replace (200 + Z.of_nat i - 200) with (Z.of_nat i) by lia.
  rewrite i32_small, u64_small by lia.
  case_bool_decide; [rewrite (proj2 (Z.ltb_lt _ _)) by lia | by rewrite (proj2 (Z.ltb_ge _ _)) by lia].
  by rewrite Nat2Z.id.
Qed.

Lemma file_at_nth st (i : nat) : fits st -> 200 + Z.of_nat i < 2 ^ 31 ->
  file_at (200 + Z.of_nat i) st = files st !! i.
Proof.
  intros Hf Hi. unfold file_at. rewrite file_index_at by done.
  case_bool_decide as Hl; [done |]. symmetry. apply lookup_ge_None. lia.
Qed.

(** closing a descriptor renumbers the descriptors above it: each of them
    stands for the file that the next one stood for, and the highest for none.
    A program that goes on using them reads and writes the wrong files. *)
Theorem close_renumbers st (i : nat) :
  fits st -> (i < length (files st))%nat ->
  exists st', _close_r (200 + Z.of_nat i) st = (0, st') /\
    (forall j : nat, (j < i)%nat -> file_at (200 + Z.of_nat j) st' = file_at (200 + Z.of_nat j) st) /\
    (forall j : nat, (i <= j < length (files st))%nat ->
      file_at (200 + Z.of_nat j) st' = file_at (200 + Z.of_nat (j + 1)) st).
Proof.
  intros Hf Hi. unfold fits in Hf. eexists. split; [| split].
  - unfold _close_r. rewrite file_index_at by (done || lia). by rewrite bool_decide_eq_true_2.
  - intros j Hj. rewrite !file_at_nth; try (unfold fits; simpl; done || lia).
    + simpl. by rewrite list_lookup_delete_lt.
    + unfold fits. simpl. rewrite length_delete by (by apply lookup_lt_is_Some_2). lia.
  - intros j Hj. rewrite !file_at_nth; try (unfold fits; simpl; done || lia).
    + simpl. rewrite list_lookup_delete_ge, Nat.add_1_r by lia. done.
    + unfold fits. simpl. rewrite length_delete by (by apply lookup_lt_is_Some_2). lia.
Qed.

Lemma Seek_forward (f : FileSystemDeviceFile F) n s : 0 <= n < 2 ^ 31 ->
  Seek f (i32 n) SEEK_CUR s = (Result_of_raw 0, u64 (offset f + n), MkFile (ifile f) (u64 (offset f + n)), s).
Proof. intros Hn. rewrite i32_small by lia. unfold Seek. by rewrite (proj2 (Z.ltb_ge n 0)) by lia. Qed.

(** C22: a read moves the position of the file by the bytes it got; a write never
    moves it, whatever its outcome, so that the next write on the descriptor
    goes to the same place. *)
Theorem file_position st (i : nat) f log data len :
  fits st -> files st !! i = Some f -> 0 <= offset f < 2 ^ 63 ->
  file_at (200 + Z.of_nat i) (snd (_write_r (200 + Z.of_nat i) data log st)) = Some f /\
  forall r got st', _read_r (200 + Z.of_nat i) len st = (r, got, st') -> r <> -1 ->
    Z.of_nat (length got) < 2 ^ 31 ->
    r = Z.of_nat (length got) /\
    file_at (200 + Z.of_nat i) st' = Some (MkFile (ifile f) (offset f + Z.of_nat (length got))).
Proof.
  intros Hf Hi Ho. pose proof (lookup_lt_Some _ _ _ Hi) as Hl. unfold fits in Hf.
  assert (file_index (200 + Z.of_nat i) st = Some i) as Hx.
  { rewrite file_index_at by (done || lia). by rewrite bool_decide_eq_true_2. }
  assert (forall f' s e, file_at (200 + Z.of_nat i) (MkFs (<[i := f']> (files st)) e s) = Some f') as Hput.
  { intros f' s e. rewrite file_at_nth by (unfold fits; simpl; rewrite ?length_insert; lia).
    simpl. by rewrite list_lookup_insert_eq. }
  split.
  - unfold _write_r. rewrite (proj2 (Z.eqb_neq _ 1)), (proj2 (Z.eqb_neq _ 2)), Hx, Hi by lia. cbn [orb].
    destruct (Write f data (service st)) as [res s] eqn:Ew.
    assert ((let '(res0, f0, s0) :=
      if IsSuccess res then let '(res0, _, f0, s0) := Seek f (i32 0) SEEK_CUR s in (res0, f0, s0)
      else (res, f, s) in (res0, f0, s0)) = (if IsSuccess res then Result_of_raw 0 else res, f, s)) as E.
    { destruct (IsSuccess res); [| done]. rewrite Seek_forward by lia. rewrite Z.add_0_r, u64_small by lia.
      by destruct f. }
    destruct (if IsSuccess res then _ else _) as [[res' f'] s']. injection E as -> -> ->.
    destruct (if IsSuccess _ then Flush f s else _) as [res'' s''].
    unfold put_file, ReturnSetErrno. destruct (IsFailure res''); [| apply Hput].
    destruct (IsSuccess res''); apply Hput.
  - intros r got st'. unfold _read_r. rewrite Hx, Hi.
    destruct (Read f len (service st)) as [[res data'] s] eqn:Er.
    unfold put_file, ReturnSetErrno, IsFailure. destruct (IsSuccess res) eqn:Es; cbn [negb].
    + intros E Hr Hg. destruct (Z.lt_ge_cases (Z.of_nat (length data')) (2 ^ 31)) as [Hd | Hd].
      * rewrite Seek_forward in E by lia. cbn in E. injection E as <- <- <-. split; [done |].
        rewrite Hput. by rewrite u64_small by lia.
      * exfalso. destruct (Seek f _ _ s) as [[[res2 ?] ?] ?]. destruct (IsSuccess res2); cbn in E;
          injection E as <- <- <-; lia.
    + cbn. rewrite Es. cbn. by intros [= <- <- <-].
Qed.
End Descriptors.

(** ** Witnesses *)
Lemma process_path_spec_witness :
  _inner_ProcessPath [115; 100; 58; 47; 47; 97] = Some (Some (MkProcessed [115; 100] [47; 97])) /\
  _inner_ProcessPath (replicate 770 97) = None.
Proof.
  split.
  - refine (proj2 (process_path_spec _) _ _ _ (ps_path 0 [115; 100] [47; 47; 97] _ _ _)); [discriminate | |].
    + repeat (apply List.Forall_cons; [split; discriminate |]). constructor.
    + repeat (apply List.Forall_cons; [discriminate |]). constructor.
  - etrans; [refine (proj2 (process_path_spec _) _ _ _ (ps_name 0 (replicate 770 97) _ _)); [discriminate |] | reflexivity].
    apply Forall_replicate. split; discriminate.
Defined.

Definition sd_card : Device unit := MkDevice [115; 100] tt.

Lemma mount_table_witness :
  let '(res, l') := Mount [sd_card] (MkDevice [83; 68] tt) in
  devices_ok l' /\ devices_ok (Unmount [sd_card] [115; 68]) /\
  (if bool_decide (lower_name (MkDevice [83; 68] tt) ∈ lower_name <$> [sd_card])
   then IsFailure res = true /\ l' = [sd_card]
   else IsSuccess res = true /\
     _inner_SearchDevice l' [115; 68]
     = if strcaseeq [115; 68] (dev_mount (MkDevice [83; 68] tt)) then Some (MkDevice [83; 68] tt)
       else _inner_SearchDevice [sd_card] [115; 68]) /\
  forall name', _inner_SearchDevice (Unmount [sd_card] [115; 68]) name'
    = if strcaseeq [115; 68] name' then None else _inner_SearchDevice [sd_card] name'.
Proof. apply (mount_table [sd_card] (MkDevice [83; 68] tt) [115; 68]). apply NoDup_singleton. Defined.

(** A service with one file of bytes. *)
#[local] Instance memory_file : FspFile (list Z) unit := {|
  fsp_Read := fun _ off n s => (Result_default, take (Z.to_nat n) (drop (Z.to_nat off) s), s);
  fsp_Write := fun _ off data s =>
    (Result_default, take (Z.to_nat off) s ++ data ++ drop (Z.to_nat off + length data) s);
  fsp_GetSize := fun _ s => (Result_default, Z.of_nat (length s), s);
  fsp_Flush := fun _ s => (Result_default, s)
|}.

Definition three_files : fs_state (list Z) unit :=
  MkFs [MkFile tt 0; MkFile tt 1; MkFile tt 2] 0 [10; 11; 12; 13].

Lemma close_renumbers_witness : exists st', _close_r 200 three_files = (0, st') /\
  (forall j : nat, (j < 0)%nat -> file_at (200 + Z.of_nat j) st' = file_at (200 + Z.of_nat j) three_files) /\
  (forall j : nat, (0 <= j < 3)%nat -> file_at (200 + Z.of_nat j) st' = file_at (200 + Z.of_nat (j + 1)) three_files).
Proof. apply (close_renumbers three_files 0); [reflexivity | simpl; lia]. Defined.

(** Two writes to a fresh file: the second replaces the first. *)
Example second_write_replaces :
  service (snd (_write_r 200 [3; 4] (fun _ _ s => s)
    (snd (_write_r 200 [1; 2] (fun _ _ s => s) (MkFs [MkFile tt 0] 0 []))))) = [3; 4].
Proof. reflexivity. Qed.

Lemma file_position_witness :
  file_at 201 (snd (_write_r 201 [7; 8] (fun _ _ s => s) three_files)) = Some (MkFile tt 1) /\
  file_at 201 (snd (_read_r 201 2 three_files)) = Some (MkFile tt 3).
Proof.
  split.
  - apply (file_position three_files 1 (MkFile tt 1) (fun _ _ s => s) [7; 8] 2); [reflexivity | reflexivity | simpl; lia].
  - apply (file_position three_files 1 (MkFile tt 1) (fun _ _ s => s) [7; 8] 2) with (r := 2) (got := [11; 12]);
      [reflexivity | reflexivity | simpl; lia | reflexivity | discriminate | reflexivity].
Defined.
