(* ===== verification/BioElf.v ===== *)
(** * Bytes in memory and the ELF structures in them

    The memory of the dynamic linker (BioLd.v) is byte-addressed and little-endian. What
    a module holds there is described from the ELF specification and independently of
    the code that reads it: the dynamic section, the symbol table with its strings, the
    System V hash table with the 32-bit hash of the specification, and the relocation
    entries. *)

From Stdlib Require Import ZArith Lia.
From stdpp Require Import base list option gmap.
From S2P Require Import Prelude.
Local Open Scope Z_scope.

(** ** Memory *)

(** A byte per address. *)
Notation memory := (gmap Z Z).

(** The little-endian value of [n] bytes; [None] when one of them is not there. *)
Fixpoint ld (n : nat) (mem : memory) (a : Z) : option Z :=
  match n with
  | O => Some 0
  | S n => b ← mem !! a; r ← ld n mem (a + 1); Some (b + 256 * r)
  end.

Fixpoint le (n : nat) (v : Z) : list Z :=
  match n with O => [] | S n => v mod 256 :: le n (v / 256) end.

Fixpoint write (l : list Z) (a : Z) (mem : memory) : memory :=
  match l with [] => mem | b :: l => <[a := b]> (write l (a + 1) mem) end.

(** A store of [n] bytes, to bytes that are there. *)
Definition st (n : nat) (mem : memory) (a v : Z) : option memory :=
  _ ← ld n mem a; Some (write (le n v) a mem).

Fixpoint bytes_at (mem : memory) (a : Z) (l : list Z) : Prop :=
  match l with [] => True | b :: l => mem !! a = Some b /\ bytes_at mem (a + 1) l end.

Lemma length_le n v : length (le n v) = n.
Proof. revert v. induction n as [| n IH]; intros v; simpl; [done | by rewrite IH]. Qed.

Lemma ld_le n mem a v : bytes_at mem a (le n v) -> 0 <= v < 256 ^ Z.of_nat n -> ld n mem a = Some v.
Proof.
  revert a v. induction n as [| n IH]; intros a v Hb Hv; simpl in *; [f_equal; lia |].
  destruct Hb as [-> Hb]. cbn [mbind option_bind]. rewrite (IH _ (v / 256)); [| done |].
  - cbn [mbind option_bind]. f_equal. pose proof (Z.div_mod v 256). lia.
  - rewrite Nat2Z.inj_succ, Z.pow_succ_r in Hv by lia. split; [apply Z.div_pos; lia |].
    apply Z.div_lt_upper_bound; lia.
Qed.

Lemma bytes_at_app mem a l1 l2 :
  bytes_at mem a (l1 ++ l2) <-> bytes_at mem a l1 /\ bytes_at mem (a + Z.of_nat (length l1)) l2.
Proof.
  revert a. induction l1 as [| b l1 IH]; intros a; simpl.
  - rewrite Z.add_0_r. tauto.
  - rewrite IH. replace (a + 1 + Z.of_nat (length l1)) with (a + Z.of_nat (S (length l1))) by lia. tauto.
Qed.

(** An element of an array of [k]-byte records. *)
Lemma bytes_at_concat {A} mem a (enc : A -> list Z) k (l : list A) i x :
  (forall x, length (enc x) = k) -> bytes_at mem a (concat (enc <$> l)) -> l !! i = Some x ->
  bytes_at mem (a + Z.of_nat k * Z.of_nat i) (enc x).
Proof.
  intros Hk. revert a i. induction l as [| y l IH]; intros a i Hb Hi; [done |].
  cbn in Hb. apply bytes_at_app in Hb as [Hy Hb]. rewrite Hk in Hb. destruct i as [| i].
  - injection Hi as ->. by replace (a + Z.of_nat k * Z.of_nat 0) with a by lia.
  - specialize (IH _ i Hb Hi). by replace (a + Z.of_nat k * Z.of_nat (S i)) with (a + Z.of_nat k + Z.of_nat k * Z.of_nat i) by lia.
Qed.

Lemma bytes_at_mono m m' a l : m ⊆ m' -> bytes_at m a l -> bytes_at m' a l.
Proof.
  intros Hs. revert a. induction l as [| b l IH]; intros a; simpl; [done |].
  intros [Hb Hl]. split; [by eapply lookup_weaken | auto].
Qed.

Lemma write_other l a b mem : ~ (a <= b < a + Z.of_nat (length l)) -> write l a mem !! b = mem !! b.
Proof.
  revert a. induction l as [| c l IH]; intros a H; simpl in *; [done |].
  rewrite lookup_insert_ne by lia. apply IH. lia.
Qed.

Lemma bytes_at_ext m m' a l :
  (forall b, a <= b < a + Z.of_nat (length l) -> m' !! b = m !! b) -> bytes_at m a l -> bytes_at m' a l.
Proof.
  revert a. induction l as [| c l IH]; intros a H; simpl; [done |]. intros [Hc Hl]. simpl in H. split.
  - rewrite H by lia. done.
  - apply IH; [| done]. intros b Hb. apply H. lia.
Qed.

Lemma bytes_at_write l a mem : bytes_at (write l a mem) a l.
Proof.
  revert a. induction l as [| c l IH]; intros a; simpl; [done |]. split; [apply lookup_insert_eq |].
  eapply bytes_at_ext; [| apply IH]. intros b Hb. rewrite lookup_insert_ne by lia. done.
Qed.

(** The bytes from [a] on, [n] of them, are there. *)
Definition mapped (n : nat) (mem : memory) (a : Z) : Prop :=
  forall b, a <= b < a + Z.of_nat n -> is_Some (mem !! b).

Lemma mapped_ld n mem a : mapped n mem a -> is_Some (ld n mem a).
Proof.
  revert a. induction n as [| n IH]; intros a H; simpl; [by eexists |].
  destruct (H a) as [b ->]; [lia |]. cbn [mbind option_bind].
  destruct (IH (a + 1)) as [r ->]; [intros c Hc; apply H; lia |]. by eexists.
Qed.

Lemma st_mapped n mem a v : mapped n mem a -> st n mem a v = Some (write (le n v) a mem).
Proof. intros H. unfold st. by destruct (mapped_ld n mem a H) as [r ->]. Qed.

Lemma write_subseteq l a (image mem : memory) :
  (forall b, a <= b < a + Z.of_nat (length l) -> image !! b = None) -> image ⊆ mem -> image ⊆ write l a mem.
Proof.
  revert a. induction l as [| c l IH]; intros a H Hs; simpl; [done |]. simpl in H.
  apply insert_subseteq_r; [apply H; lia |]. apply IH; [| done]. intros b Hb. apply H. lia.
Qed.

Lemma write_mapped n l a b mem : mapped n mem b -> mapped n (write l a mem) b.
Proof.
  intros H c Hc. specialize (H c Hc). revert a. induction l as [| d l IH]; intros a; simpl; [done |].
  rewrite lookup_insert_is_Some'. right. apply IH.
Qed.

(** ** The hash of the specification

    In an unsigned 32-bit word: shift in the character, fold the top four bits back in
    at bit 4 and clear them. *)
Definition elf_hash_step (h c : Z) : Z :=
  let h := (16 * h + c) mod 2 ^ 32 in
  let top := h / 2 ^ 28 in
  Z.lxor (h mod 2 ^ 28) (16 * top).

Definition elf_hash (name : list Z) : Z := foldl elf_hash_step 0 name.

(** No character carries out of bit 31. *)
Fixpoint no_carry (h : Z) (name : list Z) : Prop :=
  match name with [] => True | c :: name => 16 * h + c < 2 ^ 32 /\ no_carry (elf_hash_step h c) name end.

Definition char_ok (c : Z) : Prop := 0 < c < 256.

Lemma lxor_bound k a b : 0 <= k -> 0 <= a < 2 ^ k -> 0 <= b < 2 ^ k -> 0 <= Z.lxor a b < 2 ^ k.
Proof.
  intros Hk Ha Hb. assert (0 <= Z.lxor a b) as H0 by (apply Z.lxor_nonneg; split; lia).
  split; [done |]. destruct (decide (Z.lxor a b = 0)) as [-> | Hne]; [lia |].
  apply Z.log2_lt_pow2; [lia |]. eapply Z.le_lt_trans; [apply Z.log2_lxor; lia |].
  destruct (decide (0 < k)).
  - apply Z.max_lub_lt; [destruct (decide (a = 0)) as [-> |]; [simpl; lia | apply Z.log2_lt_pow2; lia]
      | destruct (decide (b = 0)) as [-> |]; [simpl; lia | apply Z.log2_lt_pow2; lia]].
  - assert (k = 0) as -> by lia. assert (a = 0) as -> by lia. assert (b = 0) as -> by lia. done.
Qed.

Lemma elf_hash_step_bound h c : 0 <= h < 2 ^ 28 -> char_ok c -> 0 <= elf_hash_step h c < 2 ^ 28.
Proof.
  intros Hh Hc. unfold elf_hash_step. cbv zeta. set (x := (16 * h + c) mod 2 ^ 32).
  assert (0 <= x < 2 ^ 32) as Hx by (apply Z.mod_pos_bound; lia).
  apply lxor_bound; [lia | apply Z.mod_pos_bound; lia |].
  split; [apply Z.mul_nonneg_nonneg; [lia | apply Z.div_pos; lia] |].
  assert (x / 2 ^ 28 < 16) by (apply Z.div_lt_upper_bound; lia). lia.
Qed.

(** ** The structures of a module *)
Record symbol := MkSymbol {
  sy_string : list Z;
  sy_name : Z;
  sy_info : Z;
  sy_other : Z;
  sy_shndx : Z;
  sy_value : Z;
  sy_size : Z
}.

(** [Elf64_Rela], whose [r_info] is the type and the symbol. *)
Record rela := MkRelaEntry { ra_offset : Z; ra_type : Z; ra_symbol : Z; ra_addend : Z }.

(** The dynamic section, as tags and values up to [DT_NULL]; the hash table; the symbol
    table, with the string of each symbol. *)
Record elf := MkElf {
  e_dyn : list (Z * Z);
  e_buckets : list Z;
  e_chains : list Z;
  e_syms : list symbol
}.

Definition dyn_bytes (e : Z * Z) : list Z := le 8 e.1 ++ le 8 e.2.
Definition symbol_bytes (s : symbol) : list Z :=
  le 4 (sy_name s) ++ le 1 (sy_info s) ++ le 1 (sy_other s) ++ le 2 (sy_shndx s) ++ le 8 (sy_value s) ++ le 8 (sy_size s).
Definition rela_bytes (r : rela) : list Z :=
  le 8 (ra_offset r) ++ le 4 (ra_type r) ++ le 4 (ra_symbol r) ++ le 8 (ra_addend r).

Definition fits_bits (n : Z) (v : Z) : Prop := 0 <= v < 2 ^ n.

Definition dyn_range (e : Z * Z) : Prop := fits_bits 64 e.1 /\ e.1 <> 0 /\ fits_bits 64 e.2.
Definition symbol_range (s : symbol) : Prop :=
  fits_bits 32 (sy_name s) /\ fits_bits 16 (sy_shndx s) /\ fits_bits 64 (sy_value s).
Definition rela_range (r : rela) : Prop :=
  fits_bits 64 (ra_offset r) /\ fits_bits 32 (ra_type r) /\ fits_bits 32 (ra_symbol r) /\ fits_bits 64 (ra_addend r).

(** The values of a tag in the dynamic section. *)
Definition dyn_values (tag : Z) (dyn : list (Z * Z)) : list Z := (filter (fun e => e.1 = tag) dyn).*2.

(** The indices on a chain of the hash table, which ends at [STN_UNDEF]. *)
Fixpoint chain (chains : list Z) (i : Z) (l : list nat) : Prop :=
  match l with
  | [] => i = 0
  | j :: l => i = Z.of_nat j /\ j <> O /\ exists nx, chains !! j = Some nx /\ chain chains nx l
  end.

(** Where the structures of a module are in memory. *)
Record elf_at (mem : memory) (dynamic symtab strtab hash : Z) (e : elf) : Prop := {
  ea_dyn : bytes_at mem dynamic (concat (dyn_bytes <$> e_dyn e) ++ le 8 0);
  ea_hash : bytes_at mem hash (concat (le 4 <$>
    Z.of_nat (length (e_buckets e)) :: Z.of_nat (length (e_chains e)) :: e_buckets e ++ e_chains e));
  ea_syms : bytes_at mem symtab (concat (symbol_bytes <$> e_syms e));
  ea_strings : forall j s, e_syms e !! j = Some s -> bytes_at mem (strtab + sy_name s) (sy_string s ++ [0])
}.

(** A hash table as the link editor builds it: every bucket leads to a chain of symbols,
    and a defined symbol with a name is on the chain of its hash. No two symbols have
    the same name. *)
Record elf_ok (e : elf) : Prop := {
  eo_dyn : Forall dyn_range (e_dyn e);
  eo_buckets : e_buckets e <> [] /\ Z.of_nat (length (e_buckets e)) < 2 ^ 32 /\ Forall (fits_bits 32) (e_buckets e);
  eo_chains : length (e_chains e) = length (e_syms e) /\ Z.of_nat (length (e_chains e)) < 2 ^ 32 /\
    Forall (fits_bits 32) (e_chains e);
  eo_syms : Forall symbol_range (e_syms e) /\ Forall (fun s => Forall char_ok (sy_string s)) (e_syms e);
  eo_lists : forall i, i ∈ e_buckets e -> exists l, chain (e_chains e) i l;
  eo_hashed : forall j s, e_syms e !! j = Some s -> sy_shndx s <> 0 -> sy_string s <> [] ->
    exists i l, e_buckets e !! Z.to_nat (elf_hash (sy_string s) mod Z.of_nat (length (e_buckets e))) = Some i /\
      chain (e_chains e) i l /\ j ∈ l;
  eo_names : forall j k s s', e_syms e !! j = Some s -> e_syms e !! k = Some s' ->
    sy_string s = sy_string s' -> sy_string s <> [] -> j = k
}.

(** The symbol a name stands for: the defined symbol with that name. *)
Definition elf_symbol (e : elf) (name : list Z) : option (nat * symbol) :=
  list_find (fun s => sy_string s = name /\ sy_shndx s <> 0) (e_syms e).

Lemma elf_at_mono m m' d sy str h e : m ⊆ m' -> elf_at m d sy str h e -> elf_at m' d sy str h e.
Proof. intros Hs []. split; eauto using bytes_at_mono. Qed.

(** ** Chains *)
Lemma chain_unique cs i l1 l2 : chain cs i l1 -> chain cs i l2 -> l1 = l2.
Proof.
  revert i l2. induction l1 as [| j l1 IH]; intros i [| k l2] H1 H2; simpl in *; [done | lia | lia |].
  destruct H1 as (-> & _ & nx & Hn & H1), H2 as (E & _ & nx' & Hn' & H2).
  apply Nat2Z.inj in E as <-. rewrite Hn in Hn'. injection Hn' as <-. f_equal. by eapply IH.
Qed.

Lemma chain_suffix cs i l1 l2 j : chain cs i (l1 ++ j :: l2) -> chain cs (Z.of_nat j) (j :: l2).
Proof.
  revert i. induction l1 as [| k l1 IH]; intros i; cbn [app].
  - intros H. pose proof H as H'. destruct H' as (-> & _). done.
  - intros (_ & _ & nx & _ & H). by eapply IH.
Qed.

(** A chain does not come back to an index. *)
Lemma chain_NoDup cs i l : chain cs i l -> NoDup l.
Proof.
  revert i. induction l as [| j l IH]; intros i H; [constructor |]. pose proof H as (-> & Hj & nx & Hn & Hc).
  constructor; [| by eapply IH]. intros (l1 & l2 & ->)%list_elem_of_split.
  apply chain_suffix in Hc. pose proof (chain_unique _ _ _ _ H Hc) as E.
  apply (f_equal length) in E. cbn [length] in E. rewrite length_app in E. simpl in E. lia.
Qed.

Lemma chain_valid cs i l j : chain cs i l -> j ∈ l -> (j < length cs)%nat /\ j <> O.
Proof.
  revert i. induction l as [| k l IH]; intros i H Hj; [by apply elem_of_nil in Hj |].
  destruct H as (_ & Hk & nx & Hn & H). apply elem_of_cons in Hj as [-> | Hj]; [| by eapply IH].
  split; [by eapply lookup_lt_Some | done].
Qed.

Lemma chain_length cs i l : chain cs i l -> (length l <= length cs)%nat.
Proof.
  intros H. pose proof (chain_NoDup _ _ _ H) as Hd. transitivity (length (seq 0 (length cs))); [| by rewrite length_seq].
  apply submseteq_length, NoDup_submseteq; [done |]. intros j Hj.
  apply (chain_valid _ _ _ _ H) in Hj as [Hj _]. apply elem_of_seq. lia.
Qed.

Lemma elf_symbol_Some e name j s : elf_symbol e name = Some (j, s) ->
  e_syms e !! j = Some s /\ sy_string s = name /\ sy_shndx s <> 0.
Proof. intros (H1 & [H2 H3] & _)%list_find_Some. done. Qed.

(** On the chain of the bucket of a name, the first symbol with that name is the one it
    stands for, if that is defined. *)
Lemma elf_symbol_chain e name i l : elf_ok e -> name <> [] ->
  e_buckets e !! Z.to_nat (elf_hash name mod Z.of_nat (length (e_buckets e))) = Some i ->
  chain (e_chains e) i l ->
  match elf_symbol e name with
  | Some (j, s) => j ∈ l
  | None => True
  end /\
  forall j s, j ∈ l -> e_syms e !! j = Some s -> sy_string s = name ->
    if sy_shndx s =? 0 then elf_symbol e name = None else elf_symbol e name = Some (j, s).
Proof.
  intros He Hne Hi Hc. destruct (elf_symbol e name) as [[j s] |] eqn:E.
  - apply elf_symbol_Some in E as (Hj & <- & Hs).
    destruct (eo_hashed e He j s Hj Hs Hne) as (i' & l' & Hi' & Hc' & Hin).
    rewrite Hi in Hi'. injection Hi' as <-. rewrite (chain_unique _ _ _ _ Hc Hc'). split; [done |].
    intros k s' _ Hk Hn. assert (k = j) as -> by (apply (eo_names e He k j s' s); congruence).
    rewrite Hj in Hk. injection Hk as <-. by rewrite (proj2 (Z.eqb_neq _ _) Hs).
  - split; [done |]. intros j s Hin Hj Hn. destruct (Z.eqb_spec (sy_shndx s) 0) as [| Hs]; [done |]. exfalso.
    apply list_find_None in E. rewrite Forall_lookup in E. by apply (E j s).
Qed.

(** ** What is where *)
Lemma ld_word mem a ws i v : bytes_at mem a (concat (le 4 <$> ws)) -> ws !! i = Some v -> fits_bits 32 v ->
  ld 4 mem (a + 4 * Z.of_nat i) = Some v.
Proof. intros Hb Hi Hv. apply ld_le; [| done]. by apply (bytes_at_concat mem a (le 4) 4 ws). Qed.

Lemma bytes_at_symbol mem a syms j s : bytes_at mem a (concat (symbol_bytes <$> syms)) -> syms !! j = Some s ->
  symbol_range s ->
  ld 4 mem (a + 24 * Z.of_nat j) = Some (sy_name s) /\ ld 2 mem (a + 24 * Z.of_nat j + 6) = Some (sy_shndx s) /\
  ld 8 mem (a + 24 * Z.of_nat j + 8) = Some (sy_value s).
Proof.
  intros Hb Hj (H1 & H2 & H3). apply (bytes_at_concat mem a symbol_bytes 24 syms) in Hj; [| done | done].
  change (Z.of_nat 24) with 24 in Hj. revert Hj. generalize (a + 24 * Z.of_nat j). intros b Hj.
  unfold symbol_bytes in Hj. rewrite !bytes_at_app, !length_le in Hj.
  destruct Hj as (Hn & _ & _ & Hx & Hv & _). repeat split; apply ld_le; try done.
  - by replace (b + 6) with (b + Z.of_nat 4 + Z.of_nat 1 + Z.of_nat 1) by lia.
  - by replace (b + 8) with (b + Z.of_nat 4 + Z.of_nat 1 + Z.of_nat 1 + Z.of_nat 2) by lia.
Qed.

Lemma bytes_at_rela mem a rs i r : bytes_at mem a (concat (rela_bytes <$> rs)) -> rs !! i = Some r -> rela_range r ->
  let b := a + 24 * Z.of_nat i in
  ld 8 mem b = Some (ra_offset r) /\ ld 4 mem (b + 8) = Some (ra_type r) /\
  ld 4 mem (b + 12) = Some (ra_symbol r) /\ ld 8 mem (b + 16) = Some (ra_addend r).
Proof.
  intros Hb Hi (H1 & H2 & H3 & H4). apply (bytes_at_concat mem a rela_bytes 24 rs) in Hi; [| done | done].
  cbv zeta. change (Z.of_nat 24) with 24 in Hi. revert Hi. generalize (a + 24 * Z.of_nat i). intros b Hi.
  unfold rela_bytes in Hi. rewrite !bytes_at_app, !length_le in Hi.
  destruct Hi as (Ho & Ht & Hs & Ha). repeat split; apply ld_le; try done.
  - by replace (b + 12) with (b + Z.of_nat 8 + Z.of_nat 4) by lia.
  - by replace (b + 16) with (b + Z.of_nat 8 + Z.of_nat 4 + Z.of_nat 4) by lia.
Qed.
