(* ===== verification/BioLd.v ===== *)
(** * libbio: the dynamic linker

    source/bio/ld/ld_Dynamic.cpp: the dynamic section, symbol lookup through the
    System V hash table, relocation, the constructors and destructors of a
    module, and [dlsym].

    Memory is that of BioElf.v: the code reads and writes characters, [u16], [u32] and
    [u64] values in little-endian bytes, at the offsets of the structures of elf.h.
    [None] is an access to a byte that is not there, a division by zero, or a loop that
    runs out of [fuel]. *)

From Stdlib Require Import ZArith Lia.
From stdpp Require Import base list option gmap.
From S2P Require Import Prelude LzmaBase BioTypes BioElf.
Local Open Scope Z_scope.

(** ** Results (include/bio/ld/ld_Results.hpp) *)
Definition ResultModule : Z := 420.
Definition SubmoduleBase : Z := 200.
Definition ld_result (desc : Z) : Result := Result_of_raw (BIO_MAKERESULT ResultModule (SubmoduleBase + desc)).

Definition ResultInvalidInputNro := ld_result 1.
Definition ResultMissingDtEntry := ld_result 2.
Definition ResultDuplicatedDtEntry := ld_result 3.
Definition ResultInvalidSymEnt := ld_result 4.
Definition ResultInvalidModuleState := ld_result 5.
Definition ResultInvalidRelocEnt := ld_result 6.
Definition ResultInvalidRelocTableSize := ld_result 7.
Definition ResultUnrecognizedRelocType := ld_result 9.
Definition ResultInvalidRelocTableType := ld_result 10.
Definition ResultNeedsSymTab := ld_result 11.
Definition ResultNeedsStrTab := ld_result 12.
Definition ResultCouldNotResolveSymbol := ld_result 13.

Definition res_is (a b : Result) : bool := Result_raw a =? Result_raw b.

(** ** Tags and sizes (elf.h) *)
Definition DT_NULL : Z := 0.
Definition DT_NEEDED : Z := 1.
Definition DT_PLTRELSZ : Z := 2.
Definition DT_HASH : Z := 4.
Definition DT_STRTAB : Z := 5.
Definition DT_SYMTAB : Z := 6.
Definition DT_RELA : Z := 7.
Definition DT_RELASZ : Z := 8.
Definition DT_RELAENT : Z := 9.
Definition DT_SYMENT : Z := 11.
Definition DT_REL : Z := 17.
Definition DT_RELSZ : Z := 18.
Definition DT_RELENT : Z := 19.
Definition DT_PLTREL : Z := 20.
Definition DT_JMPREL : Z := 23.
Definition DT_INIT_ARRAY : Z := 25.
Definition DT_FINI_ARRAY : Z := 26.
Definition DT_INIT_ARRAYSZ : Z := 27.
Definition DT_FINI_ARRAYSZ : Z := 28.
Definition sizeof_Dyn : Z := 16.
Definition sizeof_Sym : Z := 24.
Definition sizeof_Rela : Z := 24.
Definition sizeof_Rel : Z := 16.
Definition STN_UNDEF : Z := 0.
Definition SHN_UNDEF : Z := 0.

(** ** Modules (include/bio/ld/ld_Dynamic.hpp) *)
Inductive ModuleState := Invalid | Queued | Scanned | Relocated | Initialized | Finalized | Unloaded.

#[export] Instance ModuleState_eq_dec : EqDecision ModuleState.
Proof. solve_decision. Defined.

Record ModuleFields := MkFields {
  state : ModuleState;
  ref_count : Z;
  base : Z;
  is_global : bool;
  has_run_basic_relocations : bool;
  dynamic : Z;
  symtab : Z;
  strtab : Z;
  hash : Z
}.

Inductive ModuleBlock := Module_ (fields : ModuleFields) (dependencies : list ModuleBlock).

Definition fields_of (m : ModuleBlock) : ModuleFields := let '(Module_ f _) := m in f.
Definition dependencies_of (m : ModuleBlock) : list ModuleBlock := let '(Module_ _ ds) := m in ds.

Definition set_state (s : ModuleState) (f : ModuleFields) : ModuleFields :=
  MkFields s (ref_count f) (base f) (is_global f) (has_run_basic_relocations f) (dynamic f) (symtab f) (strtab f) (hash f).

(** ** The dynamic section *)
Section Linker.
Context (fuel : nat).

(** [found] is the address of the value of the entry seen first. *)
Fixpoint find_loop (n : nat) (mem : memory) (d tag : Z) (found : option Z) : option (option (option Z)) :=
  match n with
  | O => None
  | S n =>
      t ← ld 8 mem d;
      if t =? DT_NULL then Some (Some found)
      else if t =? tag then
        match found with
        | Some _ => Some None
        | None => find_loop n mem (d + sizeof_Dyn) tag (Some (d + 8))
        end
      else find_loop n mem (d + sizeof_Dyn) tag found
  end.

Definition _inner_ELFDynamic_FindValue (mem : memory) (d tag : Z) : option (Result * Z) :=
  r ← find_loop fuel mem d tag None;
  match r with
  | None => Some (ResultDuplicatedDtEntry, 0)
  | Some None => Some (ResultMissingDtEntry, 0)
  | Some (Some a) => v ← ld 8 mem a; Some (Result_of_raw 0, v)
  end.

(** The pointer is stored whatever the result. *)
Definition _inner_ELFDynamic_FindOffset (mem : memory) (d tag aslr_base : Z) : option (Result * Z) :=
  '(res, intermediate) ← _inner_ELFDynamic_FindValue mem d tag;
  Some (res, u64 (aslr_base + intermediate)).

Definition _inner_ELF_HashString (name : list Z) : Z :=
  foldl (fun h c =>
    let h := u64 (u64 (Z.shiftl h 4) + c) in
    let g := Z.land h 0xf0000000 in
    let h := if negb (g =? 0) then Z.lxor h (Z.shiftr g 24) else h in
    Z.land h (Z.lnot g)) 0 name.

(** ** Symbols *)

(** [strcmp(name, p) == 0] for the characters of [name]. *)
Fixpoint strcmp_eq (mem : memory) (name : list Z) (p : Z) : option bool :=
  c' ← mem !! p;
  match name with
  | [] => Some (c' =? 0)
  | c :: name => if c' =? c then strcmp_eq mem name (p + 1) else Some false
  end.

(** The walk along a chain of the hash table. *)
Fixpoint chain_walk (n : nat) (mem : memory) (f : ModuleFields) (chains : Z) (name : list Z) (index : Z)
    : option Z :=
  match n with
  | O => None
  | S n =>
      if index =? 0 then Some index
      else
        st_name ← ld 4 mem (symtab f + sizeof_Sym * index);
        eq ← strcmp_eq mem name (strtab f + st_name);
        if (eq : bool) then Some index
        else index ← ld 4 mem (chains + 4 * index); chain_walk n mem f chains name index
  end.

(** The result and [*def]. The assignment to the parameter [defining_module]
    has no effect outside. *)
Definition _inner_TryResolveSymbol (mem : memory) (m : ModuleBlock) (name : list Z) (name_hash : Z)
    (require_global : bool) : option (Result * option Z) :=
  let f := fields_of m in
  let fail := Some (ResultCouldNotResolveSymbol, None) in
  if require_global && negb (is_global f) then fail
  else if symtab f =? 0 then fail
  else if strtab f =? 0 then fail
  else if negb (hash f =? 0) then
    nbucket ← ld 4 mem (hash f);
    _ ← ld 4 mem (hash f + 4);
    if nbucket =? 0 then None
    else
      index ← ld 4 mem (hash f + 4 * (2 + name_hash mod nbucket));
      let chains := hash f + 4 * (2 + nbucket) in
      index ← chain_walk fuel mem f chains name index;
      if index =? STN_UNDEF then fail
      else
        let sym := symtab f + sizeof_Sym * index in
        shndx ← ld 2 mem (sym + 6);
        if shndx =? SHN_UNDEF then fail else Some (Result_of_raw 0, Some sym)
  else fail.

Definition _inner_ResolveLoadSymbol (mem : memory) (m : ModuleBlock) (name : list Z) : option (Result * option Z) :=
  _inner_TryResolveSymbol mem m name (_inner_ELF_HashString name) false.

(** The two loops over the dependencies: the first result that is not "could
    not resolve". *)
Fixpoint try_each (try : ModuleBlock -> option (Result * option Z)) (ds : list ModuleBlock)
    : option (Result * option Z) :=
  match ds with
  | [] => Some (ResultCouldNotResolveSymbol, None)
  | d :: ds =>
      '(res, def) ← try d;
      if res_is res ResultCouldNotResolveSymbol then try_each try ds else Some (res, def)
  end.

Fixpoint _inner_ResolveDependencySymbol (mem : memory) (name : list Z) (m : ModuleBlock) {struct m}
    : option (Result * option Z) :=
  let name_hash := _inner_ELF_HashString name in
  '(res, def) ← _inner_TryResolveSymbol mem m name name_hash false;
  if negb (res_is res ResultCouldNotResolveSymbol) then Some (res, def)
  else
    let '(Module_ _ ds) := m in
    '(res, def) ← try_each (fun d => _inner_TryResolveSymbol mem d name name_hash false) ds;
    if negb (res_is res ResultCouldNotResolveSymbol) then Some (res, def)
    else
      (fix rec_each (ds : list ModuleBlock) : option (Result * option Z) :=
         match ds with
         | [] => Some (ResultCouldNotResolveSymbol, None)
         | d :: ds =>
             '(res, def) ← _inner_ResolveDependencySymbol mem name d;
             if res_is res ResultCouldNotResolveSymbol then rec_each ds else Some (res, def)
         end) ds.

(** ** Relocation *)
Record CustomRela := MkRela { r_offset : Z; r_reloc_type : Z; r_symbol : Z; r_addend : Z }.

Definition read_rela (mem : memory) (table_type a : Z) : option CustomRela :=
  off ← ld 8 mem a;
  ty ← ld 4 mem (a + 8);
  sy ← ld 4 mem (a + 12);
  if table_type =? DT_RELA then add ← ld 8 mem (a + 16); Some (MkRela off ty sy add)
  else Some (MkRela off ty sy 0).

(** The C string at an address. *)
Fixpoint cstring (n : nat) (mem : memory) (p : Z) : option (list Z) :=
  match n with
  | O => None
  | S n => c ← mem !! p; if c =? 0 then Some [] else s ← cstring n mem (p + 1); Some (c :: s)
  end.

(** The symbol of an entry: an error of the table, a symbol that does not
    resolve, or its address (0 without a symbol). *)
Inductive resolved := ResError (r : Result) | ResSkip | ResSymbol (s : Z).

Definition resolve_entry (mem : memory) (m : ModuleBlock) (r_symbol : Z) : option resolved :=
  let f := fields_of m in
  if negb (r_symbol =? 0) then
    if symtab f =? 0 then Some (ResError ResultNeedsSymTab)
    else if strtab f =? 0 then Some (ResError ResultNeedsStrTab)
    else
      st_name ← ld 4 mem (symtab f + sizeof_Sym * r_symbol);
      name ← cstring fuel mem (strtab f + st_name);
      '(res, def) ← _inner_ResolveLoadSymbol mem m name;
      if IsFailure res then Some ResSkip
      else def ← def; st_value ← ld 8 mem (def + 8); Some (ResSymbol (u64 (base f + st_value)))
  else Some (ResSymbol 0).

(** The store of an entry; [None] for a type the code does not know. *)
Definition store_entry (mem : memory) (m : ModuleBlock) (table_type : Z) (r : CustomRela) (symbol : Z)
    : option (option memory) :=
  let f := fields_of m in
  let target := u64 (base f + r_offset r) in
  let put (s : Z) : option (option memory) :=
    addend ← (if table_type =? DT_REL then ld 8 mem target else Some (r_addend r));
    mem ← st 8 mem target (u64 (s + addend));
    Some (Some mem) in
  if (r_reloc_type r =? 257) || (r_reloc_type r =? 1025) || (r_reloc_type r =? 1026) then put symbol
  else if r_reloc_type r =? 1027 then
    if negb (has_run_basic_relocations f) then put (base f) else Some (Some mem)
  else Some None.

Fixpoint relocation_loop (n : nat) (mem : memory) (m : ModuleBlock) (table_type raw_table ent_size offset table_size : Z)
    : option (Result * memory) :=
  if offset <? table_size then
    match n with
    | O => None
    | S n =>
        rela ← read_rela mem table_type (raw_table + offset);
        sym ← resolve_entry mem m (r_symbol rela);
        match sym with
        | ResError res => Some (res, mem)
        | ResSkip => relocation_loop n mem m table_type raw_table ent_size (offset + ent_size) table_size
        | ResSymbol s =>
            mem' ← store_entry mem m table_type rela s;
            match mem' with
            | None => Some (ResultUnrecognizedRelocType, mem)
            | Some mem => relocation_loop n mem m table_type raw_table ent_size (offset + ent_size) table_size
            end
        end
    end
  else Some (Result_of_raw 0, mem).

(** The size of an entry, or the error of its tag. *)
Definition entry_size (mem : memory) (d ent_tag size : Z) : option (Result * Z) :=
  '(res, ent_size) ← _inner_ELFDynamic_FindValue mem d ent_tag;
  if res_is res ResultMissingDtEntry then Some (Result_of_raw 0, size)
  else if IsSuccess res && negb (ent_size =? size) then Some (ResultInvalidRelocEnt, 0)
  else if IsFailure res then Some (res, 0)
  else Some (Result_of_raw 0, ent_size).

Definition _inner_RunRelocationTable (mem : memory) (m : ModuleBlock) (offset_tag size_tag : Z)
    : option (Result * memory) :=
  let f := fields_of m in
  let d := dynamic f in
  '(res, raw_table) ← _inner_ELFDynamic_FindOffset mem d offset_tag (base f);
  if res_is res ResultMissingDtEntry then Some (Result_of_raw 0, mem)
  else if IsFailure res then Some (res, mem)
  else
    '(res, table_size) ← _inner_ELFDynamic_FindValue mem d size_tag;
    if IsFailure res then Some (res, mem)
    else
      '(res, table_type) ←
        (if offset_tag =? DT_JMPREL then _inner_ELFDynamic_FindValue mem d DT_PLTREL
         else Some (Result_of_raw 0, offset_tag));
      if IsFailure res then Some (res, mem)
      else
        '(res, ent_size) ←
          (if table_type =? DT_RELA then entry_size mem d DT_RELAENT sizeof_Rela
           else if table_type =? DT_REL then entry_size mem d DT_RELENT sizeof_Rel
           else Some (ResultInvalidRelocTableType, 0));
        if IsFailure res then Some (res, mem)
        else if ent_size =? 0 then None
        else if negb (table_size mod ent_size =? 0) then Some (ResultInvalidRelocTableSize, mem)
        else relocation_loop (Z.to_nat (table_size / ent_size)) mem m table_type raw_table ent_size 0 table_size.

Definition with_state (s : ModuleState) (m : ModuleBlock) : ModuleBlock :=
  let '(Module_ f ds) := m in Module_ (set_state s f) ds.

Definition _inner_Relocate (mem : memory) (m : ModuleBlock) : option (Result * memory * ModuleBlock) :=
  '(res, mem) ← _inner_RunRelocationTable mem m DT_RELA DT_RELASZ;
  if IsFailure res then Some (res, mem, m)
  else
    '(res, mem) ← _inner_RunRelocationTable mem m DT_REL DT_RELSZ;
    if IsFailure res then Some (res, mem, m)
    else
      '(res, mem) ← _inner_RunRelocationTable mem m DT_JMPREL DT_PLTRELSZ;
      Some (res, mem, with_state Relocated m).
End Linker.

(** ** Scanning, constructors and the dl functions *)
Definition MOD0 : Z := 0x30444F4D.

Definition with_tables (dyn sy st ha : Z) (f : ModuleFields) : ModuleFields :=
  MkFields (state f) (ref_count f) (base f) (is_global f) (has_run_basic_relocations f) dyn sy st ha.

Section Loading.

(** The bound of the loops, [_inner_Load] of a path at an address, and what a
    constructor or destructor does to memory. *)
Context (fuel : nat) (load : memory -> Z -> Result * ModuleBlock) (call : Z -> memory -> memory).

Fixpoint needed_loop (n : nat) (mem : memory) (walker st : Z) : option (list ModuleBlock) :=
  match n with
  | O => None
  | S n =>
      t ← ld 8 mem walker;
      if t =? DT_NULL then Some []
      else if t =? DT_NEEDED then
        v ← ld 8 mem (walker + 8);
        let '(res, dep) := load mem (st + v) in
        deps ← needed_loop n mem (walker + sizeof_Dyn) st;
        Some (if IsSuccess res then dep :: deps else deps)
      else needed_loop n mem (walker + sizeof_Dyn) st
  end.

(** An offset whose tag may be missing. *)
Definition optional_offset (mem : memory) (d tag b : Z) (k : Z -> option (Result * ModuleBlock)) (m : Z -> ModuleBlock)
    : option (Result * ModuleBlock) :=
  '(res, p) ← _inner_ELFDynamic_FindOffset fuel mem d tag b;
  if IsFailure res && negb (res_is res ResultMissingDtEntry) then Some (res, m p) else k p.

Definition _inner_Scan (mem : memory) (m : ModuleBlock) : option (Result * ModuleBlock) :=
  let '(Module_ f ds) := m in
  let b := base f in
  mod_offset ← ld 4 mem (b + 4);
  let header := b + mod_offset in
  dyn_offset ← ld 4 mem (header + 4);
  let d := header + dyn_offset in
  magic ← ld 4 mem header;
  let now sy st ha := Module_ (with_tables d sy st ha f) ds in
  if negb (magic =? MOD0) then Some (ResultInvalidInputNro, now (symtab f) (strtab f) (hash f))
  else
    optional_offset mem d DT_HASH b (fun ha =>
    optional_offset mem d DT_STRTAB b (fun st =>
    optional_offset mem d DT_SYMTAB b (fun sy =>
      '(res, syment) ← _inner_ELFDynamic_FindValue fuel mem d DT_SYMENT;
      if IsSuccess res && negb (syment =? sizeof_Sym) then Some (ResultInvalidSymEnt, now sy st ha)
      else if IsFailure res && negb (res_is res ResultMissingDtEntry) then Some (res, now sy st ha)
      else
        deps ← needed_loop fuel mem d st;
        Some (Result_of_raw 0, Module_ (set_state Scanned (with_tables d sy st ha f)) (ds ++ deps)))
      (fun sy => now sy st ha))
      (fun st => now (symtab f) st ha))
      (fun ha => now (symtab f) (strtab f) ha).

(** The functions of an array are called in order; the array is read as the
    calls leave it. *)
Fixpoint call_array (n : nat) (mem : memory) (array i : Z) : option memory :=
  match n with
  | O => Some mem
  | S n => fn ← ld 8 mem (array + 8 * i); call_array n (call fn mem) array (i + 1)
  end.

Definition run_array (mem : memory) (m : ModuleBlock) (tag size_tag : Z) (from to : ModuleState)
    : option (Result * memory * ModuleBlock) :=
  let f := fields_of m in
  if negb (bool_decide (state f = from)) then Some (ResultInvalidModuleState, mem, m)
  else
    '(res, array) ← _inner_ELFDynamic_FindOffset fuel mem (dynamic f) tag (base f);
    if IsSuccess res then
      '(res, size) ← _inner_ELFDynamic_FindValue fuel mem (dynamic f) size_tag;
      if IsFailure res then Some (res, mem, m)
      else
        mem ← call_array (Z.to_nat (size / 8)) mem array 0;
        Some (Result_of_raw 0, mem, with_state to m)
    else if negb (res_is res ResultMissingDtEntry) then Some (res, mem, m)
    else Some (Result_of_raw 0, mem, with_state to m).

Definition _inner_Initialize (mem : memory) (m : ModuleBlock) :=
  run_array mem m DT_INIT_ARRAY DT_INIT_ARRAYSZ Relocated Initialized.

Definition _inner_Finalize (mem : memory) (m : ModuleBlock) :=
  run_array mem m DT_FINI_ARRAY DT_FINI_ARRAYSZ Initialized Finalized.

(** [dlopen] once the file is loaded: the module, or the result of the step
    that failed. *)
Definition dlopen_loaded (mem : memory) (m : ModuleBlock) : option (Result * memory * option ModuleBlock) :=
  let '(Module_ f ds) := m in
  let m := Module_ (MkFields Queued 1 (base f) (is_global f) false (dynamic f) (symtab f) (strtab f) (hash f)) ds in
  '(res, m) ← _inner_Scan mem m;
  if IsFailure res then Some (res, mem, None)
  else
    '(res, mem, m) ← _inner_Relocate fuel mem m;
    if IsFailure res then Some (res, mem, None)
    else
      '(res, mem, m) ← _inner_Initialize mem m;
      if IsFailure res then Some (res, mem, None) else Some (res, mem, Some m).

(** [dlsym]: NULL or an address. *)
Definition dlsym (mem : memory) (m : option ModuleBlock) (symbol : list Z) : option Z :=
  match m with
  | None => Some 0
  | Some m =>
      '(res, def) ← _inner_ResolveDependencySymbol fuel mem symbol m;
      if IsFailure res then Some 0
      else def ← def; st_value ← ld 8 mem (def + 8); Some (u64 (base (fields_of m) + st_value))
  end.
End Loading.

(** The hash of a name can pass 32 bits: the carry out of bit 31 is never
    masked. *)
Example hash_printf : _inner_ELF_HashString [112; 114; 105; 110; 116; 102] = 0x077905a6.
Proof. reflexivity. Qed.

Example hash_wide : _inner_ELF_HashString [255; 15; 15; 15; 15; 15; 18] = 0x100000002.
Proof. reflexivity. Qed.

(** ** The hash of a name *)

(** One round of the loop. *)
Definition code_hash_step (h c : Z) : Z :=
  let h := u64 (u64 (Z.shiftl h 4) + c) in
  let g := Z.land h 0xf0000000 in
  let h := if negb (g =? 0) then Z.lxor h (Z.shiftr g 24) else h in
  Z.land h (Z.lnot g).

Lemma HashString_steps name : _inner_ELF_HashString name = foldl code_hash_step 0 name.
Proof. done. Qed.

Lemma mask_bits i : 0 <= i -> Z.testbit 0xf0000000 i = (28 <=? i) && (i <? 32).
Proof.
  intros Hi. change 0xf0000000 with (Z.shiftl (Z.ones 4) 28). rewrite Z.shiftl_spec by done.
  destruct (Z.leb_spec 28 i); cbn [andb].
  - destruct (Z.ltb_spec i 32); [by rewrite Z.ones_spec_low by lia | by rewrite Z.ones_spec_high by lia].
  - by rewrite Z.testbit_neg_r by lia.
Qed.

(** The bits of a round: below bit 32 those of the specification's, above it what the
    shift left there. *)
Lemma code_hash_bits x i : 0 <= i ->
  let g := Z.land x 0xf0000000 in
  Z.testbit (Z.land (if negb (g =? 0) then Z.lxor x (Z.shiftr g 24) else x) (Z.lnot g)) i
  = if i <? 28 then xorb (Z.testbit x i) ((4 <=? i) && (i <? 8) && Z.testbit x (i + 24))
    else if i <? 32 then false else Z.testbit x i.
Proof.
  intros Hi g. assert ((if negb (g =? 0) then Z.lxor x (Z.shiftr g 24) else x) = Z.lxor x (Z.shiftr g 24)) as ->.
  { destruct (Z.eqb_spec g 0) as [-> |]; [by rewrite Z.shiftr_0_l, Z.lxor_0_r | done]. }
  rewrite Z.land_spec, Z.lxor_spec, Z.lnot_spec, Z.shiftr_spec by done. unfold g.
  rewrite !Z.land_spec, !mask_bits by lia.
  destruct (Z.ltb_spec i 28), (Z.ltb_spec i 32), (Z.leb_spec 28 i), (Z.leb_spec 28 (i + 24)), (Z.ltb_spec (i + 24) 32),
    (Z.leb_spec 4 i), (Z.ltb_spec i 8); try lia; cbn [andb negb];
    rewrite ?andb_false_r, ?andb_true_r, ?xorb_false_r; cbn [negb]; rewrite ?andb_true_r; try done;
    by destruct (Z.testbit x i).
Qed.

Lemma elf_step_bits h c i : 0 <= h -> 0 <= c -> 0 <= i -> let x := (16 * h + c) mod 2 ^ 32 in
  Z.testbit (elf_hash_step h c) i
  = if i <? 28 then xorb (Z.testbit x i) ((4 <=? i) && (i <? 8) && Z.testbit x (i + 24)) else false.
Proof.
  intros Hh Hc Hi x. unfold elf_hash_step. cbv zeta. fold x.
  replace (16 * (x / 2 ^ 28)) with (Z.shiftl (Z.shiftr x 28) 4)
    by (rewrite Z.shiftl_mul_pow2, Z.shiftr_div_pow2 by lia; lia).
  rewrite Z.lxor_spec, Z.shiftl_spec by done.
  assert (forall j, 32 <= j -> Z.testbit x j = false) as Hx by (intros j Hj; unfold x; by rewrite Z.mod_pow2_bits_high by lia).
  assert (Z.testbit (Z.shiftr x 28) (i - 4) = (4 <=? i) && (i <? 8) && Z.testbit x (i + 24)) as ->.
  { destruct (Z.leb_spec 4 i); cbn [andb]; [| by rewrite Z.testbit_neg_r by lia].
    rewrite Z.shiftr_spec by lia. replace (i - 4 + 28) with (i + 24) by lia.
    destruct (Z.ltb_spec i 8); [done | by rewrite Hx by lia]. }
  destruct (Z.ltb_spec i 28); [by rewrite Z.mod_pow2_bits_low by lia |].
  rewrite Z.mod_pow2_bits_high by lia. by destruct (4 <=? i), (Z.ltb_spec i 8); try lia.
Qed.

(** The low word of a round is the specification's; the high word is what the shift
    carried there. *)
Lemma code_hash_step_spec h c : 0 <= h < 2 ^ 64 -> char_ok c ->
  0 <= code_hash_step h c < 2 ^ 64 /\
  code_hash_step h c mod 2 ^ 32 = elf_hash_step (h mod 2 ^ 32) c /\
  code_hash_step h c / 2 ^ 32 = u64 (16 * h + c) / 2 ^ 32.
Proof.
  intros Hh Hc. unfold char_ok in Hc. unfold code_hash_step. rewrite Z.shiftl_mul_pow2 by lia. change (2 ^ 4) with 16.
  assert (u64 (u64 (h * 16) + c) = u64 (16 * h + c)) as ->
    by (unfold u64, wrap; rewrite Zplus_mod_idemp_l; f_equal; lia).
  set (x := u64 (16 * h + c)). assert (0 <= x < 2 ^ 64) as Hx by apply u64_range.
  cbv zeta. pose proof (code_hash_bits x) as Hbits. cbv zeta in Hbits.
  set (y := Z.land _ _) in Hbits |- *.
  assert (0 <= y) as Hy0 by (apply Z.land_nonneg; left; destruct (negb _); [apply Z.lxor_nonneg; split; [| lia]; intros _; apply Z.shiftr_nonneg, Z.land_nonneg; by right | lia]).
  assert (y mod 2 ^ 32 = elf_hash_step (h mod 2 ^ 32) c) as Elow.
  { apply Z.bits_inj'. intros i Hi. rewrite elf_step_bits by (try apply Z.mod_pos_bound; lia).
    destruct (Z.ltb_spec i 32).
    - rewrite Z.mod_pow2_bits_low, Hbits by lia.
      assert (forall j, j < 32 -> Z.testbit x j = Z.testbit ((16 * (h mod 2 ^ 32) + c) mod 2 ^ 32) j) as Ej.
      { intros j Hj. rewrite <- (Z.mod_pow2_bits_low x 32) by lia. f_equal. unfold x, u64, wrap.
        rewrite Z.mod_mod_divide by (by exists (2 ^ 32)).
        rewrite (Zplus_mod (16 * h)), (Zplus_mod (16 * (h mod 2 ^ 32))), (Zmult_mod_idemp_r h). done. }
      destruct (Z.ltb_spec i 28); [| by destruct (Z.ltb_spec i 32); [| lia]].
      destruct (Z.leb_spec 4 i), (Z.ltb_spec i 8); cbn [andb]; rewrite ?xorb_false_r, ?Ej by lia; done.
    - rewrite Z.mod_pow2_bits_high by lia. by rewrite (proj2 (Z.ltb_ge i 28)) by lia. }
  assert (y / 2 ^ 32 = x / 2 ^ 32) as Ehigh.
  { rewrite <- !Z.shiftr_div_pow2 by lia. apply Z.bits_inj'. intros i Hi. rewrite !Z.shiftr_spec, Hbits by lia.
    by rewrite !(proj2 (Z.ltb_ge _ _)) by lia. }
  split; [split; [done |] | split; done].
  pose proof (Z.div_mod y (2 ^ 32) ltac:(lia)); pose proof (Z.mod_pos_bound y (2 ^ 32) ltac:(lia));
    pose proof (Z.div_lt_upper_bound x (2 ^ 32) (2 ^ 32) ltac:(lia) ltac:(lia)); lia.
Qed.

Lemma HashString_low name : Forall char_ok name ->
  0 <= _inner_ELF_HashString name < 2 ^ 64 /\ _inner_ELF_HashString name mod 2 ^ 32 = elf_hash name.
Proof.
  rewrite HashString_steps. unfold elf_hash.
  assert (forall h, Forall char_ok name -> 0 <= h < 2 ^ 64 -> 0 <= foldl code_hash_step h name < 2 ^ 64 /\
    foldl code_hash_step h name mod 2 ^ 32 = foldl elf_hash_step (h mod 2 ^ 32) name) as H;
    [| intros Hn; by apply (H 0)].
  induction name as [| c name IH]; intros h Hn Hh; [done |]. inversion Hn; subst. simpl.
  destruct (code_hash_step_spec h c) as (Hr & <- & _); [done | done |]. by apply IH.
Qed.

(** Without a carry the hash is that of the specification. *)
Lemma HashString_exact name : Forall char_ok name -> no_carry 0 name -> _inner_ELF_HashString name = elf_hash name.
Proof.
  rewrite HashString_steps. unfold elf_hash.
  assert (forall h, 0 <= h < 2 ^ 28 -> Forall char_ok name -> no_carry h name ->
    foldl code_hash_step h name = foldl elf_hash_step h name) as H; [| by apply (H 0)].
  induction name as [| c name IH]; intros h Hh Hn Hc; [done |]. inversion Hn; subst. destruct Hc as [Hc Hc'].
  pose proof (elf_hash_step_bound h c Hh ltac:(done)) as Hb.
  destruct (code_hash_step_spec h c) as (Hr & Hl & Hd); [lia | done |].
  assert (code_hash_step h c = elf_hash_step h c) as E.
  { rewrite (Z.mod_small h) in Hl by lia. unfold char_ok in *. rewrite u64_small, (Z.div_small (16 * h + c)) in Hd by lia.
    rewrite <- Hl. apply Z.div_small_iff in Hd; [| lia]. symmetry. apply Z.mod_small. lia. }
  simpl. rewrite E. by apply IH.
Qed.

(** The bucket of a name is the specification's when no character carried, or when the
    number of buckets is a power of two. *)
Definition hash_agrees (nbucket : Z) (name : list Z) : Prop := no_carry 0 name \/ (nbucket | 2 ^ 32).

Lemma HashString_bucket nbucket name : 0 < nbucket -> Forall char_ok name -> hash_agrees nbucket name ->
  _inner_ELF_HashString name mod nbucket = elf_hash name mod nbucket.
Proof.
  intros Hb Hn [Hc | Hd]; [by rewrite HashString_exact |].
  destruct (HashString_low name Hn) as [_ <-]. by rewrite Z.mod_mod_divide.
Qed.

(** ** Symbols *)
Lemma strcmp_eq_spec mem name p s : Forall char_ok name -> Forall char_ok s -> bytes_at mem p (s ++ [0]) ->
  strcmp_eq mem name p = Some (bool_decide (name = s)).
Proof.
  unfold char_ok. revert name p. induction s as [| c' s IH]; intros name p Hn Hs [Hp Hb].
  - destruct name as [| c name]; simpl; rewrite Hp; [done |]. cbn [mbind option_bind].
    inversion Hn; subst. by rewrite (proj2 (Z.eqb_neq 0 c)) by lia.
  - inversion Hs; subst. destruct name as [| c name]; simpl; rewrite Hp; cbn [mbind option_bind].
    + by rewrite (proj2 (Z.eqb_neq _ _)) by lia.
    + inversion Hn; subst. destruct (Z.eqb_spec c' c) as [-> | Hne].
      * rewrite (IH name) by done. f_equal. apply bool_decide_ext. split; [by intros -> | by intros [= ->]].
      * by rewrite bool_decide_eq_false_2 by (intros [=]; done).
Qed.

Lemma cstring_spec n mem p s : Forall char_ok s -> bytes_at mem p (s ++ [0]) -> (length s < n)%nat ->
  cstring n mem p = Some s.
Proof.
  unfold char_ok. revert n p. induction s as [| c s IH]; intros [| n] p Hs Hb Hl; simpl in Hl; try lia;
    destruct Hb as [Hp Hb]; simpl; rewrite Hp; cbn [mbind option_bind]; [done |].
  inversion Hs; subst. rewrite (proj2 (Z.eqb_neq c 0)) by lia. by rewrite (IH n) by (done || lia).
Qed.

(** The structures of a module where its fields say. *)
Definition module_at (mem : memory) (f : ModuleFields) (e : elf) : Prop :=
  elf_at mem (dynamic f) (symtab f) (strtab f) (hash f) e /\ elf_ok e /\
  symtab f <> 0 /\ strtab f <> 0 /\ hash f <> 0.

Section Lookup.
Context (mem : memory) (f : ModuleFields) (e : elf) (Hat : module_at mem f e).

Lemma module_symbol j s : e_syms e !! j = Some s ->
  ld 4 mem (symtab f + sizeof_Sym * Z.of_nat j) = Some (sy_name s) /\
  ld 2 mem (symtab f + sizeof_Sym * Z.of_nat j + 6) = Some (sy_shndx s) /\
  ld 8 mem (symtab f + sizeof_Sym * Z.of_nat j + 8) = Some (sy_value s) /\
  bytes_at mem (strtab f + sy_name s) (sy_string s ++ [0]) /\ Forall char_ok (sy_string s).
Proof.
  intros Hj. destruct Hat as (Ha & He & _). destruct (eo_syms e He) as [Hr Hc]. rewrite Forall_lookup in Hr, Hc.
  destruct (bytes_at_symbol mem (symtab f) (e_syms e) j s) as (? & ? & ?); [apply Ha | done | by eapply Hr |].
  repeat split; try done; [by eapply (ea_strings _ _ _ _ _ _ Ha) | by eapply Hc].
Qed.

Lemma hash_words i v :
  (Z.of_nat (length (e_buckets e)) :: Z.of_nat (length (e_chains e)) :: e_buckets e ++ e_chains e) !! i = Some v ->
  ld 4 mem (hash f + 4 * Z.of_nat i) = Some v.
Proof.
  intros Hi. destruct Hat as (Ha & He & _).
  destruct (eo_buckets e He) as (_ & Hb & Hbr), (eo_chains e He) as (_ & Hc & Hcr).
  apply (ld_word _ _ _ _ _ (ea_hash _ _ _ _ _ _ Ha) Hi).
  assert (Forall (fits_bits 32) (Z.of_nat (length (e_buckets e)) :: Z.of_nat (length (e_chains e)) :: e_buckets e ++ e_chains e))
    as H; [| rewrite Forall_lookup in H; by eapply H].
  constructor; [unfold fits_bits; lia |]. constructor; [unfold fits_bits; lia |]. by apply Forall_app.
Qed.

Lemma chain_walk_spec n name i l :
  Forall char_ok name -> chain (e_chains e) i l -> (length l < n)%nat ->
  chain_walk n mem f (hash f + 4 * (2 + Z.of_nat (length (e_buckets e)))) name i
  = Some match list_find (fun j => sy_string <$> e_syms e !! j = Some name) l with
         | Some (_, j) => Z.of_nat j
         | None => 0
         end.
Proof.
  intros Hn. revert i n. induction l as [| j l IH]; intros i n Hc Hl;
    (destruct n as [| n]; [lia |]); simpl in Hc; cbn [chain_walk list_find].
  - by subst.
  - destruct Hc as (-> & Hj & nx & Hnx & Hc). rewrite (proj2 (Z.eqb_neq _ 0)) by lia.
    assert (is_Some (e_syms e !! j)) as [s Hs].
    { apply lookup_lt_is_Some. destruct Hat as (_ & He & _). rewrite <- (proj1 (eo_chains e He)). by eapply lookup_lt_Some. }
    destruct (module_symbol j s Hs) as (Hst & _ & _ & Hstr & Hok).
    rewrite Hst. cbn [mbind option_bind]. rewrite (strcmp_eq_spec _ _ _ _ Hn Hok Hstr). cbn [mbind option_bind].
    rewrite Hs. cbn [fmap option_fmap option_map]. case_decide as E; case_bool_decide as E'; try congruence.
    assert (ld 4 mem (hash f + 4 * (2 + Z.of_nat (length (e_buckets e))) + 4 * Z.of_nat j) = Some nx) as ->.
    { replace (_ + 4 * Z.of_nat j) with (hash f + 4 * Z.of_nat (S (S (length (e_buckets e) + j)))) by lia.
      apply hash_words. transitivity ((e_buckets e ++ e_chains e) !! (length (e_buckets e) + j)%nat); [done |].
      rewrite lookup_app_r by lia. by rewrite Nat.add_comm, Nat.add_sub. }
    cbn [mbind option_bind]. rewrite (IH nx) by (done || (simpl in Hl; lia)). by destruct (list_find _ l) as [[? ?] |].
Qed.
End Lookup.

(** C23: when memory holds the structures of a module as the ELF specification describes
    them, the lookup of a name ends and answers the defined symbol with that name, found
    on the chain of its bucket, or that there is none. The name must be hashed as the
    specification does: without a carry out of 32 bits, or for a number of buckets that
    is a power of two. *)
Theorem symbol_lookup fuel mem m e name :
  let f := fields_of m in
  module_at mem f e -> name <> [] -> Forall char_ok name ->
  hash_agrees (Z.of_nat (length (e_buckets e))) name -> (length (e_syms e) < fuel)%nat ->
  _inner_ResolveLoadSymbol fuel mem m name
  = Some match elf_symbol e name with
         | Some (j, _) => (Result_of_raw 0, Some (symtab f + sizeof_Sym * Z.of_nat j))
         | None => (ResultCouldNotResolveSymbol, None)
         end.
Proof.
  intros f Hat Hne Hn Hag Hl. pose proof Hat as (_ & He & Hsy & Hst & Hha).
  unfold _inner_ResolveLoadSymbol, _inner_TryResolveSymbol. fold f. cbn [andb].
  rewrite (proj2 (Z.eqb_neq _ _) Hsy), (proj2 (Z.eqb_neq _ _) Hst), (proj2 (Z.eqb_neq _ _) Hha). cbn [negb].
  pose proof (hash_words mem f e Hat 0 _ eq_refl) as H0. pose proof (hash_words mem f e Hat 1 _ eq_refl) as H1.
  rewrite Z.add_0_r in H0. change (4 * Z.of_nat 1) with 4 in H1. rewrite H0. cbn [mbind option_bind].
  rewrite H1. cbn [mbind option_bind]. set (nb := Z.of_nat (length (e_buckets e))) in *.
  assert (0 < nb) as Hnb by (destruct (eo_buckets e He) as [Hb _]; destruct (e_buckets e); [done | unfold nb; simpl; lia]).
  rewrite (proj2 (Z.eqb_neq nb 0)), (HashString_bucket nb name) by (done || lia).
  pose proof (Z.mod_pos_bound (elf_hash name) nb Hnb) as Hm. set (b := elf_hash name mod nb) in *.
  destruct (lookup_lt_is_Some_2 (e_buckets e) (Z.to_nat b)) as [i Hi]; [unfold nb in Hm; lia |].
  assert (ld 4 mem (hash f + 4 * (2 + b)) = Some i) as ->.
  { replace (2 + b) with (Z.of_nat (S (S (Z.to_nat b)))) by lia. apply (hash_words mem f e Hat).
    transitivity ((e_buckets e ++ e_chains e) !! Z.to_nat b); [done |]. by rewrite lookup_app_l by (by eapply lookup_lt_Some). }
  cbn [mbind option_bind]. destruct (eo_lists e He i) as [l Hc]; [by eapply list_elem_of_lookup_2 |].
  pose proof (chain_length _ _ _ Hc) as Hlen. rewrite (proj1 (eo_chains e He)) in Hlen.
  rewrite (chain_walk_spec mem f e Hat _ name i l) by (done || lia). cbn [mbind option_bind].
  destruct (elf_symbol_chain e name i l He Hne Hi Hc) as [Hfound Hfirst].
  destruct (list_find _ l) as [[k j] |] eqn:Ef.
  - apply list_find_Some in Ef as (Hk & Hj & _). apply list_elem_of_lookup_2 in Hk as Hin.
    apply fmap_Some in Hj as (s & Hs & ->). destruct (chain_valid _ _ _ _ Hc Hin) as [_ Hj0].
    rewrite (proj2 (Z.eqb_neq _ STN_UNDEF)) by (unfold STN_UNDEF; lia).
    destruct (module_symbol mem f e Hat j s Hs) as (_ & -> & _). cbn [mbind option_bind].
    specialize (Hfirst j s Hin Hs eq_refl). unfold SHN_UNDEF. by destruct (sy_shndx s =? 0); rewrite Hfirst.
  - rewrite Z.eqb_refl. destruct (elf_symbol e name) as [[j s] |] eqn:E; [| done]. exfalso.
    apply elf_symbol_Some in E as (Hj & <- & _). apply list_find_None in Ef. rewrite Forall_forall in Ef.
    apply (Ef j Hfound). by rewrite Hj.
Qed.

(** [dlsym] adds the base of the module it was asked for, also when a
    dependency defines the symbol: the address it returns is then not the
    symbol's unless the two modules are loaded at the same base. *)
Theorem dlsym_wrong_base fuel mem f d ds name sym v def :
  _inner_TryResolveSymbol fuel mem (Module_ f (d :: ds)) name (_inner_ELF_HashString name) false
    = Some (ResultCouldNotResolveSymbol, def) ->
  _inner_TryResolveSymbol fuel mem d name (_inner_ELF_HashString name) false = Some (Result_of_raw 0, Some sym) ->
  ld 8 mem (sym + 8) = Some v -> 0 <= base f < 2 ^ 64 -> 0 <= base (fields_of d) < 2 ^ 64 ->
  dlsym fuel mem (Some (Module_ f (d :: ds))) name = Some (u64 (base f + v)) /\
  (base f <> base (fields_of d) -> u64 (base f + v) <> u64 (base (fields_of d) + v)).
Proof.
  intros Hm Hd Hv Hf Hg. split.
  - unfold dlsym. cbn [_inner_ResolveDependencySymbol]. rewrite Hm. cbn [mbind option_bind].
    change (res_is ResultCouldNotResolveSymbol ResultCouldNotResolveSymbol) with true. cbn [negb try_each].
    rewrite Hd. cbn [mbind option_bind]. change (res_is (Result_of_raw 0) ResultCouldNotResolveSymbol) with false.
    cbn [negb mbind option_bind]. change (res_is (Result_of_raw 0) ResultCouldNotResolveSymbol) with false.
    cbn [negb mbind option_bind]. change (IsFailure (Result_of_raw 0)) with false. cbv iota.
    cbn [mbind option_bind fields_of]. by rewrite Hv.
  - intros Hne E. apply Hne. unfold u64, wrap in E.
    rewrite <- (Z.mod_small (base f) (2 ^ 64)), <- (Z.mod_small (base (fields_of d)) (2 ^ 64)) by done.
    replace (base f) with (base f + v - v) by lia.
    replace (base (fields_of d)) with (base (fields_of d) + v - v) by lia.
    by rewrite (Zminus_mod (base f + v)), E, <- Zminus_mod.
Qed.

(** ** The dynamic section *)
Lemma find_loop_spec n mem d tag dyn found :
  bytes_at mem d (concat (dyn_bytes <$> dyn) ++ le 8 0) -> Forall dyn_range dyn -> (length dyn < n)%nat ->
  match found, dyn_values tag dyn with
  | None, [] => find_loop n mem d tag found = Some (Some None)
  | None, [v] => exists a, find_loop n mem d tag found = Some (Some (Some a)) /\ ld 8 mem a = Some v
  | Some a, [] => find_loop n mem d tag found = Some (Some (Some a))
  | _, _ => find_loop n mem d tag found = Some None
  end.
Proof.
  revert n d found. induction dyn as [| [t v] dyn IH]; intros n d found Hb Hr Hl; (destruct n as [| n]; [simpl in Hl; lia |]);
    cbn [find_loop].
  - rewrite (ld_le 8 mem d 0) by done. cbn. by destruct found.
  - inversion Hr as [| ? ? (Ht & Ht0 & Hv) Hr']; subst. cbn [fst snd] in *.
    rewrite fmap_cons in Hb. cbn [concat] in Hb. rewrite <- app_assoc in Hb. apply bytes_at_app in Hb as [Hd Hb].
    change (Z.of_nat (length (dyn_bytes (t, v)))) with 16 in Hb. apply bytes_at_app in Hd as [Hd1 Hd2].
    change (Z.of_nat (length (le 8 (t, v).1))) with 8 in Hd2. cbn [fst snd] in *.
    rewrite (ld_le 8 mem d t) by done. cbn [mbind option_bind]. unfold DT_NULL.
    rewrite (proj2 (Z.eqb_neq _ _) Ht0). simpl in Hl.
    assert (dyn_values tag ((t, v) :: dyn) = (if t =? tag then [v] else []) ++ dyn_values tag dyn) as ->.
    { unfold dyn_values. rewrite filter_cons. cbn [fst]. destruct (Z.eqb_spec t tag); by case_decide. }
    specialize (fun found => IH n (d + 16) found Hb Hr' ltac:(lia)).
    destruct (t =? tag); cbn [app].
    + destruct found as [a |]; [done |]. specialize (IH (Some (d + 8))). destruct (dyn_values tag dyn); [| exact IH].
      exists (d + 8). split; [exact IH | by apply ld_le].
    + apply IH.
Qed.

Definition dyn_answer (vs : list Z) : Result * Z :=
  match vs with
  | [] => (ResultMissingDtEntry, 0)
  | [v] => (Result_of_raw 0, v)
  | _ => (ResultDuplicatedDtEntry, 0)
  end.

Section Sections.
Context (fuel : nat) (mem : memory) (f : ModuleFields) (e : elf) (Hat : module_at mem f e).
Context (Hfuel : (length (e_dyn e) < fuel)%nat).

Lemma FindValue_spec tag :
  _inner_ELFDynamic_FindValue fuel mem (dynamic f) tag = Some (dyn_answer (dyn_values tag (e_dyn e))).
Proof.
  destruct Hat as (Ha & He & _). unfold _inner_ELFDynamic_FindValue.
  pose proof (find_loop_spec fuel mem (dynamic f) tag (e_dyn e) None (ea_dyn _ _ _ _ _ _ Ha) (eo_dyn e He) Hfuel) as H.
  destruct (dyn_values tag (e_dyn e)) as [| v [| v' vs]]; [by rewrite H | | by rewrite H].
  destruct H as (a & -> & Hv). cbn [mbind option_bind]. by rewrite Hv.
Qed.

Lemma entry_size_spec tag size : dyn_values tag (e_dyn e) = [] \/ dyn_values tag (e_dyn e) = [size] ->
  entry_size fuel mem (dynamic f) tag size = Some (Result_of_raw 0, size).
Proof.
  unfold entry_size. rewrite FindValue_spec. cbn [mbind option_bind].
  intros [-> | ->]; cbn [dyn_answer]; [done |].
  change (res_is (Result_of_raw 0) ResultMissingDtEntry) with false. cbv iota. by rewrite Z.eqb_refl.
Qed.
End Sections.

(** ** Relocation with addends *)
Definition R_AARCH64_ABS64 : Z := 257.
Definition R_AARCH64_GLOB_DAT : Z := 1025.
Definition R_AARCH64_JUMP_SLOT : Z := 1026.
Definition R_AARCH64_RELATIVE : Z := 1027.

(** The symbol of an entry: none, or the address of the defined symbol with the name of
    the one the entry refers to. *)
Definition rela_symbol (f : ModuleFields) (e : elf) (r : rela) : option Z :=
  if decide (ra_symbol r = 0) then Some 0
  else
    s ← e_syms e !! Z.to_nat (ra_symbol r);
    '(_, d) ← elf_symbol e (sy_string s);
    Some ((base f + sy_value d) mod 2 ^ 64).

(** What an entry stores, if anything: S + A, or B + A for a relative one. *)
Definition rela_value (f : ModuleFields) (e : elf) (r : rela) : option Z :=
  s ← rela_symbol f e r;
  if decide (ra_type r = R_AARCH64_RELATIVE)
  then if has_run_basic_relocations f then None else Some ((base f + ra_addend r) mod 2 ^ 64)
  else Some ((s + ra_addend r) mod 2 ^ 64).

Definition rela_target (f : ModuleFields) (r : rela) : Z := (base f + ra_offset r) mod 2 ^ 64.

Definition apply_rela (f : ModuleFields) (e : elf) (mem : memory) (r : rela) : memory :=
  match rela_value f e r with Some v => write (le 8 v) (rela_target f r) mem | None => mem end.

(** An entry of a known type whose symbol has a name that is hashed as it should. *)
Definition rela_ok (e : elf) (r : rela) : Prop :=
  rela_range r /\
  ra_type r ∈ [R_AARCH64_ABS64; R_AARCH64_GLOB_DAT; R_AARCH64_JUMP_SLOT; R_AARCH64_RELATIVE] /\
  (ra_symbol r <> 0 -> exists s, e_syms e !! Z.to_nat (ra_symbol r) = Some s /\ sy_string s <> [] /\
    hash_agrees (Z.of_nat (length (e_buckets e))) (sy_string s)).

(** The eight bytes an entry is about. *)
Definition in_target (f : ModuleFields) (r : rela) (b : Z) : Prop := rela_target f r <= b < rela_target f r + 8.

Section Relocation.
Context (fuel : nat) (m : ModuleBlock) (e : elf) (image : memory) (table : Z) (rs : list rela).
Notation f := (fields_of m).
Context (Hat : module_at image f e).
Context (Htable : bytes_at image table (concat (rela_bytes <$> rs))).
Context (Hok : Forall (rela_ok e) rs).
Context (Hsyms : (length (e_syms e) < fuel)%nat).
Context (Hnames : Forall (fun s => (length (sy_string s) < fuel)%nat) (e_syms e)).
Context (Houtside : forall r b, r ∈ rs -> in_target f r b -> image !! b = None).

Lemma module_at_mono mem : image ⊆ mem -> module_at mem f e.
Proof. intros Hs. destruct Hat as (Ha & ?). split; [by eapply elf_at_mono | done]. Qed.

Lemma resolve_entry_spec mem r : image ⊆ mem -> rela_ok e r ->
  resolve_entry fuel mem m (ra_symbol r)
  = Some match rela_symbol f e r with Some s => ResSymbol s | None => ResSkip end.
Proof.
  intros Hs ((_ & _ & Hr & _) & _ & Hsym). pose proof (module_at_mono mem Hs) as Hm. pose proof Hm as (_ & He & Hsy & Hst & _).
  unfold resolve_entry, rela_symbol. case_decide as E; [by rewrite E |].
  rewrite (proj2 (Z.eqb_neq _ _) E), (proj2 (Z.eqb_neq _ _) Hsy), (proj2 (Z.eqb_neq _ _) Hst). cbn [negb].
  destruct (Hsym E) as (s & Hj & Hne & Hag). rewrite Hj. cbn [mbind option_bind].
  destruct (module_symbol mem f e Hm _ s Hj) as (Hn & _ & _ & Hstr & Hch).
  rewrite Z2Nat.id in Hn by (unfold fits_bits in Hr; lia). rewrite Hn. cbn [mbind option_bind].
  assert (length (sy_string s) < fuel)%nat as Hlen by (rewrite Forall_lookup in Hnames; by eapply Hnames).
  rewrite (cstring_spec _ _ _ _ Hch Hstr Hlen). cbn [mbind option_bind].
  rewrite (symbol_lookup fuel mem m e (sy_string s) Hm Hne Hch Hag Hsyms). cbn [mbind option_bind].
  destruct (elf_symbol e (sy_string s)) as [[j d] |] eqn:Ed; [| done]. cbn [mbind option_bind].
  change (IsFailure (Result_of_raw 0)) with false. cbv iota. cbn [mbind option_bind].
  apply elf_symbol_Some in Ed as (Hd & _). destruct (module_symbol mem f e Hm j d Hd) as (_ & _ & -> & _). done.
Qed.

Lemma read_rela_spec mem i r : image ⊆ mem -> rs !! i = Some r ->
  read_rela mem DT_RELA (table + 24 * Z.of_nat i) = Some (MkRela (ra_offset r) (ra_type r) (ra_symbol r) (ra_addend r)).
Proof.
  intros Hs Hi. rewrite Forall_lookup in Hok. destruct (Hok i r Hi) as (Hr & _).
  pose proof (bytes_at_mono _ _ _ _ Hs Htable) as Ht.
  destruct (bytes_at_rela mem table rs i r Ht Hi Hr) as (E1 & E2 & E3 & E4).
  unfold read_rela. rewrite E1. cbn [mbind option_bind]. rewrite E2. cbn [mbind option_bind]. rewrite E3.
  cbn [mbind option_bind]. change (DT_RELA =? DT_RELA) with true. cbv iota. by rewrite E4.
Qed.

Lemma store_entry_spec mem r s : rela_ok e r -> mapped 8 mem (rela_target f r) -> rela_symbol f e r = Some s ->
  store_entry mem m DT_RELA (MkRela (ra_offset r) (ra_type r) (ra_symbol r) (ra_addend r)) s
  = Some (Some (apply_rela f e mem r)).
Proof.
  intros (_ & Ht & _) Hmap Hs. unfold store_entry, apply_rela, rela_value. rewrite Hs. cbn [mbind option_bind r_offset r_reloc_type r_addend].
  change (DT_RELA =? DT_REL) with false. cbv iota. cbn [mbind option_bind].
  fold (rela_target f r). change (u64 (base f + ra_offset r)) with (rela_target f r).
  apply elem_of_cons in Ht as [-> | Ht]; [by rewrite st_mapped |].
  apply elem_of_cons in Ht as [-> | Ht]; [by rewrite st_mapped |].
  apply elem_of_cons in Ht as [-> | Ht]; [by rewrite st_mapped |].
  apply list_elem_of_singleton in Ht as ->. rewrite !st_mapped by done. by destruct (has_run_basic_relocations f).
Qed.

Lemma apply_rela_sub mem r : r ∈ rs -> image ⊆ mem -> image ⊆ apply_rela f e mem r.
Proof.
  intros Hr Hs. unfold apply_rela. destruct (rela_value f e r); [| done].
  apply write_subseteq; [| done]. intros b Hb. rewrite length_le in Hb. by apply (Houtside r).
Qed.

Lemma apply_rela_mapped mem r a : mapped 8 mem a -> mapped 8 (apply_rela f e mem r) a.
Proof. unfold apply_rela. destruct (rela_value f e r); [apply write_mapped | done]. Qed.

Lemma relocation_loop_spec l k mem :
  (forall i r, l !! i = Some r -> rs !! (k + i)%nat = Some r) ->
  image ⊆ mem -> Forall (fun r => mapped 8 mem (rela_target f r)) l ->
  relocation_loop fuel (length l) mem m DT_RELA table 24 (24 * Z.of_nat k) (24 * Z.of_nat (k + length l))
  = Some (Result_of_raw 0, foldl (apply_rela f e) mem l).
Proof.
  revert k mem. induction l as [| r l IH]; intros k mem Hl Hs Hmap; cbn [relocation_loop length].
  - by rewrite (proj2 (Z.ltb_ge _ _)) by lia.
  - rewrite (proj2 (Z.ltb_lt _ _)) by lia. inversion Hmap as [| ? ? Hmr Hml]; subst.
    assert (rs !! k = Some r) as Hk by (rewrite <- (Nat.add_0_r k); by apply Hl).
    assert (rela_ok e r) as Hr by (rewrite Forall_lookup in Hok; by eapply Hok).
    rewrite (read_rela_spec mem k r Hs Hk). cbn [mbind option_bind r_symbol].
    rewrite (resolve_entry_spec mem r Hs Hr). cbn [mbind option_bind].
    assert (forall mem', image ⊆ mem' -> Forall (fun r => mapped 8 mem' (rela_target f r)) l ->
      relocation_loop fuel (length l) mem' m DT_RELA table 24 (24 * Z.of_nat k + 24) (24 * Z.of_nat (k + S (length l)))
      = Some (Result_of_raw 0, foldl (apply_rela f e) mem' l)) as Hnext.
    { intros mem' Hs' Hm'. replace (24 * Z.of_nat k + 24) with (24 * Z.of_nat (S k)) by lia.
      replace (k + S (length l))%nat with (S k + length l)%nat by lia. apply IH; [| done | done].
      intros i r' Hi. rewrite Nat.add_succ_comm. by apply Hl. }
    cbn [foldl]. destruct (rela_symbol f e r) as [s |] eqn:Es.
    + rewrite (store_entry_spec mem r s Hr Hmr Es). cbn [mbind option_bind]. apply Hnext.
      * apply apply_rela_sub; [by eapply list_elem_of_lookup_2 | done].
      * eapply Forall_impl; [exact Hml |]. intros r'. apply apply_rela_mapped.
    + assert (apply_rela f e mem r = mem) as -> by (unfold apply_rela, rela_value; by rewrite Es). by apply Hnext.
Qed.
End Relocation.

(** An address that is in no target keeps its byte. *)
Lemma apply_relas_other f e rs mem b :
  (forall r, r ∈ rs -> rela_value f e r <> None -> ~ in_target f r b) -> foldl (apply_rela f e) mem rs !! b = mem !! b.
Proof.
  revert mem. induction rs as [| r rs IH]; intros mem H; [done |]. cbn [foldl]. rewrite IH.
  - unfold apply_rela. destruct (rela_value f e r) eqn:E; [| done]. apply write_other. rewrite length_le.
    apply (H r); [apply list_elem_of_here | congruence].
  - intros r' Hr'. apply H. by apply list_elem_of_further.
Qed.

(** The bytes of a target are those of the last entry that stores there. *)
Lemma apply_relas_at f e rs mem i r v : rs !! i = Some r -> rela_value f e r = Some v ->
  (forall j r' b, (i < j)%nat -> rs !! j = Some r' -> rela_value f e r' <> None -> in_target f r b -> ~ in_target f r' b) ->
  bytes_at (foldl (apply_rela f e) mem rs) (rela_target f r) (le 8 v).
Proof.
  intros Hi Hv Hlast. rewrite <- (take_drop (S i) rs), foldl_app, (take_S_r _ _ r) by done.
  rewrite foldl_app. cbn [foldl]. set (mem' := foldl _ mem (take i rs)).
  apply (bytes_at_ext (apply_rela f e mem' r)); [| unfold apply_rela; rewrite Hv; apply bytes_at_write].
  intros b Hb. apply apply_relas_other. intros r' (j & Hj)%list_elem_of_lookup Hv'.
  rewrite lookup_drop in Hj. apply (Hlast (S i + j)%nat r' b); [lia | done | done | exact Hb].
Qed.


(** ** Witnesses *)
Fixpoint bytes_atb (mem : memory) (a : Z) (l : list Z) : bool :=
  match l with [] => true | b :: l => bool_decide (mem !! a = Some b) && bytes_atb mem (a + 1) l end.

Lemma bytes_atb_ok mem a l : bytes_atb mem a l = true -> bytes_at mem a l.
Proof.
  revert a. induction l as [| b l IH]; intros a; simpl; [done |].
  intros [H1 H2]%andb_true_iff. split; [by apply bool_decide_eq_true in H1 | by apply IH].
Qed.

(** A memory that holds the structures of a module. *)
Definition elf_image (f : ModuleFields) (e : elf) : memory :=
  write (concat (dyn_bytes <$> e_dyn e) ++ le 8 0) (dynamic f)
    (write (concat (le 4 <$> Z.of_nat (length (e_buckets e)) :: Z.of_nat (length (e_chains e)) :: e_buckets e ++ e_chains e))
      (hash f)
      (write (concat (symbol_bytes <$> e_syms e)) (symtab f)
        (foldr (fun s mem => write (sy_string s ++ [0]) (strtab f + sy_name s) mem) ∅ (e_syms e)))).

Definition null_symbol : symbol := MkSymbol [] 0 0 0 0 0 0.

(** A module at 0x1000 with one symbol, "f", and two entries to relocate. *)
Definition test_fields : ModuleFields := MkFields Scanned 1 0x1000 true false 0x2000 0x7000 0x8000 0x6000.
Definition test_module : ModuleBlock := Module_ test_fields [].
Definition test_elf : elf :=
  MkElf [(7, 0x2000); (8, 48); (9, 24)] [1] [0; 0] [null_symbol; MkSymbol [102] 1 18 0 1 0x100 4].
Definition test_relas : list rela := [MkRelaEntry 0x4000 1025 1 5; MkRelaEntry 0x4008 1027 0 0x10].
Definition test_image : memory := write (concat (rela_bytes <$> test_relas)) 0x3000 (elf_image test_fields test_elf).
Definition test_memory : memory := write (replicate 16 0) 0x5000 test_image.

(** A module that depends on it and has no symbols. *)
Definition client_fields : ModuleFields := MkFields Initialized 1 0x9000 false false 0x2000 0 0 0.

(** A module whose symbol has a name for which the hash carries. *)
Definition wide_fields : ModuleFields := MkFields Scanned 1 0x1000 true false 0x2000 0x7000 0x8000 0x6000.
Definition wide_name : list Z := [255; 15; 15; 15; 15; 15; 18].
Definition wide_elf : elf := MkElf [] [0; 0; 1] [0; 0] [null_symbol; MkSymbol wide_name 1 18 0 1 0x100 4].

Lemma one_symbol_module f d buckets name :
  buckets = [1] \/ buckets = [0; 0; 1] -> elf_hash name mod Z.of_nat (length buckets) = Z.of_nat (length buckets) - 1 ->
  name <> [] -> Forall char_ok name -> Forall dyn_range d ->
  let e := MkElf d buckets [0; 0] [null_symbol; MkSymbol name 1 18 0 1 0x100 4] in
  bytes_atb (elf_image f e) (dynamic f) (concat (dyn_bytes <$> e_dyn e) ++ le 8 0) = true ->
  bytes_atb (elf_image f e) (hash f) (concat (le 4 <$>
    Z.of_nat (length (e_buckets e)) :: Z.of_nat (length (e_chains e)) :: e_buckets e ++ e_chains e)) = true ->
  bytes_atb (elf_image f e) (symtab f) (concat (symbol_bytes <$> e_syms e)) = true ->
  bytes_atb (elf_image f e) (strtab f) [0] = true -> bytes_atb (elf_image f e) (strtab f + 1) (name ++ [0]) = true ->
  symtab f <> 0 -> strtab f <> 0 -> hash f <> 0 -> module_at (elf_image f e) f e.
Proof.
  intros Hb Hh Hne Hch Hd e H1 H2 H3 H4 H5 ? ? ?.
  assert (chain [0; 0] 1 [1%nat]) as Hc1 by (split; [done |]; split; [done |]; by exists 0).
  assert (exists i, buckets !! Z.to_nat (Z.of_nat (length buckets) - 1) = Some i /\ i = 1) as (i & Hi & ->)
    by (destruct Hb as [-> | ->]; by eexists).
  split; [| split; [| done]].
  - split; try by apply bytes_atb_ok.
    intros [| [| j]] s [= <-]; apply bytes_atb_ok; [| exact H5].
    cbn [sy_name sy_string null_symbol app]. by rewrite Z.add_0_r.
  - clear H1 H2 H3 H4 H5. split; simpl.
    + done.
    + destruct Hb as [-> | ->]; (split; [done |]; split; [done |]); by repeat constructor.
    + split; [done |]. split; [done |]. by repeat constructor.
    + split; [by repeat constructor |]. by repeat constructor.
    + intros j Hj. destruct (decide (j = 0)) as [-> | Hj0]; [by exists [] |]. exists [1%nat].
      assert (j = 1) as ->; [| done].
      destruct Hb as [-> | ->]; rewrite !elem_of_cons, elem_of_nil in Hj; intuition congruence.
    + intros [| [| j]] s [= <-] Hs Hn; [done |]. exists 1, [1%nat]. simpl. rewrite Hh. split; [done |].
      split; [done | apply list_elem_of_here].
    + intros [| [| j]] [| [| k]] s s' [= <-] [= <-]; simpl; congruence.
Qed.

Lemma chars_ok l : forallb (fun c => (0 <? c) && (c <? 256)) l = true -> Forall char_ok l.
Proof.
  intros H. apply Forall_forall. intros c Hc. rewrite forallb_forall in H.
  specialize (H c (proj1 (list_elem_of_In _ _) Hc)). unfold char_ok. lia.
Qed.

Lemma test_module_at : module_at (elf_image test_fields test_elf) test_fields test_elf.
Proof.
  apply (one_symbol_module test_fields [(7, 0x2000); (8, 48); (9, 24)] [1] [102]);
    [by left | reflexivity | discriminate | by apply chars_ok | | vm_compute; reflexivity .. | | |]; [| discriminate ..].
  repeat constructor; discriminate.
Qed.

Lemma symbol_lookup_witness :
  _inner_ResolveLoadSymbol 5 (elf_image test_fields test_elf) test_module [102]
  = Some (Result_of_raw 0, Some (0x7000 + sizeof_Sym * Z.of_nat 1)).
Proof.
  apply (symbol_lookup 5 (elf_image test_fields test_elf) test_module test_elf [102]).
  - exact test_module_at.
  - discriminate.
  - by apply chars_ok.
  - left. cbn [no_carry]. split; [reflexivity | exact I].
  - cbn. lia.
Defined.

(** A defined symbol that the lookup does not find: the hash of its name carries, and
    the code looks in bucket 0 for what the specification puts in bucket 2. *)
Theorem hash_carry_missed :
  module_at (elf_image wide_fields wide_elf) wide_fields wide_elf /\
  (exists s, elf_symbol wide_elf wide_name = Some (1%nat, s)) /\
  _inner_ResolveLoadSymbol 5 (elf_image wide_fields wide_elf) (Module_ wide_fields []) wide_name
  = Some (ResultCouldNotResolveSymbol, None).
Proof.
  split; [| split; [by eexists | vm_compute; reflexivity]].
  apply (one_symbol_module wide_fields [] [0; 0; 1] wide_name);
    [by right | reflexivity | discriminate | by apply chars_ok | constructor | vm_compute; reflexivity .. | | |]; discriminate.
Qed.

Lemma dlsym_wrong_base_witness :
  dlsym 5 test_image (Some (Module_ client_fields [test_module])) [102] = Some (u64 (0x9000 + 0x100)) /\
  (0x9000 <> 0x1000 -> u64 (0x9000 + 0x100) <> u64 (0x1000 + 0x100)).
Proof.
  apply (dlsym_wrong_base 5 test_image client_fields test_module [] [102] 0x7018 0x100 None);
    try (vm_compute; reflexivity); simpl; lia.
Defined.

(** The bytes at the two targets are there, and not part of the image. *)
Lemma test_targets b : 0x5000 <= b < 0x5010 -> test_image !! b = None /\ is_Some (test_memory !! b).
Proof.
  intros Hb.
  assert (forallb (fun k => let b := 0x5000 + Z.of_nat k in
    bool_decide (test_image !! b = None) && bool_decide (is_Some (test_memory !! b))) (seq 0 16) = true) as H
    by (vm_compute; reflexivity).
  rewrite forallb_forall in H. specialize (H (Z.to_nat (b - 0x5000)) ltac:(apply in_seq; lia)). cbv zeta in H.
  replace (0x5000 + Z.of_nat (Z.to_nat (b - 0x5000))) with b in H by lia.
  apply andb_true_iff in H as [H1 H2]. by apply bool_decide_eq_true in H1, H2.
Qed.

Lemma test_image_sub : elf_image test_fields test_elf ⊆ test_image /\ test_image ⊆ test_memory.
Proof.
  split; (apply write_subseteq; [| done]); [| intros b Hb; apply test_targets; exact Hb].
  intros b Hb. assert (forallb (fun k => bool_decide (elf_image test_fields test_elf !! (0x3000 + Z.of_nat k) = None)) (seq 0 48) = true)
    as H by (vm_compute; reflexivity).
  rewrite forallb_forall in H. change (Z.of_nat (length (concat (rela_bytes <$> test_relas)))) with 48 in Hb.
  specialize (H (Z.to_nat (b - 0x3000)) ltac:(apply in_seq; lia)). cbv beta in H.
  replace (0x3000 + Z.of_nat (Z.to_nat (b - 0x3000))) with b in H by lia. by apply bool_decide_eq_true in H.
Qed.

Lemma test_relas_ok : Forall (rela_ok test_elf) test_relas.
Proof.
  apply List.Forall_cons; [| apply List.Forall_cons; [| constructor]];
    (split; [by repeat (split; try done) |]; split; [by apply (bool_decide_unpack _) |]); [| done].
  intros _. exists (MkSymbol [102] 1 18 0 1 0x100 4). split; [done |]. split; [done |]. left. by split.
Qed.

