(* ===== verification/Witnesses.v ===== *)
(** * Concrete instances of the theorems on the pthread library

    Each lemma applies one theorem to a state of Scenario.v: two started threads,
    an object of the kind in question and caller's variables. *)

From stdpp Require Import base list gmap relations strings.
From Stdlib Require Import ZArith Lia.
From S2P Require Import Prelude CMem Prog PthreadH Phal Internal Exec Mutex MutexSpec Cond Sem RwLock Barrier Tls Thread Attr Interleave Scenario Deadlocks MutexProtocol MutexExcl OnceExcl.
Local Open Scope Z_scope.

#[local] Existing Instance DocPhal.
#[local] Existing Instance idle_callbacks.

(** Evaluate a lookup or any closed equation; [cvals] also takes conjunctions,
    closed inequalities and values that are only claimed to exist. *)
Ltac cval := vm_compute; reflexivity.
Ltac cvals :=
  lazymatch goal with
  | |- _ /\ _ => split; cvals
  | |- is_Some _ => eexists; cval
  | |- exists _, _ => eexists; cvals
  | |- _ <> _ => vm_compute; congruence
  | |- _ = _ => cval
  | |- _ => first [lia | cval]
  end.

Lemma thread_obj_inj t u : thread_obj t = thread_obj u -> t = u.
Proof. destruct t, u; unfold thread_obj, initial_thread; lia. Qed.

Lemma thread_obj_nonnull t : thread_obj t <> NULL.
Proof. destruct t; unfold thread_obj, initial_thread, NULL; lia. Qed.

(** ** Mutexes *)
Definition mutex_world (ty : Z) : world := with_mutex ty (started_world 2).

Lemma mutex_mutual_exclusion_witness :
  exclusive (w_marks (c_world (schedule [(0, 20); (1, 400)]%nat
    (Config (mutex_world PTHREAD_MUTEX_NORMAL) (cs_pool (ptr 10) [ByLock; ByTrylock]))))).
Proof.
  refine (proj1 (mutex_mutual_exclusion 2 50 (ptr 10) PTHREAD_MUTEX_NORMAL thread_obj
    (mutex_world PTHREAD_MUTEX_NORMAL) [ByLock; ByTrylock] _ _ _ _)).
  - split; try cvals.
    + intros [| [| t]] Ht; [cval | cval | lia].
    + exact thread_obj_inj.
    + exact thread_obj_nonnull.
  - reflexivity.
  - apply schedule_reachable.
Defined.

Lemma mutex_lock_refines_witness :
  meets 0 50 (ptr 10) (mutex_world PTHREAD_MUTEX_NORMAL) (AMutex PTHREAD_MUTEX_NORMAL None 0)
    (alock initial_thread false false (AMutex PTHREAD_MUTEX_NORMAL None 0))
    (run 200 0 (pthread_mutex_lock (ptr 10)) (mutex_world PTHREAD_MUTEX_NORMAL)).
Proof.
  apply (mutex_lock_refines 0 initial_thread 50 (ptr 10) 200 _ false None false).
  - split; cval.
  - done.
  - exists 0. split; [done |]. split; [done |]. split; try cvals; cval.
  - split; cval.
  - reflexivity.
Defined.

Lemma mutex_unlock_refines_witness :
  meets 0 50 (ptr 10) (mutex_world PTHREAD_MUTEX_NORMAL) (AMutex PTHREAD_MUTEX_NORMAL None 0)
    (aunlock initial_thread (AMutex PTHREAD_MUTEX_NORMAL None 0))
    (run 5 0 (pthread_mutex_unlock (ptr 10)) (mutex_world PTHREAD_MUTEX_NORMAL)).
Proof.
  apply (mutex_unlock_refines 0 initial_thread 50 (ptr 10) 5).
  - split; cval.
  - done.
  - exists 0. split; [done |]. split; [done |]. split; try cvals; cval.
  - split; cval.
Defined.

Lemma mutex_recursive_nesting_witness :
  exists w1 w2 w3,
    run 5 0 (all_ok 3 (pthread_mutex_lock (ptr 10))) (mutex_world PTHREAD_MUTEX_RECURSIVE)
      = Done w1 tt /\
    mutex_rep 50 (ptr 10) (AMutex PTHREAD_MUTEX_RECURSIVE (Some initial_thread) 2) w1 /\
    run 5 0 (all_ok 2 (pthread_mutex_unlock (ptr 10))) w1 = Done w2 tt /\
    mutex_rep 50 (ptr 10) (AMutex PTHREAD_MUTEX_RECURSIVE (Some initial_thread) 0) w2 /\
    run 5 0 (pthread_mutex_unlock (ptr 10)) w2 = Done w3 0 /\
    mutex_rep 50 (ptr 10) (AMutex PTHREAD_MUTEX_RECURSIVE None 0) w3.
Proof.
  apply (mutex_recursive_nesting 5 0 initial_thread 50 (ptr 10) 2).
  - split; cval.
  - done.
  - split; cval.
  - vm_compute. congruence.
  - exists 0. split; [done |]. split; [done |]. split; try cvals; cval.
Defined.

(** No object number from [w_next] on occurs in the heap. *)
Definition fresh_check (w : world) : bool :=
  (0 <? w_next w) && forallb (fun kv => kv.1.1 <? w_next w) (map_to_list (w_heap w)).

Lemma fresh_check_ok w : fresh_check w = true -> fresh_world w.
Proof.
  intros [H1 H2]%andb_true_iff. split; [lia |]. intros l v Hl.
  rewrite forallb_forall in H2.
  specialize (H2 (l, v)). simpl in H2. apply Z.ltb_lt, H2, list_elem_of_In, elem_of_map_to_list, Hl.
Qed.

Lemma mutex_static_lock_witness :
  exists w', run 5 0 (pthread_mutex_lock (ptr 12)) (started_world 2) = Done w' 0 /\
    mutex_rep 1000 (ptr 12) (AMutex PTHREAD_MUTEX_DEFAULT (Some initial_thread) 0) w' /\
    w_heap w' !! gv f_static_init_lock = Some ATOMIC_LOCK_UNLOCKED /\
    forall l, l.1 <> 1000 -> l <> ptr 12 -> w_heap w' !! l = w_heap (started_world 2) !! l.
Proof.
  apply (mutex_static_lock 0 initial_thread (ptr 12) 5 (started_world 2)).
  - split; cval.
  - done.
  - split; cval.
  - apply fresh_check_ok. cval.
  - done.
  - lia.
Defined.

Lemma mutex_static_lock_oom_witness :
  exists w', run 5 0 (pthread_mutex_lock (ptr 12)) (set_oom [true] (started_world 2)) = Done w' EINVAL /\
    w_oom w' = [] /\ forall l, w_heap w' !! l = w_heap (set_oom [true] (started_world 2)) !! l.
Proof.
  apply (mutex_static_lock_oom 0 initial_thread (ptr 12) 5 [] (set_oom [true] (started_world 2))).
  - split; cval.
  - split; cval.
  - reflexivity.
  - lia.
Defined.

Lemma uninitialised_lock_aborts_witness :
  exists w1 w2,
    run 5 0 (pthread_mutex_lock (ptr 10)) (with_mutex PTHREAD_MUTEX_DEFAULT boot_world) = Done w1 0 /\
    run 5 1 (pthread_mutex_lock (ptr 10)) w1 = Aborted w2.
Proof.
  apply (uninitialised_lock_aborts 50 (ptr 10) 5 0 1).
  - cval.
  - cval.
  - split; try cvals; cval.
Defined.

(** ** Condition variables *)
Definition cond_world (ty count : Z) : world :=
  upd_loc (50, [f_count]) count (upd_loc (50, [f_owner]) initial_thread
    (upd_loc (50, [f_lock]) LOCKED (with_cond (mutex_world ty)))).

Lemma cond_wait_releases_witness :
  exists w', run 5 0 (pthread_cond_wait (ptr 11) (ptr 10)) (cond_world PTHREAD_MUTEX_NORMAL 0) = Blocked w' /\
    hsem_at (60, [f_sem]) w' = HSem None [0%nat] /\
    mutex_rep 50 (ptr 10) (AMutex PTHREAD_MUTEX_NORMAL None 0) w'.
Proof.
  apply (cond_wait_releases 5 0 initial_thread 50 60 (ptr 10) (ptr 11) PTHREAD_MUTEX_NORMAL LOCKED []).
  - split; cval.
  - done.
  - done.
  - split; try cvals; cval.
  - by left.
  - split; cval.
  - split; cvals.
  - lia.
Defined.

Lemma cond_wait_nested_keeps_mutex_witness :
  exists w', run 5 0 (pthread_cond_wait (ptr 11) (ptr 10)) (cond_world PTHREAD_MUTEX_RECURSIVE 1) = Blocked w' /\
    hsem_at (60, [f_sem]) w' = HSem None [0%nat] /\
    mutex_rep 50 (ptr 10) (AMutex PTHREAD_MUTEX_RECURSIVE (Some initial_thread) 0) w'.
Proof.
  apply (cond_wait_nested_keeps_mutex 5 0 initial_thread 50 60 (ptr 10) (ptr 11) LOCKED 1 []).
  - split; cval.
  - done.
  - done.
  - lia.
  - split; try cvals; cval.
  - by left.
  - split; cval.
  - split; cvals.
  - lia.
Defined.

Lemma cond_timedwait_timeout_witness :
  exists w', run 5 0 (pthread_cond_timedwait (ptr 11) (ptr 10) (Some (1, 0)))
      (set_intr [ETIMEDOUT] (cond_world PTHREAD_MUTEX_NORMAL 0)) = Done w' ETIMEDOUT /\
    mutex_rep 50 (ptr 10) (AMutex PTHREAD_MUTEX_NORMAL (Some initial_thread) 0) w' /\
    hsem_at (60, [f_sem]) w' = HSem None [].
Proof.
  apply (cond_timedwait_timeout 5 0 initial_thread 50 60 (ptr 10) (ptr 11) PTHREAD_MUTEX_NORMAL 1 0 []).
  - split; cval.
  - done.
  - done.
  - done.
  - split; try cvals; cval.
  - cval.
  - cval.
  - split; cvals.
  - lia.
Defined.

(** ** Read-write locks *)

(** Lock 70 held by variable 13, in the given state. *)
Definition rw_world (s : rwstate) : world :=
  let w := started_world 2 in
  set_queues (<[(70, [f_writers]) := rw_writers s]> (w_queues w))
    (set_heap (<[ptr 13 := 70]> (<[(70, [f_lock]) := spin_word (rw_spin s)]>
      (<[(70, [f_owner]) := rw_owner s]> (<[(70, [f_readers]) := rw_readers s]> (w_heap w))))) w).

Lemma rw_world_at s :
  Forall (fun x => x <> NULL) (rw_writers s) -> rw_at 70 (ptr 13) s (rw_world s).
Proof.
  intros Hq. by split.
Qed.

Lemma rw_world_started s t : (t < 2)%nat -> started t (thread_obj t) (rw_world s).
Proof. intros Ht. destruct t as [| [| t]]; [| | lia]; split; cval. Qed.

Lemma rwlock_refines_witness :
  rw_meets 70 (ptr 13) (rw_world (RW 0 1 [] false))
    (RwReturns (RW 0 1 [101] true) ENOSYS)
    (fun n => run n 1 (pthread_rwlock_wrlock (ptr 13)) (rw_world (RW 0 1 [] false))) /\
  (exists w1, rw_at 1000 (ptr 19) (RW NULL 0 [] false) w1 /\
    (forall x, x.1 <> 1000 -> x <> ptr 19 -> w_heap w1 !! x = w_heap (started_world 2) !! x) /\
    rw_meets 1000 (ptr 19) w1 (RwReturns (RW 101 0 [] false) 0)
      (fun n => run n 1 (pthread_rwlock_trywrlock (ptr 19)) (started_world 2))) /\
  exists w', run 1 1 (pthread_rwlock_rdlock (ptr 19)) (set_oom [true] (started_world 2)) = Done w' ENOMEM /\
    forall x, w_heap w' !! x = w_heap (set_oom [true] (started_world 2)) !! x.
Proof.
  split; [| split].
  - apply (rwlock_refines 70 (ptr 13) 1 101 (Wr Plain) (RW 0 1 [] false)).
    + by apply (rw_world_started _ 1); lia.
    + done.
    + by apply rw_world_at.
  - apply (rwlock_refines 70 (ptr 19) 1 101 (Wr Try) (RW 0 1 [] false) (started_world 2)).
    + split; cval.
    + done.
    + split; cval.
    + apply fresh_check_ok. cval.
    + done.
    + vm_compute. congruence.
  - apply (rwlock_refines 70 (ptr 19) 1 101 (Rd Plain) (RW 0 1 [] false) (set_oom [true] (started_world 2))).
    + split; cval.
    + done.
    + split; cval.
    + apply fresh_check_ok. cval.
    + done.
    + intros H. by apply H.
Defined.

Lemma rwlock_exclusion_witness :
  exists s', rw_at 70 (ptr 13) s' (final_world
      (run 5 1 (pthread_rwlock_rdlock (ptr 13)) (rw_world (RW 0 1 [] false))) boot_world) /\
    rw_excl s'.
Proof.
  apply (rwlock_exclusion 70 (ptr 13) 1 101 (Rd Plain) (RW 0 1 [] false) 5
    (rw_world (RW 0 1 [] false)) (final_world
      (run 5 1 (pthread_rwlock_rdlock (ptr 13)) (rw_world (RW 0 1 [] false))) boot_world) 0).
  - by apply (rw_world_started _ 1); lia.
  - done.
  - by apply rw_world_at.
  - split; [cbn; lia | by left].
  - cbn. unfold INT_MAX. lia.
  - apply final_world_done. cval.
Defined.

Lemma rwlock_write_unlock_wedges_witness :
  exists w', run 1 1 (pthread_rwlock_unlock (ptr 13)) (rw_world (RW 101 0 [] false)) = Done w' ENOSYS /\
    forall n2, run n2 0 (pthread_rwlock_rdlock (ptr 13)) w' = OutOfFuel.
Proof.
  apply (rwlock_write_unlock_wedges 70 (ptr 13) 1 101 0 0 (rw_world (RW 101 0 [] false)) 0
    initial_thread (Rd Plain) Plain).
  - by apply (rw_world_started _ 1); lia.
  - by apply (rw_world_started _ 0); lia.
  - done.
  - done.
  - by apply rw_world_at.
  - done.
  - by right; left.
Defined.

(** ** Semaphores *)

(** Semaphore 80 held by variable 14. *)
Definition sem_world (v : Z) : world :=
  upd_loc (gv f_threads_ready) 1
    (set_heap (<[ptr 14 := 80]> (<[(80, [f_value]) := v]>
      (heap_alloc 80 sem_struct (w_heap (started_world 2))))) (started_world 2)).

(** The state after another thread posted and woke thread 1. *)
Definition sem_posted (w : world) : world := upd_loc (80, [f_value]) 1 (upd_hsem (80, [f_sem]) (HSem None []) w).

Lemma sem_posted_at w : sem_at 80 (ptr 14) (SemState 0 1 [1%nat]) w ->
  sem_at 80 (ptr 14) (SemState 1 1 []) (set_intr [] (sem_posted w)) /\ wait_ends 1 0 (SemState 1 1 []) (sem_posted w).
Proof.
  intros Hat. unfold sem_posted. split.
  - destruct Hat. split; cbn [s_value s_waiters s_asleep] in *; try assumption; lk || apply hsem_at_upd.
  - left. split; [reflexivity |]. split; [apply not_elem_of_nil | exact (sa_intr _ _ _ _ Hat)].
Qed.

(** Thread 1 takes a value that is there; with none it sleeps, and after a value and a
    wake-up it returns. *)
Lemma sem_refines_witness :
  sem_meets 5 1 80 (ptr 14) (sem_resumes 5 1 101 80 (ptr 14) Wait) (sem_world 3) (SemReturns (SemState 2 0 []) 0 None)
    (sem_wait (ptr 14)) /\
  exists w1 p, run 5 1 (sem_wait (ptr 14)) (sem_world 0) = Blocked w1 /\ tsteps 1 (sem_world 0, sem_wait (ptr 14)) (w1, p) /\
    sem_at 80 (ptr 14) (SemState 0 1 [1%nat]) w1 /\
    exists w2, run 5 1 p (sem_posted w1) = Done w2 0 /\
      sem_at 80 (ptr 14) (SemState 0 0 []) w2.
Proof.
  split.
  - apply (sem_refines 5 1 101 80 (ptr 14) Wait (SemState 3 0 []) (sem_world 3) 1); [lia | split; cval | cval | lia | split; cvals].
  - destruct (sem_refines 5 1 101 80 (ptr 14) Wait (SemState 0 0 []) (sem_world 0) 1) as (w1 & p & Hrun & Hst & (rest & Hp & Hw) & Hat & Hf);
      [lia | split; cval | cval | lia | split; cvals |].
    exists w1, p. split; [exact Hrun |]. split; [exact Hst |]. split; [exact Hat |].
    clear Hrun Hst. destruct (sem_posted_at w1 Hat) as [Hat2 He]. destruct (Hw p Hp _ _ _ 0 Hat2 He) as (w3 & H3 & Hat3 & _).
    + unfold sem_posted. rewrite upd_lookup_ne by (intros E; discriminate E). heap_of. rewrite Hf by (intros E; discriminate E). cval.
    + exists w3. split; [exact H3 | exact Hat3].
Defined.

(** ** Thread-specific data *)

(** Key 3 is in use and thread 1 has the value 77 for it. *)
Definition tls_world : world :=
  set_next 1000 (upd_loc (gv f_hint) 3 (upd_loc (rkey 3).@f_used 1
    (upd_loc (101, [f_local_storage]) 90
      (upd_loc (90, [f_keyid]) 3 (upd_loc (90, [f_data]) 77 (upd_loc (90, [f_next]) 0
        (started_world 2))))))).

Definition tls_entries : list entry := [Entry 90 3 77].

Lemma tls_world_at : tls_at 1 101 tls_entries tls_world.
Proof.
  split.
  - split; cval.
  - apply fresh_check_ok. cval.
  - cvals.
  - exists 90. split; [cval |]. cbn [storage tls_entries e_obj e_key e_data].
    repeat split; try lia; try cval. exists 0. split; [cval | done].
  - apply NoDup_singleton.
  - intros o [<- | []]. cbn. split; [split; cval | lia].
Qed.

Lemma tls_set_get_witness :
  exists w', run 5 1 (bind (pthread_setspecific 3 55) (fun rc =>
      if rc =? 0 then pthread_getspecific 3 else Ret (-1))) tls_world = Done w' 55.
Proof.
  apply (tls_set_get 5 1 101 tls_entries 3 3 55 tls_world).
  - exact tls_world_at.
  - cbn. lia.
  - reflexivity.
  - split; [unfold PTHREAD_KEYS_MAX; lia |]. exists 1. split; [cval | lia].
  - split; [unfold PTHREAD_KEYS_MAX; lia |]. exists 1. split; [cval | lia].
Defined.

Definition used_of (w : world) (i : Z) : Z := default 0 (w_heap w !! (rkey i).@f_used).

(** The key table of a concrete state. *)
Lemma keys_check w hint :
  w_heap w !! gv f_rkeyslock = Some 0 -> w_heap w !! gv f_hint = Some hint ->
  0 <= hint < PTHREAD_KEYS_MAX ->
  forallb (fun i => match w_heap w !! (rkey (Z.of_nat i)).@f_used,
                          w_heap w !! (rkey (Z.of_nat i)).@f_destructor with
                    | Some _, Some _ => true | _, _ => false end) (seq 0 256) = true ->
  keys_at hint (used_of w) w.
Proof.
  intros H1 H2 H3 H4. split; try done. intros i Hi. rewrite forallb_forall in H4.
  specialize (H4 (Z.to_nat i)). rewrite in_seq, Z2Nat.id in H4 by lia. unfold used_of.
  unfold PTHREAD_KEYS_MAX in Hi. specialize (H4 ltac:(lia)).
  destruct (w_heap w !! (rkey i).@f_used), (w_heap w !! (rkey i).@f_destructor); try done.
Qed.

Lemma key_create_spec_witness :
  exists w' rc, run 300 1 (pthread_key_create (ptr 15) 9) tls_world = Done w' rc /\
    ((rc = 0 /\ exists i, 0 <= i < PTHREAD_KEYS_MAX /\ used_of tls_world i = 0 /\
        w_heap w' !! ptr 15 = Some i /\ w_heap w' !! (rkey i).@f_destructor = Some 9 /\
        keys_at ((i + 1) mod PTHREAD_KEYS_MAX) (fun x => if x =? i then 1 else used_of tls_world x) w') \/
     (rc = EAGAIN /\ w' = tls_world /\ forall i, 0 <= i < PTHREAD_KEYS_MAX -> used_of tls_world i <> 0)).
Proof.
  apply (key_create_spec 300 1 (ptr 15) 9 3 (used_of tls_world) tls_world).
  - apply keys_check; [cval | cval | unfold PTHREAD_KEYS_MAX; lia | cval].
  - cval.
  - cvals.
  - cval.
Defined.

Lemma key_reuse_stale_witness :
  exists w', run 5 1 (bind (pthread_key_delete 3) (fun _ =>
      bind (pthread_key_create (ptr 15) 9) (fun _ =>
      bind (act (Load (ptr 15))) (fun key' =>
      bind (pthread_getspecific key') (fun v => Ret (key', v)))))) tls_world = Done w' (3, 77).
Proof.
  apply (key_reuse_stale 5 1 101 tls_entries 3 (used_of tls_world) (ptr 15) 9 tls_world).
  - apply keys_check; [cval | cval | unfold PTHREAD_KEYS_MAX; lia | cval].
  - exact tls_world_at.
  - vm_compute. congruence.
  - cval.
  - done.
  - cval.
  - cvals.
  - intros o [<- | []]. cbn. lia.
  - cbn. lia.
  - reflexivity.
  - cbn. lia.
Defined.

(** ** Attributes *)

(** Attribute object 95 held by variable 16. *)
Definition attr_world : world :=
  upd_loc (gv f_threads_ready) 1 (upd_loc (ptr 17) SCHED_FIFO
    (set_heap (<[ptr 16 := 95]> (heap_alloc 95 attr_struct (w_heap (started_world 2))))
      (started_world 2))).

Lemma attr_set_get_witness :
  exists w', run 5 0 (bind (attr_setter SchedPolicy (ptr 16) SCHED_FIFO (ptr 17)) (fun rc =>
      bind (attr_getter SchedPolicy (ptr 16) (ptr 18)) (fun rc2 =>
      bind (act (Load (ptr 18))) (fun x => Ret (rc, rc2, x))))) attr_world
    = Done w' (0, 0, SCHED_FIFO).
Proof.
  apply (attr_set_get 5 0 95 (ptr 16) SchedPolicy SCHED_FIFO (ptr 17) (ptr 18) attr_world).
  - split; [cvals | cval |]. intros m Hm. unfold attr_struct in Hm.
    repeat (apply elem_of_cons in Hm as [-> | Hm]; [cvals |]). by apply not_elem_of_nil in Hm.
  - cval.
  - cvals.
  - cbn. lia.
Defined.

Lemma attr_setstack_never_witness :
  run 5 0 (pthread_attr_setstacksize (ptr 16) 65536) attr_world = Done attr_world EINVAL /\
  run 5 0 (pthread_attr_setstackaddr (ptr 16) 4096) attr_world = Done attr_world EINVAL /\
  run 5 0 (pthread_attr_setstack (ptr 16) 4096 65536) attr_world = Done attr_world EINVAL.
Proof.
  apply (attr_setstack_never 5 0 (ptr 16) 65536 4096 attr_world); [cval | cval | lia | lia].
Defined.

(** ** One-time initialisation *)

(** Every callback leaves a mark. *)
Definition marking_callbacks : Callbacks :=
  fun f _ t w => Some (set_marks (w_marks w ++ [(t, f)]) w, 0).

(** A control block in object 20 with an initialised mutex. *)
Definition once_world : world :=
  upd_loc ((ptr 20).@f_mutex) 50 (upd_loc ((ptr 20).@f_state) PTHREAD_NEEDS_INIT
    (mutex_world PTHREAD_MUTEX_DEFAULT)).

Lemma once_exactly_once_witness :
  exists w', @run marking_callbacks unit 5 0
      (all_ok 3 (pthread_once (ptr 20) 33)) once_world = Done w' tt /\
    @once_at 0 initial_thread 50 (ptr 20) PTHREAD_DONE_INIT w' /\ w_marks w' = [(0%nat, 33)].
Proof.
  apply (@once_exactly_once marking_callbacks 5 0 initial_thread 50 (ptr 20) 33 2 once_world).
  - by intros w.
  - done.
  - split.
    + split; cval.
    + split; try cvals; cval.
    + cval.
    + cval.
    + split; cval.
Defined.

Lemma once_world_ready : once_ready 2 50 (ptr 20) PTHREAD_MUTEX_DEFAULT thread_obj once_world.
Proof.
  split; [| cval | cval | by constructor].
  split; try cvals.
  - intros [| [| t]] Ht; [cval | cval | lia].
  - exact thread_obj_inj.
  - exact thread_obj_nonnull.
Qed.

(** Two threads race for the control block: thread 0 stops inside, with the mutex
    taken, and thread 1 goes to sleep; thread 0 finishes and thread 1 is woken. *)
Definition once_asleep : config :=
  @schedule marking_callbacks [(0, 14); (1, 400)]%nat
    (Config once_world (replicate 2 (once_client (ptr 20) 33))).
Definition once_race : config := @schedule marking_callbacks [(0, 18); (1, 40)]%nat once_asleep.

Lemma once_concurrent_witness :
  h_waiting (hsem_at (50, [f_sem]) (c_world once_asleep)) = [1%nat] /\
  w_marks (c_world once_race) = [(0%nat, 33); (0%nat, 0); (1%nat, 0)] /\
  once_trace 33 (w_marks (c_world once_race)) /\ @safe marking_callbacks once_race.
Proof.
  split; [vm_compute; reflexivity |]. split; [vm_compute; reflexivity |].
  apply (@once_concurrent marking_callbacks DocPhal _ _ 2 50 (ptr 20) PTHREAD_MUTEX_DEFAULT thread_obj 33 once_world).
  - exact once_world_ready.
  - intros t w. exists (set_marks (w_marks w ++ [(t, 33)]) w), 0. by repeat split.
  - unfold reachable, once_race, once_asleep. etrans; apply schedule_reachable.
Defined.

(** ** Threads *)
Definition thread_world (fl : Z) : world :=
  upd_loc (gv f_threads_ready) 1 (upd_loc (101, [f_flags]) fl
    (upd_loc (101, [f_donesem; f_value]) 1 (upd_loc (101, [f_retval]) 42
      (set_queues (<[gv f_thread_list := [101]]> (w_queues (started_world 2))) (started_world 2))))).

Lemma detached_thread_leaks_witness :
  exists w', run 5 1 (bind (_rthread_release 101) (fun _ => _rthread_reaper))
      (thread_world THREAD_DETACHED) = Done w' tt /\
    lists_at [] [101] w' /\ Forall (undone w') [101] /\
    (forall l, w_heap w' !! l = w_heap (thread_world THREAD_DETACHED) !! l).
Proof.
  apply (detached_thread_leaks 5 1 101 THREAD_DETACHED [101] [] [] (thread_world THREAD_DETACHED)).
  - split; cval.
  - by constructor.
  - lia.
  - by intros ?%elem_of_nil.
  - cval.
  - cval.
  - vm_compute. congruence.
  - cval.
  - cval.
  - cbn. lia.
Defined.

Lemma join_finished_witness :
  exists w', run 5 0 (pthread_join 101 (ptr 19)) (thread_world THREAD_DONE) = Done w' 0 /\
    w_heap w' !! ptr 19 = Some 42 /\ w_queues w' !! gv f_thread_gc_list = Some [] /\
    heap_live 101 (w_heap w') = false.
Proof.
  apply (join_finished 5 0 initial_thread 101 42 (ptr 19) 1 [101] [] (thread_world THREAD_DONE)).
  - split; cval.
  - done.
  - split; try cvals; cval.
  - cval.
  - cval.
  - lia.
  - split; cval.
  - by constructor.
  - cval.
  - cbn. lia.
  - by intros [].
  - cvals.
  - cbn. lia.
Defined.
